(* ===== verification/_CoqProject ===== *)
-Q . S2P
Prelude.v
IntCodec.v
MiscArith.v
Checksum.v
Addr.v
DeviceUdp.v
LinkedLists.v
Pending.v
ChunkBuffer.v
FlowIface.v
FlowViews.v
PacketProto.v
PacketBuffer.v
FlowComponents.v
PacketProtoFlow.v
OrderedTree.v
BAVL.v
BAVLTree.v
BAVLRefines.v
BReactor.v
ReactorLoop.v
ReactorViews.v
BConnection.v
ConnectionIO.v
FairQueue.v
UdpGwClient.v
TcpClient.v
TcpClientFacts.v
TcpRelay.v
BSocksClient.v
SocksHandshake.v
SocksUdpGwClient.v
UdpGwSession.v
