(* ===== verification/Prelude.v ===== *)
(** * Verification of the native tun2socks component

    The Psiphon Android client tunnels the traffic of other applications by reading IP packets
    from a TUN device in native code, the badvpn tree under src/app/src/main/jni/badvpn/: TCP
    connections are terminated by lwIP and relayed through a SOCKS proxy, UDP datagrams are
    multiplexed over one SOCKS connection to a udpgw server. This development models the parts
    of that program that carry its own logic and proves what makes them correct.

    ** The program

    Everything runs on one thread, in the loop of the reactor (system/BReactor_badvpn.c): it
    runs the jobs of a queue (base/BPending.c) until there are none, then what timers and file
    descriptors have to say, and waits when nothing is left. Objects call each other directly
    downwards; a call upwards is made from a job. Packets and streams move between objects
    through four asynchronous interfaces (flow/PacketPassInterface and its siblings), each a
    state machine between a user and a provider; at the end of a stream is a connection
    (system/BConnection_unix.c), which the reactor tells when it can go on.

    A TCP connection that lwIP accepts is a client of tun2socks/tun2socks.c with a SOCKS client
    (socksclient/BSocksClient.c) of its own, and the relay carries bytes between the two until
    both sides are closed. UDP datagrams go from the device (tun2socks/tun2socks.c) to the udpgw
    client (udpgw_client/UdpGwClient.c), which keeps one flow per pair of addresses
    (flow/PacketProtoFlow, that is flow/BufferWriter, flow/PacketProtoEncoder and
    flow/PacketBuffer) and shares one connection among the flows (flow/PacketPassFairQueue over
    structure/BAVL.h); from there packets pass through an inactivity monitor and a connector
    that survives reconnection (flowextra/PacketPassInactivityMonitor, flow/PacketPassConnector)
    and are written to the stream (flow/PacketStreamSender). Answers come back through
    flow/PacketProtoDecoder and are framed into IP packets for the device. The stream of the udpgw
    client is a SOCKS client's, which tun2socks/SocksUdpGwClient.c makes again, some time after it
    was lost.

    ** The modelling

    C integers are integers of Z with their wrap-around written out; signed results that must
    be representable go through [int_result]. Memory an object owns is a list of bytes read and
    written by offset, an access outside it is the fault [OutOfBounds]. A handler of an object
    is a [prog]: a function from the object's fields to a result, its new fields and the calls it
    makes to other objects, in order; [ASSERT] is [passert], and a theorem that a handler
    returns [Ok] says that no assertion fails and no access leaves its object. Where an object
    stands between interfaces, the machine of each interface is part of its state and a step
    is one event at one of them, in any order the contracts allow; what cannot be seen in the
    fields is kept in a ghost record beside them. Assertions are modelled as in a debug build,
    the fields that only such a build has included.

    ** The files

    - Prelude.v: record update, faults, the monads, what programs leave as it was ([frames]),
      byte memory, sequences of steps;
    - IntCodec.v: byte order and packed integers (misc/byteorder.h, misc/read_write_int.h);
    - MiscArith.v: overflow-checked arithmetic and the udpgw MTU (misc/bsize.h, misc/balign.h,
      misc/modadd.h, misc/overflow.h, protocol/udpgw_proto.h), for both widths of size_t;
    - Checksum.v: IP and UDP headers, checksums and checks (misc/ipv4_proto.h, ipv6_proto.h,
      udp_proto.h);
    - Addr.v: socket addresses and their order (system/BAddr.h);
    - DeviceUdp.v: the datagram path of tun2socks/tun2socks.c between device and udpgw client;
    - LinkedLists.v: the intrusive lists over a heap (structure/LinkedList1.h,
      SLinkedList_impl.h);
    - Pending.v: the job queue over those lists (base/BPending.c);
    - ChunkBuffer.v: the block buffer of packets (structure/ChunkBuffer2.h);
    - FlowIface.v: the interfaces, Modules PPI, PRI and SPI, and the composition [run_on];
      FlowViews.v: what their users see of them;
    - PacketProto.v: framing on a stream (flow/PacketProtoEncoder.c, PacketProtoDecoder.c);
    - PacketBuffer.v: flow/PacketBuffer.c over the chunk buffer;
    - FlowComponents.v: Modules Monitor, Connector and StreamSender, one per source file;
    - PacketProtoFlow.v: Modules BufferWriter (flow/BufferWriter.c) and PPF
      (flow/PacketProtoFlow.c, the writer, the encoder and the buffer composed);
    - OrderedTree.v: the class [OrdTree], what the intrusive trees promise their users, and its
      laws [OrdTreeOk]; a sorted list is an instance;
    - BAVL.v: structure/BAVL.h over the memory of its nodes; BAVLTree.v: the trees that such
      memory holds; BAVLRefines.v: the tree as a sorted list, and as an instance of the class;
    - BReactor.v: system/BReactor_badvpn.c and system/BTime.h, for any tree of the class;
      ReactorLoop.v: its users, its steps and its theorems; ReactorViews.v: what each user sees
      of it, and the types of its values;
    - BConnection.v: system/BConnection_unix.c over the reactor; ConnectionIO.v: its steps and
      theorems;
    - FairQueue.v: flow/PacketPassFairQueue.c, for any tree of the class;
    - UdpGwClient.v: udpgw_client/UdpGwClient.c, with two trees of the class;
    - TcpClient.v: the TCP relay of tun2socks/tun2socks.c; TcpClientFacts.v: what each of its
      handlers does to one client; TcpRelay.v: all clients together, and the theorems;
    - BSocksClient.v: socksclient/BSocksClient.c and misc/socks_proto.h; SocksHandshake.v: its
      steps and theorems;
    - SocksUdpGwClient.v: tun2socks/SocksUdpGwClient.c over the udpgw client, the SOCKS client and
      the reactor; UdpGwSession.v: its steps and theorems.

    ** The theorems

    Refinement: the lists, the AVL tree, the job queue and the chunk buffer implement a list of
    nodes, a sorted list, a stack of jobs and a queue of packets; the udpgw client is a cache
    of address pairs in the order of their last use; what the SOCKS client exchanges with its
    server is a SOCKS5 handshake. Safety: whatever the network, the device, the kernel and the
    other objects do, in any order, no assertion of the relay, the SOCKS client, the udpgw
    client, the queue, the connections or the reactor fails, nothing is used after it was freed
    and no access leaves its object. Streams: the relay and the connections carry their bytes in
    order, whole and once; what is encoded is decoded to the same packets however the stream is
    cut; a stream sender transmits a prefix of what it accepted; a buffer delivers in order.
    Liveness and termination: a connection that ends in order is drained; no timer, descriptor
    or operation is forgotten; no flow of the queue starves; the udpgw client is connected,
    connecting, or waiting with its timer set; the handshake, the waits of the reactor and the
    loops of the tree end. Types: what the reactor keeps and passes on stays in its C types. Errors: the relay's callbacks answer lwIP as it
    requires, the device path and the decoder accept exactly what is well formed. Each property
    is stated over the states reachable by any sequence of events that the other parties may
    cause ([reachable], [star]); a hypothesis says what they may not do, and each such theorem
    is followed by a run that satisfies it.

    ** Bounds and fuel

    Loops that are not structural carry fuel, and the theorems on them show that it is enough:
    folding a checksum to 16 bits ([fold_fuel], 3 rounds); closing a client of the relay, whose
    functions call each other ([close_fuel], 3 calls deep) and sending out what it received
    (as many rounds as bytes in the buffer); the search for a free connection identifier and
    the freeing of all connections (as many rounds as there are); the walks of the AVL tree
    ([fuel_of], one more than its nodes) and the timers that have expired ([tree_fuel], one more
    than the timers). The wait of the reactor is structural in the list of answers that the
    kernel gives.

    ** Not modelled

    The lwIP stack, third-party, which the relay meets as answers and calls; the kernel, whose
    answers are arguments; the relay's use of a SOCKS client and the SOCKS client's use of a
    connection are modelled at each side, not as one machine of all objects. Of the sources in
    the Android library: listening sockets and Unix addresses of system/BConnection_unix.c,
    which it has no use for; logging, signals, command lines and the start of the program
    (base/BLog.c, system/BSignal.c, system/BUnixSignal.c, main of tun2socks/tun2socks.c). The
    badvpn programs that are not part of it (client, server, ncd and the tools) with the parts
    of flow/, misc/, structure/ and system/ that only they use, generated parsers, and the Java
    side. The assertions of DebugObject, which check only that objects are initialised and not
    freed, are left out. *)

From Stdlib Require Export ZArith Lia List Bool.
From stdpp Require Export base tactics list numbers option gmap.
Export ListNotations.

#[global] Open Scope Z_scope.
#[global] Set Warnings "-clear-no-such-hyp".

(** * Record update *)

(** [eta r] rebuilds a record from its fields. A record declares it once, and
    [r <| f := v |>] is elaborated from it. *)
Class Eta (R : Type) := eta : R -> R.
Class Update {R T : Type} (f : R -> T) := update : (T -> T) -> R -> R.
Arguments update {R T} f {_} _ _ : simpl never.

Ltac make_update f :=
  match goal with
  | |- @Update ?R ?T _ =>
    let u := constr:(fun (g : T -> T) (r : R) =>
      ltac:(let b := eval cbv beta iota delta [eta] in (eta r) in
            let b := eval hnf in b in
            let p := eval pattern (f r) in b in
            match p with ?h _ => exact (h (g (f r))) end)) in
    exact u
  end.
#[export] Hint Extern 1 (Update ?f) => make_update f : typeclass_instances.

Declare Scope record_scope.
Delimit Scope record_scope with rec.
Notation "r <| f := v |>" := (update f (fun _ => v) r)
  (at level 1, f at next level, left associativity, format "r <| f  :=  v |>") : record_scope.
Notation "r <| f ::= g |>" := (update f g r)
  (at level 1, f at next level, left associativity, format "r <| f  ::=  g |>") : record_scope.
#[global] Open Scope record_scope.

(** * Faults, results and programs *)

(** What a C function can do instead of returning: fail an [ASSERT], touch memory
    outside the object it was given, or leave the range of a signed type. *)
Inductive fault : Type :=
| AssertFailed
| OutOfBounds
| SignedOverflow
| FuelExhausted.

Inductive res (A : Type) : Type :=
| Ok (a : A)
| Err (f : fault).
Arguments Ok {A} a.
Arguments Err {A} f.

#[export] Instance res_ret : MRet res := fun A a => Ok a.
#[export] Instance res_bind : MBind res := fun A B k m =>
  match m with Ok a => k a | Err f => Err f end.

(** [ASSERT(b)] of misc/debug.h in a pure function. *)
Definition rassert (b : bool) : res unit := if b then Ok tt else Err AssertFailed.

Definition is_ok {A} (m : res A) : Prop := exists a, m = Ok a.

(** A handler of an object: it reads and writes the object's fields [S], and the calls it
    makes to other objects are listed, in order, as values of [C]. *)
Definition prog (S C A : Type) : Type := S -> res (A * S * list C).

Section prog.
Context {S C : Type}.

#[export] Instance prog_ret : MRet (prog S C) := fun A a s => Ok (a, s, []).
#[export] Instance prog_bind : MBind (prog S C) := fun A B k m s =>
  match m s with
  | Ok (a, s1, c1) =>
    match k a s1 with
    | Ok (b, s2, c2) => Ok (b, s2, c1 ++ c2)
    | Err f => Err f
    end
  | Err f => Err f
  end.

Definition pget : prog S C S := fun s => Ok (s, s, []).
Definition pmod (g : S -> S) : prog S C unit := fun s => Ok (tt, g s, []).
Definition pread {A} (g : S -> A) : prog S C A := fun s => Ok (g s, s, []).
Definition pcall (c : C) : prog S C unit := fun s => Ok (tt, s, [c]).
Definition passert (b : bool) : prog S C unit := fun s =>
  if b then Ok (tt, s, []) else Err AssertFailed.
Definition plift {A} (m : res A) : prog S C A := fun s =>
  match m with Ok a => Ok (a, s, []) | Err f => Err f end.
Definition pskip : prog S C unit := mret tt.
End prog.

(** Running a program one step at a time. *)
Lemma pbind_ok {S C A B} (p : prog S C A) (k : A -> prog S C B) s a s1 :
  p s = Ok (a, s1, []) -> (p ≫= k) s = k a s1.
Proof.
  intros Hp; unfold mbind, prog_bind; rewrite Hp; destruct (k a s1) as [[[b s2] c]|]; done.
Qed.
Lemma pbind_calls {S C A B} (p : prog S C A) (k : A -> prog S C B) s a s1 c1 b s2 c2 :
  p s = Ok (a, s1, c1) -> k a s1 = Ok (b, s2, c2) -> (p ≫= k) s = Ok (b, s2, c1 ++ c2).
Proof. intros Hp Hk; unfold mbind, prog_bind; rewrite Hp, Hk; done. Qed.
Lemma passert_ok {S C} b (s : S) : b = true -> passert b s = Ok (tt, s, @nil C).
Proof. intros ->; done. Qed.
(** A step that computes, and one that equation [H] describes. *)
Ltac pstep := etransitivity; [eapply pbind_ok; reflexivity|]; cbv beta.
Ltac pstep_by tac := etransitivity; [eapply pbind_ok; tac|]; cbv beta.

(** ** Frames *)

Section frames.
Context {S C : Type} (R : relation S) (P : C -> Prop).

(** Every run of [p] moves along [R] and makes only calls of [P]. *)
Definition frames {A} (p : prog S C A) : Prop := forall s a s' ks, p s = Ok (a, s', ks) -> R s s' /\ Forall P ks.

Lemma frames_fail {A} f : frames (fun _ => Err f : res (A * S * list C)).
Proof. intros s a s' ks [=]. Qed.
Lemma frames_mod (g : S -> S) : (forall s, R s (g s)) -> frames (pmod g).
Proof. intros Hg s a s' ks [= _ <- <-]; split; [apply Hg | constructor]. Qed.

Context `{!PreOrder R}.
Lemma frames_call c : P c -> frames (pcall c).
Proof. intros Hc s a s' ks [= _ <- <-]; split; [reflexivity | constructor; [exact Hc | constructor]]. Qed.
Lemma frames_bind {A B} (p : prog S C A) (k : A -> prog S C B) : frames p -> (forall a, frames (k a)) -> frames (p ≫= k).
Proof.
  intros Hp Hk s b s' ks; unfold mbind, prog_bind; destruct (p s) as [[[a s1] c1]|] eqn:E1; [|done].
  destruct (k a s1) as [[[b1 s2] c2]|] eqn:E2; [|done]; intros [= <- <- <-].
  destruct (Hp _ _ _ _ E1) as [R1 F1], (Hk _ _ _ _ _ E2) as [R2 F2]; split; [etransitivity; done | apply Forall_app; done].
Qed.
Lemma frames_same {A} (p : prog S C A) : (forall s a s' ks, p s = Ok (a, s', ks) -> s' = s /\ ks = []) -> frames p.
Proof. intros Hp s a s' ks E; destruct (Hp _ _ _ _ E) as [-> ->]; split; [reflexivity | constructor]. Qed.
Lemma frames_ret {A} (a : A) : frames (mret a).
Proof. apply frames_same; intros ? ? ? ? [= _ <- <-]; done. Qed.
Lemma frames_skip : frames pskip.
Proof. apply frames_ret. Qed.
Lemma frames_get : frames pget.
Proof. apply frames_same; intros ? ? ? ? [= _ <- <-]; done. Qed.
Lemma frames_read {A} (f : S -> A) : frames (pread f).
Proof. apply frames_same; intros ? ? ? ? [= _ <- <-]; done. Qed.
Lemma frames_assert b : frames (passert b).
Proof. apply frames_same; intros ? ? ? ?; unfold passert; destruct b; [intros [= _ <- <-]|]; done. Qed.
Lemma frames_lift {A} (m : res A) : frames (plift m).
Proof. apply frames_same; intros ? ? ? ?; unfold plift; destruct m; [intros [= _ <- <-]|]; done. Qed.
Lemma frames_if {A} (b : bool) (p q : prog S C A) : frames p -> frames q -> frames (if b then p else q).
Proof. destruct b; done. Qed.
End frames.

(** Follows a program, leaving what is particular to it. *)
Ltac frame_step :=
  lazymatch goal with
  | |- frames _ _ (mbind _ _) => apply frames_bind; [apply _| |intros ?]
  | |- frames _ _ (mret _) => apply frames_ret; apply _ | |- frames _ _ pskip => apply frames_skip; apply _
  | |- frames _ _ pget => apply frames_get; apply _ | |- frames _ _ (pread _) => apply frames_read; apply _
  | |- frames _ _ (pcall _) => apply frames_call; [apply _|]; try done | |- frames _ _ (passert _) => apply frames_assert; apply _
  | |- frames _ _ (plift _) => apply frames_lift; apply _
  | |- frames _ _ (pmod _) => apply frames_mod; intros ?; try done
  | |- frames _ _ (fun _ => Err _) => apply frames_fail
  | |- frames _ _ (if ?b then _ else _) => destruct b
  | |- frames _ _ (match ?b with _ => _ end) => destruct b
  end.

(** Unfolds the monad, leaving the tests and the states of the program. *)
Ltac prog_simpl :=
  cbv beta iota zeta delta [mbind mret res_ret res_bind prog_ret prog_bind pget pmod pread
    pcall passert plift pskip rassert] in *.

(** Decides the tests of the goal that arithmetic settles. *)
Ltac test_true b := replace b with true by (symmetry; lia).
Ltac test_false b := replace b with false by (symmetry; lia).
Ltac decide_tests :=
  repeat match goal with
  | |- context [if ?b then _ else _] =>
      lazymatch type of b with bool => first [ test_true b | test_false b ] end
  end.

(** Linear arithmetic with division and remainder by constants. *)
Ltac lia_div := Z.to_euclidean_division_equations; lia.

(** Equality of lists of known length, element by element. *)
Ltac list_arith := repeat (apply (f_equal2 cons); [lia_div|]); reflexivity.

(** Splits on the tests of the goal, dropping the branches that arithmetic excludes. *)
Ltac split_tests :=
  repeat match goal with
  | |- context [if ?b then _ else _] =>
      lazymatch type of b with
      | bool => let E := fresh "Htest" in destruct b eqn:E; try (exfalso; lia)
      end
  end.

(** * Machine integers *)

(** Values of unsigned types are integers in [0, 2^w); [wrap w] is the conversion to them. *)
Definition wrap (w x : Z) : Z := x mod 2 ^ w.
Definition UINT8_MAX : Z := 255.
Definition UINT16_MAX : Z := 65535.
Definition UINT32_MAX : Z := 4294967295.
Definition INT_MAX : Z := 2147483647.
Definition INT_MIN : Z := -2147483648.

Definition is_u8 (x : Z) : Prop := 0 <= x < 256.
Definition is_u16 (x : Z) : Prop := 0 <= x < 65536.
Definition is_u32 (x : Z) : Prop := 0 <= x < 4294967296.
Definition is_int (x : Z) : Prop := INT_MIN <= x <= INT_MAX.

(** Arithmetic on [int] whose result must be representable. *)
Definition int_result (x : Z) : res Z :=
  if (INT_MIN <=? x) && (x <=? INT_MAX) then Ok x else Err SignedOverflow.

Lemma int_result_ok x : is_int x -> int_result x = Ok x.
Proof. unfold is_int, int_result, INT_MIN, INT_MAX; intros; decide_tests; done. Qed.

Lemma wrap_small w x : 0 <= x < 2 ^ w -> wrap w x = x.
Proof. apply Z.mod_small. Qed.

Lemma wrap_range w x : 0 <= w -> 0 <= wrap w x < 2 ^ w.
Proof. intros; apply Z.mod_pos_bound; lia. Qed.

(** * Memory: byte arrays read and written by offset *)

Definition Zlen {A} (l : list A) : Z := Z.of_nat (length l).
Definition ztake {A} (n : Z) (l : list A) : list A := take (Z.to_nat n) l.
Definition zdrop {A} (n : Z) (l : list A) : list A := drop (Z.to_nat n) l.
(** The [len] elements of [l] from offset [off]. *)
Definition slice {A} (off len : Z) (l : list A) : list A := ztake len (zdrop off l).

(** [memcpy] out of and into a byte array; an access outside the array is a fault. *)
Definition mem_read {A} (m : list A) (off len : Z) : res (list A) :=
  if (0 <=? off) && (0 <=? len) && (off + len <=? Zlen m)
  then Ok (slice off len m) else Err OutOfBounds.
Definition mem_set {A} (m : list A) (off : Z) (d : list A) : list A :=
  ztake off m ++ d ++ zdrop (off + Zlen d) m.
Definition mem_write {A} (m : list A) (off : Z) (d : list A) : res (list A) :=
  if (0 <=? off) && (off + Zlen d <=? Zlen m)
  then Ok (mem_set m off d) else Err OutOfBounds.
(** [memmove] inside one array. *)
Definition mem_move {A} (m : list A) (dst src len : Z) : res (list A) :=
  d ← mem_read m src len; mem_write m dst d.

Section slices.
Context {A : Type}.
Implicit Types (l m d : list A) (n k off len : Z).

Lemma Zlen_length l : Zlen l = Z.of_nat (length l).
Proof. done. Qed.
Lemma Zlen_nonneg l : 0 <= Zlen l.
Proof. unfold Zlen; lia. Qed.
Lemma Zlen_nil : Zlen (@nil A) = 0.
Proof. done. Qed.
Lemma Zlen_cons x l : Zlen (x :: l) = 1 + Zlen l.
Proof. unfold Zlen; cbn [length]; lia. Qed.
Lemma Zlen_app l m : Zlen (l ++ m) = Zlen l + Zlen m.
Proof. unfold Zlen; rewrite length_app; lia. Qed.
Lemma Zlen_nil_inv l : Zlen l = 0 -> l = [].
Proof. unfold Zlen; destruct l; cbn; [done | lia]. Qed.
Lemma Zlen_ztake n l : Zlen (ztake n l) = Z.min (Z.max 0 n) (Zlen l).
Proof. unfold Zlen, ztake; rewrite length_take; lia. Qed.
Lemma Zlen_zdrop n l : Zlen (zdrop n l) = Z.max 0 (Zlen l - Z.max 0 n).
Proof. unfold Zlen, zdrop; rewrite length_drop; lia. Qed.
Lemma Zlen_slice off len l : 0 <= off -> 0 <= len -> off + len <= Zlen l ->
  Zlen (slice off len l) = len.
Proof. intros; unfold slice; rewrite Zlen_ztake, Zlen_zdrop; lia. Qed.

Lemma ztake_0 l : ztake 0 l = [].
Proof. done. Qed.
Lemma zdrop_0 l : zdrop 0 l = l.
Proof. done. Qed.
Lemma ztake_all n l : Zlen l <= n -> ztake n l = l.
Proof. intros; unfold ztake; apply take_ge; unfold Zlen in *; lia. Qed.
Lemma zdrop_all n l : Zlen l <= n -> zdrop n l = [].
Proof. intros; unfold zdrop; apply drop_ge; unfold Zlen in *; lia. Qed.
Lemma ztake_zdrop n l : ztake n l ++ zdrop n l = l.
Proof. apply take_drop. Qed.
Lemma zdrop_zdrop n k l : 0 <= n -> 0 <= k -> zdrop n (zdrop k l) = zdrop (k + n) l.
Proof. intros; unfold zdrop; rewrite drop_drop; f_equal; lia. Qed.
Lemma ztake_ztake n k l : 0 <= n <= k -> ztake n (ztake k l) = ztake n l.
Proof. intros; unfold ztake; rewrite take_take; f_equal; lia. Qed.
Lemma ztake_add n k l : 0 <= n -> 0 <= k ->
  ztake (n + k) l = ztake n l ++ ztake k (zdrop n l).
Proof.
  intros; unfold ztake, zdrop.
  rewrite take_take_drop; f_equal; lia.
Qed.
Lemma zdrop_ztake n k l : 0 <= n -> zdrop n (ztake k l) = ztake (k - n) (zdrop n l).
Proof. intros; unfold ztake, zdrop; rewrite skipn_firstn_comm; f_equal; lia. Qed.

Lemma ztake_app_le n l m : n <= Zlen l -> ztake n (l ++ m) = ztake n l.
Proof. intros; unfold ztake; apply take_app_le; unfold Zlen in *; lia. Qed.
Lemma ztake_app_ge n l m : Zlen l <= n -> ztake n (l ++ m) = l ++ ztake (n - Zlen l) m.
Proof.
  intros; unfold ztake; rewrite take_app_ge by (unfold Zlen in *; lia).
  do 2 f_equal; unfold Zlen in *; lia.
Qed.
Lemma ztake_app_eq n l m : n = Zlen l -> ztake n (l ++ m) = l.
Proof. intros ->; rewrite ztake_app_le, ztake_all; done. Qed.
Lemma zdrop_app_le n l m : n <= Zlen l -> zdrop n (l ++ m) = zdrop n l ++ m.
Proof. intros; unfold zdrop; apply drop_app_le; unfold Zlen in *; lia. Qed.
Lemma zdrop_app_ge n l m : Zlen l <= n -> zdrop n (l ++ m) = zdrop (n - Zlen l) m.
Proof.
  intros; unfold zdrop; rewrite drop_app_ge by (unfold Zlen in *; lia).
  f_equal; unfold Zlen in *; lia.
Qed.
Lemma zdrop_app_eq n l m : n = Zlen l -> zdrop n (l ++ m) = m.
Proof. intros ->; rewrite zdrop_app_ge, Z.sub_diag; done. Qed.

Lemma slice_all l : slice 0 (Zlen l) l = l.
Proof. apply ztake_all; done. Qed.
Lemma slice_0 off l : slice off 0 l = [].
Proof. done. Qed.
Lemma slice_split off n k l : 0 <= off -> 0 <= n -> 0 <= k ->
  slice off (n + k) l = slice off n l ++ slice (off + n) k l.
Proof.
  intros; unfold slice; rewrite ztake_add by lia; rewrite zdrop_zdrop by lia; done.
Qed.
Lemma slice_slice o1 n1 o2 n2 l : 0 <= o1 -> 0 <= o2 -> 0 <= n2 -> o2 + n2 <= n1 ->
  slice o2 n2 (slice o1 n1 l) = slice (o1 + o2) n2 l.
Proof.
  intros; unfold slice; rewrite zdrop_ztake, ztake_ztake, zdrop_zdrop by lia; done.
Qed.
Lemma slice_app_l off len l m : 0 <= off -> 0 <= len -> off + len <= Zlen l ->
  slice off len (l ++ m) = slice off len l.
Proof.
  intros; unfold slice; rewrite zdrop_app_le by lia.
  apply ztake_app_le; rewrite Zlen_zdrop; lia.
Qed.
Lemma slice_app_r off len l m : Zlen l <= off ->
  slice off len (l ++ m) = slice (off - Zlen l) len m.
Proof. intros; unfold slice; rewrite zdrop_app_ge; done. Qed.

Lemma Zlen_mem_set m off d : 0 <= off -> off + Zlen d <= Zlen m ->
  Zlen (mem_set m off d) = Zlen m.
Proof.
  intros; unfold mem_set; rewrite !Zlen_app, Zlen_ztake, Zlen_zdrop.
  pose proof (Zlen_nonneg d); lia.
Qed.
Lemma Zlen_mem_set_gen m off d : Zlen (mem_set m off d) =
  Z.min (Z.max 0 off) (Zlen m) + (Zlen d + Z.max 0 (Zlen m - Z.max 0 (off + Zlen d))).
Proof. unfold mem_set; rewrite !Zlen_app, Zlen_ztake, Zlen_zdrop; done. Qed.
Lemma Zlen_slice_gen off len l :
  Zlen (slice off len l) = Z.min (Z.max 0 len) (Z.max 0 (Zlen l - Z.max 0 off)).
Proof. unfold slice; rewrite Zlen_ztake, Zlen_zdrop; done. Qed.
Lemma slice_mem_set_eq m off d : 0 <= off -> off + Zlen d <= Zlen m ->
  slice off (Zlen d) (mem_set m off d) = d.
Proof.
  intros; unfold mem_set, slice; pose proof (Zlen_nonneg d).
  rewrite zdrop_app_eq by (rewrite Zlen_ztake; lia).
  apply ztake_app_eq; done.
Qed.
Lemma slice_mem_set_before m off d o n : 0 <= o -> 0 <= n -> o + n <= off ->
  off + Zlen d <= Zlen m -> slice o n (mem_set m off d) = slice o n m.
Proof.
  intros; unfold mem_set; pose proof (Zlen_nonneg d).
  rewrite slice_app_l by (rewrite ?Zlen_ztake; lia).
  unfold slice; rewrite zdrop_ztake, ztake_ztake by lia; done.
Qed.
Lemma slice_mem_set_after m off d o n : 0 <= off -> off + Zlen d <= o ->
  off + Zlen d <= Zlen m -> slice o n (mem_set m off d) = slice o n m.
Proof.
  intros; unfold mem_set, slice; pose proof (Zlen_nonneg d).
  rewrite app_assoc, zdrop_app_ge by (rewrite Zlen_app, Zlen_ztake; lia).
  rewrite zdrop_zdrop by (rewrite ?Zlen_app, ?Zlen_ztake; lia).
  do 2 f_equal; rewrite Zlen_app, Zlen_ztake; lia.
Qed.

Lemma mem_read_ok m off len : 0 <= off -> 0 <= len -> off + len <= Zlen m ->
  mem_read m off len = Ok (slice off len m).
Proof. intros; unfold mem_read; decide_tests; done. Qed.
Lemma mem_read_inv m off len d : mem_read m off len = Ok d ->
  0 <= off /\ 0 <= len /\ off + len <= Zlen m /\ d = slice off len m.
Proof. unfold mem_read; case_match eqn:E; intros; simplify_eq; split_and!; done || lia. Qed.
Lemma mem_write_ok m off d : 0 <= off -> off + Zlen d <= Zlen m ->
  mem_write m off d = Ok (mem_set m off d).
Proof. intros; unfold mem_write; decide_tests; done. Qed.
End slices.

Create Rewrite HintDb zlen.
#[export] Hint Rewrite @Zlen_cons @Zlen_app @Zlen_ztake @Zlen_zdrop : zlen.
#[global] Arguments Zlen : simpl never.
#[export] Hint Rewrite @Zlen_slice_gen @Zlen_mem_set_gen : zlen.

(** Normalises lengths everywhere, then linear arithmetic. *)
Ltac zlen_facts :=
  repeat match goal with
  | |- context [@Zlen ?A ?l] =>
      is_var l; lazymatch goal with H : 0 <= Zlen l |- _ => fail | _ => pose proof (Zlen_nonneg l) end
  | H : context [@Zlen ?A ?l] |- _ =>
      is_var l; lazymatch goal with H : 0 <= Zlen l |- _ => fail | _ => pose proof (Zlen_nonneg l) end
  end.
Ltac zlen_nil :=
  repeat match goal with
  | |- context [@Zlen ?A []] => change (@Zlen A []) with 0
  | H : context [@Zlen ?A []] |- _ => change (@Zlen A []) with 0 in H
  end.
Ltac zlen := autorewrite with zlen in *; zlen_nil; zlen_facts; lia.

(** * Bytes *)

Definition bytes_ok (l : list Z) : Prop := Forall is_u8 l.

Lemma bytes_ok_app l m : bytes_ok (l ++ m) <-> bytes_ok l /\ bytes_ok m.
Proof. apply Forall_app. Qed.
Lemma bytes_ok_ztake n l : bytes_ok l -> bytes_ok (ztake n l).
Proof. apply Forall_take. Qed.
Lemma bytes_ok_zdrop n l : bytes_ok l -> bytes_ok (zdrop n l).
Proof. apply Forall_drop. Qed.
Lemma bytes_ok_slice off n l : bytes_ok l -> bytes_ok (slice off n l).
Proof. intros; apply bytes_ok_ztake, bytes_ok_zdrop; done. Qed.
Lemma bytes_ok_mem_set m off d : bytes_ok m -> bytes_ok d -> bytes_ok (mem_set m off d).
Proof.
  intros; unfold mem_set; rewrite !bytes_ok_app.
  split_and!; [apply bytes_ok_ztake | | apply bytes_ok_zdrop]; done.
Qed.
Create HintDb bytes.
#[export] Hint Resolve bytes_ok_ztake bytes_ok_zdrop bytes_ok_slice bytes_ok_mem_set : bytes.

(** Literal byte strings are checked by computation. *)
Lemma bytes_ok_lit l : forallb (fun x => (0 <=? x) && (x <? 256)) l = true -> bytes_ok l.
Proof.
  intros H; apply List.Forall_forall; intros x Hx; unfold is_u8.
  apply (proj1 (List.forallb_forall _ l) H) in Hx; lia.
Qed.

(** The byte at an offset ([ptr[i]]); only used on offsets a test has checked. *)
Definition byte_at (i : Z) (l : list Z) : Z := nth (Z.to_nat i) l 0.

Lemma byte_at_ok i l : bytes_ok l -> is_u8 (byte_at i l).
Proof.
  intros Hl; unfold byte_at.
  destruct (nth_in_or_default (Z.to_nat i) l 0) as [Hin| ->]; [|unfold is_u8; lia].
  unfold bytes_ok in Hl; rewrite List.Forall_forall in Hl; auto.
Qed.

Lemma mem_write_app {A} (m : list A) d p q :
  mem_write m d (p ++ q) = match mem_write m d p with Ok m1 => mem_write m1 (d + Zlen p) q | Err e => Err e end.
Proof.
  unfold mem_write; rewrite Zlen_app; pose proof (Zlen_nonneg p); pose proof (Zlen_nonneg q).
  destruct (Z.leb_spec 0 d), (Z.leb_spec (d + (Zlen p + Zlen q)) (Zlen m)), (Z.leb_spec (d + Zlen p) (Zlen m));
    cbn [andb]; try lia; try done; rewrite ?Zlen_mem_set by lia.
  - test_true (0 <=? d + Zlen p); test_true (d + Zlen p + Zlen q <=? Zlen m); cbn [andb]; f_equal.
    unfold mem_set; rewrite Zlen_app; set (r := zdrop (d + Zlen p) m).
    assert (Zlen (ztake d m) = d) as Hd by (rewrite Zlen_ztake; lia).
    rewrite (ztake_app_ge (d + Zlen p)), (zdrop_app_ge (d + Zlen p + Zlen q)), Hd by lia.
    rewrite (ztake_app_eq (d + Zlen p - d)), (zdrop_app_ge _ p), <- !app_assoc by lia; do 3 f_equal.
    unfold r; rewrite zdrop_zdrop by lia; f_equal; lia.
  - test_true (0 <=? d + Zlen p); test_false (d + Zlen p + Zlen q <=? Zlen m); done.
Qed.

Lemma slice_at {A} off len (p q r : list A) : off = Zlen p -> len = Zlen q -> slice off len (p ++ q ++ r) = q.
Proof.
  intros -> ->; pose proof (Zlen_nonneg p); pose proof (Zlen_nonneg q).
  rewrite slice_app_r, slice_app_l by lia; rewrite Z.sub_diag; apply slice_all.
Qed.

Lemma slice_rest {A} (d : list A) off : 0 <= off <= Zlen d -> slice off (Zlen d - off) d = zdrop off d.
Proof. intros; unfold slice; apply ztake_all; rewrite Zlen_zdrop; lia. Qed.
Lemma slice_append {A} (m p : list A) t u : 0 <= t <= u -> u + Zlen p <= Zlen m ->
  slice t (Zlen p + u - t) (mem_set m u p) = slice t (u - t) m ++ p.
Proof.
  intros Ht Hu; pose proof (Zlen_nonneg p); replace (Zlen p + u - t) with ((u - t) + Zlen p) by lia.
  rewrite slice_split by lia; f_equal; [apply slice_mem_set_before; lia|].
  replace (t + (u - t)) with u by lia; apply slice_mem_set_eq; lia.
Qed.

(** * Sequences of steps *)

Inductive star {A} (R : A -> A -> Prop) : A -> A -> Prop :=
| star_refl a : star R a a
| star_step a b c : star R a b -> R b c -> star R a c.

(** An invariant of the steps is an invariant of every state they reach. *)
Lemma star_invariant {A} (R : A -> A -> Prop) (I : A -> Prop) :
  (forall a b, I a -> R a b -> I b) -> forall a b, star R a b -> I a -> I b.
Proof. intros HI a b; induction 1; eauto. Qed.
