(* ===== verification/IntCodec.v ===== *)
(** Byte order conversion and integer codecs: misc/byteorder.h and misc/read_write_int.h,
    for the little-endian hosts the Android build targets (BADVPN_LITTLE_ENDIAN). *)

From S2P Require Import Prelude.

(** * Memory representation of unsigned integers on the host *)

Fixpoint host_bytes (n : nat) (x : Z) : list Z :=
  match n with
  | O => []
  | S n => Z.land x 255 :: host_bytes n (Z.shiftr x 8)
  end.

Fixpoint host_val (l : list Z) : Z :=
  match l with
  | [] => 0
  | b :: l => b + 256 * host_val l
  end.

(** * misc/byteorder.h *)

Definition badvpn_reverse16 (x : Z) : Z :=
  let p := host_bytes 2 x in host_val [byte_at 1 p; byte_at 0 p].
Definition badvpn_reverse32 (x : Z) : Z :=
  let p := host_bytes 4 x in host_val [byte_at 3 p; byte_at 2 p; byte_at 1 p; byte_at 0 p].
Definition badvpn_reverse64 (x : Z) : Z :=
  let p := host_bytes 8 x in
  host_val [byte_at 7 p; byte_at 6 p; byte_at 5 p; byte_at 4 p;
            byte_at 3 p; byte_at 2 p; byte_at 1 p; byte_at 0 p].

Definition hton8 (x : Z) : Z := x.
Definition htol8 (x : Z) : Z := x.
Definition hton16 (x : Z) : Z := badvpn_reverse16 x.
Definition hton32 (x : Z) : Z := badvpn_reverse32 x.
Definition hton64 (x : Z) : Z := badvpn_reverse64 x.
Definition htol16 (x : Z) : Z := x.
Definition htol32 (x : Z) : Z := x.
Definition htol64 (x : Z) : Z := x.
Definition ntoh8 (x : Z) : Z := hton8 x.
Definition ntoh16 (x : Z) : Z := hton16 x.
Definition ntoh32 (x : Z) : Z := hton32 x.
Definition ntoh64 (x : Z) : Z := hton64 x.
Definition ltoh8 (x : Z) : Z := htol8 x.
Definition ltoh16 (x : Z) : Z := htol16 x.
Definition ltoh32 (x : Z) : Z := htol32 x.
Definition ltoh64 (x : Z) : Z := htol64 x.

(** * misc/read_write_int.h *)

Definition badvpn_read_le8 (p : list Z) : Z := Z.shiftl (byte_at 0 p) 0.
Definition badvpn_read_le16 (p : list Z) : Z :=
  Z.lor (Z.shiftl (byte_at 1 p) 8) (Z.shiftl (byte_at 0 p) 0).
Definition badvpn_read_le32 (p : list Z) : Z :=
  Z.lor (Z.lor (Z.lor (Z.shiftl (byte_at 3 p) 24) (Z.shiftl (byte_at 2 p) 16))
               (Z.shiftl (byte_at 1 p) 8)) (Z.shiftl (byte_at 0 p) 0).
Definition badvpn_read_be8 (p : list Z) : Z := Z.shiftl (byte_at 0 p) 0.
Definition badvpn_read_be16 (p : list Z) : Z :=
  Z.lor (Z.shiftl (byte_at 0 p) 8) (Z.shiftl (byte_at 1 p) 0).
Definition badvpn_read_be32 (p : list Z) : Z :=
  Z.lor (Z.lor (Z.lor (Z.shiftl (byte_at 0 p) 24) (Z.shiftl (byte_at 1 p) 16))
               (Z.shiftl (byte_at 2 p) 8)) (Z.shiftl (byte_at 3 p) 0).

(** The writers return the bytes stored at [ptr[0]], [ptr[1]], ... *)
Definition badvpn_write_le8 (x : Z) : list Z := [wrap 8 (Z.shiftr x 0)].
Definition badvpn_write_le16 (x : Z) : list Z := [wrap 8 (Z.shiftr x 0); wrap 8 (Z.shiftr x 8)].
Definition badvpn_write_le32 (x : Z) : list Z :=
  [wrap 8 (Z.shiftr x 0); wrap 8 (Z.shiftr x 8); wrap 8 (Z.shiftr x 16); wrap 8 (Z.shiftr x 24)].
Definition badvpn_write_be8 (x : Z) : list Z := [wrap 8 (Z.shiftr x 0)].
Definition badvpn_write_be16 (x : Z) : list Z := [wrap 8 (Z.shiftr x 8); wrap 8 (Z.shiftr x 0)].
Definition badvpn_write_be32 (x : Z) : list Z :=
  [wrap 8 (Z.shiftr x 24); wrap 8 (Z.shiftr x 16); wrap 8 (Z.shiftr x 8); wrap 8 (Z.shiftr x 0)].

(** * Lemmas *)

Lemma lor_shiftl_add a b n : 0 <= n -> 0 <= b < 2 ^ n ->
  Z.lor (Z.shiftl a n) b = a * 2 ^ n + b.
Proof.
  intros; rewrite <- Z.shiftl_mul_pow2 by lia.
  symmetry; rewrite <- Z.lxor_lor; [apply Z.add_nocarry_lxor|]; apply Z.bits_inj'; intros i Hi;
    rewrite Z.land_spec, Z.bits_0.
  all: destruct (Z.ltb_spec i n);
    [rewrite Z.shiftl_spec_low by lia; done|];
    rewrite andb_comm; replace (Z.testbit b i) with false; [done|];
    symmetry; rewrite <- (Z.mod_small b (2 ^ n)) by lia; apply Z.mod_pow2_bits_high; lia.
Qed.

Lemma shiftr_div x n : 0 <= n -> Z.shiftr x n = x / 2 ^ n.
Proof. apply Z.shiftr_div_pow2. Qed.

Lemma host_bytes_length n x : length (host_bytes n x) = n.
Proof. revert x; induction n; intros; cbn [host_bytes length]; auto. Qed.

Lemma Zlen_host_bytes n x : Zlen (host_bytes n x) = Z.of_nat n.
Proof. rewrite Zlen_length, host_bytes_length; done. Qed.
#[export] Hint Rewrite @Zlen_host_bytes : zlen.

Lemma host_bytes_ok n x : bytes_ok (host_bytes n x).
Proof.
  revert x; induction n; intros; cbn [host_bytes]; constructor; [|apply IHn].
  change 255 with (Z.ones 8); rewrite Z.land_ones by lia; apply Z.mod_pos_bound; done.
Qed.

Lemma host_val_bytes n x : host_val (host_bytes n x) = x mod 256 ^ Z.of_nat n.
Proof.
  revert x; induction n; intros; cbn [host_bytes host_val]; [rewrite Z.mod_1_r; done|].
  rewrite IHn, shiftr_div by lia; change 255 with (Z.ones 8); rewrite Z.land_ones by lia.
  rewrite Nat2Z.inj_succ, Z.pow_succ_r by lia; change (2 ^ 8) with 256.
  rewrite Z.rem_mul_r by (try apply Z.pow_nonzero; lia); lia.
Qed.

Lemma host_val_bound l : bytes_ok l -> 0 <= host_val l < 256 ^ Zlen l.
Proof.
  induction 1 as [|b l Hb Hl IH]; cbn [host_val]; [done|].
  rewrite Zlen_cons, Z.add_comm, Z.pow_add_r by (pose proof (Zlen_nonneg l); lia).
  unfold is_u8 in Hb; lia.
Qed.

Lemma host_bytes_val l : bytes_ok l -> host_bytes (length l) (host_val l) = l.
Proof.
  induction 1 as [|b l Hb Hl IH]; cbn [host_val host_bytes length]; [done|].
  change 255 with (Z.ones 8); unfold is_u8 in Hb.
  rewrite Z.land_ones, shiftr_div by lia; change (2 ^ 8) with 256.
  f_equal; [lia_div|].
  transitivity (host_bytes (length l) (host_val l)); [f_equal; lia_div | done].
Qed.

Lemma host_bytes_slice (n : nat) off len d : bytes_ok d -> len = Z.of_nat n -> 0 <= off ->
  off + len <= Zlen d -> host_bytes n (host_val (slice off len d)) = slice off len d.
Proof.
  intros Hd -> Ho Hn; assert (length (slice off (Z.of_nat n) d) = n) as HL.
  { apply Nat2Z.inj; rewrite <- Zlen_length, Zlen_slice by lia; done. }
  rewrite <- HL at 1; apply host_bytes_val; auto with bytes.
Qed.

Lemma host_val_bytes_id n x : 0 <= x < 256 ^ Z.of_nat n -> host_val (host_bytes n x) = x.
Proof. intros; rewrite host_val_bytes; apply Z.mod_small; done. Qed.

(** The representations in use have 2, 4 or 8 bytes. *)
Ltac host_simpl :=
  cbv [byte_at Z.to_nat Pos.to_nat Pos.iter_op Init.Nat.add nth host_bytes host_val].

Lemma bytes_ok_inv b l : bytes_ok (b :: l) -> is_u8 b /\ bytes_ok l.
Proof. apply Forall_cons_1. Qed.

(** The bytes of a 2-, 4- or 8-byte integer as arithmetic. *)
Lemma land_255 x : Z.land x 255 = x mod 256.
Proof. change 255 with (Z.ones 8); apply Z.land_ones; lia. Qed.
Lemma shiftr_8 x : Z.shiftr x 8 = x / 256.
Proof. rewrite shiftr_div by lia; done. Qed.
Lemma div_256_256 x : x / 256 / 256 = x / 65536.
Proof. rewrite Z.div_div by lia; done. Qed.

Lemma reverse16_eq x : badvpn_reverse16 x = x / 256 mod 256 + 256 * (x mod 256).
Proof. unfold badvpn_reverse16; host_simpl; rewrite !land_255, !shiftr_8; lia. Qed.

Lemma reverse16_range x : is_u16 (badvpn_reverse16 x).
Proof. rewrite reverse16_eq; unfold is_u16; lia_div. Qed.

Lemma reverse16_involutive x : is_u16 x -> badvpn_reverse16 (badvpn_reverse16 x) = x.
Proof. rewrite !reverse16_eq; unfold is_u16; intros; lia_div. Qed.

Lemma read_be16_eq a b l : is_u8 b -> badvpn_read_be16 (a :: b :: l) = 256 * a + b.
Proof.
  intros; unfold badvpn_read_be16; host_simpl; rewrite Z.shiftl_0_r.
  rewrite lor_shiftl_add by (unfold is_u8 in *; lia); lia.
Qed.

Lemma ntoh16_hton16 x : is_u16 x -> ntoh16 (hton16 x) = x.
Proof. apply reverse16_involutive. Qed.
Lemma ntoh16_hton16_eq x y : is_u16 x -> x = y -> ntoh16 (hton16 x) = y.
Proof. intros ? <-; apply ntoh16_hton16; done. Qed.
Lemma hton16_ntoh16 x : is_u16 x -> hton16 (ntoh16 x) = x.
Proof. apply reverse16_involutive. Qed.
Lemma hton16_range x : is_u16 (hton16 x).
Proof. apply reverse16_range. Qed.
Lemma ntoh16_range x : is_u16 (ntoh16 x).
Proof. apply reverse16_range. Qed.

Lemma read_be32_eq a b c d l : is_u8 b -> is_u8 c -> is_u8 d ->
  badvpn_read_be32 (a :: b :: c :: d :: l) = 16777216 * a + 65536 * b + 256 * c + d.
Proof.
  unfold is_u8; intros; unfold badvpn_read_be32; host_simpl.
  rewrite Z.shiftl_0_r, <- !Z.lor_assoc.
  rewrite (lor_shiftl_add c d 8) by lia; rewrite (lor_shiftl_add b _ 16) by lia.
  rewrite lor_shiftl_add; lia.
Qed.

Lemma host_bytes_hton16 x : host_bytes 2 (hton16 x) = [x / 256 mod 256; x mod 256].
Proof.
  unfold hton16; rewrite reverse16_eq; cbn [host_bytes]; rewrite !land_255, !shiftr_8.
  list_arith.
Qed.

Lemma read_be16_hton16 x l : is_u16 x -> badvpn_read_be16 (host_bytes 2 (hton16 x) ++ l) = x.
Proof.
  intros; rewrite host_bytes_hton16; cbn [app]; rewrite read_be16_eq.
  all: unfold is_u16, is_u8 in *; lia_div.
Qed.

(** Reversing the representation twice gives it back, at each width. *)
Lemma host_rev_rev n x : 0 <= x < 256 ^ Z.of_nat n ->
  host_val (rev (host_bytes n (host_val (rev (host_bytes n x))))) = x.
Proof.
  intros; pose proof (host_bytes_val (rev (host_bytes n x))) as Hrev.
  rewrite length_rev, host_bytes_length in Hrev.
  rewrite Hrev, rev_involutive, host_val_bytes, Z.mod_small; [done..|].
  apply Forall_rev, host_bytes_ok.
Qed.

Lemma ntoh16_inj x y : is_u16 x -> is_u16 y -> ntoh16 x = ntoh16 y -> x = y.
Proof. intros Hx Hy E; rewrite <- (hton16_ntoh16 x), E, hton16_ntoh16; done. Qed.
Lemma ntoh32_inj x y : is_u32 x -> is_u32 y -> ntoh32 x = ntoh32 y -> x = y.
Proof.
  intros Hx Hy E; rewrite <- (host_rev_rev 4 x), <- (host_rev_rev 4 y) by done.
  f_equal; f_equal; f_equal; apply E.
Qed.

Lemma host_bytes_rev n x : host_bytes n (host_val (rev (host_bytes n x))) = rev (host_bytes n x).
Proof.
  pose proof (host_bytes_val (rev (host_bytes n x))) as Hrev.
  rewrite length_rev, host_bytes_length in Hrev; apply Hrev, Forall_rev, host_bytes_ok.
Qed.

Lemma hton32_bytes x : host_bytes 4 (hton32 x) = rev (host_bytes 4 x).
Proof. apply (host_bytes_rev 4). Qed.

Lemma host_byte_spec n x i : (i < n)%nat ->
  nth i (host_bytes n x) 0 = x / 256 ^ Z.of_nat i mod 256.
Proof.
  revert x i; induction n as [|n IH]; intros x [|i] Hi; try lia; cbn [host_bytes nth].
  - rewrite land_255, Z.pow_0_r, Z.div_1_r; done.
  - rewrite IH, shiftr_8, Nat2Z.inj_succ, Z.pow_succ_r by lia.
    rewrite Z.div_div by (try apply Z.pow_pos_nonneg; lia); done.
Qed.

(** Converting to network order and back is the identity at every width, and the bytes of
    a converted integer are the integer in big-endian order, as the readers of
    misc/read_write_int.h see it. *)
Theorem ntoh_hton_roundtrip :
  (forall x, is_u16 x -> ntoh16 (hton16 x) = x /\ badvpn_read_be16 (host_bytes 2 (hton16 x)) = x) /\
  (forall x, is_u32 x -> ntoh32 (hton32 x) = x /\ badvpn_read_be32 (host_bytes 4 (hton32 x)) = x) /\
  (forall x, 0 <= x < 2 ^ 64 -> ntoh64 (hton64 x) = x).
Proof.
  split_and!; intros x Hx; try split.
  - apply (host_rev_rev 2); done.
  - rewrite <- (app_nil_r (host_bytes 2 _)); apply read_be16_hton16; done.
  - apply (host_rev_rev 4); done.
  - rewrite hton32_bytes; cbn [host_bytes rev app]; rewrite !land_255, !shiftr_8.
    unfold is_u32 in Hx; rewrite read_be32_eq; unfold is_u8; lia_div.
  - apply (host_rev_rev 8); done.
Qed.

Lemma ntoh_hton_roundtrip_witness :
  ntoh16 (hton16 258) = 258 /\ badvpn_read_be16 (host_bytes 2 (hton16 258)) = 258.
Proof.
  destruct ntoh_hton_roundtrip as (H & _); apply (H 258); split; [discriminate | reflexivity].
Defined.
