(* ===== verification/MiscArith.v ===== *)
(** Checked and aligned arithmetic: misc/bsize.h, misc/balign.h, misc/modadd.h,
    misc/minmax.h, misc/overflow.h, misc/compare.h, and the MTU computation of
    protocol/udpgw_proto.h. *)

From S2P Require Import Prelude.

(** The width of [size_t], 32 or 64 on the ABIs the library is built for. *)
Class Arch := { size_bits : Z; size_bits_range : size_bits = 32 \/ size_bits = 64 }.
Definition arm64 : Arch := {| size_bits := 64; size_bits_range := or_intror eq_refl |}.
Definition arm32 : Arch := {| size_bits := 32; size_bits_range := or_introl eq_refl |}.

Definition b2z (b : bool) : Z := if b then 1 else 0.

(** * misc/minmax.h, misc/compare.h, misc/modadd.h *)

Definition bmin (a b : Z) : Z := if a <? b then a else b.
Definition bmax (a b : Z) : Z := if b <? a then a else b.
Definition B_COMPARE (a b : Z) : Z := b2z (b <? a) - b2z (a <? b).

Definition bmodadd (x y m : Z) : res Z :=
  rassert (0 <=? x);; rassert (x <? m);; rassert (0 <=? y);; rassert (y <? m);;
  d ← int_result (m - x);
  if d <=? y then int_result (y - d) else int_result (x + y).

(** * misc/overflow.h *)

Definition add_unsigned_overflows (max a b : Z) : Z := b2z (max - a <? b).
Definition add_signed_overflows (min max a b : Z) : Z :=
  if xorb (a <? 0) (b <? 0) then 0
  else if a <? 0 then - b2z (a <? min - b)
  else b2z (max - b <? a).

Section arch.
Context `{Arch}.

Definition SIZE_MAX : Z := 2 ^ size_bits - 1.
Definition is_size (x : Z) : Prop := 0 <= x <= SIZE_MAX.
Definition to_size (x : Z) : Z := wrap size_bits x.

(** * misc/bsize.h *)

Record bsize_t := { is_overflow : bool; bvalue : Z }.

Definition bsize_fromsize (v : Z) : bsize_t := {| is_overflow := false; bvalue := v |}.
(** [v > SIZE_MAX] compares [v] after conversion to [size_t]. *)
Definition bsize_fromint (v : Z) : bsize_t :=
  {| is_overflow := (v <? 0) || (SIZE_MAX <? to_size v); bvalue := to_size v |}.
Definition bsize_overflow : bsize_t := {| is_overflow := true; bvalue := 0 |}.
(** The value stored through [out] when the call returns 1. *)
Definition bsize_tosize (s : bsize_t) : option Z :=
  if is_overflow s then None else Some (bvalue s).
Definition bsize_toint (s : bsize_t) : option Z :=
  if is_overflow s || (INT_MAX <? bvalue s) then None else Some (bvalue s).
Definition bsize_add (s1 s2 : bsize_t) : bsize_t :=
  {| is_overflow := is_overflow s1 || is_overflow s2 || (SIZE_MAX - bvalue s1 <? bvalue s2);
     bvalue := to_size (bvalue s1 + bvalue s2) |}.
Definition bsize_max (s1 s2 : bsize_t) : bsize_t :=
  {| is_overflow := is_overflow s1 || is_overflow s2;
     bvalue := to_size (b2z (bvalue s2 <? bvalue s1) * bvalue s1
                        + b2z (bvalue s1 <=? bvalue s2) * bvalue s2) |}.
Definition bsize_mul (s1 s2 : bsize_t) : bsize_t :=
  {| is_overflow := is_overflow s1 || is_overflow s2
       || (negb (bvalue s1 =? 0) && (SIZE_MAX / bvalue s1 <? bvalue s2));
     bvalue := to_size (bvalue s1 * bvalue s2) |}.

(** * misc/balign.h *)

Definition balign_up_overflows (x n : Z) : bool :=
  let r := x mod n in negb (r =? 0) && (SIZE_MAX - (n - r) <? x).
Definition balign_up (x n : Z) : Z :=
  let r := x mod n in if negb (r =? 0) then to_size (x + (n - r)) else x.
Definition balign_down (x n : Z) : Z := x - x mod n.
Definition bdivide_up (a b : Z) : Z :=
  let r := a mod b in if 0 <? r then a / b + 1 else a / b.

(** * protocol/udpgw_proto.h *)

Definition sizeof_udpgw_header : Z := 3.
Definition sizeof_udpgw_addr_ipv4 : Z := 6.
Definition sizeof_udpgw_addr_ipv6 : Z := 18.

Definition udpgw_compute_mtu (dgram_mtu : Z) : Z :=
  let bs := bsize_add (bsize_fromsize sizeof_udpgw_header)
              (bsize_add (bsize_max (bsize_fromsize sizeof_udpgw_addr_ipv4)
                                    (bsize_fromsize sizeof_udpgw_addr_ipv6))
                         (bsize_fromint dgram_mtu)) in
  match bsize_toint bs with
  | None => -1
  | Some s => s
  end.

(** * Lemmas *)

(** A [bsize_t] denotes a natural number, or no number once something overflowed. *)
Definition bdenotes (s : bsize_t) (n : Z) : Prop :=
  0 <= n /\ is_size (bvalue s) /\
  (if is_overflow s then SIZE_MAX < n else bvalue s = n).

Lemma size_max_bound : 4294967295 <= SIZE_MAX.
Proof. unfold SIZE_MAX; destruct size_bits_range as [E|E]; rewrite E; lia. Qed.

Lemma to_size_small x : is_size x -> to_size x = x.
Proof.
  unfold is_size, SIZE_MAX; intros; apply wrap_small; lia.
Qed.
Lemma to_size_range x : is_size (to_size x).
Proof.
  unfold is_size, to_size, SIZE_MAX.
  pose proof (wrap_range size_bits x); destruct size_bits_range as [E|E]; rewrite E in *; lia.
Qed.
Hint Resolve to_size_range : core.

Lemma bmin_eq a b : bmin a b = Z.min a b.
Proof. unfold bmin; split_tests; lia. Qed.
Lemma bmax_eq a b : bmax a b = Z.max a b.
Proof. unfold bmax; split_tests; lia. Qed.

Lemma bdenotes_fromsize v : is_size v -> bdenotes (bsize_fromsize v) v.
Proof. intros Hv; pose proof Hv as [? ?]; split_and!; done. Qed.

Lemma bdenotes_add s1 s2 n1 n2 :
  bdenotes s1 n1 -> bdenotes s2 n2 -> bdenotes (bsize_add s1 s2) (n1 + n2).
Proof.
  intros (H1 & R1 & D1) (H2 & R2 & D2); split_and!; [lia | apply to_size_range |].
  cbn; unfold is_size in *.
  destruct (is_overflow s1), (is_overflow s2); cbn; try lia.
  split_tests; [lia|]; rewrite to_size_small; unfold is_size; lia.
Qed.

Lemma bdenotes_mul s1 s2 n1 n2 :
  bdenotes s1 n1 -> bdenotes s2 n2 -> 0 < n1 -> 0 < n2 ->
  bdenotes (bsize_mul s1 s2) (n1 * n2).
Proof.
  intros (H1 & R1 & D1) (H2 & R2 & D2) P1 P2; split_and!; [nia | apply to_size_range |].
  cbn; unfold is_size in *.
  destruct (is_overflow s1), (is_overflow s2); cbn; try nia.
  destruct (Z.eqb_spec (bvalue s1) 0); cbn; [nia|].
  pose proof (Z.mul_div_le SIZE_MAX (bvalue s1)); pose proof (Z.mul_succ_div_gt SIZE_MAX (bvalue s1)).
  split_tests; [nia|]; rewrite to_size_small; unfold is_size; nia.
Qed.

Lemma bdenotes_max s1 s2 n1 n2 :
  bdenotes s1 n1 -> bdenotes s2 n2 -> bdenotes (bsize_max s1 s2) (Z.max n1 n2).
Proof.
  intros (H1 & R1 & D1) (H2 & R2 & D2); split_and!; [lia | apply to_size_range |].
  cbn; unfold is_size, b2z in *.
  destruct (is_overflow s1), (is_overflow s2); cbn; try lia.
  rewrite to_size_small; [split_tests; lia|]; unfold is_size; split_tests; lia.
Qed.

Lemma bsize_tosize_denotes s n : bdenotes s n ->
  bsize_tosize s = if n <=? SIZE_MAX then Some n else None.
Proof.
  intros (? & R & D); unfold bsize_tosize, is_size in *.
  destruct (is_overflow s); split_tests; congruence || lia.
Qed.

Lemma bsize_toint_denotes s n : bdenotes s n ->
  bsize_toint s = if n <=? INT_MAX then Some n else None.
Proof.
  pose proof size_max_bound.
  intros (? & R & D); unfold bsize_toint, is_size, INT_MAX in *.
  destruct (is_overflow s); cbn; split_tests; try done; try lia; congruence.
Qed.

Lemma bdenotes_fromint v : 0 <= v <= INT_MAX -> bdenotes (bsize_fromint v) v.
Proof.
  pose proof size_max_bound; unfold INT_MAX; intros Hv.
  assert (is_size v) as Hs by (unfold is_size; lia).
  split_and!; cbn; [lia | apply to_size_range |].
  rewrite to_size_small by done; destruct Hs; decide_tests; done.
Qed.

Lemma bdivide_up_spec a b : 0 < b -> bdivide_up a b = (a + b - 1) / b.
Proof.
  intros; unfold bdivide_up; pose proof (Z.div_mod a b); pose proof (Z.mod_pos_bound a b).
  split_tests.
  - apply (Z.div_unique _ b _ (a mod b - 1)); lia.
  - apply (Z.div_unique _ b _ (b - 1)); lia.
Qed.

Lemma balign_down_spec x n : 0 < n -> balign_down x n = n * (x / n).
Proof. intros; unfold balign_down; pose proof (Z.div_mod x n); lia. Qed.

(** [bsize_t] arithmetic is exact or flagged: an expression over sizes converts to the
    number it denotes when that number is representable, and fails otherwise. *)
Theorem bsize_arith_sound s1 s2 n1 n2 : bdenotes s1 n1 -> bdenotes s2 n2 ->
  (bsize_tosize (bsize_add s1 s2) = if n1 + n2 <=? SIZE_MAX then Some (n1 + n2) else None) /\
  (bsize_tosize (bsize_max s1 s2) =
     if Z.max n1 n2 <=? SIZE_MAX then Some (Z.max n1 n2) else None) /\
  (0 < n1 -> 0 < n2 ->
   bsize_tosize (bsize_mul s1 s2) = if n1 * n2 <=? SIZE_MAX then Some (n1 * n2) else None).
Proof.
  intros; split_and!; intros; apply bsize_tosize_denotes;
    auto using bdenotes_add, bdenotes_max, bdenotes_mul.
Qed.

Lemma udpgw_mtu_sum m : 0 <= m <= INT_MAX ->
  udpgw_compute_mtu m = if 21 + m <=? INT_MAX then 21 + m else -1.
Proof.
  pose proof size_max_bound; unfold INT_MAX; intros Hm.
  unfold udpgw_compute_mtu; erewrite (bsize_toint_denotes _ (3 + (Z.max 6 18 + m))).
  - unfold INT_MAX; split_tests; lia.
  - apply bdenotes_add; [|apply bdenotes_add; [apply bdenotes_max|]].
    all: try (apply bdenotes_fromsize; unfold is_size, sizeof_udpgw_header,
                sizeof_udpgw_addr_ipv4, sizeof_udpgw_addr_ipv6; lia).
    apply bdenotes_fromint; unfold INT_MAX; lia.
Qed.

(** The MTU of udpgw messages is the exact sum of header, larger address and datagram
    sizes, or -1 exactly when the datagram size is negative or the sum leaves [int]. *)
Theorem udpgw_compute_mtu_spec m : is_int m ->
  udpgw_compute_mtu m = if (0 <=? m) && (21 + m <=? INT_MAX) then 21 + m else -1.
Proof.
  unfold is_int; intros Hm; destruct (Z.leb_spec 0 m); cbn [andb]; [apply udpgw_mtu_sum; lia|].
  unfold udpgw_compute_mtu, bsize_toint, bsize_add, bsize_fromint; cbn [is_overflow].
  test_true (m <? 0); done.
Qed.
End arch.

(** Modular addition stays below the modulus and never leaves [int]. *)
Theorem bmodadd_spec x y m : 0 <= x < m -> 0 <= y < m -> m <= INT_MAX ->
  bmodadd x y m = Ok ((x + y) mod m).
Proof.
  unfold INT_MAX; intros; unfold bmodadd; prog_simpl; decide_tests.
  rewrite int_result_ok by (unfold is_int, INT_MIN, INT_MAX; lia).
  destruct (Z.leb_spec (m - x) y);
    rewrite int_result_ok by (unfold is_int, INT_MIN, INT_MAX; lia); f_equal.
  - apply (Z.mod_unique _ _ 1); lia.
  - symmetry; apply Z.mod_small; lia.
Qed.

Lemma bmodadd_spec_witness : bmodadd 5 6 7 = Ok 4.
Proof. exact (bmodadd_spec 5 6 7 ltac:(lia) ltac:(lia) ltac:(unfold INT_MAX; lia)). Defined.

Lemma bsize_arith_sound_witness :
  bsize_tosize (@bsize_mul arm32 (bsize_fromsize 65536) (bsize_fromsize 65537)) = None.
Proof.
  destruct (@bsize_arith_sound arm32 (bsize_fromsize 65536) (bsize_fromsize 65537) 65536 65537)
    as (_ & _ & H); [vm_compute; intuition congruence.. | exact (H eq_refl eq_refl)].
Defined.

Lemma udpgw_compute_mtu_spec_witness : @udpgw_compute_mtu arm64 1472 = 1493.
Proof.
  exact (@udpgw_compute_mtu_spec arm64 1472 ltac:(unfold is_int, INT_MIN, INT_MAX; lia)).
Defined.
