(* ===== verification/Checksum.v ===== *)
(** IPv4, IPv6 and UDP headers, their checksums and their validation:
    misc/ipv4_proto.h, misc/ipv6_proto.h and misc/udp_proto.h.

    A packed header is a record of the raw field values, as the compiler loads them; the
    functions that walk a header byte by byte read its memory representation. *)

From S2P Require Import Prelude IntCodec.

Definition IPV4_PROTOCOL_UDP : Z := 17.
Definition IPV6_NEXT_UDP : Z := 17.
Definition sizeof_ipv4_header : Z := 20.
Definition sizeof_ipv6_header : Z := 40.
Definition sizeof_udp_header : Z := 8.

(** * misc/ipv4_proto.h *)

Record ipv4_header := mk_ipv4_header {
  version4_ihl4 : Z; ds : Z; total_length : Z;
  identification : Z; flags3_fragmentoffset13 : Z;
  ttl : Z; protocol : Z; ip_checksum : Z;
  source_address : Z; destination_address : Z }.
#[export] Instance ipv4_header_eta : Eta ipv4_header := fun h =>
  mk_ipv4_header (version4_ihl4 h) (ds h) (total_length h) (identification h)
    (flags3_fragmentoffset13 h) (ttl h) (protocol h) (ip_checksum h)
    (source_address h) (destination_address h).

Definition ipv4_header_bytes (h : ipv4_header) : list Z :=
  host_bytes 1 (version4_ihl4 h) ++ host_bytes 1 (ds h) ++ host_bytes 2 (total_length h) ++
  host_bytes 2 (identification h) ++ host_bytes 2 (flags3_fragmentoffset13 h) ++
  host_bytes 1 (ttl h) ++ host_bytes 1 (protocol h) ++ host_bytes 2 (ip_checksum h) ++
  host_bytes 4 (source_address h) ++ host_bytes 4 (destination_address h).

Definition ipv4_header_load (d : list Z) : ipv4_header :=
  mk_ipv4_header (host_val (slice 0 1 d)) (host_val (slice 1 1 d)) (host_val (slice 2 2 d))
    (host_val (slice 4 2 d)) (host_val (slice 6 2 d)) (host_val (slice 8 1 d))
    (host_val (slice 9 1 d)) (host_val (slice 10 2 d)) (host_val (slice 12 4 d))
    (host_val (slice 16 4 d)).

Definition IPV4_GET_VERSION (h : ipv4_header) : Z := Z.shiftr (Z.land (version4_ihl4 h) 240) 4.
Definition IPV4_GET_IHL (h : ipv4_header) : Z := Z.shiftr (Z.land (version4_ihl4 h) 15) 0.
Definition IPV4_MAKE_VERSION_IHL (size : Z) : Z := size / 4 + Z.shiftl 4 4.

(** [for (uint16_t i = 0; i < n; i++) t += badvpn_read_be16(p + 2 * i);] on [uint32_t t]. *)
Fixpoint be16_sum_loop (n : nat) (i : Z) (p : list Z) (t : Z) : Z :=
  match n with
  | O => t
  | S n => be16_sum_loop n (i + 1) p (wrap 32 (t + badvpn_read_be16 (zdrop (2 * i) p)))
  end.

(** [while (t >> 16) t = (t & 0xFFFF) + (t >> 16);] *)
Fixpoint fold_loop (fuel : nat) (t : Z) : res Z :=
  match fuel with
  | O => Err FuelExhausted
  | S fuel =>
    if Z.shiftr t 16 =? 0 then Ok t
    else fold_loop fuel (wrap 32 (Z.land t 65535 + Z.shiftr t 16))
  end.
(** Two rounds fold any 32-bit sum, and the third test ends the loop. *)
Definition fold_fuel : nat := 3.

Definition ipv4_checksum (header : ipv4_header) (extra : list Z) : res Z :=
  let extra_len := wrap 16 (Zlen extra) in
  rassert (extra_len mod 2 =? 0);;
  let t := be16_sum_loop (Z.to_nat (sizeof_ipv4_header / 2)) 0 (ipv4_header_bytes header) 0 in
  let t := be16_sum_loop (Z.to_nat (extra_len / 2)) 0 extra t in
  t ← fold_loop fold_fuel t;
  mret (hton16 (wrap 16 (wrap 32 (Z.lnot t)))).

(** The header, and the payload the out-pointers designate, when the function returns 1. *)
Definition ipv4_check (data : list Z) : res (option (ipv4_header * list Z)) :=
  let data_len := Zlen data in
  if data_len <? sizeof_ipv4_header then mret None else
  d ← mem_read data 0 sizeof_ipv4_header;
  let out_header := ipv4_header_load d in
  if negb (IPV4_GET_VERSION out_header =? 4) then mret None else
  let header_len := wrap 16 (IPV4_GET_IHL out_header * 4) in
  if header_len <? sizeof_ipv4_header then mret None else
  if data_len <? header_len then mret None else
  let tot := ntoh16 (total_length out_header) in
  if tot <? header_len then mret None else
  if data_len <? tot then mret None else
  let checksum_in_packet := ip_checksum out_header in
  extra ← mem_read data sizeof_ipv4_header (header_len - sizeof_ipv4_header);
  checksum_computed ← ipv4_checksum (out_header <| ip_checksum := hton16 0 |>) extra;
  if negb (checksum_in_packet =? checksum_computed) then mret None else
  payload ← mem_read data header_len (tot - header_len);
  mret (Some (out_header, payload)).

(** * misc/ipv6_proto.h *)

Record ipv6_header := mk_ipv6_header {
  version4_tc4 : Z; tc4_fl4 : Z; fl : Z; payload_length : Z; next_header : Z; hop_limit : Z;
  source_address6 : list Z; destination_address6 : list Z }.

Definition ipv6_header_bytes (h : ipv6_header) : list Z :=
  host_bytes 1 (version4_tc4 h) ++ host_bytes 1 (tc4_fl4 h) ++ host_bytes 2 (fl h) ++
  host_bytes 2 (payload_length h) ++ host_bytes 1 (next_header h) ++ host_bytes 1 (hop_limit h) ++
  source_address6 h ++ destination_address6 h.

Definition ipv6_header_load (d : list Z) : ipv6_header :=
  mk_ipv6_header (host_val (slice 0 1 d)) (host_val (slice 1 1 d)) (host_val (slice 2 2 d))
    (host_val (slice 4 2 d)) (host_val (slice 6 1 d)) (host_val (slice 7 1 d))
    (slice 8 16 d) (slice 24 16 d).

Definition ipv6_check (data : list Z) : res (option (ipv6_header * list Z)) :=
  let data_len := Zlen data in
  if data_len <? sizeof_ipv6_header then mret None else
  d ← mem_read data 0 sizeof_ipv6_header;
  let out_header := ipv6_header_load d in
  if negb (Z.shiftr (ntoh8 (version4_tc4 out_header)) 4 =? 6) then mret None else
  let plen := ntoh16 (payload_length out_header) in
  if data_len - sizeof_ipv6_header <? plen then mret None else
  payload ← mem_read data sizeof_ipv6_header plen;
  mret (Some (out_header, payload)).

(** * misc/udp_proto.h *)

Record udp_header := mk_udp_header {
  source_port : Z; dest_port : Z; udp_len : Z; udp_cksum : Z }.
#[export] Instance udp_header_eta : Eta udp_header := fun h =>
  mk_udp_header (source_port h) (dest_port h) (udp_len h) (udp_cksum h).

Definition udp_header_bytes (h : udp_header) : list Z :=
  host_bytes 2 (source_port h) ++ host_bytes 2 (dest_port h) ++
  host_bytes 2 (udp_len h) ++ host_bytes 2 (udp_cksum h).

Definition udp_header_load (d : list Z) : udp_header :=
  mk_udp_header (host_val (slice 0 2 d)) (host_val (slice 2 2 d))
    (host_val (slice 4 2 d)) (host_val (slice 6 2 d)).

Definition udp_checksum_summer (data : list Z) (len : Z) : res Z :=
  rassert (len mod 2 =? 0);;
  mret (be16_sum_loop (Z.to_nat (len / 2)) 0 data 0).

(** The part of [udp_checksum] and [udp_ip6_checksum] that sums the payload, the odd last
    byte padded with a zero byte on the right. *)
Definition udp_payload_sum (payload : list Z) (payload_len : Z) : res Z :=
  if payload_len mod 2 =? 0 then udp_checksum_summer payload payload_len
  else
    s ← udp_checksum_summer payload (payload_len - 1);
    let x := hton16 (wrap 16 (Z.shiftl (byte_at (payload_len - 1) payload) 8)) in
    s' ← udp_checksum_summer (host_bytes 2 x) 2;
    mret (wrap 32 (s + s')).

(** The final fold, the zero test and the complement, common to both checksums. *)
Definition udp_checksum_finish (t : Z) : res Z :=
  t ← fold_loop fold_fuel t;
  let t := if t =? 0 then UINT16_MAX else t in
  mret (hton16 (wrap 16 (wrap 32 (Z.lnot t)))).

Definition udp_checksum (header : udp_header) (payload : list Z) (source_addr dest_addr : Z)
    : res Z :=
  let payload_len := wrap 16 (Zlen payload) in
  s1 ← udp_checksum_summer (host_bytes 4 source_addr) 4;
  s2 ← udp_checksum_summer (host_bytes 4 dest_addr) 4;
  s3 ← udp_checksum_summer (host_bytes 2 (hton16 IPV4_PROTOCOL_UDP)) 2;
  s4 ← udp_checksum_summer (host_bytes 2 (hton16 (wrap 16 (sizeof_udp_header + payload_len)))) 2;
  s5 ← udp_checksum_summer (udp_header_bytes header) sizeof_udp_header;
  s6 ← udp_payload_sum payload payload_len;
  udp_checksum_finish (wrap 32 (s1 + s2 + s3 + s4 + s5 + s6)).

Definition udp_ip6_checksum (header : udp_header) (payload source_addr dest_addr : list Z)
    : res Z :=
  let payload_len := wrap 16 (Zlen payload) in
  s1 ← udp_checksum_summer source_addr 16;
  s2 ← udp_checksum_summer dest_addr 16;
  s3 ← udp_checksum_summer (host_bytes 4 (hton32 (sizeof_udp_header + payload_len))) 4;
  s4 ← udp_checksum_summer (host_bytes 4 (hton32 IPV6_NEXT_UDP)) 4;
  s5 ← udp_checksum_summer (udp_header_bytes header) sizeof_udp_header;
  s6 ← udp_payload_sum payload payload_len;
  udp_checksum_finish (wrap 32 (s1 + s2 + s3 + s4 + s5 + s6)).

Definition udp_check (data : list Z) : res (option (udp_header * list Z)) :=
  if Zlen data <? sizeof_udp_header then mret None else
  d ← mem_read data 0 sizeof_udp_header;
  let out_header := udp_header_load d in
  let data_len := Zlen data - sizeof_udp_header in
  let udp_length := ntoh16 (udp_len out_header) in
  if udp_length <? sizeof_udp_header then mret None else
  if sizeof_udp_header + data_len <? udp_length then mret None else
  payload ← mem_read data sizeof_udp_header (udp_length - sizeof_udp_header);
  mret (Some (out_header, payload)).

(** * The one's complement sum of RFC 1071 *)

(** The sum of the 16-bit big-endian words, an odd last byte padded with zero. *)
Fixpoint be16_sum (l : list Z) : Z :=
  match l with
  | [] => 0
  | [a] => 256 * a
  | a :: b :: l => 256 * a + b + be16_sum l
  end.

(** Adding the carries back in: the representative in [1, 65535] of a nonzero sum. *)
Definition oc_fold (t : Z) : Z := if t =? 0 then 0 else 1 + (t - 1) mod 65535.

Lemma list_pair_ind {A} (P : list A -> Prop) :
  P [] -> (forall a, P [a]) -> (forall a b l, P l -> P (a :: b :: l)) -> forall l, P l.
Proof.
  intros Hn Hs Hp; fix IH 1; intros [|a [|b l]]; [exact Hn | exact (Hs a) |].
  exact (Hp a b l (IH l)).
Qed.

Lemma be16_sum_bound l : bytes_ok l -> 0 <= be16_sum l <= 65535 * ((Zlen l + 1) / 2).
Proof.
  induction l as [|a|a b l IH] using list_pair_ind; intros Hl; cbn [be16_sum].
  - zlen_nil; lia_div.
  - apply bytes_ok_inv in Hl as [Ha _]; unfold is_u8 in Ha; rewrite Zlen_cons; zlen_nil; lia_div.
  - apply bytes_ok_inv in Hl as [Ha [Hb Hl]%bytes_ok_inv]; unfold is_u8 in *.
    specialize (IH Hl); rewrite !Zlen_cons; lia_div.
Qed.

Lemma be16_sum_app l m : Zlen l mod 2 = 0 -> be16_sum (l ++ m) = be16_sum l + be16_sum m.
Proof.
  induction l as [|a|a b l IH] using list_pair_ind; intros Hl; cbn [be16_sum app].
  - done.
  - rewrite Zlen_cons in Hl; zlen_nil; lia_div.
  - rewrite !Zlen_cons in Hl; rewrite IH by lia_div; lia.
Qed.

(** Two bytes at a valid even offset. *)
Lemma zdrop_two_bytes (p : list Z) i : 0 <= i -> i + 2 <= Zlen p ->
  exists a b l, zdrop i p = a :: b :: l /\ zdrop (i + 2) p = l.
Proof.
  intros; pose proof (Zlen_zdrop i p) as HL.
  destruct (zdrop i p) as [|a [|b l]] eqn:E; rewrite ?Zlen_cons in HL; zlen_nil; try lia.
  exists a, b, l; split; [done|].
  rewrite <- zdrop_zdrop, E by lia; done.
Qed.

Lemma slice_two_bytes (p : list Z) i n : 0 <= i -> 0 <= n -> i + 2 + n <= Zlen p ->
  exists a b, slice i (2 + n) p = a :: b :: slice (i + 2) n p /\
    exists l, zdrop i p = a :: b :: l.
Proof.
  intros; destruct (zdrop_two_bytes p i) as (a & b & l & E1 & E2); [lia..|].
  exists a, b; split; [|eauto]; unfold slice; rewrite E1, E2; unfold ztake.
  replace (Z.to_nat (2 + n)) with (S (S (Z.to_nat n))) by lia; done.
Qed.

Lemma be16_sum_loop_eq n i p t : bytes_ok p -> 0 <= i -> 2 * i + 2 * Z.of_nat n <= Zlen p ->
  be16_sum_loop n i p (wrap 32 t) =
  wrap 32 (t + be16_sum (slice (2 * i) (2 * Z.of_nat n) p)).
Proof.
  intros Hp; revert i t; induction n as [|n IH]; intros i t Hi Hn; cbn [be16_sum_loop].
  - rewrite slice_0; cbn [be16_sum]; f_equal; lia.
  - destruct (slice_two_bytes p (2 * i) (2 * Z.of_nat n)) as (a & b & E & l & El); [lia..|].
    assert (is_u8 a /\ is_u8 b) as [Ha Hb].
    { pose proof (bytes_ok_zdrop (2 * i) p Hp) as H; rewrite El in H.
      apply bytes_ok_inv in H as [? [? _]%bytes_ok_inv]; done. }
    replace (2 * Z.of_nat (S n)) with (2 + 2 * Z.of_nat n) by lia; rewrite E.
    cbn [be16_sum]; rewrite El, read_be16_eq by done.
    replace (wrap 32 (wrap 32 t + (256 * a + b))) with (wrap 32 (t + (256 * a + b)))
      by (unfold wrap; rewrite Zplus_mod_idemp_l; done).
    rewrite IH by lia; replace (2 * (i + 1)) with (2 * i + 2) by lia; f_equal; lia.
Qed.

Lemma oc_fold_range t : 0 <= t -> 0 <= oc_fold t <= 65535 /\ (0 < t -> 1 <= oc_fold t).
Proof. intros; unfold oc_fold; destruct (Z.eqb_spec t 0); lia_div. Qed.

Lemma fold_loop_eq t : is_u32 t -> fold_loop fold_fuel t = Ok (oc_fold t).
Proof.
  unfold is_u32, fold_fuel, oc_fold; intros Ht; cbn [fold_loop].
  assert (forall x, Z.land x 65535 = x mod 65536) as Hl.
  { intros x; change 65535 with (Z.ones 16); apply Z.land_ones; lia. }
  rewrite !Hl, !shiftr_div by lia; change (2 ^ 16) with 65536; unfold wrap.
  change (2 ^ 32) with 4294967296.
  destruct (Z.eqb_spec (t / 65536) 0); [destruct (Z.eqb_spec t 0); f_equal; lia_div|].
  rewrite (Z.mod_small (t mod 65536 + t / 65536)) by lia_div.
  set (u := t mod 65536 + t / 65536).
  assert (0 < u <= 131070 /\ u mod 65535 = t mod 65535) as [Hu Hm] by (unfold u; lia_div).
  destruct (Z.eqb_spec t 0); [lia_div|].
  destruct (Z.eqb_spec (u / 65536) 0); [f_equal; lia_div|].
  rewrite (Z.mod_small (u mod 65536 + u / 65536)) by lia_div.
  destruct (Z.eqb_spec ((u mod 65536 + u / 65536) / 65536) 0); [f_equal; lia_div | lia_div].
Qed.

(** * Headers and their memory *)

(** Every field holds a value of its C type. *)
Definition ipv4_header_wf (h : ipv4_header) : Prop :=
  is_u8 (version4_ihl4 h) /\ is_u8 (ds h) /\ is_u16 (total_length h) /\
  is_u16 (identification h) /\ is_u16 (flags3_fragmentoffset13 h) /\ is_u8 (ttl h) /\
  is_u8 (protocol h) /\ is_u16 (ip_checksum h) /\ is_u32 (source_address h) /\
  is_u32 (destination_address h).
Definition udp_header_wf (h : udp_header) : Prop :=
  is_u16 (source_port h) /\ is_u16 (dest_port h) /\ is_u16 (udp_len h) /\ is_u16 (udp_cksum h).
Definition ipv6_header_wf (h : ipv6_header) : Prop :=
  is_u8 (version4_tc4 h) /\ is_u8 (tc4_fl4 h) /\ is_u16 (fl h) /\ is_u16 (payload_length h) /\
  is_u8 (next_header h) /\ is_u8 (hop_limit h) /\
  (bytes_ok (source_address6 h) /\ Zlen (source_address6 h) = 16) /\
  (bytes_ok (destination_address6 h) /\ Zlen (destination_address6 h) = 16).

Lemma ipv4_header_bytes_len h : Zlen (ipv4_header_bytes h) = 20.
Proof. done. Qed.
Lemma udp_header_bytes_len h : Zlen (udp_header_bytes h) = 8.
Proof. done. Qed.
Lemma ipv4_header_bytes_ok h : bytes_ok (ipv4_header_bytes h).
Proof. unfold ipv4_header_bytes; rewrite !bytes_ok_app; auto 20 using host_bytes_ok. Qed.
Lemma udp_header_bytes_ok h : bytes_ok (udp_header_bytes h).
Proof. unfold udp_header_bytes; rewrite !bytes_ok_app; auto using host_bytes_ok. Qed.
#[export] Hint Resolve ipv4_header_bytes_ok udp_header_bytes_ok : bytes.
#[export] Hint Rewrite ipv4_header_bytes_len udp_header_bytes_len : zlen.

Lemma ipv4_header_load_bytes h : ipv4_header_wf h -> ipv4_header_load (ipv4_header_bytes h) = h.
Proof.
  intros (?&?&?&?&?&?&?&?&?&?); destruct h; unfold is_u8, is_u16, is_u32 in *; cbn in *.
  unfold ipv4_header_load; f_equal.
  all: first [ apply (host_val_bytes_id 1); done | apply (host_val_bytes_id 2); done
             | apply (host_val_bytes_id 4); done ].
Qed.

Lemma udp_header_load_bytes h : udp_header_wf h -> udp_header_load (udp_header_bytes h) = h.
Proof.
  intros (?&?&?&?); destruct h; unfold is_u16 in *; cbn in *.
  unfold udp_header_load; f_equal; apply (host_val_bytes_id 2); done.
Qed.

Lemma ipv4_header_bytes_load d : bytes_ok d -> Zlen d = 20 ->
  ipv4_header_bytes (ipv4_header_load d) = d.
Proof.
  intros Hd HL; unfold ipv4_header_bytes; cbn [version4_ihl4 ds total_length identification
    flags3_fragmentoffset13 ttl protocol ip_checksum source_address destination_address
    ipv4_header_load].
  rewrite !host_bytes_slice by (done || lia).
  repeat (rewrite <- slice_split by lia).
  transitivity (slice 0 (Zlen d) d); [rewrite HL; done | apply slice_all].
Qed.

Lemma udp_header_bytes_load d : bytes_ok d -> Zlen d = 8 ->
  udp_header_bytes (udp_header_load d) = d.
Proof.
  intros Hd HL; unfold udp_header_bytes; cbn [source_port dest_port udp_len udp_cksum
    udp_header_load].
  rewrite !host_bytes_slice by (done || lia).
  repeat (rewrite <- slice_split by lia).
  transitivity (slice 0 (Zlen d) d); [rewrite HL; done | apply slice_all].
Qed.

(** * What the checksum functions return *)

(** The complement, truncated to 16 bits, of a folded sum. *)
Lemma complement_eq t : 0 <= t <= 65535 -> wrap 16 (wrap 32 (Z.lnot t)) = 65535 - t.
Proof.
  intros; unfold wrap, Z.lnot; change (2 ^ 32) with 4294967296; change (2 ^ 16) with 65536.
  lia_div.
Qed.

Lemma summer_eq data len : bytes_ok data -> 0 <= len <= Zlen data -> len <= 65536 ->
  len mod 2 = 0 -> udp_checksum_summer data len = Ok (be16_sum (ztake len data)).
Proof.
  intros Hd Hl Hl' He; unfold udp_checksum_summer; prog_simpl; decide_tests.
  f_equal; change 0 with (wrap 32 0) at 2.
  rewrite (be16_sum_loop_eq (Z.to_nat (len / 2)) 0 data 0) by (done || lia_div).
  replace (2 * Z.of_nat (Z.to_nat (len / 2))) with len by lia_div; rewrite Z.mul_0_r.
  unfold slice; rewrite zdrop_0; apply wrap_small.
  pose proof (be16_sum_bound (ztake len data)) as Hb; rewrite Zlen_ztake in Hb.
  specialize (Hb ltac:(auto with bytes)); change (2 ^ 32) with 4294967296; lia_div.
Qed.

Lemma summer_all data n : n = Zlen data -> bytes_ok data -> n <= 65536 -> n mod 2 = 0 ->
  udp_checksum_summer data n = Ok (be16_sum data).
Proof.
  intros ->; intros; pose proof (Zlen_nonneg data); rewrite summer_eq by (done || lia).
  rewrite ztake_all; done.
Qed.

Lemma ipv4_checksum_eq h extra : bytes_ok extra -> Zlen extra < 65536 -> Zlen extra mod 2 = 0 ->
  ipv4_checksum h extra =
  Ok (hton16 (65535 - oc_fold (be16_sum (ipv4_header_bytes h ++ extra)))).
Proof.
  intros He HL Hev; pose proof (Zlen_nonneg extra).
  unfold ipv4_checksum; rewrite wrap_small by (change (2 ^ 16) with 65536; lia); prog_simpl.
  decide_tests; change 0 with (wrap 32 0) at 3.
  rewrite (be16_sum_loop_eq _ 0 (ipv4_header_bytes h) 0) by (auto with bytes || done).
  rewrite (be16_sum_loop_eq (Z.to_nat (Zlen extra / 2)) 0 extra) by (done || lia_div).
  replace (2 * Z.of_nat (Z.to_nat (Zlen extra / 2))) with (Zlen extra) by lia_div.
  rewrite !Z.mul_0_r, slice_all, Z.add_0_l.
  change (slice 0 _ (ipv4_header_bytes h)) with (slice 0 20 (ipv4_header_bytes h)).
  rewrite <- (ipv4_header_bytes_len h) at 1; rewrite slice_all, <- be16_sum_app by done.
  pose proof (be16_sum_bound (ipv4_header_bytes h ++ extra)) as Hb.
  rewrite Zlen_app, ipv4_header_bytes_len in Hb.
  specialize (Hb ltac:(apply bytes_ok_app; auto with bytes)).
  rewrite wrap_small by (change (2 ^ 32) with 4294967296; lia_div).
  rewrite fold_loop_eq by (unfold is_u32; lia_div).
  rewrite complement_eq; [done | apply oc_fold_range; lia].
Qed.

Lemma byte_at_drop i l : 0 <= i < Zlen l -> zdrop i l = byte_at i l :: zdrop (i + 1) l.
Proof.
  intros Hi; unfold zdrop, byte_at; rewrite Zlen_length in Hi.
  rewrite (drop_S l (nth (Z.to_nat i) l 0) (Z.to_nat i)).
  - do 2 f_equal; lia.
  - rewrite nth_lookup; destruct (lookup_lt_is_Some_2 l (Z.to_nat i)) as [x Hx]; [lia|].
    rewrite Hx; done.
Qed.

(** Side conditions of [summer_all] on memory of known length. *)
Ltac summer_side :=
  first [ solve [auto using host_bytes_ok with bytes] | done | zlen
        | autorewrite with zlen; done ].

(** An odd payload is summed as if a zero byte followed it. *)
Lemma udp_payload_sum_eq payload : bytes_ok payload -> Zlen payload < 65536 ->
  udp_payload_sum payload (Zlen payload) = Ok (be16_sum payload).
Proof.
  intros Hp HL; unfold udp_payload_sum; pose proof (Zlen_nonneg payload).
  destruct (Z.eqb_spec (Zlen payload mod 2) 0) as [He|Ho]; [apply summer_all; done || lia|].
  remember (Zlen payload) as n eqn:Hn; set (b := byte_at (n - 1) payload).
  assert (1 <= n) by lia_div.
  assert (is_u8 b) as Hb by (apply byte_at_ok; done).
  assert (payload = ztake (n - 1) payload ++ [b]) as Hsplit.
  { rewrite <- (ztake_zdrop (n - 1) payload) at 1; f_equal.
    rewrite byte_at_drop, zdrop_all by lia; done. }
  rewrite (summer_eq payload (n - 1)) by (done || lia_div).
  unfold is_u8 in Hb; rewrite (wrap_small 16) by (rewrite Z.shiftl_mul_pow2 by lia; lia).
  rewrite Z.shiftl_mul_pow2 by lia; change (2 ^ 8) with 256.
  rewrite host_bytes_hton16, (summer_all [_; _]);
    [| done | repeat constructor; unfold is_u8; lia_div | done | done].
  prog_simpl; f_equal; cbn [be16_sum].
  replace (be16_sum payload) with (be16_sum (ztake (n - 1) payload) + be16_sum [b]).
  - cbn [be16_sum]; rewrite wrap_small; [lia_div|].
    pose proof (be16_sum_bound (ztake (n - 1) payload) ltac:(auto with bytes)) as Hs.
    rewrite Zlen_ztake in Hs; change (2 ^ 32) with 4294967296; lia_div.
  - rewrite <- be16_sum_app, <- Hsplit; [done | rewrite Zlen_ztake; lia_div].
Qed.

(** The pseudo headers that enter the UDP checksums. *)
Definition pseudo4 (src dst : Z) (payload : list Z) : list Z :=
  host_bytes 4 src ++ host_bytes 4 dst ++ [0; 17] ++
  host_bytes 2 (hton16 (8 + Zlen payload)).
Definition pseudo6 (src dst payload : list Z) : list Z :=
  src ++ dst ++ host_bytes 4 (hton32 (8 + Zlen payload)) ++ [0; 0; 0; 17].

(** The one's complement sum of a datagram under its pseudo header. *)
Definition udp_sum (pseudo : list Z) (h : udp_header) (payload : list Z) : Z :=
  oc_fold (be16_sum (pseudo ++ udp_header_bytes h ++ payload)).

Lemma udp_checksum_finish_eq s pseudo h payload :
  bytes_ok (pseudo ++ udp_header_bytes h ++ payload) ->
  Zlen pseudo mod 2 = 0 -> Zlen pseudo + Zlen payload < 66000 -> 17 <= be16_sum pseudo ->
  s = be16_sum pseudo + be16_sum (udp_header_bytes h) + be16_sum payload ->
  udp_checksum_finish (wrap 32 s) = Ok (hton16 (65535 - udp_sum pseudo h payload)) /\
  1 <= udp_sum pseudo h payload <= 65535.
Proof.
  intros Hok Hev HL H17 ->; pose proof (Zlen_nonneg payload); pose proof (Zlen_nonneg pseudo).
  assert (be16_sum (pseudo ++ udp_header_bytes h ++ payload) =
          be16_sum pseudo + be16_sum (udp_header_bytes h) + be16_sum payload) as Hsum.
  { rewrite be16_sum_app, be16_sum_app by done; lia. }
  pose proof (be16_sum_bound _ Hok) as Hb; rewrite !Zlen_app, udp_header_bytes_len in Hb.
  apply bytes_ok_app in Hok as [_ [Hh Hp]%bytes_ok_app].
  pose proof (be16_sum_bound _ Hh); pose proof (be16_sum_bound _ Hp).
  unfold udp_checksum_finish, udp_sum; rewrite wrap_small by (change (2 ^ 32) with 4294967296; lia_div).
  rewrite fold_loop_eq by (unfold is_u32; lia_div); rewrite Hsum in *.
  pose proof (oc_fold_range (be16_sum pseudo + be16_sum (udp_header_bytes h) + be16_sum payload)
    ltac:(lia)) as [Hf Hf1].
  specialize (Hf1 ltac:(lia)); prog_simpl; decide_tests; rewrite complement_eq by lia; split; [done | lia].
Qed.

Lemma pseudo4_ok src dst payload : bytes_ok (pseudo4 src dst payload).
Proof.
  unfold pseudo4; rewrite !bytes_ok_app; split_and!; auto using host_bytes_ok.
  repeat constructor; unfold is_u8; lia.
Qed.

Lemma udp_checksum_eq h payload src dst : bytes_ok payload -> Zlen payload <= 65527 ->
  udp_checksum h payload src dst =
    Ok (hton16 (65535 - udp_sum (pseudo4 src dst payload) h payload)) /\
  1 <= udp_sum (pseudo4 src dst payload) h payload <= 65535.
Proof.
  intros Hp HL; pose proof (Zlen_nonneg payload).
  unfold udp_checksum; rewrite (wrap_small 16 (Zlen payload)) by (change (2 ^ 16) with 65536; lia).
  unfold sizeof_udp_header; rewrite wrap_small by (change (2 ^ 16) with 65536; lia).
  rewrite (summer_all (host_bytes 4 src)), (summer_all (host_bytes 4 dst)),
    (summer_all (host_bytes 2 (hton16 IPV4_PROTOCOL_UDP))),
    (summer_all (host_bytes 2 (hton16 (8 + Zlen payload)))), (summer_all (udp_header_bytes h)),
    udp_payload_sum_eq by summer_side.
  prog_simpl; pose proof (pseudo4_ok src dst payload) as Hps.
  apply udp_checksum_finish_eq.
  - rewrite !bytes_ok_app; auto with bytes.
  - done.
  - change (Zlen (pseudo4 src dst payload)) with 12; lia.
  - unfold pseudo4; rewrite !be16_sum_app by done; change (be16_sum [0; 17]) with 17.
    pose proof (be16_sum_bound _ (host_bytes_ok 4 src)); pose proof (be16_sum_bound _ (host_bytes_ok 4 dst)).
    pose proof (be16_sum_bound _ (host_bytes_ok 2 (hton16 (8 + Zlen payload)))); lia.
  - unfold pseudo4; rewrite !be16_sum_app by done.
    change (be16_sum (host_bytes 2 (hton16 IPV4_PROTOCOL_UDP))) with (be16_sum [0; 17]); lia.
Qed.

Lemma udp_ip6_checksum_eq h payload src dst : bytes_ok payload -> Zlen payload <= 65527 ->
  bytes_ok src -> bytes_ok dst -> Zlen src = 16 -> Zlen dst = 16 ->
  udp_ip6_checksum h payload src dst =
    Ok (hton16 (65535 - udp_sum (pseudo6 src dst payload) h payload)) /\
  1 <= udp_sum (pseudo6 src dst payload) h payload <= 65535.
Proof.
  intros Hp HL Hs Hd HLs HLd; pose proof (Zlen_nonneg payload).
  unfold udp_ip6_checksum; rewrite (wrap_small 16 (Zlen payload)) by (change (2 ^ 16) with 65536; lia).
  rewrite (summer_all src), (summer_all dst),
    (summer_all (host_bytes 4 (hton32 IPV6_NEXT_UDP))),
    (summer_all (host_bytes 4 (hton32 (sizeof_udp_header + Zlen payload)))),
    (summer_all (udp_header_bytes h)),
    udp_payload_sum_eq by (summer_side || (rewrite ?HLs, ?HLd; done)).
  prog_simpl.
  assert (Zlen (pseudo6 src dst payload) = 40) as HL6.
  { unfold pseudo6; rewrite !Zlen_app, HLs, HLd; done. }
  assert (be16_sum (pseudo6 src dst payload) = be16_sum src + be16_sum dst +
    be16_sum (host_bytes 4 (hton32 (8 + Zlen payload))) + 17) as H6.
  { unfold pseudo6; rewrite !be16_sum_app by (done || rewrite ?HLs, ?HLd; done).
    change (be16_sum [0; 0; 0; 17]) with 17; lia. }
  apply udp_checksum_finish_eq.
  - rewrite !bytes_ok_app; unfold pseudo6; rewrite !bytes_ok_app.
    split_and!; auto using host_bytes_ok with bytes; repeat constructor; unfold is_u8; lia.
  - rewrite HL6; done.
  - lia.
  - rewrite H6; pose proof (be16_sum_bound _ Hs); pose proof (be16_sum_bound _ Hd).
    pose proof (be16_sum_bound _ (host_bytes_ok 4 (hton32 (8 + Zlen payload)))); lia.
  - rewrite H6; change (be16_sum (host_bytes 4 (hton32 IPV6_NEXT_UDP))) with 17.
    unfold sizeof_udp_header; lia.
Qed.

(** * Validation *)

Lemma land_15 x : Z.land x 15 = x mod 16.
Proof. change 15 with (Z.ones 4); apply Z.land_ones; lia. Qed.
Lemma land_240 x : is_u8 x -> Z.shiftr (Z.land x 240) 4 = x / 16.
Proof.
  intros Hx; rewrite Z.shiftr_land; change (Z.shiftr 240 4) with (Z.ones 4).
  rewrite Z.land_ones, shiftr_div by lia; unfold is_u8 in Hx; change (2 ^ 4) with 16; lia_div.
Qed.

(** The header length in bytes that a first byte announces. *)
Definition ihl_bytes (b : Z) : Z := 4 * (b mod 16).

Lemma header_len_eq h : wrap 16 (IPV4_GET_IHL h * 4) = ihl_bytes (version4_ihl4 h).
Proof.
  unfold IPV4_GET_IHL, ihl_bytes; rewrite land_15, Z.shiftr_0_r, wrap_small; [lia|].
  change (2 ^ 16) with 65536; lia_div.
Qed.

(** What makes a datagram valid: version 4, lengths that fit in one another and in the
    buffer, and a checksum that complements the sum of the rest of the header. *)
Definition ipv4_valid (data : list Z) : bool :=
  let h := ipv4_header_load (slice 0 20 data) in
  let hl := ihl_bytes (version4_ihl4 h) in
  (20 <=? Zlen data) && (version4_ihl4 h / 16 =? 4) && (20 <=? hl) && (hl <=? Zlen data) &&
  (hl <=? ntoh16 (total_length h)) && (ntoh16 (total_length h) <=? Zlen data) &&
  (ntoh16 (ip_checksum h) =? 65535 -
     oc_fold (be16_sum (ipv4_header_bytes (h <| ip_checksum := 0 |>) ++ slice 20 (hl - 20) data))).

Lemma host_val_slice_bound off n d : bytes_ok d -> 0 <= host_val (slice off n d) < 256 ^ Zlen (slice off n d).
Proof. intros; apply host_val_bound; auto with bytes. Qed.

Lemma ipv4_header_load_wf d : bytes_ok d -> Zlen d = 20 -> ipv4_header_wf (ipv4_header_load d).
Proof.
  intros Hd HL; pose proof (fun off n => host_val_slice_bound off n d Hd) as HB.
  assert (forall off n, 0 <= off -> 0 <= n -> off + n <= 20 ->
    0 <= host_val (slice off n d) < 256 ^ n) as HB'.
  { intros off n ? ? ?; pose proof (HB off n) as H'; rewrite Zlen_slice in H' by lia; done. }
  unfold ipv4_header_wf, ipv4_header_load; cbn [version4_ihl4 ds total_length identification
    flags3_fragmentoffset13 ttl protocol ip_checksum source_address destination_address].
  split_and!; apply HB'; lia.
Qed.

Lemma ipv4_check_eq data : bytes_ok data ->
  ipv4_check data =
    Ok (if ipv4_valid data then
          let h := ipv4_header_load (slice 0 20 data) in
          let hl := ihl_bytes (version4_ihl4 h) in
          Some (h, slice hl (ntoh16 (total_length h) - hl) data)
        else None).
Proof.
  intros Hd; unfold ipv4_check, ipv4_valid, sizeof_ipv4_header; cbv zeta.
  pose proof (Zlen_nonneg data).
  destruct (Z.ltb_spec (Zlen data) 20); [decide_tests; done|].
  rewrite mem_read_ok by lia; cbn [mbind res_bind].
  set (h := ipv4_header_load (slice 0 20 data)).
  assert (ipv4_header_wf h) as (Hv & _ & Ht & _ & _ & _ & _ & Hc & _).
  { apply ipv4_header_load_wf; [auto with bytes | rewrite Zlen_slice; lia]. }
  unfold IPV4_GET_VERSION; rewrite land_240, header_len_eq by done.
  test_true (20 <=? Zlen data); cbn [andb].
  destruct (Z.eqb_spec (version4_ihl4 h / 16) 4); cbn [andb negb]; [|done].
  set (hl := ihl_bytes (version4_ihl4 h)).
  assert (hl mod 2 = 0 /\ hl <= 60) as [Hev H60] by (unfold hl, ihl_bytes; lia_div).
  destruct (Z.ltb_spec hl 20); [test_false (20 <=? hl); done | test_true (20 <=? hl)].
  destruct (Z.ltb_spec (Zlen data) hl); [test_false (hl <=? Zlen data); done | test_true (hl <=? Zlen data)].
  set (tot := ntoh16 (total_length h)).
  destruct (Z.ltb_spec tot hl); [test_false (hl <=? tot); done | test_true (hl <=? tot)].
  destruct (Z.ltb_spec (Zlen data) tot); [test_false (tot <=? Zlen data); done | test_true (tot <=? Zlen data)].
  cbn [andb]; rewrite (mem_read_ok data 20), (mem_read_ok data hl) by lia; cbn [mbind res_bind].
  rewrite ipv4_checksum_eq; [|auto with bytes | rewrite Zlen_slice; lia..|rewrite Zlen_slice; lia_div].
  cbn [mbind res_bind]; change (hton16 0) with 0.
  set (f := oc_fold _); assert (0 <= f <= 65535) as Hf.
  { apply oc_fold_range, be16_sum_bound, bytes_ok_app; auto with bytes. }
  destruct (Z.eqb_spec (ip_checksum h) (hton16 (65535 - f))) as [E|E].
  - rewrite E, ntoh16_hton16, Z.eqb_refl by (unfold is_u16; lia); done.
  - destruct (Z.eqb_spec (ntoh16 (ip_checksum h)) (65535 - f)) as [E'|]; [|done].
    destruct E; rewrite <- E', hton16_ntoh16; done.
Qed.

(** C35: [ipv4_check] never touches memory outside the buffer, never fails an assertion, and
    accepts exactly the valid datagrams, returning the header as stored and the payload
    the total length delimits. *)
Theorem ipv4_check_spec data : bytes_ok data ->
  ipv4_check data =
    Ok (if ipv4_valid data then
          let h := ipv4_header_load (slice 0 20 data) in
          let hl := ihl_bytes (version4_ihl4 h) in
          Some (h, slice hl (ntoh16 (total_length h) - hl) data)
        else None).
Proof. apply ipv4_check_eq. Qed.

(** The bytes of a datagram with options, for the witnesses. *)
Definition ipv4_sample : list Z :=
  [70; 0; 0; 26; 0; 1; 0; 0; 64; 17; 99; 207; 10; 0; 0; 2; 10; 0; 0; 1; 1; 1; 1; 0; 7; 9].

Lemma ipv4_check_spec_witness :
  ipv4_check ipv4_sample = Ok (Some (ipv4_header_load (slice 0 20 ipv4_sample), [7; 9])).
Proof. exact (ipv4_check_spec ipv4_sample (bytes_ok_lit ipv4_sample eq_refl)). Defined.

(** * Headers that were built are accepted as they were built *)

Lemma slice_app_whole_l {A} (l m : list A) n : n = Zlen l -> slice 0 n (l ++ m) = l.
Proof. intros ->; pose proof (Zlen_nonneg l); rewrite slice_app_l, slice_all by lia; done. Qed.
Lemma slice_app_whole_r {A} (l m : list A) off n : off = Zlen l -> n = Zlen m ->
  slice off n (l ++ m) = m.
Proof. intros -> ->; rewrite slice_app_r, Z.sub_diag by lia; apply slice_all. Qed.

Lemma ipv4_check_built h rest : ipv4_header_wf h -> version4_ihl4 h = 69 -> bytes_ok rest ->
  ntoh16 (total_length h) = 20 + Zlen rest ->
  ntoh16 (ip_checksum h) = 65535 - oc_fold (be16_sum (ipv4_header_bytes (h <| ip_checksum := 0 |>))) ->
  ipv4_check (ipv4_header_bytes h ++ rest) = Ok (Some (h, rest)).
Proof.
  intros Hwf Hv Hr Ht Hc; pose proof (Zlen_nonneg rest).
  rewrite ipv4_check_eq by (apply bytes_ok_app; auto with bytes); unfold ipv4_valid; cbv zeta.
  rewrite slice_app_whole_l, ipv4_header_load_bytes by done.
  rewrite Hv, Ht, Hc, Zlen_app, ipv4_header_bytes_len.
  change (ihl_bytes 69) with 20; change (20 - 20) with 0; change (69 / 16) with 4.
  rewrite slice_0, app_nil_r, !Z.eqb_refl; decide_tests; cbn [andb].
  do 3 f_equal; apply slice_app_whole_r; [done | lia].
Qed.

Lemma udp_check_built h rest : udp_header_wf h -> ntoh16 (udp_len h) = 8 + Zlen rest ->
  udp_check (udp_header_bytes h ++ rest) = Ok (Some (h, rest)).
Proof.
  intros Hwf Hl; pose proof (Zlen_nonneg rest).
  unfold udp_check, sizeof_udp_header; rewrite Zlen_app, udp_header_bytes_len.
  decide_tests; rewrite mem_read_ok by (rewrite ?Zlen_app, ?udp_header_bytes_len; lia).
  cbn [mbind res_bind]; rewrite slice_app_whole_l, udp_header_load_bytes, Hl by done.
  decide_tests; rewrite mem_read_ok by (rewrite ?Zlen_app, ?udp_header_bytes_len; lia).
  cbn [mbind res_bind]; rewrite slice_app_whole_r by (done || lia); done.
Qed.

Lemma ipv6_header_bytes_len h : ipv6_header_wf h -> Zlen (ipv6_header_bytes h) = 40.
Proof.
  intros (_&_&_&_&_&_&[_ H1]&[_ H2]); unfold ipv6_header_bytes.
  rewrite !Zlen_app, H1, H2; done.
Qed.

Lemma ipv6_header_bytes_ok h : ipv6_header_wf h -> bytes_ok (ipv6_header_bytes h).
Proof.
  intros (_&_&_&_&_&_&[H1 _]&[H2 _]); unfold ipv6_header_bytes.
  rewrite !bytes_ok_app; auto 20 using host_bytes_ok.
Qed.

Lemma ipv6_header_load_bytes h : ipv6_header_wf h -> ipv6_header_load (ipv6_header_bytes h) = h.
Proof.
  intros (?&?&?&?&?&?&[_ H1]&[_ H2]); destruct h as [v tc f pl nh hl s d].
  unfold is_u8, is_u16, is_u32 in *; cbn in *; unfold ipv6_header_load; f_equal.
  1-6: first [ apply (host_val_bytes_id 1); done | apply (host_val_bytes_id 2); done ].
  - transitivity (slice 0 16 (s ++ d)); [done | apply slice_app_whole_l; done].
  - transitivity (slice 16 16 (s ++ d)); [done | apply slice_app_whole_r; done].
Qed.

Lemma ipv6_check_built h rest : ipv6_header_wf h -> version4_tc4 h / 16 = 6 ->
  ntoh16 (payload_length h) = Zlen rest ->
  ipv6_check (ipv6_header_bytes h ++ rest) = Ok (Some (h, rest)).
Proof.
  intros Hwf Hv Hl; pose proof (Zlen_nonneg rest); pose proof (ipv6_header_bytes_len h Hwf) as HL.
  unfold ipv6_check, sizeof_ipv6_header; rewrite Zlen_app, HL.
  decide_tests; rewrite mem_read_ok by (rewrite ?Zlen_app, ?HL; lia).
  cbn [mbind res_bind]; rewrite slice_app_whole_l, ipv6_header_load_bytes, Hl by done.
  unfold ntoh8, hton8; rewrite shiftr_div by lia; change (2 ^ 4) with 16; rewrite Hv.
  decide_tests; rewrite mem_read_ok by (rewrite ?Zlen_app, ?HL; lia).
  cbn [mbind res_bind]; rewrite slice_app_whole_r by done; done.
Qed.

(** * What the datagram checksums are *)

(** C36: Both UDP checksums are the complement of the one's complement sum of the datagram under
    its pseudo header; the sum is never zero, so the test for zero in the code never fires
    and the checksum is 0 ("not computed") whenever the sum is 0xFFFF. *)
Theorem udp_checksums_spec h payload : bytes_ok payload -> Zlen payload <= 65527 ->
  (forall src dst, exists c, udp_checksum h payload src dst = Ok c /\
     ntoh16 c = 65535 - udp_sum (pseudo4 src dst payload) h payload /\
     (c = 0 <-> udp_sum (pseudo4 src dst payload) h payload = 65535)) /\
  (forall src dst, bytes_ok src -> bytes_ok dst -> Zlen src = 16 -> Zlen dst = 16 ->
     exists c, udp_ip6_checksum h payload src dst = Ok c /\
     ntoh16 c = 65535 - udp_sum (pseudo6 src dst payload) h payload /\
     (c = 0 <-> udp_sum (pseudo6 src dst payload) h payload = 65535)).
Proof.
  intros Hp HL.
  assert (forall t, 1 <= t <= 65535 -> ntoh16 (hton16 (65535 - t)) = 65535 - t /\
    (hton16 (65535 - t) = 0 <-> t = 65535)) as Ht.
  { intros t Ht; assert (ntoh16 (hton16 (65535 - t)) = 65535 - t) as E.
    { apply ntoh16_hton16; unfold is_u16; lia. }
    split; [done|]; split; [|intros ->; done].
    intros E'; rewrite E' in E; change (ntoh16 0) with 0 in E; lia. }
  split; intros src dst; intros.
  - destruct (udp_checksum_eq h payload src dst Hp HL) as [-> Hs]; eexists; eauto.
  - destruct (udp_ip6_checksum_eq h payload src dst Hp HL) as [-> Hs]; try done; eexists; eauto.
Qed.

(** A datagram whose checksum goes out as zero over IPv6. *)
Lemma udp_checksums_spec_witness : exists c,
  udp_ip6_checksum (mk_udp_header 0 0 (hton16 10) 0) [255; 218] (replicate 16 0) (replicate 16 0)
    = Ok c /\ c = 0.
Proof.
  destruct (udp_checksums_spec (mk_udp_header 0 0 (hton16 10) 0) [255; 218]) as [_ H].
  - apply bytes_ok_lit; reflexivity.
  - vm_compute; discriminate.
  - destruct (H (replicate 16 0) (replicate 16 0)) as (c & Hc & _ & Hz);
      [apply bytes_ok_lit; reflexivity.. | reflexivity | reflexivity |].
    exists c; split; [exact Hc | apply Hz; vm_compute; reflexivity].
Defined.
