(* ===== verification/Addr.v ===== *)
(** Network addresses: the [BIPAddr] and [BAddr] values of system/BAddr.h, their
    constructors, accessors and comparisons. Name resolution and printing, which call
    [getaddrinfo] and [sprintf], are not modelled. *)

From S2P Require Import Prelude IntCodec MiscArith.

(** Addresses and ports are the raw field values, in network byte order. *)
Inductive BIPAddr : Type :=
| BIP_NONE
| BIP_IPV4 (ip : Z)
| BIP_IPV6 (ip : list Z).

Record baddr_packet := {
  phys_proto : Z; interface_index : Z; header_type : Z; packet_type : Z; phys_addr : list Z }.

Inductive BAddr : Type :=
| BADDR_NONE
| BADDR_IPV4 (ip port : Z)
| BADDR_IPV6 (ip : list Z) (port : Z)
| BADDR_PACKET (p : baddr_packet).

#[export] Instance baddr_packet_eq_dec : EqDecision baddr_packet.
Proof. solve_decision. Defined.
#[export] Instance BAddr_eq_dec : EqDecision BAddr.
Proof. solve_decision. Defined.

Definition BADDR_TYPE_NONE : Z := 0.
Definition BADDR_TYPE_IPV4 : Z := 1.
Definition BADDR_TYPE_IPV6 : Z := 2.
Definition BADDR_TYPE_PACKET : Z := 5.

(** The [type] field. *)
Definition baddr_type (a : BAddr) : Z :=
  match a with
  | BADDR_NONE => BADDR_TYPE_NONE
  | BADDR_IPV4 _ _ => BADDR_TYPE_IPV4
  | BADDR_IPV6 _ _ => BADDR_TYPE_IPV6
  | BADDR_PACKET _ => BADDR_TYPE_PACKET
  end.

Definition BAddr_MakeNone : BAddr := BADDR_NONE.
Definition BAddr_MakeIPv4 (ip port : Z) : BAddr := BADDR_IPV4 ip port.
Definition BAddr_MakeIPv6 (ip : list Z) (port : Z) : BAddr := BADDR_IPV6 (ztake 16 ip) port.
Definition BAddr_MakeFromIpaddrAndPort (ipaddr : BIPAddr) (port : Z) : BAddr :=
  match ipaddr with
  | BIP_NONE => BAddr_MakeNone
  | BIP_IPV4 ip => BAddr_MakeIPv4 ip port
  | BIP_IPV6 ip => BAddr_MakeIPv6 ip port
  end.
Definition BAddr_InitIPv4 (ip port : Z) : BAddr := BAddr_MakeIPv4 ip port.
Definition BAddr_InitIPv6 (ip : list Z) (port : Z) : BAddr := BAddr_MakeIPv6 ip port.

Definition BAddr_IsInvalid (a : BAddr) : bool := baddr_type a =? BADDR_TYPE_NONE.
Definition BAddr_GetPort (a : BAddr) : res Z :=
  match a with
  | BADDR_IPV4 _ port | BADDR_IPV6 _ port => Ok port
  | _ => Err AssertFailed
  end.
Definition BAddr_GetIPAddr (a : BAddr) : BIPAddr :=
  match a with
  | BADDR_IPV4 ip _ => BIP_IPV4 ip
  | BADDR_IPV6 ip _ => BIP_IPV6 ip
  | _ => BIP_NONE
  end.
Definition BAddr_SetPort (a : BAddr) (port : Z) : res BAddr :=
  match a with
  | BADDR_IPV4 ip _ => Ok (BADDR_IPV4 ip port)
  | BADDR_IPV6 ip _ => Ok (BADDR_IPV6 ip port)
  | _ => Err AssertFailed
  end.

(** The C library's [memcmp], of which the callers use the sign. *)
Fixpoint memcmp (l m : list Z) : Z :=
  match l, m with
  | x :: l, y :: m => if x =? y then memcmp l m else x - y
  | _, _ => 0
  end.

Definition BIPAddr_Compare (a b : BIPAddr) : bool :=
  match a, b with
  | BIP_IPV4 i, BIP_IPV4 j => i =? j
  | BIP_IPV6 i, BIP_IPV6 j => memcmp i j =? 0
  | _, _ => false
  end.
Definition BAddr_Compare (a b : BAddr) : bool :=
  match a, b with
  | BADDR_IPV4 i p, BADDR_IPV4 j q => (i =? j) && (p =? q)
  | BADDR_IPV6 i p, BADDR_IPV6 j q => (memcmp i j =? 0) && (p =? q)
  | _, _ => false
  end.

Definition BAddr_CompareOrder (a b : BAddr) : Z :=
  let cmp := B_COMPARE (baddr_type a) (baddr_type b) in
  if negb (cmp =? 0) then cmp else
  match a, b with
  | BADDR_IPV4 ip1 port1, BADDR_IPV4 ip2 port2 =>
    let cmp := B_COMPARE (ntoh32 ip1) (ntoh32 ip2) in
    if negb (cmp =? 0) then cmp else B_COMPARE (ntoh16 port1) (ntoh16 port2)
  | BADDR_IPV6 ip1 port1, BADDR_IPV6 ip2 port2 =>
    let cmp := memcmp ip1 ip2 in
    if negb (cmp =? 0) then B_COMPARE cmp 0 else B_COMPARE (ntoh16 port1) (ntoh16 port2)
  | _, _ => 0
  end.

(** * The comparison is a total order on the addresses that flows carry *)

(** An IPv4 or IPv6 address whose fields hold values of their C types. *)
Definition baddr_wf (a : BAddr) : Prop :=
  match a with
  | BADDR_IPV4 ip port => is_u32 ip /\ is_u16 port
  | BADDR_IPV6 ip port => bytes_ok ip /\ Zlen ip = 16 /\ is_u16 port
  | _ => False
  end.

(** The key an address is ordered by, padded so that all keys have one length. *)
Definition baddr_key (a : BAddr) : list Z :=
  baddr_type a ::
  match a with
  | BADDR_IPV4 ip port => [ntoh32 ip; ntoh16 port] ++ replicate 15 0
  | BADDR_IPV6 ip port => ip ++ [ntoh16 port]
  | _ => []
  end.

Lemma B_COMPARE_sign a b : (B_COMPARE a b < 0 <-> a < b) /\ (B_COMPARE a b = 0 <-> a = b) /\
  -1 <= B_COMPARE a b <= 1.
Proof. unfold B_COMPARE, b2z; split_tests; lia. Qed.

Lemma memcmp_refl l : memcmp l l = 0.
Proof. induction l; cbn [memcmp]; rewrite ?Z.eqb_refl; done. Qed.
Lemma memcmp_eq l m : length l = length m -> memcmp l m = 0 -> l = m.
Proof.
  revert m; induction l as [|x l IH]; intros [|y m]; cbn [memcmp length]; try done.
  intros HL; destruct (Z.eqb_spec x y); [intros; subst; f_equal; auto with lia | lia].
Qed.
Lemma memcmp_anti l m : memcmp l m = - memcmp m l.
Proof.
  revert m; induction l as [|x l IH]; intros [|y m]; cbn [memcmp]; try done.
  rewrite (Z.eqb_sym y x); destruct (Z.eqb_spec x y); [apply IH | lia].
Qed.
Lemma memcmp_trans l m n : length l = length m -> length m = length n ->
  memcmp l m <= 0 -> memcmp m n <= 0 -> memcmp l n <= 0 /\
  (memcmp l m < 0 \/ memcmp m n < 0 -> memcmp l n < 0).
Proof.
  revert m n; induction l as [|x l IH]; intros [|y m] [|z n]; cbn [memcmp length]; try lia.
  intros; destruct (Z.eqb_spec x y), (Z.eqb_spec y z), (Z.eqb_spec x z);
    try lia; subst; eauto with lia.
Qed.

Lemma baddr_key_length a : baddr_wf a -> length (baddr_key a) = 18%nat.
Proof.
  destruct a as [|ip port|ip port|]; cbn; try done; intros (_ & HL & _).
  rewrite length_app; rewrite Zlen_length in HL; cbn [length]; lia.
Qed.

Lemma memcmp_app l1 l2 m1 m2 : length l1 = length l2 ->
  memcmp (l1 ++ m1) (l2 ++ m2) = if memcmp l1 l2 =? 0 then memcmp m1 m2 else memcmp l1 l2.
Proof.
  revert l2; induction l1 as [|x l1 IH]; intros [|y l2]; cbn [memcmp app length]; try done.
  intros HL; destruct (Z.eqb_spec x y); [auto with lia|].
  destruct (Z.eqb_spec (x - y) 0); [lia | done].
Qed.

Lemma baddr_key_inj a b : baddr_wf a -> baddr_wf b -> baddr_key a = baddr_key b -> a = b.
Proof.
  destruct a as [|ip1 p1|ip1 p1|], b as [|ip2 p2|ip2 p2|]; cbn; try done.
  - intros [Hi1 Hp1] [Hi2 Hp2] [= E1 E2].
    f_equal; [apply ntoh32_inj | apply ntoh16_inj]; done.
  - intros (_ & L1 & Hp1) (_ & L2 & Hp2) [= E].
    apply app_inj_tail in E as [-> E]; f_equal; apply ntoh16_inj; done.
Qed.

(** The sign of the comparison is the sign of the lexicographic comparison of keys. *)
Lemma BAddr_CompareOrder_key a b : baddr_wf a -> baddr_wf b ->
  (BAddr_CompareOrder a b < 0 <-> memcmp (baddr_key a) (baddr_key b) < 0) /\
  (BAddr_CompareOrder a b = 0 <-> memcmp (baddr_key a) (baddr_key b) = 0).
Proof.
  intros Ha Hb; unfold BAddr_CompareOrder, baddr_key; cbn [memcmp].
  pose proof (B_COMPARE_sign (baddr_type a) (baddr_type b)).
  destruct (Z.eqb_spec (baddr_type a) (baddr_type b)) as [E|E];
    [|split_tests; try lia]; rewrite ?E in *.
  replace (B_COMPARE (baddr_type b) (baddr_type b)) with 0 by lia; cbn [negb Z.eqb].
  destruct a as [|ip1 p1|ip1 p1|], b as [|ip2 p2|ip2 p2|]; cbn in Ha, Hb, E; try done; try lia.
  - cbn [memcmp app]; pose proof (B_COMPARE_sign (ntoh32 ip1) (ntoh32 ip2)).
    pose proof (B_COMPARE_sign (ntoh16 p1) (ntoh16 p2)).
    destruct (Z.eqb_spec (ntoh32 ip1) (ntoh32 ip2)), (Z.eqb_spec (ntoh16 p1) (ntoh16 p2));
      rewrite ?memcmp_refl; split_tests; lia.
  - destruct Ha as (_ & L1 & _), Hb as (_ & L2 & _); rewrite Zlen_length in L1, L2.
    rewrite memcmp_app by lia; cbn [memcmp].
    pose proof (B_COMPARE_sign (ntoh16 p1) (ntoh16 p2)).
    pose proof (B_COMPARE_sign (memcmp ip1 ip2) 0).
    destruct (Z.eqb_spec (ntoh16 p1) (ntoh16 p2)); split_tests; lia.
Qed.

(** C38: [BAddr_CompareOrder] is a total order on IPv4 and IPv6 addresses, and compares equal
    exactly on equal addresses: what the trees keyed by addresses rely on. *)
Theorem BAddr_CompareOrder_total_order a b c : baddr_wf a -> baddr_wf b -> baddr_wf c ->
  (BAddr_CompareOrder a b = 0 <-> a = b) /\
  (BAddr_CompareOrder a b < 0 <-> BAddr_CompareOrder b a > 0) /\
  (BAddr_CompareOrder a b < 0 -> BAddr_CompareOrder b c < 0 -> BAddr_CompareOrder a c < 0).
Proof.
  intros Ha Hb Hc.
  pose proof (BAddr_CompareOrder_key a b Ha Hb); pose proof (BAddr_CompareOrder_key b a Hb Ha).
  pose proof (BAddr_CompareOrder_key b c Hb Hc); pose proof (BAddr_CompareOrder_key a c Ha Hc).
  pose proof (memcmp_anti (baddr_key a) (baddr_key b)).
  pose proof (baddr_key_length a Ha); pose proof (baddr_key_length b Hb);
    pose proof (baddr_key_length c Hc).
  split_and!.
  - split; [|intros ->; pose proof (memcmp_refl (baddr_key b)); tauto].
    intros E; apply baddr_key_inj, memcmp_eq; try done; [congruence | tauto].
  - lia.
  - pose proof (memcmp_trans (baddr_key a) (baddr_key b) (baddr_key c)); lia.
Qed.

Lemma BAddr_CompareOrder_total_order_witness :
  BAddr_CompareOrder (BADDR_IPV4 1 2) (BADDR_IPV6 (replicate 16 0) 2) < 0.
Proof.
  destruct (BAddr_CompareOrder_total_order (BADDR_IPV4 1 2) (BADDR_IPV6 (replicate 16 0) 2)
    (BADDR_IPV4 1 2)) as (_ & H & _).
  - vm_compute; intuition congruence.
  - split; [apply bytes_ok_lit; reflexivity | split; [reflexivity | vm_compute; intuition congruence]].
  - vm_compute; intuition congruence.
  - apply H; reflexivity.
Defined.
