(* ===== verification/DeviceUdp.v ===== *)
(** The datagram path of tun2socks/tun2socks.c between the TUN device and the udpgw client:
    UDP datagrams read from the device are validated and submitted, datagrams received
    from udpgw are framed and written to the device, and packets of the TCP stack are
    copied out to the device. *)

From S2P Require Import Prelude IntCodec MiscArith Checksum Addr.

(** The options and globals the path reads. *)
Record tun_config := {
  udpgw_enabled : bool;              (* options.udpgw_remote_server_addr is set *)
  udpgw_transparent_dns : bool;
  netif_ip6addr : bool;              (* options.netif_ip6addr is set *)
  netif_ipaddr_ipv4 : Z;             (* netif_ipaddr.ipv4 *)
  udp_mtu : Z;
  device_mtu : Z;                    (* BTap_GetMTU(&device) *)
  quitting : bool }.

(** A call of [SocksUdpGwClient_SubmitPacket]. *)
Record submit := {
  sub_local : BAddr; sub_remote : BAddr; sub_is_dns : bool; sub_data : list Z }.

Section config.
Context (cfg : tun_config).

(** The IPv4 and IPv6 cases of the switch in [process_device_udp_packet]: the
    addresses, the DNS flag and the payload, or the jump to [fail]. *)
Definition process_ipv4 (data : list Z) : res (option submit) :=
  if (Zlen data <? sizeof_ipv4_header) || negb (byte_at 9 data =? IPV4_PROTOCOL_UDP)
  then mret None else
  r ← ipv4_check data;
  match r with
  | None => mret None
  | Some (ipv4_header, data) =>
    r ← udp_check data;
    match r with
    | None => mret None
    | Some (udp_header, data) =>
      let checksum_in_packet := udp_cksum udp_header in
      checksum_computed ← udp_checksum (udp_header <| udp_cksum := 0 |>) data
        (source_address ipv4_header) (destination_address ipv4_header);
      if negb (checksum_in_packet =? checksum_computed) then mret None else
      mret (Some {|
        sub_local := BAddr_InitIPv4 (source_address ipv4_header) (source_port udp_header);
        sub_remote := BAddr_InitIPv4 (destination_address ipv4_header) (dest_port udp_header);
        sub_is_dns := udpgw_transparent_dns cfg
          && (destination_address ipv4_header =? netif_ipaddr_ipv4 cfg)
          && (dest_port udp_header =? hton16 53);
        sub_data := data |})
    end
  end.

Definition process_ipv6 (data : list Z) : res (option submit) :=
  if negb (netif_ip6addr cfg) then mret None else
  if (Zlen data <? sizeof_ipv6_header) || negb (byte_at 6 data =? IPV6_NEXT_UDP)
  then mret None else
  r ← ipv6_check data;
  match r with
  | None => mret None
  | Some (ipv6_header, data) =>
    r ← udp_check data;
    match r with
    | None => mret None
    | Some (udp_header, data) =>
      let checksum_in_packet := udp_cksum udp_header in
      checksum_computed ← udp_ip6_checksum (udp_header <| udp_cksum := 0 |>) data
        (source_address6 ipv6_header) (destination_address6 ipv6_header);
      if negb (checksum_in_packet =? checksum_computed) then mret None else
      mret (Some {|
        sub_local := BAddr_InitIPv6 (source_address6 ipv6_header) (source_port udp_header);
        sub_remote := BAddr_InitIPv6 (destination_address6 ipv6_header) (dest_port udp_header);
        sub_is_dns := false;
        sub_data := data |})
    end
  end.

(** [None] is the return value 0; [Some s] submits [s] and returns 1. *)
Definition process_device_udp_packet (data : list Z) : res (option submit) :=
  if negb (udpgw_enabled cfg) then mret None else
  let ip_version := if 0 <? Zlen data then Z.shiftr (byte_at 0 data) 4 else 0 in
  r ← (if ip_version =? 4 then process_ipv4 data
       else if ip_version =? 6 then process_ipv6 data else mret None);
  match r with
  | None => mret None
  | Some s => if udp_mtu cfg <? Zlen (sub_data s) then mret None else mret (Some s)
  end.

(** The calls the device handlers make. [pbuf_alloc] and [netif.input] are lwIP's: their
    outcomes are arguments. *)
Inductive dev_call : Type :=
| ReadInterfaceDone
| SubmitPacket (s : submit)
| NetifInput (p : list Z)
| PbufFree
| TapSend (p : list Z).

Definition device_read_handler_send (pbuf_alloc_ok input_ok : bool) (data : list Z)
    : prog unit dev_call unit :=
  passert (negb (quitting cfg));;
  pcall ReadInterfaceDone;;
  r ← plift (process_device_udp_packet data);
  match r with
  | Some s => pcall (SubmitPacket s)
  | None =>
    if UINT16_MAX <? Zlen data then pskip else
    if negb pbuf_alloc_ok then pskip else
    pcall (NetifInput data);;
    if negb input_ok then pcall PbufFree else pskip
  end.

(** [netif_input_func]: which input function of lwIP gets the packet. *)
Inductive netif_dispatch := IpInput | Ip6Input | InputDropped.
Definition netif_input_func (payload : list Z) : netif_dispatch :=
  let ip_version := if 0 <? Zlen payload then Z.shiftr (byte_at 0 payload) 4 else 0 in
  if ip_version =? 4 then IpInput
  else if (ip_version =? 6) && netif_ip6addr cfg then Ip6Input
  else InputDropped.

(** The [do ... while (p = p->next)] loop copying a pbuf chain into [device_write_buf];
    [None] is the jump to [out] for lack of space. *)
Fixpoint copy_chain (chain : list (list Z)) (len : Z) : prog (list Z) dev_call (option Z) :=
  match chain with
  | [] => mret (Some len)
  | payload :: chain =>
    if device_mtu cfg - len <? Zlen payload then mret None else
    buf ← pget;
    buf ← plift (mem_write buf len payload);
    pmod (fun _ => buf);;
    copy_chain chain (len + Zlen payload)
  end.

(** [common_netif_output] on a chain of payloads, with [device_write_buf] as state. *)
Definition common_netif_output (chain : list (list Z)) : prog (list Z) dev_call unit :=
  if quitting cfg then pskip else
  match chain with
  | [] => pskip
  | [payload] =>
    if device_mtu cfg <? Zlen payload then pskip else pcall (TapSend payload)
  | _ =>
    r ← copy_chain chain 0;
    match r with
    | None => pskip
    | Some len =>
      buf ← pget;
      d ← plift (mem_read buf 0 len);
      pcall (TapSend d)
    end
  end.

(** The writes common to both cases at the end of [udpgw_client_handler_received]. *)
Definition write_packet (iph udph data : list Z) : prog (list Z) dev_call unit :=
  buf ← pget;
  buf ← plift (mem_write buf 0 iph);
  buf ← plift (mem_write buf (Zlen iph) udph);
  buf ← plift (mem_write buf (Zlen iph + Zlen udph) data);
  pmod (fun _ => buf);;
  let packet_length := Zlen iph + Zlen udph + Zlen data in
  passert (packet_length <=? device_mtu cfg);;
  d ← plift (mem_read buf 0 packet_length);
  pcall (TapSend d).

Definition received_ipv4_headers (local_ip local_port remote_ip remote_port : Z)
    (data : list Z) : res (ipv4_header * udp_header) :=
  let iph := {|
    version4_ihl4 := IPV4_MAKE_VERSION_IHL sizeof_ipv4_header;
    ds := hton8 0;
    total_length := hton16 (wrap 16 (sizeof_ipv4_header + sizeof_udp_header + Zlen data));
    identification := hton16 0;
    flags3_fragmentoffset13 := hton16 0;
    ttl := hton8 64;
    protocol := hton8 IPV4_PROTOCOL_UDP;
    ip_checksum := hton16 0;
    source_address := remote_ip;
    destination_address := local_ip |} in
  c ← ipv4_checksum iph [];
  let iph := iph <| ip_checksum := c |> in
  let udph := {|
    source_port := remote_port;
    dest_port := local_port;
    udp_len := hton16 (wrap 16 (sizeof_udp_header + Zlen data));
    udp_cksum := hton16 0 |} in
  c ← udp_checksum udph data (source_address iph) (destination_address iph);
  mret (iph, udph <| udp_cksum := c |>).

Definition received_ipv6_headers (local_ip : list Z) (local_port : Z)
    (remote_ip : list Z) (remote_port : Z) (data : list Z) : res (ipv6_header * udp_header) :=
  let iph := {|
    version4_tc4 := hton8 (Z.shiftl 6 4);
    tc4_fl4 := hton8 0;
    fl := hton16 0;
    payload_length := hton16 (wrap 16 (sizeof_udp_header + Zlen data));
    next_header := hton8 IPV6_NEXT_UDP;
    hop_limit := hton8 64;
    source_address6 := ztake 16 remote_ip;
    destination_address6 := ztake 16 local_ip |} in
  let udph := {|
    source_port := remote_port;
    dest_port := local_port;
    udp_len := hton16 (wrap 16 (sizeof_udp_header + Zlen data));
    udp_cksum := hton16 0 |} in
  c ← udp_ip6_checksum udph data (source_address6 iph) (destination_address6 iph);
  mret (iph, udph <| udp_cksum := c |>).

Definition udpgw_client_handler_received (local_addr remote_addr : BAddr) (data : list Z)
    : prog (list Z) dev_call unit :=
  passert (udpgw_enabled cfg);;
  passert ((baddr_type local_addr =? BADDR_TYPE_IPV4) || (baddr_type local_addr =? BADDR_TYPE_IPV6));;
  passert (baddr_type local_addr =? baddr_type remote_addr);;
  match local_addr, remote_addr with
  | BADDR_IPV4 local_ip local_port, BADDR_IPV4 remote_ip remote_port =>
    if (UINT16_MAX - (sizeof_ipv4_header + sizeof_udp_header) <? Zlen data)
       || (device_mtu cfg - (sizeof_ipv4_header + sizeof_udp_header) <? Zlen data)
    then pskip else
    '(iph, udph) ← plift (received_ipv4_headers local_ip local_port remote_ip remote_port data);
    write_packet (ipv4_header_bytes iph) (udp_header_bytes udph) data
  | BADDR_IPV6 local_ip local_port, BADDR_IPV6 remote_ip remote_port =>
    if negb (netif_ip6addr cfg) then pskip else
    if (UINT16_MAX - sizeof_udp_header <? Zlen data)
       || (device_mtu cfg - (sizeof_ipv6_header + sizeof_udp_header) <? Zlen data)
    then pskip else
    '(iph, udph) ← plift (received_ipv6_headers local_ip local_port remote_ip remote_port data);
    write_packet (ipv6_header_bytes iph) (udp_header_bytes udph) data
  | _, _ => pskip
  end.
End config.

(** * What the device writes, the device path accepts *)

Section proofs.
Context (cfg : tun_config).
Implicit Types (buf data : list Z).

Lemma write_packet_eq buf iph udph data : Zlen buf = device_mtu cfg ->
  Zlen iph + Zlen udph + Zlen data <= device_mtu cfg ->
  exists buf', Zlen buf' = device_mtu cfg /\
    write_packet cfg iph udph data buf = Ok (tt, buf', [TapSend (iph ++ udph ++ data)]).
Proof.
  intros Hb HL; unfold write_packet; prog_simpl.
  pose proof (Zlen_nonneg iph); pose proof (Zlen_nonneg udph); pose proof (Zlen_nonneg data).
  repeat rewrite mem_write_ok by zlen; decide_tests.
  rewrite mem_read_ok by zlen.
  exists (mem_set (mem_set (mem_set buf 0 iph) (Zlen iph) udph) (Zlen iph + Zlen udph) data).
  split; [zlen|]; do 2 f_equal; cbn [app]; f_equal; f_equal.
  rewrite !slice_split, Z.add_0_l by lia.
  rewrite slice_mem_set_eq by zlen; rewrite <- app_assoc; f_equal; [|f_equal].
  - do 2 rewrite slice_mem_set_before by zlen; apply slice_mem_set_eq; zlen.
  - rewrite slice_mem_set_before by zlen; apply slice_mem_set_eq; zlen.
Qed.

(** The datagram is small enough for the headers and the device. *)
Definition received_fits (local_addr : BAddr) (data : list Z) : bool :=
  match local_addr with
  | BADDR_IPV4 _ _ => (Zlen data <=? 65507) && (Zlen data <=? device_mtu cfg - 28)
  | _ => netif_ip6addr cfg && (Zlen data <=? 65527) && (Zlen data <=? device_mtu cfg - 48)
  end.

(** Projects the fields of headers given by their values, leaving the values folded. *)
Local Ltac fields :=
  cbv beta iota delta [update ipv4_header_wf ipv6_header_wf udp_header_wf version4_ihl4 ds
    total_length identification flags3_fragmentoffset13 ttl protocol ip_checksum source_address
    destination_address version4_tc4 tc4_fl4 fl payload_length next_header hop_limit
    source_address6 destination_address6 source_port dest_port udp_len udp_cksum].
Local Ltac built :=
  first
    [ assumption
    | apply hton16_range
    | solve [apply ntoh16_hton16_eq; unfold is_u16; lia || reflexivity]
    | split; vm_compute; first [reflexivity | discriminate]
    | reflexivity ].

Lemma received_ipv4_headers_ok lip lport rip rport data :
  bytes_ok data -> Zlen data <= 65507 -> baddr_wf (BADDR_IPV4 lip lport) ->
  baddr_wf (BADDR_IPV4 rip rport) ->
  exists iph udph, received_ipv4_headers lip lport rip rport data = Ok (iph, udph) /\
    (ipv4_header_wf iph /\ version4_ihl4 iph = 69 /\ protocol iph = 17 /\
     ntoh16 (total_length iph) = 28 + Zlen data /\
     ntoh16 (ip_checksum iph) =
       65535 - oc_fold (be16_sum (ipv4_header_bytes (iph <| ip_checksum := 0 |>)))) /\
    (source_address iph = rip /\ destination_address iph = lip) /\
    (udp_header_wf udph /\ source_port udph = rport /\ dest_port udph = lport /\
     ntoh16 (udp_len udph) = 8 + Zlen data) /\
    udp_checksum (udph <| udp_cksum := 0 |>) data rip lip = Ok (udp_cksum udph).
Proof.
  intros Hd HL [Hl Hlp] [Hr Hrp]; pose proof (Zlen_nonneg data).
  unfold received_ipv4_headers, sizeof_ipv4_header, sizeof_udp_header.
  rewrite ipv4_checksum_eq, app_nil_r by (done || constructor); cbn [mbind res_bind].
  match goal with |- context [udp_checksum ?h data _ _] =>
    change (udp_checksum h data _ _) with (udp_checksum h data rip lip);
    destruct (udp_checksum_eq h data rip lip Hd ltac:(lia)) as [Hc Hs]; rewrite Hc end.
  cbn [mbind res_bind mret res_ret]; eexists _, _; split; [done|].
  rewrite !wrap_small in * by (change (2 ^ 16) with 65536; lia).
  match goal with |- context [hton16 (65535 - oc_fold ?x)] =>
    pose proof (oc_fold_range x (proj1 (be16_sum_bound _ (ipv4_header_bytes_ok _)))) end.
  fields; split_and!; built.
Qed.

Lemma process_ipv4_built iph udph data :
  udpgw_enabled cfg = true -> bytes_ok data -> Zlen data <= 65507 -> Zlen data <= udp_mtu cfg ->
  (ipv4_header_wf iph /\ version4_ihl4 iph = 69 /\ protocol iph = 17 /\
   ntoh16 (total_length iph) = 28 + Zlen data /\
   ntoh16 (ip_checksum iph) =
     65535 - oc_fold (be16_sum (ipv4_header_bytes (iph <| ip_checksum := 0 |>)))) ->
  udp_header_wf udph -> ntoh16 (udp_len udph) = 8 + Zlen data ->
  udp_checksum (udph <| udp_cksum := 0 |>) data (source_address iph) (destination_address iph)
    = Ok (udp_cksum udph) ->
  process_device_udp_packet cfg (ipv4_header_bytes iph ++ udp_header_bytes udph ++ data) =
    Ok (Some {| sub_local := BADDR_IPV4 (source_address iph) (source_port udph);
                sub_remote := BADDR_IPV4 (destination_address iph) (dest_port udph);
                sub_is_dns := udpgw_transparent_dns cfg
                  && (destination_address iph =? netif_ipaddr_ipv4 cfg)
                  && (dest_port udph =? hton16 53);
                sub_data := data |}).
Proof.
  intros Hen Hd HL Hmtu (Hwf & Hv & Hp & Ht & Hc) Huwf Hul Huc; pose proof (Zlen_nonneg data).
  unfold process_device_udp_packet; rewrite Hen; cbn [negb].
  rewrite !Zlen_app, ipv4_header_bytes_len, udp_header_bytes_len; decide_tests.
  change (byte_at 0 _) with (Z.land (version4_ihl4 iph) 255); rewrite Hv.
  change (Z.shiftr _ 4 =? 4) with true; cbv iota; unfold process_ipv4.
  change (byte_at 9 _) with (Z.land (protocol iph) 255); rewrite Hp.
  rewrite !Zlen_app, ipv4_header_bytes_len, udp_header_bytes_len.
  unfold sizeof_ipv4_header; test_false (20 + (8 + Zlen data) <? 20).
  change (negb (Z.land 17 255 =? IPV4_PROTOCOL_UDP)) with false; cbn [orb].
  rewrite ipv4_check_built; [| done | done | apply bytes_ok_app; auto with bytes | | done];
    [|rewrite Zlen_app, udp_header_bytes_len; lia].
  cbn [mbind res_bind]; rewrite udp_check_built by done; cbn [mbind res_bind].
  rewrite Huc; cbn [mbind res_bind]; rewrite Z.eqb_refl; cbn [negb mbind res_bind mret res_ret].
  cbn [sub_data]; test_false (udp_mtu cfg <? Zlen data); done.
Qed.

Lemma received_ipv6_headers_ok lip lport rip rport data :
  bytes_ok data -> Zlen data <= 65527 -> baddr_wf (BADDR_IPV6 lip lport) ->
  baddr_wf (BADDR_IPV6 rip rport) ->
  exists iph udph, received_ipv6_headers lip lport rip rport data = Ok (iph, udph) /\
    (ipv6_header_wf iph /\ version4_tc4 iph = 96 /\ next_header iph = 17 /\
     ntoh16 (payload_length iph) = 8 + Zlen data) /\
    (source_address6 iph = rip /\ destination_address6 iph = lip) /\
    (udp_header_wf udph /\ source_port udph = rport /\ dest_port udph = lport /\
     ntoh16 (udp_len udph) = 8 + Zlen data) /\
    udp_ip6_checksum (udph <| udp_cksum := 0 |>) data rip lip = Ok (udp_cksum udph).
Proof.
  intros Hd HL (Hl & Hl16 & Hlp) (Hr & Hr16 & Hrp); pose proof (Zlen_nonneg data).
  unfold received_ipv6_headers, sizeof_udp_header; cbn [source_address6 destination_address6].
  rewrite !(ztake_all 16) by lia.
  match goal with |- context [udp_ip6_checksum ?h data rip lip] =>
    destruct (udp_ip6_checksum_eq h data rip lip Hd ltac:(lia) Hr Hl Hr16 Hl16) as [Hc Hs];
    rewrite Hc end.
  cbn [mbind res_bind mret res_ret]; eexists _, _; split; [done|].
  rewrite !wrap_small in * by (change (2 ^ 16) with 65536; lia).
  fields; split_and!; built.
Qed.

Lemma process_ipv6_built iph udph data :
  udpgw_enabled cfg = true -> netif_ip6addr cfg = true -> bytes_ok data ->
  Zlen data <= 65527 -> Zlen data <= udp_mtu cfg ->
  (ipv6_header_wf iph /\ version4_tc4 iph = 96 /\ next_header iph = 17 /\
   ntoh16 (payload_length iph) = 8 + Zlen data) ->
  udp_header_wf udph -> ntoh16 (udp_len udph) = 8 + Zlen data ->
  udp_ip6_checksum (udph <| udp_cksum := 0 |>) data (source_address6 iph)
    (destination_address6 iph) = Ok (udp_cksum udph) ->
  process_device_udp_packet cfg (ipv6_header_bytes iph ++ udp_header_bytes udph ++ data) =
    Ok (Some {| sub_local := BADDR_IPV6 (source_address6 iph) (source_port udph);
                sub_remote := BADDR_IPV6 (destination_address6 iph) (dest_port udph);
                sub_is_dns := false; sub_data := data |}).
Proof.
  intros Hen H6 Hd HL Hmtu (Hwf & Hv & Hp & Ht) Huwf Hul Huc; pose proof (Zlen_nonneg data).
  pose proof (ipv6_header_bytes_len iph Hwf) as HL6.
  unfold process_device_udp_packet; rewrite Hen; cbn [negb].
  rewrite !Zlen_app, HL6, udp_header_bytes_len; decide_tests.
  change (byte_at 0 _) with (Z.land (version4_tc4 iph) 255); rewrite Hv.
  change (Z.shiftr _ 4 =? 4) with false; change (Z.shiftr _ 4 =? 6) with true; cbv iota.
  unfold process_ipv6; rewrite H6; cbn [negb].
  change (byte_at 6 _) with (Z.land (next_header iph) 255); rewrite Hp.
  rewrite !Zlen_app, HL6, udp_header_bytes_len.
  unfold sizeof_ipv6_header; test_false (40 + (8 + Zlen data) <? 40).
  change (negb (Z.land 17 255 =? IPV6_NEXT_UDP)) with false; cbn [orb].
  rewrite ipv6_check_built; [| done | rewrite Hv; done | rewrite Zlen_app, udp_header_bytes_len; lia].
  cbn [mbind res_bind]; rewrite udp_check_built by done; cbn [mbind res_bind].
  rewrite Huc; cbn [mbind res_bind]; rewrite Z.eqb_refl; cbn [negb mbind res_bind mret res_ret].
  cbn [sub_data]; test_false (udp_mtu cfg <? Zlen data).
  destruct Hwf as (_&_&_&_&_&_&[_ H1]&[_ H2]).
  unfold BAddr_InitIPv6, BAddr_MakeIPv6; rewrite !ztake_all by lia; done.
Qed.

(** C28: Every datagram that fits is framed into a packet which, read back from the device, is
    accepted with the same payload and the addresses exchanged: IP and UDP headers,
    lengths and both checksums agree between the two directions, for IPv4 and IPv6. *)
Theorem udp_loopback buf local_addr remote_addr data :
  udpgw_enabled cfg = true -> Zlen buf = device_mtu cfg -> bytes_ok data ->
  baddr_wf local_addr -> baddr_wf remote_addr -> baddr_type local_addr = baddr_type remote_addr ->
  Zlen data <= udp_mtu cfg -> received_fits local_addr data = true ->
  exists pkt buf' is_dns,
    udpgw_client_handler_received cfg local_addr remote_addr data buf =
      Ok (tt, buf', [TapSend pkt]) /\
    process_device_udp_packet cfg pkt =
      Ok (Some {| sub_local := remote_addr; sub_remote := local_addr;
                  sub_is_dns := is_dns; sub_data := data |}).
Proof.
  intros Hen Hb Hd Hl Hr Ht Hmtu Hfit; pose proof (Zlen_nonneg data).
  unfold udpgw_client_handler_received; rewrite Hen.
  destruct local_addr as [|lip lport|lip lport|], remote_addr as [|rip rport|rip rport|];
    try done; cbn in Hfit; prog_simpl; cbn [baddr_type Z.eqb Pos.eqb orb
      BADDR_TYPE_IPV4 BADDR_TYPE_IPV6]; unfold UINT16_MAX, sizeof_ipv4_header,
      sizeof_ipv6_header, sizeof_udp_header in *.
  - decide_tests.
    destruct (received_ipv4_headers_ok lip lport rip rport data)
      as (iph & udph & -> & Hi & [Es Ed] & (Hu1 & <- & <- & Hu2) & Hc); [done || lia..|].
    destruct (write_packet_eq buf (ipv4_header_bytes iph) (udp_header_bytes udph) data)
      as (buf' & _ & ->); [done | zlen|].
    eexists _, buf', _; split; [done|]; rewrite <- Es, <- Ed in *.
    apply process_ipv4_built; done || lia.
  - destruct (netif_ip6addr cfg) eqn:H6; [|done]; cbn [negb andb] in *; decide_tests.
    destruct (received_ipv6_headers_ok lip lport rip rport data)
      as (iph & udph & -> & Hi & [Es Ed] & (Hu1 & <- & <- & Hu2) & Hc); [done || lia..|].
    destruct (write_packet_eq buf (ipv6_header_bytes iph) (udp_header_bytes udph) data)
      as (buf' & _ & ->); [done | rewrite ipv6_header_bytes_len, udp_header_bytes_len by apply Hi; lia|].
    eexists _, buf', _; split; [done|]; rewrite <- Es, <- Ed in *.
    apply process_ipv6_built; done || lia.
Qed.
(** ** Reading from the device *)

(** [p] is a contiguous part of [d]. *)
Definition part (p d : list Z) : Prop :=
  exists off, 0 <= off /\ off + Zlen p <= Zlen d /\ p = slice off (Zlen p) d.

Lemma part_slice off n d : 0 <= off -> 0 <= n -> off + n <= Zlen d -> part (slice off n d) d.
Proof. intros; exists off; rewrite Zlen_slice by lia; done. Qed.
Lemma part_trans p q d : part p q -> part q d -> part p d.
Proof.
  intros (o & ? & ? & Hp) (o' & ? & ? & Hq); pose proof (Zlen_nonneg p).
  exists (o' + o); split_and!; [lia..|]; rewrite Hp at 1; rewrite Hq, slice_slice by lia; done.
Qed.
Lemma part_bytes_ok p d : part p d -> bytes_ok d -> bytes_ok p.
Proof. intros (o & _ & _ & ->) ?; auto with bytes. Qed.

Lemma host_val_slice_range n off len d : bytes_ok d -> 0 <= off -> 0 <= len ->
  off + len <= Zlen d -> n = 256 ^ len -> 0 <= host_val (slice off len d) < n.
Proof.
  intros Hd ? ? ? ->; pose proof (host_val_slice_bound off len d Hd) as H'.
  rewrite Zlen_slice in H' by lia; done.
Qed.

Lemma udp_check_sound d : bytes_ok d -> exists r, udp_check d = Ok r /\
  forall h p, r = Some (h, p) -> udp_header_wf h /\ Zlen p <= 65527 /\ part p d.
Proof.
  intros Hd; unfold udp_check, sizeof_udp_header.
  destruct (Z.ltb_spec (Zlen d) 8); [eexists; split; [done|]; done|].
  rewrite mem_read_ok by lia; cbn [mbind res_bind].
  pose proof (ntoh16_range (udp_len (udp_header_load (slice 0 8 d)))) as Hr.
  unfold is_u16 in Hr.
  destruct (Z.ltb_spec (ntoh16 (udp_len (udp_header_load (slice 0 8 d)))) 8);
    [eexists; split; [done|]; done|].
  destruct (Z.ltb_spec (8 + (Zlen d - 8)) (ntoh16 (udp_len (udp_header_load (slice 0 8 d)))));
    [eexists; split; [done|]; done|].
  rewrite mem_read_ok by lia; eexists; split; [done|]; intros ? ? [= <- <-].
  cbn [udp_len udp_header_load] in *.
  split_and!; [|rewrite Zlen_slice by lia; lia | apply part_slice; lia].
  assert (Zlen (slice 0 8 d) = 8) as HL by (rewrite Zlen_slice; lia).
  assert (bytes_ok (slice 0 8 d)) as Hb by auto with bytes.
  revert HL Hb; generalize (slice 0 8 d); clear; intros l HL Hb.
  unfold udp_header_load; fields; split_and!; apply host_val_slice_range; done || lia.
Qed.

Lemma ipv6_check_sound d : bytes_ok d -> exists r, ipv6_check d = Ok r /\
  forall h p, r = Some (h, p) -> ipv6_header_wf h /\ part p d.
Proof.
  intros Hd; unfold ipv6_check, sizeof_ipv6_header.
  destruct (Z.ltb_spec (Zlen d) 40); [eexists; split; [done|]; done|].
  rewrite mem_read_ok by lia; cbn [mbind res_bind]; case_match; [eexists; split; [done|]; done|].
  match goal with |- context [ntoh16 ?x] => pose proof (ntoh16_range x) as Hr end.
  unfold is_u16 in Hr; case_match eqn:E; [eexists; split; [done|]; done|].
  rewrite mem_read_ok by lia; eexists; split; [done|]; intros ? ? [= <- <-].
  cbn [payload_length ipv6_header_load] in *; split; [|apply part_slice; lia].
  assert (Zlen (slice 0 40 d) = 40) as HL by (rewrite Zlen_slice; lia).
  assert (bytes_ok (slice 0 40 d)) as Hb by auto with bytes.
  revert HL Hb; generalize (slice 0 40 d); clear; intros l HL Hb.
  unfold ipv6_header_load; fields; split_and!;
    first [ apply host_val_slice_range; done || lia
          | apply bytes_ok_slice; done
          | rewrite Zlen_slice by lia; done ].
Qed.

Lemma ipv4_check_sound d : bytes_ok d -> exists r, ipv4_check d = Ok r /\
  forall h p, r = Some (h, p) -> ipv4_header_wf h /\ part p d.
Proof.
  intros Hd; rewrite ipv4_check_eq by done; eexists; split; [done|]; intros h p.
  unfold ipv4_valid; cbv zeta; case_match eqn:E; [|done]; intros [= <- <-].
  rewrite !andb_true_iff in E; cbn [version4_ihl4 total_length ipv4_header_load] in *.
  split; [|apply part_slice; lia].
  apply ipv4_header_load_wf; [auto with bytes | rewrite Zlen_slice; lia].
Qed.

Definition submit_ok (data : list Z) (s : submit) : Prop :=
  Zlen (sub_data s) <= 65527 /\ part (sub_data s) data /\
  baddr_wf (sub_local s) /\ baddr_wf (sub_remote s) /\
  baddr_type (sub_local s) = baddr_type (sub_remote s).

Lemma process_ipv4_sound data : bytes_ok data -> exists r, process_ipv4 cfg data = Ok r /\
  forall s, r = Some s -> submit_ok data s.
Proof.
  intros Hd; unfold process_ipv4; case_match; [eexists; split; [done|]; done|].
  destruct (ipv4_check_sound data Hd) as ([[h p]|] & -> & Hh); cbn [mbind res_bind];
    [|eexists; split; [done|]; done].
  destruct (Hh h p eq_refl) as [(_&_&_&_&_&_&_&_&Hs&Hdst) Hp].
  pose proof (part_bytes_ok _ _ Hp Hd) as Hpb.
  destruct (udp_check_sound p Hpb) as ([[u q]|] & -> & Hu); cbn [mbind res_bind];
    [|eexists; split; [done|]; done].
  destruct (Hu u q eq_refl) as ((Hsp & Hdp & _) & HL & Hq).
  destruct (udp_checksum_eq (u <| udp_cksum := 0 |>) q (source_address h) (destination_address h)
    (part_bytes_ok _ _ Hq Hpb) HL) as [-> _]; cbn [mbind res_bind].
  case_match; eexists; (split; [done|]); [done | intros s [= <-]].
  split_and!; try done; apply (part_trans _ p); done.
Qed.

Lemma process_ipv6_sound data : bytes_ok data -> exists r, process_ipv6 cfg data = Ok r /\
  forall s, r = Some s -> submit_ok data s.
Proof.
  intros Hd; unfold process_ipv6; do 2 (case_match; [eexists; split; [done|]; done|]).
  destruct (ipv6_check_sound data Hd) as ([[h p]|] & -> & Hh); cbn [mbind res_bind];
    [|eexists; split; [done|]; done].
  destruct (Hh h p eq_refl) as [(_&_&_&_&_&_&[Hs1 Hs2]&[Hd1 Hd2]) Hp].
  pose proof (part_bytes_ok _ _ Hp Hd) as Hpb.
  destruct (udp_check_sound p Hpb) as ([[u q]|] & -> & Hu); cbn [mbind res_bind];
    [|eexists; split; [done|]; done].
  destruct (Hu u q eq_refl) as ((Hsp & Hdp & _) & HL & Hq).
  destruct (udp_ip6_checksum_eq (u <| udp_cksum := 0 |>) q (source_address6 h)
    (destination_address6 h) (part_bytes_ok _ _ Hq Hpb) HL Hs1 Hd1 Hs2 Hd2) as [-> _].
  cbn [mbind res_bind].
  case_match; eexists; (split; [done|]); [done | intros s [= <-]].
  split_and!; try done; [apply (part_trans _ p); done | ..];
    cbn [sub_local sub_remote]; unfold BAddr_InitIPv6, BAddr_MakeIPv6;
    rewrite ztake_all by lia; done.
Qed.

(** C37: Whatever bytes the device delivers, no access leaves the packet and no assertion fails;
    what is submitted is a contiguous part of the packet within the datagram size the
    udpgw client accepts, between two addresses of one family. *)
Theorem process_device_udp_packet_safe data : bytes_ok data ->
  exists r, process_device_udp_packet cfg data = Ok r /\
    forall s, r = Some s -> submit_ok data s /\ Zlen (sub_data s) <= udp_mtu cfg.
Proof.
  intros Hd; unfold process_device_udp_packet.
  case_match; [eexists; split; [done|]; done|]; cbv zeta.
  generalize (if 0 <? Zlen data then Z.shiftr (byte_at 0 data) 4 else 0); intros v.
  assert (exists r, (if v =? 4 then process_ipv4 cfg data
       else if v =? 6 then process_ipv6 cfg data else mret None) = Ok r /\
    forall s, r = Some s -> submit_ok data s) as (r & -> & Hr).
  { case_match; [apply process_ipv4_sound; done|].
    case_match; [apply process_ipv6_sound; done | eexists; split; [done|]; done]. }
  cbn [mbind res_bind]; destruct r as [s|]; [|eexists; split; [done|]; done].
  destruct (Z.ltb_spec (udp_mtu cfg) (Zlen (sub_data s))); eexists; (split; [done|]); [done|].
  intros ? [= <-]; split; [auto | lia].
Qed.

(** ** Writing to the device *)

Lemma copy_chain_spec chain len buf : 0 <= len -> Zlen buf = device_mtu cfg ->
  len <= device_mtu cfg ->
  exists buf', Zlen buf' = device_mtu cfg /\
    copy_chain cfg chain len buf =
      Ok (if len + Zlen (concat chain) <=? device_mtu cfg
          then Some (len + Zlen (concat chain)) else None, buf', []) /\
    (len + Zlen (concat chain) <= device_mtu cfg ->
     slice 0 (len + Zlen (concat chain)) buf' = slice 0 len buf ++ concat chain).
Proof.
  revert len buf; induction chain as [|p chain IH]; intros len buf Hl Hb Hm; cbn [copy_chain concat].
  - exists buf; zlen_nil; rewrite Z.add_0_r, app_nil_r; test_true (len <=? device_mtu cfg); done.
  - rewrite Zlen_app; pose proof (Zlen_nonneg p); pose proof (Zlen_nonneg (concat chain)).
    destruct (Z.ltb_spec (device_mtu cfg - len) (Zlen p)).
    + exists buf; decide_tests; split_and!; try done; lia.
    + prog_simpl; rewrite mem_write_ok by lia.
      destruct (IH (len + Zlen p) (mem_set buf len p)) as (buf' & HL & -> & Hc); [lia | zlen | lia |].
      rewrite <- Z.add_assoc in *; exists buf'; split_and!; [done..|]; intros Hf.
      rewrite Hc, app_assoc, slice_split, Z.add_0_l, slice_mem_set_eq, slice_mem_set_before by lia.
      done.
Qed.

(** A packet of the stack reaches the device whole and in order, whatever way it is split
    into a chain, exactly when it is within the device's MTU; nothing is written past
    the device buffer. *)
Theorem common_netif_output_spec chain buf :
  Zlen buf = device_mtu cfg -> chain <> [] -> quitting cfg = false ->
  exists buf', Zlen buf' = device_mtu cfg /\
    common_netif_output cfg chain buf =
      Ok (tt, buf', if Zlen (concat chain) <=? device_mtu cfg
                    then [TapSend (concat chain)] else []).
Proof.
  intros Hb Hne Hq; unfold common_netif_output; rewrite Hq; pose proof (Zlen_nonneg buf).
  destruct chain as [|p [|q chain]]; [done | |].
  - exists buf; split; [done|]; cbn [concat]; rewrite app_nil_r.
    destruct (Z.ltb_spec (device_mtu cfg) (Zlen p)); decide_tests; done.
  - destruct (copy_chain_spec (p :: q :: chain) 0 buf) as (buf' & HL & Hc & Hs); [lia..|].
    exists buf'; split; [done|]; prog_simpl; rewrite Hc, Z.add_0_l in *.
    pose proof (Zlen_nonneg (concat (p :: q :: chain))).
    destruct (Z.leb_spec (Zlen (concat (p :: q :: chain))) (device_mtu cfg)); [|done].
    rewrite mem_read_ok, Hs by lia; done.
Qed.
End proofs.

Definition sample_config : tun_config :=
  Build_tun_config true true true 16777226 1472 1500 false.

Lemma udp_loopback_witness : exists pkt buf' is_dns,
  udpgw_client_handler_received sample_config (BADDR_IPV4 1 2) (BADDR_IPV4 3 4) [5; 6] (replicate 1500 0) =
    Ok (tt, buf', [TapSend pkt]) /\
  process_device_udp_packet sample_config pkt =
    Ok (Some {| sub_local := BADDR_IPV4 3 4; sub_remote := BADDR_IPV4 1 2;
                sub_is_dns := is_dns; sub_data := [5; 6] |}).
Proof.
  apply (udp_loopback sample_config (replicate 1500 0) (BADDR_IPV4 1 2) (BADDR_IPV4 3 4) [5; 6]);
    first [reflexivity | apply bytes_ok_lit; reflexivity | vm_compute; intuition congruence].
Defined.

Lemma process_device_udp_packet_safe_witness :
  exists r, process_device_udp_packet sample_config [96; 0; 17] = Ok r.
Proof.
  destruct (process_device_udp_packet_safe sample_config [96; 0; 17]) as (r & H & _);
    [apply bytes_ok_lit; reflexivity | exists r; exact H].
Defined.

Lemma common_netif_output_spec_witness : exists buf',
  common_netif_output sample_config [[1; 2]; [3]] (replicate 1500 0) = Ok (tt, buf', [TapSend [1; 2; 3]]).
Proof.
  destruct (common_netif_output_spec sample_config [[1; 2]; [3]] (replicate 1500 0))
    as (buf' & _ & H); [reflexivity | discriminate | reflexivity | exists buf'; exact H].
Defined.
