(* ===== verification/LinkedLists.v ===== *)
(** The intrusive lists of structure/LinkedList1.h and structure/SLinkedList_impl.h on a
    heap of nodes: the operations as pointer updates, and the theorem that on a heap which
    represents a sequence they are the operations of sequences. *)

From S2P Require Import Prelude.

(** * The heap *)

Definition loc := positive.
Definition ptr := option loc.

Record node := mk_node { node_p : ptr; node_n : ptr }.
#[export] Instance node_eta : Eta node := fun x => mk_node (node_p x) (node_n x).

(** The nodes of all lists and the two fields of the list operated on. *)
Record lstore := mk_lstore { nodes : gmap loc node; first : ptr; last : ptr }.
#[export] Instance lstore_eta : Eta lstore := fun s => mk_lstore (nodes s) (first s) (last s).

Definition lprog := prog lstore Empty_set.

(** Dereferencing a pointer to memory that holds no node is a fault. *)
Definition get_node (x : loc) : lprog node := fun s =>
  match nodes s !! x with Some d => Ok (d, s, []) | None => Err OutOfBounds end.
Definition get_p (x : loc) : lprog ptr := d ← get_node x; mret (node_p d).
Definition get_n (x : loc) : lprog ptr := d ← get_node x; mret (node_n d).
Definition set_p (x : loc) (v : ptr) : lprog unit :=
  d ← get_node x; pmod (fun s => s <| nodes ::= <[x := d <| node_p := v |>]> |>).
Definition set_n (x : loc) (v : ptr) : lprog unit :=
  d ← get_node x; pmod (fun s => s <| nodes ::= <[x := d <| node_n := v |>]> |>).
Definition set_first (v : ptr) : lprog unit := pmod (fun s => s <| first := v |>).
Definition set_last (v : ptr) : lprog unit := pmod (fun s => s <| last := v |>).
Definition deref (x : ptr) : lprog loc := fun s =>
  match x with Some x => Ok (x, s, []) | None => Err OutOfBounds end.

(** * structure/LinkedList1.h *)

Definition LinkedList1_Init : lprog unit := set_first None;; set_last None.
Definition LinkedList1_IsEmpty : lprog bool :=
  f ← pread first; mret (match f with None => true | Some _ => false end).
Definition LinkedList1_GetFirst : lprog ptr := pread first.
Definition LinkedList1_GetLast : lprog ptr := pread last.

Definition LinkedList1_Prepend (node : loc) : lprog unit :=
  set_p node None;;
  f ← pread first;
  set_n node f;;
  match f with Some f => set_p f (Some node) | None => set_last (Some node) end;;
  set_first (Some node).

Definition LinkedList1_Append (node : loc) : lprog unit :=
  l ← pread last;
  set_p node l;;
  set_n node None;;
  match l with Some l => set_n l (Some node) | None => set_first (Some node) end;;
  set_last (Some node).

Definition LinkedList1_InsertBefore (node target : loc) : lprog unit :=
  p ← get_p target;
  set_p node p;;
  set_n node (Some target);;
  p ← get_p target;
  match p with Some p => set_n p (Some node) | None => set_first (Some node) end;;
  set_p target (Some node).

Definition LinkedList1_InsertAfter (node target : loc) : lprog unit :=
  set_p node (Some target);;
  n ← get_n target;
  set_n node n;;
  n ← get_n target;
  match n with Some n => set_p n (Some node) | None => set_last (Some node) end;;
  set_n target (Some node).

Definition LinkedList1_Remove (node : loc) : lprog unit :=
  p ← get_p node;
  n ← get_n node;
  match p with Some p => set_n p n | None => set_first n end;;
  p ← get_p node;
  n ← get_n node;
  match n with Some n => set_p n p | None => set_last p end.

(** [ins_list] is passed by value. *)
Definition LinkedList1_InsertListAfter (ins_first ins_last : ptr) (target : ptr) : lprog unit :=
  match ins_first with
  | None => pskip
  | Some ifirst =>
    t_next ← match target with Some t => get_n t | None => pread first end;
    set_p ifirst target;;
    ilast ← deref ins_last;
    set_n ilast t_next;;
    match target with Some t => set_n t (Some ifirst) | None => set_first (Some ifirst) end;;
    match t_next with Some t => set_p t (Some ilast) | None => set_last (Some ilast) end
  end.

Definition LinkedList1Node_Next (node : loc) : lprog ptr := get_n node.
Definition LinkedList1Node_Prev (node : loc) : lprog ptr := get_p node.

(** * structure/SLinkedList_impl.h *)

Section slinkedlist.
(** [SLINKEDLIST_PARAM_FEATURE_LAST] *)
Context (FEATURE_LAST : bool).

Definition SLinkedListMarkRemoved (entry : loc) : lprog unit := set_n entry (Some entry).
Definition SLinkedListIsRemoved (entry : loc) : lprog bool :=
  n ← get_n entry; mret (bool_decide (Some entry = n)).
Definition SLinkedList_Init : lprog unit := set_first None.
Definition SLinkedList_Next (entry : loc) : lprog ptr := get_n entry.
Definition SLinkedList_Prev (entry : loc) : lprog ptr :=
  f ← pread first;
  if bool_decide (Some entry = f) then mret None else get_p entry.

Definition set_last_if (v : ptr) : lprog unit := if FEATURE_LAST then set_last v else pskip.

Definition SLinkedList_Prepend (entry : loc) : lprog unit :=
  f ← pread first;
  set_n entry f;;
  match f with Some f => set_p f (Some entry) | None => set_last_if (Some entry) end;;
  set_first (Some entry).

Definition SLinkedList_Append (entry : loc) : lprog unit :=
  set_n entry None;;
  f ← pread first;
  match f with
  | Some _ =>
    l ← pread last;
    set_p entry l;;
    l ← deref l;
    set_n l (Some entry)
  | None => set_first (Some entry)
  end;;
  set_last (Some entry).

Definition SLinkedList_InsertBefore (entry before_entry : loc) : lprog unit :=
  set_n entry (Some before_entry);;
  f ← pread first;
  (if negb (bool_decide (Some before_entry = f)) then
     p ← get_p before_entry;
     set_p entry p;;
     p ← get_p before_entry;
     p ← deref p;
     set_n p (Some entry)
   else set_first (Some entry));;
  set_p before_entry (Some entry).

Definition SLinkedList_InsertAfter (entry after_entry : loc) : lprog unit :=
  n ← get_n after_entry;
  set_n entry n;;
  set_p entry (Some after_entry);;
  n ← get_n after_entry;
  match n with Some n => set_p n (Some entry) | None => set_last_if (Some entry) end;;
  set_n after_entry (Some entry).

Definition SLinkedList_Remove (entry : loc) : lprog unit :=
  f ← pread first;
  if negb (bool_decide (Some entry = f)) then
    p ← get_p entry;
    p ← deref p;
    n ← get_n entry;
    set_n p n;;
    n ← get_n entry;
    p ← get_p entry;
    match n with Some n => set_p n p | None => set_last_if p end
  else
    n ← get_n entry;
    set_first n.

Definition SLinkedList_RemoveFirst : lprog unit :=
  f ← pread first;
  passert (match f with Some _ => true | None => false end);;
  f ← deref f;
  n ← get_n f;
  set_first n.

Definition SLinkedList_RemoveLast : lprog unit :=
  f ← pread first;
  passert (match f with Some _ => true | None => false end);;
  l ← pread last;
  if bool_decide (l = f) then set_first None else
    l ← deref l;
    p ← get_p l;
    p' ← deref p;
    set_n p' None;;
    p ← get_p l;
    set_last p.

Definition SLinkedList_First : lprog ptr := pread first.
Definition SLinkedList_Last : lprog ptr :=
  f ← pread first; l ← pread last; mret (match f with None => None | Some _ => l end).
Definition SLinkedList_IsEmpty : lprog bool :=
  f ← pread first; mret (match f with None => true | Some _ => false end).
End slinkedlist.

(** * Sequences on the heap *)

(** The nodes of [l] are linked in order between the outer neighbours [p] and [n]. *)
Fixpoint seg (h : gmap loc node) (p : ptr) (l : list loc) (n : ptr) : Prop :=
  match l with
  | [] => True
  | x :: l => h !! x = Some (mk_node p (match head l with Some y => Some y | None => n end)) /\
              seg h (Some x) l n
  end.

(** The first node of [l], or the node after it; the last node of [l], or the one before it. *)
Definition fst_or (l : list loc) (n : ptr) : ptr := match head l with Some y => Some y | None => n end.
Definition lst_or (p : ptr) (l : list loc) : ptr := match list.last l with Some y => Some y | None => p end.

(** A doubly linked list holds the sequence [l]; a list that keeps no backward pointer in its
    first node and, without the feature, no last pointer, holds [l]. *)
Definition dll (s : lstore) (l : list loc) : Prop :=
  NoDup l /\ seg (nodes s) None l None /\ first s = head l /\ last s = list.last l.
Definition sll (FEATURE_LAST : bool) (s : lstore) (l : list loc) : Prop :=
  NoDup l /\ (exists p, seg (nodes s) p l None) /\ first s = head l /\
  (FEATURE_LAST = true -> l <> [] -> last s = list.last l).

Section seg.
Implicit Types (h : gmap loc node) (p n : ptr) (l : list loc) (x y : loc).

Lemma seg_cons h p x l n :
  seg h p (x :: l) n <-> h !! x = Some (mk_node p (fst_or l n)) /\ seg h (Some x) l n.
Proof. done. Qed.

Lemma seg_app h p l m n :
  seg h p (l ++ m) n <-> seg h p l (fst_or m n) /\ seg h (lst_or p l) m n.
Proof.
  revert p; induction l as [|x l IH]; intros p; [cbn; tauto|].
  change ((x :: l) ++ m) with (x :: (l ++ m)); rewrite !seg_cons, IH.
  assert (fst_or (l ++ m) n = fst_or l (fst_or m n)) as -> by (destruct l; done).
  assert (lst_or p (x :: l) = lst_or (Some x) l) as ->; [|tauto].
  unfold lst_or; destruct l; [done|]; cbn [list.last].
  destruct (list.last (l :: l0)) eqn:E; [done|]; apply last_None in E; done.
Qed.

Lemma seg_snoc h p l x n :
  seg h p (l ++ [x]) n <-> seg h p l (Some x) /\ h !! x = Some (mk_node (lst_or p l) n).
Proof. rewrite seg_app; cbn; tauto. Qed.

Lemma seg_agree h h' p l n : (forall x, x ∈ l -> h' !! x = h !! x) -> seg h p l n -> seg h' p l n.
Proof.
  revert p; induction l as [|x l IH]; intros p Ha; [done|]; rewrite !seg_cons.
  intros [? ?]; rewrite Ha by set_solver; split; [done|]; apply IH; [set_solver | done].
Qed.

Lemma seg_insert h p l n x d : x ∉ l -> seg h p l n -> seg (<[x := d]> h) p l n.
Proof.
  intros Hx; apply seg_agree; intros y Hy; apply lookup_insert_ne; intros ->; done.
Qed.

Lemma seg_lookup h p l n x : seg h p l n -> x ∈ l -> is_Some (h !! x).
Proof.
  revert p; induction l as [|y l IH]; intros p; [set_solver|].
  rewrite seg_cons, elem_of_cons; intros [Hy Hl] [-> | Hx]; eauto.
Qed.

Lemma fst_or_nil n : fst_or [] n = n.
Proof. done. Qed.
Lemma fst_or_cons x l n : fst_or (x :: l) n = Some x.
Proof. done. Qed.
Lemma lst_or_nil p : lst_or p [] = p.
Proof. done. Qed.
Lemma lst_or_cons p x l : lst_or p (x :: l) = lst_or (Some x) l.
Proof.
  unfold lst_or; destruct l; [done|]; cbn [list.last].
  destruct (list.last (l :: l0)) eqn:E; [done|]; apply last_None in E; done.
Qed.
Lemma last_cons_or x l : list.last (x :: l) = lst_or (Some x) l.
Proof. rewrite <- (lst_or_cons None); unfold lst_or; destruct (list.last (x :: l)); done. Qed.
Lemma last_lst_or l : list.last l = lst_or None l.
Proof. unfold lst_or; destruct (list.last l); done. Qed.
Lemma head_fst_or l : head l = fst_or l None.
Proof. destruct l; done. Qed.
Lemma lst_or_app p l m : lst_or p (l ++ m) = lst_or (lst_or p l) m.
Proof. unfold lst_or; rewrite last_app; destruct (list.last m); done. Qed.
Lemma fst_or_app l m n : fst_or (l ++ m) n = fst_or l (fst_or m n).
Proof. destruct l; done. Qed.
Lemma lst_or_snoc p l x : lst_or p (l ++ [x]) = Some x.
Proof. unfold lst_or; rewrite last_snoc; done. Qed.

End seg.

(** ** Running the operations *)

Lemma get_node_eq s x d : nodes s !! x = Some d -> get_node x s = Ok (d, s, []).
Proof. unfold get_node; intros ->; done. Qed.

(** Evaluates pointer code on a heap with known lookups; the locations that occur are known
    to be distinct. *)
Ltac lookups :=
  repeat first
    [ rewrite lookup_insert_eq
    | rewrite lookup_insert_ne by congruence
    | rewrite last_lst_or | rewrite head_fst_or
    | rewrite lst_or_app | rewrite fst_or_app | rewrite lst_or_cons | rewrite fst_or_cons
    | rewrite lst_or_nil | rewrite fst_or_nil
    | match goal with H : ?h !! ?x = _ |- context [?h !! ?x] => rewrite H end
    | progress cbv beta iota delta [update nodes first last node_p node_n negb] ].
Ltac run_list :=
  cbv beta iota zeta delta [get_p get_n set_p set_n set_first set_last deref get_node set_last_if
    mbind mret prog_ret prog_bind pget pmod pread passert pskip lprog];
  cbn [app]; lookups.

(** [s'] holds what [s] holds outside the nodes [l]. *)
Definition frame (l : list loc) (s s' : lstore) : Prop :=
  forall y, y ∉ l -> nodes s' !! y = nodes s !! y.

(** The outcome of an operation that relinks the nodes [l]. *)
Definition relinks (m : res (unit * lstore * list Empty_set)) (s : lstore) (l : list loc)
    (Q : lstore -> Prop) : Prop :=
  exists s', m = Ok (tt, s', []) /\ Q s' /\ frame l s s'.

(** Disjointness facts of the sequence in hand, and the goals a run leaves. *)
Ltac nodup_facts :=
  repeat match goal with
  | H : NoDup (_ :: _) |- _ => apply list.NoDup_cons in H as [? ?]
  | H : NoDup (_ ++ _) |- _ => apply list.NoDup_app in H as (? & ? & ?)
  | H : _ ∉ _ ++ _ |- _ => apply not_elem_of_app in H as [? ?]
  | H : _ ∉ _ :: _ |- _ => apply not_elem_of_cons in H as [? ?]
  | H : seg _ _ (_ ++ _) _ |- _ => destruct (proj1 (seg_app _ _ _ _ _) H) as [? ?]; clear H
  | H : seg _ _ (_ :: _) _ |- _ => destruct (proj1 (seg_cons _ _ _ _ _) H) as [? ?]; clear H
  | H : is_Some _ |- _ => destruct H as [? ?]
  | H : forall x, x ∈ _ ++ _ -> _ |- _ =>
      pose proof (fun x Hx => H x (proj2 (elem_of_app _ _ x) (or_introl Hx)));
      pose proof (fun x Hx => H x (proj2 (elem_of_app _ _ x) (or_intror Hx))); clear H
  | H : forall x, x ∈ [?y] -> _ |- _ => specialize (H y (list_elem_of_here _ _))
  end.
Ltac seg_solve :=
  repeat first [rewrite seg_app | rewrite seg_cons];
  split_and!; lookups; try done; repeat apply seg_insert; try done; set_solver.
Ltac nodup_solve :=
  cbn [app]; repeat first [rewrite list.NoDup_app | rewrite list.NoDup_cons]; repeat match goal with |- _ /\ _ => split end; try done; try apply base.NoDup_nil_2;
  set_solver.
Ltac ends_solve := lookups; done.
Ltac neq x y := assert (x <> y) by (intros ->; set_solver).
Ltac frame_solve := let w := fresh "w" in intros w ?; cbn; rewrite ?lookup_insert_ne by set_solver; done.

Lemma dll_intro h f la l : NoDup l -> seg h None l None -> f = head l -> la = list.last l ->
  dll (mk_lstore h f la) l.
Proof. done. Qed.

Section linkedlist1.
Implicit Types (s : lstore) (l : list loc) (x y : loc).

Lemma LinkedList1_Prepend_eq s l x : dll s l -> x ∉ l -> is_Some (nodes s !! x) ->
  relinks (LinkedList1_Prepend x s) s (x :: l) (fun s' => dll s' (x :: l)).
Proof.
  intros (Hnd & Hs & Hf & Hl) Hx [d Hd]; destruct s as [h f la]; cbn [nodes first last] in *; subst.
  unfold relinks, LinkedList1_Prepend; destruct l as [|y l].
  - eexists; split; [run_list; done|]; split; [|frame_solve].
    apply dll_intro; [nodup_solve | seg_solve | ends_solve..].
  - nodup_facts; neq x y.
    eexists; split; [run_list; done|]; split; [|frame_solve].
    apply dll_intro; [nodup_solve | seg_solve | ends_solve..].
Qed.

Lemma LinkedList1_Append_eq s l x : dll s l -> x ∉ l -> is_Some (nodes s !! x) ->
  relinks (LinkedList1_Append x s) s (x :: l) (fun s' => dll s' (l ++ [x])).
Proof.
  intros (Hnd & Hs & Hf & Hl) Hx [d Hd]; destruct s as [h f la]; cbn [nodes first last] in *; subst.
  unfold relinks, LinkedList1_Append; destruct l as [|y l _] using rev_ind.
  - eexists; split; [run_list; done|]; split; [|frame_solve].
    apply dll_intro; [nodup_solve | seg_solve | ends_solve..].
  - nodup_facts; neq x y.
    eexists; split; [run_list; done|]; split; [|frame_solve].
    apply dll_intro; [nodup_solve | seg_solve | ends_solve..].
Qed.

Lemma LinkedList1_Remove_eq s l1 x l2 : dll s (l1 ++ x :: l2) ->
  relinks (LinkedList1_Remove x s) s (l1 ++ x :: l2) (fun s' => dll s' (l1 ++ l2) /\
    is_Some (nodes s' !! x)).
Proof.
  intros (Hnd & Hs & Hf & Hl); destruct s as [h f la]; cbn [nodes first last] in *; subst.
  unfold relinks, LinkedList1_Remove; destruct l1 as [|y l1 _] using rev_ind; destruct l2 as [|z l2].
  - nodup_facts; eexists; split; [run_list; done|]; split; [|frame_solve].
    split; [|cbn; lookups; eauto].
    apply dll_intro; [nodup_solve | seg_solve | ends_solve..].
  - nodup_facts; eexists; split; [run_list; done|]; split; [|frame_solve].
    split; [|cbn; lookups; eauto].
    apply dll_intro; [nodup_solve | seg_solve | ends_solve..].
  - rewrite app_nil_r, <- app_assoc in *; nodup_facts; neq x y.
    eexists; split; [run_list; done|]; split; [|frame_solve].
    split; [apply dll_intro; [nodup_solve | seg_solve | ends_solve..] | cbn; lookups; eauto].
  - rewrite <- !app_assoc in *; nodup_facts; neq x y; neq x z; neq y z.
    eexists; split; [run_list; done|]; split; [|frame_solve].
    split; [apply dll_intro; [nodup_solve | seg_solve | ends_solve..] | cbn; lookups; eauto].
Qed.

Lemma LinkedList1_InsertAfter_eq s l1 t l2 x : dll s (l1 ++ t :: l2) -> x ∉ l1 ++ t :: l2 ->
  is_Some (nodes s !! x) ->
  relinks (LinkedList1_InsertAfter x t s) s (x :: l1 ++ t :: l2) (fun s' =>
    dll s' (l1 ++ t :: x :: l2)).
Proof.
  intros (Hnd & Hs & Hf & Hl) Hx [d Hd]; destruct s as [h f la]; cbn [nodes first last] in *; subst.
  unfold relinks, LinkedList1_InsertAfter; destruct l2 as [|z l2].
  - nodup_facts; neq x t.
    eexists; split; [run_list; done|]; split; [|frame_solve].
    apply dll_intro; [nodup_solve | seg_solve | ends_solve..].
  - nodup_facts; neq x t; neq x z; neq t z.
    eexists; split; [run_list; done|]; split; [|frame_solve].
    apply dll_intro; [nodup_solve | seg_solve | ends_solve..].
Qed.

Lemma LinkedList1_InsertBefore_eq s l1 t l2 x : dll s (l1 ++ t :: l2) -> x ∉ l1 ++ t :: l2 ->
  is_Some (nodes s !! x) ->
  relinks (LinkedList1_InsertBefore x t s) s (x :: l1 ++ t :: l2) (fun s' =>
    dll s' (l1 ++ x :: t :: l2)).
Proof.
  intros (Hnd & Hs & Hf & Hl) Hx [d Hd]; destruct s as [h f la]; cbn [nodes first last] in *; subst.
  unfold relinks, LinkedList1_InsertBefore; destruct l1 as [|y l1 _] using rev_ind.
  - nodup_facts; neq x t.
    eexists; split; [run_list; done|]; split; [|frame_solve].
    apply dll_intro; [nodup_solve | seg_solve | ends_solve..].
  - rewrite <- !app_assoc in *; nodup_facts; neq x t; neq x y; neq t y.
    eexists; split; [run_list; done|]; split; [|frame_solve].
    apply dll_intro; [nodup_solve | seg_solve | ends_solve..].
Qed.
End linkedlist1.

(** [NoDup] up to reassociation. *)
Ltac order_solve H :=
  destruct H as [H _]; clear -H; cbn [app] in *; rewrite <- ?app_assoc in *; cbn [app] in *;
  rewrite ?app_nil_r in *; exact H.

Section insert_list.
(** Two lists on one heap: [s] and the list [(ifirst, ilast)] to insert. *)
Lemma LinkedList1_InsertListAfter_eq s l1 l2 m :
  dll s (l1 ++ l2) -> dll (mk_lstore (nodes s) (head m) (list.last m)) m ->
  (forall x, x ∈ m -> x ∉ l1 ++ l2) ->
  relinks (LinkedList1_InsertListAfter (head m) (list.last m) (list.last l1) s) s
    (m ++ l1 ++ l2) (fun s' => dll s' (l1 ++ m ++ l2)).
Proof.
  intros (Hnd & Hs & Hf & Hl) (Hndm & Hsm & _) Hd; destruct s as [h f la];
    cbn [nodes first last] in *; subst.
  assert (NoDup (l1 ++ m ++ l2)) as Hn.
  { rewrite (Permutation_app_comm m), app_assoc; apply list.NoDup_app; set_solver. }
  pose proof (conj Hn I) as Hn'; clear Hnd Hndm Hd.
  unfold relinks, LinkedList1_InsertListAfter; destruct m as [|i m].
  { cbn [head]; eexists; split; [reflexivity|]; split; [done | frame_solve]. }
  destruct m as [|k m _] using rev_ind; destruct l1 as [|t l1 _] using rev_ind;
    destruct l2 as [|z l2]; try rewrite app_nil_r in *; rewrite <- ?app_assoc in *; nodup_facts;
    repeat match goal with
    | x : loc, y : loc |- _ => lazymatch goal with
       | _ : x <> y |- _ => fail | _ : y <> x |- _ => fail | _ => neq x y end
    end; idtac.
  all: eexists; split; [run_list; done|]; split; [|frame_solve].
  all: apply dll_intro; [order_solve Hn' | seg_solve | ends_solve..].
Qed.
End insert_list.

Lemma sll_intro FL h f la l p : NoDup l -> seg h p l None -> f = head l ->
  (FL = true -> l <> [] -> la = list.last l) -> sll FL (mk_lstore h f la) l.
Proof. repeat split; eauto. Qed.

Section slinkedlist_proofs.
Context (FL : bool).
Implicit Types (s : lstore) (l : list loc) (x y : loc).

(** The last pointer, kept only with the feature. *)
Local Ltac slast_solve :=
  let HF := fresh in intros HF ?; try rewrite HF in *; lookups; try done.

Lemma SLinkedList_Init_eq s : relinks (SLinkedList_Init s) s [] (fun s' => sll FL s' []).
Proof.
  destruct s; eexists; split; [reflexivity|]; split; [|done].
  eapply (sll_intro _ _ _ _ _ None); done || constructor.
Qed.

Lemma SLinkedList_Prepend_eq s l x : sll FL s l -> x ∉ l -> is_Some (nodes s !! x) ->
  relinks (SLinkedList_Prepend FL x s) s (x :: l) (fun s' => sll FL s' (x :: l)).
Proof.
  intros (Hnd & [p Hs] & Hf & Hl) Hx [[q n] Hd]; destruct s as [h f la].
  cbn [nodes first last] in *; subst; unfold relinks, SLinkedList_Prepend; destruct l as [|y l].
  - destruct FL; (eexists; split; [run_list; done|]; split; [|frame_solve]);
      apply (sll_intro _ _ _ _ _ q); [nodup_solve | seg_solve | ends_solve | slast_solve
        | nodup_solve | seg_solve | ends_solve | done].
  - nodup_facts; neq x y.
    eexists; split; [run_list; done|]; split; [|frame_solve].
    apply (sll_intro _ _ _ _ _ q); [nodup_solve | seg_solve | ends_solve | ].
    intros HF _; rewrite Hl by done; ends_solve.
Qed.

Lemma SLinkedList_RemoveFirst_eq s x l : sll FL s (x :: l) ->
  relinks (SLinkedList_RemoveFirst s) s [] (fun s' => sll FL s' l /\ nodes s' = nodes s).
Proof.
  intros (Hnd & [p Hs] & Hf & Hl); destruct s as [h f la]; cbn [nodes first last] in *; subst.
  unfold relinks, SLinkedList_RemoveFirst; nodup_facts.
  eexists; split; [run_list; done|]; split; [|done]; split; [|done].
  apply (sll_intro _ _ _ _ _ (Some x)); [done.. | ends_solve |].
  intros HF Hne; rewrite Hl by done; destruct l; done.
Qed.

Lemma SLinkedList_Remove_eq s l1 x l2 : sll FL s (l1 ++ x :: l2) ->
  relinks (SLinkedList_Remove FL x s) s (l1 ++ x :: l2) (fun s' =>
    sll FL s' (l1 ++ l2) /\ is_Some (nodes s' !! x)).
Proof.
  intros (Hnd & [p Hs] & Hf & Hl); destruct s as [h f la]; cbn [nodes first last] in *; subst.
  unfold relinks, SLinkedList_Remove; destruct l1 as [|y l1 _] using rev_ind.
  - nodup_facts; eexists; split; [run_list; rewrite bool_decide_eq_true_2 by done; run_list; done|].
    split; [|frame_solve]; split; [|cbn; lookups; eauto].
    apply (sll_intro _ _ _ _ _ (Some x)); [done.. | ends_solve |].
    intros HF Hne; rewrite Hl by done; destruct l2; done.
  - assert (Some x <> fst_or l1 (Some y)) as Hx.
    { nodup_facts; destruct l1 as [|w l1]; cbn; intros [= ->]; set_solver. }
    destruct FL, l2 as [|z l2]; rewrite <- !app_assoc in *; nodup_facts; neq x y;
      try neq x z; try neq y z;
      (eexists; split;
        [run_list; rewrite bool_decide_eq_false_2 by done; run_list; done|]).
    all: split; [|frame_solve]; split; [|cbn; lookups; eauto].
    all: apply (sll_intro _ _ _ _ _ p); [nodup_solve | seg_solve | ends_solve | ].
    all: intros HF Hne; try done; try rewrite Hl by (done || destruct l1; done); ends_solve.
Qed.

Lemma SLinkedList_InsertBefore_eq s l1 t l2 x : sll FL s (l1 ++ t :: l2) ->
  x ∉ l1 ++ t :: l2 -> is_Some (nodes s !! x) ->
  relinks (SLinkedList_InsertBefore x t s) s (x :: l1 ++ t :: l2) (fun s' =>
    sll FL s' (l1 ++ x :: t :: l2)).
Proof.
  intros (Hnd & [p Hs] & Hf & Hl) Hx [[q n] Hd]; destruct s as [h f la].
  cbn [nodes first last] in *; subst.
  unfold relinks, SLinkedList_InsertBefore; destruct l1 as [|y l1 _] using rev_ind.
  - nodup_facts; neq x t; eexists; split;
      [run_list; rewrite bool_decide_eq_true_2 by done; run_list; done|]; split; [|frame_solve].
    apply (sll_intro _ _ _ _ _ q); [nodup_solve | seg_solve | ends_solve | ].
    intros HF _; rewrite Hl by done; ends_solve.
  - assert (Some t <> fst_or l1 (Some y)) as Ht.
    { nodup_facts; destruct l1 as [|w l1]; cbn; intros [= ->]; set_solver. }
    rewrite <- !app_assoc in *; nodup_facts; neq x t; neq x y; neq t y; eexists; split;
      [run_list; rewrite bool_decide_eq_false_2 by done; run_list; done|]; split; [|frame_solve].
    apply (sll_intro _ _ _ _ _ p); [nodup_solve | seg_solve | ends_solve | ].
    intros HF _; rewrite Hl by (done || destruct l1; done); ends_solve.
Qed.

Lemma SLinkedList_InsertAfter_eq s l1 t l2 x : sll FL s (l1 ++ t :: l2) ->
  x ∉ l1 ++ t :: l2 -> is_Some (nodes s !! x) ->
  relinks (SLinkedList_InsertAfter FL x t s) s (x :: l1 ++ t :: l2) (fun s' =>
    sll FL s' (l1 ++ t :: x :: l2)).
Proof.
  intros (Hnd & [p Hs] & Hf & Hl) Hx [[q n] Hd]; destruct s as [h f la].
  cbn [nodes first last] in *; subst; unfold relinks, SLinkedList_InsertAfter.
  destruct FL, l2 as [|z l2]; nodup_facts; neq x t; try neq x z; try neq t z;
    (eexists; split; [run_list; done|]).
  all: split; [|frame_solve].
  all: apply (sll_intro _ _ _ _ _ p); [nodup_solve | seg_solve | ends_solve | ].
  all: intros HF Hne; try done; try rewrite Hl by (done || destruct l1; done); ends_solve.
Qed.
End slinkedlist_proofs.

(** ** With the last pointer *)

Lemma SLinkedList_Append_eq s l x : sll true s l -> x ∉ l -> is_Some (nodes s !! x) ->
  relinks (SLinkedList_Append x s) s (x :: l) (fun s' => sll true s' (l ++ [x])).
Proof.
  intros (Hnd & [p Hs] & Hf & Hl) Hx [[q n] Hd]; destruct s as [h f la].
  cbn [nodes first last] in *; subst; unfold relinks, SLinkedList_Append.
  destruct l as [|y l _] using rev_ind.
  - eexists; split; [run_list; done|]; split; [|frame_solve].
    apply (sll_intro _ _ _ _ _ q); [nodup_solve | seg_solve | ends_solve | done].
  - specialize (Hl eq_refl ltac:(destruct l; done)); subst; rewrite last_snoc.
    assert (exists w, list.head (l ++ [y]) = Some w) as [w Hw] by (destruct l; cbn; eauto).
    rewrite Hw; nodup_facts; neq x y; eexists; split; [run_list; done|]; split; [|frame_solve].
    apply (sll_intro _ _ _ _ _ p); [nodup_solve | seg_solve | rewrite <- Hw; ends_solve | ].
    intros _ _; ends_solve.
Qed.

Lemma SLinkedList_RemoveLast_eq s l x : sll true s (l ++ [x]) ->
  relinks (SLinkedList_RemoveLast s) s (l ++ [x]) (fun s' => sll true s' l).
Proof.
  intros (Hnd & [p Hs] & Hf & Hl); destruct s as [h f la].
  cbn [nodes first last] in *; subst; unfold relinks, SLinkedList_RemoveLast.
  rewrite Hl by (done || destruct l; done); destruct l as [|y l _] using rev_ind.
  - eexists; split; [run_list; rewrite bool_decide_eq_true_2 by done; run_list; done|].
    split; [|frame_solve]; apply (sll_intro _ _ _ _ _ None); done || constructor.
  - assert (Some x <> fst_or l (Some y)) as Hx.
    { nodup_facts; destruct l as [|w l]; cbn; intros [= ->]; set_solver. }
    assert (exists w, list.head ((l ++ [y]) ++ [x]) = Some w /\ list.head (l ++ [y]) = Some w)
      as (w & Hw & Hw') by (destruct l; cbn; eauto).
    assert (fst_or l (Some y) = Some w) as Hw'' by (rewrite <- Hw'; destruct l; done).
    rewrite Hw; rewrite <- !app_assoc in *; nodup_facts; neq x y; eexists; split;
      [run_list; rewrite bool_decide_eq_false_2 by congruence; run_list; done|]; split; [|frame_solve].
    apply (sll_intro _ _ _ _ _ p); [nodup_solve | seg_solve | done | ].
    intros _ _; ends_solve.
Qed.

(** A linked node never points to itself, which marks the removed ones. *)
Lemma sll_next FL s l1 t l2 : sll FL s (l1 ++ t :: l2) ->
  exists q, nodes s !! t = Some (mk_node q (head l2)) /\ head l2 <> Some t.
Proof.
  intros (Hnd & [p Hs] & _); nodup_facts; eexists; split; [rewrite head_fst_or; done|].
  destruct l2; cbn; [done | intros [= ->]; set_solver].
Qed.

(** * The lists are the sequences they represent *)

(** C32: On a heap where a list holds a sequence, every [LinkedList1] operation succeeds and
    performs the operation of sequences, relinking no node outside the list and the node
    inserted. *)
Theorem LinkedList1_refines s l : dll s l ->
  (LinkedList1_IsEmpty s = Ok (bool_decide (l = []), s, []) /\
   LinkedList1_GetFirst s = Ok (head l, s, []) /\
   LinkedList1_GetLast s = Ok (list.last l, s, [])) /\
  (forall x, x ∉ l -> is_Some (nodes s !! x) ->
   relinks (LinkedList1_Prepend x s) s (x :: l) (fun s' => dll s' (x :: l)) /\
   relinks (LinkedList1_Append x s) s (x :: l) (fun s' => dll s' (l ++ [x]))) /\
  (forall l1 t l2, l = l1 ++ t :: l2 ->
   LinkedList1Node_Next t s = Ok (head l2, s, []) /\
   LinkedList1Node_Prev t s = Ok (list.last l1, s, []) /\
   relinks (LinkedList1_Remove t s) s l (fun s' => dll s' (l1 ++ l2) /\ is_Some (nodes s' !! t)) /\
   (forall x, x ∉ l -> is_Some (nodes s !! x) ->
    relinks (LinkedList1_InsertBefore x t s) s (x :: l) (fun s' => dll s' (l1 ++ x :: t :: l2)) /\
    relinks (LinkedList1_InsertAfter x t s) s (x :: l) (fun s' => dll s' (l1 ++ t :: x :: l2)))) /\
  (forall l1 l2 m, l = l1 ++ l2 -> dll (mk_lstore (nodes s) (head m) (list.last m)) m ->
   (forall x, x ∈ m -> x ∉ l) ->
   relinks (LinkedList1_InsertListAfter (head m) (list.last m) (list.last l1) s) s (m ++ l)
     (fun s' => dll s' (l1 ++ m ++ l2))).
Proof.
  intros Hl; split_and!.
  - destruct Hl as (_ & _ & Hf & _), l; unfold LinkedList1_IsEmpty; prog_simpl; rewrite Hf; done.
  - destruct Hl as (_ & _ & Hf & _); unfold LinkedList1_GetFirst; prog_simpl; rewrite Hf; done.
  - destruct Hl as (_ & _ & _ & Hf); unfold LinkedList1_GetLast; prog_simpl; rewrite Hf; done.
  - intros; split; [apply LinkedList1_Prepend_eq | apply LinkedList1_Append_eq]; done.
  - intros l1 t l2 ->; pose proof Hl as (_ & Hs & _); nodup_facts.
    split_and!.
    + unfold LinkedList1Node_Next; run_list; done.
    + unfold LinkedList1Node_Prev; run_list; done.
    + apply LinkedList1_Remove_eq; done.
    + intros; split; [apply LinkedList1_InsertBefore_eq | apply LinkedList1_InsertAfter_eq]; done.
  - intros l1 l2 m ->; apply LinkedList1_InsertListAfter_eq; done.
Qed.

Definition sample_store : lstore :=
  mk_lstore (<[1%positive := mk_node None (Some 2%positive)]>
    (<[2%positive := mk_node (Some 1%positive) None]> {[ 3%positive := mk_node None None ]}))
    (Some 1%positive) (Some 2%positive).

Lemma LinkedList1_refines_witness : exists s',
  LinkedList1_InsertAfter 3%positive 1%positive sample_store = Ok (tt, s', []) /\ dll s' [1; 3; 2]%positive.
Proof.
  destruct (LinkedList1_refines sample_store [1; 2]%positive) as (_ & _ & H & _).
  - apply dll_intro; [apply (bool_decide_unpack _); vm_compute; exact I | done..].
  - destruct (H [] 1%positive [2]%positive eq_refl) as (_ & _ & _ & H').
    destruct (H' 3%positive) as [_ (s' & Hs & Hd & _)];
      [apply (bool_decide_unpack _); vm_compute; exact I | eexists; reflexivity | eauto].
Defined.

(** The same for the singly terminated lists, which keep the last pointer only with the
    feature and never the backward pointer of the first node. *)
Theorem SLinkedList_refines FL s l : sll FL s l ->
  (SLinkedList_IsEmpty s = Ok (bool_decide (l = []), s, []) /\
   SLinkedList_First s = Ok (head l, s, []) /\
   (FL = true -> SLinkedList_Last s = Ok (list.last l, s, []))) /\
  (forall x, x ∉ l -> is_Some (nodes s !! x) ->
   relinks (SLinkedList_Prepend FL x s) s (x :: l) (fun s' => sll FL s' (x :: l)) /\
   (FL = true -> relinks (SLinkedList_Append x s) s (x :: l) (fun s' => sll FL s' (l ++ [x])))) /\
  (forall l1 t l2, l = l1 ++ t :: l2 ->
   SLinkedList_Next t s = Ok (head l2, s, []) /\
   SLinkedList_Prev t s = Ok (list.last l1, s, []) /\
   SLinkedListIsRemoved t s = Ok (false, s, []) /\
   relinks (SLinkedList_Remove FL t s) s l
     (fun s' => sll FL s' (l1 ++ l2) /\ is_Some (nodes s' !! t)) /\
   (forall x, x ∉ l -> is_Some (nodes s !! x) ->
    relinks (SLinkedList_InsertBefore x t s) s (x :: l)
      (fun s' => sll FL s' (l1 ++ x :: t :: l2)) /\
    relinks (SLinkedList_InsertAfter FL x t s) s (x :: l)
      (fun s' => sll FL s' (l1 ++ t :: x :: l2)))) /\
  (forall x l', l = x :: l' ->
   relinks (SLinkedList_RemoveFirst s) s [] (fun s' => sll FL s' l' /\ nodes s' = nodes s)) /\
  (forall x l', FL = true -> l = l' ++ [x] ->
   relinks (SLinkedList_RemoveLast s) s l (fun s' => sll FL s' l')).
Proof.
  intros Hl; split_and!.
  - destruct Hl as (_ & _ & Hf & _), l; unfold SLinkedList_IsEmpty; prog_simpl; rewrite Hf; done.
  - destruct Hl as (_ & _ & Hf & _); unfold SLinkedList_First; prog_simpl; rewrite Hf; done.
  - intros ->; destruct Hl as (_ & _ & Hf & Hla), l as [|x l]; unfold SLinkedList_Last; prog_simpl;
      rewrite Hf; [done | rewrite Hla by done; done].
  - intros x Hx Ha; split; [apply SLinkedList_Prepend_eq; done | intros ->; apply SLinkedList_Append_eq; done].
  - intros l1 t l2 ->; pose proof Hl as (Hnd & [p Hs] & Hf & _).
    split_and!; [.. | apply SLinkedList_Remove_eq; done |].
    + nodup_facts; unfold SLinkedList_Next; run_list; done.
    + unfold SLinkedList_Prev; destruct s as [h f la]; cbn [nodes first] in *; subst.
      run_list; destruct l1 as [|y l1 _] using rev_ind.
      * nodup_facts; rewrite bool_decide_eq_true_2 by done; done.
      * nodup_facts; rewrite bool_decide_eq_false_2.
        { lookups; done. }
        destruct l1 as [|w l1]; cbn; intros [= ->]; set_solver.
    + destruct (sll_next _ _ _ _ _ Hl) as (q & Hq & Hne); unfold SLinkedListIsRemoved; run_list.
      rewrite bool_decide_eq_false_2 by (rewrite head_fst_or in Hne; congruence); done.
    + intros; split; [apply SLinkedList_InsertBefore_eq | apply SLinkedList_InsertAfter_eq]; done.
  - intros x l' ->; eapply SLinkedList_RemoveFirst_eq; done.
  - intros x l' -> ->; apply SLinkedList_RemoveLast_eq; done.
Qed.

Lemma SLinkedList_refines_witness : exists s',
  SLinkedList_Remove true 1%positive sample_store = Ok (tt, s', []) /\ sll true s' [2]%positive.
Proof.
  destruct (SLinkedList_refines true sample_store [1; 2]%positive) as (_ & _ & H & _).
  - apply (sll_intro _ _ _ _ _ None); [apply (bool_decide_unpack _); vm_compute; exact I | done..].
  - destruct (H [] 1%positive [2]%positive eq_refl) as (_ & _ & _ & (s' & Hs & [Hd _] & _) & _).
    exists s'; split; [exact Hs | exact Hd].
Defined.
