(* ===== verification/Pending.v ===== *)
(** The job queue of base/BPending.c, on which every asynchronous step of the program runs:
    the group's pointer list of pending jobs, the operations of the group and of the jobs,
    and the theorem that they implement a stack of jobs without duplicates. *)

From S2P Require Import Prelude LinkedLists.

(** * misc/debugcounter.h *)

Definition DebugCounter_Free_ok (c : Z) : bool := (c =? 0) || (c =? INT_MAX).
Definition DebugCounter_Increment (c : Z) : res Z :=
  rassert (0 <=? c);; mret (if negb (c =? INT_MAX) then c + 1 else c).
Definition DebugCounter_Decrement (c : Z) : res Z :=
  rassert (0 <? c);; mret (if negb (c =? INT_MAX) then c - 1 else c).

Section pending.
(** Handlers and their user arguments. *)
Context {H U : Type}.

(** [BSmallPending], less the list node, which is in the heap of lists. *)
Record job := mk_job { handler : H; user : U; pending : bool }.
#[export] Instance job_eta : Eta job := fun j => mk_job (handler j) (user j) (pending j).

(** [BPendingGroup] with the memory of its jobs. *)
Record group := mk_group { jobs : lstore; objs : gmap loc job; pending_ctr : Z }.
#[export] Instance group_eta : Eta group := fun g => mk_group (jobs g) (objs g) (pending_ctr g).

(** Executing a job ends in a call of its handler. *)
Inductive run := Run (h : H) (u : U).

Definition gprog := prog group run.

Definition on_list {A} (m : lprog A) : gprog A := fun g =>
  match m (jobs g) with Ok (a, s, _) => Ok (a, g <| jobs := s |>, []) | Err f => Err f end.
Definition get_job (o : loc) : gprog job := fun g =>
  match objs g !! o with Some j => Ok (j, g, []) | None => Err OutOfBounds end.
Definition put_job (o : loc) (j : job) : gprog unit := pmod (fun g => g <| objs ::= <[o := j]> |>).

Definition BPendingGroup_Init : gprog unit :=
  on_list SLinkedList_Init;;
  pmod (fun g => g <| pending_ctr := 0 |>).

Definition BPendingGroup_Free : gprog unit :=
  c ← pread pending_ctr;
  passert (DebugCounter_Free_ok c);;
  e ← on_list SLinkedList_IsEmpty;
  passert e.

Definition BPendingGroup_HasJobs : gprog bool :=
  e ← on_list SLinkedList_IsEmpty; mret (negb e).

Definition BPendingGroup_ExecuteJob : gprog unit :=
  e ← on_list SLinkedList_IsEmpty;
  passert (negb e);;
  p ← on_list SLinkedList_First;
  p ← on_list (deref p);
  r ← on_list (SLinkedListIsRemoved p);
  passert (negb r);;
  j ← get_job p;
  passert (pending j);;
  on_list SLinkedList_RemoveFirst;;
  on_list (SLinkedListMarkRemoved p);;
  put_job p (j <| pending := false |>);;
  pcall (Run (handler j) (user j)).

Definition BPendingGroup_PeekJob : gprog ptr := on_list SLinkedList_First.

Definition BSmallPending_Init (o : loc) (h : H) (u : U) : gprog unit :=
  on_list (SLinkedListMarkRemoved o);;
  put_job o (mk_job h u false);;
  c ← pread pending_ctr;
  c ← plift (DebugCounter_Increment c);
  pmod (fun g => g <| pending_ctr := c |>).

Definition BSmallPending_Free (o : loc) : gprog unit :=
  c ← pread pending_ctr;
  c ← plift (DebugCounter_Decrement c);
  pmod (fun g => g <| pending_ctr := c |>);;
  j ← get_job o;
  r ← on_list (SLinkedListIsRemoved o);
  passert (eqb (pending j) (negb r));;
  (if negb r then on_list (SLinkedList_Remove false o) else pskip);;
  (* the object's memory is the caller's again *)
  pmod (fun g => g <| objs ::= delete o |>).

Definition BSmallPending_SetHandler (o : loc) (h : H) (u : U) : gprog unit :=
  j ← get_job o;
  put_job o (j <| handler := h |> <| user := u |>).

Definition BSmallPending_Set (o : loc) : gprog unit :=
  j ← get_job o;
  r ← on_list (SLinkedListIsRemoved o);
  passert (eqb (pending j) (negb r));;
  (if negb r then on_list (SLinkedList_Remove false o) else pskip);;
  on_list (SLinkedList_Prepend false o);;
  put_job o (j <| pending := true |>).

Definition BSmallPending_Unset (o : loc) : gprog unit :=
  j ← get_job o;
  r ← on_list (SLinkedListIsRemoved o);
  passert (eqb (pending j) (negb r));;
  if negb r then
    on_list (SLinkedList_Remove false o);;
    on_list (SLinkedListMarkRemoved o);;
    put_job o (j <| pending := false |>)
  else pskip.

Definition BSmallPending_IsSet (o : loc) : gprog bool :=
  j ← get_job o;
  r ← on_list (SLinkedListIsRemoved o);
  passert (eqb (pending j) (negb r));;
  mret (negb r).

(** * The stack the group implements *)

Record pend_spec := mk_spec { stack : list loc; known : gmap loc (H * U) }.

Definition spec_remove (o : loc) (l : list loc) : list loc := filter (fun x => x <> o) l.

(** What the operations do to the stack of pending jobs and to the table of handlers. *)
Inductive pend_op :=
| OpInit (o : loc) (h : H) (u : U)
| OpFree (o : loc)
| OpSetHandler (o : loc) (h : H) (u : U)
| OpSet (o : loc)
| OpUnset (o : loc)
| OpExecute.

Definition spec_step (op : pend_op) (s : pend_spec) : option (pend_spec * list run) :=
  match op with
  | OpInit o h u =>
    if decide (is_Some (known s !! o)) then None
    else Some (mk_spec (stack s) (<[o := (h, u)]> (known s)), [])
  | OpFree o =>
    if decide (is_Some (known s !! o))
    then Some (mk_spec (spec_remove o (stack s)) (delete o (known s)), []) else None
  | OpSetHandler o h u =>
    if decide (is_Some (known s !! o))
    then Some (mk_spec (stack s) (<[o := (h, u)]> (known s)), []) else None
  | OpSet o =>
    if decide (is_Some (known s !! o))
    then Some (mk_spec (o :: spec_remove o (stack s)) (known s), []) else None
  | OpUnset o =>
    if decide (is_Some (known s !! o))
    then Some (mk_spec (spec_remove o (stack s)) (known s), []) else None
  | OpExecute =>
    match stack s with
    | o :: l => match known s !! o with
                | Some (h, u) => Some (mk_spec l (known s), [Run h u])
                | None => None
                end
    | [] => None
    end
  end.

Definition impl_step (op : pend_op) : gprog unit :=
  match op with
  | OpInit o h u => BSmallPending_Init o h u
  | OpFree o => BSmallPending_Free o
  | OpSetHandler o h u => BSmallPending_SetHandler o h u
  | OpSet o => BSmallPending_Set o
  | OpUnset o => BSmallPending_Unset o
  | OpExecute => BPendingGroup_ExecuteJob
  end.

(** ** The representation *)

(** The counter of jobs, which saturates. *)
Definition ctr_ok (c : Z) (n : nat) : Prop := 0 <= c /\ (c = INT_MAX \/ c = Z.of_nat n).

Definition pg_rep (g : group) (s : pend_spec) : Prop :=
  sll false (jobs g) (stack s) /\
  (forall o, known s !! o = (fun j => (handler j, user j)) <$> objs g !! o) /\
  (forall o j, objs g !! o = Some j ->
     pending j = bool_decide (o ∈ stack s) /\
     (o ∉ stack s -> exists p, nodes (jobs g) !! o = Some (mk_node p (Some o)))) /\
  (forall o, o ∈ stack s -> is_Some (objs g !! o)) /\
  ctr_ok (pending_ctr g) (size (objs g)).

Lemma spec_remove_notin o l : o ∉ l -> spec_remove o l = l.
Proof.
  unfold spec_remove; induction l as [|x l IH]; intros Ho; [done|].
  apply not_elem_of_cons in Ho as [Hne Ho]; rewrite filter_cons_True by congruence.
  f_equal; auto.
Qed.
Lemma spec_remove_split o l1 l2 : NoDup (l1 ++ o :: l2) ->
  spec_remove o (l1 ++ o :: l2) = l1 ++ l2.
Proof.
  intros (_ & Hd & [Ho _]%list.NoDup_cons)%list.NoDup_app; unfold spec_remove.
  rewrite filter_app, filter_cons_False by (intros Hn; apply Hn; done).
  f_equal; apply spec_remove_notin; set_solver.
Qed.
Lemma elem_of_spec_remove o x l : x ∈ spec_remove o l <-> x <> o /\ x ∈ l.
Proof. unfold spec_remove; rewrite list_elem_of_filter; done. Qed.

Lemma on_list_eq {A} (m : lprog A) s ob c a st : m s = Ok (a, st, []) ->
  on_list m (mk_group s ob c) = Ok (a, mk_group st ob c, []).
Proof. unfold on_list; cbn [jobs]; intros ->; done. Qed.

Lemma is_removed_eq g s o j : pg_rep g s -> objs g !! o = Some j ->
  forall c, on_list (SLinkedListIsRemoved o) (mk_group (jobs g) (objs g) c) =
    Ok (negb (pending j), mk_group (jobs g) (objs g) c, []).
Proof.
  intros (Hl & _ & Ho & _) Hj; destruct (Ho o j Hj) as [-> Hr], g as [[h f la] ob c0].
  intros c; apply on_list_eq; cbn [jobs nodes objs] in *.
  destruct (decide (o ∈ stack s)) as [Hin|Hin].
  - apply list_elem_of_split in Hin as (l1 & l2 & E); rewrite E in *.
    destruct (sll_next _ _ _ _ _ Hl) as (q & Hq & Hne); cbn [nodes] in Hq.
    rewrite head_fst_or in Hne; unfold SLinkedListIsRemoved; run_list.
    rewrite bool_decide_eq_false_2 by congruence.
    rewrite bool_decide_eq_true_2 by set_solver; done.
  - destruct (Hr Hin) as [q Hq]; unfold SLinkedListIsRemoved; run_list.
    rewrite bool_decide_eq_true_2, bool_decide_eq_false_2 by done; done.
Qed.

(** Taking a job off the stack, when it is there. *)
Lemma unlink_eq g s o j : pg_rep g s -> objs g !! o = Some j ->
  exists st, (forall c, (if pending j then on_list (SLinkedList_Remove false o) else pskip)
        (mk_group (jobs g) (objs g) c) = Ok (tt, mk_group st (objs g) c, [])) /\
    sll false st (spec_remove o (stack s)) /\ is_Some (nodes st !! o) /\
    frame (stack s) (jobs g) st.
Proof.
  intros (Hl & _ & Ho & _) Hj; destruct (Ho o j Hj) as [-> Hr], g as [sl ob c].
  cbn [jobs objs pending_ctr] in *.
  destruct (decide (o ∈ stack s)) as [Hin|Hin].
  - rewrite bool_decide_eq_true_2 by done; apply list_elem_of_split in Hin as (l1 & l2 & E).
    rewrite E in *; rewrite spec_remove_split by apply Hl.
    destruct (SLinkedList_Remove_eq false _ _ _ _ Hl) as (st & Hst & [Hs Hn] & Hf).
    exists st; split_and!; try done; intros c1; apply on_list_eq; done.
  - rewrite bool_decide_eq_false_2 by done; exists sl; destruct (Hr Hin) as [q Hq].
    rewrite spec_remove_notin by done; split_and!; done.
Qed.

(** ** Each operation *)

Definition implements (g : group) (m : res (unit * group * list run)) (s' : pend_spec)
    (calls : list run) : Prop :=
  exists g', m = Ok (tt, g', calls) /\ pg_rep g' s' /\
    forall o, is_Some (nodes (jobs g) !! o) -> is_Some (nodes (jobs g') !! o).

Lemma known_obj g s o : pg_rep g s -> is_Some (known s !! o) ->
  exists h u pd, objs g !! o = Some (mk_job h u pd).
Proof.
  intros (_ & Hk & _) [v Hv]; rewrite Hk in Hv; destruct (objs g !! o) as [[]|]; [eauto | done].
Qed.

Lemma frame_alive l s s' o : frame l s s' -> (forall x, x ∈ l -> is_Some (nodes s' !! x)) ->
  is_Some (nodes s !! o) -> is_Some (nodes s' !! o).
Proof.
  intros Hf Hl Ho; destruct (decide (o ∈ l)) as [|Hn]; [auto | rewrite Hf; done].
Qed.

Lemma sll_alive FL s l x : sll FL s l -> x ∈ l -> is_Some (nodes s !! x).
Proof. intros (_ & [p Hs] & _) Hx; eapply seg_lookup; done. Qed.

Ltac run_group := cbv beta iota zeta delta [mbind mret prog_ret prog_bind pget pmod pread passert
  pcall plift get_job put_job update jobs objs pending_ctr handler user pending]; cbn [app].

(** Rewriting the job [o] and relinking nodes of the stack and [o] only. *)
Lemma pg_rep_put sl ob c s st l k c' o h u pd : pg_rep (mk_group sl ob c) s ->
  sll false st l -> (forall x, x <> o -> x ∈ l <-> x ∈ stack s) ->
  pd = bool_decide (o ∈ l) -> (o ∉ l -> exists p, nodes st !! o = Some (mk_node p (Some o))) ->
  (forall x, x <> o -> x ∉ stack s -> nodes st !! x = nodes sl !! x) ->
  k !! o = Some (h, u) -> (forall x, x <> o -> k !! x = known s !! x) ->
  ctr_ok c' (size (<[o := mk_job h u pd]> ob)) ->
  pg_rep (mk_group st (<[o := mk_job h u pd]> ob) c') (mk_spec l k).
Proof.
  intros (Hl & Hkn & Ho & Hin & Hc) Hl' Hx Hpd Hrm Hfr Hk Hk' Hc'; cbn [jobs objs] in *.
  split_and!; [done | | | | done]; cbn [stack known jobs objs].
  - intros x; destruct (decide (x = o)) as [->|Hne].
    + rewrite lookup_insert_eq; done.
    + rewrite lookup_insert_ne, Hk' by done; apply Hkn.
  - intros x j; destruct (decide (x = o)) as [->|Hne].
    + rewrite lookup_insert_eq; intros [= <-]; done.
    + rewrite lookup_insert_ne by done; intros Hj; destruct (Ho x j Hj) as [-> Hr].
      split; [apply bool_decide_ext; symmetry; auto|].
      intros Hnl; rewrite Hfr by (rewrite <- ?Hx; done); apply Hr; rewrite <- Hx; done.
  - intros x; destruct (decide (x = o)) as [->|Hne]; [rewrite lookup_insert_eq; eauto|].
    rewrite lookup_insert_ne, Hx by done; apply Hin.
Qed.

Lemma ctr_ok_put c (ob : gmap loc job) o j j' : ob !! o = Some j -> ctr_ok c (size ob) ->
  ctr_ok c (size (<[o := j']> ob)).
Proof. intros Hj; rewrite map_size_insert_Some by eauto; done. Qed.

Lemma MarkRemoved_eq s o : is_Some (nodes s !! o) -> exists p s',
  SLinkedListMarkRemoved o s = Ok (tt, s', []) /\ first s' = first s /\ last s' = last s /\
  nodes s' = <[o := mk_node p (Some o)]> (nodes s).
Proof.
  intros [[p n] Hn]; destruct s as [h f la]; cbn [nodes] in Hn; exists p.
  unfold SLinkedListMarkRemoved; run_list; eexists; split_and!; done.
Qed.

Lemma sll_mark FL s s' l o d : sll FL s l -> o ∉ l -> first s' = first s -> last s' = last s ->
  nodes s' = <[o := d]> (nodes s) -> sll FL s' l.
Proof.
  intros (Hnd & [p Hs] & Hf & Hl) Ho Hf' Hl' Hn; split_and!; [done | | congruence |].
  - exists p; rewrite Hn; apply seg_insert; done.
  - rewrite Hl'; done.
Qed.

Lemma Set_eq g s o : pg_rep g s -> is_Some (known s !! o) ->
  implements g (BSmallPending_Set o g) (mk_spec (o :: spec_remove o (stack s)) (known s)) [].
Proof.
  intros Hr Hk; destruct (known_obj g s o Hr Hk) as (h & u & pd & Hj), g as [sl ob c].
  pose proof Hr as (Hl & Hkn & Ho & Hin & Hc).
  destruct (unlink_eq _ s o _ Hr Hj) as (st & Hun & Hsl & Hno & Hfr).
  destruct (SLinkedList_Prepend_eq false st (spec_remove o (stack s)) o) as (st' & Hpre & Hsl' & Hfr').
  { done. } { rewrite elem_of_spec_remove; tauto. } { done. }
  pose proof (is_removed_eq _ s o _ Hr Hj) as Hrem.
  cbn [jobs objs pending_ctr pending] in *.
  unfold implements, BSmallPending_Set; run_group; rewrite Hj; run_group; rewrite Hrem.
  rewrite negb_involutive, eqb_reflx; run_group; rewrite Hun; run_group.
  rewrite (on_list_eq _ _ _ _ _ _ Hpre); run_group.
  eexists; split; [done|]; split.
  - apply (pg_rep_put sl ob c s); try done.
    + intros x Hx; rewrite elem_of_cons, elem_of_spec_remove; tauto.
    + rewrite bool_decide_eq_true_2 by set_solver; done.
    + set_solver.
    + intros x Hx Hns; rewrite Hfr', Hfr; [done.. |].
      rewrite elem_of_cons, elem_of_spec_remove; tauto.
    + rewrite Hkn, Hj; done.
    + eapply ctr_ok_put; done.
  - intros x Hx; eapply frame_alive; [exact Hfr' | intros; eapply sll_alive; done |].
    eapply frame_alive; [exact Hfr | | done]; intros y Hy.
    destruct (decide (y = o)) as [->|]; [done|].
    eapply sll_alive; [exact Hsl | apply elem_of_spec_remove; done].
Qed.

Lemma stack_alive g s o st : pg_rep g s -> sll false st (spec_remove o (stack s)) ->
  is_Some (nodes st !! o) -> frame (stack s) (jobs g) st ->
  forall x, is_Some (nodes (jobs g) !! x) -> is_Some (nodes st !! x).
Proof.
  intros (Hl & _) Hsl Hno Hfr x; apply frame_alive with (stack s); [done|]; intros y Hy.
  destruct (decide (y = o)) as [->|]; [done|].
  eapply sll_alive; [exact Hsl | apply elem_of_spec_remove; done].
Qed.

Lemma Unset_eq g s o : pg_rep g s -> is_Some (known s !! o) ->
  implements g (BSmallPending_Unset o g) (mk_spec (spec_remove o (stack s)) (known s)) [].
Proof.
  intros Hr Hk; destruct (known_obj g s o Hr Hk) as (h & u & pd & Hj), g as [sl ob c].
  pose proof Hr as (Hl & Hkn & Ho & Hin & Hc).
  destruct (unlink_eq _ s o _ Hr Hj) as (st & Hun & Hsl & Hno & Hfr).
  destruct (MarkRemoved_eq st o Hno) as (p & st' & Hm & Hf1 & Hl1 & Hn1).
  assert (o ∉ spec_remove o (stack s)) as Hnin by (rewrite elem_of_spec_remove; tauto).
  pose proof (is_removed_eq _ s o _ Hr Hj) as Hrem; pose proof (stack_alive _ s o st Hr Hsl Hno Hfr) as Hal.
  destruct (Ho o _ Hj) as [Hpd Hn0]; cbn [jobs objs pending_ctr pending] in *.
  unfold implements, BSmallPending_Unset; run_group; rewrite Hj; run_group; rewrite Hrem.
  rewrite negb_involutive, eqb_reflx; run_group; destruct pd.
  - rewrite Hun; run_group; rewrite (on_list_eq _ _ _ _ _ _ Hm); run_group.
    eexists; split; [done|]; split.
    + apply (pg_rep_put sl ob c s); try done.
      * eapply sll_mark; done.
      * intros x Hx; rewrite elem_of_spec_remove; tauto.
      * rewrite bool_decide_eq_false_2 by done; done.
      * intros _; rewrite Hn1, lookup_insert_eq; eauto.
      * intros x Hx Hns; rewrite Hn1, lookup_insert_ne, Hfr by done; done.
      * rewrite Hkn, Hj; done.
      * eapply ctr_ok_put; done.
    + intros x Hx; cbn [jobs]; rewrite Hn1; destruct (decide (x = o)) as [->|].
      * rewrite lookup_insert_eq; eauto.
      * rewrite lookup_insert_ne by done; auto.
  - symmetry in Hpd; apply bool_decide_eq_false in Hpd; rewrite spec_remove_notin by done.
    exists (mk_group sl ob c); split; [done|]; split; [destruct s; exact Hr | done].
Qed.

Lemma Execute_eq g s o l h u : pg_rep g s -> stack s = o :: l -> known s !! o = Some (h, u) ->
  implements g (BPendingGroup_ExecuteJob g) (mk_spec l (known s)) [Run h u].
Proof.
  intros Hr Hs Hk; destruct (known_obj g s o Hr (mk_is_Some _ _ Hk)) as (h' & u' & pd & Hj), g as [sl ob c].
  pose proof Hr as (Hl & Hkn & Ho & Hin & Hc); rewrite Hs in Hl.
  pose proof (Hkn o) as E; cbn [objs] in E; rewrite Hk in E; cbn [objs] in Hj; rewrite Hj in E.
  cbn in E; injection E as <- <-.
  destruct (SLinkedList_RemoveFirst_eq _ _ _ _ Hl) as (st & Hrf & [Hsl Hnd] & _).
  pose proof Hl as (Hndl & _); apply list.NoDup_cons in Hndl as [Hol Hndl].
  destruct (MarkRemoved_eq st o) as (p & st' & Hm & Hf1 & Hl1 & Hn1).
  { cbn [jobs] in Hnd; rewrite Hnd; eapply sll_alive; [exact Hl | set_solver]. }
  pose proof (is_removed_eq _ s o _ Hr Hj) as Hrem.
  destruct (Ho o _ Hj) as [Hpd Hn0]; cbn [jobs objs pending_ctr pending] in *.
  rewrite Hs, bool_decide_eq_true_2 in Hpd by set_solver; subst pd; cbn [negb] in *.
  assert (SLinkedList_IsEmpty sl = Ok (false, sl, [])) as He.
  { destruct Hl as (_ & _ & Hf & _); unfold SLinkedList_IsEmpty; prog_simpl; rewrite Hf; done. }
  assert (SLinkedList_First sl = Ok (Some o, sl, [])) as Hfi.
  { destruct Hl as (_ & _ & Hf & _); unfold SLinkedList_First; prog_simpl; rewrite Hf; done. }
  unfold implements, BPendingGroup_ExecuteJob; run_group.
  rewrite (on_list_eq _ _ _ _ _ _ He); cbn [negb]; run_group.
  rewrite (on_list_eq _ _ _ _ _ _ Hfi); run_group.
  rewrite (on_list_eq (deref (Some o)) sl _ _ o sl) by done; run_group.
  rewrite Hrem; cbn [negb]; run_group; rewrite Hj; cbn [negb]; run_group.
  rewrite (on_list_eq _ _ _ _ _ _ Hrf); run_group.
  rewrite (on_list_eq _ _ _ _ _ _ Hm); run_group.
  eexists; split; [done|]; split.
  - apply (pg_rep_put sl ob c s); try done.
    + eapply sll_mark; done.
    + intros x Hx; rewrite Hs; set_solver.
    + rewrite bool_decide_eq_false_2 by done; done.
    + intros _; rewrite Hn1, lookup_insert_eq; eauto.
    + intros x Hx Hns; rewrite Hn1, lookup_insert_ne, Hnd by done; done.
    + eapply ctr_ok_put; done.
  - intros x Hx; cbn [jobs]; rewrite Hn1, Hnd; destruct (decide (x = o)) as [->|].
    + rewrite lookup_insert_eq; eauto.
    + rewrite lookup_insert_ne by done; auto.
Qed.

Lemma pg_Init_eq g s o h u : pg_rep g s -> known s !! o = None -> is_Some (nodes (jobs g) !! o) ->
  implements g (BSmallPending_Init o h u g) (mk_spec (stack s) (<[o := (h, u)]> (known s))) [].
Proof.
  intros Hr Hk Ha; destruct g as [sl ob c]; pose proof Hr as (Hl & Hkn & Ho & Hin & Hc).
  cbn [jobs objs pending_ctr] in *.
  assert (ob !! o = None) as Hob.
  { specialize (Hkn o); rewrite Hk in Hkn; destruct (ob !! o); done. }
  assert (o ∉ stack s) as Hos by (intros Hi; destruct (Hin o Hi); congruence).
  destruct (MarkRemoved_eq sl o Ha) as (p & st' & Hm & Hf1 & Hl1 & Hn1).
  unfold implements, BSmallPending_Init; run_group.
  rewrite (on_list_eq _ _ _ _ _ _ Hm); run_group.
  destruct Hc as [Hc0 Hc]; unfold DebugCounter_Increment; prog_simpl.
  test_true (0 <=? c); run_group; eexists; split; [done|]; split.
  - apply (pg_rep_put sl ob c s); try done.
    + eapply sll_mark; done.
    + rewrite bool_decide_eq_false_2 by done; done.
    + intros _; rewrite Hn1, lookup_insert_eq; eauto.
    + intros x Hx Hns; rewrite Hn1, lookup_insert_ne by done; done.
    + apply lookup_insert_eq.
    + intros; apply lookup_insert_ne; done.
    + unfold ctr_ok; rewrite map_size_insert_None by done.
      destruct (Z.eqb_spec c INT_MAX); cbn [negb]; lia.
  - intros x Hx; cbn [jobs]; rewrite Hn1; destruct (decide (x = o)) as [->|].
    + rewrite lookup_insert_eq; eauto.
    + rewrite lookup_insert_ne by done; auto.
Qed.

Lemma SetHandler_eq g s o h u : pg_rep g s -> is_Some (known s !! o) ->
  implements g (BSmallPending_SetHandler o h u g)
    (mk_spec (stack s) (<[o := (h, u)]> (known s))) [].
Proof.
  intros Hr Hk; destruct (known_obj g s o Hr Hk) as (h' & u' & pd & Hj), g as [sl ob c].
  pose proof Hr as (Hl & Hkn & Ho & Hin & Hc); destruct (Ho o _ Hj) as [Hpd Hn0].
  unfold implements, BSmallPending_SetHandler; cbn [objs jobs pending_ctr pending] in *.
  run_group; rewrite Hj; run_group; eexists; split; [done|]; split; [|done].
  apply (pg_rep_put sl ob c s); try done.
  - apply lookup_insert_eq.
  - intros; apply lookup_insert_ne; done.
  - eapply ctr_ok_put; done.
Qed.

Lemma Free_eq g s o : pg_rep g s -> is_Some (known s !! o) ->
  implements g (BSmallPending_Free o g)
    (mk_spec (spec_remove o (stack s)) (delete o (known s))) [].
Proof.
  intros Hr Hk; destruct (known_obj g s o Hr Hk) as (h & u & pd & Hj), g as [sl ob c].
  pose proof Hr as (Hl & Hkn & Ho & Hin & Hc); cbn [jobs objs pending_ctr] in *.
  assert (size ob <> 0%nat) as Hsz.
  { intros Hz; apply map_size_empty_inv in Hz; subst; done. }
  destruct (unlink_eq _ s o _ Hr Hj) as (st & Hun & Hsl & Hno & Hfr).
  pose proof (is_removed_eq _ s o _ Hr Hj) as Hrem; pose proof (stack_alive _ s o st Hr Hsl Hno Hfr) as Hal.
  destruct Hc as [Hc0 Hc]; assert (0 < c) by (unfold INT_MAX in *; lia).
  cbn [jobs objs pending_ctr pending] in *.
  unfold implements, BSmallPending_Free, DebugCounter_Decrement, rassert.
  run_group; test_true (0 <? c); prog_simpl; run_group; rewrite Hj; run_group; rewrite Hrem.
  rewrite negb_involutive, eqb_reflx; run_group; rewrite Hun; run_group.
  eexists; split; [done|]; split; [|done].
  split_and!; [done | | | | ]; cbn [stack known jobs objs pending_ctr].
  - intros x; rewrite !lookup_delete; destruct (decide (o = x)); [done | apply Hkn].
  - intros x j; rewrite lookup_delete_Some; intros [Hne Hx]; destruct (Ho x j Hx) as [-> Hn].
    split; [apply bool_decide_ext; rewrite elem_of_spec_remove; naive_solver|].
    rewrite elem_of_spec_remove; intros Hns.
    assert (x ∉ stack s) as Hns' by naive_solver.
    rewrite Hfr by done; auto.
  - intros x [Hne Hx]%elem_of_spec_remove; rewrite lookup_delete_ne by done; auto.
  - unfold ctr_ok; rewrite map_size_delete_Some by eauto.
    destruct (Z.eqb_spec c INT_MAX); cbn [negb]; lia.
Qed.

(** C29: The group is the stack: from a state that represents it, every operation the abstract
    stack allows succeeds with all its assertions, calls exactly the handlers the stack
    would, and represents the new stack. A job object being initialised needs memory. *)
Theorem BPending_refines op g s s' calls : pg_rep g s ->
  spec_step op s = Some (s', calls) ->
  (forall o h u, op = OpInit o h u -> is_Some (nodes (jobs g) !! o)) ->
  implements g (impl_step op g) s' calls.
Proof.
  intros Hr Hs Ha; destruct op as [o h u|o|o h u|o|o|]; cbn in Hs |- *; repeat case_decide;
    simplify_eq.
  - apply pg_Init_eq; [done | apply eq_None_not_Some; done | eauto].
  - apply Free_eq; done.
  - apply SetHandler_eq; done.
  - apply Set_eq; done.
  - apply Unset_eq; done.
  - destruct (stack s) eqn:E; [done|]; destruct (known s !! l) as [[h u]|] eqn:Ek; simplify_eq.
    eapply Execute_eq; done.
Qed.
End pending.

(** Two initialised jobs, none pending. *)
Definition sample_group : @group nat nat :=
  mk_group (mk_lstore (<[1%positive := mk_node None (Some 1%positive)]>
    {[ 2%positive := mk_node None (Some 2%positive) ]}) None None)
    (<[1%positive := mk_job 10%nat 11%nat false]> {[ 2%positive := mk_job 20%nat 21%nat false ]}) 2.

Lemma sample_group_rep :
  pg_rep sample_group (mk_spec [] (<[1%positive := (10, 11)%nat]> {[ 2%positive := (20, 21)%nat ]})).
Proof.
  split_and!; [split_and!; [constructor | exists None; done | done..] | | | | ].
  - intros o; cbn [known objs sample_group]; rewrite <- lookup_fmap.
    rewrite fmap_insert, map_fmap_singleton; done.
  - intros o j; cbn [objs jobs nodes stack sample_group].
    rewrite lookup_insert_Some, lookup_singleton_Some.
    intros [[<- <-] | [_ [<- <-]]]; (split; [done | intros _; exists None; done]).
  - intros o; cbn [stack]; set_solver.
  - vm_compute; split; [done | right; done].
Qed.

Lemma BPending_refines_witness : exists g',
  BSmallPending_Set 1%positive sample_group = Ok (tt, g', []) /\
  sll false (jobs g') [1%positive].
Proof.
  destruct (BPending_refines (OpSet 1%positive) _ _ _ _ sample_group_rep eq_refl)
    as (g' & Hg & [Hl _] & _); [intros; discriminate|].
  exists g'; split; [exact Hg | exact Hl].
Defined.
