(* ===== verification/ChunkBuffer.v ===== *)
(** The packet queue in a circular block array of structure/ChunkBuffer2.h: its operations
    with every assertion and buffer access, and the theorem that it is a first-in
    first-out queue that never runs out of room before the promised number of packets. *)

From S2P Require Import Prelude IntCodec MiscArith.

(** Conversion to [int]. *)
Definition to_int (x : Z) : Z := let y := wrap 32 x in if y <=? INT_MAX then y else y - 2 ^ 32.

Lemma to_int_small x : is_int x -> to_int x = x.
Proof.
  unfold is_int, INT_MIN, to_int, wrap, INT_MAX; change (2 ^ 32) with 4294967296; intros Hx.
  destruct (Z.leb_spec (x mod 4294967296) 2147483647); lia_div.
Qed.

(** [sizeof(struct ChunkBuffer2_block)] *)
Definition sizeof_block : Z := 4.

(** The array is the bytes it occupies; pointers into it are byte offsets. *)
Record ChunkBuffer2 := mk_cb {
  cb_buffer : list Z; cb_size : Z; cb_wrap : Z; cb_start : Z; cb_used : Z; cb_mtu : Z;
  input_dest : option Z; input_avail : Z; output_dest : option Z; output_avail : Z }.
#[export] Instance cb_eta : Eta ChunkBuffer2 := fun b =>
  mk_cb (cb_buffer b) (cb_size b) (cb_wrap b) (cb_start b) (cb_used b) (cb_mtu b)
    (input_dest b) (input_avail b) (output_dest b) (output_avail b).

Section chunkbuffer.
Context `{Arch}.

Definition cbprog := prog ChunkBuffer2 Empty_set.

(** [buffer[i].len] *)
Definition block_len (i : Z) : cbprog Z :=
  m ← pread cb_buffer;
  d ← plift (mem_read m (sizeof_block * i) 4);
  mret (to_int (host_val d)).
Definition set_block_len (i len : Z) : cbprog unit :=
  m ← pread cb_buffer;
  m ← plift (mem_write m (sizeof_block * i) (host_bytes 4 len));
  pmod (fun b => b <| cb_buffer := m |>).
(** [(uint8_t * )&buffer[i]] *)
Definition block_ptr (i : Z) : option Z := Some (sizeof_block * i).

Definition ChunkBuffer2_end (b : ChunkBuffer2) : Z :=
  if cb_wrap b - cb_start b <=? cb_used b
  then cb_used b - (cb_wrap b - cb_start b) else cb_start b + cb_used b.

Definition assert_buffer : cbprog unit :=
  b ← pget;
  passert (0 <? cb_size b);;
  passert (0 <? cb_wrap b);;
  passert (cb_wrap b <=? cb_size b);;
  passert (0 <=? cb_start b);;
  passert (cb_start b <? cb_wrap b);;
  passert (0 <=? cb_used b);;
  passert (cb_used b <=? cb_wrap b);;
  passert ((cb_wrap b =? cb_size b) || (cb_wrap b - cb_start b <=? cb_used b));;
  passert (0 <=? cb_mtu b).

Definition opt_eqb (x y : option Z) : bool := bool_decide (x = y).

Definition free_blocks (b : ChunkBuffer2) : Z :=
  let fin := ChunkBuffer2_end b in
  if cb_wrap b - cb_start b <=? cb_used b then cb_start b - fin else cb_size b - fin.

(** The checks of the input and of the output in [_ChunkBuffer2_assert_io]. *)
Definition assert_io_input : cbprog unit :=
  b ← pget;
  let fin := ChunkBuffer2_end b in
  if cb_size b - fin - 1 <? cb_mtu b then
    passert (opt_eqb (input_dest b) None);;
    passert (input_avail b =? -1)
  else
    let free := free_blocks b in
    if 0 <? free then
      passert (opt_eqb (input_dest b) (block_ptr (fin + 1)));;
      passert (to_size (input_avail b) =? to_size ((free - 1) * sizeof_block))
    else
      passert (opt_eqb (input_dest b) None);;
      passert (input_avail b =? -1).

Definition assert_io_output : cbprog unit :=
  b ← pget;
  if 0 <? cb_used b then
    datalen ← block_len (cb_start b);
    passert (0 <=? datalen);;
    let blocklen := bdivide_up datalen sizeof_block in
    passert (blocklen <=? cb_used b - 1);;
    passert (blocklen <=? cb_wrap b - cb_start b - 1);;
    passert (opt_eqb (output_dest b) (block_ptr (cb_start b + 1)));;
    passert (output_avail b =? datalen)
  else
    passert (opt_eqb (output_dest b) None);;
    passert (output_avail b =? -1).

Definition assert_io : cbprog unit := assert_io_input;; assert_io_output.

Definition update_input : cbprog unit :=
  b ← pget;
  let fin := ChunkBuffer2_end b in
  if cb_size b - fin - 1 <? cb_mtu b then
    pmod (fun b => b <| input_dest := None |> <| input_avail := -1 |>)
  else
    let free := free_blocks b in
    if 0 <? free then
      pmod (fun b => b <| input_dest := block_ptr (fin + 1) |>
                       <| input_avail := to_int (to_size ((free - 1) * sizeof_block)) |>)
    else pmod (fun b => b <| input_dest := None |> <| input_avail := -1 |>).

Definition update_output : cbprog unit :=
  b ← pget;
  if 0 <? cb_used b then
    datalen ← block_len (cb_start b);
    passert (0 <=? datalen);;
    let blocklen := bdivide_up datalen sizeof_block in
    passert (blocklen <=? cb_used b - 1);;
    passert (blocklen <=? cb_wrap b - cb_start b - 1);;
    pmod (fun b => b <| output_dest := block_ptr (cb_start b + 1) |> <| output_avail := datalen |>)
  else pmod (fun b => b <| output_dest := None |> <| output_avail := -1 |>).

(** [num] is at least 0; the result is the number of blocks, or -1. *)
Definition ChunkBuffer2_calc_blocks (chunk_len num : Z) : Z :=
  let chunk_data_blocks := bdivide_up chunk_len sizeof_block in
  if INT_MAX - 1 <? chunk_data_blocks then -1 else
  let chunk_blocks := 1 + chunk_data_blocks in
  if INT_MAX - 1 <? num then -1 else
  let num_chunks := num + 1 in
  if INT_MAX / num_chunks <? chunk_blocks then -1 else
  chunk_blocks * num_chunks.

Definition ChunkBuffer2_Init (buffer : list Z) (blocks mtu : Z) : cbprog unit :=
  passert (0 <? blocks);;
  passert (0 <=? mtu);;
  pmod (fun b => b <| cb_buffer := buffer |> <| cb_size := blocks |> <| cb_wrap := blocks |>
                   <| cb_start := 0 |> <| cb_used := 0 |>
                   <| cb_mtu := bdivide_up mtu sizeof_block |>);;
  assert_buffer;;
  update_input;;
  update_output;;
  assert_io.

(** The update of [used], and of [wrap] when the largest packet no longer fits. *)
Definition submit_used (fin blocklen : Z) : cbprog unit :=
  pmod (fun b => b <| cb_used ::= Z.add (1 + blocklen) |>);;
  b ← pget;
  if (cb_used b <=? cb_wrap b - cb_start b)
     && (cb_size b - (fin + 1 + blocklen) - 1 <? cb_mtu b)
  then pmod (fun b => b <| cb_wrap := fin + 1 + blocklen |>) else pskip.

Definition ChunkBuffer2_SubmitPacket (len : Z) : cbprog unit :=
  b ← pget;
  passert (negb (opt_eqb (input_dest b) None));;
  passert (0 <=? len);;
  passert (len <=? input_avail b);;
  assert_buffer;;
  assert_io;;
  let fin := ChunkBuffer2_end b in
  let blocklen := bdivide_up len sizeof_block in
  passert (blocklen <=? cb_size b - fin - 1);;
  passert ((cb_used b <? cb_wrap b - cb_start b) || (blocklen <=? cb_start b - fin - 1));;
  set_block_len fin len;;
  submit_used fin blocklen;;
  assert_buffer;;
  update_input;;
  b ← pget;
  (if cb_used b =? 1 + blocklen then update_output else pskip);;
  assert_io.

(** The update of [start] and [used], and of [wrap] when [start] reaches it. *)
Definition consume_used (blocklen : Z) : cbprog unit :=
  pmod (fun b => b <| cb_start ::= Z.add (1 + blocklen) |>
                   <| cb_used ::= Z.add (- (1 + blocklen)) |>);;
  b ← pget;
  if cb_start b =? cb_wrap b
  then pmod (fun b => b <| cb_start := 0 |> <| cb_wrap := cb_size b |>) else pskip.

Definition ChunkBuffer2_ConsumePacket : cbprog unit :=
  b ← pget;
  passert (negb (opt_eqb (output_dest b) None));;
  assert_buffer;;
  assert_io;;
  passert (1 <=? cb_wrap b - cb_start b);;
  passert (1 <=? cb_used b);;
  datalen ← block_len (cb_start b);
  let blocklen := bdivide_up datalen sizeof_block in
  passert (blocklen <=? cb_wrap b - cb_start b - 1);;
  passert (blocklen <=? cb_used b - 1);;
  let data_wrapped := cb_wrap b - cb_start b <=? cb_used b in
  consume_used blocklen;;
  assert_buffer;;
  (if data_wrapped then update_input else pskip);;
  update_output;;
  assert_io.
End chunkbuffer.

(** * The queue *)

(** The number of blocks a packet occupies, with its header. *)
Definition packet_blocks (p : list Z) : Z := 1 + bdivide_up (Zlen p) sizeof_block.

(** The packets [q] lie one after another from block [pos] to block [fin], each with its
    length in its first block; every one of them starts at block [lim] or before. *)
Fixpoint chain (m : list Z) (lim pos : Z) (q : list (list Z)) (fin : Z) : Prop :=
  match q with
  | [] => pos = fin
  | p :: q =>
    pos <= lim /\ slice (4 * pos) 4 m = host_bytes 4 (Zlen p) /\
    slice (4 * (pos + 1)) (Zlen p) m = p /\ chain m lim (pos + packet_blocks p) q fin
  end.

Section proofs.
Context `{Arch}.
Implicit Types (m : list Z) (q : list (list Z)).

Lemma packet_blocks_bound p : 1 <= packet_blocks p /\ Zlen p <= 4 * (packet_blocks p - 1).
Proof.
  pose proof (Zlen_nonneg p); unfold packet_blocks, sizeof_block.
  rewrite bdivide_up_spec by lia; lia_div.
Qed.
Lemma packet_blocks_le p n : 0 <= n -> Zlen p <= 4 * n -> packet_blocks p <= 1 + n.
Proof. intros; unfold packet_blocks, sizeof_block; rewrite bdivide_up_spec by lia; lia_div. Qed.

Lemma chain_le m lim pos q fin : chain m lim pos q fin -> pos <= fin.
Proof.
  revert pos; induction q as [|p q IH]; cbn; [lia|]; intros pos (_ & _ & _ & Hc).
  apply IH in Hc; pose proof (packet_blocks_bound p); lia.
Qed.

Lemma chain_app m lim pos q1 q2 fin : chain m lim pos (q1 ++ q2) fin <->
  exists mid, chain m lim pos q1 mid /\ chain m lim mid q2 fin.
Proof.
  revert pos; induction q1 as [|p q1 IH]; intros pos; cbn; [naive_solver|].
  rewrite IH; naive_solver.
Qed.

Lemma slice_within m m' a n o k : slice a n m' = slice a n m -> 0 <= a -> a <= o -> 0 <= k ->
  o + k <= a + n -> slice o k m' = slice o k m.
Proof.
  intros Hs ? ? ? ?; replace o with (a + (o - a)) by lia.
  rewrite <- !(slice_slice a n) by lia; rewrite Hs; done.
Qed.

(** A chain only depends on the blocks it covers. *)
Lemma chain_frame m m' lim pos q fin : 0 <= pos ->
  slice (4 * pos) (4 * (fin - pos)) m' = slice (4 * pos) (4 * (fin - pos)) m ->
  chain m lim pos q fin -> chain m' lim pos q fin.
Proof.
  revert pos; induction q as [|p q IH]; intros pos Hp Hs; [done|]; cbn.
  intros (? & Hl & Hd & Hc); pose proof (chain_le _ _ _ _ _ Hc); pose proof (Zlen_nonneg p).
  pose proof (packet_blocks_bound p); split_and!; [done | | |].
  - rewrite <- Hl; eapply slice_within; [exact Hs | lia..].
  - rewrite <- Hd at 2; eapply slice_within; [exact Hs | lia..].
  - apply IH; [lia | eapply slice_within; [exact Hs | lia..] | done].
Qed.

Lemma chain_blocks m lim pos q fin mx : chain m lim pos q fin ->
  Forall (fun p => packet_blocks p <= mx) q -> fin - pos <= Zlen q * mx.
Proof.
  revert pos; induction q as [|p q IH]; intros pos; cbn [chain]; [zlen_nil; lia|].
  intros (_ & _ & _ & Hc) [Hp Hq]%Forall_cons_1; rewrite Zlen_cons; apply IH in Hc; [lia | done].
Qed.

(** The last block a packet may start at for the largest packet to fit. *)
Definition limit (b : ChunkBuffer2) : Z := cb_size b - cb_mtu b - 1.

(** The input fields the code maintains, and the output fields. *)
Definition in_state (b : ChunkBuffer2) : option Z * Z :=
  if 0 <? free_blocks b
  then (block_ptr (ChunkBuffer2_end b + 1), (free_blocks b - 1) * sizeof_block) else (None, -1).
Definition out_state (b : ChunkBuffer2) (q : list (list Z)) : option Z * Z :=
  match q with p :: _ => (block_ptr (cb_start b + 1), Zlen p) | [] => (None, -1) end.

Definition sizes_ok (b : ChunkBuffer2) : Prop :=
  0 <= cb_mtu b /\ cb_mtu b + 1 <= cb_size b /\ 4 * cb_size b <= INT_MAX /\
  Zlen (cb_buffer b) = 4 * cb_size b /\
  0 <= cb_start b < cb_wrap b /\ cb_wrap b <= cb_size b /\ 0 <= cb_used b.

(** The contents of the buffer: the packets before the wrap, then those after it. *)
Definition contents (b : ChunkBuffer2) (q : list (list Z)) : Prop :=
  let c := chain (cb_buffer b) (limit b) in
  if cb_wrap b - cb_start b <=? cb_used b then
    let fin := cb_used b - (cb_wrap b - cb_start b) in
    cb_size b - cb_wrap b - 1 < cb_mtu b /\ fin <= cb_start b /\
    exists p q1 q2, q = p :: q1 ++ q2 /\ c (cb_start b) (p :: q1) (cb_wrap b) /\ c 0 q2 fin
  else
    cb_wrap b = cb_size b /\ cb_start b + cb_used b <= limit b /\
    c (cb_start b) q (cb_start b + cb_used b).

Definition cb_rep (b : ChunkBuffer2) (q : list (list Z)) : Prop :=
  sizes_ok b /\ contents b q /\
  (input_dest b, input_avail b) = in_state b /\ (output_dest b, output_avail b) = out_state b q.

(** ** The checks and updates on states that satisfy the invariant *)

Lemma contents_used b q : sizes_ok b -> contents b q ->
  0 <= ChunkBuffer2_end b <= limit b /\ cb_used b <= cb_wrap b /\
  (cb_wrap b = cb_size b \/ cb_wrap b - cb_start b <= cb_used b) /\
  free_blocks b <= cb_size b /\
  match q with
  | [] => cb_used b = 0
  | p :: _ => packet_blocks p <= cb_used b /\ packet_blocks p <= cb_wrap b - cb_start b /\
      slice (4 * cb_start b) 4 (cb_buffer b) = host_bytes 4 (Zlen p)
  end.
Proof.
  unfold sizes_ok, contents, free_blocks, ChunkBuffer2_end.
  intros (? & ? & ? & ? & ? & ? & ?); destruct (Z.leb_spec (cb_wrap b - cb_start b) (cb_used b)).
  - intros (? & ? & p & q1 & q2 & -> & (? & ? & ? & Hc) & Hc2).
    apply chain_le in Hc, Hc2; split_and!; try done; lia.
  - intros (? & ? & Hc); destruct q as [|p q].
    + cbn in Hc; unfold limit in *; split_and!; lia.
    + destruct Hc as (? & ? & ? & Hc); apply chain_le in Hc; split_and!; try done;
        unfold limit in *; lia.
Qed.

Lemma assert_buffer_eq b q : sizes_ok b -> contents b q -> assert_buffer b = Ok (tt, b, []).
Proof.
  intros Hs Hc; destruct (contents_used b q Hs Hc) as (He & Hu & Hw & _).
  unfold sizes_ok in Hs; unfold assert_buffer; prog_simpl; decide_tests; done.
Qed.

Lemma block_len_eq b i (p : list Z) : 0 <= i -> i < cb_size b -> Zlen (cb_buffer b) = 4 * cb_size b ->
  Zlen p <= INT_MAX -> slice (4 * i) 4 (cb_buffer b) = host_bytes 4 (Zlen p) ->
  block_len i b = Ok (Zlen p, b, []).
Proof.
  unfold INT_MAX; intros ? ? ? ? Hs; unfold block_len, sizeof_block; prog_simpl.
  pose proof (Zlen_nonneg p); rewrite mem_read_ok, Hs by lia.
  rewrite host_val_bytes_id by (change (256 ^ Z.of_nat 4) with 4294967296; lia).
  rewrite to_int_small by (unfold is_int, INT_MIN, INT_MAX; lia); done.
Qed.

Lemma update_input_eq b q : sizes_ok b -> contents b q ->
  update_input b = Ok (tt, b <| input_dest := fst (in_state b) |>
                             <| input_avail := snd (in_state b) |>, []).
Proof.
  intros Hs Hc; destruct (contents_used b q Hs Hc) as (He & Hu & Hw & Hf & _).
  unfold sizes_ok, limit, INT_MAX in *; unfold update_input, in_state; prog_simpl.
  test_false (cb_size b - ChunkBuffer2_end b - 1 <? cb_mtu b); cbv iota.
  destruct (Z.ltb_spec 0 (free_blocks b)); [|done]; cbn [fst snd].
  unfold sizeof_block; rewrite to_size_small, to_int_small;
    [done | unfold is_int, INT_MIN, INT_MAX; lia |].
  pose proof size_max_bound; unfold is_size; lia.
Qed.

Lemma head_len b p q : sizes_ok b -> contents b (p :: q) ->
  block_len (cb_start b) b = Ok (Zlen p, b, []) /\
  1 <= packet_blocks p <= cb_used b /\ packet_blocks p <= cb_wrap b - cb_start b.
Proof.
  intros Hs Hc; destruct (contents_used b _ Hs Hc) as (He & Hu & Hw & Hf & Hp1 & Hp2 & Hp3).
  pose proof (packet_blocks_bound p); unfold sizes_ok, INT_MAX in Hs.
  split_and!; [apply block_len_eq; try done; unfold INT_MAX; lia | lia..].
Qed.

Lemma update_output_eq b q : sizes_ok b -> contents b q ->
  update_output b = Ok (tt, b <| output_dest := fst (out_state b q) |>
                              <| output_avail := snd (out_state b q) |>, []).
Proof.
  intros Hs Hc; pose proof (contents_used b _ Hs Hc) as (_ & _ & _ & _ & Hq).
  destruct q as [|p q]; cbn [out_state fst snd]; unfold update_output; prog_simpl.
  - rewrite Hq; done.
  - destruct (head_len b p q Hs Hc) as (Hl & ? & ?); test_true (0 <? cb_used b).
    pose proof (Zlen_nonneg p); unfold packet_blocks in *; rewrite Hl; decide_tests; done.
Qed.

Lemma opt_eqb_refl x : opt_eqb x x = true.
Proof. apply bool_decide_eq_true_2; done. Qed.

Lemma assert_io_input_eq b q : sizes_ok b -> contents b q ->
  (input_dest b, input_avail b) = in_state b -> assert_io_input b = Ok (tt, b, []).
Proof.
  intros Hs Hc Hi; pose proof (contents_used b _ Hs Hc) as (He & Hu & Hw & Hf & _).
  unfold assert_io_input, in_state, sizes_ok, limit in *; prog_simpl.
  test_false (cb_size b - ChunkBuffer2_end b - 1 <? cb_mtu b); cbv iota.
  destruct (0 <? free_blocks b); injection Hi as -> ->; rewrite opt_eqb_refl; cbv iota;
    rewrite Z.eqb_refl; done.
Qed.

Lemma assert_io_output_eq b q : sizes_ok b -> contents b q ->
  (output_dest b, output_avail b) = out_state b q -> assert_io_output b = Ok (tt, b, []).
Proof.
  intros Hs Hc Ho; pose proof (contents_used b _ Hs Hc) as (_ & _ & _ & _ & Hq).
  unfold assert_io_output; prog_simpl; destruct q as [|p q]; cbn [out_state] in Ho;
    injection Ho as Ho1 Ho2.
  - rewrite Hq, Ho1, Ho2; done.
  - destruct (head_len b p q Hs Hc) as (Hl & ? & ?); test_true (0 <? cb_used b).
    pose proof (Zlen_nonneg p); unfold packet_blocks in *; rewrite Hl, Ho1, Ho2, opt_eqb_refl.
    decide_tests; done.
Qed.

Lemma assert_io_eq b q : cb_rep b q -> assert_io b = Ok (tt, b, []).
Proof.
  intros (Hs & Hc & Hi & Ho); unfold assert_io; prog_simpl.
  rewrite (assert_io_input_eq b q), (assert_io_output_eq b q) by done; done.
Qed.

(** ** The operations *)

Ltac cb_fields := cbv beta iota delta [update cb_buffer cb_size cb_wrap cb_start cb_used cb_mtu
  input_dest input_avail output_dest output_avail] in *.

Lemma cb_Init_eq b buffer blocks mtu : 0 <= mtu -> bdivide_up mtu sizeof_block + 1 <= blocks ->
  4 * blocks <= INT_MAX -> Zlen buffer = 4 * blocks ->
  exists b', ChunkBuffer2_Init buffer blocks mtu b = Ok (tt, b', []) /\ cb_rep b' [] /\
    cb_mtu b' = bdivide_up mtu sizeof_block /\ cb_size b' = blocks.
Proof.
  intros Hm Hb Hi Hl; destruct b as [m sz w st us mt id ia od oa].
  assert (0 <= bdivide_up mtu sizeof_block).
  { unfold sizeof_block; rewrite bdivide_up_spec by lia; lia_div. }
  set (b1 := mk_cb buffer blocks blocks 0 0 (bdivide_up mtu sizeof_block) id ia od oa).
  assert (sizes_ok b1) as Hs by (unfold sizes_ok, b1; cb_fields; lia).
  assert (contents b1 []) as Hc.
  { unfold contents, limit, b1; cb_fields; test_false (blocks - 0 <=? 0); cbn; lia. }
  unfold ChunkBuffer2_Init; prog_simpl; test_true (0 <? blocks); test_true (0 <=? mtu).
  change (_ <| cb_mtu := _ |>) with b1; rewrite (assert_buffer_eq b1 []) by done.
  rewrite (update_input_eq b1 []) by done.
  rewrite (update_output_eq (b1 <| input_dest := _ |> <| input_avail := _ |>) []) by done.
  set (b2 := _ <| output_avail := _ |>); assert (cb_rep b2 []) as Hr.
  { split_and!; [exact Hs | exact Hc | symmetry; apply surjective_pairing | done]. }
  rewrite (assert_io_eq b2 []) by done; exists b2; done.
Qed.

(** [m'] agrees with [m] outside the free blocks of [b]. *)
Definition agree (b : ChunkBuffer2) (m' m : list Z) : Prop :=
  Zlen m' = Zlen m /\
  forall a n, 0 <= a -> 0 <= n -> a + n <= Zlen m ->
    a + n <= 4 * ChunkBuffer2_end b \/ 4 * (ChunkBuffer2_end b + free_blocks b) <= a ->
    slice a n m' = slice a n m.

Lemma agree_trans b m1 m2 m3 : agree b m1 m2 -> agree b m2 m3 -> agree b m1 m3.
Proof.
  intros [Hl Hs] [Hl' Hs']; split; [congruence|]; intros.
  rewrite Hs by (congruence || lia); apply Hs'; done.
Qed.

Lemma agree_write b m o d : 4 * ChunkBuffer2_end b <= o -> 0 <= o ->
  o + Zlen d <= 4 * (ChunkBuffer2_end b + free_blocks b) -> o + Zlen d <= Zlen m ->
  agree b (mem_set m o d) m.
Proof.
  intros; pose proof (Zlen_nonneg d); split; [apply Zlen_mem_set; lia|].
  intros a n ? ? ? [?|?]; [apply slice_mem_set_before; lia | apply slice_mem_set_after; lia].
Qed.

Lemma contents_agree b m' q : sizes_ok b -> contents b q -> agree b m' (cb_buffer b) ->
  contents (b <| cb_buffer := m' |>) q.
Proof.
  intros Hs Hc [Hl Ha]; destruct b as [m sz w st us mt id ia od oa].
  unfold contents, agree, limit, free_blocks, ChunkBuffer2_end, sizes_ok in *; cb_fields.
  destruct (Z.leb_spec (w - st) us).
  - destruct Hc as (? & ? & p & q1 & q2 & -> & H1 & H2); split_and!; [done..|].
    exists p, q1, q2; pose proof (chain_le _ _ _ _ _ H1); pose proof (chain_le _ _ _ _ _ H2).
    split_and!; [done | eapply chain_frame; [| | exact H1] | eapply chain_frame; [| | exact H2]];
      try lia; apply Ha; lia.
  - destruct Hc as (? & ? & Hc); split_and!; [done..|]; pose proof (chain_le _ _ _ _ _ Hc).
    eapply chain_frame; [lia | apply Ha; lia | done].
Qed.

(** One more packet in the free blocks, and the wrap that then is due. *)
Definition after_submit (b : ChunkBuffer2) (n : Z) : ChunkBuffer2 :=
  let fin := ChunkBuffer2_end b in
  b <| cb_used ::= Z.add n |>
    <| cb_wrap := if (n + cb_used b <=? cb_wrap b - cb_start b)
                     && (cb_size b - (fin + n) - 1 <? cb_mtu b) then fin + n else cb_wrap b |>.

Lemma submit_used_eq b k : submit_used (ChunkBuffer2_end b) k b =
  Ok (tt, after_submit b (1 + k), []).
Proof.
  unfold submit_used, after_submit; prog_simpl.
  replace (ChunkBuffer2_end b + 1 + k) with (ChunkBuffer2_end b + (1 + k)) by lia.
  destruct b; cb_fields.
  match goal with |- context [if ?t then _ else _] => destruct t; reflexivity end.
Qed.

Lemma contents_submit b q p : sizes_ok b -> contents b q ->
  packet_blocks p <= free_blocks b ->
  slice (4 * ChunkBuffer2_end b) 4 (cb_buffer b) = host_bytes 4 (Zlen p) ->
  slice (4 * (ChunkBuffer2_end b + 1)) (Zlen p) (cb_buffer b) = p ->
  sizes_ok (after_submit b (packet_blocks p)) /\
  contents (after_submit b (packet_blocks p)) (q ++ [p]).
Proof.
  intros Hs Hc Hp Hlen Hdata; pose proof (contents_used b q Hs Hc) as (He & Hu & Hw & _ & Hq).
  pose proof (packet_blocks_bound p); destruct b as [m sz w st us mt id ia od oa].
  unfold after_submit, contents, limit, free_blocks, sizes_ok in *; cb_fields.
  unfold ChunkBuffer2_end in *; cb_fields; destruct (Z.leb_spec (w - st) us).
  - destruct Hc as (? & ? & p1 & q1 & q2 & -> & Hx1 & Hx2); cbn [chain] in Hx1.
    test_false (packet_blocks p + us <=? w - st); cbn [andb]; cbv iota.
    test_true (w - st <=? packet_blocks p + us); cbv iota; split; [lia|].
    split_and!; [done | lia|]; exists p1, q1, (q2 ++ [p]); split_and!; [| done |].
    + rewrite <- app_comm_cons, app_assoc; done.
    + apply chain_app; eexists; split; [exact Hx2|]; cbn [chain]; split_and!; [lia | done | done | lia].
  - destruct Hc as (-> & ? & Hc); test_true (packet_blocks p + us <=? sz - st); cbn [andb].
    assert (chain m (sz - mt - 1) st (q ++ [p]) (st + us + packet_blocks p)) as Hc'.
    { apply chain_app; eexists; split; [exact Hc|]; cbn [chain]; split_and!; done || lia. }
    destruct (Z.ltb_spec (sz - (st + us + packet_blocks p) - 1) mt).
    + split; [lia|]; test_true (st + us + packet_blocks p - st <=? packet_blocks p + us).
      split_and!; [lia..|]; destruct (q ++ [p]) as [|p1 q1] eqn:E; [destruct q; done|].
      exists p1, q1, []; rewrite app_nil_r; split_and!; [done | done | cbn; lia].
    + split; [lia|]; test_false (sz - st <=? packet_blocks p + us).
      split_and!; [done | lia |]; replace (st + (packet_blocks p + us)) with (st + us + packet_blocks p) by lia.
      done.
Qed.

Lemma set_block_len_eq b i len : 0 <= i -> i < cb_size b -> Zlen (cb_buffer b) = 4 * cb_size b ->
  set_block_len i len b =
    Ok (tt, b <| cb_buffer := mem_set (cb_buffer b) (4 * i) (host_bytes 4 len) |>, []).
Proof.
  intros; unfold set_block_len, sizeof_block; prog_simpl.
  rewrite mem_write_ok by (rewrite ?Zlen_host_bytes; lia); done.
Qed.

Lemma rep_write b q d p : cb_rep b q -> input_dest b = Some d -> Zlen p <= input_avail b ->
  d = 4 * (ChunkBuffer2_end b + 1) /\ packet_blocks p <= free_blocks b /\
  agree b (mem_set (cb_buffer b) d p) (cb_buffer b) /\
  cb_rep (b <| cb_buffer := mem_set (cb_buffer b) d p |>) q.
Proof.
  intros (Hs & Hc & Hi & Ho) Hd Hp; pose proof (contents_used b q Hs Hc) as (He & _ & _ & Hf & _).
  pose proof (Zlen_nonneg p); unfold in_state, block_ptr, sizeof_block in Hi.
  destruct (Z.ltb_spec 0 (free_blocks b)); [|congruence]; rewrite Hd in Hi.
  injection Hi as Hd' Ha; rewrite Ha in Hp.
  assert (packet_blocks p <= free_blocks b) as Hb.
  { pose proof (packet_blocks_le p (free_blocks b - 1)); lia. }
  assert (ChunkBuffer2_end b + free_blocks b <= cb_size b) as Hfe.
  { unfold free_blocks, ChunkBuffer2_end, sizes_ok in *.
    destruct (Z.leb_spec (cb_wrap b - cb_start b) (cb_used b)); lia. }
  assert (agree b (mem_set (cb_buffer b) d p) (cb_buffer b)) as Hag.
  { unfold sizes_ok in Hs; apply agree_write; lia. }
  split; [done|]; split; [done|]; split; [done|]; refine (conj _ (conj _ (conj _ Ho))).
  - destruct Hag as [Hl _]; unfold sizes_ok in *; cb_fields; lia.
  - apply contents_agree; done.
  - change (in_state (b <| cb_buffer := _ |>)) with (in_state b).
    unfold in_state, block_ptr, sizeof_block; test_true (0 <? free_blocks b).
    cb_fields; rewrite Hd, Ha, Hd'; done.
Qed.

Lemma Submit_eq b q d p : cb_rep b q -> input_dest b = Some d -> Zlen p <= input_avail b ->
  exists b', ChunkBuffer2_SubmitPacket (Zlen p) (b <| cb_buffer := mem_set (cb_buffer b) d p |>) =
      Ok (tt, b', []) /\ cb_rep b' (q ++ [p]) /\
    cb_mtu b' = cb_mtu b /\ cb_size b' = cb_size b.
Proof.
  intros Hr Hd Hp; destruct (rep_write b q d p Hr Hd Hp) as (-> & Hb & Hag & Hr0).
  pose proof (Zlen_nonneg p); pose proof (packet_blocks_bound p).
  pose proof Hr as (Hs & Hc & Hi & Ho); pose proof (contents_used b q Hs Hc) as (He & Hu & Hw & Hf & _).
  set (m1 := mem_set (cb_buffer b) _ p) in *.
  set (m2 := mem_set m1 (4 * ChunkBuffer2_end b) (host_bytes 4 (Zlen p))).
  set (b0 := b <| cb_buffer := m1 |>) in *; set (b1 := b <| cb_buffer := m2 |>).
  assert (ChunkBuffer2_end b + free_blocks b <= cb_size b) as Hfe.
  { clear - Hs; unfold free_blocks, ChunkBuffer2_end, sizes_ok in *.
    destruct (Z.leb_spec (cb_wrap b - cb_start b) (cb_used b)); lia. }
  assert (Zlen m1 = 4 * cb_size b) as Hm1 by (destruct Hag as [-> _]; apply Hs).
  assert (agree b m2 (cb_buffer b)) as Hag2.
  { eapply agree_trans; [|exact Hag]; apply agree_write; rewrite ?Zlen_host_bytes; lia. }
  assert (sizes_ok b1 /\ contents b1 q) as [Hs1 Hc1].
  { split; [|apply contents_agree; done].
    destruct Hag2 as [Hl _]; unfold sizes_ok, b1 in *; cb_fields; lia. }
  destruct (contents_submit b1 q p Hs1 Hc1) as [Hs2 Hc2]; [done | | |].
  { apply (slice_mem_set_eq m1 (4 * ChunkBuffer2_end b) (host_bytes 4 (Zlen p)));
      rewrite ?Zlen_host_bytes; lia. }
  { transitivity (slice (4 * (ChunkBuffer2_end b + 1)) (Zlen p) m1).
    - apply slice_mem_set_after; rewrite ?Zlen_host_bytes; lia.
    - apply slice_mem_set_eq; unfold sizes_ok in Hs; lia. }
  unfold ChunkBuffer2_SubmitPacket; prog_simpl.
  assert (input_dest b0 = Some (4 * (ChunkBuffer2_end b + 1))) as -> by done.
  change (input_avail b0) with (input_avail b); test_true (0 <=? Zlen p); test_true (Zlen p <=? input_avail b).
  cbn [opt_eqb negb]; change (negb (opt_eqb _ None)) with true; cbv iota.
  pose proof Hr0 as (Hs0 & Hc0 & _); rewrite (assert_buffer_eq b0 q), (assert_io_eq b0 q) by done.
  change (ChunkBuffer2_end b0) with (ChunkBuffer2_end b).
  assert (bdivide_up (Zlen p) sizeof_block = packet_blocks p - 1) as -> by (unfold packet_blocks; lia).
  change (cb_size b0) with (cb_size b); change (cb_used b0) with (cb_used b);
    change (cb_wrap b0) with (cb_wrap b); change (cb_start b0) with (cb_start b).
  test_true (packet_blocks p - 1 <=? cb_size b - ChunkBuffer2_end b - 1); cbv iota.
  assert ((cb_used b <? cb_wrap b - cb_start b)
          || (packet_blocks p - 1 <=? cb_start b - ChunkBuffer2_end b - 1) = true) as ->.
  { unfold free_blocks in Hb; destruct (Z.leb_spec (cb_wrap b - cb_start b) (cb_used b)); lia. }
  rewrite set_block_len_eq by (unfold sizes_ok, limit in *; first [exact Hm1 | change (cb_size b0) with (cb_size b); lia]).
  change (b0 <| cb_buffer := _ |>) with b1.
  change (ChunkBuffer2_end b) with (ChunkBuffer2_end b1); rewrite submit_used_eq.
  replace (1 + (packet_blocks p - 1)) with (packet_blocks p) by lia.
  set (b2 := after_submit b1 (packet_blocks p)) in *.
  rewrite (assert_buffer_eq b2 (q ++ [p])), (update_input_eq b2 (q ++ [p])) by done.
  set (b3 := b2 <| input_dest := _ |> <| input_avail := _ |>).
  assert (sizes_ok b3 /\ contents b3 (q ++ [p]) /\ (input_dest b3, input_avail b3) = in_state b3)
    as (Hs3 & Hc3 & Hi3).
  { split; [exact Hs2 | split; [exact Hc2 | symmetry; apply surjective_pairing]]. }
  change (cb_used b3) with (packet_blocks p + cb_used b); destruct q as [|p1 q].
  - destruct (contents_used b [] Hs Hc) as (_ & _ & _ & _ & Hu0).
    rewrite Hu0, Z.add_0_r, Z.eqb_refl, (update_output_eq b3 ([] ++ [p])) by done.
    set (b4 := b3 <| output_dest := _ |> <| output_avail := _ |>).
    assert (cb_rep b4 ([] ++ [p])) as Hr4 by done.
    rewrite (assert_io_eq b4 ([] ++ [p])) by done; exists b4; done.
  - destruct (contents_used b _ Hs Hc) as (_ & _ & _ & _ & Hu0 & _).
    pose proof (packet_blocks_bound p1).
    test_false (packet_blocks p + cb_used b =? packet_blocks p).
    assert (cb_rep b3 ((p1 :: q) ++ [p])) as Hr3 by (refine (conj Hs3 (conj Hc3 (conj Hi3 Ho)))).
    rewrite (assert_io_eq b3 ((p1 :: q) ++ [p])) by done; exists b3; done.
Qed.

Definition after_consume (b : ChunkBuffer2) (n : Z) : ChunkBuffer2 :=
  b <| cb_start := if n + cb_start b =? cb_wrap b then 0 else n + cb_start b |>
    <| cb_used ::= Z.add (- n) |>
    <| cb_wrap := if n + cb_start b =? cb_wrap b then cb_size b else cb_wrap b |>.

Lemma consume_used_eq b k : consume_used k b = Ok (tt, after_consume b (1 + k), []).
Proof.
  unfold consume_used, after_consume; prog_simpl; destruct b; cb_fields.
  match goal with |- context [if ?t then _ else _] => destruct t; reflexivity end.
Qed.

Lemma contents_consume b p q : sizes_ok b -> contents b (p :: q) ->
  let b' := after_consume b (packet_blocks p) in
  sizes_ok b' /\ contents b' q /\ ChunkBuffer2_end b' = ChunkBuffer2_end b /\
  free_blocks b <= free_blocks b' /\
  (cb_used b < cb_wrap b - cb_start b -> free_blocks b' = free_blocks b).
Proof.
  intros Hs Hc; pose proof (contents_used b _ Hs Hc) as (He & Hu & Hw & _ & Hp1 & Hp2 & _).
  pose proof (packet_blocks_bound p); destruct b as [m sz w st us mt id ia od oa].
  cbv zeta; unfold after_consume, contents, limit, free_blocks, sizes_ok, ChunkBuffer2_end in *; cb_fields.
  destruct (Z.leb_spec (w - st) us).
  - destruct Hc as (? & ? & p1 & q1 & q2 & [= <- ->] & (? & _ & _ & Hx1) & Hx2).
    pose proof (chain_le _ _ _ _ _ Hx1); pose proof (chain_le _ _ _ _ _ Hx2).
    destruct (Z.eqb_spec (packet_blocks p + st) w) as [E|E].
    + destruct q1 as [|p1 q1].
      2: { destruct Hx1 as (_ & _ & _ & Hx1); apply chain_le in Hx1.
           pose proof (packet_blocks_bound p1); lia. }
      test_false (sz - 0 <=? - packet_blocks p + us); split_and!; try lia.
      cbn [app]; replace (0 + (- packet_blocks p + us)) with (us - (w - st)) by lia; done.
    + test_true (w - (packet_blocks p + st) <=? - packet_blocks p + us).
      destruct q1 as [|p1 q1]; [cbn in Hx1; lia|]; split_and!; try lia.
      replace (- packet_blocks p + us - (w - (packet_blocks p + st))) with (us - (w - st)) by lia.
      exists p1, q1, q2; rewrite Z.add_comm; done.
  - destruct Hc as (-> & ? & Hc); cbn [chain] in Hc; destruct Hc as (? & _ & _ & Hc).
    pose proof (chain_le _ _ _ _ _ Hc); test_false (packet_blocks p + st =? sz).
    test_false (sz - (packet_blocks p + st) <=? - packet_blocks p + us); split_and!; try lia.
    replace (packet_blocks p + st + (- packet_blocks p + us)) with (st + us) by lia.
    rewrite (Z.add_comm _ st); done.
Qed.

Lemma Consume_eq b p q : cb_rep b (p :: q) ->
  exists b', ChunkBuffer2_ConsumePacket b = Ok (tt, b', []) /\ cb_rep b' q /\
    cb_mtu b' = cb_mtu b /\ cb_size b' = cb_size b /\ cb_buffer b' = cb_buffer b /\
    (input_dest b <> None -> input_dest b' = input_dest b /\ input_avail b <= input_avail b').
Proof.
  intros Hr; pose proof Hr as (Hs & Hc & Hi & Ho).
  pose proof (contents_used b _ Hs Hc) as (He & Hu & Hw & Hf & _).
  destruct (head_len b p q Hs Hc) as (Hlen & Hp1 & Hp2).
  destruct (contents_consume b p q Hs Hc) as (Hs1 & Hc1 & Hend & Hfree & Hsame).
  unfold ChunkBuffer2_ConsumePacket; prog_simpl.
  cbn [out_state] in Ho; injection Ho as -> Ho2; change (negb (opt_eqb _ None)) with true; cbv iota.
  rewrite (assert_buffer_eq b (p :: q)), (assert_io_eq b (p :: q)) by done.
  test_true (1 <=? cb_wrap b - cb_start b); test_true (1 <=? cb_used b); cbv iota; rewrite Hlen.
  assert (bdivide_up (Zlen p) sizeof_block = packet_blocks p - 1) as -> by (unfold packet_blocks; lia).
  test_true (packet_blocks p - 1 <=? cb_wrap b - cb_start b - 1); test_true (packet_blocks p - 1 <=? cb_used b - 1).
  cbv iota; rewrite consume_used_eq; replace (1 + (packet_blocks p - 1)) with (packet_blocks p) by lia.
  set (b1 := after_consume b (packet_blocks p)) in *; rewrite (assert_buffer_eq b1 q) by done.
  assert (in_state b1 = (if cb_wrap b - cb_start b <=? cb_used b then in_state b1 else in_state b)) as Hin.
  { destruct (Z.leb_spec (cb_wrap b - cb_start b) (cb_used b)); [done|].
    unfold in_state; rewrite Hend, Hsame by done; done. }
  set (b2 := b1 <| input_dest := fst (in_state b1) |> <| input_avail := snd (in_state b1) |>).
  assert ((if cb_wrap b - cb_start b <=? cb_used b then update_input
           else pskip) b1 = Ok (tt, b2, [])) as Hup.
  { destruct (Z.leb_spec (cb_wrap b - cb_start b) (cb_used b)).
    - apply (update_input_eq b1 q); done.
    - unfold b2; rewrite Hin, <- Hi; done. }
  unfold pskip, mret, prog_ret in Hup; rewrite Hup.
  assert (sizes_ok b2 /\ contents b2 q) as [Hs2 Hc2] by done.
  rewrite (update_output_eq b2 q) by done.
  set (b3 := b2 <| output_dest := _ |> <| output_avail := _ |>).
  assert (cb_rep b3 q) as Hr3.
  { refine (conj Hs2 (conj Hc2 (conj _ _))); [exact (eq_sym (surjective_pairing (in_state b1)))|].
    symmetry; apply (surjective_pairing (out_state b2 q)). }
  rewrite (assert_io_eq b3 q) by done; exists b3; split_and!; try done.
  intros Hne; change (input_dest b3) with (fst (in_state b1)).
  change (input_avail b3) with (snd (in_state b1)).
  unfold in_state in *; rewrite Hend; destruct (Z.ltb_spec 0 (free_blocks b)); [|congruence].
  test_true (0 <? free_blocks b1); injection Hi as -> ->; unfold sizeof_block; split; [done | cbn; lia].
Qed.

(** ** The contract *)

Lemma rep_mem_write b q d p : cb_rep b q -> input_dest b = Some d -> Zlen p <= input_avail b ->
  mem_write (cb_buffer b) d p = Ok (mem_set (cb_buffer b) d p).
Proof.
  intros Hr Hd Hp; destruct (rep_write b q d p Hr Hd Hp) as (-> & Hb & _); destruct Hr as (Hs & Hc & _).
  pose proof (contents_used b q Hs Hc) as (He & Hu & Hw & Hf & _); pose proof (packet_blocks_bound p).
  unfold free_blocks, ChunkBuffer2_end, sizes_ok, limit in *.
  destruct (Z.leb_spec (cb_wrap b - cb_start b) (cb_used b)); apply mem_write_ok; lia.
Qed.

Lemma rep_head b p q : cb_rep b (p :: q) ->
  exists d, output_dest b = Some d /\ output_avail b = Zlen p /\
    mem_read (cb_buffer b) d (Zlen p) = Ok p.
Proof.
  intros Hr; pose proof Hr as (Hs & Hc & _ & Ho); injection Ho as Ho1 Ho2.
  eexists; split_and!; [exact Ho1 | done|].
  destruct (head_len b p q Hs Hc) as (_ & Hp1 & Hp2); pose proof (packet_blocks_bound p).
  pose proof (Zlen_nonneg p); unfold sizes_ok, sizeof_block in *; rewrite mem_read_ok by lia.
  f_equal; unfold contents in Hc; destruct (_ <=? _).
  - destruct Hc as (_ & _ & p1 & q1 & q2 & [= <- _] & (_ & _ & Hd & _) & _); done.
  - destruct Hc as (_ & _ & (_ & _ & Hd & _)); done.
Qed.

(** The input fields are set together. *)
Lemma rep_input b q : cb_rep b q -> 0 <= input_avail b -> exists d, input_dest b = Some d.
Proof.
  intros (_ & _ & Hi & _) Ha; unfold in_state in Hi; destruct (0 <? free_blocks b);
    injection Hi as -> Ha'; [eexists; done | lia].
Qed.
Lemma rep_output b q : cb_rep b q -> (output_avail b <? 0) = bool_decide (q = []).
Proof.
  intros (_ & _ & _ & Ho); destruct q as [|p q]; injection Ho as _ ->; [done|].
  pose proof (Zlen_nonneg p); rewrite bool_decide_eq_false_2 by done; lia.
Qed.

Lemma calc_blocks_eq mtu num blocks : 0 <= mtu -> 0 < num ->
  ChunkBuffer2_calc_blocks mtu num = blocks -> 0 <= blocks ->
  blocks = (bdivide_up mtu sizeof_block + 1) * (num + 1) /\ blocks <= INT_MAX.
Proof.
  unfold ChunkBuffer2_calc_blocks; intros ? ? Hb ?.
  assert (0 <= bdivide_up mtu sizeof_block).
  { unfold sizeof_block; rewrite bdivide_up_spec by lia; lia_div. }
  destruct (Z.ltb_spec (INT_MAX - 1) (bdivide_up mtu sizeof_block)); [lia|].
  destruct (Z.ltb_spec (INT_MAX - 1) num); [lia|].
  destruct (Z.ltb_spec (INT_MAX / (num + 1)) (1 + bdivide_up mtu sizeof_block)); [lia|].
  split; [lia|]; subst blocks.
  transitivity (INT_MAX / (num + 1) * (num + 1)); [apply Z.mul_le_mono_nonneg_r; lia|].
  rewrite Z.mul_comm; apply Z.mul_div_le; lia.
Qed.

(** C20: The buffer is a queue: initialised, it is empty; a packet written at the input pointer
    and submitted goes to the back, whatever its length within the space announced; the
    output fields always show the front packet, which consuming removes, leaving an input
    pointer in use where it was. No assertion of the file fails on the way. *)
Theorem ChunkBuffer2_refines_queue b :
  (forall buffer blocks mtu, 0 <= mtu -> bdivide_up mtu sizeof_block + 1 <= blocks ->
     4 * blocks <= INT_MAX -> Zlen buffer = 4 * blocks ->
     exists b', ChunkBuffer2_Init buffer blocks mtu b = Ok (tt, b', []) /\ cb_rep b' []) /\
  (forall q d p, cb_rep b q -> input_dest b = Some d -> Zlen p <= input_avail b ->
     exists b', mem_write (cb_buffer b) d p = Ok (mem_set (cb_buffer b) d p) /\
       ChunkBuffer2_SubmitPacket (Zlen p) (b <| cb_buffer := mem_set (cb_buffer b) d p |>) =
         Ok (tt, b', []) /\ cb_rep b' (q ++ [p])) /\
  (forall p q, cb_rep b (p :: q) ->
     (exists d, output_dest b = Some d /\ output_avail b = Zlen p /\
        mem_read (cb_buffer b) d (Zlen p) = Ok p) /\
     exists b', ChunkBuffer2_ConsumePacket b = Ok (tt, b', []) /\ cb_rep b' q /\
       (input_dest b <> None -> input_dest b' = input_dest b /\ input_avail b <= input_avail b')).
Proof.
  split; [|split].
  - intros buffer blocks mtu Hm Hb Hi Hl.
    destruct (cb_Init_eq b buffer blocks mtu Hm Hb Hi Hl) as (b' & H1 & H2 & _); eauto.
  - intros q d p Hr Hd Hp; destruct (Submit_eq b q d p Hr Hd Hp) as (b' & H1 & H2 & _).
    exists b'; split; [eapply rep_mem_write; done | done].
  - intros p q Hr; split; [apply (rep_head b p q Hr)|].
    destruct (Consume_eq b p q Hr) as (b' & H1 & H2 & _ & _ & _ & H3); eauto.
Qed.

Lemma rep_capacity b q mtu num :
  0 <= mtu -> 0 < num -> cb_rep b q -> cb_mtu b = bdivide_up mtu sizeof_block ->
  cb_size b = ChunkBuffer2_calc_blocks mtu num ->
  Forall (fun p => Zlen p <= mtu) q -> Zlen q < num ->
  input_dest b <> None /\ mtu <= input_avail b.
Proof.
  intros Hm Hn (Hs & Hc & Hi & _) Hbm Hbs Hq Hlt.
  pose proof (contents_used b q Hs Hc) as (He & Hu & Hw & Hf & _).
  unfold sizes_ok in Hs; assert (0 <= cb_size b) as Hsz by lia.
  destruct (calc_blocks_eq mtu num _ Hm Hn (eq_sym Hbs) Hsz) as [Hsize _].
  assert (mtu <= 4 * cb_mtu b) as Hmtu.
  { rewrite Hbm; unfold sizeof_block; rewrite bdivide_up_spec by lia; lia_div. }
  rewrite <- Hbm in Hsize.
  assert (Forall (fun p => packet_blocks p <= 1 + cb_mtu b) q) as Hq'.
  { eapply Forall_impl; [exact Hq|]; intros p Hp; cbv beta in Hp; apply packet_blocks_le; lia. }
  assert (1 + cb_mtu b <= free_blocks b) as Hfree.
  { unfold free_blocks, contents, limit, ChunkBuffer2_end in *.
    destruct (Z.leb_spec (cb_wrap b - cb_start b) (cb_used b)); [|lia].
    destruct Hc as (? & ? & p & q1 & q2 & -> & H1 & H2).
    rewrite app_comm_cons, Forall_app in Hq'; destruct Hq' as [Hq1 Hq2].
    apply (chain_blocks _ _ _ _ _ (1 + cb_mtu b)) in H1, H2; [|done..].
    rewrite app_comm_cons, Zlen_app in Hlt; nia. }
  unfold in_state, sizeof_block, block_ptr in Hi; destruct (Z.ltb_spec 0 (free_blocks b)); [|lia].
  injection Hi as -> ->; split; [done | lia].
Qed.

(** A buffer of the size [ChunkBuffer2_calc_blocks] gives for [num] packets of [mtu] bytes
    always has room for one more packet while it holds fewer than [num]. *)
Theorem ChunkBuffer2_capacity b q mtu num :
  0 <= mtu -> 0 < num -> cb_rep b q -> cb_mtu b = bdivide_up mtu sizeof_block ->
  cb_size b = ChunkBuffer2_calc_blocks mtu num ->
  Forall (fun p => Zlen p <= mtu) q -> Zlen q < num ->
  input_dest b <> None /\ mtu <= input_avail b.
Proof. apply rep_capacity. Qed.
End proofs.

Definition cb_blank : ChunkBuffer2 := mk_cb [] 0 0 0 0 0 None 0 None 0.

Lemma ChunkBuffer2_refines_queue_witness : exists b',
  @ChunkBuffer2_Init arm64 (replicate 24 0) 6 7 cb_blank = Ok (tt, b', []) /\ cb_rep b' [].
Proof.
  destruct (@ChunkBuffer2_refines_queue arm64 cb_blank) as [H _].
  apply (H (replicate 24 0) 6 7); vm_compute; first [reflexivity | discriminate].
Defined.

Lemma ChunkBuffer2_capacity_witness : exists b',
  @ChunkBuffer2_Init arm64 (replicate 24 0) 6 7 cb_blank = Ok (tt, b', []) /\ 7 <= input_avail b'.
Proof.
  destruct (@cb_Init_eq arm64 cb_blank (replicate 24 0) 6 7) as (b' & Hb & Hr & Hm & Hs);
    [vm_compute; first [reflexivity | discriminate]..|].
  exists b'; split; [exact Hb|].
  apply (ChunkBuffer2_capacity b' [] 7 1); [lia.. | exact Hr | exact Hm | exact Hs | constructor | reflexivity].
Defined.
