(* ===== verification/FlowIface.v ===== *)
(** The asynchronous interfaces of flow/: PacketPassInterface, PacketRecvInterface,
    StreamPassInterface and StreamRecvInterface. Each is a state machine between a user,
    which starts operations, and a provider, which finishes them; every call across it is
    made from a job of the queue. The theorems state the contract: what each side may rely
    on, provided the other keeps to its calls. *)

From S2P Require Import Prelude.

Inductive if_state := ST_NONE | ST_OPERATION_PENDING | ST_BUSY | ST_DONE_PENDING.
#[export] Instance if_state_eq_dec : EqDecision if_state.
Proof. solve_decision. Defined.
Definition st_is (x y : if_state) : bool := bool_decide (x = y).

(** What both sides have done, counted: operations started and completed as the user sees
    them, operations received and completed as the provider sees them. *)
Record history := mk_history { h_started : Z; h_received : Z; h_finished : Z; h_completed : Z }.
Definition h0 : history := mk_history 0 0 0 0.
Definition user_idle (h : history) : Prop := h_started h = h_completed h.
Definition provider_busy (h : history) : Prop := h_received h = h_finished h + 1.

Module PPI.
(** [PacketPassInterface]; the handlers of provider and user are the calls of the machine,
    the fields record whether they are set. A job is the flag that it is pending. *)
Record t := mk {
  mtu : Z; has_requestcancel : bool; has_done : bool;
  job_operation : bool; job_operation_data : option (list Z); job_operation_len : Z;
  job_requestcancel : bool; job_done : bool;
  state : if_state; cancel_requested : bool }.
#[global] Instance t_eta : Eta t := fun i =>
  mk (mtu i) (has_requestcancel i) (has_done i) (job_operation i) (job_operation_data i)
     (job_operation_len i) (job_requestcancel i) (job_done i) (state i) (cancel_requested i).

Inductive call := HandlerOperation (data : option (list Z)) (len : Z) | HandlerRequestCancel | HandlerDone.

Definition pp := prog t call.

Definition Init (m : Z) : pp unit :=
  passert (0 <=? m);;
  pmod (fun i => i <| mtu := m |> <| has_requestcancel := false |> <| has_done := false |>
                   <| job_operation := false |> <| job_requestcancel := false |>
                   <| job_done := false |> <| state := ST_NONE |>).
Definition EnableCancel : pp unit :=
  i ← pget;
  passert (negb (has_requestcancel i));;
  passert (negb (has_done i));;
  pmod (fun i => i <| has_requestcancel := true |>).
Definition Done : pp unit :=
  i ← pget;
  passert (st_is (state i) ST_BUSY);;
  pmod (fun i => i <| job_requestcancel := false |> <| job_done := true |>
                   <| state := ST_DONE_PENDING |>).
Definition GetMTU : pp Z := pread mtu.
Definition Sender_Init : pp unit :=
  i ← pget;
  passert (negb (has_done i));;
  pmod (fun i => i <| has_done := true |>).
Definition Sender_Send (data : option (list Z)) (data_len : Z) : pp unit :=
  i ← pget;
  passert (0 <=? data_len);;
  passert (data_len <=? mtu i);;
  passert (negb (0 <? data_len) || negb (bool_decide (data = None)));;
  passert (st_is (state i) ST_NONE);;
  passert (has_done i);;
  pmod (fun i => i <| job_operation_data := data |> <| job_operation_len := data_len |>
                   <| job_operation := true |>
                   <| state := ST_OPERATION_PENDING |> <| cancel_requested := false |>).
Definition Sender_RequestCancel : pp unit :=
  i ← pget;
  passert (st_is (state i) ST_OPERATION_PENDING || st_is (state i) ST_BUSY
           || st_is (state i) ST_DONE_PENDING);;
  passert (has_requestcancel i);;
  if cancel_requested i then pskip else
  pmod (fun i => i <| cancel_requested := true |>);;
  if st_is (state i) ST_OPERATION_PENDING then
    pmod (fun i => i <| job_operation := false |> <| job_done := true |>
                     <| state := ST_DONE_PENDING |>)
  else if st_is (state i) ST_BUSY then pmod (fun i => i <| job_requestcancel := true |>)
  else pskip.
Definition HasCancel : pp bool := pread has_requestcancel.

(** The job handlers; the queue has cleared the job before it calls them. *)
Definition run_operation : pp unit :=
  pmod (fun i => i <| job_operation := false |>);;
  i ← pget;
  passert (st_is (state i) ST_OPERATION_PENDING);;
  pmod (fun i => i <| state := ST_BUSY |>);;
  pcall (HandlerOperation (job_operation_data i) (job_operation_len i)).
Definition run_requestcancel : pp unit :=
  pmod (fun i => i <| job_requestcancel := false |>);;
  i ← pget;
  passert (st_is (state i) ST_BUSY);;
  passert (cancel_requested i);;
  passert (has_requestcancel i);;
  pcall HandlerRequestCancel.
Definition run_done : pp unit :=
  pmod (fun i => i <| job_done := false |>);;
  i ← pget;
  passert (st_is (state i) ST_DONE_PENDING);;
  pmod (fun i => i <| state := ST_NONE |>);;
  pcall HandlerDone.

Lemma ppi_Init_eq i m : 0 <= m ->
  Init m i = Ok (tt, mk m false false false (job_operation_data i) (job_operation_len i) false false
                   ST_NONE (cancel_requested i), []).
Proof. intros; unfold Init; prog_simpl; test_true (0 <=? m); done. Qed.
Lemma EnableCancel_eq i : has_requestcancel i = false -> has_done i = false ->
  EnableCancel i = Ok (tt, i <| has_requestcancel := true |>, []).
Proof. intros H1 H2; unfold EnableCancel; prog_simpl; rewrite H1, H2; done. Qed.
Lemma ppi_Sender_Init_eq i : has_done i = false ->
  Sender_Init i = Ok (tt, i <| has_done := true |>, []).
Proof. intros H1; unfold Sender_Init; prog_simpl; rewrite H1; done. Qed.

(** ** The contract *)

(** What can happen at the interface. The user sends only when its last operation has
    completed and cancels only an operation under way; the provider completes only an
    operation it received; the queue runs only pending jobs. *)
Inductive event :=
| ESend (data : list Z) | ERequestCancel | EDone | EOperation | ECancel | ECompleted.

Definition enabled (e : event) (i : t) (h : history) : Prop :=
  match e with
  | ESend data => user_idle h /\ Zlen data <= mtu i
  | ERequestCancel => ~ user_idle h /\ has_requestcancel i = true
  | EDone => provider_busy h
  | EOperation => job_operation i = true
  | ECancel => job_requestcancel i = true
  | ECompleted => job_done i = true
  end.
Definition handle (e : event) : pp unit :=
  match e with
  | ESend data => Sender_Send (Some data) (Zlen data)
  | ERequestCancel => Sender_RequestCancel
  | EDone => Done
  | EOperation => run_operation
  | ECancel => run_requestcancel
  | ECompleted => run_done
  end.
Definition count (e : event) (h : history) : history :=
  match e with
  | ESend _ => mk_history (h_started h + 1) (h_received h) (h_finished h) (h_completed h)
  | EOperation => mk_history (h_started h) (h_received h + 1) (h_finished h) (h_completed h)
  | EDone => mk_history (h_started h) (h_received h) (h_finished h + 1) (h_completed h)
  | ECompleted => mk_history (h_started h) (h_received h) (h_finished h) (h_completed h + 1)
  | ERequestCancel | ECancel => h
  end.

Inductive step : t * history -> t * history -> Prop :=
| step_intro e i h i' calls : enabled e i h -> handle e i = Ok (tt, i', calls) ->
    step (i, h) (i', count e h).

(** An interface set up by both sides, before the first operation. *)
Definition initial (i : t) : Prop :=
  0 <= mtu i /\ has_done i = true /\ state i = ST_NONE /\
  job_operation i = false /\ job_requestcancel i = false /\ job_done i = false.

Definition inv (i : t) (h : history) : Prop :=
  has_done i = true /\ (cancel_requested i = true -> ~ user_idle h -> has_requestcancel i = true) /\
  match state i with
  | ST_NONE => user_idle h /\ h_received h = h_finished h /\
      job_operation i = false /\ job_requestcancel i = false /\ job_done i = false
  | ST_OPERATION_PENDING => h_started h = h_completed h + 1 /\ h_received h = h_finished h /\
      job_operation i = true /\ job_requestcancel i = false /\ job_done i = false /\
      exists d, job_operation_data i = Some d /\ job_operation_len i = Zlen d /\ Zlen d <= mtu i
  | ST_BUSY => h_started h = h_completed h + 1 /\ provider_busy h /\
      job_operation i = false /\ (job_requestcancel i = true -> cancel_requested i = true) /\
      job_done i = false
  | ST_DONE_PENDING => h_started h = h_completed h + 1 /\ h_received h = h_finished h /\
      job_operation i = false /\ job_requestcancel i = false /\ job_done i = true
  end.

(** The handlers an event calls. *)
Definition calls_of (e : event) (i : t) : list call :=
  match e with
  | EOperation => [HandlerOperation (job_operation_data i) (job_operation_len i)]
  | ECancel => [HandlerRequestCancel]
  | ECompleted => [HandlerDone]
  | _ => []
  end.

Lemma ppi_inv_step e i h : inv i h -> enabled e i h ->
  exists i', handle e i = Ok (tt, i', calls_of e i) /\ inv i' (count e h) /\
    mtu i' = mtu i /\ has_requestcancel i' = has_requestcancel i.
Proof.
  destruct i as [m hc hd jo jod jol jc jd st cr], h as [a b c d].
  unfold inv, enabled, user_idle, provider_busy; intros (Hd & Hcr & Hs) He.
  assert (forall s, st_is s s = true) as Hst by (intros; apply bool_decide_eq_true_2; done).
  destruct e, st; cbn in *; destruct_and?; subst; try done; try lia;
    unfold Sender_Send, Sender_RequestCancel, Done, run_operation, run_requestcancel, run_done;
    prog_simpl; cbv beta iota delta [update mtu has_requestcancel has_done job_operation
      job_operation_data job_operation_len job_requestcancel job_done state cancel_requested].
  all: try (pose proof (Zlen_nonneg data); decide_tests;
    rewrite bool_decide_eq_false_2, orb_true_r by done).
  all: repeat match goal with
    | |- context [st_is ?x ?y] => let v := eval vm_compute in (st_is x y) in change (st_is x y) with v
    end; cbn [orb negb].
  all: try destruct cr; rewrite ?Hcr by (done || lia).
  all: try match goal with H : true = true -> false = true |- _ => discriminate (H eq_refl) end.
  all: eexists; split; [done|]; cbn; split_and!; try done; try lia; eauto.
Qed.

(** What a pending job says of the state. *)
Lemma inv_operation i h : inv i h -> job_operation i = true ->
  exists d, job_operation_data i = Some d /\ job_operation_len i = Zlen d /\ Zlen d <= mtu i /\
    h_received h = h_finished h /\ h_started h = h_completed h + 1.
Proof. intros (_ & _ & Hs) Hj; destruct (state i); destruct_and?; try congruence; naive_solver. Qed.
Lemma inv_cancel i h : inv i h -> job_requestcancel i = true ->
  provider_busy h /\ has_requestcancel i = true.
Proof.
  intros (_ & Hc & Hs) Hj; unfold user_idle in Hc; destruct (state i); destruct_and?; try congruence.
  split; [done | apply Hc; [auto | lia]].
Qed.
Lemma ppi_inv_completed i h : inv i h -> job_done i = true ->
  h_started h = h_completed h + 1 /\ h_received h = h_finished h.
Proof. intros (_ & _ & Hs) Hj; destruct (state i); destruct_and?; try congruence; auto. Qed.
Lemma done_not_pending i h : inv i h -> job_done i = true -> job_operation i = false.
Proof. intros (_ & _ & Hs) Hj; destruct (state i); destruct_and?; congruence. Qed.
Lemma ppi_inv_counts i h : inv i h ->
  (h_started h = h_completed h \/ h_started h = h_completed h + 1) /\
  (h_received h = h_finished h \/ provider_busy h) /\
  (provider_busy h -> h_started h = h_completed h + 1).
Proof.
  unfold provider_busy; intros (_ & _ & Hs); unfold user_idle, provider_busy in Hs.
  destruct (state i); destruct_and?; split_and!; auto; lia.
Qed.

Lemma ppi_send_data d n i i' calls : Sender_Send d n i = Ok (tt, i', calls) ->
  job_operation_data i' = d /\ job_operation_len i' = n.
Proof.
  unfold Sender_Send; prog_simpl.
  repeat match goal with |- context [if ?b then _ else _] => destruct b; cbv beta iota end;
    try discriminate; intros [= <-]; done.
Qed.
Lemma ppi_send_pending d n i i' calls : Sender_Send d n i = Ok (tt, i', calls) ->
  job_operation i' = true.
Proof.
  unfold Sender_Send; prog_simpl.
  repeat match goal with |- context [if ?b then _ else _] => destruct b; cbv beta iota end;
    try discriminate; intros [= <-]; done.
Qed.
(** Apart from a send, only running the job changes whether an operation waits for it. *)
Lemma ppi_not_pending e i i' calls : handle e i = Ok (tt, i', calls) ->
  (forall d, e <> ESend d) -> e <> ERequestCancel ->
  job_operation i' = match e with EOperation => false | _ => job_operation i end.
Proof.
  destruct i as [m hc hd jo jod jol jc jd st cr]; intros Hh Hn Hc; revert Hh.
  destruct e as [d| | | | |]; [destruct (Hn d); done | done | ..];
    cbn [handle]; unfold Done, run_operation, run_requestcancel, run_done;
    prog_simpl; cbv beta iota delta [update];
    repeat match goal with |- context [if ?b then _ else _] => destruct b; cbv beta iota end;
    try discriminate; intros [= <-]; reflexivity.
Qed.
Lemma ppi_op_kept e i i' calls : handle e i = Ok (tt, i', calls) -> (forall d, e <> ESend d) ->
  job_operation i' = true -> job_operation i = true /\
  job_operation_data i' = job_operation_data i /\ job_operation_len i' = job_operation_len i.
Proof.
  destruct i as [m hc hd jo jod jol jc jd st cr]; intros Hh Hn; revert Hh.
  destruct e as [d| | | | |]; [destruct (Hn d); done|..];
    cbn [handle]; unfold Sender_RequestCancel, Done, run_operation, run_requestcancel, run_done;
    prog_simpl; cbv beta iota delta [update];
    repeat match goal with |- context [if ?b then _ else _] => destruct b; cbv beta iota end;
    try discriminate; intros [= <-]; cbn; auto; discriminate.
Qed.

(** An interface that its provider has set up and that has no user yet. *)
Definition fresh (u : t) : Prop :=
  0 <= mtu u /\ has_done u = false /\ state u = ST_NONE /\
  job_operation u = false /\ job_requestcancel u = false /\ job_done u = false.

Lemma fresh_user u : fresh u -> exists u', Sender_Init u = Ok (tt, u', []) /\ inv u' h0 /\
  mtu u' = mtu u /\ job_operation u' = false /\ has_requestcancel u' = has_requestcancel u.
Proof.
  intros (Hm & Hd & Hs & Hjo & Hjc & Hjd); exists (u <| has_done := true |>).
  split; [apply ppi_Sender_Init_eq; done|]; split; [|done]; split; [done|]; split.
  - intros _ Hc; destruct Hc; done.
  - change (state (u <| has_done := true |>)) with (state u); rewrite Hs; split_and!; done.
Qed.

Lemma inv_initial i : initial i -> cancel_requested i = false -> inv i h0.
Proof. intros (_ & ? & Hs & ? & ? & ?) Hc; unfold inv, user_idle; rewrite Hs; cbn; naive_solver congruence. Qed.

Lemma ppi_inv_reachable i0 i h : initial i0 -> cancel_requested i0 = false ->
  star step (i0, h0) (i, h) -> inv i h.
Proof.
  intros Hi Hc Hs; pose proof (inv_initial i0 Hi Hc) as Hinv.
  refine (star_invariant step (fun ih => inv (fst ih) (snd ih)) _ (i0, h0) (i, h) Hs Hinv).
  intros [a ha] [b hb] Ha Hab; inversion Hab; subst; cbn in *.
  destruct (ppi_inv_step e a ha) as (b' & Hb & Hinv' & _); [done..|]; congruence.
Qed.

(** C33: Whatever the two sides do within the contract and whenever the queue runs the jobs, no
    assertion of the interface fails. An operation under way always waits for a pending job
    or for the provider, so it cannot be lost; the provider is busy with one operation at a
    time, and is asked to cancel only while it is busy and the user has asked. *)
Theorem PacketPassInterface_contract i0 i h : initial i0 -> cancel_requested i0 = false ->
  star step (i0, h0) (i, h) ->
  (forall e, enabled e i h -> exists i' calls, handle e i = Ok (tt, i', calls) /\
     (forall x, x ∈ calls -> x = HandlerRequestCancel -> provider_busy h /\ cancel_requested i = true)) /\
  (user_idle h \/ h_started h = h_completed h + 1 /\
     (job_operation i = true \/ job_done i = true \/ provider_busy h)) /\
  (h_received h = h_finished h \/ provider_busy h).
Proof.
  intros Hi Hc Hs; pose proof (ppi_inv_reachable i0 i h Hi Hc Hs) as Hinv; split_and!.
  - intros e He; destruct (ppi_inv_step e i h Hinv He) as (i' & Hh & _).
    exists i', (calls_of e i); split; [done|]; intros x Hx ->; destruct Hinv as (_ & _ & Hst).
    assert (e = ECancel) as -> by (destruct e; cbn in Hx; set_solver); cbn in He.
    destruct (state i); destruct_and?; try congruence; auto.
  - destruct Hinv as (_ & _ & Hst); destruct (state i); destruct_and?; auto 6.
  - destruct Hinv as (_ & _ & Hst); destruct (state i); destruct_and?; auto.
Qed.

Definition sample : t := mk 1500 true true false None 0 false false ST_NONE false.

Lemma PacketPassInterface_contract_witness : exists i' calls,
  Sender_Send (Some [1; 2]) 2 sample = Ok (tt, i', calls).
Proof.
  destruct (PacketPassInterface_contract sample sample h0) as (He & _);
    [split_and!; done | done | constructor |].
  destruct (He (ESend [1; 2])) as (i' & calls & Hc & _);
    [split; [reflexivity | vm_compute; discriminate] | exists i', calls; exact Hc].
Defined.
End PPI.

(** Runs a handler on a state with known fields. *)
Ltac run_iface :=
  prog_simpl;
  repeat match goal with
  | |- context [st_is ?x ?y] => let v := eval vm_compute in (st_is x y) in change (st_is x y) with v
  end; cbn [orb negb].

Module PRI.
(** [PacketRecvInterface]: the buffer the user offers is a pointer the model does not look
    at; what the provider put in it is reported by its length. *)
Record t := mk {
  mtu : Z; has_done : bool; job_operation : bool; job_operation_data : option Z;
  job_done : bool; job_done_len : Z; state : if_state }.
#[global] Instance t_eta : Eta t := fun i =>
  mk (mtu i) (has_done i) (job_operation i) (job_operation_data i) (job_done i) (job_done_len i)
     (state i).

Inductive call := HandlerOperation (data : option Z) | HandlerDone (data_len : Z).
Definition pr := prog t call.

Definition Init (m : Z) : pr unit :=
  passert (0 <=? m);;
  pmod (fun i => i <| mtu := m |> <| has_done := false |> <| job_operation := false |>
                   <| job_done := false |> <| state := ST_NONE |>).
Definition Done (data_len : Z) : pr unit :=
  i ← pget;
  passert (0 <=? data_len);;
  passert (data_len <=? mtu i);;
  passert (st_is (state i) ST_BUSY);;
  pmod (fun i => i <| job_done_len := data_len |> <| job_done := true |>
                   <| state := ST_DONE_PENDING |>).
Definition GetMTU : pr Z := pread mtu.
Definition Receiver_Init : pr unit :=
  i ← pget;
  passert (negb (has_done i));;
  pmod (fun i => i <| has_done := true |>).
Definition Receiver_Recv (data : option Z) : pr unit :=
  i ← pget;
  passert (negb (0 <? mtu i) || negb (bool_decide (data = None)));;
  passert (st_is (state i) ST_NONE);;
  passert (has_done i);;
  pmod (fun i => i <| job_operation_data := data |> <| job_operation := true |>
                   <| state := ST_OPERATION_PENDING |>).
Definition run_operation : pr unit :=
  pmod (fun i => i <| job_operation := false |>);;
  i ← pget;
  passert (st_is (state i) ST_OPERATION_PENDING);;
  pmod (fun i => i <| state := ST_BUSY |>);;
  pcall (HandlerOperation (job_operation_data i)).
Definition run_done : pr unit :=
  pmod (fun i => i <| job_done := false |>);;
  i ← pget;
  passert (st_is (state i) ST_DONE_PENDING);;
  pmod (fun i => i <| state := ST_NONE |>);;
  pcall (HandlerDone (job_done_len i)).

Inductive event := ERecv (data : Z) | EDone (len : Z) | EOperation | ECompleted.
Definition enabled (e : event) (i : t) (h : history) : Prop :=
  match e with
  | ERecv _ => user_idle h
  | EDone len => provider_busy h /\ 0 <= len <= mtu i
  | EOperation => job_operation i = true
  | ECompleted => job_done i = true
  end.
Definition handle (e : event) : pr unit :=
  match e with
  | ERecv data => Receiver_Recv (Some data)
  | EDone len => Done len
  | EOperation => run_operation
  | ECompleted => run_done
  end.
Definition count (e : event) (h : history) : history :=
  match e with
  | ERecv _ => mk_history (h_started h + 1) (h_received h) (h_finished h) (h_completed h)
  | EOperation => mk_history (h_started h) (h_received h + 1) (h_finished h) (h_completed h)
  | EDone _ => mk_history (h_started h) (h_received h) (h_finished h + 1) (h_completed h)
  | ECompleted => mk_history (h_started h) (h_received h) (h_finished h) (h_completed h + 1)
  end.
Inductive step : t * history -> t * history -> Prop :=
| step_intro e i h i' calls : enabled e i h -> handle e i = Ok (tt, i', calls) ->
    step (i, h) (i', count e h).

Definition initial (i : t) : Prop :=
  0 <= mtu i /\ has_done i = true /\ state i = ST_NONE /\
  job_operation i = false /\ job_done i = false.

Definition inv (i : t) (h : history) : Prop :=
  has_done i = true /\
  match state i with
  | ST_NONE => user_idle h /\ h_received h = h_finished h /\
      job_operation i = false /\ job_done i = false
  | ST_OPERATION_PENDING => h_started h = h_completed h + 1 /\ h_received h = h_finished h /\
      job_operation i = true /\ job_done i = false
  | ST_BUSY => h_started h = h_completed h + 1 /\ provider_busy h /\
      job_operation i = false /\ job_done i = false
  | ST_DONE_PENDING => h_started h = h_completed h + 1 /\ h_received h = h_finished h /\
      job_operation i = false /\ job_done i = true /\ 0 <= job_done_len i <= mtu i
  end.

Definition calls_of (e : event) (i : t) : list call :=
  match e with
  | EOperation => [HandlerOperation (job_operation_data i)]
  | ECompleted => [HandlerDone (job_done_len i)]
  | _ => []
  end.

Lemma pri_inv_step e i h : inv i h -> enabled e i h ->
  exists i', handle e i = Ok (tt, i', calls_of e i) /\ inv i' (count e h) /\ mtu i' = mtu i.
Proof.
  destruct i as [m hd jo jod jd jdl st], h as [a b c d].
  unfold inv, enabled, user_idle, provider_busy; intros (Hd & Hs) He.
  destruct e, st; cbn in *; destruct_and?; subst; try done; try lia;
    unfold Receiver_Recv, Done, run_operation, run_done;
    prog_simpl; cbv beta iota delta [update mtu has_done job_operation job_operation_data job_done
      job_done_len state].
  all: try (decide_tests; try rewrite bool_decide_eq_false_2, orb_true_r by done).
  all: run_iface; eexists; split; [done|]; cbn; split_and!; eauto; lia.
Qed.

Lemma done_bound i h : inv i h -> job_done i = true -> 0 <= job_done_len i <= mtu i.
Proof. intros (_ & Hs) He; destruct (state i); destruct_and?; congruence || lia. Qed.

(** The receive interface keeps its contract, and every length it reports to the user is
    within the MTU the user sized its buffer by. *)
Theorem PacketRecvInterface_contract i0 i h : initial i0 -> star step (i0, h0) (i, h) ->
  (forall e, enabled e i h -> exists i' calls, handle e i = Ok (tt, i', calls) /\
     (forall n, HandlerDone n ∈ calls -> 0 <= n <= mtu i)) /\
  (user_idle h \/ h_started h = h_completed h + 1 /\
     (job_operation i = true \/ job_done i = true \/ provider_busy h)) /\
  (h_received h = h_finished h \/ provider_busy h).
Proof.
  intros Hi Hs; assert (inv i h) as Hinv.
  { refine (star_invariant step (fun ih => inv (fst ih) (snd ih)) _ (i0, h0) (i, h) Hs _).
    - intros [a ha] [b hb] Ha Hab; inversion Hab; subst; cbn in *.
      destruct (pri_inv_step e a ha) as (b' & Hb & Hinv' & _); [done..|]; congruence.
    - destruct Hi as (_ & ? & Hst & ? & ?); cbn [fst snd]; unfold inv, user_idle; rewrite Hst; done. }
  split_and!.
  - intros e He; destruct (pri_inv_step e i h Hinv He) as (i' & Hh & _).
    exists i', (calls_of e i); split; [done|]; intros n Hn.
    destruct e; cbn in Hn; try (inversion Hn; fail); apply list_elem_of_singleton in Hn;
      simplify_eq; eapply done_bound; done.
  - destruct Hinv as (_ & Hst); destruct (state i); destruct_and?; auto 6.
  - destruct Hinv as (_ & Hst); destruct (state i); destruct_and?; auto.
Qed.

Definition sample : t := mk 1500 true false None false 0 ST_NONE.

Lemma PacketRecvInterface_contract_witness : exists i' calls,
  Receiver_Recv (Some 0) sample = Ok (tt, i', calls).
Proof.
  destruct (PacketRecvInterface_contract sample sample h0) as (He & _);
    [split_and!; done | constructor |].
  destruct (He (ERecv 0)) as (i' & calls & Hc & _); [reflexivity | exists i', calls; exact Hc].
Defined.

(** ** The machine step by step *)

Definition at_state (m : Z) (d : option Z) (n : Z) (s : if_state) : t :=
  mk m true (st_is s ST_OPERATION_PENDING) d (st_is s ST_DONE_PENDING) n s.

Lemma pri_Init_eq m i : 0 <= m ->
  Init m i = Ok (tt, mk m false false (job_operation_data i) false (job_done_len i) ST_NONE, []).
Proof. intros; unfold Init; prog_simpl; decide_tests; done. Qed.
Lemma pri_Recv_eq m d n d' : Receiver_Recv (Some d') (at_state m d n ST_NONE) =
  Ok (tt, at_state m (Some d') n ST_OPERATION_PENDING, []).
Proof.
  unfold Receiver_Recv; prog_simpl; rewrite (bool_decide_eq_false_2 (Some d' = None)) by done.
  rewrite orb_true_r; done.
Qed.
Lemma pri_run_operation_eq m d n : run_operation (at_state m d n ST_OPERATION_PENDING) =
  Ok (tt, at_state m d n ST_BUSY, [HandlerOperation d]).
Proof. done. Qed.
Lemma pri_Done_eq m d n n' : 0 <= n' <= m -> Done n' (at_state m d n ST_BUSY) =
  Ok (tt, at_state m d n' ST_DONE_PENDING, []).
Proof. intros; unfold Done; prog_simpl; cbn [mtu at_state]; decide_tests; done. Qed.
Lemma pri_run_done_eq m d n : run_done (at_state m d n ST_DONE_PENDING) =
  Ok (tt, at_state m d n ST_NONE, [HandlerDone n]).
Proof. done. Qed.
End PRI.

Module SPI.
(** [StreamPassInterface], and [StreamRecvInterface], which is the same code with [recv]
    and [receiver] for [send] and [sender]: the data of an operation is a byte array the
    provider reads, or writes, and completes in part. *)
Record t := mk {
  has_done : bool; job_operation : bool; job_operation_data : option Z;
  job_operation_len : Z; job_done : bool; job_done_len : Z; state : if_state }.
#[global] Instance t_eta : Eta t := fun i =>
  mk (has_done i) (job_operation i) (job_operation_data i) (job_operation_len i) (job_done i)
     (job_done_len i) (state i).

Inductive call := HandlerOperation (data : option Z) (len : Z) | HandlerDone (data_len : Z).
Definition sp := prog t call.

Definition Init : sp unit :=
  pmod (fun i => i <| has_done := false |> <| job_operation := false |>
                   <| job_done := false |> <| state := ST_NONE |>).
Definition Done (data_len : Z) : sp unit :=
  i ← pget;
  passert (st_is (state i) ST_BUSY);;
  passert (0 <? data_len);;
  passert (data_len <=? job_operation_len i);;
  pmod (fun i => i <| job_done_len := data_len |> <| job_done := true |>
                   <| state := ST_DONE_PENDING |>).
Definition Sender_Init : sp unit :=
  i ← pget;
  passert (negb (has_done i));;
  pmod (fun i => i <| has_done := true |>).
Definition Sender_Send (data : option Z) (data_len : Z) : sp unit :=
  i ← pget;
  passert (0 <? data_len);;
  passert (negb (bool_decide (data = None)));;
  passert (st_is (state i) ST_NONE);;
  passert (has_done i);;
  pmod (fun i => i <| job_operation_data := data |> <| job_operation_len := data_len |>
                   <| job_operation := true |> <| state := ST_OPERATION_PENDING |>).
Definition run_operation : sp unit :=
  pmod (fun i => i <| job_operation := false |>);;
  i ← pget;
  passert (st_is (state i) ST_OPERATION_PENDING);;
  pmod (fun i => i <| state := ST_BUSY |>);;
  pcall (HandlerOperation (job_operation_data i) (job_operation_len i)).
Definition run_done : sp unit :=
  pmod (fun i => i <| job_done := false |>);;
  i ← pget;
  passert (st_is (state i) ST_DONE_PENDING);;
  pmod (fun i => i <| state := ST_NONE |>);;
  pcall (HandlerDone (job_done_len i)).

Definition StreamRecvInterface_Init := Init.
Definition StreamRecvInterface_Done := Done.
Definition StreamRecvInterface_Receiver_Init := Sender_Init.
Definition StreamRecvInterface_Receiver_Recv := Sender_Send.
Definition StreamRecvInterface_job_operation := run_operation.
Definition StreamRecvInterface_job_done := run_done.

Lemma spi_Sender_Init_eq i : has_done i = false ->
  Sender_Init i = Ok (tt, i <| has_done := true |>, []).
Proof. intros H1; unfold Sender_Init; prog_simpl; rewrite H1; done. Qed.

Inductive event := ESend (data len : Z) | EDone (len : Z) | EOperation | ECompleted.
Definition enabled (e : event) (i : t) (h : history) : Prop :=
  match e with
  | ESend _ len => user_idle h /\ 0 < len
  | EDone len => provider_busy h /\ 0 < len <= job_operation_len i
  | EOperation => job_operation i = true
  | ECompleted => job_done i = true
  end.
Definition handle (e : event) : sp unit :=
  match e with
  | ESend data len => Sender_Send (Some data) len
  | EDone len => Done len
  | EOperation => run_operation
  | ECompleted => run_done
  end.
Definition count (e : event) (h : history) : history :=
  match e with
  | ESend _ _ => mk_history (h_started h + 1) (h_received h) (h_finished h) (h_completed h)
  | EOperation => mk_history (h_started h) (h_received h + 1) (h_finished h) (h_completed h)
  | EDone _ => mk_history (h_started h) (h_received h) (h_finished h + 1) (h_completed h)
  | ECompleted => mk_history (h_started h) (h_received h) (h_finished h) (h_completed h + 1)
  end.
Inductive step : t * history -> t * history -> Prop :=
| step_intro e i h i' calls : enabled e i h -> handle e i = Ok (tt, i', calls) ->
    step (i, h) (i', count e h).

Definition initial (i : t) : Prop :=
  has_done i = true /\ state i = ST_NONE /\ job_operation i = false /\ job_done i = false.

Definition inv (i : t) (h : history) : Prop :=
  has_done i = true /\
  match state i with
  | ST_NONE => user_idle h /\ h_received h = h_finished h /\
      job_operation i = false /\ job_done i = false
  | ST_OPERATION_PENDING => h_started h = h_completed h + 1 /\ h_received h = h_finished h /\
      job_operation i = true /\ job_done i = false /\ 0 < job_operation_len i
  | ST_BUSY => h_started h = h_completed h + 1 /\ provider_busy h /\
      job_operation i = false /\ job_done i = false /\ 0 < job_operation_len i
  | ST_DONE_PENDING => h_started h = h_completed h + 1 /\ h_received h = h_finished h /\
      job_operation i = false /\ job_done i = true /\ 0 < job_done_len i <= job_operation_len i
  end.

Definition calls_of (e : event) (i : t) : list call :=
  match e with
  | EOperation => [HandlerOperation (job_operation_data i) (job_operation_len i)]
  | ECompleted => [HandlerDone (job_done_len i)]
  | _ => []
  end.

Lemma spi_inv_step e i h : inv i h -> enabled e i h ->
  exists i', handle e i = Ok (tt, i', calls_of e i) /\ inv i' (count e h).
Proof.
  destruct i as [hd jo jod jol jd jdl st], h as [a b c d].
  unfold inv, enabled, user_idle, provider_busy; intros (Hd & Hs) He.
  destruct e, st; cbn in *; destruct_and?; subst; try done; try lia;
    unfold Sender_Send, Done, run_operation, run_done;
    prog_simpl; cbv beta iota delta [update has_done job_operation job_operation_data
      job_operation_len job_done job_done_len state].
  all: try (decide_tests; try rewrite bool_decide_eq_false_2 by done).
  all: run_iface; eexists; split; [done|]; cbn; split_and!; done || lia.
Qed.

Lemma calls_bound e i h x : inv i h -> enabled e i h -> x ∈ calls_of e i ->
  match x with
  | HandlerDone n => 0 < n <= job_operation_len i
  | HandlerOperation _ n => 0 < n
  end.
Proof.
  intros (_ & Hs) He Hx; destruct e; cbn in *; try (inversion Hx; fail);
    apply list_elem_of_singleton in Hx as ->; destruct (state i); destruct_and?; congruence || lia.
Qed.

Lemma spi_inv_counts i h : inv i h ->
  (h_started h = h_completed h \/ h_started h = h_completed h + 1) /\
  (h_received h = h_finished h \/ provider_busy h) /\
  (provider_busy h -> h_started h = h_completed h + 1 /\ job_done i = false).
Proof.
  unfold provider_busy; intros (_ & Hs); unfold user_idle, provider_busy in Hs.
  destruct (state i); destruct_and?; split_and!; auto; intros; try lia; auto.
Qed.
Lemma spi_inv_completed i h : inv i h -> job_done i = true ->
  h_started h = h_completed h + 1 /\ h_received h = h_finished h /\
  0 < job_done_len i <= job_operation_len i.
Proof. intros (_ & Hs) Hj; destruct (state i); destruct_and?; try congruence; auto. Qed.
Lemma spi_send_data d n i i' calls : Sender_Send d n i = Ok (tt, i', calls) ->
  job_operation_data i' = d /\ job_operation_len i' = n /\ job_done i' = job_done i.
Proof.
  unfold Sender_Send; prog_simpl.
  repeat match goal with |- context [if ?b then _ else _] => destruct b; cbv beta iota end;
    try discriminate; intros [= <-]; done.
Qed.
Lemma spi_op_kept e i i' calls : handle e i = Ok (tt, i', calls) -> (forall d n, e <> ESend d n) ->
  job_operation_data i' = job_operation_data i /\ job_operation_len i' = job_operation_len i /\
  match e with
  | EDone n => job_done i' = true /\ job_done_len i' = n
  | ECompleted => job_done i' = false
  | _ => job_done i' = job_done i /\ job_done_len i' = job_done_len i
  end.
Proof.
  destruct i as [hd jo jod jol jd jdl st]; intros Hh Hn; revert Hh.
  destruct e as [d n| | |]; [destruct (Hn d n); done|..];
    cbn [handle]; unfold Done, run_operation, run_done;
    prog_simpl; cbv beta iota delta [update];
    repeat match goal with |- context [if ?b then _ else _] => destruct b; cbv beta iota end;
    try discriminate; intros [= <-]; cbn; auto.
Qed.

(** The stream interfaces keep their contract; every operation asks for at least one byte,
    and completes with at least one and at most as many as were asked for. *)
Theorem StreamInterface_contract i0 i h : initial i0 -> star step (i0, h0) (i, h) ->
  (forall e, enabled e i h -> exists i' calls, handle e i = Ok (tt, i', calls) /\
     (forall d n, HandlerOperation d n ∈ calls -> 0 < n) /\
     (forall n, HandlerDone n ∈ calls -> 0 < n <= job_operation_len i)) /\
  (user_idle h \/ h_started h = h_completed h + 1 /\
     (job_operation i = true \/ job_done i = true \/ provider_busy h)) /\
  (h_received h = h_finished h \/ provider_busy h).
Proof.
  intros Hi Hs; assert (inv i h) as Hinv.
  { refine (star_invariant step (fun ih => inv (fst ih) (snd ih)) _ (i0, h0) (i, h) Hs _).
    - intros [a ha] [b hb] Ha Hab; inversion Hab; subst; cbn in *.
      destruct (spi_inv_step e a ha) as (b' & Hb & Hinv'); [done..|]; congruence.
    - destruct Hi as (? & Hst & ? & ?); cbn [fst snd]; unfold inv, user_idle; rewrite Hst; done. }
  split_and!.
  - intros e He; destruct (spi_inv_step e i h Hinv He) as (i' & Hh & _).
    exists i', (calls_of e i); split; [done|].
    split; [intros d n Hn | intros n Hn]; exact (calls_bound e i h _ Hinv He Hn).
  - destruct Hinv as (_ & Hst); destruct (state i); destruct_and?; auto 6.
  - destruct Hinv as (_ & Hst); destruct (state i); destruct_and?; auto.
Qed.

Definition sample : t := mk true false None 0 false 0 ST_NONE.

Lemma StreamInterface_contract_witness : exists i' calls,
  Sender_Send (Some 0) 5 sample = Ok (tt, i', calls).
Proof.
  destruct (StreamInterface_contract sample sample h0) as (He & _);
    [split_and!; done | constructor |].
  destruct (He (ESend 0 5)) as (i' & calls & Hc & _); [split; [reflexivity | lia] | exists i', calls; exact Hc].
Defined.
End SPI.

(** * Objects built from interfaces *)

Section compose.
Context {S T C K : Type} (get : S -> T) (put : T -> S -> S).

Fixpoint foreach (f : C -> prog S K unit) (ks : list C) : prog S K unit :=
  match ks with [] => pskip | k :: ks => f k;; foreach f ks end.

(** Runs a function of the interface [get s], then the handlers it calls. *)
Definition run_on (m : prog T C unit) (f : C -> prog S K unit) : prog S K unit := fun s =>
  match m (get s) with
  | Ok (_, t, ks) => foreach f ks (put t s)
  | Err e => Err e
  end.

Lemma run_on_eq m f s t ks : m (get s) = Ok (tt, t, ks) -> run_on m f s = foreach f ks (put t s).
Proof. unfold run_on; intros ->; done. Qed.

Lemma run_on_nil m f s t : m (get s) = Ok (tt, t, []) -> run_on m f s = Ok (tt, put t s, []).
Proof. apply run_on_eq. Qed.

Lemma run_on_one m f s t k : m (get s) = Ok (tt, t, [k]) -> run_on m f s = f k (put t s).
Proof.
  intros Hm; rewrite (run_on_eq _ _ _ _ _ Hm); cbn [foreach]; unfold mbind, prog_bind, pskip, mret, prog_ret.
  destruct (f k (put t s)) as [[[[] s'] c]|]; [rewrite app_nil_r|]; done.
Qed.
End compose.
