(* ===== verification/FlowViews.v ===== *)
(** The interfaces of FlowIface.v as an object sees them that uses them and knows of the provider
    only whether it has been given an operation that it has not finished: the state of the
    machine is determined by that, and each of its functions does one step. *)

From S2P Require Import Prelude FlowIface.

(** * Streams *)

(** Set up by the provider, without a user. *)
Definition fresh (i : SPI.t) : Prop :=
  SPI.has_done i = false /\ SPI.state i = ST_NONE /\ SPI.job_operation i = false /\ SPI.job_done i = false.


Definition spi_ok (i : SPI.t) (busy : bool) : Prop :=
  SPI.has_done i = true /\
  match SPI.state i with
  | ST_NONE => SPI.job_operation i = false /\ SPI.job_done i = false /\ busy = false
  | ST_OPERATION_PENDING => SPI.job_operation i = true /\ SPI.job_done i = false /\
      0 < SPI.job_operation_len i /\ busy = false
  | ST_BUSY => SPI.job_operation i = false /\ SPI.job_done i = false /\ 0 < SPI.job_operation_len i /\ busy = true
  | ST_DONE_PENDING => SPI.job_operation i = false /\ SPI.job_done i = true /\
      0 < SPI.job_done_len i <= SPI.job_operation_len i /\ busy = false
  end.

Definition sending (i : SPI.t) (d n : Z) : SPI.t :=
  SPI.mk (SPI.has_done i) true (Some d) n (SPI.job_done i) (SPI.job_done_len i) ST_OPERATION_PENDING.
Lemma spi_send_eq i busy d n : spi_ok i busy -> SPI.state i = ST_NONE -> 0 < n ->
  SPI.Sender_Send (Some d) n i = Ok (tt, sending i d n, []) /\ spi_ok (sending i d n) busy.
Proof.
  destruct i as [hd jo jod jol jd jdl s]; unfold spi_ok; cbn; intros (Hd & Hs) -> Hn; destruct Hs as (-> & -> & ->).
  split; [|done]; unfold SPI.Sender_Send; prog_simpl; cbn [SPI.state SPI.has_done]; rewrite Hd; decide_tests.
  rewrite bool_decide_eq_false_2 by done; done.
Qed.
Lemma spi_op_eq i busy : spi_ok i busy -> SPI.job_operation i = true ->
  exists i', SPI.run_operation i = Ok (tt, i', [SPI.HandlerOperation (SPI.job_operation_data i) (SPI.job_operation_len i)]) /\
    spi_ok i' true /\ SPI.state i' <> ST_NONE /\ SPI.job_done i' = false /\ SPI.job_done i = false /\ SPI.state i <> ST_NONE /\
    SPI.job_operation_data i' = SPI.job_operation_data i /\ SPI.job_operation_len i' = SPI.job_operation_len i.
Proof.
  destruct i as [hd jo jod jol jd jdl s]; unfold spi_ok; cbn; intros (Hd & Hs) ->; destruct s; destruct_and?; try done; subst.
  eexists; split; [reflexivity|]; cbn; split_and!; done.
Qed.
Lemma spi_done_eq i n : spi_ok i true -> 0 < n <= SPI.job_operation_len i ->
  exists i', SPI.Done n i = Ok (tt, i', []) /\ spi_ok i' false /\ SPI.state i' <> ST_NONE /\ SPI.job_done i' = true /\
    SPI.job_done_len i' = n /\ SPI.job_done i = false /\ SPI.state i <> ST_NONE /\
    SPI.job_operation_data i' = SPI.job_operation_data i /\ SPI.job_operation_len i' = SPI.job_operation_len i.
Proof.
  destruct i as [hd jo jod jol jd jdl s]; unfold spi_ok; cbn; intros (Hd & Hs) Hn; destruct s; destruct_and?; try done; subst.
  eexists; split; [unfold SPI.Done; prog_simpl; cbn [SPI.state SPI.job_operation_len]; decide_tests; reflexivity|].
  cbn; split_and!; done || lia.
Qed.
Lemma spi_completed_eq i busy : spi_ok i busy -> SPI.job_done i = true ->
  exists i', SPI.run_done i = Ok (tt, i', [SPI.HandlerDone (SPI.job_done_len i)]) /\
    spi_ok i' busy /\ SPI.state i' = ST_NONE /\ SPI.job_done i' = false /\ SPI.state i <> ST_NONE /\
    0 < SPI.job_done_len i <= SPI.job_operation_len i /\ busy = false.
Proof.
  destruct i as [hd jo jod jol jd jdl s]; unfold spi_ok; cbn; intros (Hd & Hs) ->; destruct s; destruct_and?; try done; subst.
  eexists; split; [reflexivity|]; cbn; split_and!; done || lia.
Qed.

Lemma fresh_init i : fresh i -> exists i', SPI.Sender_Init i = Ok (tt, i', []) /\ spi_ok i' false /\ SPI.state i' = ST_NONE.
Proof.
  intros (H1 & H2 & H3 & H4); exists (i <| SPI.has_done := true |>); split; [apply SPI.spi_Sender_Init_eq; done|].
  destruct i; unfold spi_ok; cbn in *; subst; done.
Qed.


(** * Packets *)

Definition ppi_ok (i : PPI.t) (busy : bool) : Prop :=
  PPI.has_done i = true /\ PPI.job_requestcancel i = false /\
  match PPI.state i with
  | ST_NONE => PPI.job_operation i = false /\ PPI.job_done i = false /\ busy = false
  | ST_OPERATION_PENDING => PPI.job_operation i = true /\ PPI.job_done i = false /\ busy = false
  | ST_BUSY => PPI.job_operation i = false /\ PPI.job_done i = false /\ busy = true
  | ST_DONE_PENDING => PPI.job_operation i = false /\ PPI.job_done i = true /\ busy = false
  end.
Definition sending_packet (i : PPI.t) (d : list Z) : PPI.t :=
  PPI.mk (PPI.mtu i) (PPI.has_requestcancel i) (PPI.has_done i) true (Some d) (Zlen d) (PPI.job_requestcancel i)
    (PPI.job_done i) ST_OPERATION_PENDING false.

Lemma ppi_send_eq i busy d : ppi_ok i busy -> PPI.state i = ST_NONE -> Zlen d <= PPI.mtu i ->
  PPI.Sender_Send (Some d) (Zlen d) i = Ok (tt, sending_packet i d, []) /\ ppi_ok (sending_packet i d) busy.
Proof.
  destruct i as [m hc hd jo jod jol jc jd s cr]; unfold ppi_ok; cbn; intros (Hd & Hc & Hs) -> Hn; destruct Hs as (-> & -> & ->).
  split; [|done]; unfold PPI.Sender_Send; prog_simpl; cbn [PPI.state PPI.has_done PPI.mtu]; rewrite Hd.
  pose proof (Zlen_nonneg d); decide_tests; rewrite bool_decide_eq_false_2, orb_true_r by done; done.
Qed.
Lemma ppi_op_eq i busy : ppi_ok i busy -> PPI.job_operation i = true ->
  exists i', PPI.run_operation i = Ok (tt, i', [PPI.HandlerOperation (PPI.job_operation_data i) (PPI.job_operation_len i)]) /\
    ppi_ok i' true /\ PPI.state i' <> ST_NONE /\ PPI.mtu i' = PPI.mtu i /\ PPI.state i <> ST_NONE.
Proof.
  destruct i as [m hc hd jo jod jol jc jd s cr]; unfold ppi_ok; cbn; intros (Hd & Hc & Hs) ->; destruct s; destruct_and?; try done; subst.
  eexists; split; [reflexivity|]; cbn; split_and!; done.
Qed.
Lemma ppi_done_eq i : ppi_ok i true ->
  exists i', PPI.Done i = Ok (tt, i', []) /\ ppi_ok i' false /\ PPI.state i' <> ST_NONE /\ PPI.mtu i' = PPI.mtu i /\ PPI.state i <> ST_NONE.
Proof.
  destruct i as [m hc hd jo jod jol jc jd s cr]; unfold ppi_ok; cbn; intros (Hd & Hc & Hs); destruct s; destruct_and?; try done; subst.
  eexists; split; [reflexivity|]; cbn; split_and!; done.
Qed.
Lemma ppi_completed_eq i busy : ppi_ok i busy -> PPI.job_done i = true ->
  exists i', PPI.run_done i = Ok (tt, i', [PPI.HandlerDone]) /\
    ppi_ok i' busy /\ PPI.state i' = ST_NONE /\ PPI.mtu i' = PPI.mtu i /\ PPI.state i <> ST_NONE /\ busy = false.
Proof.
  destruct i as [m hc hd jo jod jol jc jd s cr]; unfold ppi_ok; cbn; intros (Hd & Hc & Hs) ->; destruct s; destruct_and?; try done; subst.
  eexists; split; [reflexivity|]; cbn; split_and!; done.
Qed.
Lemma ppi_fresh_init i : PPI.fresh i -> exists i', PPI.Sender_Init i = Ok (tt, i', []) /\ ppi_ok i' false /\
  PPI.state i' = ST_NONE /\ PPI.mtu i' = PPI.mtu i.
Proof.
  intros (Hm & H1 & H2 & H3 & H4 & H5); exists (i <| PPI.has_done := true |>); split; [apply PPI.ppi_Sender_Init_eq; done|].
  destruct i; unfold ppi_ok; cbn in *; subst; done.
Qed.
