(* ===== verification/PacketProto.v ===== *)
(** The framing of packets on a byte stream: flow/PacketProtoEncoder.c writes a length
    header before each packet, flow/PacketProtoDecoder.c finds the packets in the stream
    again, however the stream is cut into reads. *)

From S2P Require Import Prelude IntCodec MiscArith.

(** * protocol/packetproto.h *)

Definition sizeof_packetproto_header : Z := 2.
Definition PACKETPROTO_ENCLEN (len : Z) : Z := sizeof_packetproto_header + len.
Definition PACKETPROTO_MAXPAYLOAD : Z := UINT16_MAX.

(** A packet on the stream. *)
Definition encode (p : list Z) : list Z := host_bytes 2 (htol16 (Zlen p)) ++ p.

(** * flow/PacketProtoEncoder.c *)

Module Encoder.
(** The packet being encoded is in the receiver's memory [mem] at [output_packet]. *)
Record t := mk { output_packet : option Z; mem : list Z; input_mtu : Z; output_mtu : Z }.
#[global] Instance t_eta : Eta t := fun e =>
  mk (output_packet e) (mem e) (input_mtu e) (output_mtu e).
Inductive call := InputRecv (data : Z) | OutputDone (len : Z).
Definition ep := prog t call.

(** [enc->input] has MTU [m]. *)
Definition PacketProtoEncoder_Init (m : Z) : ep unit :=
  passert (m <=? PACKETPROTO_MAXPAYLOAD);;
  pmod (fun e => e <| input_mtu := m |> <| output_mtu := PACKETPROTO_ENCLEN m |>
                   <| output_packet := None |>).
Definition output_handler_recv (data : Z) : ep unit :=
  e ← pget;
  passert (bool_decide (output_packet e = None));;
  pmod (fun e => e <| output_packet := Some data |>);;
  pcall (InputRecv (data + sizeof_packetproto_header)).
Definition input_handler_done (in_len : Z) : ep unit :=
  e ← pget;
  match output_packet e with
  | None => passert false
  | Some p =>
    m ← plift (mem_write (mem e) p (host_bytes 2 (htol16 (wrap 16 in_len))));
    pmod (fun e => e <| mem := m |> <| output_packet := None |>);;
    pcall (OutputDone (PACKETPROTO_ENCLEN in_len))
  end.

(** One packet through the encoder: the receiver offers a buffer, the input puts the
    payload where it is told to and reports its length. *)
Definition encode_one (data : Z) (payload : list Z) : ep unit :=
  output_handler_recv data;;
  e ← pget;
  m ← plift (mem_write (mem e) (data + sizeof_packetproto_header) payload);
  pmod (fun e => e <| mem := m |>);;
  input_handler_done (Zlen payload).
End Encoder.

(** * flow/PacketProtoDecoder.c *)

Record PacketProtoDecoder := mk_dec {
  output_mtu : Z; buf_size : Z; buf_start : Z; buf_used : Z; buf : list Z }.
#[export] Instance dec_eta : Eta PacketProtoDecoder := fun d =>
  mk_dec (output_mtu d) (buf_size d) (buf_start d) (buf_used d) (buf d).

(** A send carries the bytes of the packet; a receive its place in the buffer. *)
Inductive dec_call :=
| OutputSend (data : list Z)
| InputRecv (off len : Z)
| HandlerError.

Definition dp := prog PacketProtoDecoder dec_call.

(** What follows the [do ... while (0)] of [process_data] once no packet was submitted. *)
Definition process_data_recv (was_error : bool) : dp unit :=
  d ← pget;
  (if was_error then pmod (fun d => d <| buf_start := 0 |> <| buf_used := 0 |>)
   else if buf_start d + buf_used d =? buf_size d then
     m ← plift (mem_move (buf d) 0 (buf_start d) (buf_used d));
     pmod (fun d => d <| buf := m |> <| buf_start := 0 |>)
   else pskip);;
  d ← pget;
  pcall (InputRecv (buf_start d + buf_used d) (buf_size d - (buf_start d + buf_used d)));;
  if was_error then pcall HandlerError else pskip.

Definition process_data : dp unit :=
  d ← pget;
  let left := buf_used d in
  if left <? sizeof_packetproto_header then process_data_recv false else
  h ← plift (mem_read (buf d) (buf_start d) sizeof_packetproto_header);
  let data := buf_start d + sizeof_packetproto_header in
  let left := left - sizeof_packetproto_header in
  let data_len := ltoh16 (host_val h) in
  if output_mtu d <? data_len then process_data_recv true else
  if left <? data_len then process_data_recv false else
  pmod (fun d => d <| buf_start ::= Z.add (sizeof_packetproto_header + data_len) |>
                   <| buf_used ::= Z.add (- (sizeof_packetproto_header + data_len)) |>);;
  p ← plift (mem_read (buf d) data data_len);
  pcall (OutputSend p).

Definition input_handler_done (data_len : Z) : dp unit :=
  d ← pget;
  passert (0 <? data_len);;
  passert (data_len <=? buf_size d - (buf_start d + buf_used d));;
  pmod (fun d => d <| buf_used ::= Z.add data_len |>);;
  process_data.

Definition output_handler_done : dp unit := process_data.

(** [enc->output] has MTU [mtu]; [mem] is the memory [malloc] returned, if it did. *)
Definition PacketProtoDecoder_Init (mtu : Z) (mem : option (list Z)) : dp bool :=
  let m := bmin mtu PACKETPROTO_MAXPAYLOAD in
  pmod (fun d => d <| output_mtu := m |> <| buf_size := PACKETPROTO_ENCLEN m |>
                   <| buf_start := 0 |> <| buf_used := 0 |>);;
  match mem with
  | None => mret false
  | Some mem =>
    pmod (fun d => d <| buf := mem |>);;
    pcall (InputRecv 0 (PACKETPROTO_ENCLEN m));;
    mret true
  end.

Definition PacketProtoDecoder_Reset : dp unit :=
  pmod (fun d => d <| buf_start := buf_start d + buf_used d |> <| buf_used := 0 |>).

(** * The packets of a stream *)

Inductive parsed := Incomplete | TooLarge | Packet (p rest : list Z).

(** What the first bytes of a stream are, for a receiver of packets of at most [mtu] bytes. *)
Definition parse (mtu : Z) (l : list Z) : parsed :=
  if Zlen l <? 2 then Incomplete else
  let n := host_val (slice 0 2 l) in
  if mtu <? n then TooLarge else
  if Zlen l - 2 <? n then Incomplete else Packet (slice 2 n l) (zdrop (2 + n) l).

Section proofs.
Implicit Types (d : PacketProtoDecoder) (l p : list Z).

Definition pending d : list Z := slice (buf_start d) (buf_used d) (buf d).

Definition dec_ok d : Prop :=
  0 <= output_mtu d <= 65535 /\ buf_size d = 2 + output_mtu d /\ Zlen (buf d) = buf_size d /\
  0 <= buf_start d /\ 0 <= buf_used d /\ buf_start d + buf_used d <= buf_size d /\
  bytes_ok (buf d).

Lemma pending_len d : dec_ok d -> Zlen (pending d) = buf_used d.
Proof. unfold dec_ok, pending; intros; apply Zlen_slice; lia. Qed.

Lemma header_range l : bytes_ok l -> 2 <= Zlen l -> 0 <= host_val (slice 0 2 l) < 65536.
Proof.
  intros Hl ?; pose proof (host_val_bound (slice 0 2 l) (bytes_ok_slice _ _ _ Hl)) as Hb.
  rewrite Zlen_slice in Hb by lia; done.
Qed.

(** The receive that is issued when no packet is complete asks for at least one byte, inside
    the buffer, behind the bytes already there. *)
Definition receiving (d' : PacketProtoDecoder) (off len : Z) : Prop :=
  off = buf_start d' + buf_used d' /\ len = buf_size d' - off /\ 0 < len.

Lemma process_data_recv_eq d : dec_ok d -> buf_used d < buf_size d ->
  exists d', process_data_recv false d =
      Ok (tt, d', [InputRecv (buf_start d' + buf_used d') (buf_size d' - (buf_start d' + buf_used d'))]) /\
    dec_ok d' /\ pending d' = pending d /\ output_mtu d' = output_mtu d /\
    buf_start d' + buf_used d' < buf_size d'.
Proof.
  intros Hd ?; pose proof Hd as (? & ? & ? & ? & ? & ? & Hb); unfold process_data_recv, mem_move; prog_simpl.
  destruct (Z.eqb_spec (buf_start d + buf_used d) (buf_size d)).
  - rewrite mem_read_ok by lia.
    rewrite mem_write_ok by (rewrite ?Zlen_slice; lia).
    eexists; split; [reflexivity|]; unfold dec_ok, pending.
    cbv beta iota delta [update output_mtu buf_size buf_start buf_used buf].
    destruct d as [m sz st us b]; cbn [output_mtu buf_size buf_start buf_used buf] in *.
    assert (Zlen (slice st us b) = us) as HL by (apply Zlen_slice; lia).
    split_and!; try lia; try done.
    + rewrite Zlen_mem_set; lia.
    + auto with bytes.
    + rewrite <- (slice_mem_set_eq b 0 (slice st us b)) at 2 by lia; rewrite HL; done.
  - exists d; split; [done|]; split; [exact Hd|]; split_and!; first [done | lia].
Qed.

Lemma process_data_spec d : dec_ok d ->
  match parse (output_mtu d) (pending d) with
  | Packet p rest => exists d', process_data d = Ok (tt, d', [OutputSend p]) /\
      dec_ok d' /\ pending d' = rest /\ output_mtu d' = output_mtu d
  | Incomplete => exists d' off len, process_data d = Ok (tt, d', [InputRecv off len]) /\
      dec_ok d' /\ receiving d' off len /\ pending d' = pending d /\ output_mtu d' = output_mtu d
  | TooLarge => exists d' off len, process_data d = Ok (tt, d', [InputRecv off len; HandlerError]) /\
      dec_ok d' /\ receiving d' off len /\ pending d' = [] /\ output_mtu d' = output_mtu d
  end.
Proof.
  intros Hd; pose proof (pending_len d Hd) as HL; pose proof Hd as (Hm & Hsz & Hlen & Hst & Hus & Hle & Hb).
  assert (forall k, buf_used d < buf_size d -> k = process_data_recv false d ->
    exists d' off len, k = Ok (tt, d', [InputRecv off len]) /\
      dec_ok d' /\ receiving d' off len /\ pending d' = pending d /\ output_mtu d' = output_mtu d) as Hrecv.
  { intros k Hlt ->; destruct (process_data_recv_eq d Hd Hlt) as (d' & -> & ? & ? & ? & ?).
    eexists d', _, _; split; [done|]; unfold receiving; split_and!; done || lia. }
  unfold parse; rewrite HL; destruct (Z.ltb_spec (buf_used d) 2) as [H2|H2].
  { apply Hrecv; [lia|]; unfold process_data, sizeof_packetproto_header; prog_simpl.
    test_true (buf_used d <? 2); destruct (process_data_recv false d) as [[[[] ?] ?]|]; done. }
  assert (slice 0 2 (pending d) = slice (buf_start d) 2 (buf d)) as Hh.
  { unfold pending; rewrite slice_slice by lia; f_equal; lia. }
  pose proof (header_range (pending d) (bytes_ok_slice _ _ _ Hb)) as Hr.
  specialize (Hr ltac:(lia)); rewrite Hh in *; cbv zeta.
  set (n := host_val (slice (buf_start d) 2 (buf d))) in *.
  assert (process_data d = (if output_mtu d <? n then process_data_recv true d else
    if buf_used d - 2 <? n then process_data_recv false d else
    Ok (tt, d <| buf_start ::= Z.add (2 + n) |> <| buf_used ::= Z.add (- (2 + n)) |>,
        [OutputSend (slice (buf_start d + 2) n (buf d))]))) as ->.
  { unfold process_data, sizeof_packetproto_header, ltoh16, htol16; prog_simpl.
    test_false (buf_used d <? 2); cbv iota; rewrite mem_read_ok by lia; fold n.
    destruct (Z.ltb_spec (output_mtu d) n).
    { destruct (process_data_recv true d) as [[[[] ?] ?]|]; done. }
    destruct (Z.ltb_spec (buf_used d - 2) n).
    { destruct (process_data_recv false d) as [[[[] ?] ?]|]; done. }
    change (buf (_ <| buf_start ::= _ |> <| buf_used ::= _ |>)) with (buf d).
    rewrite mem_read_ok by lia; done. }
  destruct (Z.ltb_spec (output_mtu d) n).
  - eexists _, _, _; split; [unfold process_data_recv; prog_simpl; reflexivity|].
    cbn [app]; unfold receiving, dec_ok, pending.
    cbv beta iota delta [update output_mtu buf_size buf_start buf_used buf].
    destruct d as [m sz st us b]; cbn [output_mtu buf_size buf_start buf_used buf] in *.
    rewrite slice_0; split_and!; try done; lia.
  - destruct (Z.ltb_spec (buf_used d - 2) n); [apply Hrecv; [lia | done]|].
    eexists; split; [f_equal; f_equal; f_equal; f_equal|].
    + unfold pending; rewrite slice_slice by lia; f_equal; lia.
    + unfold dec_ok, pending; cbv beta iota delta [update output_mtu buf_size buf_start buf_used buf].
      destruct d as [m sz st us b]; cbn [output_mtu buf_size buf_start buf_used buf] in *.
      split_and!; try done; try lia; unfold slice; rewrite zdrop_ztake, zdrop_zdrop by lia.
      f_equal; [lia | f_equal; lia].
Qed.
End proofs.

(** * A whole stream through the decoder *)

(** What the decoder waits for: the input stream to fill part of the buffer, or its output. *)
Inductive dec_phase := Receiving (off len : Z) | Sending.

(** The decoder, the bytes of the stream still to come, the packets it has submitted and the
    errors it has reported. *)
Record dec_cfg := mk_cfg {
  cfg_dec : PacketProtoDecoder; cfg_phase : dec_phase; cfg_input : list Z;
  cfg_sent : list (list Z); cfg_errors : Z }.

(** The input writes [x] where it was asked to, and its completion is handled. *)
Definition deliver (off : Z) (x : list Z) : dp unit :=
  d ← pget;
  m ← plift (mem_write (buf d) off x);
  pmod (fun d => d <| buf := m |>);;
  input_handler_done (Zlen x).

Definition perform (c : dec_call) (s : dec_phase * list (list Z) * Z) : dec_phase * list (list Z) * Z :=
  let '(ph, sent, errs) := s in
  match c with
  | OutputSend p => (Sending, sent ++ [p], errs)
  | InputRecv off len => (Receiving off len, sent, errs)
  | HandlerError => (ph, sent, errs + 1)
  end.
Definition after_calls (c : dec_cfg) (input : list Z) (d : PacketProtoDecoder) (calls : list dec_call)
    : dec_cfg :=
  let '(ph, sent, errs) :=
    fold_left (fun s c => perform c s) calls (cfg_phase c, cfg_sent c, cfg_errors c) in
  mk_cfg d ph input sent errs.

(** The stream delivers any number of bytes up to what was asked for; the output completes. *)
Inductive dec_step (c : dec_cfg) : dec_cfg -> Prop :=
| dec_in off len x rest d calls :
    cfg_phase c = Receiving off len -> cfg_input c = x ++ rest -> 0 < Zlen x <= len ->
    deliver off x (cfg_dec c) = Ok (tt, d, calls) -> dec_step c (after_calls c rest d calls)
| dec_out d calls :
    cfg_phase c = Sending -> output_handler_done (cfg_dec c) = Ok (tt, d, calls) ->
    dec_step c (after_calls c (cfg_input c) d calls).

(** Bounds the number of steps left. *)
Definition work (c : dec_cfg) : Z :=
  3 * Zlen (cfg_input c) + 2 * buf_used (cfg_dec c) +
  match cfg_phase c with Sending => 1 | _ => 0 end.

Definition stream (pkts : list (list Z)) : list Z := concat (map encode pkts).

Section stream.
Context (mtu : Z) (Hmtu : 0 <= mtu <= 65535).
Implicit Types (pkts : list (list Z)).

Definition packet_ok (p : list Z) : Prop := bytes_ok p /\ Zlen p <= mtu.

Lemma encode_len p : Zlen (encode p) = 2 + Zlen p.
Proof. unfold encode; rewrite Zlen_app, Zlen_host_bytes; done. Qed.

Lemma encode_bytes_ok p : bytes_ok p -> bytes_ok (encode p).
Proof. intros; apply bytes_ok_app; split; [apply host_bytes_ok | done]. Qed.

Lemma stream_bytes_ok pkts : Forall packet_ok pkts -> bytes_ok (stream pkts).
Proof.
  induction 1 as [|p pkts [Hp _] _ IH]; [constructor|].
  apply bytes_ok_app; split; [apply encode_bytes_ok; done | done].
Qed.

Lemma encode_header p l : packet_ok p -> host_val (slice 0 2 (encode p ++ l)) = Zlen p.
Proof.
  intros [_ Hp]; pose proof (Zlen_nonneg p); unfold encode, htol16; rewrite <- app_assoc.
  rewrite slice_app_l by (rewrite ?Zlen_host_bytes; lia).
  change (slice 0 2 (host_bytes 2 (Zlen p))) with (host_bytes 2 (Zlen p)).
  apply host_val_bytes_id; change (256 ^ Z.of_nat 2) with 65536; lia.
Qed.

(** A prefix of a stream of packets parses to its first packet or is incomplete. *)
Lemma parse_stream l input pkts : Forall packet_ok pkts -> l ++ input = stream pkts ->
  match parse mtu l with
  | TooLarge => False
  | Incomplete => input = [] -> l = [] /\ pkts = []
  | Packet p rest => exists pkts', pkts = p :: pkts' /\ rest ++ input = stream pkts' /\
      Zlen rest + 2 <= Zlen l
  end.
Proof.
  intros Hp Hl; unfold parse; destruct pkts as [|p pkts].
  { apply app_eq_nil in Hl as [-> ->]; done. }
  apply Forall_cons_1 in Hp as [Hp Hps]; pose proof Hp as [_ HL]; pose proof (Zlen_nonneg p).
  change (stream (p :: pkts)) with (encode p ++ stream pkts) in Hl.
  assert (Zlen l + Zlen input = 2 + Zlen p + Zlen (stream pkts)) as HLen.
  { rewrite <- Zlen_app, Hl, Zlen_app, encode_len; done. }
  pose proof (Zlen_nonneg (stream pkts)); pose proof (Zlen_nonneg input).
  destruct (Z.ltb_spec (Zlen l) 2); [intros ->; change (Zlen []) with 0 in *; lia|].
  assert (host_val (slice 0 2 l) = Zlen p) as ->.
  { rewrite <- (slice_app_l 0 2 l input) by lia; rewrite Hl; apply encode_header; done. }
  cbv zeta; test_false (mtu <? Zlen p).
  destruct (Z.ltb_spec (Zlen l - 2) (Zlen p)); [intros ->; change (Zlen []) with 0 in *; lia|].
  assert (slice 2 (Zlen p) l = p) as Hsl.
  { rewrite <- (slice_app_l 2 (Zlen p) l input) by lia; rewrite Hl; unfold encode.
    rewrite <- app_assoc, slice_app_r by (rewrite Zlen_host_bytes; lia).
    rewrite Zlen_host_bytes; change (2 - Z.of_nat 2) with 0.
    rewrite slice_app_l, slice_all by lia; done. }
  exists pkts; rewrite Hsl; split; [done|]; split.
  - rewrite <- (zdrop_app_le (2 + Zlen p) l input) by lia; rewrite Hl.
    apply zdrop_app_eq; rewrite encode_len; done.
  - rewrite Zlen_zdrop; lia.
Qed.

Definition cfg_inv (pkts : list (list Z)) (c : dec_cfg) : Prop :=
  dec_ok (cfg_dec c) /\ output_mtu (cfg_dec c) = mtu /\ cfg_errors c = 0 /\
  (exists rest, pkts = cfg_sent c ++ rest /\
     pending (cfg_dec c) ++ cfg_input c = stream rest) /\
  match cfg_phase c with
  | Receiving off len => receiving (cfg_dec c) off len /\
      parse mtu (pending (cfg_dec c)) = Incomplete
  | Sending => True
  end.

(** One completion: the decoder submits the next packet or asks for more bytes. *)
Lemma process_cfg pkts c d input sent rest : Forall packet_ok pkts -> dec_ok d ->
  output_mtu d = mtu -> cfg_errors c = 0 -> cfg_sent c = sent -> pkts = sent ++ rest ->
  pending d ++ input = stream rest ->
  exists d' calls, process_data d = Ok (tt, d', calls) /\
    cfg_inv pkts (after_calls c input d' calls) /\
    work (after_calls c input d' calls) <= 3 * Zlen input + 2 * buf_used d.
Proof.
  intros Hp Hd Hm He Hs Hpk Hst; pose proof (process_data_spec d Hd) as Hspec; rewrite Hm in Hspec.
  assert (Forall packet_ok rest) as Hpr by (rewrite Hpk in Hp; apply Forall_app in Hp as [_ Hp]; done).
  pose proof (parse_stream _ _ _ Hpr Hst) as Hparse.
  destruct (parse mtu (pending d)) as [| |p l] eqn:Epar; [| done |].
  - destruct Hspec as (d' & off & len & Hrun & Hd' & Hrecv & Hpend & Hm').
    exists d', [InputRecv off len]; split; [done|]; split.
    + split; [done|]; split; [done|]; split; [done|]; split; cbn.
      * exists rest; rewrite Hs, Hpend; done.
      * rewrite Hpend; done.
    + unfold work; cbn.
      rewrite <- (pending_len d Hd), <- Hpend, (pending_len d' Hd'); lia.
  - destruct Hspec as (d' & Hrun & Hd' & Hpend & Hm').
    destruct Hparse as (pkts' & -> & Hst' & HL).
    exists d', [OutputSend p]; split; [done|]; split.
    + split; [done|]; split; [done|]; split; [done|]; split; [|done]; cbn.
      exists pkts'; rewrite Hs, Hpk, <- app_assoc, Hpend; done.
    + unfold work; cbn; rewrite <- (pending_len d Hd), <- (pending_len d' Hd'), Hpend; lia.
Qed.

Lemma deliver_eq d off len x : dec_ok d -> receiving d off len -> bytes_ok x ->
  0 < Zlen x <= len ->
  exists d1, deliver off x d = process_data d1 /\ dec_ok d1 /\ output_mtu d1 = output_mtu d /\
    pending d1 = pending d ++ x /\ buf_used d1 = buf_used d + Zlen x.
Proof.
  intros (? & ? & Hb & ? & ? & ? & Hok) (-> & -> & ?) Hx HL.
  unfold deliver, input_handler_done; prog_simpl.
  rewrite mem_write_ok by lia.
  change (buf_start (d <| buf := _ |>)) with (buf_start d).
  change (buf_used (d <| buf := _ |>)) with (buf_used d).
  change (buf_size (d <| buf := _ |>)) with (buf_size d).
  test_true (0 <? Zlen x); test_true (Zlen x <=? buf_size d - (buf_start d + buf_used d)).
  cbv beta iota; match goal with |- context [process_data ?s] => exists s end.
  split; [destruct (process_data _) as [[[[] ?] ?]|]; reflexivity|].
  unfold dec_ok, pending; cbv beta iota delta [update output_mtu buf_size buf_start buf_used buf].
  destruct d as [m sz st us b]; cbn [output_mtu buf_size buf_start buf_used buf] in *.
  split; [split_and!; try lia; try done|].
  - rewrite Zlen_mem_set; lia.
  - auto with bytes.
  - split; [done|]; split; [|lia].
    rewrite Z.add_comm, slice_split by lia; f_equal.
    + apply slice_mem_set_before; lia.
    + apply slice_mem_set_eq; lia.
Qed.

Lemma cfg_step pkts c : Forall packet_ok pkts -> cfg_inv pkts c ->
  (forall off len x rest, cfg_phase c = Receiving off len -> cfg_input c = x ++ rest ->
     0 < Zlen x <= len -> exists d calls, deliver off x (cfg_dec c) = Ok (tt, d, calls) /\
       cfg_inv pkts (after_calls c rest d calls) /\ work (after_calls c rest d calls) < work c) /\
  (cfg_phase c = Sending -> exists d calls, output_handler_done (cfg_dec c) = Ok (tt, d, calls) /\
     cfg_inv pkts (after_calls c (cfg_input c) d calls) /\
     work (after_calls c (cfg_input c) d calls) < work c).
Proof.
  intros Hp (Hd & Hm & He & (more & Hpk & Hst) & Hph); split.
  - intros off len x rest Hph' Hin HL; rewrite Hph' in Hph; destruct Hph as [Hrecv _].
    assert (bytes_ok (pending (cfg_dec c) ++ cfg_input c)) as Hbs.
    { rewrite Hst; apply stream_bytes_ok; rewrite Hpk in Hp; apply Forall_app in Hp; tauto. }
    rewrite Hin in Hbs, Hst; apply bytes_ok_app in Hbs as [_ [Hx _]%bytes_ok_app].
    destruct (deliver_eq _ off len x Hd Hrecv Hx HL) as (d1 & -> & Hd1 & Hm1 & Hp1 & Hu1).
    destruct (process_cfg pkts c d1 rest (cfg_sent c) more) as (d' & calls & -> & Hinv & Hw);
      try done; [congruence | rewrite Hp1, <- app_assoc; done |].
    exists d', calls; split; [done|]; split; [done|].
    unfold work at 2; rewrite Hph', Hin, Zlen_app; lia.
  - intros Hph'; destruct (process_cfg pkts c (cfg_dec c) (cfg_input c) (cfg_sent c) more)
      as (d' & calls & Hrun & Hinv & Hw); try done.
    exists d', calls; split; [done|]; split; [done|]; unfold work at 2; rewrite Hph'; lia.
Qed.

Definition initial_cfg (mem : list Z) (pkts : list (list Z)) : dec_cfg :=
  mk_cfg (mk_dec mtu (2 + mtu) 0 0 mem) (Receiving 0 (2 + mtu)) (stream pkts) [] 0.

Lemma initial_inv mem pkts : bytes_ok mem -> Zlen mem = 2 + mtu ->
  cfg_inv pkts (initial_cfg mem pkts).
Proof.
  intros Hb HL; split; [split_and!; cbn; lia || done|]; split; [done|]; split; [done|].
  split; [exists pkts; done|]; cbn; unfold receiving; cbn; split_and!; done || lia.
Qed.
End stream.

(** C19: However the stream of encoded packets is cut into reads, and whenever the output takes
    the packets: the decoder submits exactly the packets that were encoded, in order, never
    reports an error, never touches memory outside its buffer and fails no assertion; its
    steps are finitely many, and when none is left every packet has been submitted. *)
Theorem PacketProtoDecoder_stream mtu mem pkts c :
  0 <= mtu <= 65535 -> bytes_ok mem -> Zlen mem = 2 + mtu -> Forall (packet_ok mtu) pkts ->
  star dec_step (initial_cfg mtu mem pkts) c ->
  (exists rest, pkts = cfg_sent c ++ rest) /\ cfg_errors c = 0 /\
  (forall off len x rest, cfg_phase c = Receiving off len -> cfg_input c = x ++ rest ->
     0 < Zlen x <= len -> is_ok (deliver off x (cfg_dec c))) /\
  (cfg_phase c = Sending -> is_ok (output_handler_done (cfg_dec c))) /\
  (forall c', dec_step c c' -> 0 <= work c' < work c) /\
  ((forall c', ~ dec_step c c') -> cfg_sent c = pkts).
Proof.
  intros Hm Hb HL Hp Hs.
  assert (cfg_inv mtu pkts c) as Hinv.
  { refine (star_invariant dec_step (cfg_inv mtu pkts) _ _ _ Hs (initial_inv mtu Hm mem pkts Hb HL)).
    intros a b Ha Hab; destruct (cfg_step mtu Hm pkts a Hp Ha) as [Hin Hout]; destruct Hab.
    - destruct (Hin off len x rest) as (d' & calls' & ? & ? & _); [done..|]; congruence.
    - destruct Hout as (d' & calls' & ? & ? & _); [done..|]; congruence. }
  destruct (cfg_step mtu Hm pkts c Hp Hinv) as [Hin Hout].
  assert (forall c', cfg_inv mtu pkts c' -> 0 <= work c') as Hwork.
  { intros c' (Hd' & _); unfold work; pose proof (Zlen_nonneg (cfg_input c')).
    unfold dec_ok in Hd'; destruct (cfg_phase c'); lia. }
  pose proof Hinv as (Hd & Hmd & He & (more & Hpk & Hst) & Hph).
  split; [eauto|]; split; [done|]; split; [|split; [|split]].
  - intros off len x rest H1 H2 H3; destruct (Hin off len x rest H1 H2 H3) as (d' & calls & -> & _).
    eexists; done.
  - intros H1; destruct (Hout H1) as (d' & calls & -> & _); eexists; done.
  - intros c' Hstep; destruct Hstep as [off len x rest d calls H1 H2 H3 H4 | d calls H1 H2].
    + destruct (Hin off len x rest H1 H2 H3) as (d' & calls' & H5 & H6 & H7).
      rewrite H5 in H4; injection H4 as <- <-; auto.
    + destruct (Hout H1) as (d' & calls' & H5 & H6 & H7).
      rewrite H5 in H2; injection H2 as <- <-; auto.
  - intros Hstuck; destruct (cfg_phase c) as [off len|] eqn:Eph.
    + destruct Hph as [(-> & -> & Hpos) Hpar].
      assert (Forall (packet_ok mtu) more) as Hpm by (rewrite Hpk in Hp; apply Forall_app in Hp; tauto).
      pose proof (parse_stream mtu Hm _ _ _ Hpm Hst) as Hps; rewrite Hpar in Hps.
      destruct (cfg_input c) as [|x input] eqn:Ein.
      * destruct Hps as [_ ->]; [done|]; rewrite Hpk, app_nil_r; done.
      * destruct (Hin _ _ [x] input eq_refl eq_refl) as (d' & calls & H5 & _).
        { change (Zlen [x]) with 1; lia. }
        destruct (Hstuck _ (dec_in c _ _ [x] input d' calls Eph Ein ltac:(change (Zlen [x]) with 1; lia) H5)).
    + destruct (Hout eq_refl) as (d' & calls & H5 & _).
      destruct (Hstuck _ (dec_out c d' calls Eph H5)).
Qed.

Lemma PacketProtoDecoder_stream_witness :
  is_ok (deliver 0 [2; 0; 7] (cfg_dec (initial_cfg 4 (replicate 6 0) [[7; 8]]))).
Proof.
  destruct (PacketProtoDecoder_stream 4 (replicate 6 0) [[7; 8]] (initial_cfg 4 (replicate 6 0) [[7; 8]]))
    as (_ & _ & H & _); [lia | apply bytes_ok_lit; reflexivity | reflexivity | | constructor |].
  - apply list.Forall_cons; split; [split; [apply bytes_ok_lit; reflexivity | vm_compute; discriminate]
      | constructor].
  - apply (H 0 6 [2; 0; 7] [8]); [reflexivity | reflexivity | change (Zlen [2; 0; 7]) with 3; lia].
Defined.

(** C34: On arbitrary input the decoder stays within its buffer: whatever bytes arrive, it submits
    a packet no larger than the output's MTU, or asks for at least one byte at a place in the
    buffer that is free, having reported an error and dropped what it had if the length was
    too large. Resetting drops the bytes received without moving the receive under way. *)
Theorem PacketProtoDecoder_robust d off len x :
  dec_ok d -> receiving d off len -> bytes_ok x -> 0 < Zlen x <= len ->
  (exists d' calls, deliver off x d = Ok (tt, d', calls) /\ dec_ok d' /\
     match parse (output_mtu d) (pending d ++ x) with
     | Packet p rest => calls = [OutputSend p] /\ Zlen p <= output_mtu d /\ pending d' = rest
     | Incomplete => exists off' len', calls = [InputRecv off' len'] /\ receiving d' off' len' /\
         pending d' = pending d ++ x
     | TooLarge => exists off' len', calls = [InputRecv off' len'; HandlerError] /\
         receiving d' off' len' /\ pending d' = []
     end) /\
  (exists d', PacketProtoDecoder_Reset d = Ok (tt, d', []) /\ dec_ok d' /\ receiving d' off len /\
     pending d' = []).
Proof.
  intros Hd Hr Hx HL; split.
  - pose proof Hd as ((Hm0 & Hm) & _); destruct (deliver_eq d off len x Hd Hr Hx HL)
      as (d1 & -> & Hd1 & Hm1 & Hp1 & _).
    pose proof (process_data_spec d1 Hd1) as Hspec; rewrite Hp1, Hm1 in Hspec.
    assert (Zlen (pending d ++ x) <= 2 + output_mtu d) as HLp.
    { rewrite <- Hp1, pending_len by done; unfold dec_ok in Hd1; lia. }
    destruct (parse (output_mtu d) (pending d ++ x)) as [| |p rest] eqn:Epar.
    + destruct Hspec as (d' & o & l & H1 & H2 & H3 & H4 & _); eexists _, _; split; [done|]; eauto 6.
    + destruct Hspec as (d' & o & l & H1 & H2 & H3 & H4 & _); eexists _, _; split; [done|]; eauto 6.
    + destruct Hspec as (d' & H1 & H2 & H3 & _); eexists _, _; split; [done|]; split; [done|].
      split; [done|]; split; [|done]; revert Epar; unfold parse.
      pose proof (Zlen_nonneg (pending d ++ x)).
      destruct (Z.ltb_spec (Zlen (pending d ++ x)) 2); [done|]; cbv zeta.
      destruct (Z.ltb_spec (output_mtu d) (host_val (slice 0 2 (pending d ++ x)))); [done|].
      destruct (Z.ltb_spec (Zlen (pending d ++ x) - 2) (host_val (slice 0 2 (pending d ++ x)))); [done|].
      intros [= <- _]; rewrite Zlen_slice_gen; lia.
  - eexists; split; [reflexivity|]; destruct Hr as (-> & -> & ?); unfold dec_ok, receiving, pending in *.
    cbv beta iota delta [update output_mtu buf_size buf_start buf_used buf] in *.
    destruct d as [m sz st us b]; cbn [output_mtu buf_size buf_start buf_used buf] in *.
    destruct_and?; rewrite slice_0; split_and!; first [done | lia].
Qed.

Lemma PacketProtoDecoder_robust_witness : exists d' calls,
  deliver 0 [9; 0; 1] (mk_dec 4 6 0 0 (replicate 6 0)) = Ok (tt, d', calls).
Proof.
  destruct (PacketProtoDecoder_robust (mk_dec 4 6 0 0 (replicate 6 0)) 0 6 [9; 0; 1])
    as [(d' & calls & H & _) _].
  - split_and!; cbn; try lia; try reflexivity; apply bytes_ok_lit; reflexivity.
  - split_and!; reflexivity.
  - apply bytes_ok_lit; reflexivity.
  - change (Zlen [9; 0; 1]) with 3; lia.
  - exists d', calls; exact H.
Defined.

(** The encoder turns the payload its input writes into the receiver's buffer into the packet
    the decoder expects, in place, without touching the bytes around it, and reports its
    exact length. *)
Theorem PacketProtoEncoder_encodes e data payload :
  Encoder.output_packet e = None -> Zlen payload <= Encoder.input_mtu e <= PACKETPROTO_MAXPAYLOAD ->
  0 <= data -> data + PACKETPROTO_ENCLEN (Zlen payload) <= Zlen (Encoder.mem e) ->
  exists e', Encoder.encode_one data payload e = Ok (tt, e',
      [Encoder.InputRecv (data + 2); Encoder.OutputDone (Zlen (encode payload))]) /\
    Encoder.output_packet e' = None /\
    Encoder.mem e' = mem_set (Encoder.mem e) data (encode payload).
Proof.
  unfold PACKETPROTO_MAXPAYLOAD, UINT16_MAX, PACKETPROTO_ENCLEN, sizeof_packetproto_header.
  intros He Hp Hd HL; pose proof (Zlen_nonneg payload); destruct e as [op m im om]; cbn in He, Hp, HL; subst op.
  unfold Encoder.encode_one, Encoder.output_handler_recv, Encoder.input_handler_done,
    PACKETPROTO_ENCLEN, sizeof_packetproto_header, htol16; prog_simpl.
  cbv beta iota delta [update Encoder.output_packet Encoder.mem Encoder.input_mtu Encoder.output_mtu].
  rewrite bool_decide_eq_true_2 by done; rewrite mem_write_ok by lia; cbv iota.
  rewrite wrap_small by (change (2 ^ 16) with 65536; lia).
  rewrite mem_write_ok by (rewrite ?Zlen_mem_set, ?Zlen_host_bytes by lia; lia).
  eexists; split; [rewrite encode_len; reflexivity|].
  cbn [Encoder.output_packet Encoder.mem]; split; [done|].
  unfold encode, htol16, mem_set; set (h := host_bytes 2 (Zlen payload)).
  assert (Zlen h = 2) as Hh by apply Zlen_host_bytes.
  rewrite (Zlen_app h), Hh, <- !app_assoc.
  rewrite ztake_app_le by (rewrite Zlen_ztake; lia).
  rewrite ztake_ztake by lia; f_equal; f_equal.
  rewrite zdrop_app_eq by (rewrite Zlen_ztake; lia); do 2 f_equal; lia.
Qed.

Lemma PacketProtoEncoder_encodes_witness : exists e',
  Encoder.encode_one 1 [5; 6] (Encoder.mk None (replicate 8 0) 4 6) = Ok (tt, e',
    [Encoder.InputRecv 3; Encoder.OutputDone 4]) /\
  Encoder.mem e' = [0; 2; 0; 5; 6; 0; 0; 0].
Proof.
  destruct (PacketProtoEncoder_encodes (Encoder.mk None (replicate 8 0) 4 6) 1 [5; 6])
    as (e' & H1 & _ & H2); [reflexivity | vm_compute; split; discriminate | lia | vm_compute; discriminate |].
  exists e'; split; [exact H1 | exact H2].
Defined.
