(* ===== verification/PacketBuffer.v ===== *)
(** flow/PacketBuffer.c: packets received from an asynchronous input wait in a ChunkBuffer2
    until the output takes them. *)

From S2P Require Import Prelude IntCodec MiscArith ChunkBuffer.

Section packetbuffer.
Context `{Arch}.

Record PacketBuffer := mk_pb { pb_buf : ChunkBuffer2; pb_input_mtu : Z }.
#[export] Instance pb_eta : Eta PacketBuffer := fun o => mk_pb (pb_buf o) (pb_input_mtu o).

(** A receive offers a place in the buffer, a send the packet at a place of it. *)
Inductive pb_call :=
| Receiver_Recv (data : option Z)
| Sender_Send (data : option Z) (data_len : Z).
Definition pbp := prog PacketBuffer pb_call.

Definition on_buf (m : cbprog unit) : pbp unit := fun o =>
  match m (pb_buf o) with
  | Ok (_, b, _) => Ok (tt, o <| pb_buf := b |>, [])
  | Err f => Err f
  end.

Definition input_handler_done (in_len : Z) : pbp unit :=
  o ← pget;
  passert (0 <=? in_len);;
  passert (in_len <=? pb_input_mtu o);;
  let was_empty := output_avail (pb_buf o) <? 0 in
  on_buf (ChunkBuffer2_SubmitPacket in_len);;
  o ← pget;
  (if pb_input_mtu o <=? input_avail (pb_buf o)
   then pcall (Receiver_Recv (input_dest (pb_buf o))) else pskip);;
  if was_empty
  then pcall (Sender_Send (output_dest (pb_buf o)) (output_avail (pb_buf o))) else pskip.

Definition output_handler_done : pbp unit :=
  o ← pget;
  let was_full := input_avail (pb_buf o) <? pb_input_mtu o in
  on_buf ChunkBuffer2_ConsumePacket;;
  o ← pget;
  (if was_full && (pb_input_mtu o <=? input_avail (pb_buf o))
   then pcall (Receiver_Recv (input_dest (pb_buf o))) else pskip);;
  if 0 <=? output_avail (pb_buf o)
  then pcall (Sender_Send (output_dest (pb_buf o)) (output_avail (pb_buf o))) else pskip.

(** [input] and [output] have the given MTUs; [mem] is the array [BAllocArray] returns for a
    number of blocks, if it returns one. *)
Definition PacketBuffer_Init (input_mtu output_mtu num_packets : Z)
    (mem : Z -> option (list Z)) : pbp bool :=
  passert (input_mtu <=? output_mtu);;
  passert (0 <? num_packets);;
  pmod (fun o => o <| pb_input_mtu := input_mtu |>);;
  let num_blocks := ChunkBuffer2_calc_blocks input_mtu num_packets in
  if num_blocks <? 0 then mret false else
  match mem num_blocks with
  | None => mret false
  | Some m =>
    on_buf (ChunkBuffer2_Init m num_blocks input_mtu);;
    o ← pget;
    pcall (Receiver_Recv (input_dest (pb_buf o)));;
    mret true
  end.

(** * The buffer between its input and its output *)

(** The operations under way on both sides, the packets received so far and the packets
    the output has completed. *)
Record pb_cfg := mk_pbc {
  pbc_pb : PacketBuffer; pbc_recv : option Z; pbc_send : option (list Z);
  pbc_received : list (list Z); pbc_completed : list (list Z) }.

(** What a call starts; a send whose bytes are not in the buffer, or a second operation on a
    busy side, would break the interface's contract. *)
Definition start_call (c : pb_cfg) (k : pb_call) : res pb_cfg :=
  match k with
  | Receiver_Recv (Some d) =>
    rassert (bool_decide (pbc_recv c = None));;
    mret (mk_pbc (pbc_pb c) (Some d) (pbc_send c) (pbc_received c) (pbc_completed c))
  | Sender_Send (Some d) n =>
    rassert (bool_decide (pbc_send c = None));;
    p ← mem_read (cb_buffer (pb_buf (pbc_pb c))) d n;
    mret (mk_pbc (pbc_pb c) (pbc_recv c) (Some p) (pbc_received c) (pbc_completed c))
  | _ => Err AssertFailed
  end.
Fixpoint start_calls (c : pb_cfg) (ks : list pb_call) : res pb_cfg :=
  match ks with [] => mret c | k :: ks => c ← start_call c k; start_calls c ks end.

(** The input completes with a packet it wrote where it was asked to. *)
Definition input_completes (c : pb_cfg) (p : list Z) : res pb_cfg :=
  match pbc_recv c with
  | None => Err AssertFailed
  | Some d =>
    m ← mem_write (cb_buffer (pb_buf (pbc_pb c))) d p;
    '(_, o, ks) ← input_handler_done (Zlen p)
      ((pbc_pb c) <| pb_buf ::= fun b => b <| cb_buffer := m |> |>);
    start_calls (mk_pbc o None (pbc_send c) (pbc_received c ++ [p]) (pbc_completed c)) ks
  end.
(** The output completes the packet it was given. *)
Definition output_completes (c : pb_cfg) : res pb_cfg :=
  match pbc_send c with
  | None => Err AssertFailed
  | Some p =>
    '(_, o, ks) ← output_handler_done (pbc_pb c);
    start_calls (mk_pbc o (pbc_recv c) None (pbc_received c) (pbc_completed c ++ [p])) ks
  end.

Inductive pb_step (c : pb_cfg) : pb_cfg -> Prop :=
| pb_in p c' : is_Some (pbc_recv c) -> Zlen p <= pb_input_mtu (pbc_pb c) ->
    input_completes c p = Ok c' -> pb_step c c'
| pb_out c' : is_Some (pbc_send c) -> output_completes c = Ok c' -> pb_step c c'.
End packetbuffer.

Section proofs.
Context `{Arch} (mtu num : Z) (Hmtu : 0 <= mtu) (Hnum : 0 < num).

(** The packets waiting are those received and not completed; the receive under way offers
    the free space as soon as the largest packet fits, the send is of the front packet. *)
Definition pb_inv (c : pb_cfg) : Prop :=
  let b := pb_buf (pbc_pb c) in
  exists q, cb_rep b q /\ pb_input_mtu (pbc_pb c) = mtu /\
    cb_mtu b = bdivide_up mtu sizeof_block /\ cb_size b = ChunkBuffer2_calc_blocks mtu num /\
    pbc_received c = pbc_completed c ++ q /\ Forall (fun p => Zlen p <= mtu) q /\
    pbc_recv c = (if mtu <=? input_avail b then input_dest b else None) /\
    pbc_send c = head q.

Lemma on_buf_eq m b b' mt l : m b = Ok (tt, b', l) ->
  on_buf m (mk_pb b mt) = Ok (tt, mk_pb b' mt, []).
Proof. unfold on_buf; cbn [pb_buf]; intros ->; done. Qed.

Lemma start_recv b rest o snd rcv cpl :
  (exists d, input_dest b = Some d) ->
  start_calls (mk_pbc o None snd rcv cpl) (Receiver_Recv (input_dest b) :: rest) =
    start_calls (mk_pbc o (input_dest b) snd rcv cpl) rest.
Proof. intros [d ->]; reflexivity. Qed.

Lemma start_send o rc rcv cpl p q : cb_rep (pb_buf o) (p :: q) ->
  start_calls (mk_pbc o rc None rcv cpl)
    [Sender_Send (output_dest (pb_buf o)) (output_avail (pb_buf o))] =
    Ok (mk_pbc o rc (Some p) rcv cpl).
Proof.
  intros Hr; destruct (rep_head _ _ _ Hr) as (d & -> & -> & Hm); cbn.
  rewrite Hm; done.
Qed.

Lemma start_calls_pb ks c c' : start_calls c ks = Ok c' -> pbc_pb c' = pbc_pb c.
Proof.
  revert c; induction ks as [|x ks IH]; intros c; cbn [start_calls]; [intros [= <-]; done|].
  destruct (start_call c x) as [c1|] eqn:E; [|done]; intros Hc; rewrite (IH c1 Hc).
  destruct x as [[d|]|[d|] n]; try done; unfold start_call in E; prog_simpl;
    (case_match; [|done]); [|destruct (mem_read _ _ _); [|done]]; injection E as <-; done.
Qed.

Lemma input_step c p : pb_inv c -> is_Some (pbc_recv c) -> Zlen p <= mtu ->
  exists c', input_completes c p = Ok c' /\ pb_inv c' /\
    pbc_received c' = pbc_received c ++ [p] /\ pbc_completed c' = pbc_completed c.
Proof.
  intros (q & Hr & Hm & Hbm & Hbs & Hrcv & Hq & Hrecv & Hsend) Hs Hp.
  destruct c as [[b im] rc sd rcv cpl]; cbn in *; subst im rc sd.
  destruct (Z.leb_spec mtu (input_avail b)) as [Ha|]; [|destruct Hs; done].
  destruct (rep_input b q Hr) as [d Hd]; [lia|].
  unfold input_completes; cbn [pbc_recv pbc_pb pb_buf pbc_send pbc_received pbc_completed]; rewrite Hd.
  rewrite (rep_mem_write b q) by (done || lia).
  destruct (Submit_eq b q d p Hr Hd) as (b' & Hsub & Hr' & Hm' & Hs'); [lia|].
  cbn [mbind res_bind]; set (b0 := b <| cb_buffer := _ |>) in *.
  change ((mk_pb b mtu) <| pb_buf ::= _ |>) with (mk_pb b0 mtu).
  unfold input_handler_done; prog_simpl; cbn [pb_buf pb_input_mtu].
  pose proof (Zlen_nonneg p); test_true (0 <=? Zlen p); test_true (Zlen p <=? mtu); cbv iota.
  rewrite (on_buf_eq _ _ _ _ _ Hsub); cbn [pb_buf pb_input_mtu].
  change (output_avail _ <? 0) with (output_avail b <? 0); rewrite (rep_output b q Hr).
  assert (forall rc sd, rc = (if mtu <=? input_avail b' then input_dest b' else None) ->
    sd = head (q ++ [p]) -> pb_inv (mk_pbc (mk_pb b' mtu) rc sd (rcv ++ [p]) cpl)) as Hinv.
  { intros rc sd -> ->; exists (q ++ [p]); cbn; split_and!; try done; try congruence.
    - rewrite Hrcv, app_assoc; done.
    - apply Forall_app; split; [done | apply list.Forall_singleton; done]. }
  assert (mtu <= input_avail b' -> exists d, input_dest b' = Some d) as Hdest.
  { intros; apply (rep_input b' _ Hr'); lia. }
  eexists; split; [|split; [eapply Hinv; reflexivity | split; reflexivity]].
  destruct (Z.leb_spec mtu (input_avail b')), q as [|p1 q]; cbn [bool_decide decide_rel app].
  - change (bool_decide ([] = [])) with true; cbv iota; cbn [app].
    rewrite start_recv by auto; apply (start_send (mk_pb b' mtu) _ _ _ p []); done.
  - rewrite bool_decide_eq_false_2 by done; cbn [app]; rewrite start_recv by auto; done.
  - rewrite bool_decide_eq_true_2 by done; cbn [app].
    apply (start_send (mk_pb b' mtu) _ _ _ p []); done.
  - rewrite bool_decide_eq_false_2 by done; done.
Qed.

Lemma output_step c p : pb_inv c -> pbc_send c = Some p ->
  exists c', output_completes c = Ok c' /\ pb_inv c' /\
    pbc_received c' = pbc_received c /\ pbc_completed c' = pbc_completed c ++ [p] /\
    cb_buffer (pb_buf (pbc_pb c')) = cb_buffer (pb_buf (pbc_pb c)).
Proof.
  intros (q & Hr & Hm & Hbm & Hbs & Hrcv & Hq & Hrecv & Hsend) Hs.
  destruct c as [[b im] rc sd rcv cpl]; cbn in *; subst im rc sd.
  destruct q as [|p1 q]; [done|]; injection Hs as ->; apply Forall_cons_1 in Hq as [Hp Hq].
  destruct (Consume_eq b p q Hr) as (b' & Hcons & Hr' & Hm' & Hs' & Hmem & Hkeep).
  unfold output_completes; cbn [pbc_recv pbc_pb pb_buf pbc_send pbc_received pbc_completed head].
  unfold output_handler_done; prog_simpl; cbn [pb_buf pb_input_mtu].
  rewrite (on_buf_eq _ _ _ _ _ Hcons); cbn [pb_buf pb_input_mtu].
  assert (forall rc sd, rc = (if mtu <=? input_avail b' then input_dest b' else None) ->
    sd = head q -> pb_inv (mk_pbc (mk_pb b' mtu) rc sd rcv (cpl ++ [p]))) as Hinv.
  { intros rc sd -> ->; exists q; cbn; split_and!; try done; try congruence.
    rewrite Hrcv, <- app_assoc; done. }
  assert (mtu <= input_avail b' -> exists d, input_dest b' = Some d) as Hdest.
  { intros; apply (rep_input b' _ Hr'); lia. }
  eexists; split; [|split; [eapply Hinv; reflexivity | split; [reflexivity | split; [reflexivity | exact Hmem]]]].
  assert ((0 <=? output_avail b') = negb (bool_decide (q = []))) as ->.
  { rewrite <- (rep_output b' q Hr'); apply Z.leb_antisym. }
  destruct (Z.ltb_spec (input_avail b) mtu); cbn [andb].
  - test_false (mtu <=? input_avail b); destruct (Z.leb_spec mtu (input_avail b')), q as [|p2 q].
    + rewrite bool_decide_eq_true_2 by done; cbn [negb app]; rewrite start_recv by auto; done.
    + rewrite bool_decide_eq_false_2 by done; cbn [negb app]; rewrite start_recv by auto.
      apply (start_send (mk_pb b' mtu) _ _ _ p2 q); done.
    + done.
    + rewrite bool_decide_eq_false_2 by done; cbn [negb app].
      apply (start_send (mk_pb b' mtu) _ _ _ p2 q); done.
  - test_true (mtu <=? input_avail b); destruct (rep_input b _ Hr) as [d Hd]; [lia|].
    destruct Hkeep as [Hd' Ha']; [congruence|]; rewrite <- Hd'.
    test_true (mtu <=? input_avail b'); destruct q as [|p2 q]; [done|].
    rewrite bool_decide_eq_false_2 by done; cbn [negb app].
    apply (start_send (mk_pb b' mtu) _ _ _ p2 q); done.
Qed.

(** The state after [PacketBuffer_Init] with the memory it allocated, whose receive is
    under way. *)
Definition pb_started (out_mtu : Z) (m : list Z) (o : PacketBuffer) (c : pb_cfg) : Prop :=
  exists o' calls,
    PacketBuffer_Init mtu out_mtu num (fun _ => Some m) o = Ok (true, o', calls) /\
    start_calls (mk_pbc o' None None [] []) calls = Ok c.

Lemma init_step out_mtu m o : mtu <= out_mtu ->
  0 < ChunkBuffer2_calc_blocks mtu num -> 4 * ChunkBuffer2_calc_blocks mtu num <= INT_MAX ->
  Zlen m = 4 * ChunkBuffer2_calc_blocks mtu num ->
  exists c, pb_started out_mtu m o c /\ pb_inv c.
Proof.
  intros Ho Hpos Hmax HL; destruct o as [b0 im].
  destruct (calc_blocks_eq mtu num _ Hmtu Hnum eq_refl) as [Hbl _]; [lia|].
  assert (0 <= bdivide_up mtu sizeof_block).
  { unfold sizeof_block; rewrite bdivide_up_spec by lia; lia_div. }
  destruct (cb_Init_eq b0 m (ChunkBuffer2_calc_blocks mtu num) mtu) as (b & Hi & Hr & Hm & Hs);
    [lia | nia | lia | lia |].
  destruct (rep_capacity b [] mtu num Hmtu Hnum Hr Hm Hs) as [Hd Ha];
    [constructor | change (Zlen []) with 0; lia |].
  destruct (input_dest b) as [d|] eqn:Ed; [|done].
  exists (mk_pbc (mk_pb b mtu) (Some d) None [] []); split.
  - unfold pb_started, PacketBuffer_Init; prog_simpl.
    test_true (mtu <=? out_mtu); test_true (0 <? num); cbv iota.
    test_false (ChunkBuffer2_calc_blocks mtu num <? 0); cbv iota.
    change ((mk_pb b0 im) <| pb_input_mtu := mtu |>) with (mk_pb b0 mtu).
    rewrite (on_buf_eq _ _ _ _ _ Hi); cbn [pb_buf]; rewrite Ed.
    eexists _, _; split; [done|]; done.
  - exists []; cbn; split_and!; try done; test_true (mtu <=? input_avail b); done.
Qed.

Lemma pb_inv_reachable out_mtu m o c0 c : mtu <= out_mtu ->
  0 < ChunkBuffer2_calc_blocks mtu num -> 4 * ChunkBuffer2_calc_blocks mtu num <= INT_MAX ->
  Zlen m = 4 * ChunkBuffer2_calc_blocks mtu num ->
  pb_started out_mtu m o c0 -> star pb_step c0 c -> pb_inv c.
Proof.
  intros Ho Hpos Hmax HL Hst Hs.
  destruct (init_step out_mtu m o Ho Hpos Hmax HL) as (c1 & (o' & ks & H1 & H2) & Hinv).
  destruct Hst as (o2 & ks2 & H3 & H4); rewrite H1 in H3; injection H3 as <- <-.
  rewrite H2 in H4; injection H4 as <-.
  refine (star_invariant pb_step pb_inv _ _ _ Hs Hinv); intros a a' Ha [p c' Hr Hp Hc|c' [p Hp] Hc].
  - destruct Ha as (q & Hr' & Hm' & Hrest); rewrite Hm' in Hp.
    assert (pb_inv a) as Ha' by (exists q; done).
    destruct (input_step a p Ha' Hr Hp) as (c2 & H5 & H6 & _); congruence.
  - destruct (output_step a p Ha Hp) as (c2 & H5 & H6 & _); congruence.
Qed.
End proofs.

(** Between an input and an output that complete their operations in any order and at any
    time, the buffer hands every packet it receives to the output, in order; no assertion
    fails, no operation is started on a side that has one under way, and no memory outside
    the buffer is touched. It never stops: a receive is under way while fewer than
    [num_packets] packets wait, and a send while any does. *)
Theorem PacketBuffer_fifo `{Arch} mtu num out_mtu m o c0 c :
  0 <= mtu <= out_mtu -> 0 < num ->
  0 < ChunkBuffer2_calc_blocks mtu num -> 4 * ChunkBuffer2_calc_blocks mtu num <= INT_MAX ->
  Zlen m = 4 * ChunkBuffer2_calc_blocks mtu num ->
  pb_started mtu num out_mtu m o c0 -> star pb_step c0 c ->
  exists waiting, pbc_received c = pbc_completed c ++ waiting /\
    pbc_send c = head waiting /\ (Zlen waiting < num -> is_Some (pbc_recv c)) /\
    (forall p, is_Some (pbc_recv c) -> Zlen p <= mtu ->
       exists c', input_completes c p = Ok c' /\ pbc_received c' = pbc_received c ++ [p] /\
         pbc_completed c' = pbc_completed c) /\
    (forall p, pbc_send c = Some p ->
       exists c', output_completes c = Ok c' /\ pbc_received c' = pbc_received c /\
         pbc_completed c' = pbc_completed c ++ [p]).
Proof.
  intros [Hm Ho] Hn Hpos Hmax HL Hst Hs.
  pose proof (pb_inv_reachable mtu num Hm Hn out_mtu m o c0 c Ho Hpos Hmax HL Hst Hs) as Hinv.
  pose proof Hinv as (q & Hr & Hmt & Hbm & Hbs & Hrcv & Hq & Hrecv & Hsend).
  exists q; split; [done|]; split; [done|]; split; [|split].
  - intros Hlt; destruct (rep_capacity _ q mtu num Hm Hn Hr Hbm Hbs Hq Hlt) as [Hd Ha].
    rewrite Hrecv; test_true (mtu <=? input_avail (pb_buf (pbc_pb c))).
    destruct (input_dest _); [eauto | done].
  - intros p Hp HLp; destruct (input_step mtu num Hm c p Hinv Hp HLp) as (c' & ? & _ & ? & ?); eauto.
  - intros p Hp; destruct (output_step mtu num Hm c p Hinv Hp) as (c' & ? & _ & ? & ? & _); eauto.
Qed.

Definition pb_blank : PacketBuffer := mk_pb cb_blank 0.

(** Two packets of at most 7 bytes: 9 blocks. *)
Lemma PacketBuffer_fifo_witness : exists c0 c', @pb_started arm64 7 2 7 (replicate 36 0) pb_blank c0 /\
  @input_completes arm64 c0 [1; 2] = Ok c' /\ pbc_received c' = [[1; 2]].
Proof.
  destruct (@init_step arm64 7 2 ltac:(lia) ltac:(lia) 7 (replicate 36 0) pb_blank) as (c0 & Hs & Hi);
    [lia | vm_compute; first [reflexivity | discriminate]..|].
  destruct (@PacketBuffer_fifo arm64 7 2 7 (replicate 36 0) pb_blank c0 c0)
    as (w & Hw & Hsend & Hrecv & Hin & _);
    [lia | lia | vm_compute; first [reflexivity | discriminate].. | exact Hs | constructor |].
  destruct Hs as (o' & ks & H1 & H2); vm_compute in H1; injection H1 as <- <-.
  vm_compute in H2; injection H2 as <-.
  eexists; destruct (Hin [1; 2]) as (c' & Hc & Hrec & _); [eexists; reflexivity | vm_compute; discriminate |].
  exists c'; split; [|split; [exact Hc | exact Hrec]].
  eexists _, _; split; vm_compute; reflexivity.
Defined.
