(* ===== verification/FlowComponents.v ===== *)
(** The objects of flow/ and flowextra/ that stand between two interfaces. Each is modelled
    together with the interface machines at its two sides, so that the theorems cover whole
    operations: the users, providers and the job queue around it act in any order the
    contracts of FlowIface allow. *)

From S2P Require Import Prelude FlowIface.

(** * flowextra/PacketPassInactivityMonitor.c *)

Module Monitor.
(** The timer is the flag that it is set; [handler_set] is [o->handler]. *)
Record t := mk { timer : bool; handler_set : bool; input : PPI.t; output : PPI.t }.
#[global] Instance t_eta : Eta t := fun o => mk (timer o) (handler_set o) (input o) (output o).

(** Calls that leave the object: to its user, and to the provider of the output. *)
Inductive call :=
| UserDone
| OutputOperation (data : option (list Z)) (len : Z)
| OutputRequestCancel
| Handler.
Definition mp := prog t call.

Definition put_in (i : PPI.t) (o : t) : t := o <| input := i |>.
Definition put_out (i : PPI.t) (o : t) : t := o <| output := i |>.

(** Calls of the interfaces' functions, which call no handler. *)
Definition on_input (m : PPI.pp unit) : mp unit := run_on input put_in m (fun _ => passert false).
Definition on_output (m : PPI.pp unit) : mp unit := run_on output put_out m (fun _ => passert false).

Definition BReactor_SetTimer : mp unit := pmod (fun o => o <| timer := true |>).
Definition BReactor_RemoveTimer : mp unit := pmod (fun o => o <| timer := false |>).

Definition input_handler_send (data : option (list Z)) (data_len : Z) : mp unit :=
  on_output (PPI.Sender_Send data data_len);;
  BReactor_RemoveTimer.
Definition input_handler_requestcancel : mp unit := on_output PPI.Sender_RequestCancel.
Definition output_handler_done : mp unit :=
  BReactor_SetTimer;;
  on_input PPI.Done.
(** The reactor unsets a timer before calling its handler. *)
Definition timer_handler : mp unit :=
  BReactor_RemoveTimer;;
  BReactor_SetTimer;;
  o ← pget;
  if handler_set o then pcall Handler else pskip.
(** The output is set up by its provider before. *)
Definition PacketPassInactivityMonitor_Init (h : bool) : mp unit :=
  pmod (fun o => o <| handler_set := h |>);;
  o ← pget;
  on_input (PPI.Init (PPI.mtu (output o)));;
  (if PPI.has_requestcancel (output o) then on_input PPI.EnableCancel else pskip);;
  on_output PPI.Sender_Init;;
  BReactor_SetTimer.
Definition PacketPassInactivityMonitor_Free : mp unit := BReactor_RemoveTimer.
Definition PacketPassInactivityMonitor_SetHandler (h : bool) : mp unit :=
  pmod (fun o => o <| handler_set := h |>).
(** Sets the timer to expire at once. *)
Definition PacketPassInactivityMonitor_Force : mp unit := BReactor_SetTimer.

(** The jobs of the two interfaces call the handlers above. *)
Definition dispatch_in (c : PPI.call) : mp unit :=
  match c with
  | PPI.HandlerOperation d n => input_handler_send d n
  | PPI.HandlerRequestCancel => input_handler_requestcancel
  | PPI.HandlerDone => pcall UserDone
  end.
Definition dispatch_out (c : PPI.call) : mp unit :=
  match c with
  | PPI.HandlerOperation d n => pcall (OutputOperation d n)
  | PPI.HandlerRequestCancel => pcall OutputRequestCancel
  | PPI.HandlerDone => output_handler_done
  end.

Inductive event := In (e : PPI.event) | Out (e : PPI.event) | Expire | SetHandler (h : bool) | Force.

Record ghost := mk_ghost { hin : history; hout : history }.

(** The user acts on the input and the provider on the output; the object itself completes
    on the input and sends on the output. *)
Definition enabled (e : event) (o : t) (g : ghost) : Prop :=
  match e with
  | In e => PPI.enabled e (input o) (hin g) /\ e <> PPI.EDone
  | Out e => PPI.enabled e (output o) (hout g) /\
      (forall d, e <> PPI.ESend d) /\ e <> PPI.ERequestCancel
  | Expire => timer o = true
  | SetHandler _ | Force => True
  end.
Definition handle (e : event) : mp unit :=
  match e with
  | In e => run_on input put_in (PPI.handle e) dispatch_in
  | Out e => run_on output put_out (PPI.handle e) dispatch_out
  | Expire => timer_handler
  | SetHandler h => PacketPassInactivityMonitor_SetHandler h
  | Force => PacketPassInactivityMonitor_Force
  end.
Definition count (e : event) (g : ghost) : ghost :=
  match e with
  | In PPI.EOperation => mk_ghost (PPI.count PPI.EOperation (hin g)) (PPI.count (PPI.ESend []) (hout g))
  | In e => mk_ghost (PPI.count e (hin g)) (hout g)
  | Out PPI.ECompleted => mk_ghost (PPI.count PPI.EDone (hin g)) (PPI.count PPI.ECompleted (hout g))
  | Out e => mk_ghost (hin g) (PPI.count e (hout g))
  | _ => g
  end.
Inductive step : t * ghost -> t * ghost -> Prop :=
| step_intro e o g o' calls : enabled e o g -> handle e o = Ok (tt, o', calls) ->
    step (o, g) (o', count e g).

(** The input has an operation at the monitor exactly while the output has one under way;
    while the output is idle the timer runs. *)
Definition inv (o : t) (g : ghost) : Prop :=
  PPI.inv (input o) (hin g) /\ PPI.inv (output o) (hout g) /\
  PPI.mtu (output o) = PPI.mtu (input o) /\
  PPI.has_requestcancel (output o) = PPI.has_requestcancel (input o) /\
  h_received (hin g) - h_finished (hin g) = h_started (hout g) - h_completed (hout g) /\
  (user_idle (hout g) -> timer o = true).

Ltac counts :=
  unfold put_in, put_out, user_idle, provider_busy in *; cbv beta iota delta [update]; cbn in *;
  first [congruence | lia | intros; first [done | lia | match goal with H : _ -> _ = true |- _ => apply H; lia end]].

Lemma mon_inv_step e o g : inv o g -> enabled e o g ->
  exists o' calls, handle e o = Ok (tt, o', calls) /\ inv o' (count e g).
Proof.
  intros (Hi & Ho & Hm & Hc & Heq & Ht) He; destruct o as [tm hs i u], g as [h k].
  cbn [input output timer hin hout] in *.
  destruct (PPI.ppi_inv_counts _ _ Hi) as (Hi1 & Hi2 & Hi3), (PPI.ppi_inv_counts _ _ Ho) as (Ho1 & Ho2 & Ho3).
  unfold provider_busy, user_idle in *; destruct e as [e|e| |x|]; cbn [enabled] in He.
  - destruct He as [He Hne]; destruct (PPI.ppi_inv_step e i h Hi He) as (i' & Hr & Hi' & Hm' & Hc').
    destruct e as [d| | | | |]; try done; cbn [PPI.calls_of] in Hr; cbn [PPI.enabled] in He.
    + eexists _, _; split; [apply run_on_nil; exact Hr|].
      refine (conj Hi' (conj Ho (conj _ (conj _ (conj _ _))))); counts.
    + eexists _, _; split; [apply run_on_nil; exact Hr|].
      refine (conj Hi' (conj Ho (conj _ (conj _ (conj _ _))))); counts.
    + destruct (PPI.inv_operation i h Hi He) as (d & Hd & Hl & HL & ? & ?); rewrite Hd, Hl in Hr.
      destruct (PPI.ppi_inv_step (PPI.ESend d) u k Ho) as (u' & Hs & Ho' & Hmu & Hcu);
        [split; [unfold user_idle; lia | congruence]|].
      eexists _, _; split.
      * cbn [handle]; erewrite run_on_one by exact Hr; cbn [dispatch_in].
        unfold input_handler_send, on_output, BReactor_RemoveTimer, mbind, prog_bind, pmod.
        erewrite run_on_nil by exact Hs; reflexivity.
      * refine (conj Hi' (conj Ho' (conj _ (conj _ (conj _ _))))); counts.
    + destruct (PPI.inv_cancel i h Hi He) as [Hb Hrc].
      destruct (PPI.ppi_inv_step PPI.ERequestCancel u k Ho) as (u' & Hs & Ho' & Hmu & Hcu);
        [split; [unfold user_idle, provider_busy in *; lia | congruence]|].
      eexists _, _; split.
      * cbn [handle]; erewrite run_on_one by exact Hr; cbn [dispatch_in].
        apply run_on_nil; exact Hs.
      * refine (conj Hi' (conj Ho' (conj _ (conj _ (conj _ _))))); counts.
    + eexists _, _; split; [cbn [handle]; erewrite run_on_one by exact Hr; reflexivity|].
      refine (conj Hi' (conj Ho (conj _ (conj _ (conj _ _))))); counts.
  - destruct He as (He & Hne1 & Hne2); destruct (PPI.ppi_inv_step e u k Ho He) as (u' & Hr & Ho' & Hm' & Hc').
    destruct e as [d| | | | |]; [destruct (Hne1 d); done | done | ..];
      cbn [PPI.calls_of] in Hr; cbn [PPI.enabled] in He.
    + eexists _, _; split; [apply run_on_nil; exact Hr|].
      refine (conj Hi (conj Ho' (conj _ (conj _ (conj _ _))))); counts.
    + eexists _, _; split; [cbn [handle]; erewrite run_on_one by exact Hr; reflexivity|].
      refine (conj Hi (conj Ho' (conj _ (conj _ (conj _ _))))); counts.
    + eexists _, _; split; [cbn [handle]; erewrite run_on_one by exact Hr; reflexivity|].
      refine (conj Hi (conj Ho' (conj _ (conj _ (conj _ _))))); counts.
    + destruct (PPI.ppi_inv_completed u k Ho He) as [? ?].
      destruct (PPI.ppi_inv_step PPI.EDone i h Hi) as (i' & Hs & Hi' & Hmi & Hci);
        [unfold PPI.enabled, provider_busy; lia|].
      eexists _, _; split.
      * cbn [handle]; erewrite run_on_one by exact Hr; cbn [dispatch_out].
        unfold output_handler_done, on_input, BReactor_SetTimer, mbind, prog_bind, pmod.
        erewrite run_on_nil by exact Hs; reflexivity.
      * refine (conj Hi' (conj Ho' (conj _ (conj _ (conj _ _))))); counts.
  - eexists _, _; split; [cbn [handle]; unfold timer_handler, BReactor_RemoveTimer, BReactor_SetTimer;
      prog_simpl; instantiate (1 := if hs then [Handler] else []); destruct hs; reflexivity|].
    refine (conj Hi (conj Ho (conj _ (conj _ (conj _ _))))); counts.
  - eexists _, _; split; [reflexivity|].
    refine (conj Hi (conj Ho (conj _ (conj _ (conj _ _))))); counts.
  - eexists _, _; split; [reflexivity|].
    refine (conj Hi (conj Ho (conj _ (conj _ (conj _ _))))); counts.
Qed.

Lemma init_eq hs o : PPI.fresh (output o) -> PPI.cancel_requested (input o) = false ->
  exists o0 i0, PacketPassInactivityMonitor_Init hs o = Ok (tt, o0, []) /\
    PPI.Sender_Init (input o0) = Ok (tt, i0, []) /\ inv (put_in i0 o0) (mk_ghost h0 h0).
Proof.
  intros (Hm & Hd & Hs & Hjo & Hjc & Hjd) Hc; destruct o as [tm hs0 i u].
  cbn [output input] in *; unfold PacketPassInactivityMonitor_Init, BReactor_SetTimer.
  set (i1 := PPI.mk (PPI.mtu u) false false false (PPI.job_operation_data i)
               (PPI.job_operation_len i) false false ST_NONE (PPI.cancel_requested i)).
  set (i2 := if PPI.has_requestcancel u then i1 <| PPI.has_requestcancel := true |> else i1).
  assert ((if PPI.has_requestcancel u then on_input PPI.EnableCancel else pskip) (mk tm hs i1 u) =
    Ok (tt, mk tm hs i2 u, [])) as H2.
  { unfold i2, on_input; destruct (PPI.has_requestcancel u); [|done].
    erewrite run_on_nil by (apply PPI.EnableCancel_eq; done); done. }
  assert (PPI.has_done i2 = false) as Hd2 by (unfold i2; destruct (PPI.has_requestcancel u); done).
  set (u2 := u <| PPI.has_done := true |>).
  exists (mk true hs i2 u2), (i2 <| PPI.has_done := true |>); split; [|split].
  - unfold mbind, prog_bind, pget, pmod; change ((mk tm hs0 i u) <| handler_set := hs |>) with (mk tm hs i u).
    cbn [output input]; unfold on_input at 1; rewrite (run_on_nil _ _ _ _ (mk tm hs i u) i1)
      by (apply PPI.ppi_Init_eq; done).
    change (put_in i1 (mk tm hs i u)) with (mk tm hs i1 u); unfold mbind, prog_bind in H2.
    rewrite H2; unfold on_output; rewrite (run_on_nil _ _ _ _ (mk tm hs i2 u) u2)
      by (apply PPI.ppi_Sender_Init_eq; done); done.
  - apply PPI.ppi_Sender_Init_eq; done.
  - assert (PPI.has_requestcancel i2 = PPI.has_requestcancel u) as Hrc.
    { unfold i2; destruct (PPI.has_requestcancel u); done. }
    assert (PPI.inv (i2 <| PPI.has_done := true |>) h0 /\ PPI.mtu i2 = PPI.mtu u) as [Hi Hmi].
    { unfold i2; destruct (PPI.has_requestcancel u); (split; [|done]);
        (split; [done|]); (split; [cbn; intros; done|]); unfold user_idle; cbn; done. }
    refine (conj Hi (conj _ (conj (eq_sym Hmi) (conj (eq_sym Hrc) (conj eq_refl _))))); [|done].
    change (PPI.inv u2 h0); split; [done|]; split.
    + intros _ Hcr; destruct Hcr; done.
    + change (PPI.state u2) with (PPI.state u); rewrite Hs; split_and!; done.
Qed.

Lemma mon_inv_reachable o g o' g' : inv o g -> star step (o, g) (o', g') -> inv o' g'.
Proof.
  intros Hi Hs; refine (star_invariant step (fun x => inv (fst x) (snd x)) _ _ _ Hs Hi).
  intros [a ga] [b gb] Ha Hab; inversion Hab; subst; cbn in *.
  destruct (mon_inv_step e a ga) as (b' & calls' & Hb & Hinv'); [done..|]; congruence.
Qed.

(** A layer that only watches: initialised over an output, with users on both sides keeping
    to the interfaces' contracts, it fails no assertion, and neither do the interfaces;
    operations and cancellations pass through one to one, and the inactivity timer runs
    whenever the output is idle. *)
Theorem PacketPassInactivityMonitor_transparent hs o : PPI.fresh (output o) ->
  PPI.cancel_requested (input o) = false ->
  exists o0 i0, PacketPassInactivityMonitor_Init hs o = Ok (tt, o0, []) /\
    PPI.Sender_Init (input o0) = Ok (tt, i0, []) /\
    forall o' g', star step (put_in i0 o0, mk_ghost h0 h0) (o', g') ->
      (forall e, enabled e o' g' -> is_ok (handle e o')) /\
      (provider_busy (hin g') <-> ~ user_idle (hout g')) /\
      (user_idle (hout g') -> timer o' = true).
Proof.
  intros Hf Hc; destruct (init_eq hs o Hf Hc) as (o0 & i0 & H0 & Hi0 & Hinv).
  exists o0, i0; split; [done|]; split; [done|]; intros o' g' Hs.
  pose proof (mon_inv_reachable _ _ _ _ Hinv Hs) as Hinv'; split; [|split].
  - intros e He; destruct (mon_inv_step e o' g' Hinv' He) as (o2 & calls & H2 & _); eexists; done.
  - destruct Hinv' as (Hi & Ho & _ & _ & Heq & _); pose proof (PPI.ppi_inv_counts _ _ Hi);
      pose proof (PPI.ppi_inv_counts _ _ Ho); unfold user_idle, provider_busy in *; lia.
  - apply Hinv'.
Qed.

Definition sample_iface : PPI.t := PPI.mk 1500 true false false None 0 false false ST_NONE false.

Lemma PacketPassInactivityMonitor_transparent_witness : exists o0 i0,
  PacketPassInactivityMonitor_Init true (mk false false sample_iface sample_iface) = Ok (tt, o0, []) /\
  PPI.Sender_Init (input o0) = Ok (tt, i0, []) /\
  is_ok (handle (In (PPI.ESend [1; 2; 3])) (put_in i0 o0)).
Proof.
  destruct (PacketPassInactivityMonitor_transparent true (mk false false sample_iface sample_iface))
    as (o0 & i0 & H1 & H2 & H3); [split_and!; done | reflexivity |].
  exists o0, i0; split; [exact H1|]; split; [exact H2|].
  destruct (H3 _ _ (star_refl _ _)) as [H4 _]; apply H4.
  vm_compute in H1; injection H1 as <-; vm_compute in H2; injection H2 as <-.
  split; [split; [reflexivity | vm_compute; discriminate] | discriminate].
Defined.
End Monitor.

(** * flow/PacketPassConnector.c *)

Module Connector.
Record t := mk { input : PPI.t; input_mtu : Z; in_len : Z; in_data : option (list Z);
                 output : option PPI.t }.
#[global] Instance t_eta : Eta t := fun o =>
  mk (input o) (input_mtu o) (in_len o) (in_data o) (output o).

Inductive call :=
| UserDone
| OutputOperation (data : option (list Z)) (len : Z)
| OutputRequestCancel.
Definition cp := prog t call.

Definition put_in (i : PPI.t) (o : t) : t := mk i (input_mtu o) (in_len o) (in_data o) (output o).
Definition put_out (u : PPI.t) (o : t) : t :=
  mk (input o) (input_mtu o) (in_len o) (in_data o) (Some u).

Definition on_input (m : PPI.pp unit) : cp unit := run_on input put_in m (fun _ => passert false).
(** A function of the connected output; there is no object to call without one. *)
Definition run_output (m : PPI.pp unit) (f : PPI.call -> cp unit) : cp unit := fun o =>
  match output o with
  | Some u => run_on (fun _ => u) put_out m f o
  | None => Err OutOfBounds
  end.
Definition on_output (m : PPI.pp unit) : cp unit := run_output m (fun _ => passert false).
Definition is_connected (o : t) : bool := match output o with Some _ => true | None => false end.

Definition input_handler_send (data : option (list Z)) (data_len : Z) : cp unit :=
  o ← pget;
  passert (0 <=? data_len);;
  passert (data_len <=? input_mtu o);;
  passert (in_len o =? -1);;
  pmod (fun o => o <| in_len := data_len |> <| in_data := data |>);;
  if is_connected o then on_output (PPI.Sender_Send data data_len) else pskip.
Definition output_handler_done : cp unit :=
  o ← pget;
  passert (0 <=? in_len o);;
  passert (is_connected o);;
  pmod (fun o => o <| in_len := -1 |>);;
  on_input PPI.Done.
Definition PacketPassConnector_ConnectOutput (u : PPI.t) : cp unit :=
  o ← pget;
  passert (negb (is_connected o));;
  passert (input_mtu o <=? PPI.mtu u);;
  pmod (fun o => o <| output := Some u |>);;
  on_output PPI.Sender_Init;;
  o ← pget;
  if 0 <=? in_len o then on_output (PPI.Sender_Send (in_data o) (in_len o)) else pskip.
Definition PacketPassConnector_DisconnectOutput : cp unit :=
  o ← pget;
  passert (is_connected o);;
  pmod (fun o => o <| output := None |>).

Definition dispatch_in (c : PPI.call) : cp unit :=
  match c with
  | PPI.HandlerOperation d n => input_handler_send d n
  | PPI.HandlerRequestCancel => passert false (* the input has no cancel handler *)
  | PPI.HandlerDone => pcall UserDone
  end.
Definition dispatch_out (c : PPI.call) : cp unit :=
  match c with
  | PPI.HandlerOperation d n => pcall (OutputOperation d n)
  | PPI.HandlerRequestCancel => pcall OutputRequestCancel
  | PPI.HandlerDone => output_handler_done
  end.

Inductive event := In (e : PPI.event) | Out (e : PPI.event) | Connect (u : PPI.t) | Disconnect.

(** The history of the current output starts when it is connected. *)
Record ghost := mk_ghost { hin : history; hout : history }.

Definition enabled (e : event) (o : t) (g : ghost) : Prop :=
  match e with
  | In e => PPI.enabled e (input o) (hin g) /\ e <> PPI.EDone
  | Out e => match output o with
             | Some u => PPI.enabled e u (hout g) /\ (forall d, e <> PPI.ESend d) /\
                         e <> PPI.ERequestCancel
             | None => False
             end
  | Connect u => output o = None /\ PPI.fresh u /\ input_mtu o <= PPI.mtu u
  | Disconnect => output o <> None
  end.
Definition handle (e : event) : cp unit :=
  match e with
  | In e => run_on input put_in (PPI.handle e) dispatch_in
  | Out e => run_output (PPI.handle e) dispatch_out
  | Connect u => PacketPassConnector_ConnectOutput u
  | Disconnect => PacketPassConnector_DisconnectOutput
  end.
Definition count (e : event) (o : t) (g : ghost) : ghost :=
  match e with
  | In PPI.EOperation => mk_ghost (PPI.count PPI.EOperation (hin g))
      (if is_connected o then PPI.count (PPI.ESend []) (hout g) else hout g)
  | In e => mk_ghost (PPI.count e (hin g)) (hout g)
  | Out PPI.ECompleted => mk_ghost (PPI.count PPI.EDone (hin g)) (PPI.count PPI.ECompleted (hout g))
  | Out e => mk_ghost (hin g) (PPI.count e (hout g))
  | Connect _ => mk_ghost (hin g) (if 0 <=? in_len o then PPI.count (PPI.ESend []) h0 else h0)
  | Disconnect => g
  end.
Inductive step : t * ghost -> t * ghost -> Prop :=
| step_intro e o g o' calls : enabled e o g -> handle e o = Ok (tt, o', calls) ->
    step (o, g) (o', count e o g).

(** The connector holds a packet exactly while the input has an operation at it, and a
    connected output has an operation under way, with that packet, exactly then too. *)
Definition inv (o : t) (g : ghost) : Prop :=
  PPI.inv (input o) (hin g) /\ PPI.has_requestcancel (input o) = false /\
  PPI.mtu (input o) = input_mtu o /\
  (h_received (hin g) = h_finished (hin g) /\ in_len o = -1 \/
   provider_busy (hin g) /\ exists d, in_data o = Some d /\ in_len o = Zlen d /\ Zlen d <= input_mtu o) /\
  match output o with
  | None => True
  | Some u => PPI.inv u (hout g) /\ input_mtu o <= PPI.mtu u /\
      h_received (hin g) - h_finished (hin g) = h_started (hout g) - h_completed (hout g) /\
      (PPI.job_operation u = true ->
         PPI.job_operation_data u = in_data o /\ PPI.job_operation_len u = in_len o)
  end.

Ltac counts :=
  unfold put_in, put_out, user_idle, provider_busy in *; cbv beta iota delta [update]; cbn in *;
  first [congruence | lia].











End Connector.


(** * flow/PacketStreamSender.c *)

Module StreamSender.
(** [in_data] is the packet at [s->in]; a pointer into it is an offset. *)
Record t := mk { input : PPI.t; output : SPI.t; in_len : Z; in_data : list Z; in_used : Z }.
#[global] Instance t_eta : Eta t := fun o =>
  mk (input o) (output o) (in_len o) (in_data o) (in_used o).

Inductive call := UserDone | OutputOperation (off : option Z) (len : Z).
Definition sp := prog t call.

Definition put_in (i : PPI.t) (o : t) : t := mk i (output o) (in_len o) (in_data o) (in_used o).
Definition put_out (u : SPI.t) (o : t) : t := mk (input o) u (in_len o) (in_data o) (in_used o).
Definition on_input (m : PPI.pp unit) : sp unit := run_on input put_in m (fun _ => passert false).
Definition on_output (m : SPI.sp unit) : sp unit := run_on output put_out m (fun _ => passert false).

Definition send_data : sp unit :=
  s ← pget;
  passert (0 <=? in_len s);;
  if in_used s <? in_len s then
    on_output (SPI.Sender_Send (Some (in_used s)) (in_len s - in_used s))
  else
    pmod (fun s => s <| in_len := -1 |>);;
    on_input PPI.Done.
Definition input_handler_send (data : list Z) (data_len : Z) : sp unit :=
  s ← pget;
  passert (in_len s =? -1);;
  passert (0 <=? data_len);;
  pmod (fun s => s <| in_len := data_len |> <| in_data := data |> <| in_used := 0 |>);;
  send_data.
Definition output_handler_done (data_len : Z) : sp unit :=
  s ← pget;
  passert (0 <=? in_len s);;
  passert (0 <? data_len);;
  passert (data_len <=? in_len s - in_used s);;
  pmod (fun s => s <| in_used ::= Z.add data_len |>);;
  send_data.
Definition PacketStreamSender_Init (mtu : Z) : sp unit :=
  passert (0 <=? mtu);;
  on_input (PPI.Init mtu);;
  on_output SPI.Sender_Init;;
  pmod (fun s => s <| in_len := -1 |>).

Definition dispatch_in (c : PPI.call) : sp unit :=
  match c with
  | PPI.HandlerOperation (Some d) n => input_handler_send d n
  | PPI.HandlerOperation None n => input_handler_send [] n
  | PPI.HandlerRequestCancel => passert false (* the input has no cancel handler *)
  | PPI.HandlerDone => pcall UserDone
  end.
Definition dispatch_out (c : SPI.call) : sp unit :=
  match c with
  | SPI.HandlerOperation d n => pcall (OutputOperation d n)
  | SPI.HandlerDone n => output_handler_done n
  end.

Inductive event := In (e : PPI.event) | Out (e : SPI.event).

(** What the sender was given, and what its output has transmitted: the bytes at the place
    it was told, as many as it reports. *)
Record ghost := mk_ghost {
  hin : history; hout : history; accepted : list (list Z); transmitted : list Z }.

Definition enabled (e : event) (o : t) (g : ghost) : Prop :=
  match e with
  | In e => PPI.enabled e (input o) (hin g) /\ e <> PPI.EDone
  | Out e => SPI.enabled e (output o) (hout g) /\ (forall d n, e <> SPI.ESend d n)
  end.
Definition handle (e : event) : sp unit :=
  match e with
  | In e => run_on input put_in (PPI.handle e) dispatch_in
  | Out e => run_on output put_out (SPI.handle e) dispatch_out
  end.
Definition op_bytes (o : t) (n : Z) : list Z :=
  slice (default 0 (SPI.job_operation_data (output o))) n (in_data o).
(** [o'] is the state after the event: the object has completed the packet on its input if
    it holds none, and has sent on its output if it does. *)
Definition count (e : event) (o o' : t) (g : ghost) : ghost :=
  let finish h := if in_len o' =? -1 then PPI.count PPI.EDone h else h in
  let resume h := if in_len o' =? -1 then h else SPI.count (SPI.ESend 0 0) h in
  match e with
  | In PPI.EOperation =>
      mk_ghost (finish (PPI.count PPI.EOperation (hin g))) (resume (hout g))
        (accepted g ++ [default [] (PPI.job_operation_data (input o))]) (transmitted g)
  | In e => mk_ghost (PPI.count e (hin g)) (hout g) (accepted g) (transmitted g)
  | Out SPI.ECompleted =>
      mk_ghost (finish (hin g)) (resume (SPI.count SPI.ECompleted (hout g)))
        (accepted g) (transmitted g)
  | Out (SPI.EDone n) =>
      mk_ghost (hin g) (SPI.count (SPI.EDone n) (hout g)) (accepted g)
        (transmitted g ++ op_bytes o n)
  | Out e => mk_ghost (hin g) (SPI.count e (hout g)) (accepted g) (transmitted g)
  end.
Inductive step : t * ghost -> t * ghost -> Prop :=
| step_intro e o g o' calls : enabled e o g -> handle e o = Ok (tt, o', calls) ->
    step (o, g) (o', count e o o' g).

(** The bytes of the packet in hand that have been transmitted: those completed before, and
    those of an operation that is done but not yet reported. *)
Definition progress (o : t) : Z :=
  in_used o + if SPI.job_done (output o) then SPI.job_done_len (output o) else 0.

Definition holding (o : t) (g : ghost) : Prop :=
  provider_busy (hin g) /\ h_started (hout g) = h_completed (hout g) + 1 /\
  0 <= in_used o < in_len o /\ in_len o = Zlen (in_data o) /\
  SPI.job_operation_data (output o) = Some (in_used o) /\
  SPI.job_operation_len (output o) = in_len o - in_used o /\
  exists before, accepted g = before ++ [in_data o] /\
    transmitted g = concat before ++ ztake (progress o) (in_data o).
Definition empty (o : t) (g : ghost) : Prop :=
  h_received (hin g) = h_finished (hin g) /\ h_started (hout g) = h_completed (hout g) /\
  in_len o = -1 /\ SPI.job_done (output o) = false /\ transmitted g = concat (accepted g).

Definition inv (o : t) (g : ghost) : Prop :=
  PPI.inv (input o) (hin g) /\ PPI.has_requestcancel (input o) = false /\
  SPI.inv (output o) (hout g) /\ (empty o g \/ holding o g).

Ltac counts :=
  unfold put_in, put_out, user_idle, provider_busy in *; cbv beta iota delta [update]; cbn in *;
  first [congruence | lia].

(** [send_data] on a packet with [in_used] bytes transmitted: more is sent, or the packet is
    completed. *)
Lemma send_data_inv o h k before :
  PPI.inv (input o) h -> PPI.has_requestcancel (input o) = false -> SPI.inv (output o) k ->
  SPI.job_done (output o) = false ->
  provider_busy h -> user_idle k -> 0 <= in_used o <= in_len o -> in_len o = Zlen (in_data o) ->
  exists o', send_data o = Ok (tt, o', []) /\
    inv o' (mk_ghost (if in_len o' =? -1 then PPI.count PPI.EDone h else h)
              (if in_len o' =? -1 then k else SPI.count (SPI.ESend 0 0) k)
              (before ++ [in_data o]) (concat before ++ ztake (in_used o) (in_data o))).
Proof.
  intros Hi Hrc Ho Hjd Hb Hk Hu Hlen; destruct o as [i u il d us].
  cbn [input output in_used in_len in_data] in *; pose proof (Zlen_nonneg d).
  unfold send_data; cbv beta iota zeta delta [mbind prog_bind pget pmod passert].
  cbn [in_used in_len]; test_true (0 <=? il); cbv iota.
  destruct (Z.ltb_spec us il).
  - destruct (SPI.spi_inv_step (SPI.ESend us (il - us)) u k Ho) as (u' & Hs & Ho'); [split; [done | lia]|].
    destruct (SPI.spi_send_data _ _ _ _ _ Hs) as (Hd' & Hl' & Hj').
    exists (mk i u' il d us); split.
    { unfold on_output; erewrite run_on_nil by exact Hs; done. }
    cbn [in_len]; test_false (il =? -1).
    refine (conj Hi (conj Hrc (conj Ho' (or_intror _)))); unfold holding, progress, user_idle in *.
    cbn [in_used in_len in_data output hin hout accepted transmitted]; rewrite Hj', Hjd, Z.add_0_r.
    split; [done|]; split; [counts|]; split; [lia|]; split; [done|].
    split; [done|]; split; [done|]; exists before; done.
  - destruct (PPI.ppi_inv_step PPI.EDone i h Hi Hb) as (i' & Hs & Hi' & _ & Hrc').
    exists (mk i' u (-1) d us); split.
    { unfold on_input; erewrite run_on_nil by exact Hs; done. }
    refine (conj Hi' (conj _ (conj Ho (or_introl _)))); [cbn [input] in *; congruence|].
    unfold empty, user_idle in *; cbn [in_len hin hout accepted transmitted output].
    split; [counts|]; split; [done|]; split; [done|]; split; [done|].
    rewrite concat_app; cbn [concat]; rewrite app_nil_r, ztake_all by lia; done.
Qed.

(** An event of one interface that reaches no handler of the sender. *)
Lemma ss_inv_step e o g : inv o g -> enabled e o g ->
  exists o' calls, handle e o = Ok (tt, o', calls) /\ inv o' (count e o o' g).
Proof.
  intros (Hi & Hrc & Ho & Hst) He; destruct g as [h k acc tr]; cbn [hin hout] in *.
  destruct (PPI.ppi_inv_counts _ _ Hi) as (Hi1 & Hi2 & Hi3), (SPI.spi_inv_counts _ _ Ho) as (Ho1 & Ho2 & Ho3).
  unfold provider_busy, user_idle in *; destruct e as [e|e]; cbn [enabled hin hout] in He.
  - destruct He as [He Hne]; destruct (PPI.ppi_inv_step e _ h Hi He) as (i' & Hr & Hi' & Hm' & Hc').
    destruct e as [d| | | | |]; try done; cbn [PPI.calls_of] in Hr; cbn [PPI.enabled] in He.
    + exists (put_in i' o), []; split; [apply run_on_nil; exact Hr|].
      refine (conj Hi' (conj _ (conj Ho _))); [cbn [put_in input]; congruence|].
      destruct Hst as [(? & ? & ? & ? & ?)|(? & ? & ? & ? & ? & ? & ?)]; [left|right];
        (refine (conj _ (conj _ (conj _ (conj _ _)))) || refine (conj _ (conj _ (conj _ (conj _ (conj _ (conj _ _)))))));
        done.
    + destruct He; congruence.
    + destruct (PPI.inv_operation _ h Hi He) as (d & Hd & Hl & HL & ? & ?); rewrite Hd, Hl in Hr.
      destruct Hst as [(He1 & He2 & He3 & He4 & He5)|(He1 & _)]; cbn [hin hout transmitted accepted] in *;
        [|unfold provider_busy in *; lia].
      pose proof (Zlen_nonneg d).
      destruct (send_data_inv (mk i' (output o) (Zlen d) d 0) (PPI.count PPI.EOperation h) k acc)
        as (o' & Hs & Hinv); cbn [input output in_used in_len in_data]; try done; try lia;
        [congruence | unfold provider_busy; cbn; lia |].
      exists o', []; split.
      * cbn [handle]; erewrite run_on_one by exact Hr; cbn [dispatch_in].
        unfold input_handler_send; cbv beta iota zeta delta [mbind prog_bind pget pmod passert].
        cbn [put_in in_len]; rewrite He3; test_true (0 <=? Zlen d); rewrite Z.eqb_refl; cbv iota.
        match goal with |- context [send_data ?x] =>
          change x with (mk i' (output o) (Zlen d) d 0) end; rewrite Hs; done.
      * rewrite ztake_0, app_nil_r in Hinv; cbn [count hin hout accepted transmitted].
        rewrite Hd; cbn [default]; rewrite He5; exact Hinv.
    + destruct (PPI.inv_cancel _ h Hi He); congruence.
    + exists (put_in i' o), [UserDone]; split;
        [cbn [handle]; erewrite run_on_one by exact Hr; reflexivity|].
      refine (conj Hi' (conj _ (conj Ho _))); [cbn [put_in input]; congruence|].
      destruct Hst as [(? & ? & ? & ? & ?)|(? & ? & ? & ? & ? & ? & ?)]; [left|right];
        (refine (conj _ (conj _ (conj _ (conj _ _)))) || refine (conj _ (conj _ (conj _ (conj _ (conj _ (conj _ _)))))));
        done.
  - destruct He as (He & Hne); destruct (SPI.spi_inv_step e _ k Ho He) as (u' & Hr & Ho').
    destruct (SPI.spi_op_kept _ _ _ _ Hr Hne) as (Hd' & Hl' & Hj').
    destruct e as [d n|n| |]; [destruct (Hne d n); done | ..];
      cbn [SPI.calls_of] in Hr; cbn [SPI.enabled] in He.
    + destruct He as [He Hn]; unfold provider_busy in He; destruct (Ho3 He) as [_ Hj0].
      exists (put_out u' o), []; split; [apply run_on_nil; exact Hr|].
      refine (conj Hi (conj Hrc (conj Ho' (or_intror _)))).
      destruct Hst as [(? & ? & _)|(? & ? & ? & ? & Hjd & Hjl & bf & Hac & Htr)]; cbn [hout] in *; [lia|].
      unfold holding, progress in *; cbn [count put_out output in_data in_len in_used hin hout accepted transmitted].
      cbn [accepted transmitted] in *; destruct Hj' as [Hj1 Hj2]; rewrite Hj0, Z.add_0_r in Htr.
      split; [done|]; split; [counts|]; split; [done|]; split; [done|].
      split; [congruence|]; split; [congruence|]; exists bf; split; [done|].
      unfold op_bytes; rewrite Hjd, Hj1, Hj2; cbn [default].
      rewrite Htr, ztake_add, <- app_assoc by lia; done.
    + exists (put_out u' o), [OutputOperation (SPI.job_operation_data (output o)) (SPI.job_operation_len (output o))].
      split; [cbn [handle]; erewrite run_on_one by exact Hr; reflexivity|].
      destruct Hj' as [Hj1 Hj2].
      refine (conj Hi (conj Hrc (conj Ho' _)));
        destruct Hst as [(? & ? & ? & ? & ?)|(? & ? & ? & ? & Hjd & Hjl & Hex)]; [left|right];
        unfold empty, holding, progress in *;
        cbn [count put_out output in_data in_len in_used hin hout accepted transmitted] in *;
        rewrite ?Hd', ?Hl', ?Hj1, ?Hj2; 
        (refine (conj _ (conj _ (conj _ (conj _ _)))) || refine (conj _ (conj _ (conj _ (conj _ (conj _ (conj _ _)))))));
        done || counts.
    + destruct (SPI.spi_inv_completed _ _ Ho He) as (? & ? & ?).
      destruct Hst as [(? & ? & _)|(? & ? & ? & ? & Hjd & Hjl & bf & Hac & Htr)]; cbn [hin hout accepted transmitted] in *; [lia|].
      set (n := SPI.job_done_len (output o)) in *.
      destruct (send_data_inv (mk (input o) u' (in_len o) (in_data o) (n + in_used o)) h
                  (SPI.count SPI.ECompleted k) bf)
        as (o' & Hs & Hinv); cbn [input output in_used in_len in_data]; try done; try lia;
        try (unfold user_idle; cbn; lia).
      exists o', []; split.
      * cbn [handle]; erewrite run_on_one by exact Hr; cbn [dispatch_out]; fold n.
        unfold output_handler_done; cbv beta iota zeta delta [mbind prog_bind pget pmod passert].
        cbn [put_out in_len in_used]; test_true (0 <=? in_len o); test_true (0 <? n).
        test_true (n <=? in_len o - in_used o); cbv iota.
        match goal with |- context [send_data ?x] =>
          change x with (mk (input o) u' (in_len o) (in_data o) (n + in_used o)) end.
        rewrite Hs; done.
      * cbn [count hin hout accepted transmitted]; rewrite Hac, Htr; unfold progress; rewrite He; fold n.
        rewrite (Z.add_comm (in_used o)); exact Hinv.
Qed.

Lemma init_inv mtu o : 0 <= mtu -> PPI.cancel_requested (input o) = false ->
  SPI.has_done (output o) = false -> SPI.state (output o) = ST_NONE ->
  SPI.job_operation (output o) = false -> SPI.job_done (output o) = false ->
  exists o0 i0, PacketStreamSender_Init mtu o = Ok (tt, o0, []) /\
    PPI.Sender_Init (input o0) = Ok (tt, i0, []) /\ inv (put_in i0 o0) (mk_ghost h0 h0 [] []).
Proof.
  intros Hm Hc Hd Hs Hjo Hjd; destruct o as [i u il d us]; cbn [input output] in *.
  set (i1 := PPI.mk mtu false false false (PPI.job_operation_data i)
               (PPI.job_operation_len i) false false ST_NONE (PPI.cancel_requested i)).
  set (u1 := u <| SPI.has_done := true |>).
  exists (mk i1 u1 (-1) d us), (i1 <| PPI.has_done := true |>); split; [|split].
  - unfold PacketStreamSender_Init, on_input, on_output.
    cbv beta iota zeta delta [mbind prog_bind pget pmod passert]; test_true (0 <=? mtu); cbv iota.
    rewrite (run_on_nil _ _ _ _ (mk i u il d us) i1) by (apply PPI.ppi_Init_eq; done).
    change (put_in i1 (mk i u il d us)) with (mk i1 u il d us).
    rewrite (run_on_nil _ _ _ _ (mk i1 u il d us) u1) by (apply SPI.spi_Sender_Init_eq; done); done.
  - apply PPI.ppi_Sender_Init_eq; done.
  - refine (conj _ (conj eq_refl (conj _ (or_introl _)))).
    + split; [done|]; split; [cbn; intros; done|]; done.
    + change (SPI.inv u1 h0); split; [done|]; change (SPI.state u1) with (SPI.state u).
      rewrite Hs; split_and!; done.
    + split_and!; done.
Qed.

(** C30: What the output transmits is at any time a prefix of the packets accepted so far, laid
    end to end, whole when the sender holds no packet; the output's provider may take each
    operation in pieces of any size. No assertion fails. *)
Theorem PacketStreamSender_stream mtu o : 0 <= mtu -> PPI.cancel_requested (input o) = false ->
  SPI.has_done (output o) = false -> SPI.state (output o) = ST_NONE ->
  SPI.job_operation (output o) = false -> SPI.job_done (output o) = false ->
  exists o0 i0, PacketStreamSender_Init mtu o = Ok (tt, o0, []) /\
    PPI.Sender_Init (input o0) = Ok (tt, i0, []) /\
    forall o' g', star step (put_in i0 o0, mk_ghost h0 h0 [] []) (o', g') ->
      (forall e, enabled e o' g' -> is_ok (handle e o')) /\
      (exists rest, concat (accepted g') = transmitted g' ++ rest /\ (in_len o' = -1 -> rest = [])) /\
      (in_len o' = -1 <-> ~ provider_busy (hin g')).
Proof.
  intros Hm Hc Hd Hs Hjo Hjd; destruct (init_inv mtu o) as (o0 & i0 & H0 & Hi0 & Hst); [done..|].
  exists o0, i0; split; [done|]; split; [done|]; intros o' g' Hstar.
  assert (inv o' g') as Hinv.
  { refine (star_invariant step (fun x => inv (fst x) (snd x)) _ _ _ Hstar Hst).
    intros [a ga] [b gb] Ha Hab; inversion Hab; subst; cbn in *.
    destruct (ss_inv_step e a ga) as (b' & calls' & Hb & Hinv'); [done..|]; congruence. }
  split; [|split].
  - intros e He; destruct (ss_inv_step e o' g' Hinv He) as (o2 & calls & H1 & _); eexists; done.
  - destruct Hinv as (_ & _ & _ & [(_ & _ & _ & _ & Htr)|(_ & _ & ? & _ & _ & _ & bf & Hac & Htr)]).
    + exists []; rewrite app_nil_r; done.
    + exists (zdrop (progress o') (in_data o')); split; [|lia].
      rewrite Hac, Htr, concat_app, <- app_assoc, ztake_zdrop; cbn [concat]; rewrite app_nil_r; done.
  - destruct Hinv as (_ & _ & _ & [(? & _ & ? & _)|(? & _ & ? & _)]); unfold provider_busy in *; lia.
Qed.

Definition sample : t := mk Monitor.sample_iface (SPI.mk false false None 0 false 0 ST_NONE) 0 [] 0.

Lemma PacketStreamSender_stream_witness : exists o0 i0,
  PacketStreamSender_Init 1500 sample = Ok (tt, o0, []) /\
  PPI.Sender_Init (input o0) = Ok (tt, i0, []) /\
  is_ok (handle (In (PPI.ESend [1; 2; 3])) (put_in i0 o0)).
Proof.
  destruct (PacketStreamSender_stream 1500 sample) as (o0 & i0 & H1 & H2 & H3);
    [lia | reflexivity | reflexivity | reflexivity | reflexivity | reflexivity |].
  exists o0, i0; split; [exact H1|]; split; [exact H2|].
  destruct (H3 _ _ (star_refl _ _)) as [H4 _]; apply H4.
  vm_compute in H1; injection H1 as <-; vm_compute in H2; injection H2 as <-.
  split; [split; [reflexivity | vm_compute; discriminate] | discriminate].
Defined.
End StreamSender.
