(* ===== verification/PacketProtoFlow.v ===== *)
(** flow/BufferWriter.c and flow/PacketProtoFlow.c: a packet written by the user into the
    buffer it is lent is encoded in place and waits in a PacketBuffer for the output. The flow
    is modelled whole: the writer, the encoder, the buffer, the two receive interfaces between
    them and the output's interface, over the one memory they share. *)

From S2P Require Import Prelude IntCodec MiscArith ChunkBuffer FlowIface PacketProto PacketBuffer.

Module BufferWriter.
(** [out] is the place lent by the receiver; [d_mtu] and [d_writing] are the fields of a
    build with assertions. *)
Record t := mk { recv_interface : PRI.t; out_have : bool; out : Z; d_mtu : Z; d_writing : bool }.
#[global] Instance t_eta : Eta t := fun o =>
  mk (recv_interface o) (out_have o) (out o) (d_mtu o) (d_writing o).

Inductive call := UserDone (len : Z).
Definition bp := prog t call.
Definition put_recv (i : PRI.t) (o : t) : t := mk i (out_have o) (out o) (d_mtu o) (d_writing o).
Definition on_recv (m : PRI.pr unit) : bp unit := run_on recv_interface put_recv m (fun _ => passert false).

Definition output_handler_recv (data : Z) : bp unit :=
  o ← pget;
  passert (negb (out_have o));;
  pmod (fun o => o <| out_have := true |> <| out := data |>).
Definition BufferWriter_Init (mtu : Z) : bp unit :=
  passert (0 <=? mtu);;
  on_recv (PRI.Init mtu);;
  pmod (fun o => o <| out_have := false |> <| d_mtu := mtu |> <| d_writing := false |>).
(** The place to write to, if there is one. *)
Definition BufferWriter_StartPacket : bp (option Z) :=
  o ← pget;
  passert (negb (d_writing o));;
  if negb (out_have o) then mret None else
  pmod (fun o => o <| d_writing := true |>);;
  mret (Some (out o)).
Definition BufferWriter_EndPacket (len : Z) : bp unit :=
  o ← pget;
  passert (0 <=? len);;
  passert (len <=? d_mtu o);;
  passert (out_have o);;
  passert (d_writing o);;
  pmod (fun o => o <| out_have := false |>);;
  on_recv (PRI.Done len);;
  pmod (fun o => o <| d_writing := false |>).

(** The jobs of [recv_interface]. *)
Definition dispatch (c : PRI.call) : bp unit :=
  match c with
  | PRI.HandlerOperation (Some d) => output_handler_recv d
  | PRI.HandlerOperation None => output_handler_recv 0
  | PRI.HandlerDone n => pcall (UserDone n)
  end.

(** Between packets; [s] is the state of the interface, which waits for the writer exactly
    while a place is held. *)
Definition between (mtu : Z) (d : option Z) (n p : Z) (s : if_state) : t :=
  mk (PRI.at_state mtu d n s) (st_is s ST_BUSY) p mtu false.

Lemma bw_Init_eq mtu i oh p dm dw : 0 <= mtu ->
  BufferWriter_Init mtu (mk i oh p dm dw) =
    Ok (tt, mk (PRI.mk mtu false false (PRI.job_operation_data i) false (PRI.job_done_len i) ST_NONE)
               false p mtu false, []).
Proof.
  intros; unfold BufferWriter_Init, on_recv; cbv beta iota zeta delta [mbind prog_bind pmod passert].
  test_true (0 <=? mtu); cbv iota; erewrite run_on_nil by (apply PRI.pri_Init_eq; done); done.
Qed.
Lemma bw_Receiver_Init_eq mtu d n p :
  on_recv PRI.Receiver_Init (mk (PRI.mk mtu false false d false n ST_NONE) false p mtu false) =
    Ok (tt, between mtu d n p ST_NONE, []).
Proof. done. Qed.
Lemma bw_Recv_eq mtu d n p d' :
  on_recv (PRI.Receiver_Recv (Some d')) (between mtu d n p ST_NONE) =
    Ok (tt, between mtu (Some d') n p ST_OPERATION_PENDING, []).
Proof. unfold on_recv; erewrite run_on_nil by apply PRI.pri_Recv_eq; done. Qed.
Lemma bw_operation_eq mtu d n p :
  run_on recv_interface put_recv PRI.run_operation dispatch
    (between mtu (Some d) n p ST_OPERATION_PENDING) =
  Ok (tt, between mtu (Some d) n d ST_BUSY, []).
Proof. erewrite run_on_one by apply PRI.pri_run_operation_eq; done. Qed.
Lemma bw_completed_eq mtu d n p :
  run_on recv_interface put_recv PRI.run_done dispatch (between mtu d n p ST_DONE_PENDING) =
  Ok (tt, between mtu d n p ST_NONE, [UserDone n]).
Proof. erewrite run_on_one by apply PRI.pri_run_done_eq; done. Qed.
Lemma bw_StartPacket_eq mtu d n p s : BufferWriter_StartPacket (between mtu d n p s) =
  if st_is s ST_BUSY
  then Ok (Some p, mk (PRI.at_state mtu d n s) true p mtu true, [])
  else Ok (None, between mtu d n p s, []).
Proof. destruct s; done. Qed.
Lemma bw_EndPacket_eq mtu d n p len : 0 <= len <= mtu ->
  BufferWriter_EndPacket len (mk (PRI.at_state mtu d n ST_BUSY) true p mtu true) =
    Ok (tt, between mtu d len p ST_DONE_PENDING, []).
Proof.
  intros Hn; unfold BufferWriter_EndPacket; cbv beta iota zeta delta [mbind prog_bind pget pmod passert].
  cbn [d_mtu out_have d_writing]; test_true (0 <=? len); test_true (len <=? mtu); cbv iota.
  unfold on_recv; erewrite run_on_nil by (apply PRI.pri_Done_eq; done); done.
Qed.
End BufferWriter.

Module PPF.
Section ppf.
Context `{Arch}.

(** The encoder's input is the writer's interface; [eout] is its output, and the buffer's
    input. The encoder and the writer write to the memory of the buffer. *)
Record t := mk { ainput : BufferWriter.t; encoder : Encoder.t; eout : PRI.t;
                 buffer : PacketBuffer; output : PPI.t }.
#[global] Instance t_eta : Eta t := fun o =>
  mk (ainput o) (encoder o) (eout o) (buffer o) (output o).

Inductive call := OutputOperation (data : option (list Z)) (len : Z) | OutputRequestCancel.
Definition fp := prog t call.

Definition put_ain (w : BufferWriter.t) (o : t) : t := mk w (encoder o) (eout o) (buffer o) (output o).
Definition put_eout (i : PRI.t) (o : t) : t := mk (ainput o) (encoder o) i (buffer o) (output o).
Definition put_buf (b : PacketBuffer) (o : t) : t := mk (ainput o) (encoder o) (eout o) b (output o).
Definition put_out (i : PPI.t) (o : t) : t := mk (ainput o) (encoder o) (eout o) (buffer o) i.
Definition memory (o : t) : list Z := cb_buffer (pb_buf (buffer o)).
Definition put_memory (m : list Z) (b : PacketBuffer) : PacketBuffer :=
  mk_pb ((pb_buf b) <| cb_buffer := m |>) (pb_input_mtu b).
Definition get_enc (o : t) : Encoder.t :=
  Encoder.mk (Encoder.output_packet (encoder o)) (memory o) (Encoder.input_mtu (encoder o))
    (Encoder.output_mtu (encoder o)).
Definition put_enc (e : Encoder.t) (o : t) : t :=
  mk (ainput o) e (eout o) (put_memory (Encoder.mem e) (buffer o)) (output o).

Definition on_writer {A} (m : BufferWriter.bp A) : fp A := fun o =>
  match m (ainput o) with
  | Ok (a, w, []) => Ok (a, put_ain w o, [])
  | Ok (_, _, _ :: _) => Err AssertFailed
  | Err f => Err f
  end.
Definition on_eout (m : PRI.pr unit) : fp unit := run_on eout put_eout m (fun _ => passert false).
Definition on_output (m : PPI.pp unit) : fp unit := run_on output put_out m (fun _ => passert false).

Definition dispatch_enc (c : Encoder.call) : fp unit :=
  match c with
  | Encoder.InputRecv d => on_writer (BufferWriter.on_recv (PRI.Receiver_Recv (Some d)))
  | Encoder.OutputDone n => on_eout (PRI.Done n)
  end.
(** A send shows the output the bytes of the buffer at the place it is told. *)
Definition dispatch_buf (c : pb_call) : fp unit :=
  match c with
  | Receiver_Recv d => on_eout (PRI.Receiver_Recv d)
  | Sender_Send (Some d) n =>
      o ← pget;
      p ← plift (mem_read (memory o) d n);
      on_output (PPI.Sender_Send (Some p) n)
  | Sender_Send None n => on_output (PPI.Sender_Send None n)
  end.

Definition dispatch_ain (c : BufferWriter.call) : fp unit :=
  match c with
  | BufferWriter.UserDone n => run_on get_enc put_enc (Encoder.input_handler_done n) dispatch_enc
  end.
Definition dispatch_eout (c : PRI.call) : fp unit :=
  match c with
  | PRI.HandlerOperation d =>
      run_on get_enc put_enc (Encoder.output_handler_recv (default 0 d)) dispatch_enc
  | PRI.HandlerDone n => run_on buffer put_buf (input_handler_done n) dispatch_buf
  end.
Definition dispatch_out (c : PPI.call) : fp unit :=
  match c with
  | PPI.HandlerOperation d n => pcall (OutputOperation d n)
  | PPI.HandlerRequestCancel => pcall OutputRequestCancel
  | PPI.HandlerDone => run_on buffer put_buf output_handler_done dispatch_buf
  end.

(** [output] is set up by its provider before; [mem] is what the allocator returns. *)
Definition PacketProtoFlow_Init (input_mtu num_packets : Z) (mem : Z -> option (list Z)) : fp bool :=
  o ← pget;
  passert (0 <=? input_mtu);;
  passert (input_mtu <=? PACKETPROTO_MAXPAYLOAD);;
  passert (0 <? num_packets);;
  passert (PACKETPROTO_ENCLEN input_mtu <=? PPI.mtu (output o));;
  on_writer (BufferWriter.BufferWriter_Init input_mtu);;
  (* PacketProtoEncoder_Init *)
  o ← pget;
  on_writer (BufferWriter.on_recv PRI.Receiver_Init);;
  run_on get_enc put_enc
    (Encoder.PacketProtoEncoder_Init (PRI.mtu (BufferWriter.recv_interface (ainput o)))) dispatch_enc;;
  o ← pget;
  on_eout (PRI.Init (Encoder.output_mtu (encoder o)));;
  (* PacketBuffer_Init *)
  on_eout PRI.Receiver_Init;;
  on_output PPI.Sender_Init;;
  o ← pget;
  match PacketBuffer_Init (PRI.mtu (eout o)) (PPI.mtu (output o)) num_packets mem (buffer o) with
  | Ok (r, b, ks) => pmod (put_buf b);; foreach dispatch_buf ks;; mret r
  | Err f => fun _ => Err f
  end.

(** The user's side: a packet that the writer has a place for is written and ended. *)
Definition write_packet (p : list Z) : fp unit :=
  d ← on_writer BufferWriter.BufferWriter_StartPacket;
  match d with
  | None => pskip
  | Some d =>
    o ← pget;
    m ← plift (mem_write (memory o) d p);
    pmod (fun o => put_buf (put_memory m (buffer o)) o);;
    on_writer (BufferWriter.BufferWriter_EndPacket (Zlen p))
  end.

Definition run_writer (m : PRI.pr unit) : fp unit := fun o =>
  match run_on BufferWriter.recv_interface BufferWriter.put_recv m BufferWriter.dispatch (ainput o) with
  | Ok (_, w, ks) => foreach dispatch_ain ks (put_ain w o)
  | Err f => Err f
  end.

Inductive event :=
| Packet (p : list Z)
| AinOperation | AinCompleted | EoutOperation | EoutCompleted
| Out (e : PPI.event).
Definition handle (e : event) : fp unit :=
  match e with
  | Packet p => write_packet p
  | AinOperation => run_writer (PRI.handle PRI.EOperation)
  | AinCompleted => run_writer (PRI.handle PRI.ECompleted)
  | EoutOperation => run_on eout put_eout (PRI.handle PRI.EOperation) dispatch_eout
  | EoutCompleted => run_on eout put_eout (PRI.handle PRI.ECompleted) dispatch_eout
  | Out e => run_on output put_out (PPI.handle e) dispatch_out
  end.
End ppf.

(** ** What the flow does *)

Lemma mem_set_offset {A} (m p : list A) d off : 0 <= d -> 0 <= off -> d + off <= Zlen m ->
  mem_set m (d + off) p = mem_set m d (slice d off m ++ p).
Proof.
  intros; unfold mem_set; rewrite ztake_add, <- !app_assoc by lia; do 2 f_equal.
  f_equal; f_equal; rewrite Zlen_app, Zlen_slice by lia; lia.
Qed.

Lemma mem_set_same {A} (m : list A) d n : 0 <= d -> 0 <= n -> d + n <= Zlen m ->
  mem_set m d (slice d n m) = m.
Proof.
  intros; unfold mem_set, slice; rewrite Zlen_ztake, Zlen_zdrop.
  rewrite Z.min_l by lia; rewrite <- (ztake_zdrop d m) at 4.
  rewrite <- (ztake_zdrop n (zdrop d m)) at 2; rewrite zdrop_zdrop by lia.
  do 3 f_equal; lia.
Qed.

Section ppf_proofs.
Context `{Arch} (mtu num : Z) (Hmtu : 0 <= mtu <= PACKETPROTO_MAXPAYLOAD) (Hnum : 0 < num).
Let enclen : Z := PACKETPROTO_ENCLEN mtu.

(** Where the one receive of the buffer is: not under way, or passed down to the writer, or
    on its way back with a packet. *)
Inductive phase := Full | EoutOp | AinOp | Ready | AinDone (p : list Z) | EoutDone (p : list Z).

Definition eout_state (ph : phase) : if_state :=
  match ph with
  | Full => ST_NONE | EoutOp => ST_OPERATION_PENDING | EoutDone _ => ST_DONE_PENDING | _ => ST_BUSY
  end.
Definition ain_state (ph : phase) : if_state :=
  match ph with
  | AinOp => ST_OPERATION_PENDING | Ready => ST_BUSY | AinDone _ => ST_DONE_PENDING | _ => ST_NONE
  end.
Definition in_hand (ph : phase) : list (list Z) :=
  match ph with AinDone p | EoutDone p => [encode p] | _ => [] end.

Record ghost := mk_ghost { hout : history; accepted : list (list Z); delivered : list (list Z) }.

(** The interfaces and the encoder in a phase, the place lent being [d]. *)
Definition shape (o : t) (ph : phase) (d : Z) : Prop :=
  exists ed en ad an ap im om em,
  eout o = PRI.at_state enclen ed en (eout_state ph) /\
  ainput o = BufferWriter.between mtu ad an ap (ain_state ph) /\
  encoder o = Encoder.mk (match ph with AinOp | Ready | AinDone _ => Some d | _ => None end) em im om /\
  match ph with
  | Full => True
  | EoutOp => ed = Some d
  | AinOp => ad = Some (d + 2)
  | Ready => ap = d + 2
  | AinDone p => an = Zlen p /\ Zlen p <= mtu /\ slice (d + 2) (Zlen p) (memory o) = p
  | EoutDone p => en = 2 + Zlen p /\ Zlen p <= mtu /\ slice d (2 + Zlen p) (memory o) = encode p
  end.

Definition out_ok (u : PPI.t) (k : history) (send : option (list Z)) (dl cpl : list (list Z)) : Prop :=
  PPI.inv u k /\ enclen <= PPI.mtu u /\
  match send with
  | None => user_idle k /\ PPI.job_operation u = false /\ dl = cpl
  | Some p => h_started k = h_completed k + 1 /\
      (PPI.job_operation u = true -> PPI.job_operation_data u = Some p /\ PPI.job_operation_len u = Zlen p) /\
      dl = if PPI.job_operation u then cpl else cpl ++ [p]
  end.

Definition links (o : t) (k : history) (dl : list (list Z)) (c : pb_cfg) (ph : phase) (d : Z) : Prop :=
  buffer o = pbc_pb c /\ shape o ph d /\
  pbc_recv c = match ph with Full => None | _ => Some d end /\
  out_ok (output o) k (pbc_send c) dl (pbc_completed c).

(** A send that the buffer started meanwhile is the one event of the output's interface. *)
Definition resume (o o' : t) (k : history) : history :=
  if PPI.job_operation (output o') && negb (PPI.job_operation (output o))
  then PPI.count (PPI.ESend []) k else k.

Lemma start_calls_send ks c c' p : start_calls c ks = Ok c' -> pbc_send c = Some p ->
  pbc_send c' = Some p.
Proof.
  revert c; induction ks as [|x ks IH]; intros c; cbn [start_calls]; [intros [= <-]; done|].
  intros Hc Hs; destruct (start_call c x) as [c1|] eqn:E; [|done].
  refine (IH c1 Hc _); destruct x as [[d|]|[d|] n]; try done; unfold start_call in E; prog_simpl;
    rewrite Hs in E; [|done].
  destruct (bool_decide (pbc_recv c = None)); [|done]; injection E as <-; done.
Qed.

Lemma on_output_send o k u p : output o = u -> PPI.inv u k -> user_idle k -> Zlen p <= PPI.mtu u ->
  exists u', on_output (PPI.Sender_Send (Some p) (Zlen p)) o = Ok (tt, put_out u' o, []) /\
    PPI.inv u' (PPI.count (PPI.ESend []) k) /\ PPI.mtu u' = PPI.mtu u /\
    PPI.job_operation u' = true /\ PPI.job_operation_data u' = Some p /\ PPI.job_operation_len u' = Zlen p.
Proof.
  intros Ho Hu Hi Hp; destruct (PPI.ppi_inv_step (PPI.ESend p) u k Hu) as (u' & Hs & Hu' & Hm & _); [done|].
  exists u'; split; [unfold on_output; erewrite run_on_nil by (rewrite Ho; exact Hs); done|].
  destruct (PPI.ppi_send_data _ _ _ _ _ Hs) as [Hd Hl]; pose proof (PPI.ppi_send_pending _ _ _ _ _ Hs).
  refine (conj Hu' (conj Hm _)); done.
Qed.

(** The calls of the buffer start its operations on the two interfaces. *)
Lemma start_one x o k dl c c' ph d : links o k dl c ph d -> start_call c x = Ok c' ->
  (forall p, pbc_send c' = Some p -> Zlen p <= enclen) ->
  exists o' ph' d', dispatch_buf x o = Ok (tt, o', []) /\
    links o' (resume o o' k) dl c' ph' d' /\ in_hand ph' = in_hand ph /\
    (PPI.job_operation (output o) = true -> PPI.job_operation (output o') = true).
Proof.
  intros (Hb & Hs & Hr & Ho) Hc Hlen; destruct x as [[d0|]|[d0|] n]; try done; unfold start_call in Hc; prog_simpl.
  - destruct (bool_decide_reflect (pbc_recv c = None)) as [E|]; [|done]; injection Hc as <-.
    rewrite E in Hr; destruct ph; try done.
    destruct Hs as (ed & en & ad & an & ap & im & om & em & H1 & H2 & H3 & _).
    exists (put_eout (PRI.at_state enclen (Some d0) en ST_OPERATION_PENDING) o), EoutOp, d0.
    split; [|split; [|split; [done | done]]].
    + cbn [dispatch_buf]; unfold on_eout; erewrite run_on_nil; [done|]; rewrite H1; apply PRI.pri_Recv_eq.
    + split; [done|]; split; [|split; [done|]].
      * exists (Some d0), en, ad, an, ap, im, om, em; done.
      * unfold resume; cbn [put_eout output]; rewrite andb_negb_r; done.
  - destruct (bool_decide_reflect (pbc_send c = None)) as [E|]; [|done].
    destruct (mem_read _ d0 n) as [p|] eqn:Em; [|done]; injection Hc as <-.
    destruct (mem_read_inv _ _ _ _ Em) as (? & ? & ? & Hp).
    assert (n = Zlen p) as -> by (subst p; rewrite Zlen_slice by lia; done).
    rewrite E in Ho; destruct Ho as (Hu & Hm & Hi & Hj & Hd).
    destruct (on_output_send o k (output o) p eq_refl Hu Hi) as (u' & Hsend & Hu' & Hmu & Hj' & Hd' & Hl');
      [specialize (Hlen p eq_refl); lia|].
    exists (put_out u' o), ph, d; split; [|split; [|split; [done|]]].
    + cbn [dispatch_buf]; cbv beta iota zeta delta [mbind prog_bind pget plift]; unfold memory.
      rewrite Hb, Em, Hsend; done.
    + split; [done|]; split; [exact Hs|]; split; [done|].
      unfold resume; cbn [put_out output pbc_send pbc_completed]; rewrite Hj', Hj; cbn [andb negb].
      split; [done|]; split; [lia|]; rewrite Hj'; unfold user_idle in Hi; cbn; split_and!; done || lia.
    + cbn [put_out output]; done.
Qed.

Lemma start_links ks o k dl c c' ph d : links o k dl c ph d -> start_calls c ks = Ok c' ->
  (forall p, pbc_send c' = Some p -> Zlen p <= enclen) ->
  exists o' ph' d', foreach dispatch_buf ks o = Ok (tt, o', []) /\
    links o' (resume o o' k) dl c' ph' d' /\ in_hand ph' = in_hand ph /\
    (PPI.job_operation (output o) = true -> PPI.job_operation (output o') = true).
Proof.
  revert o k c ph d; induction ks as [|x ks IH]; intros o k c ph d Hl Hc Hlen; cbn [start_calls foreach] in *.
  - injection Hc as <-; exists o, ph, d; unfold resume; rewrite andb_negb_r; done.
  - destruct (start_call c x) as [c1|] eqn:E; [|done].
    destruct (start_one x o k dl c c1 ph d Hl E) as (o1 & ph1 & d1 & H1 & Hl1 & Hh1 & Hj1).
    { intros p Hp; apply Hlen; eapply start_calls_send; done. }
    destruct (IH o1 _ c1 ph1 d1 Hl1 Hc Hlen) as (o2 & ph2 & d2 & H2 & Hl2 & Hh2 & Hj2).
    exists o2, ph2, d2; split; [|split; [|split; [congruence | auto]]].
    + unfold mbind, prog_bind; rewrite H1, H2; done.
    + replace (resume o o2 k) with (resume o1 o2 (resume o o1 k)); [done|]; unfold resume.
      destruct (PPI.job_operation (output o)), (PPI.job_operation (output o1)),
        (PPI.job_operation (output o2)); cbn [andb negb] in *; auto; try discriminate (Hj1 eq_refl);
        discriminate (Hj2 eq_refl).
Qed.

(** The state, with the buffer in order. *)
Definition rep (o : t) (g : ghost) (c : pb_cfg) (ph : phase) (d : Z) : Prop :=
  pb_inv enclen num c /\ links o (hout g) (delivered g) c ph d /\
  map encode (accepted g) = pbc_received c ++ in_hand ph.
Definition inv (o : t) (g : ghost) : Prop := exists c ph d, rep o g c ph d.

Definition with_memory (m : list Z) (c : pb_cfg) : pb_cfg :=
  mk_pbc (put_memory m (pbc_pb c)) (pbc_recv c) (pbc_send c) (pbc_received c) (pbc_completed c).

(** The place the buffer lends holds an encoded packet of the largest size, and writing to it
    leaves the waiting packets alone. *)
Lemma lent_place c d : pb_inv enclen num c -> pbc_recv c = Some d ->
  0 <= d /\ d + enclen <= Zlen (cb_buffer (pb_buf (pbc_pb c))) /\
  forall off p, 0 <= off -> off + Zlen p <= enclen ->
    pb_inv enclen num (with_memory (mem_set (cb_buffer (pb_buf (pbc_pb c))) (d + off) p) c).
Proof.
  intros (q & Hr & Hm & Hbm & Hbs & Hrcv & Hq & Hrecv & Hsend) Hd.
  destruct c as [[b im] rc sd rcv cpl]; cbn in Hr, Hm, Hbm, Hbs, Hrcv, Hq, Hrecv, Hsend, Hd |- *; subst rc.
  destruct (Z.leb_spec enclen (input_avail b)) as [Ha|]; [|done].
  unfold enclen, PACKETPROTO_ENCLEN, sizeof_packetproto_header in *.
  assert (0 <= d /\ d + (2 + mtu) <= Zlen (cb_buffer b)) as [? ?].
  { pose proof (rep_mem_write b q d (replicate (Z.to_nat (2 + mtu)) 0) Hr Hd) as Hw.
    unfold mem_write in Hw; unfold Zlen at 1 in Hw; unfold Zlen at 1 in Hw.
    rewrite length_replicate in Hw; specialize (Hw ltac:(lia)).
    match type of Hw with (if ?b then _ else _) = _ => destruct b eqn:E; [|done] end.
    apply andb_prop in E as [E1 E2]; rewrite Z2Nat.id in E2 by lia; lia. }
  split; [done|]; split; [done|]; intros off p ? ?; pose proof (Zlen_nonneg p).
  rewrite mem_set_offset by lia; set (p' := slice d off (cb_buffer b) ++ p).
  assert (Zlen p' <= input_avail b) by (unfold p'; rewrite Zlen_app, Zlen_slice by lia; lia).
  destruct (rep_write b q d p' Hr Hd) as (_ & _ & _ & Hr'); [done|].
  exists q; cbn; refine (conj Hr' (conj Hm (conj Hbm (conj Hbs (conj Hrcv (conj Hq (conj _ Hsend))))))).
  change (input_avail (_ <| cb_buffer := _ |>)) with (input_avail b).
  test_true (2 + mtu <=? input_avail b); done.
Qed.

Lemma put_memory_same b : put_memory (cb_buffer (pb_buf b)) b = b.
Proof. destruct b as [[] ?]; done. Qed.

Lemma put_enc_same o e : Encoder.mem e = memory o ->
  put_enc e o = mk (ainput o) e (eout o) (buffer o) (output o).
Proof. intros E; unfold put_enc; rewrite E; unfold memory; rewrite put_memory_same; done. Qed.

Ltac open_rep :=
  match goal with
  | H : rep _ _ _ _ _ |- _ =>
    destruct H as (Hpb & (Hb & (ed & en & ad & an & ap & im & om & em & H1 & H2 & H3 & Hx) & Hr & Ho) & Hacc)
  end.

(** A packet is accepted when the writer has a place. *)
Lemma packet_step p o g c ph d : rep o g c ph d -> Zlen p <= mtu ->
  exists o', write_packet p o = Ok (tt, o', []) /\ output o' = output o /\
    if BufferWriter.out_have (ainput o)
    then inv o' (mk_ghost (hout g) (accepted g ++ [p]) (delivered g)) else o' = o.
Proof.
  intros Hrep Hp; open_rep; unfold write_packet, on_writer.
  cbv beta iota zeta delta [mbind prog_bind pget plift pmod]; rewrite H2, BufferWriter.bw_StartPacket_eq.
  assert (BufferWriter.out_have (BufferWriter.between mtu ad an ap (ain_state ph)) =
    st_is (ain_state ph) ST_BUSY) as -> by done.
  destruct (st_is (ain_state ph) ST_BUSY) eqn:E; cbv iota.
  2:{ exists o; split; [|done]; unfold pskip, put_ain; rewrite <- H2; destruct o; done. }
  destruct ph; try discriminate E; cbv iota in Hx; subst ap.
  destruct (lent_place c d Hpb Hr) as (? & ? & Hw); unfold enclen, PACKETPROTO_ENCLEN, sizeof_packetproto_header in *.
  pose proof (Zlen_nonneg p).
  change (memory (put_ain _ o)) with (memory o); unfold memory; rewrite Hb, mem_write_ok by lia; cbv iota.
  cbn [put_ain put_buf ainput ain_state]; rewrite BufferWriter.bw_EndPacket_eq by lia; cbv iota.
  eexists; split; [reflexivity|]; split; [done|].
  eexists (with_memory (mem_set (cb_buffer (pb_buf (pbc_pb c))) (d + 2) p) c), (AinDone p), d.
  split; [apply Hw; lia|]; split; [split; [|split; [|split; [done | done]]]|].
  - cbn; rewrite Hb; done.
  - exists ed, en, ad, (Zlen p), (d + 2), im, om, em; split; [done|]; split; [done|]; split; [done|].
    split; [done|]; split; [done|]; unfold memory; cbn; rewrite Hb; cbn; apply slice_mem_set_eq; lia.
  - cbn; cbn [in_hand] in Hacc; rewrite app_nil_r in Hacc; rewrite map_app, Hacc; done.
Qed.

(** ** The jobs of the interfaces between the parts *)

Definition ain_job (o : t) (s : if_state) : Prop :=
  PRI.state (BufferWriter.recv_interface (ainput o)) = s.

Lemma ain_operation_step o g c ph d : rep o g c ph d ->
  PRI.job_operation (BufferWriter.recv_interface (ainput o)) = true ->
  exists o', handle AinOperation o = Ok (tt, o', []) /\ inv o' g /\ output o' = output o.
Proof.
  intros Hrep Hj; open_rep; rewrite H2 in Hj; destruct ph; try discriminate Hj; cbv iota in Hx; subst ad.
  exists (put_ain (BufferWriter.between mtu (Some (d + 2)) an (d + 2) ST_BUSY) o); split; [|split; [|done]].
  - cbn [handle]; unfold run_writer; rewrite H2; cbn [ain_state PRI.handle].
    rewrite BufferWriter.bw_operation_eq; done.
  - exists c, Ready, d; split; [done|]; split; [|done]; split; [done|]; split; [|done].
    exists ed, en, (Some (d + 2)), an, (d + 2), im, om, em; done.
Qed.

Lemma eout_operation_step o g c ph d : rep o g c ph d -> PRI.job_operation (eout o) = true ->
  exists o', handle EoutOperation o = Ok (tt, o', []) /\ inv o' g /\ output o' = output o.
Proof.
  intros Hrep Hj; open_rep; rewrite H1 in Hj; destruct ph; try discriminate Hj; cbv iota in Hx; subst ed.
  exists (mk (BufferWriter.between mtu (Some (d + 2)) an ap ST_OPERATION_PENDING)
    (Encoder.mk (Some d) (memory o) im om) (PRI.at_state enclen (Some d) en ST_BUSY) (buffer o) (output o)).
  split; [|split; [|done]].
  - cbn [handle PRI.handle]; erewrite run_on_one by (rewrite H1; apply PRI.pri_run_operation_eq).
    cbn [dispatch_eout default].
    rewrite (run_on_one _ _ _ _ _ (Encoder.mk (Some d) (memory o) im om) (Encoder.InputRecv (d + 2)))
      by (unfold get_enc; cbn [put_eout encoder]; rewrite H3; done).
    rewrite put_enc_same by done; cbn [dispatch_enc put_eout ainput eout buffer output].
    unfold on_writer; cbn [ainput]; rewrite H2; cbn [ain_state]; rewrite BufferWriter.bw_Recv_eq; done.
  - exists c, AinOp, d; split; [done|]; split; [|done]; split; [done|]; split; [|done].
    eexists _, _, _, _, _, _, _, _; split; [reflexivity|]; split; [reflexivity|]; split; [reflexivity | done].
Qed.

(** The encoder completes the packet in the memory of the buffer. *)
Lemma ain_completed_step o g c ph d : rep o g c ph d ->
  PRI.job_done (BufferWriter.recv_interface (ainput o)) = true ->
  exists o', handle AinCompleted o = Ok (tt, o', []) /\ inv o' g /\ output o' = output o.
Proof.
  intros Hrep Hj; open_rep; rewrite H2 in Hj; destruct ph as [| | | |p|]; try discriminate Hj.
  cbv iota in Hx; destruct Hx as (-> & Hp & Hm).
  destruct (lent_place c d Hpb Hr) as (Hd & HL & Hw); pose proof (Zlen_nonneg p).
  unfold enclen, PACKETPROTO_ENCLEN, sizeof_packetproto_header, PACKETPROTO_MAXPAYLOAD, UINT16_MAX in *.
  set (m := mem_set (memory o) d (host_bytes 2 (htol16 (Zlen p)))).
  assert (Zlen (host_bytes 2 (htol16 (Zlen p))) = 2) as Hh by apply Zlen_host_bytes.
  assert (memory o = cb_buffer (pb_buf (pbc_pb c))) as Hmem by (unfold memory; rewrite Hb; done).
  exists (mk (BufferWriter.between mtu ad (Zlen p) ap ST_NONE) (Encoder.mk None m im om)
    (PRI.at_state (2 + mtu) ed (2 + Zlen p) ST_DONE_PENDING) (put_memory m (buffer o)) (output o)).
  split; [|split; [|done]].
  - cbn [handle PRI.handle]; unfold run_writer; rewrite H2; cbn [ain_state]; rewrite BufferWriter.bw_completed_eq.
    cbn [foreach dispatch_ain]; cbv beta iota delta [mbind prog_bind].
    rewrite (run_on_one _ _ _ _ _ (Encoder.mk None m im om) (Encoder.OutputDone (2 + Zlen p))).
    + cbn [dispatch_enc]; unfold on_eout.
      rewrite (run_on_nil _ _ _ _ _ (PRI.at_state (2 + mtu) ed (2 + Zlen p) ST_DONE_PENDING)); [done|].
      cbn [put_enc put_ain eout]; rewrite H1; apply PRI.pri_Done_eq; lia.
    + unfold get_enc; cbn [put_ain encoder]; rewrite H3; cbn [Encoder.output_packet Encoder.input_mtu Encoder.output_mtu].
      unfold Encoder.input_handler_done; prog_simpl; cbn [Encoder.output_packet Encoder.mem].
      change (memory (put_ain _ o)) with (memory o).
      rewrite wrap_small by (change (2 ^ 16) with 65536; lia).
      rewrite mem_write_ok by (rewrite ?Hh; change (memory (put_ain _ o)) with (memory o); rewrite ?Hmem; lia); done.
  - exists (with_memory m c), (EoutDone p), d; split; [|split; [split; [|split; [|done]]|done]].
    + unfold m; rewrite Hmem; replace d with (d + 0) by lia; apply Hw; lia.
    + cbn; rewrite Hb; done.
    + eexists _, _, _, _, _, _, _, _; split; [reflexivity|]; split; [reflexivity|]; split; [reflexivity|].
      split; [done|]; split; [done|]; change (memory _) with m.
      rewrite slice_split by lia; unfold encode, m; f_equal.
      * rewrite <- Hh at 1; apply slice_mem_set_eq; rewrite ?Hh, ?Hmem; lia.
      * rewrite slice_mem_set_after by (rewrite ?Hh, ?Hmem; lia); done.
Qed.

(** A packet that lies where the buffer was told it would be is taken as it lies. *)
Lemma input_completes_in_place c d p : pbc_recv c = Some d -> 0 <= d ->
  d + Zlen p <= Zlen (cb_buffer (pb_buf (pbc_pb c))) ->
  slice d (Zlen p) (cb_buffer (pb_buf (pbc_pb c))) = p ->
  input_completes c p = match input_handler_done (Zlen p) (pbc_pb c) with
    | Ok (_, b, ks) =>
        start_calls (mk_pbc b None (pbc_send c) (pbc_received c ++ [p]) (pbc_completed c)) ks
    | Err f => Err f
    end.
Proof.
  intros Hr Hd HL Hs; unfold input_completes; rewrite Hr, mem_write_ok by done; pose proof (Zlen_nonneg p).
  rewrite <- Hs at 1; rewrite mem_set_same by lia; cbn [mbind res_bind].
  match goal with |- context [input_handler_done _ ?x] => replace x with (pbc_pb c)
    by (destruct c as [[[] ?] ? ? ? ?]; done) end.
  destruct (input_handler_done _ _) as [[[[] b] ks]|]; done.
Qed.

Lemma waiting_bound c : pb_inv enclen num c -> forall p, pbc_send c = Some p -> Zlen p <= enclen.
Proof.
  intros (q & _ & _ & _ & _ & _ & Hq & _ & ->) p Hp; destruct q as [|p1 q]; [done|].
  injection Hp as <-; apply Forall_cons_1 in Hq; tauto.
Qed.

Lemma eout_completed_step o g c ph d : rep o g c ph d -> PRI.job_done (eout o) = true ->
  exists o', handle EoutCompleted o = Ok (tt, o', []) /\
    inv o' (mk_ghost (resume o o' (hout g)) (accepted g) (delivered g)).
Proof.
  intros Hrep Hj; open_rep; rewrite H1 in Hj; destruct ph as [| | | | |p]; try discriminate Hj.
  cbv iota in Hx; destruct Hx as (-> & Hp & Hs).
  destruct (lent_place c d Hpb Hr) as (Hd & HL & _); pose proof (encode_len p) as He.
  unfold enclen, PACKETPROTO_ENCLEN, sizeof_packetproto_header in HL.
  unfold memory in Hs; rewrite Hb, <- He in Hs.
  destruct (input_step enclen num) with (c := c) (p := encode p) as (c' & Hc & Hpb' & Hrc & Hcp);
    [unfold enclen, PACKETPROTO_ENCLEN, sizeof_packetproto_header; lia | done | rewrite Hr; done |
     rewrite He; unfold enclen, PACKETPROTO_ENCLEN, sizeof_packetproto_header; lia|].
  rewrite (input_completes_in_place c d) in Hc by (done || lia).
  destruct (input_handler_done (Zlen (encode p)) (pbc_pb c)) as [[[[] b] ks]|] eqn:Hh; [|done].
  set (i := PRI.at_state enclen ed (2 + Zlen p) ST_NONE).
  edestruct (start_links ks (put_buf b (put_eout i o)) (hout g) (delivered g)) with (ph := Full) (d := d)
    as (o' & ph' & d' & Hf & Hl' & Hh' & _); [|exact Hc | apply waiting_bound; done|].
  - split; [done|]; split; [|split; [done | exact Ho]].
    eexists _, _, _, _, _, _, _, _; split; [reflexivity|]; split; [exact H2|]; split; [exact H3 | done].
  - exists o'; split.
    + cbn [handle PRI.handle]; erewrite run_on_one by (rewrite H1; apply PRI.pri_run_done_eq).
      cbn [dispatch_eout]; erewrite run_on_eq; [exact Hf|].
      cbn [put_eout buffer]; rewrite Hb, <- He; exact Hh.
    + exists c', ph', d'; split; [done|]; split; [exact Hl'|]; cbn [accepted].
      rewrite Hh', app_nil_r, Hacc, Hrc; done.
Qed.

(** ** The output *)

Lemma out_links o g c ph d u k dl : rep o g c ph d -> out_ok u k (pbc_send c) dl (pbc_completed c) ->
  inv (put_out u o) (mk_ghost k (accepted g) dl).
Proof.
  intros Hrep Hu; open_rep; exists c, ph, d; split; [done|]; split; [|done].
  split; [done|]; split; [|split; done].
  exists ed, en, ad, an, ap, im, om, em; split; [done|]; split; [done|]; split; done.
Qed.

Definition out_enabled (e : PPI.event) (o : t) (g : ghost) : Prop :=
  PPI.enabled e (output o) (hout g) /\ (forall d, e <> PPI.ESend d) /\ e <> PPI.ERequestCancel.

Lemma out_step e o g c ph d : rep o g c ph d -> out_enabled e o g -> e <> PPI.ECompleted ->
  exists o' calls, handle (Out e) o = Ok (tt, o', calls) /\
    inv o' (mk_ghost (PPI.count e (hout g)) (accepted g)
      (match e with
       | PPI.EOperation => delivered g ++ [default [] (PPI.job_operation_data (output o))]
       | _ => delivered g end)).
Proof.
  intros Hrep (He & Hn & Hnc) Hne; pose proof Hrep as (_ & (_ & _ & _ & (Hu & Hm & Hsend)) & _).
  destruct (PPI.ppi_inv_step e _ _ Hu He) as (u' & Hr & Hu' & Hm' & _).
  pose proof (PPI.ppi_not_pending _ _ _ _ Hr Hn Hnc) as Hj.
  destruct (PPI.ppi_inv_counts _ _ Hu) as (_ & Hc2 & Hc3).
  destruct e; try done; [destruct (Hn data); done|..]; cbn [PPI.calls_of PPI.enabled] in Hr, He, Hj.
  - eexists _, _; split; [apply run_on_nil; exact Hr|]; apply (out_links _ _ _ _ _ _ _ _ Hrep).
    split; [done|]; split; [lia|]; destruct (pbc_send c) as [p|].
    + destruct Hsend as (? & Hd & Hdl); split; [done|]; rewrite Hj; split; [|done].
      intros E; destruct (PPI.ppi_op_kept _ _ _ _ Hr Hn) as (_ & -> & ->); [congruence | auto].
    + destruct Hsend as (Hi & _ & _); specialize (Hc3 He); unfold user_idle in Hi; lia.
  - eexists _, _; split; [cbn [handle]; erewrite run_on_one by exact Hr; reflexivity|].
    apply (out_links _ _ _ _ _ _ _ _ Hrep); split; [done|]; split; [lia|].
    destruct (pbc_send c) as [p|]; destruct Hsend as (Hi & Hd & Hdl); [|congruence].
    destruct (Hd He) as [Hd1 Hd2]; split; [done|]; rewrite Hj; split; [done|].
    rewrite Hd1, Hdl, He; done.
  - eexists _, _; split; [cbn [handle]; erewrite run_on_one by exact Hr; reflexivity|].
    apply (out_links _ _ _ _ _ _ _ _ Hrep); split; [done|]; split; [lia|].
    destruct (PPI.inv_cancel _ _ Hu He) as [Hb _]; specialize (Hc3 Hb).
    destruct (pbc_send c) as [p|].
    + destruct Hsend as (? & Hd & Hdl); split; [done|]; rewrite Hj; split; [|done].
      intros E; destruct (PPI.ppi_op_kept _ _ _ _ Hr Hn) as (_ & -> & ->); [congruence | auto].
    + destruct Hsend as (Hi & _ & _); unfold user_idle in Hi; lia.
Qed.

Lemma out_completed_step o g c ph d : rep o g c ph d -> out_enabled PPI.ECompleted o g ->
  exists o', handle (Out PPI.ECompleted) o = Ok (tt, o', []) /\
    inv o' (mk_ghost (resume o o' (PPI.count PPI.ECompleted (hout g))) (accepted g) (delivered g)).
Proof.
  intros Hrep (He & Hn & Hnc); open_rep; destruct Ho as (Hu & Hm & Hsend).
  destruct (PPI.ppi_inv_step PPI.ECompleted _ _ Hu He) as (u' & Hr' & Hu' & Hm' & _).
  pose proof (PPI.ppi_not_pending _ _ _ _ Hr' Hn Hnc) as Hj; cbv iota in Hj.
  destruct (PPI.ppi_inv_completed _ _ Hu He) as [Hst Hrf].
  pose proof (PPI.done_not_pending _ _ Hu He) as Hj0.
  destruct (pbc_send c) as [p|] eqn:Es; [|destruct Hsend as [Hi _]; unfold user_idle in Hi; lia].
  destruct Hsend as (_ & _ & Hdl); rewrite Hj0 in Hdl.
  destruct (output_step enclen num) with (c := c) (p := p) as (c' & Hc & Hpb' & Hrc & Hcp & Hmem);
    [unfold enclen, PACKETPROTO_ENCLEN, sizeof_packetproto_header; lia | done | done |].
  unfold output_completes in Hc; rewrite Es in Hc; cbn [mbind res_bind] in Hc.
  destruct (output_handler_done (pbc_pb c)) as [[[[] b] ks]|] eqn:Hh; [|done].
  edestruct (start_links ks (put_buf b (put_out u' o)) (PPI.count PPI.ECompleted (hout g)) (delivered g))
    with (ph := ph) (d := d) as (o' & ph' & d' & Hf & Hl' & Hh' & _); [|exact Hc | apply waiting_bound; done|].
  - split; [done|]; split; [|split; [exact Hr|]].
    + eexists _, _, _, _, _, _, _, _; split; [exact H1|]; split; [exact H2|]; split; [exact H3|].
      assert (memory (put_buf b (put_out u' o)) = memory o) as ->; [|exact Hx].
      rewrite (start_calls_pb _ _ _ Hc) in Hmem; cbn [pbc_pb] in Hmem.
      unfold memory; rewrite Hb; exact Hmem.
    + split; [exact Hu'|]; split; [cbn [put_buf put_out output]; lia|]; cbn [pbc_send pbc_completed].
      split; [unfold user_idle; cbn; lia|]; split; [cbn [put_buf put_out output]; congruence | done].
  - exists o'; split.
    + cbn [handle]; erewrite run_on_one by exact Hr'.
      cbn [dispatch_out]; erewrite run_on_eq; [exact Hf|].
      cbn [put_out buffer]; rewrite Hb; exact Hh.
    + exists c', ph', d'; split; [done|]; split; [|cbn [accepted]; rewrite Hh', Hacc, Hrc; done].
      cbn [hout delivered]; replace (resume o o' _) with
        (resume (put_buf b (put_out u' o)) o' (PPI.count PPI.ECompleted (hout g))); [exact Hl'|].
      unfold resume; cbn [put_buf put_out output]; rewrite Hj; done.
Qed.

(** ** The flow as a whole *)

Definition enabled (e : event) (o : t) (g : ghost) : Prop :=
  match e with
  | Packet p => Zlen p <= BufferWriter.d_mtu (ainput o)
  | AinOperation => PRI.job_operation (BufferWriter.recv_interface (ainput o)) = true
  | AinCompleted => PRI.job_done (BufferWriter.recv_interface (ainput o)) = true
  | EoutOperation => PRI.job_operation (eout o) = true
  | EoutCompleted => PRI.job_done (eout o) = true
  | Out e => out_enabled e o g
  end.
(** A packet counts as accepted when the writer has a place for it, and as delivered when the
    output's provider is given it. *)
Definition count (e : event) (o o' : t) (g : ghost) : ghost :=
  match e with
  | Packet p =>
      if BufferWriter.out_have (ainput o)
      then mk_ghost (hout g) (accepted g ++ [p]) (delivered g) else g
  | EoutCompleted => mk_ghost (resume o o' (hout g)) (accepted g) (delivered g)
  | Out PPI.ECompleted =>
      mk_ghost (resume o o' (PPI.count PPI.ECompleted (hout g))) (accepted g) (delivered g)
  | Out PPI.EOperation =>
      mk_ghost (PPI.count PPI.EOperation (hout g)) (accepted g)
        (delivered g ++ [default [] (PPI.job_operation_data (output o))])
  | Out e => mk_ghost (PPI.count e (hout g)) (accepted g) (delivered g)
  | _ => g
  end.
Inductive step : t * ghost -> t * ghost -> Prop :=
| step_intro e o g o' calls : enabled e o g -> handle e o = Ok (tt, o', calls) ->
    step (o, g) (o', count e o o' g).

Lemma ppf_inv_step e o g : inv o g -> enabled e o g ->
  exists o' calls, handle e o = Ok (tt, o', calls) /\ inv o' (count e o o' g).
Proof.
  intros (c & ph & d & Hrep) He; destruct e as [p| | | | |e]; cbn [enabled] in He.
  - assert (BufferWriter.d_mtu (ainput o) = mtu) as Hm.
    { destruct Hrep as (_ & (_ & (ed & en & ad & an & ap & im & om & em & _ & -> & _) & _) & _); done. }
    rewrite Hm in He; destruct (packet_step p o g c ph d Hrep He) as (o' & Hw & _ & Ha).
    exists o', []; split; [exact Hw|]; cbn [count].
    destruct (BufferWriter.out_have (ainput o)); [exact Ha|]; subst o'; exists c, ph, d; done.
  - destruct (ain_operation_step o g c ph d Hrep He) as (o' & Hw & Hi & _); eauto.
  - destruct (ain_completed_step o g c ph d Hrep He) as (o' & Hw & Hi & _); eauto.
  - destruct (eout_operation_step o g c ph d Hrep He) as (o' & Hw & Hi & _); eauto.
  - destruct (eout_completed_step o g c ph d Hrep He) as (o' & Hw & Hi); eauto.
  - assert (e = PPI.ECompleted \/ e <> PPI.ECompleted) as [->|Hne] by (destruct e; auto; right; done).
    + destruct (out_completed_step o g c ph d Hrep He) as (o' & Hw & Hi); eauto.
    + destruct (out_step e o g c ph d Hrep He Hne) as (o' & calls & Hw & Hi); exists o', calls.
      split; [exact Hw|]; destruct e; try done; exact Hi.
Qed.

Lemma on_writer_eq {A} (f : BufferWriter.bp A) o a w : f (ainput o) = Ok (a, w, []) ->
  on_writer f o = Ok (a, put_ain w o, []).
Proof. unfold on_writer; intros ->; done. Qed.
Lemma encoder_init_eq m e : m <= PACKETPROTO_MAXPAYLOAD ->
  Encoder.PacketProtoEncoder_Init m e =
    Ok (tt, Encoder.mk None (Encoder.mem e) m (PACKETPROTO_ENCLEN m), []).
Proof. intros; unfold Encoder.PacketProtoEncoder_Init; prog_simpl; decide_tests; done. Qed.
Lemma start_calls_received ks c c' : start_calls c ks = Ok c' -> pbc_received c' = pbc_received c.
Proof.
  revert c; induction ks as [|x ks IH]; intros c; cbn [start_calls]; [intros [= <-]; done|].
  destruct (start_call c x) as [c1|] eqn:E; [|done]; intros Hc; rewrite (IH c1 Hc).
  destruct x as [[d|]|[d|] n]; try done; unfold start_call in E; prog_simpl;
    (case_match; [|done]); [|destruct (mem_read _ _ _); [|done]]; injection E as <-; done.
Qed.

(** The flow set up with memory [m] for the buffer, on an output of sufficient MTU. *)
Definition started (m : list Z) (o o0 : t) : Prop :=
  PacketProtoFlow_Init mtu num (fun _ => Some m) o = Ok (true, o0, []).

(** The parts set up but for the buffer, [u] being the output with the buffer as its user. *)
Definition attached (o : t) (u : PPI.t) : t :=
  mk (BufferWriter.between mtu (PRI.job_operation_data (BufferWriter.recv_interface (ainput o)))
       (PRI.job_done_len (BufferWriter.recv_interface (ainput o))) (BufferWriter.out (ainput o)) ST_NONE)
    (Encoder.mk None (memory o) mtu enclen)
    (PRI.at_state enclen (PRI.job_operation_data (eout o)) (PRI.job_done_len (eout o)) ST_NONE) (buffer o) u.

Lemma ppf_init_eq mem o u : enclen <= PPI.mtu (output o) ->
  PPI.Sender_Init (output o) = Ok (tt, u, []) -> PPI.mtu u = PPI.mtu (output o) ->
  PacketProtoFlow_Init mtu num mem o =
    match PacketBuffer_Init enclen (PPI.mtu (output o)) num mem (buffer o) with
    | Ok (r, b, ks) => (foreach dispatch_buf ks;; mret r) (put_buf b (attached o u))
    | Err f => Err f
    end.
Proof.
  intros Hom Hsi Hmu; destruct o as [[[im ihd ijo ijod ijd ijdl ist] oh op dm dw] [eo em eim eom] [jm jhd jjo jjod jjd jjdl jst] pb v].
  cbn [output buffer] in *.
  unfold PacketProtoFlow_Init; cbv beta iota zeta delta [mbind prog_bind pget passert pmod mret prog_ret].
  cbn [output]; test_true (0 <=? mtu); test_true (mtu <=? PACKETPROTO_MAXPAYLOAD); test_true (0 <? num).
  unfold enclen in Hom; test_true (PACKETPROTO_ENCLEN mtu <=? PPI.mtu v); cbv iota.
  erewrite on_writer_eq by (cbn [ainput]; apply BufferWriter.bw_Init_eq; lia).
  erewrite on_writer_eq by (apply BufferWriter.bw_Receiver_Init_eq).
  rewrite (run_on_nil _ _ _ _ _ (Encoder.mk None (cb_buffer (pb_buf pb)) mtu enclen))
    by (apply encoder_init_eq; lia).
  unfold on_eout at 1; rewrite (run_on_nil _ _ _ _ _ (PRI.mk enclen false false jjod false jjdl ST_NONE))
    by (apply PRI.pri_Init_eq; unfold enclen, PACKETPROTO_ENCLEN, sizeof_packetproto_header; cbn; lia).
  unfold on_eout at 1; rewrite (run_on_nil _ _ _ _ _ (PRI.at_state enclen jjod jjdl ST_NONE)) by done.
  unfold on_output at 1; rewrite (run_on_nil _ _ _ _ _ u) by exact Hsi.
  cbn [put_out put_eout put_enc put_ain put_buf eout output buffer]; cbn [PRI.at_state PRI.mtu].
  cbn [Encoder.mem]; rewrite put_memory_same, Hmu.
  destruct (PacketBuffer_Init _ _ _ _ _) as [[[r b] ks]|]; [|done].
  match goal with |- context [foreach dispatch_buf ks ?x] => change x with (put_buf b (attached
    (mk (BufferWriter.mk (PRI.mk im ihd ijo ijod ijd ijdl ist) oh op dm dw) (Encoder.mk eo em eim eom)
      (PRI.mk jm jhd jjo jjod jjd jjdl jst) pb v) u)) end.
  destruct (foreach _ _ _) as [[[[] o2] c]|]; [rewrite app_nil_r|]; done.
Qed.

(** Without memory for the buffer the flow is not set up. *)
Lemma ppf_init_no_memory o : PPI.fresh (output o) -> enclen <= PPI.mtu (output o) ->
  exists o0, PacketProtoFlow_Init mtu num (fun _ => None) o = Ok (false, o0, []).
Proof.
  intros Hf Hom; destruct (PPI.fresh_user _ Hf) as (u & Hsi & _ & Hmu & _).
  rewrite (ppf_init_eq _ _ u Hom Hsi Hmu); unfold PacketBuffer_Init; prog_simpl.
  test_true (enclen <=? PPI.mtu (output o)); test_true (0 <? num); cbv iota.
  destruct (_ <? 0); cbv iota; eexists; reflexivity.
Qed.

Lemma ppf_init_inv m o : PPI.fresh (output o) -> enclen <= PPI.mtu (output o) ->
  0 < ChunkBuffer2_calc_blocks enclen num -> 4 * ChunkBuffer2_calc_blocks enclen num <= INT_MAX ->
  Zlen m = 4 * ChunkBuffer2_calc_blocks enclen num ->
  exists o0, started m o o0 /\
    inv o0 (mk_ghost h0 [] []).
Proof.
  intros Hf Hom Hpos Hmax HL.
  destruct (init_step enclen num) with (out_mtu := PPI.mtu (output o)) (m := m) (o := buffer o)
    as (c & (b & ks & Hinit & Hst) & Hpb); try done;
    [unfold enclen, PACKETPROTO_ENCLEN, sizeof_packetproto_header; lia|].
  destruct (PPI.fresh_user _ Hf) as (u' & Hsi & Hu & Hmu & Hju & _).
  set (o1 := put_buf b (attached o u')).
  edestruct (start_links ks o1 h0 []) with (ph := Full) (d := 0)
    as (o0 & ph & d & Hfe & Hl & Hh & _); [|exact Hst | apply waiting_bound; done|].
  - split; [done|]; split; [|split; [done|]].
    + eexists _, _, _, _, _, _, _, _; split; [reflexivity|]; split; [reflexivity|]; split; [reflexivity | done].
    + split; [exact Hu|]; split; [cbn [output o1 put_buf attached]; lia | done].
  - exists o0; split.
    + unfold started; rewrite (ppf_init_eq _ _ u' Hom Hsi Hmu), Hinit; fold o1.
      unfold mbind, prog_bind; rewrite Hfe; done.
    + exists c, ph, d; split; [done|]; split.
      * cbn [hout delivered]; pose proof (start_calls_received _ _ _ Hst) as Hrc; cbn [pbc_received] in Hrc.
        destruct Hpb as (q & _ & _ & _ & _ & Hrq & _ & _ & Hsd); rewrite Hrc in Hrq.
        symmetry in Hrq; apply app_eq_nil in Hrq as [_ ->]; cbn [head] in Hsd.
        pose proof Hl as (_ & _ & _ & _ & _ & Ho); rewrite Hsd in Ho; destruct Ho as (_ & Hj & _).
        unfold resume in Hl; rewrite Hj in Hl; exact Hl.
      * rewrite Hh, (start_calls_received _ _ _ Hst); done.
Qed.

(** None of the jobs between the parts is pending. *)
Definition settled (o : t) : Prop :=
  PRI.job_operation (BufferWriter.recv_interface (ainput o)) = false /\
  PRI.job_done (BufferWriter.recv_interface (ainput o)) = false /\
  PRI.job_operation (eout o) = false /\ PRI.job_done (eout o) = false.

(** C21: A flow carries every packet it accepts to its output, encoded, whole and in order: what the
    output's provider has been given is a prefix of the encoded packets accepted. No assertion
    of the writer, the encoder, the buffer or the interfaces fails and no access leaves the
    shared memory, whenever the jobs run and the output completes. Once the jobs between the
    parts have run, the writer has a place for another packet unless the buffer is full. *)
Theorem PacketProtoFlow_delivers m o : PPI.fresh (output o) -> enclen <= PPI.mtu (output o) ->
  0 < ChunkBuffer2_calc_blocks enclen num -> 4 * ChunkBuffer2_calc_blocks enclen num <= INT_MAX ->
  Zlen m = 4 * ChunkBuffer2_calc_blocks enclen num ->
  exists o0, started m o o0 /\ forall o' g', star step (o0, mk_ghost h0 [] []) (o', g') ->
    (forall e, enabled e o' g' -> is_ok (handle e o')) /\
    (exists rest, map encode (accepted g') = delivered g' ++ rest) /\
    (settled o' -> Zlen (accepted g') + 1 < Zlen (delivered g') + num \/ user_idle (hout g') ->
     BufferWriter.out_have (ainput o') = true).
Proof.
  intros Hf Hom Hpos Hmax HL; destruct (ppf_init_inv m o Hf Hom Hpos Hmax HL) as (o0 & Hst & Hi0).
  exists o0; split; [done|]; intros o' g' Hs; assert (inv o' g') as Hinv.
  { refine (star_invariant step (fun x => inv (fst x) (snd x)) _ _ _ Hs Hi0).
    intros [a ga] [b gb] Ha Hab; inversion Hab; subst; cbn in *.
    destruct (ppf_inv_step e a ga) as (b' & calls' & Hb & Hinv'); [done..|]; congruence. }
  split; [|split].
  - intros e He; destruct (ppf_inv_step e o' g' Hinv He) as (o2 & calls & H2 & _); eexists; done.
  - destruct Hinv as (c & ph & d & (q & _ & _ & _ & _ & Hrcv & _ & _ & Hsd) & (_ & _ & _ & _ & _ & Ho) & ->).
    rewrite Hrcv, Hsd in *; destruct q as [|p q]; cbn [head] in Ho.
    + destruct Ho as (_ & _ & ->); rewrite <- app_assoc; eauto.
    + destruct Ho as (_ & _ & ->); destruct (PPI.job_operation _);
      [exists ((p :: q) ++ in_hand ph) | exists (q ++ in_hand ph)]; rewrite <- !app_assoc; done.
  - intros (J1 & J2 & J3 & J4) Hroom; destruct Hinv as (c & ph & d & Hrep); open_rep.
    rewrite H1 in J3, J4; rewrite H2 in J1, J2 |- *; destruct ph; try done; exfalso.
    destruct Hpb as (q & Hrep & Hm & Hbm & Hbs & Hrcv & Hq & Hrecv & Hsd); rewrite Hr in Hrecv.
    destruct (rep_capacity _ q enclen num ltac:(unfold enclen, PACKETPROTO_ENCLEN, sizeof_packetproto_header; lia)
      Hnum Hrep Hbm Hbs Hq) as [Hd Ha].
    + destruct Ho as (_ & _ & Ho); rewrite Hsd in Ho; destruct q as [|p q]; [zlen_nil; lia|].
      cbn [head] in Ho; destruct Ho as (Hbusy & _ & Hdl); unfold user_idle in Hroom.
      destruct Hroom as [Hroom|]; [|lia]; apply (f_equal Zlen) in Hacc.
      cbn [in_hand] in Hacc; rewrite app_nil_r, Hrcv in Hacc; unfold Zlen in Hacc at 1.
      rewrite length_map in Hacc; fold (Zlen (accepted g')) in Hacc; rewrite Hdl in Hroom.
      destruct (PPI.job_operation _); rewrite !Zlen_app, ?Zlen_cons in *; zlen_nil; lia.
    + destruct (Z.leb_spec enclen (input_avail (pb_buf (pbc_pb c)))); [|lia].
      destruct (input_dest _); done.
Qed.
End ppf_proofs.

Definition sample : t :=
  mk (BufferWriter.mk (PRI.mk 0 false false None false 0 ST_NONE) false 0 0 false)
    (Encoder.mk None [] 0 0) (PRI.mk 0 false false None false 0 ST_NONE) pb_blank
    (PPI.mk 1500 false false false None 0 false false ST_NONE false).

(** Packets of at most 5 bytes, two of them. *)
Lemma PacketProtoFlow_delivers_witness : exists o0,
  @started arm64 5 2 (replicate 36 0) sample o0 /\ is_ok (@handle arm64 EoutOperation o0).
Proof.
  destruct (@PacketProtoFlow_delivers arm64 5 2 ltac:(vm_compute; intuition congruence) ltac:(lia)
    (replicate 36 0) sample) as (o0 & Hst & H);
    [split_and!; try reflexivity; vm_compute; intuition congruence
    | vm_compute; first [reflexivity | intuition congruence] .. |].
  destruct (H _ _ (star_refl _ _)) as (He & _); exists o0; split; [exact Hst|]; apply (He EoutOperation).
  vm_compute in Hst; injection Hst as <-; reflexivity.
Defined.
End PPF.
