(* ===== verification/OrderedTree.v ===== *)
(** What the intrusive trees of structure/ (SAvl, BAVL) promise to their users: a set of nodes,
    known by their addresses, kept in the order of a comparison that reads the nodes. The users'
    theorems are proved against the class. BAVLRefines.v gives the instance that the program uses;
    a sorted list, the reference, is another. *)

From S2P Require Import Prelude MiscArith.
From Stdlib Require Import Sorted.

(** [ot_insert cmp x t] refuses a node that compares equal to one in the tree; [ot_lookup k t]
    finds the node a key compares equal to, [k y] being the comparison of the key with [y]. *)
Class OrdTree (T : Type) := {
  ot_empty : T;
  ot_elements : T -> list Z;
  ot_first : T -> option Z;
  ot_insert : (Z -> Z -> Z) -> Z -> T -> T * bool;
  ot_remove : Z -> T -> T;
  ot_lookup : (Z -> Z) -> T -> option Z }.

Definition below (cmp : Z -> Z -> Z) (a b : Z) : Prop := cmp a b < 0.
Definition in_order (cmp : Z -> Z -> Z) (l : list Z) : Prop := StronglySorted (below cmp) l.

(** Comparisons return -1, 0 or 1, as the trees assert. *)
Definition three_way (k : Z -> Z) : Prop := forall a, -1 <= k a <= 1.

(** The comparison is a strict order on the nodes [l]. *)
Definition cmp_order (cmp : Z -> Z -> Z) (l : list Z) : Prop :=
  (forall a b, a ∈ l -> b ∈ l -> (cmp a b < 0 <-> 0 < cmp b a)) /\
  (forall a b c, a ∈ l -> b ∈ l -> c ∈ l -> cmp a b < 0 -> cmp b c < 0 -> cmp a c < 0).

(** The key keeps its side along the order of the nodes. *)
Definition key_order (cmp : Z -> Z -> Z) (k : Z -> Z) (l : list Z) : Prop :=
  forall a b, a ∈ l -> b ∈ l -> cmp a b < 0 -> (k a <= 0 -> k b < 0) /\ (0 <= k b -> 0 < k a).

Definition remove_node (x : Z) (l : list Z) : list Z := List.filter (fun y => negb (y =? x)) l.

Class OrdTreeOk (T : Type) `{OrdTree T} := {
  ot_empty_elements : ot_elements ot_empty = [];
  ot_first_head t : ot_first t = head (ot_elements t);
  ot_insert_new cmp x t : (forall a, three_way (cmp a)) -> cmp_order cmp (x :: ot_elements t) -> in_order cmp (ot_elements t) ->
    (forall y, y ∈ ot_elements t -> cmp x y <> 0) ->
    exists t', ot_insert cmp x t = (t', true) /\ ot_elements t' ≡ₚ x :: ot_elements t /\
      in_order cmp (ot_elements t');
  ot_insert_old cmp x t y : (forall a, three_way (cmp a)) -> cmp_order cmp (x :: ot_elements t) -> in_order cmp (ot_elements t) ->
    y ∈ ot_elements t -> cmp x y = 0 -> ot_insert cmp x t = (t, false);
  ot_remove_elements x t : ot_elements (ot_remove x t) = remove_node x (ot_elements t);
  ot_lookup_found cmp k t : three_way k -> in_order cmp (ot_elements t) -> key_order cmp k (ot_elements t) ->
    match ot_lookup k t with
    | Some y => y ∈ ot_elements t /\ k y = 0
    | None => forall y, y ∈ ot_elements t -> k y <> 0
    end }.

Lemma remove_node_elem x y l : y ∈ remove_node x l <-> y ∈ l /\ y <> x.
Proof.
  unfold remove_node; rewrite !list_elem_of_In, List.filter_In, negb_true_iff, Z.eqb_neq; done.
Qed.

Lemma remove_node_eq x y l :
  remove_node x (y :: l) = if y =? x then remove_node x l else y :: remove_node x l.
Proof. unfold remove_node; cbn; destruct (y =? x); done. Qed.

Lemma remove_node_absent x l : x ∉ l -> remove_node x l = l.
Proof.
  intros Hx; induction l as [|y l IH]; [done|]; rewrite remove_node_eq, IH by set_solver.
  destruct (Z.eqb_spec y x); [subst; set_solver | done].
Qed.

Lemma remove_node_cons x l : x ∉ l -> remove_node x (x :: l) = l.
Proof. intros; rewrite remove_node_eq, Z.eqb_refl; apply remove_node_absent; done. Qed.

Lemma remove_node_NoDup x l : NoDup l -> NoDup (remove_node x l).
Proof.
  induction 1 as [|y l Hy _ IH]; [constructor|]; rewrite remove_node_eq; destruct (y =? x); [done|].
  constructor; [rewrite remove_node_elem; tauto | done].
Qed.

Lemma Zlen_remove_node x l : NoDup l -> x ∈ l -> Zlen l = Zlen (remove_node x l) + 1.
Proof.
  induction 1 as [|y l Hy Hl IH]; intros Hx; [inversion Hx|]; rewrite remove_node_eq, Zlen_cons.
  destruct (Z.eqb_spec y x) as [->|Hn]; [rewrite remove_node_absent by done; lia|].
  apply elem_of_cons in Hx as [->|Hx]; [done|]; rewrite Zlen_cons; specialize (IH Hx); lia.
Qed.

Lemma remove_node_perm c l : NoDup l -> c ∈ l -> c :: remove_node c l ≡ₚ l.
Proof.
  induction 1 as [|x l Hx Hl IH]; intros Hc; [inversion Hc|]; rewrite remove_node_eq.
  destruct (Z.eqb_spec x c) as [->|Hn]; [rewrite remove_node_absent; done|].
  apply elem_of_cons in Hc as [->|Hc]; [done|]; rewrite Permutation_swap; rewrite IH; done.
Qed.

Lemma in_order_remove cmp x l : in_order cmp l -> in_order cmp (remove_node x l).
Proof.
  induction 1 as [|y l Hl IH Hy]; [constructor|]; rewrite remove_node_eq; destruct (y =? x); [done|].
  constructor; [done|]; apply List.Forall_forall; intros z Hz.
  rewrite List.Forall_forall in Hy; apply Hy; apply List.filter_In in Hz; tauto.
Qed.

(** An order that agrees on the nodes keeps them in order. *)
Lemma in_order_agree cmp cmp' l :
  (forall a b, a ∈ l -> b ∈ l -> cmp a b < 0 -> cmp' a b < 0) -> in_order cmp l -> in_order cmp' l.
Proof.
  intros Ha Hl; induction Hl as [|x l Hl IH Hx]; constructor.
  - apply IH; intros; apply Ha; [constructor; done.. | done].
  - rewrite List.Forall_forall in Hx |- *; intros y Hy; apply Ha; [constructor | | apply Hx; done].
    apply list_elem_of_In; right; done.
Qed.

Lemma in_order_head cmp x l y : in_order cmp (x :: l) -> y ∈ l -> cmp x y < 0.
Proof.
  inversion 1 as [|? ? _ Hx]; subst; intros Hy; rewrite List.Forall_forall in Hx.
  apply Hx, list_elem_of_In; done.
Qed.

(** * Trees keyed by a field of their nodes *)

(** A comparison function on keys, where [ok] holds. *)
Definition comparator {K} (ok : K -> Prop) (cmp : K -> K -> Z) : Prop :=
  (forall a b, ok a -> ok b -> (cmp a b = 0 <-> a = b) /\ (cmp a b < 0 <-> 0 < cmp b a)) /\
  (forall a b c, ok a -> ok b -> ok c -> cmp a b < 0 -> cmp b c < 0 -> cmp a c < 0).

Section keyed.
Context {T : Type} `{OrdTreeOk T} {K : Type} (ok : K -> Prop) (cmp : K -> K -> Z) (Hcmp : comparator ok cmp).

Definition by_key (key : Z -> K) (a b : Z) : Z := cmp (key a) (key b).

Lemma by_key_order key l : (forall c, c ∈ l -> ok (key c)) -> cmp_order (by_key key) l.
Proof.
  intros Hok; destruct Hcmp as [Ho Ht]; split.
  - intros a b Ha Hb; apply Ho; auto.
  - intros a b c Ha Hb Hc; apply Ht; auto.
Qed.

Lemma in_order_by key l a b : (forall c, c ∈ l -> ok (key c)) -> in_order (by_key key) l ->
  a ∈ l -> b ∈ l -> key a = key b -> a = b.
Proof.
  intros Hok; induction 1 as [|x l Hl IH Hx]; intros Ha Hb He; [inversion Ha|].
  rewrite List.Forall_forall in Hx.
  assert (forall y, y ∈ l -> key x <> key y) as Hne.
  { intros y Hy Hk; specialize (Hx y (proj1 (list_elem_of_In _ _) Hy)); unfold below, by_key in Hx; rewrite Hk in Hx.
    assert (ok (key y)) as Hoky by (apply Hok; right; done).
    destruct Hcmp as [Ho _]; destruct (Ho (key y) (key y) Hoky Hoky) as [Hz _]; rewrite (proj2 Hz eq_refl) in Hx; lia. }
  apply elem_of_cons in Ha as [->|Ha], Hb as [->|Hb]; [done | destruct (Hne _ Hb He) | destruct (Hne _ Ha); done |].
  apply IH; auto; intros c Hc; apply Hok; right; done.
Qed.

Lemma by_key_key_order key k l : (forall c, c ∈ l -> ok (key c)) -> ok k ->
  key_order (by_key key) (fun c => cmp k (key c)) l.
Proof.
  intros Hok Hk a b Ha Hb Hlt; destruct Hcmp as [Ho Ht]; pose proof (Hok a Ha); pose proof (Hok b Hb); split; intros Hs.
  - destruct (Z.eq_dec (cmp k (key a)) 0) as [E|]; [apply Ho in E as ->; done | apply (Ht _ (key a)); auto; lia].
  - apply Ho; auto; destruct (Z.eq_dec (cmp k (key b)) 0) as [E|]; [apply Ho in E as ->; done|].
    apply (Ht _ (key b)); auto; apply Ho; auto; lia.
Qed.

Lemma keyed_lookup key k t : (forall a, -1 <= cmp k a <= 1) -> (forall c, c ∈ ot_elements t -> ok (key c)) -> ok k ->
  in_order (by_key key) (ot_elements t) ->
  match ot_lookup (fun c => cmp k (key c)) t with
  | Some c => c ∈ ot_elements t /\ key c = k
  | None => forall c, c ∈ ot_elements t -> key c <> k
  end.
Proof.
  intros H3 Hok Hk Hord; pose proof (ot_lookup_found _ (fun c => cmp k (key c)) t (fun c => H3 (key c)) Hord (by_key_key_order key k _ Hok Hk)) as Hl.
  destruct (ot_lookup _ t) as [c|].
  - destruct Hl as [Hc Hz]; split; [done|]; symmetry; apply (proj1 Hcmp); auto.
  - intros c Hc <-; apply (Hl c Hc), (proj1 Hcmp); auto.
Qed.

Lemma keyed_insert key c t : (forall a b, -1 <= cmp a b <= 1) -> (forall x, x ∈ ot_elements t -> ok (key x)) -> ok (key c) ->
  in_order (by_key key) (ot_elements t) -> (forall x, x ∈ ot_elements t -> key x <> key c) ->
  exists t', ot_insert (by_key key) c t = (t', true) /\ ot_elements t' ≡ₚ c :: ot_elements t /\
    in_order (by_key key) (ot_elements t').
Proof.
  intros H3 Hok Hc Hord Hne; apply ot_insert_new; [intros a b; apply H3| |done|].
  - apply by_key_order; intros x Hx; apply elem_of_cons in Hx as [->|Hx]; auto.
  - intros x Hx Hz; apply (Hne x Hx); symmetry; apply (proj1 Hcmp); auto.
Qed.

(** The order depends on the keys of the nodes only. *)
Lemma in_order_keys key key' l : (forall c, c ∈ l -> key' c = key c) ->
  in_order (by_key key) l -> in_order (by_key key') l.
Proof. intros Hk; apply in_order_agree; intros a b Ha Hb; unfold by_key; rewrite !Hk by done; done. Qed.
End keyed.

(** * Trees ordered by a number of their nodes and then by address *)

Section numbered.
Context (key : Z -> Z).
Definition compare_by (a b : Z) : Z :=
  let cmp := B_COMPARE (key a) (key b) in if negb (cmp =? 0) then cmp else B_COMPARE a b.

Ltac compare_cases a b :=
  unfold compare_by, B_COMPARE, b2z; destruct (Z.ltb_spec (key b) (key a)), (Z.ltb_spec (key a) (key b)), (Z.ltb_spec b a), (Z.ltb_spec a b);
  change (1 - 0) with 1; change (0 - 1) with (-1); change (0 - 0) with 0; change (1 - 1) with 0;
  change (1 =? 0) with false; change (-1 =? 0) with false; change (0 =? 0) with true; cbn [negb]; lia.
Lemma compare_by_lt a b : compare_by a b < 0 <-> key a < key b \/ key a = key b /\ a < b.
Proof. compare_cases a b. Qed.
Lemma compare_by_gt a b : 0 < compare_by b a <-> compare_by a b < 0.
Proof. compare_cases a b. Qed.
Lemma compare_by_three_way a b : -1 <= compare_by a b <= 1.
Proof. compare_cases a b. Qed.
Lemma compare_by_eq a b : compare_by a b = 0 -> a = b.
Proof. pose proof (compare_by_lt a b); pose proof (compare_by_lt b a); pose proof (compare_by_gt b a); lia. Qed.
Lemma compare_by_order l : cmp_order compare_by l.
Proof. split; intros; [symmetry; apply compare_by_gt | rewrite compare_by_lt in *; lia]. Qed.
Lemma compare_by_least f l y : in_order compare_by (f :: l) -> y ∈ f :: l -> key f <= key y.
Proof.
  intros Ho Hy; apply elem_of_cons in Hy as [->|Hy]; [lia|].
  pose proof (in_order_head _ _ _ _ Ho Hy) as Hc; apply compare_by_lt in Hc; lia.
Qed.
End numbered.
(** Only the differences of the numbers matter to the order. *)
Lemma compare_by_shift key key' s l : (forall y, y ∈ l -> key' y = key y - s) ->
  in_order (compare_by key) l -> in_order (compare_by key') l.
Proof. intros Ht; apply in_order_agree; intros a b Ha Hb; rewrite !compare_by_lt, !Ht by done; lia. Qed.

(** * The reference instance *)

Fixpoint insert_sorted (cmp : Z -> Z -> Z) (x : Z) (l : list Z) : list Z * bool :=
  match l with
  | [] => ([x], true)
  | y :: l' =>
    let c := cmp x y in
    if c <? 0 then (x :: l, true)
    else if c =? 0 then (l, false)
    else let '(r, b) := insert_sorted cmp x l' in (y :: r, b)
  end.

#[export] Instance sorted_list : OrdTree (list Z) := {
  ot_empty := []; ot_elements := fun l => l; ot_first := head;
  ot_insert := insert_sorted; ot_remove := remove_node;
  ot_lookup := fun k l => List.find (fun y => k y =? 0) l }.

Lemma cmp_order_mono cmp l l' : (forall a, a ∈ l' -> a ∈ l) -> cmp_order cmp l -> cmp_order cmp l'.
Proof.
  intros Hl [Ho Ht]; split; [intros a b Ha Hb; apply Ho; auto|].
  intros a b c Ha Hb Hc; apply Ht; auto.
Qed.

Lemma cmp_order_tail cmp x y l : cmp_order cmp (x :: y :: l) -> cmp_order cmp (x :: l).
Proof.
  apply cmp_order_mono; intros a Ha; apply elem_of_cons in Ha as [->|Ha];
    [left | right; right; done].
Qed.

Lemma insert_sorted_new cmp x l : (forall a, three_way (cmp a)) -> cmp_order cmp (x :: l) -> in_order cmp l ->
  (forall y, y ∈ l -> cmp x y <> 0) ->
  exists l', insert_sorted cmp x l = (l', true) /\ l' ≡ₚ x :: l /\ in_order cmp l'.
Proof.
  intros _ Hc Hl Hne; induction Hl as [|y l Hl IH Hy]; cbn [insert_sorted].
  - exists [x]; split; [done|]; split; [done|]; constructor; constructor.
  - pose proof (Hne y ltac:(left)) as Hxy.
    destruct (Z.ltb_spec (cmp x y) 0); [|destruct (Z.eqb_spec (cmp x y) 0); [done|]].
    + exists (x :: y :: l); split; [done|]; split; [done|].
      constructor; [constructor; done|]; constructor; [done|].
      rewrite List.Forall_forall in Hy |- *; intros z Hz; destruct Hc as [_ Ht].
      apply (Ht x y z); [left | right; left | right; right; apply list_elem_of_In; done | done | apply Hy; done].
    + destruct IH as (r & -> & Hr & Hs);
        [eapply cmp_order_tail; done | intros z Hz; apply Hne; right; done|].
      exists (y :: r); split; [done|]; split; [rewrite Hr; constructor|].
      constructor; [done|]; apply List.Forall_forall; intros z Hz.
      apply list_elem_of_In in Hz; rewrite Hr in Hz; apply elem_of_cons in Hz as [->|Hz].
      { destruct Hc as [Ho _]; apply Ho; [right; left | left | lia]. }
      rewrite List.Forall_forall in Hy; apply Hy, list_elem_of_In; done.
Qed.

Lemma insert_sorted_old cmp x l y : (forall a, three_way (cmp a)) -> cmp_order cmp (x :: l) -> in_order cmp l ->
  y ∈ l -> cmp x y = 0 -> insert_sorted cmp x l = (l, false).
Proof.
  intros _ Hc Hl Hin Hxy; induction Hl as [|z l Hl IH Hz]; cbn [insert_sorted]; [inversion Hin|].
  rewrite List.Forall_forall in Hz; apply elem_of_cons in Hin as [->|Hin].
  - rewrite Hxy; done.
  - assert (cmp z y < 0) as Hzy by (apply Hz, list_elem_of_In; done).
    destruct (Z.ltb_spec (cmp x z) 0) as [Hlt|]; [|destruct (Z.eqb_spec (cmp x z) 0) as [|]; [done|]].
    { destruct Hc as [_ Ht]; enough (cmp x y < 0) by lia.
      apply (Ht x z y); [left | right; left | right; right; done | done | done]. }
    rewrite IH; [done | eapply cmp_order_tail; done | done].
Qed.

#[export] Instance sorted_list_ok : OrdTreeOk (list Z).
Proof.
  split; [done | done | apply insert_sorted_new | apply insert_sorted_old | done |].
  intros cmp k l _ _ _; cbn; destruct (List.find _ l) as [y|] eqn:E.
  - apply List.find_some in E as [Hy Hk]; split; [apply list_elem_of_In; done | lia].
  - intros y Hy%list_elem_of_In Hk; pose proof (List.find_none _ _ E y Hy); cbn in *; lia.
Qed.
