(* ===== verification/BAVL.v ===== *)
(** structure/BAVL.h: an intrusive AVL tree with parent links. The nodes are records in memory,
    known by their addresses; the comparison of two nodes, and of a value with a node, is the
    user's. Built without BAVL_COUNT. *)

From S2P Require Import Prelude.

Definition optneg (a : Z) (neg : bool) : Z := if neg then - a else a.

Record avl_node := mk_node { parent : option Z; link0 : option Z; link1 : option Z; balance : Z }.
#[export] Instance avl_node_eta : Eta avl_node := fun n => mk_node (parent n) (link0 n) (link1 n) (balance n).
#[export] Instance avl_node_eq_dec : EqDecision avl_node.
Proof. solve_decision. Defined.
(** [link[d]]. *)
Definition link (d : bool) (n : avl_node) : option Z := if d then link1 n else link0 n.
Definition with_link (d : bool) (v : option Z) (n : avl_node) : avl_node :=
  if d then n <| link1 := v |> else n <| link0 := v |>.

(** [nodes] is the memory the nodes are in. *)
Record avl := mk_avl { root : option Z; nodes : gmap Z avl_node }.
#[export] Instance avl_eta : Eta avl := fun o => mk_avl (root o) (nodes o).
Definition ap (A : Type) := prog avl Empty_set A.

Definition get_node (x : Z) : ap avl_node := fun s =>
  match nodes s !! x with Some n => Ok (n, s, []) | None => Err OutOfBounds end.
Definition upd_node (x : Z) (f : avl_node -> avl_node) : ap unit :=
  n ← get_node x; pmod (fun s => s <| nodes ::= <[x := f n]> |>).
Definition deref (p : option Z) : ap Z := match p with Some x => mret x | None => fun _ => Err OutOfBounds end.
Definition set_link (x : Z) (d : bool) (v : option Z) : ap unit := upd_node x (with_link d v).
Definition set_parent (x : Z) (v : option Z) : ap unit := upd_node x (fun n => n <| parent := v |>).
Definition set_balance (x : Z) (v : Z) : ap unit := upd_node x (fun n => n <| balance := v |>).
Definition set_parent_of (p : option Z) (v : option Z) : ap unit := match p with Some x => set_parent x v | None => pskip end.
(** [if (p) p->link[old == p->link[1]] = new; else root = new;] *)
Definition relink (p : option Z) (old : Z) (new : option Z) : ap unit :=
  match p with
  | Some q => n ← get_node q; set_link q (bool_decide (Some old = link1 n)) new
  | None => pmod (fun s => s <| root := new |>)
  end.

Definition BAVL_rotate (r : Z) (dir : bool) : ap unit :=
  n ← get_node r;
  nr ← deref (link (negb dir) n);
  m ← get_node nr;
  set_link r (negb dir) (link dir m);;
  n ← get_node r;
  set_parent_of (link (negb dir) n) (Some r);;
  set_link nr dir (Some r);;
  n ← get_node r;
  set_parent nr (parent n);;
  m ← get_node nr;
  relink (parent m) r (Some nr);;
  set_parent r (Some nr).

(** The loop of [_BAVL_subtree_max] and the like: down the links of one side. *)
Fixpoint descend (fuel : nat) (d : bool) (x : Z) : ap Z :=
  match fuel with
  | O => fun _ => Err FuelExhausted
  | S fuel => n ← get_node x; match link d n with Some y => descend fuel d y | None => mret x end
  end.
(** Loops go along a path of the tree. *)
Definition fuel_of (s : avl) : nat := S (size (nodes s)).
Definition BAVL_subtree_max (n : Z) : ap Z := f ← pread fuel_of; descend f true n.

Definition BAVL_replace_subtree (dest : Z) (n : option Z) : ap unit :=
  d ← get_node dest;
  relink (parent d) dest n;;
  d ← get_node dest;
  set_parent_of n (parent d).

(** [n1->link[d] = p; if (p) p->parent = n1;] *)
Definition set_child (x : Z) (d : bool) (p : option Z) : ap unit := set_link x d p;; set_parent_of p (Some x).
Definition BAVL_swap_connected (n1 n2 : Z) : ap unit :=
  a ← get_node n1;
  let side := bool_decide (Some n2 = link1 a) in
  let c := link (negb side) a in
  b ← get_node n2;
  set_child n1 false (link0 b);;
  b ← get_node n2;
  set_child n1 true (link1 b);;
  a ← get_node n1;
  set_parent n2 (parent a);;
  relink (parent a) n1 (Some n2);;
  set_link n2 side (Some n1);;
  set_parent n1 (Some n2);;
  set_child n2 (negb side) c.
Definition BAVL_swap_apart (n1 n2 : Z) : ap unit :=
  a ← get_node n1; b ← get_node n2;
  let temp := parent a in
  set_parent n1 (parent b);;
  relink (parent b) n2 (Some n1);;
  set_parent n2 temp;;
  relink temp n1 (Some n2);;
  a ← get_node n1; b ← get_node n2;
  let temp := link0 a in
  set_child n1 false (link0 b);;
  set_child n2 false temp;;
  a ← get_node n1; b ← get_node n2;
  let temp := link1 a in
  set_child n1 true (link1 b);;
  set_child n2 true temp.
Definition BAVL_swap_nodes (n1 n2 : Z) : ap unit :=
  a ← get_node n1; b ← get_node n2;
  (if bool_decide (parent b = Some n1) || bool_decide (parent a = Some n2) then
     if bool_decide (parent a = Some n2) then BAVL_swap_connected n2 n1 else BAVL_swap_connected n1 n2
   else BAVL_swap_apart n1 n2);;
  a ← get_node n1; b ← get_node n2;
  set_balance n1 (balance b);;
  set_balance n2 (balance a).

(** The transformation when a balance factor has become wrong: the new top and the change of
    height that is left. *)
Definition BAVL_transform (node : Z) (bside : bool) (delta : Z) : ap (Z * Z) :=
  let bsidef := if bside then 1 else -1 in
  n ← get_node node;
  passert (negb (bool_decide (link bside n = None)));;
  child ← deref (link bside n);
  c ← get_node child;
  let k := balance c * bsidef in
  if k =? 1 then
    BAVL_rotate node (negb bside);; set_balance node 0;; set_balance child 0;; mret (child, delta - 1)
  else if k =? 0 then
    BAVL_rotate node (negb bside);; set_balance node (1 * bsidef);; set_balance child (-1 * bsidef);; mret (child, delta)
  else if k =? -1 then
    passert (negb (bool_decide (link (negb bside) c = None)));;
    gchild ← deref (link (negb bside) c);
    BAVL_rotate child bside;;
    BAVL_rotate node (negb bside);;
    g ← get_node gchild;
    set_balance node (- Z.max 0 (balance g * bsidef) * bsidef);;
    g ← get_node gchild;
    set_balance child (Z.max 0 (- balance g * bsidef) * bsidef);;
    set_balance gchild 0;;
    mret (gchild, delta - 1)
  else passert false;; mret (node, delta).
Definition small_change (d : Z) : bool := (-1 <=? d) && (d <=? 1).
(** One call of [_BAVL_rebalance] up to its recursive call. *)
Definition BAVL_rebalance_node (node : Z) (side : bool) (deltac : Z) : ap (Z * Z) :=
  n ← get_node node;
  let delta := Z.max deltac (optneg (balance n) side) - Z.max 0 (optneg (balance n) side) in
  passert (small_change delta);;
  set_balance node (balance n - optneg deltac side);;
  n ← get_node node;
  r ← (if (balance n =? 2) || (balance n =? -2) then BAVL_transform node (balance n =? 2) delta else mret (node, delta));
  passert (small_change r.2);;
  mret r.
Fixpoint BAVL_rebalance (fuel : nat) (node : Z) (side : bool) (deltac : Z) : ap unit :=
  match fuel with
  | O => fun _ => Err FuelExhausted
  | S fuel =>
    n ← get_node node;
    passert (small_change deltac);;
    passert (small_change (balance n));;
    if deltac =? 0 then pskip else
    r ← BAVL_rebalance_node node side deltac;
    n ← get_node r.1;
    match parent n with
    | Some p => m ← get_node p; BAVL_rebalance fuel p (bool_decide (Some r.1 = link1 m)) r.2
    | None => pskip
    end
  end.

Definition BAVL_Init : ap unit := pmod (fun s => s <| root := None |>).

(** The user's comparison of a value with the nodes. *)
Definition compare_values (k : Z -> Z) (x : Z) : ap Z :=
  let res := k x in passert ((res =? -1) || (res =? 0) || (res =? 1));; mret res.

(** Where the search for a value ends: the node it is equal to, or the last one and the side. *)
Fixpoint BAVL_search (fuel : nat) (k : Z -> Z) (c : Z) : ap (Z * option bool) :=
  match fuel with
  | O => fun _ => Err FuelExhausted
  | S fuel =>
    comp ← compare_values k c;
    if comp =? 0 then mret (c, None) else
    let side := comp =? 1 in
    n ← get_node c;
    match link side n with
    | None => mret (c, Some side)
    | Some y => BAVL_search fuel k y
    end
  end.

(** The result and what is stored through [ref]. *)
Definition BAVL_Insert (cmp : Z -> Z -> Z) (node : Z) : ap (bool * option Z) :=
  s ← pget;
  match root s with
  | None =>
    pmod (fun s => s <| root := Some node |> <| nodes ::= <[node := mk_node None None None 0]> |>);;
    mret (true, None)
  | Some c =>
    r ← BAVL_search (fuel_of s) (cmp node) c;
    match r with
    | (c, None) => mret (false, Some c)
    | (c, Some side) =>
      set_link c side (Some node);;
      pmod (fun s => s <| nodes ::= <[node := mk_node (Some c) None None 0]> |>);;
      BAVL_rebalance (S (fuel_of s)) c side 1;;
      mret (true, Some c)
    end
  end.

Definition BAVL_Remove (node : Z) : ap unit :=
  s ← pget;
  n ← get_node node;
  match link0 n, link1 n with
  | Some l, Some _ => max ← BAVL_subtree_max l; BAVL_swap_nodes node max
  | _, _ => pskip
  end;;
  n ← get_node node;
  passert (negb (bool_decide (link0 n <> None) && bool_decide (link1 n <> None)));;
  let child := match link0 n with Some l => Some l | None => link1 n end in
  match parent n with
  | Some p =>
    m ← get_node p;
    let side := bool_decide (Some node = link1 m) in
    BAVL_replace_subtree node child;;
    BAVL_rebalance (fuel_of s) p side (-1)
  | None => BAVL_replace_subtree node child
  end.

Definition BAVL_IsEmpty : ap bool := pread (fun s => bool_decide (root s = None)).
Definition BAVL_Lookup (k : Z -> Z) : ap (option Z) :=
  s ← pget;
  match root s with
  | None => mret None
  | Some c => r ← BAVL_search (fuel_of s) k c; mret (Some r.1)
  end.
Definition BAVL_LookupExact (k : Z -> Z) : ap (option Z) :=
  s ← pget;
  match root s with
  | None => mret None
  | Some c => r ← BAVL_search (fuel_of s) k c; mret (match r.2 with None => Some r.1 | Some _ => None end)
  end.
Definition BAVL_end (d : bool) : ap (option Z) :=
  s ← pget;
  match root s with None => mret None | Some n => x ← descend (fuel_of s) d n; mret (Some x) end.
Definition BAVL_GetFirst : ap (option Z) := BAVL_end false.
Definition BAVL_GetLast : ap (option Z) := BAVL_end true.

(** Up while the node is on the side [d] of its parent, then once more. *)
Fixpoint ascend (fuel : nat) (d : bool) (x : Z) : ap (option Z) :=
  match fuel with
  | O => fun _ => Err FuelExhausted
  | S fuel =>
    n ← get_node x;
    match parent n with
    | None => mret None
    | Some p => m ← get_node p; if bool_decide (Some x = link d m) then ascend fuel d p else mret (Some p)
    end
  end.
Definition BAVL_neighbour (d : bool) (x : Z) : ap (option Z) :=
  f ← pread fuel_of;
  n ← get_node x;
  match link d n with
  | Some y => z ← descend f (negb d) y; mret (Some z)
  | None => ascend f d x
  end.
Definition BAVL_GetNext (n : Z) : ap (option Z) := BAVL_neighbour true n.
Definition BAVL_GetPrev (n : Z) : ap (option Z) := BAVL_neighbour false n.

(** The checks on a child, [recurse] giving the height of its subtree. *)
Definition check_child (recurse : Z -> ap Z) (cmp : Z -> Z -> Z) (x : Z) (d : bool) (p : option Z) : ap Z :=
  match p with
  | None => mret 0
  | Some y =>
    m ← get_node y;
    passert (bool_decide (parent m = Some x));;
    c ← compare_values (cmp y) x;
    passert (c =? if d then 1 else -1);;
    recurse y
  end.
Fixpoint assert_recurser (fuel : nat) (cmp : Z -> Z -> Z) (x : Z) : ap Z :=
  match fuel with
  | O => fun _ => Err FuelExhausted
  | S fuel =>
    n ← get_node x;
    passert (-1 <=? balance n);;
    passert (balance n <=? 1);;
    hl ← check_child (assert_recurser fuel cmp) cmp x false (link0 n);
    hr ← check_child (assert_recurser fuel cmp) cmp x true (link1 n);
    passert (balance n =? hr - hl);;
    mret (Z.max hl hr + 1)
  end.
Definition BAVL_Verify (cmp : Z -> Z -> Z) : ap unit :=
  s ← pget;
  match root s with
  | None => pskip
  | Some r =>
    n ← get_node r;
    passert (bool_decide (parent n = None));;
    assert_recurser (fuel_of s) cmp r;;
    pskip
  end.
