(* ===== verification/BAVLTree.v ===== *)
(** Trees in memory, for BAVL.v: which memory holds which tree, seen from the root and from a
    subtree through the frames around it; and what rotating, rebalancing and swapping do to the
    tree that is held. *)

From S2P Require Import Prelude BAVL.


(** * Trees *)

Inductive tree := Leaf | Node (l : tree) (x b : Z) (r : tree).
Definition root_of (t : tree) : option Z := match t with Leaf => None | Node _ x _ _ => Some x end.
Fixpoint inorder (t : tree) : list Z := match t with Leaf => [] | Node l x _ r => inorder l ++ x :: inorder r end.
Fixpoint height (t : tree) : Z := match t with Leaf => 0 | Node l _ _ r => 1 + Z.max (height l) (height r) end.
(** The balance factors are right and small. *)
Fixpoint balanced (t : tree) : Prop :=
  match t with Leaf => True | Node l _ b r => balanced l /\ balanced r /\ b = height r - height l /\ -1 <= b <= 1 end.

(** The memory holds the tree, its root having the parent [p]. *)
Fixpoint rep (m : gmap Z avl_node) (p : option Z) (t : tree) : Prop :=
  match t with
  | Leaf => True
  | Node l x b r => m !! x = Some (mk_node p (root_of l) (root_of r) b) /\ rep m (Some x) l /\ rep m (Some x) r
  end.

(** A node with the subtree [u] on the side [d] and [v] on the other. *)
Definition nd (d : bool) (x b : Z) (u v : tree) : tree := if d then Node v x b u else Node u x b v.
Definition entry (d : bool) (p : option Z) (u v : option Z) (b : Z) : avl_node :=
  if d then mk_node p v u b else mk_node p u v b.

(** The way from a subtree to the root: at each node the side one comes from and the other subtree. *)
Record frame := mk_frame { f_side : bool; f_node : Z; f_bal : Z; f_sib : tree }.
Definition plug1 (f : frame) (t : tree) : tree := nd (f_side f) (f_node f) (f_bal f) t (f_sib f).
Fixpoint plug (c : list frame) (t : tree) : tree := match c with [] => t | f :: c => plug c (plug1 f t) end.
Definition parent_in (p : option Z) (c : list frame) : option Z := match c with [] => p | f :: _ => Some (f_node f) end.
Fixpoint seg (m : gmap Z avl_node) (p : option Z) (c : list frame) (h : option Z) : Prop :=
  match c with
  | [] => True
  | f :: c =>
    m !! f_node f = Some (entry (f_side f) (parent_in p c) h (root_of (f_sib f)) (f_bal f)) /\
    rep m (Some (f_node f)) (f_sib f) /\ seg m p c (Some (f_node f))
  end.
Fixpoint top (c : list frame) (h : option Z) : option Z := match c with [] => h | f :: c => top c (Some (f_node f)) end.
Fixpoint frame_nodes (c : list frame) : list Z := match c with [] => [] | f :: c => f_node f :: inorder (f_sib f) ++ frame_nodes c end.
Fixpoint before (c : list frame) : list Z :=
  match c with [] => [] | f :: c => before c ++ if f_side f then inorder (f_sib f) ++ [f_node f] else [] end.
Fixpoint after (c : list frame) : list Z :=
  match c with [] => [] | f :: c => (if f_side f then [] else f_node f :: inorder (f_sib f)) ++ after c end.

(** A tree in memory: with the root pointer, and every node once. *)
Definition holds (s : avl) (t : tree) : Prop := root s = root_of t /\ rep (nodes s) None t /\ NoDup (inorder t).
(** The same, seen from a subtree. *)
Definition around (s : avl) (c : list frame) (h : option Z) : Prop := root s = top c h /\ seg (nodes s) None c h.

(** ** Shapes *)

Lemma nd_root d x b u v : root_of (nd d x b u v) = Some x.
Proof. destruct d; done. Qed.
Lemma nd_height d x b u v : height (nd d x b u v) = 1 + Z.max (height u) (height v).
Proof. destruct d; cbn; lia. Qed.
Lemma nd_balanced d x b u v : balanced (nd d x b u v) <->
  balanced u /\ balanced v /\ optneg b (negb d) = height u - height v /\ -1 <= b <= 1.
Proof. destruct d; cbn; split; intros (? & ? & ? & ?); split_and!; done || lia. Qed.
Lemma nd_rep m p d x b u v : rep m p (nd d x b u v) <->
  m !! x = Some (entry d p (root_of u) (root_of v) b) /\ rep m (Some x) u /\ rep m (Some x) v.
Proof. destruct d; cbn; tauto. Qed.
Lemma nd_inorder d x b u v : inorder (nd d x b u v) ≡ₚ x :: inorder u ++ inorder v.
Proof. destruct d; cbn; rewrite <- Permutation_middle; [rewrite (Permutation_app_comm (inorder v))|]; done. Qed.
Lemma link_entry d p u v b : link d (entry d p u v b) = u.
Proof. destruct d; done. Qed.
Lemma link_entry_other d p u v b : link (negb d) (entry d p u v b) = v.
Proof. destruct d; done. Qed.
Lemma parent_entry d p u v b : parent (entry d p u v b) = p.
Proof. destruct d; done. Qed.
Lemma balance_entry d p u v b : balance (entry d p u v b) = b.
Proof. destruct d; done. Qed.
Lemma entry_other d p u v b : entry (negb d) p u v b = entry d p v u b.
Proof. destruct d; done. Qed.
Lemma with_link_entry d p u v b w : with_link d w (entry d p u v b) = entry d p w v b.
Proof. destruct d; done. Qed.
Lemma with_link_other d p u v b w : with_link (negb d) w (entry d p u v b) = entry d p u w b.
Proof. destruct d; done. Qed.
Lemma entry_set_parent d p u v b q : (entry d p u v b) <| parent := q |> = entry d q u v b.
Proof. destruct d; done. Qed.
Lemma entry_set_balance d p u v b b' : (entry d p u v b) <| balance := b' |> = entry d p u v b'.
Proof. destruct d; done. Qed.

Lemma plug_app c c' t : plug (c ++ c') t = plug c' (plug c t).
Proof. revert t; induction c; intros; cbn; auto. Qed.
Lemma inorder_plug c t : inorder (plug c t) = before c ++ inorder t ++ after c.
Proof.
  revert t; induction c as [|[d x b v] c IH]; intros t; cbn [plug before after]; [rewrite app_nil_r; done|].
  rewrite IH; unfold plug1, nd; cbn [f_side f_node f_bal f_sib]; destruct d; cbn [inorder];
    rewrite <- ?app_assoc; cbn [app]; rewrite <- ?app_assoc; done.
Qed.
Lemma plug_nodes c t : inorder (plug c t) ≡ₚ inorder t ++ frame_nodes c.
Proof.
  revert t; induction c as [|[d x b v] c IH]; intros t; cbn [plug frame_nodes]; [rewrite app_nil_r; done|].
  rewrite IH; unfold plug1; cbn [f_side f_node f_bal f_sib]; rewrite nd_inorder; cbn.
  rewrite <- !Permutation_middle, <- app_assoc; done.
Qed.
Lemma frame_nodes_split c : frame_nodes c ≡ₚ before c ++ after c.
Proof. rewrite <- (plug_nodes c Leaf), inorder_plug; done. Qed.

(** ** Framing *)

Lemma rep_frame m m' p t : (forall y, y ∈ inorder t -> m' !! y = m !! y) -> rep m p t -> rep m' p t.
Proof.
  revert p; induction t as [|l IHl x b r IHr]; intros p Hm; cbn [rep inorder] in *; [done|]; intros (H1 & H2 & H3).
  split_and!; [rewrite Hm; [done | set_solver] | apply IHl; [set_solver | done] | apply IHr; [set_solver | done]].
Qed.
Lemma seg_frame m m' p c h : (forall y, y ∈ frame_nodes c -> m' !! y = m !! y) -> seg m p c h -> seg m' p c h.
Proof.
  revert h; induction c as [|f c IH]; intros h Hm; cbn [seg frame_nodes] in *; [done|]; intros (H1 & H2 & H3).
  split_and!; [rewrite Hm; [done | set_solver] | eapply rep_frame; [|done]; set_solver | apply IH; [set_solver | done]].
Qed.
Lemma rep_insert m p t x n : x ∉ inorder t -> rep m p t -> rep (<[x := n]> m) p t.
Proof. intros Hx; apply rep_frame; intros y Hy; apply lookup_insert_ne; congruence. Qed.
Lemma avl_seg_insert m p c h x n : x ∉ frame_nodes c -> seg m p c h -> seg (<[x := n]> m) p c h.
Proof. intros Hx; apply seg_frame; intros y Hy; apply lookup_insert_ne; congruence. Qed.

Lemma rep_plug m p c t : rep m p (plug c t) <-> seg m p c (root_of t) /\ rep m (parent_in p c) t.
Proof.
  revert t; induction c as [|f c IH]; intros t; cbn [plug seg parent_in]; [tauto|].
  rewrite IH; unfold plug1; rewrite nd_root, nd_rep; tauto.
Qed.
Lemma root_plug c t : root_of (plug c t) = top c (root_of t).
Proof. revert t; induction c as [|f c IH]; intros t; cbn [plug top]; [done|]; rewrite IH; unfold plug1; rewrite nd_root; done. Qed.
Lemma holds_plug s c t : holds s (plug c t) <->
  around s c (root_of t) /\ rep (nodes s) (parent_in None c) t /\ NoDup (inorder t ++ frame_nodes c).
Proof. unfold holds, around; rewrite rep_plug, root_plug, plug_nodes; tauto. Qed.

(** The nodes of a tree are in memory, so there are no more of them than records. *)
Lemma rep_dom m p t : rep m p t -> forall x, x ∈ inorder t -> is_Some (m !! x).
Proof.
  revert p; induction t as [|l IHl x b r IHr]; intros p; cbn [rep inorder]; intros Hr y Hy; [inversion Hy|].
  destruct Hr as (H1 & H2 & H3); apply elem_of_app in Hy as [Hy|[->|Hy]%elem_of_cons]; eauto.
Qed.
Lemma rep_size m p t : rep m p t -> NoDup (inorder t) -> (length (inorder t) <= size m)%nat.
Proof.
  intros Hr Hnd; rewrite <- size_dom, <- (size_list_to_set (C := gset Z) (inorder t)) by done.
  apply subseteq_size; intros x Hx; apply elem_of_list_to_set in Hx; apply elem_of_dom, (rep_dom m p t Hr); done.
Qed.
Lemma height_nonneg t : 0 <= height t.
Proof. induction t; cbn; lia. Qed.
Lemma height_size t : height t <= Zlen (inorder t).
Proof. induction t; cbn [height inorder]; [done|]; rewrite Zlen_app, Zlen_cons; pose proof (Zlen_nonneg (inorder t1)); pose proof (Zlen_nonneg (inorder t2)); lia. Qed.

(** * Steps *)

Lemma avl_get_node_eq x n s : nodes s !! x = Some n -> get_node x s = Ok (n, s, []).
Proof. intros Hx; unfold get_node; rewrite Hx; done. Qed.
Lemma upd_node_eq x f n s : nodes s !! x = Some n -> upd_node x f s = Ok (tt, mk_avl (root s) (<[x := f n]> (nodes s)), []).
Proof. intros Hx; unfold upd_node; pstep_by ltac:(apply avl_get_node_eq, Hx); done. Qed.
Ltac node_step H := pstep_by ltac:(apply avl_get_node_eq; exact H); cbv beta.
Ltac upd_step H := pstep_by ltac:(apply upd_node_eq; exact H).

(** The subtree is given another parent. *)
Definition reparent (t : tree) (q : option Z) (m : gmap Z avl_node) : gmap Z avl_node :=
  match t with Leaf => m | Node l x b r => <[x := mk_node q (root_of l) (root_of r) b]> m end.
Lemma reparent_rep m p t q : rep m p t -> NoDup (inorder t) -> rep (reparent t q m) q t.
Proof.
  destruct t as [|l x b r]; [done|]; intros (H1 & H2 & H3) Hnd; cbn [reparent rep]; cbn [inorder] in Hnd.
  rewrite <- Permutation_middle in Hnd; apply NoDup_cons in Hnd as [Hx _]; rewrite elem_of_app in Hx.
  split; [apply lookup_insert_eq|]; split; apply rep_insert; tauto.
Qed.
Lemma reparent_other t q m y : y ∉ inorder t -> reparent t q m !! y = m !! y.
Proof. destruct t as [|l x b r]; [done|]; cbn [inorder reparent]; intros Hy; apply lookup_insert_ne; set_solver. Qed.
Lemma set_parent_of_eq p t q s : rep (nodes s) p t ->
  set_parent_of (root_of t) q s = Ok (tt, mk_avl (root s) (reparent t q (nodes s)), []).
Proof.
  destruct t as [|l x b r]; [destruct s; done|]; intros (Hx & _ & _); unfold set_parent_of, set_parent; cbn [root_of].
  etransitivity; [apply upd_node_eq, Hx | done].
Qed.

Definition relinked (c : list frame) (new : option Z) (s : avl) : avl :=
  match c with
  | [] => mk_avl new (nodes s)
  | f :: c' => mk_avl (root s) (<[f_node f := entry (f_side f) (parent_in None c') new (root_of (f_sib f)) (f_bal f)]> (nodes s))
  end.
(** On which side of its parent a node is. *)
Lemma side_found d p h v b : h ∉ inorder v -> bool_decide (Some h = link1 (entry d p (Some h) (root_of v) b)) = d.
Proof.
  intros Hh; destruct d; cbn; [apply bool_decide_eq_true_2; done|]; apply bool_decide_eq_false_2; intros He; apply Hh.
  destruct v as [|l x b' r]; [done|]; injection He as ->; cbn [inorder]; set_solver.
Qed.
Lemma relink_eq s c h new : around s c (Some h) -> h ∉ frame_nodes c -> relink (parent_in None c) h new s = Ok (tt, relinked c new s, []).
Proof.
  intros [Hr Hs] Hh; destruct c as [|f c]; [destruct s; done|]; destruct Hs as (Hf & _ & _); cbn [parent_in relink relinked].
  node_step Hf; etransitivity; [apply upd_node_eq, Hf|]; do 4 f_equal.
  rewrite side_found; [f_equal; apply with_link_entry|]; intros Hin; apply Hh; cbn [frame_nodes]; set_solver.
Qed.
Lemma relinked_around s c h new : around s c h -> NoDup (frame_nodes c) -> around (relinked c new s) c new.
Proof.
  intros [Hr Hs] Hnd; destruct c as [|f c]; [done|]; destruct Hs as (Hf & Hsib & Hs); split; [exact Hr|].
  cbn [frame_nodes] in Hnd; apply NoDup_cons in Hnd as [Hfn Hnd]; rewrite elem_of_app in Hfn.
  cbn [seg relinked nodes]; split; [apply lookup_insert_eq|]; split; [apply rep_insert; tauto | apply avl_seg_insert; tauto].
Qed.
Lemma relinked_other c new s y : y ∉ frame_nodes c -> nodes (relinked c new s) !! y = nodes s !! y.
Proof. destruct c as [|f c]; cbn [frame_nodes relinked nodes]; [done|]; intros Hy; apply lookup_insert_ne; set_solver. Qed.
Lemma relinked_dom c new s h : around s c h -> forall y, is_Some (nodes s !! y) -> is_Some (nodes (relinked c new s) !! y).
Proof.
  intros _ y Hy; destruct c as [|f c]; [done|]; cbn [relinked nodes]; apply lookup_insert_is_Some; destruct (decide (f_node f = y)); tauto.
Qed.

(** ** Programs on a tree *)

Definition keeps (t : tree) (s s' : avl) : Prop := forall y, y ∉ inorder t -> nodes s' !! y = nodes s !! y.
(** The tree in memory becomes another with the same nodes in the same order, and nothing else changes. *)
Definition turns {X} (p : ap X) (s : avl) (t : tree) (x : X) (t' : tree) : Prop :=
  exists s', p s = Ok (x, s', []) /\ holds s' t' /\ inorder t' = inorder t /\ keeps t s s'.
Lemma turns_bind {X Y} (p : ap X) (k : X -> ap Y) s t x t1 y t2 :
  turns p s t x t1 -> (forall s1, holds s1 t1 -> turns (k x) s1 t1 y t2) -> turns (p ≫= k) s t y t2.
Proof.
  intros (s1 & Hp & Ht1 & Hi1 & Hk1) Hk; destruct (Hk s1 Ht1) as (s2 & Hp2 & Ht2 & Hi2 & Hk2).
  exists s2; split; [pstep_by ltac:(exact Hp); exact Hp2|]; split; [exact Ht2|]; split; [congruence|].
  intros z Hz; rewrite Hk2, Hk1; [done | exact Hz | rewrite Hi1; exact Hz].
Qed.
Lemma turns_ret {X} (x : X) s t : holds s t -> turns (mret x) s t x t.
Proof. intros Ht; exists s; done. Qed.
Lemma turns_step {X Y} (p : ap X) (k : X -> ap Y) s t x y t' : p s = Ok (x, s, []) -> turns (k x) s t y t' -> turns (p ≫= k) s t y t'.
Proof. intros Hp (s' & Hk & Ht); exists s'; split; [pstep_by ltac:(exact Hp); exact Hk | exact Ht]. Qed.

Lemma set_balance_turns c d x b u v b' s : holds s (plug c (nd d x b u v)) ->
  turns (set_balance x b') s (plug c (nd d x b u v)) tt (plug c (nd d x b' u v)).
Proof.
  intros Hh; pose proof Hh as ([Hroot Hseg] & Hrep & Hnd)%holds_plug; apply nd_rep in Hrep as (Hx & Hu & Hv).
  rewrite nd_root in Hroot, Hseg; rewrite nd_inorder in Hnd; cbn [app] in Hnd; apply NoDup_cons in Hnd as [Hxn Hnd].
  rewrite !elem_of_app in Hxn.
  eexists; split; [apply upd_node_eq, Hx|]; rewrite entry_set_balance; split; [|split].
  - apply holds_plug; cbn [nodes root]; split; [|split].
    + rewrite nd_root; split; [exact Hroot|]; apply avl_seg_insert; [tauto | exact Hseg].
    + apply nd_rep; split; [apply lookup_insert_eq|]; split; apply rep_insert; tauto.
    + rewrite nd_inorder; cbn [app]; apply NoDup_cons; rewrite !elem_of_app; tauto.
  - rewrite !inorder_plug; destruct d; done.
  - intros y Hy; cbn [nodes]; apply lookup_insert_ne; intros <-; apply Hy; rewrite plug_nodes, nd_inorder; set_solver.
Qed.

Lemma rotate_turns c e r b nr b' C B A s : let t := nd e r b (nd e nr b' C B) A in let t' := nd e nr b' C (nd e r b B A) in
  holds s (plug c t) -> turns (BAVL_rotate r (negb e)) s (plug c t) tt (plug c t').
Proof.
  intros t t' Hh; pose proof Hh as ([Hroot Hseg] & Hrep & Hnd)%holds_plug; unfold t in Hroot, Hseg, Hrep, Hnd.
  apply nd_rep in Hrep as (Hr & Hrep & HA); apply nd_rep in Hrep as (Hnr & HC & HB).
  rewrite nd_root in Hroot, Hseg, Hr.
  assert (NoDup (inorder t' ++ frame_nodes c)) as Hnd'.
  { rewrite <- plug_nodes in Hnd |- *; rewrite inorder_plug in *; unfold t'; destruct e; cbn [nd inorder] in *;
      rewrite <- ?app_assoc in *; cbn [app] in *; rewrite <- ?app_assoc in *; done. }
  rewrite !nd_inorder in Hnd; cbn [app] in Hnd.
  apply NoDup_cons in Hnd as [Hr0 Hnd]; apply NoDup_cons in Hnd as [Hnr0 Hnd].
  rewrite !NoDup_app in Hnd; destruct Hnd as (((NC & dCB & NB) & dCBA & NA) & dF & NF).
  set (p := parent_in None c) in *; set (m := nodes s) in *.
  set (m1 := <[r := entry e p (root_of B) (root_of A) b]> m).
  set (m2 := reparent B (Some r) m1).
  set (m3 := <[nr := entry e (Some r) (root_of C) (Some r) b']> m2).
  set (m4 := <[nr := entry e p (root_of C) (Some r) b']> m3).
  set (s5 := relinked c (Some nr) (mk_avl (root s) m4)).
  set (s6 := mk_avl (root s5) (<[r := entry e (Some nr) (root_of B) (root_of A) b]> (nodes s5))).
  assert (HrB : r ∉ inorder B) by set_solver. assert (HnrB : nr ∉ inorder B) by set_solver. assert (r <> nr) as Hne by set_solver.
  assert (m2 !! nr = Some (entry e (Some r) (root_of C) (root_of B) b')) as L2.
  { unfold m2, m1; rewrite reparent_other, lookup_insert_ne by done; exact Hnr. }
  assert (m4 !! r = Some (entry e p (root_of B) (root_of A) b)) as L4.
  { unfold m4, m3; rewrite !lookup_insert_ne by done; unfold m2; rewrite reparent_other by done; apply lookup_insert_eq. }
  assert (nodes s5 !! r = Some (entry e p (root_of B) (root_of A) b)) as L5.
  { unfold s5; rewrite relinked_other by set_solver; exact L4. }
  assert (forall y, y ∉ inorder B -> y <> r -> y <> nr -> m4 !! y = m !! y) as L4o.
  { intros y H1 H2 H3; unfold m4, m3, m2, m1; rewrite !lookup_insert_ne by done; rewrite reparent_other, lookup_insert_ne by done; done. }
  assert (around (mk_avl (root s) m4) c (Some r)) as Har.
  { split; [exact Hroot|]; cbn [nodes]; eapply seg_frame; [|exact Hseg]; intros y Hy; apply L4o; set_solver. }
  exists s6; split; [|split; [|split]].
  - unfold BAVL_rotate; rewrite !negb_involutive; node_step Hr; rewrite link_entry; pstep; node_step Hnr; rewrite link_entry_other.
    upd_step Hr; rewrite with_link_entry; fold m1.
    pstep_by ltac:(apply avl_get_node_eq; apply lookup_insert_eq); rewrite link_entry.
    pstep_by ltac:(apply (set_parent_of_eq (Some nr)); apply rep_insert; [done | exact HB]); cbn [root nodes]; fold m2.
    pstep_by ltac:(apply upd_node_eq; exact L2); cbn [root nodes]; rewrite with_link_other; fold m3.
    pstep_by ltac:(apply avl_get_node_eq; cbn [nodes]; unfold m3; rewrite lookup_insert_ne by done; unfold m2; rewrite reparent_other by done; apply lookup_insert_eq).
    rewrite parent_entry.
    pstep_by ltac:(apply upd_node_eq; apply lookup_insert_eq); cbn [root nodes]; rewrite entry_set_parent; fold m4.
    pstep_by ltac:(apply avl_get_node_eq; apply lookup_insert_eq); rewrite parent_entry.
    pstep_by ltac:(apply (relink_eq _ c); [exact Har | set_solver]); fold s5.
    etransitivity; [apply upd_node_eq, L5|]; rewrite entry_set_parent; done.
  - assert (forall y, y ∉ inorder B -> y ∉ frame_nodes c -> y <> r -> y <> nr -> nodes s6 !! y = m !! y) as L6.
    { intros y H1 H2 H3 H4; unfold s6; cbn [nodes]; rewrite lookup_insert_ne by done; unfold s5; rewrite relinked_other by done; apply L4o; done. }
    apply holds_plug; split; [|split; [|exact Hnd']]; unfold t'.
    + destruct (relinked_around _ _ _ (Some nr) Har NF) as [H1 H2]; rewrite nd_root; split; [exact H1|]; apply avl_seg_insert; [set_solver | exact H2].
    + apply nd_rep; rewrite nd_root; split; [|split].
      * unfold s6; cbn [nodes]; rewrite lookup_insert_ne by done; unfold s5; rewrite relinked_other by set_solver; apply lookup_insert_eq.
      * eapply rep_frame; [|exact HC]; intros y Hy; apply L6; set_solver.
      * apply nd_rep; split; [apply lookup_insert_eq|]; split.
        -- eapply rep_frame; [|apply (reparent_rep m1 (Some nr)); [apply rep_insert; [done | exact HB] | exact NB]].
           intros y Hy; unfold s6; cbn [nodes]; rewrite lookup_insert_ne by set_solver; unfold s5; rewrite relinked_other by set_solver.
           cbn [nodes]; unfold m4, m3; rewrite !lookup_insert_ne by set_solver; done.
        -- eapply rep_frame; [|exact HA]; intros y Hy; apply L6; set_solver.
  - rewrite !inorder_plug; unfold t, t'; destruct e; cbn [nd inorder]; rewrite <- ?app_assoc; cbn [app]; rewrite <- ?app_assoc; done.
  - intros y Hy; rewrite plug_nodes in Hy; unfold t in Hy; rewrite !nd_inorder in Hy.
    unfold s6; cbn [nodes]; rewrite lookup_insert_ne by set_solver; unfold s5; rewrite relinked_other by set_solver; apply L4o; set_solver.
Qed.

(** * Rebalancing *)

Lemma nd_other d x b u v : nd (negb d) x b u v = nd d x b v u.
Proof. destruct d; done. Qed.
Lemma holds_node s c d x b u v : holds s (plug c (nd d x b u v)) ->
  nodes s !! x = Some (entry d (parent_in None c) (root_of u) (root_of v) b).
Proof. intros (_ & Hrep & _)%holds_plug; apply nd_rep in Hrep; apply Hrep. Qed.
Lemma node_inv t : 0 < height t -> forall d, exists x b u v, t = nd d x b u v.
Proof.
  destruct t as [|l x b r]; [done|]; intros _ [|]; [exists x, b, r, l | exists x, b, l, r]; done.
Qed.
Definition sign (d : bool) : Z := if d then 1 else -1.
Lemma sign_optneg b d : b * sign d = optneg b (negb d).
Proof. destruct d; cbn [sign optneg negb]; lia. Qed.
(** Balance factors on the way to a node: [set_balance_turns] through the frame [f]. *)
Lemma set_balance_below f c d x b u v b' s : holds s (plug c (plug1 f (nd d x b u v))) ->
  turns (set_balance x b') s (plug c (plug1 f (nd d x b u v))) tt (plug c (plug1 f (nd d x b' u v))).
Proof. exact (set_balance_turns (f :: c) d x b u v b' s). Qed.
Lemma set_balance_inner c e y a U d x b u v b' s : holds s (plug c (nd e y a (nd d x b u v) U)) ->
  turns (set_balance x b') s (plug c (nd e y a (nd d x b u v) U)) tt (plug c (nd e y a (nd d x b' u v) U)).
Proof. exact (set_balance_below (mk_frame e y a U) c d x b u v b' s). Qed.
Lemma set_balance_outer c e y a U d x b u v b' s : holds s (plug c (nd e y a U (nd d x b u v))) ->
  turns (set_balance x b') s (plug c (nd e y a U (nd d x b u v))) tt (plug c (nd e y a U (nd d x b' u v))).
Proof. rewrite <- !(nd_other e y); exact (set_balance_below (mk_frame (negb e) y a U) c d x b u v b' s). Qed.
Lemma rotate_inner c e y a W r b nr b' C B A s :
  holds s (plug c (nd e y a (nd e r b A (nd e nr b' B C)) W)) ->
  turns (BAVL_rotate r e) s (plug c (nd e y a (nd e r b A (nd e nr b' B C)) W)) tt
    (plug c (nd e y a (nd e nr b' (nd e r b A B) C) W)).
Proof.
  pose proof (rotate_turns (mk_frame e y a W :: c) (negb e) r b nr b' C B A s) as Hr; cbn zeta in Hr.
  rewrite !nd_other, negb_involutive in Hr; exact Hr.
Qed.

Lemma transform_turns c e x U W delta : balanced U -> balanced W -> height U = height W + 2 -> exists t x' k,
    (forall s, holds s (plug c (nd e x (2 * sign e) U W)) ->
      turns (BAVL_transform x e delta) s (plug c (nd e x (2 * sign e) U W)) (x', delta - k) (plug c t)) /\
    root_of t = Some x' /\ balanced t /\ height t = 1 + height U - k /\ 0 <= k <= 1.
Proof.
  intros HbU HbW Hh; pose proof (height_nonneg W).
  destruct (node_inv U ltac:(lia) e) as (ch & bc & C & B & ->); rewrite nd_height in *; apply nd_balanced in HbU as (HbC & HbB & Hbc & Hr).
  assert (bc * sign e = height C - height B) as Hk by (rewrite sign_optneg; exact Hbc).
  assert (forall s (p : Z -> avl_node -> ap (Z * Z)) y t', holds s (plug c (nd e x (2 * sign e) (nd e ch bc C B) W)) ->
    turns (p ch (entry e (Some x) (root_of C) (root_of B) bc)) s (plug c (nd e x (2 * sign e) (nd e ch bc C B) W)) y t' ->
    turns (n ← get_node x; passert (negb (bool_decide (link e n = None)));; child ← deref (link e n); c ← get_node child; p child c) s
      (plug c (nd e x (2 * sign e) (nd e ch bc C B) W)) y t') as Hstart.
  { intros s p y t' Hs Ht; pose proof (holds_node s c e x _ _ _ Hs) as Hx; rewrite nd_root in Hx.
    pose proof (holds_node s (mk_frame e x (2 * sign e) W :: c) e ch bc C B Hs) as Hc; eapply turns_step; [apply avl_get_node_eq, Hx|]; rewrite link_entry.
    eapply turns_step; [reflexivity|]; eapply turns_step; [reflexivity|]; eapply turns_step; [apply avl_get_node_eq, Hc | exact Ht]. }
  assert (bc * sign e = 1 \/ bc * sign e = 0 \/ bc * sign e = -1) as [K|[K|K]] by (destruct e; cbn [sign] in *; lia).
  - exists (nd e ch 0 C (nd e x 0 B W)), ch, 1.
    split; [|rewrite nd_root, nd_height, !nd_balanced, nd_height; destruct e; cbn [optneg negb sign] in *; split_and!; done || lia].
    intros s Hs; unfold BAVL_transform; cbv zeta; change (if e then 1 else -1) with (sign e); apply (Hstart s (fun child c => _)); [exact Hs|]; cbv beta; rewrite balance_entry, K; cbn [Z.eqb Pos.eqb].
    eapply turns_bind; [apply rotate_turns; exact Hs|]; intros s1 H1.
    eapply turns_bind; [apply set_balance_outer; exact H1|]; intros s2 H2.
    eapply turns_bind; [apply set_balance_turns; exact H2|]; intros s3 H3; apply turns_ret; exact H3.
  - exists (nd e ch (-1 * sign e) C (nd e x (1 * sign e) B W)), ch, 0.
    split; [|rewrite nd_root, nd_height, !nd_balanced, nd_height; destruct e; cbn [optneg negb sign] in *; split_and!; done || lia].
    intros s Hs; unfold BAVL_transform; cbv zeta; change (if e then 1 else -1) with (sign e); apply (Hstart s (fun child c => _)); [exact Hs|]; cbv beta; rewrite balance_entry, K; cbn [Z.eqb Pos.eqb].
    rewrite Z.sub_0_r.
    eapply turns_bind; [apply rotate_turns; exact Hs|]; intros s1 H1.
    eapply turns_bind; [apply set_balance_outer; exact H1|]; intros s2 H2.
    eapply turns_bind; [apply set_balance_turns; exact H2|]; intros s3 H3; apply turns_ret; exact H3.
  - destruct (node_inv B ltac:(pose proof (height_nonneg C); lia) e) as (g & bg & G1 & G2 & ->).
    rewrite nd_height in *; apply nd_balanced in HbB as (HbG1 & HbG2 & Hbg & Hrg).
    assert (bg * sign e = height G1 - height G2) as Kg by (rewrite sign_optneg; exact Hbg).
    exists (nd e g 0 (nd e ch (Z.max 0 (- bg * sign e) * sign e) C G1) (nd e x (- Z.max 0 (bg * sign e) * sign e) G2 W)), g, 1.
    split; [|rewrite nd_root, nd_height, !nd_balanced, !nd_height; destruct e; cbn [optneg negb sign] in *; split_and!; done || lia].
    intros s Hs; unfold BAVL_transform; cbv zeta; change (if e then 1 else -1) with (sign e); apply (Hstart s (fun child c => _)); [exact Hs|]; cbv beta; rewrite balance_entry, K; cbn [Z.eqb Pos.eqb].
    rewrite link_entry_other, nd_root.
    eapply turns_step; [reflexivity|]; eapply turns_step; [reflexivity|].
    eapply turns_bind; [apply rotate_inner; exact Hs|]; intros s1 H1.
    eapply turns_bind; [apply rotate_turns; exact H1|]; intros s2 H2.
    eapply turns_step; [eapply avl_get_node_eq, holds_node, H2|]; rewrite balance_entry.
    eapply turns_bind; [apply set_balance_outer; exact H2|]; intros s3 H3.
    eapply turns_step; [eapply avl_get_node_eq, holds_node, H3|]; rewrite balance_entry.
    eapply turns_bind; [apply set_balance_inner; exact H3|]; intros s4 H4.
    eapply turns_bind; [apply set_balance_turns; exact H4|]; intros s5 H5; apply turns_ret; exact H5.
Qed.

Lemma rebalance_node_turns c e x b t V hr d : balanced t -> balanced V -> height t = hr + d -> -1 <= d <= 1 ->
  optneg b (negb e) = hr - height V -> -1 <= b <= 1 ->
  exists t' x' d', (forall s, holds s (plug c (nd e x b t V)) ->
    turns (BAVL_rebalance_node x e d) s (plug c (nd e x b t V)) (x', d') (plug c t')) /\
    root_of t' = Some x' /\ balanced t' /\ height t' = 1 + Z.max hr (height V) + d' /\ -1 <= d' <= 1.
Proof.
  intros Hbt HbV Hh Hd Hb Hbr.
  set (b' := b - optneg d e); set (delta := Z.max d (optneg b e) - Z.max 0 (optneg b e)).
  assert (optneg b' (negb e) = height t - height V) as Hb' by (unfold b'; destruct e; cbn [negb optneg] in *; lia).
  assert (delta = Z.max (height t) (height V) - Z.max hr (height V)) as Hdelta by (unfold delta; destruct e; cbn [negb optneg] in *; lia).
  assert (small_change delta = true) as Hsm by (unfold small_change; lia).
  assert (forall s t' x' d', holds s (plug c (nd e x b t V)) -> (forall s1, holds s1 (plug c (nd e x b' t V)) ->
    turns (if (b' =? 2) || (b' =? -2) then BAVL_transform x (b' =? 2) delta else mret (x, delta)) s1 (plug c (nd e x b' t V)) (x', d') (plug c t')) ->
    -1 <= d' <= 1 -> turns (BAVL_rebalance_node x e d) s (plug c (nd e x b t V)) (x', d') (plug c t')) as Hstart.
  { intros s t' x' d' Hs Ht Hd'; unfold BAVL_rebalance_node.
    eapply turns_step; [apply avl_get_node_eq, (holds_node s c e x b t V Hs)|]; rewrite balance_entry; cbv zeta.
    eapply turns_step; [apply passert_ok; exact Hsm|].
    eapply turns_bind; [apply set_balance_turns; exact Hs|]; intros s1 H1.
    eapply turns_step; [eapply avl_get_node_eq, holds_node, H1|]; rewrite balance_entry.
    eapply turns_bind; [exact (Ht s1 H1)|]; intros s2 H2.
    eapply turns_step; [apply passert_ok; unfold small_change; cbn [snd]; lia | apply turns_ret; exact H2]. }
  destruct ((b' =? 2) || (b' =? -2)) eqn:Hbad.
  - assert (exists k, (k = e \/ k = negb e) /\ (b' =? 2) = k /\ b' = 2 * sign k /\
      let '(U, W) := if Bool.eqb k e then (t, V) else (V, t) in height U = height W + 2) as (k & Hke & Hk & Hk' & Hhk).
    { destruct (b' =? 2) eqn:H2; [exists true | exists false]; destruct e; cbn [Bool.eqb negb optneg sign] in *; split_and!; auto; lia. }
    assert (exists U W, balanced U /\ balanced W /\ height U = height W + 2 /\ height U = Z.max (height t) (height V) /\
      nd e x b' t V = nd k x (2 * sign k) U W) as (U & W & HbU & HbW & HUW & HU & Heq).
    { destruct Hke as [-> | ->].
      - exists t, V; rewrite Bool.eqb_reflx in Hhk; rewrite Hk'; split_and!; done || lia.
      - exists V, t; rewrite Bool.eqb_negb1 in Hhk; rewrite Hk', nd_other; split_and!; done || lia. }
    destruct (transform_turns c k x U W delta HbU HbW HUW) as (t' & x' & k' & Ht & Hroot & Hbt' & Hht' & Hk01).
    assert (-1 <= delta - k' <= 1) as Hrange.
    { destruct Hke as [-> | ->]; rewrite ?Bool.eqb_reflx, ?Bool.eqb_negb1 in Hhk; destruct e; cbn [optneg negb] in *; lia. }
    exists t', x', (delta - k'); split; [intros s Hs; apply Hstart; [exact Hs | intros s1 H1; rewrite Hk, Heq in *; apply Ht; exact H1 | exact Hrange]|].
    split_and!; done || lia.
  - exists (nd e x b' t V), x, delta; split; [intros s Hs; apply Hstart; [exact Hs | intros s1 H1; apply turns_ret; exact H1 | lia]|].
    rewrite nd_root, nd_height, nd_balanced; split_and!; done || (unfold b' in *; destruct e; cbn [optneg negb] in *; lia).
Qed.

(** The frames around a subtree of height [h] are balanced. *)
Fixpoint frames_ok (c : list frame) (h : Z) : Prop :=
  match c with
  | [] => True
  | f :: c => balanced (f_sib f) /\ optneg (f_bal f) (negb (f_side f)) = h - height (f_sib f) /\ -1 <= f_bal f <= 1 /\
      frames_ok c (1 + Z.max h (height (f_sib f)))
  end.
Lemma balanced_plug c t : balanced (plug c t) <-> balanced t /\ frames_ok c (height t).
Proof.
  revert t; induction c as [|f c IH]; intros t; cbn [plug frames_ok]; [tauto|].
  rewrite IH; unfold plug1; rewrite nd_balanced, nd_height; tauto.
Qed.

Lemma rebalance_turns fuel c f t hr d : balanced t -> frames_ok (f :: c) hr -> height t = hr + d -> -1 <= d <= 1 ->
  (length (f :: c) <= fuel)%nat -> exists T, balanced T /\ forall s, holds s (plug (f :: c) t) ->
  turns (BAVL_rebalance fuel (f_node f) (f_side f) d) s (plug (f :: c) t) tt T.
Proof.
  revert c f t hr d; induction fuel as [|fuel IH]; intros c f t hr d Hbt Hctx Hh Hd Hf; [cbn in Hf; lia|].
  pose proof Hctx as (HbV & Hb & Hbr & Hc); cbn [BAVL_rebalance].
  assert (forall s y T (p : ap unit), holds s (plug (f :: c) t) -> turns p s (plug (f :: c) t) y T ->
    turns (n ← get_node (f_node f); passert (small_change d);; passert (small_change (balance n));; p) s (plug (f :: c) t) y T) as Hstart.
  { intros s y T p Hs Hp; eapply turns_step; [apply avl_get_node_eq, (holds_node s _ _ _ _ _ _ Hs)|].
    eapply turns_step; [apply passert_ok; unfold small_change; lia|].
    eapply turns_step; [apply passert_ok; rewrite balance_entry; unfold small_change; lia | exact Hp]. }
  destruct (d =? 0) eqn:H0.
  { exists (plug (f :: c) t); split; [|intros s Hs; apply Hstart; [exact Hs | apply turns_ret, Hs]].
    apply balanced_plug; split; [exact Hbt|]; replace (height t) with hr by lia; exact Hctx. }
  destruct (rebalance_node_turns c (f_side f) (f_node f) (f_bal f) t (f_sib f) hr d Hbt HbV Hh Hd Hb Hbr)
    as (t' & x' & d' & Hnode & Hroot & Hbt' & Hht' & Hd').
  assert (exists T, balanced T /\ forall s1, holds s1 (plug c t') -> turns (n ← get_node x';
    match parent n with Some p => m ← get_node p; BAVL_rebalance fuel p (bool_decide (Some x' = link1 m)) d' | None => pskip end)
    s1 (plug c t') tt T) as (T & HbT & HT).
  2: { exists T; split; [exact HbT|]; intros s Hs; apply Hstart; [exact Hs|]; eapply turns_bind; [exact (Hnode s Hs) | exact HT]. }
  destruct t' as [|l y b r]; [done|]; injection Hroot as ->.
  assert (forall s1, holds s1 (plug c (Node l x' b r)) -> get_node x' s1 = Ok (mk_node (parent_in None c) (root_of l) (root_of r) b, s1, [])) as Hget.
  { intros s1 H1; apply avl_get_node_eq, (holds_node s1 c true x' b r l H1). }
  destruct c as [|f2 c].
  - exists (Node l x' b r); split; [exact Hbt'|]; intros s1 H1; eapply turns_step; [apply Hget, H1 | apply turns_ret, H1].
  - destruct (IH c f2 (Node l x' b r) (1 + Z.max hr (height (f_sib f))) d' Hbt' Hc Hht' Hd') as (T & HbT & HT); [cbn in *; lia|].
    exists T; split; [exact HbT|]; intros s1 H1; eapply turns_step; [apply Hget, H1|]; cbn [parent parent_in].
    eapply turns_step; [eapply avl_get_node_eq, (holds_node s1 c _ _ _ _ _ H1)|]; cbn [root_of]; rewrite side_found; [exact (HT s1 H1)|].
    intros Hx; apply holds_plug in H1 as (_ & _ & Hnd); cbn [inorder frame_nodes] in Hnd; rewrite <- app_assoc in Hnd.
    apply NoDup_app in Hnd as (_ & _ & Hnd); cbn [app] in Hnd; apply NoDup_cons in Hnd as [Hnx _]; set_solver.
Qed.

(** * Swapping a node with the largest one on its left *)

Lemma seg_hole m q f c h h' : seg m q (f :: c) h -> NoDup (frame_nodes (f :: c)) ->
  seg (<[f_node f := entry (f_side f) (parent_in q c) h' (root_of (f_sib f)) (f_bal f)]> m) q (f :: c) h'.
Proof.
  intros (Hf & Hsib & Hs) Hnd; cbn [frame_nodes] in Hnd; apply NoDup_cons in Hnd as [Hfn Hnd]; rewrite elem_of_app in Hfn.
  cbn [seg]; split; [apply lookup_insert_eq|]; split; [apply rep_insert; tauto | apply avl_seg_insert; tauto].
Qed.
Lemma seg_top m q c h g q' : seg m q c h -> NoDup (frame_nodes c) -> c <> [] -> top c h = Some g ->
  exists e, m !! g = Some e /\ g ∈ frame_nodes c /\ seg (<[g := e <| parent := q' |>]> m) q' c h.
Proof.
  revert h; induction c as [|f c IH]; intros h Hs Hnd Hne Ht; [done|]; destruct Hs as (Hf & Hsib & Hs); cbn [top] in Ht.
  cbn [frame_nodes] in Hnd |- *; apply NoDup_cons in Hnd as [Hfn Hnd]; rewrite elem_of_app in Hfn; apply NoDup_app in Hnd as (_ & Hd & Hnd).
  destruct c as [|f' c].
  - injection Ht as <-; exists (entry (f_side f) q h (root_of (f_sib f)) (f_bal f)); split; [exact Hf|]; split; [left|].
    cbn [seg]; rewrite entry_set_parent; split; [apply lookup_insert_eq|]; split; [apply rep_insert; tauto | done].
  - destruct (IH _ Hs Hnd ltac:(done) Ht) as (e & He & Hg & Hs'); exists e; split; [exact He|].
    split; [right; apply elem_of_app; right; exact Hg|]; cbn [seg].
    assert (g <> f_node f) as Hgf by (intros ->; tauto).
    assert (g ∉ inorder (f_sib f)) as Hgs by (intros Hin; apply (Hd g Hin Hg)).
    split; [rewrite lookup_insert_ne by done; exact Hf|]; split; [apply rep_insert; done | exact Hs'].
Qed.

Section swap.
Context (n1 n2 : Z) (p c : list frame) (L R : tree) (s0 : avl).
Definition parts_nodes : list Z := n1 :: n2 :: inorder L ++ inorder R ++ frame_nodes p ++ frame_nodes c.
Hypothesis Hnd : NoDup parts_nodes.

(** The records of the two nodes, and the pieces of the tree about them. *)
Definition parts (e1 e2 : avl_node) (hc q hp pl pr : option Z) (s : avl) : Prop :=
  nodes s !! n1 = Some e1 /\ nodes s !! n2 = Some e2 /\ around s c hc /\ seg (nodes s) q p hp /\
  rep (nodes s) pl L /\ rep (nodes s) pr R /\ (forall y, y ∉ parts_nodes -> nodes s !! y = nodes s0 !! y).
Definition triple (P : avl -> Prop) (m : ap unit) (Q : avl -> Prop) : Prop :=
  forall s, P s -> exists s', m s = Ok (tt, s', []) /\ Q s'.

Lemma parts_disjoint : n1 <> n2 /\ (n1 ∉ inorder L) /\ (n1 ∉ inorder R) /\ (n1 ∉ frame_nodes p) /\ (n1 ∉ frame_nodes c) /\
  (n2 ∉ inorder L) /\ (n2 ∉ inorder R) /\ (n2 ∉ frame_nodes p) /\ (n2 ∉ frame_nodes c) /\
  NoDup (inorder L) /\ NoDup (inorder R) /\ NoDup (frame_nodes p) /\ NoDup (frame_nodes c) /\
  (forall y, y ∈ inorder L -> y ∉ inorder R) /\ (forall y, y ∈ inorder L -> y ∉ frame_nodes p) /\
  (forall y, y ∈ inorder L -> y ∉ frame_nodes c) /\ (forall y, y ∈ inorder R -> y ∉ frame_nodes p) /\
  (forall y, y ∈ inorder R -> y ∉ frame_nodes c) /\ (forall y, y ∈ frame_nodes p -> y ∉ frame_nodes c).
Proof.
  unfold parts_nodes in Hnd; rewrite !NoDup_cons, !NoDup_app, !elem_of_cons, !elem_of_app in Hnd.
  destruct Hnd as (H1 & H2 & HL & H3 & HR & H4 & Hp & H5 & Hc); split_and!; try done; try set_solver.
Qed.

(** A change of records of one piece leaves the others as they are. *)
Lemma parts_change s m' e1 e2 e1' e2' hc q hp pl pr hc' q' hp' pl' pr' r' (P : Z -> Prop) :
  parts e1 e2 hc q hp pl pr s ->
  (forall y, ~ P y -> m' !! y = nodes s !! y) -> (forall y, P y -> y ∈ parts_nodes) ->
  (m' !! n1 = Some e1' \/ ~ P n1 /\ e1' = e1) -> (m' !! n2 = Some e2' \/ ~ P n2 /\ e2' = e2) ->
  (around (mk_avl r' m') c hc' \/ (forall y, y ∈ frame_nodes c -> ~ P y) /\ hc' = hc /\ r' = root s) ->
  (seg m' q' p hp' \/ (forall y, y ∈ frame_nodes p -> ~ P y) /\ q' = q /\ hp' = hp) ->
  (rep m' pl' L \/ (forall y, y ∈ inorder L -> ~ P y) /\ pl' = pl) ->
  (rep m' pr' R \/ (forall y, y ∈ inorder R -> ~ P y) /\ pr' = pr) ->
  parts e1' e2' hc' q' hp' pl' pr' (mk_avl r' m').
Proof.
  intros (H1 & H2 & H3 & H4 & H5 & H6 & H7) Hm HP C1 C2 C3 C4 C5 C6; unfold parts; cbn [nodes]; split_and!.
  - destruct C1 as [C1|[Hn ->]]; [exact C1 | rewrite Hm; done].
  - destruct C2 as [C2|[Hn ->]]; [exact C2 | rewrite Hm; done].
  - destruct C3 as [C3|(Hn & -> & ->)]; [exact C3|]; destruct H3 as [Hr Hs]; split; [exact Hr|].
    eapply seg_frame; [|exact Hs]; intros y Hy; apply Hm; auto.
  - destruct C4 as [C4|(Hn & -> & ->)]; [exact C4|]; eapply seg_frame; [|exact H4]; intros y Hy; apply Hm; auto.
  - destruct C5 as [C5|[Hn ->]]; [exact C5|]; eapply rep_frame; [|exact H5]; intros y Hy; apply Hm; auto.
  - destruct C6 as [C6|[Hn ->]]; [exact C6|]; eapply rep_frame; [|exact H6]; intros y Hy; apply Hm; auto.
  - intros y Hy; rewrite Hm by (intros HPy; apply Hy, HP, HPy); apply H7, Hy.
Qed.
(** The pieces that have none of the nodes changed. *)
Ltac apart := intros; try intro; subst;
  solve [tauto | congruence | match goal with D : forall y, y ∈ _ -> y ∉ _ |- False => eapply D; eassumption end].
Ltac unchanged := solve [right; split; [apart | done]].
Ltac piece s P Hs := eapply (parts_change s _ _ _ _ _ _ _ _ _ _ _ _ _ _ _ _ P); [exact Hs | ..].

Lemma upd1 f e1 e2 hc q hp pl pr : triple (parts e1 e2 hc q hp pl pr) (upd_node n1 f) (parts (f e1) e2 hc q hp pl pr).
Proof.
  intros s Hs; eexists; split; [apply upd_node_eq, Hs|]; pose proof parts_disjoint as D; destruct_and? D.
  piece s (fun y => y = n1) Hs; try unchanged.
  - intros y Hy; apply lookup_insert_ne; congruence.
  - intros y ->; left.
  - left; apply lookup_insert_eq.
Qed.
Lemma upd2 f e1 e2 hc q hp pl pr : triple (parts e1 e2 hc q hp pl pr) (upd_node n2 f) (parts e1 (f e2) hc q hp pl pr).
Proof.
  intros s Hs; eexists; split; [apply upd_node_eq, Hs|]; pose proof parts_disjoint as D; destruct_and? D.
  piece s (fun y => y = n2) Hs; try unchanged.
  - intros y Hy; apply lookup_insert_ne; congruence.
  - intros y ->; right; left.
  - left; apply lookup_insert_eq.
Qed.
Lemma relink_out h new e1 e2 q hp pl pr : (h ∉ frame_nodes c) ->
  triple (parts e1 e2 (Some h) q hp pl pr) (relink (parent_in None c) h new) (parts e1 e2 new q hp pl pr).
Proof.
  intros Hh s Hs; pose proof parts_disjoint as D; destruct_and? D; pose proof Hs as (_ & _ & Har & _).
  eexists; split; [apply (relink_eq s c); [exact Har | exact Hh]|].
  destruct (relinked c new s) as [r m] eqn:E.
  piece s (fun y => y ∈ frame_nodes c) Hs; try unchanged.
  - intros y Hy; change m with (nodes (mk_avl r m)); rewrite <- E; apply relinked_other; exact Hy.
  - intros y Hy; unfold parts_nodes; set_solver.
  - left; rewrite <- E; eapply relinked_around; [exact Har | tauto].
Qed.
Lemma reparent_left q' e1 e2 hc q hp pl pr : triple (parts e1 e2 hc q hp pl pr) (set_parent_of (root_of L) q') (parts e1 e2 hc q hp q' pr).
Proof.
  intros s Hs; pose proof parts_disjoint as D; destruct_and? D; pose proof Hs as (_ & _ & _ & _ & HL & _).
  eexists; split; [apply (set_parent_of_eq pl), HL|].
  piece s (fun y => y ∈ inorder L) Hs; try unchanged.
  - intros y Hy; apply reparent_other; exact Hy.
  - intros y Hy; unfold parts_nodes; set_solver.
  - left; eapply reparent_rep; [exact HL | tauto].
Qed.
Lemma reparent_right q' e1 e2 hc q hp pl pr : triple (parts e1 e2 hc q hp pl pr) (set_parent_of (root_of R) q') (parts e1 e2 hc q hp pl q').
Proof.
  intros s Hs; pose proof parts_disjoint as D; destruct_and? D; pose proof Hs as (_ & _ & _ & _ & _ & HR & _).
  eexists; split; [apply (set_parent_of_eq pr), HR|].
  piece s (fun y => y ∈ inorder R) Hs; try unchanged.
  - intros y Hy; apply reparent_other; exact Hy.
  - intros y Hy; unfold parts_nodes; set_solver.
  - left; eapply reparent_rep; [exact HR | tauto].
Qed.
Lemma relink_in f p' h h' e1 e2 hc q pl pr : p = f :: p' -> f_side f = true -> (h ∉ frame_nodes p) ->
  triple (parts e1 e2 hc q (Some h) pl pr) (relink (Some (f_node f)) h h') (parts e1 e2 hc q h' pl pr).
Proof.
  intros Ep Hf Hh s Hs; pose proof parts_disjoint as D; destruct_and? D; pose proof Hs as (_ & _ & _ & Hp & _).
  rewrite Ep in Hp; pose proof Hp as (Hn & _ & _).
  eexists; split.
  { unfold relink; node_step Hn; rewrite side_found; [apply upd_node_eq, Hn|].
    intros Hin; apply Hh; rewrite Ep; cbn [frame_nodes]; set_solver. }
  rewrite with_link_entry; assert (f_node f ∈ frame_nodes p) as Hfp by (rewrite Ep; left).
  piece s (fun y => y = f_node f) Hs; try unchanged.
  - intros y Hy; apply lookup_insert_ne; congruence.
  - intros y ->; unfold parts_nodes; set_solver.
  - left; rewrite Ep; apply seg_hole with (1 := Hp); rewrite <- Ep; tauto.
Qed.
Lemma reparent_in g q' e1 e2 hc q hp pl pr : p <> [] -> top p hp = Some g ->
  triple (parts e1 e2 hc q hp pl pr) (set_parent g q') (parts e1 e2 hc q' hp pl pr).
Proof.
  intros Hne Ht s Hs; pose proof parts_disjoint as D; destruct_and? D; pose proof Hs as (_ & _ & _ & Hp & _).
  destruct (seg_top _ _ _ _ g q' Hp ltac:(tauto) Hne Ht) as (e & He & Hg & Hp').
  eexists; split; [apply upd_node_eq, He|].
  piece s (fun y => y = g) Hs; try unchanged.
  - intros y Hy; apply lookup_insert_ne; congruence.
  - intros y ->; unfold parts_nodes; set_solver.
  - left; exact Hp'.
Qed.
End swap.

Lemma triple_seq P m Q m' R : triple P m Q -> triple Q m' R -> triple P (m;; m') R.
Proof.
  intros H1 H2 s Hs; destruct (H1 s Hs) as (s1 & E1 & Q1), (H2 s1 Q1) as (s2 & E2 & Q2).
  exists s2; split; [pstep_by ltac:(exact E1); exact E2 | exact Q2].
Qed.
Lemma triple_get P x n k R : (forall s, P s -> nodes s !! x = Some n) -> triple P (k n) R -> triple P (n ← get_node x; k n) R.
Proof.
  intros Hx Hk s Hs; destruct (Hk s Hs) as (s1 & E1 & R1); exists s1; split; [node_step (Hx s Hs); exact E1 | exact R1].
Qed.

Lemma avl_seg_app m q p c h : seg m q (p ++ c) h <-> seg m (parent_in q c) p h /\ seg m q c (top p h).
Proof.
  revert h; induction p as [|f p IH]; intros h; cbn [app seg top]; [tauto|].
  rewrite IH; destruct p as [|g p]; [destruct c|]; cbn [app parent_in]; tauto.
Qed.
Lemma top_app p c h : top (p ++ c) h = top c (top p h).
Proof. revert h; induction p as [|f p IH]; intros h; cbn [app top]; auto. Qed.
Lemma frame_nodes_app p c : frame_nodes (p ++ c) = frame_nodes p ++ frame_nodes c.
Proof. induction p as [|f p IH]; cbn [app frame_nodes]; [done|]; rewrite IH, <- app_assoc; done. Qed.
Lemma parent_in_app q p c : parent_in q (p ++ c) = parent_in (parent_in q c) p.
Proof. destruct p; done. Qed.
Lemma top_Some p h : exists x, top p (Some h) = Some x.
Proof. revert h; induction p as [|f p IH]; intros h; cbn; eauto. Qed.
Lemma top_ne (p : list frame) : p <> [] -> exists x, forall h', top p h' = Some x.
Proof. destruct p as [|f p]; [done|]; intros _; cbn; destruct (top_Some p (f_node f)) as [x Hx]; exists x; intros _; exact Hx. Qed.

(** The parts make up a tree in which the node [x] is above and [y] below. *)
Definition whole (x y b1 b2 : Z) (p c : list frame) (L R : tree) : tree := plug (p ++ mk_frame false x b1 R :: c) (Node L y b2 Leaf).
Lemma whole_nodes x y b1 b2 p c L R : inorder (whole x y b1 b2 p c L R) ≡ₚ x :: y :: inorder L ++ inorder R ++ frame_nodes p ++ frame_nodes c.
Proof.
  unfold whole; rewrite plug_nodes, frame_nodes_app; cbn [inorder frame_nodes f_node f_sib]; solve_Permutation.
Qed.
Definition above (p c : list frame) (b : Z) (R : tree) (hp : Z) : avl_node := mk_node (parent_in None c) (top p (Some hp)) (root_of R) b.
Definition beneath (p : list frame) (b : Z) (L : tree) (q : Z) : avl_node := mk_node (parent_in (Some q) p) (root_of L) None b.
Lemma whole_parts x y b1 b2 p c L R s s0 : (forall z, z ∉ inorder (whole x y b1 b2 p c L R) -> nodes s !! z = nodes s0 !! z) ->
  (holds s (whole x y b1 b2 p c L R) <->
   nodes s !! x = Some (above p c b1 R y) /\ nodes s !! y = Some (beneath p b2 L x) /\
   around s c (Some x) /\ seg (nodes s) (Some x) p (Some y) /\ rep (nodes s) (Some y) L /\ rep (nodes s) (Some x) R /\
   NoDup (x :: y :: inorder L ++ inorder R ++ frame_nodes p ++ frame_nodes c)).
Proof.
  intros _; rewrite <- (whole_nodes x y b1 b2); unfold whole at 1; rewrite holds_plug, <- plug_nodes; fold (whole x y b1 b2 p c L R).
  unfold around; rewrite top_app, avl_seg_app, parent_in_app; cbn [root_of top seg parent_in f_node f_side f_sib f_bal entry rep].
  unfold above, beneath; tauto.
Qed.

Section swap_nodes.
Context (n1 n2 b1 b2 : Z) (p c : list frame) (L R : tree) (s0 : avl).
Hypothesis Hnd : NoDup (parts_nodes n1 n2 p c L R).
Hypothesis Hp : Forall (fun f => f_side f = true) p.

Lemma disjoint_nodes : n1 <> n2 /\ (n1 ∉ frame_nodes c) /\ (n2 ∉ frame_nodes c) /\ (n2 ∉ frame_nodes p) /\ (n2 ∉ inorder R) /\ (n1 ∉ frame_nodes p).
Proof. pose proof (parts_disjoint n1 n2 p c L R Hnd); tauto. Qed.
Ltac by1 := intros ? H'; exact (proj1 H').
Ltac by2 := intros ? H'; exact (proj1 (proj2 H')).

Lemma swap_connected_ok : p = [] ->
  triple (parts n1 n2 p c L R s0 (above p c b1 R n2) (beneath p b2 L n1) (Some n1) (Some n1) (Some n2) (Some n2) (Some n1))
    (BAVL_swap_connected n1 n2)
    (parts n1 n2 p c L R s0 (beneath p b1 L n2) (above p c b2 R n1) (Some n2) (Some n1) (Some n2) (Some n1) (Some n2)).
Proof.
  intros Ep; pose proof disjoint_nodes as (Hne & H1c & H2c & _ & H2R & _); unfold BAVL_swap_connected, above, beneath, set_child.
  assert (forall h, top p h = h) as Et by (rewrite Ep; done); assert (forall q, parent_in q p = q) as Eq by (rewrite Ep; done).
  rewrite !Et, !Eq.
  eapply (triple_get _ n1 _ (fun a => _)); [by1|]; cbn [link1 link0 link].
  assert (bool_decide (Some n2 = root_of R) = false) as ->.
  { apply bool_decide_eq_false_2; intros He; apply H2R; destruct R; [done|]; injection He as ->; cbn [inorder]; set_solver. }
  cbn [negb link link1]; eapply (triple_get _ n2 _ (fun b => _)); [by2|]; cbn [link0].
  eapply triple_seq; [eapply triple_seq; [apply upd1, Hnd | apply reparent_left, Hnd]|]; cbv beta.
  eapply (triple_get _ n2 _ (fun b => _)); [by2|]; cbn [link1 set_parent_of].
  eapply triple_seq; [eapply triple_seq; [apply upd1, Hnd | intros s Hs; exists s; split; [reflexivity | exact Hs]]|]; cbv beta.
  eapply (triple_get _ n1 _ (fun a => _)); [by1|]; cbn [with_link parent update].
  eapply triple_seq; [apply upd2, Hnd|]; eapply triple_seq; [apply relink_out; [exact Hnd | exact H1c]|].
  eapply triple_seq; [apply upd2, Hnd|]; eapply triple_seq; [apply upd1, Hnd|].
  eapply triple_seq; [apply upd2, Hnd|]; apply reparent_right, Hnd.
Qed.

Lemma nothing_set d q : triple q (set_parent_of None d) q.
Proof. intros s Hs; exists s; done. Qed.
Lemma swap_apart_ok : p <> [] ->
  triple (parts n1 n2 p c L R s0 (above p c b1 R n2) (beneath p b2 L n1) (Some n1) (Some n1) (Some n2) (Some n2) (Some n1))
    (BAVL_swap_apart n1 n2)
    (parts n1 n2 p c L R s0 (beneath p b1 L n2) (above p c b2 R n1) (Some n2) (Some n2) (Some n1) (Some n1) (Some n2)).
Proof.
  intros Hne; pose proof disjoint_nodes as (Hn & H1c & H2c & H2p & _ & H1p); destruct (top_ne p Hne) as [g Hg].
  assert (exists f p', p = f :: p' /\ f_side f = true) as (f & p' & Ep & Hf).
  { destruct p as [|f p']; [done|]; apply Forall_cons in Hp as [Hf _]; eauto. }
  assert (forall q, parent_in q p = Some (f_node f)) as Eq by (rewrite Ep; done).
  unfold BAVL_swap_apart, above, beneath, set_child; rewrite !Eq, !Hg.
  eapply (triple_get _ n1 _ (fun a => _)); [by1|]; eapply (triple_get _ n2 _ (fun b => _)); [by2|]; cbn [parent].
  eapply triple_seq; [apply upd1, Hnd|]; eapply triple_seq; [apply (relink_in _ _ _ _ _ _ _ Hnd f p'); [exact Ep | exact Hf | exact H2p]|].
  eapply triple_seq; [apply upd2, Hnd|]; eapply triple_seq; [apply relink_out; [exact Hnd | exact H1c]|].
  eapply (triple_get _ n1 _ (fun a => _)); [by1|]; eapply (triple_get _ n2 _ (fun b => _)); [by2|]; cbn [link0 update].
  eapply triple_seq; [eapply triple_seq; [apply upd1, Hnd | apply reparent_left, Hnd]|].
  eapply triple_seq; [eapply triple_seq; [apply upd2, Hnd | apply reparent_in; [exact Hnd | exact Hne | apply Hg]]|].
  eapply (triple_get _ n1 _ (fun a => _)); [by1|]; eapply (triple_get _ n2 _ (fun b => _)); [by2|]; cbn [link1 with_link update].
  eapply triple_seq; [eapply triple_seq; [apply upd1, Hnd | apply nothing_set]|].
  eapply triple_seq; [apply upd2, Hnd | apply reparent_right, Hnd].
Qed.

Lemma swap_nodes_ok :
  triple (parts n1 n2 p c L R s0 (above p c b1 R n2) (beneath p b2 L n1) (Some n1) (Some n1) (Some n2) (Some n2) (Some n1))
    (BAVL_swap_nodes n1 n2)
    (parts n1 n2 p c L R s0 (beneath p b2 L n2) (above p c b1 R n1) (Some n2) (Some n2) (Some n1) (Some n1) (Some n2)).
Proof.
  pose proof disjoint_nodes as (Hn & H1c & H2c & H2p & _ & H1p); unfold BAVL_swap_nodes.
  eapply (triple_get _ n1 _ (fun a => _)); [by1|]; eapply (triple_get _ n2 _ (fun b => _)); [by2|]; cbn [above beneath parent].
  assert (bool_decide (parent_in None c = Some n2) = false) as ->.
  { apply bool_decide_eq_false_2; destruct c as [|f c']; [done|]; intros [= He]; apply H2c; rewrite <- He; left. }
  rewrite orb_false_r.
  assert (forall e1 e2 b1' b2', balance e1 = b1' -> balance e2 = b2' -> forall hc q hp pl pr,
    triple (parts n1 n2 p c L R s0 e1 e2 hc q hp pl pr) (a ← get_node n1; b ← get_node n2; set_balance n1 (balance b);; set_balance n2 (balance a))
      (parts n1 n2 p c L R s0 (e1 <| balance := b2' |>) (e2 <| balance := b1' |>) hc q hp pl pr)) as Hbal.
  { intros e1 e2 b1' b2' <- <- hc q hp pl pr.
    eapply (triple_get _ n1 _ (fun a => _)); [by1|]; eapply (triple_get _ n2 _ (fun b => _)); [by2|].
    eapply triple_seq; [apply upd1, Hnd | apply upd2, Hnd]. }
  destruct (decide (p = [])) as [Ep|Ep].
  - assert (bool_decide (parent_in (Some n1) p = Some n1) = true) as -> by (rewrite Ep; apply bool_decide_eq_true_2; done).
    eapply triple_seq; [apply swap_connected_ok, Ep|].
    assert (forall e1 e2 hc q hp pl pr s, parts n1 n2 p c L R s0 e1 e2 hc q hp pl pr s -> parts n1 n2 p c L R s0 e1 e2 hc (Some n2) (Some n1) pl pr s) as Hseg.
    { intros e1 e2 hc q hp pl pr s (H1 & H2 & H3 & _ & H5); split; [exact H1|]; split; [exact H2|]; split; [exact H3|]; split; [rewrite Ep; exact I | exact H5]. }
    intros s Hs%Hseg; exact (Hbal (beneath p b1 L n2) (above p c b2 R n1) b1 b2 eq_refl eq_refl _ _ _ _ _ s Hs).
  - assert (bool_decide (parent_in (Some n1) p = Some n1) = false) as ->.
    { apply bool_decide_eq_false_2; destruct p as [|f p']; [done|]; intros [= He]; apply H1p; rewrite <- He; left. }
    eapply triple_seq; [apply swap_apart_ok, Ep|]; exact (Hbal (beneath p b1 L n2) (above p c b2 R n1) b1 b2 eq_refl eq_refl _ _ _ _ _).
Qed.
End swap_nodes.

Lemma swap_ok n1 n2 b1 b2 p c L R s : Forall (fun f => f_side f = true) p -> holds s (whole n1 n2 b1 b2 p c L R) ->
  exists s', BAVL_swap_nodes n1 n2 s = Ok (tt, s', []) /\ holds s' (whole n2 n1 b1 b2 p c L R) /\ keeps (whole n1 n2 b1 b2 p c L R) s s'.
Proof.
  intros Hp Hs; pose proof Hs as (H1 & H2 & H3 & H4 & H5 & H6 & Hnd)%(whole_parts _ _ _ _ _ _ _ _ s s); [|done].
  destruct (swap_nodes_ok n1 n2 b1 b2 p c L R s Hnd Hp s) as (s' & He & G1 & G2 & G3 & G4 & G5 & G6 & G7); [done|].
  assert (keeps (whole n1 n2 b1 b2 p c L R) s s') as Hk.
  { intros y Hy; apply G7; unfold parts_nodes; rewrite whole_nodes in Hy; exact Hy. }
  exists s'; split; [exact He|]; split; [|exact Hk].
  apply (whole_parts _ _ _ _ _ _ _ _ s' s'); [done|]; do 6 (split; [assumption|]).
  rewrite Permutation_swap; exact Hnd.
Qed.
