(* ===== verification/BAVLRefines.v ===== *)
(** What BAVL.v promises: the operations refine those of a sorted list, keep the tree balanced and
    end; and so the tree is an instance of the interface of OrderedTree.v. *)

From stdpp Require Import sorting.
From S2P Require Import Prelude MiscArith OrderedTree BAVL BAVLTree.

(** * Walks *)

Lemma fuel_enough s T : holds s T -> (length (inorder T) < fuel_of s)%nat.
Proof. intros (_ & Hr & Hnd); unfold fuel_of; pose proof (rep_size _ _ _ Hr Hnd); lia. Qed.
Lemma nd_length d x b u v : length (inorder (nd d x b u v)) = S (length (inorder u) + length (inorder v)).
Proof. rewrite nd_inorder; cbn; rewrite length_app; done. Qed.
Lemma root_nd t x d : root_of t = Some x -> exists b u v, t = nd d x b u v.
Proof. destruct t as [|l y b r]; [done|]; intros [= ->]; destruct d; [exists b, r, l | exists b, l, r]; done. Qed.

Lemma descend_eq d fuel t c s x : root_of t = Some x -> holds s (plug c t) -> (length (inorder t) <= fuel)%nat ->
  exists q y b v, t = plug q (nd d y b Leaf v) /\ Forall (fun f => f_side f = d) q /\ descend fuel d x s = Ok (y, s, []).
Proof.
  revert t c x; induction fuel as [|fuel IH]; intros t c x Hx Hs Hf; destruct (root_nd t x d Hx) as (b & u & v & ->); rewrite nd_length in Hf; [lia|].
  pose proof (holds_node _ _ _ _ _ _ _ Hs) as Hn; cbn [descend].
  assert (forall k : avl_node -> ap Z, (n ← get_node x; k n) s = k (entry d (parent_in None c) (root_of u) (root_of v) b) s) as Hk
    by (intros k; node_step Hn; done).
  rewrite Hk, link_entry; destruct (root_of u) as [z|] eqn:Hu.
  - destruct (IH u (mk_frame d x b v :: c) z Hu Hs) as (q & y & b' & v' & -> & Hq & Hd); [lia|].
    exists (q ++ [mk_frame d x b v]), y, b', v'; split; [rewrite plug_app; done|]; split; [|exact Hd].
    apply Forall_app; split; [exact Hq|]; repeat constructor.
  - exists [], x, b, v; destruct u; [|done]; split_and!; done.
Qed.

(** The replacement of a node that has at most one child. *)
Lemma replace_eq c d x b t s : holds s (plug c (nd d x b t Leaf)) ->
  exists s', BAVL_replace_subtree x (root_of t) s = Ok (tt, s', []) /\ holds s' (plug c t) /\ keeps (plug c (nd d x b t Leaf)) s s'.
Proof.
  intros Hs; pose proof Hs as (Har & Hrep & Hnd)%holds_plug; rewrite nd_root in Har.
  apply nd_rep in Hrep as (Hx & Ht & _); rewrite nd_inorder in Hnd; cbn [inorder app] in Hnd; rewrite app_nil_r in Hnd.
  apply NoDup_cons in Hnd as [Hxn Hnd]; rewrite elem_of_app in Hxn; pose proof Hnd as (NT & Hd & NF)%NoDup_app.
  set (s1 := relinked c (root_of t) s).
  assert (nodes s1 !! x = nodes s !! x) as Hx1 by (apply relinked_other; tauto).
  assert (rep (nodes s1) (Some x) t) as Ht1.
  { eapply rep_frame; [|exact Ht]; intros y Hy; apply relinked_other; auto. }
  exists (mk_avl (root s1) (reparent t (parent_in None c) (nodes s1))); split; [|split].
  - unfold BAVL_replace_subtree; node_step Hx; rewrite parent_entry.
    pstep_by ltac:(apply (relink_eq s c); [exact Har | tauto]); fold s1.
    rewrite Hx in Hx1; node_step Hx1; rewrite parent_entry; apply (set_parent_of_eq (Some x)), Ht1.
  - destruct (relinked_around _ _ _ (root_of t) Har NF) as [H1 H2]; apply holds_plug; split; [split; [exact H1|]|split; [|exact Hnd]].
    + eapply seg_frame; [|exact H2]; intros y Hy; apply reparent_other; intros Hy'; exact (Hd y Hy' Hy).
    + eapply reparent_rep; [exact Ht1 | exact NT].
  - intros y Hy; rewrite plug_nodes, nd_inorder in Hy; cbn [inorder nodes] in *; rewrite reparent_other by set_solver.
    apply relinked_other; set_solver.
Qed.

(** ** The search *)

(** The way down follows the comparison. *)
Definition route (k : Z -> Z) (q : list frame) : Prop := Forall (fun f => k (f_node f) = sign (f_side f)) q.

Lemma search_eq k fuel t c s x : three_way k -> root_of t = Some x -> holds s (plug c t) -> height t <= Z.of_nat fuel ->
  exists q y d b u v, t = plug q (nd d y b u v) /\ route k q /\
  ((k y = 0 /\ BAVL_search fuel k x s = Ok ((y, None), s, [])) \/
   (k y = sign d /\ u = Leaf /\ BAVL_search fuel k x s = Ok ((y, Some d), s, []))).
Proof.
  intros Hk3; revert t c x; induction fuel as [|fuel IH]; intros t c x Hx Hs Hf.
  { destruct (root_nd t x false Hx) as (b & u & v & ->); rewrite nd_height in Hf; pose proof (height_nonneg u); lia. }
  pose proof (Hk3 x) as H3; cbn [BAVL_search].
  assert (forall A (j : Z -> ap A), (comp ← compare_values k x; j comp) s = j (k x) s) as Hcmp.
  { intros A j; unfold compare_values; pstep_by ltac:(pstep_by ltac:(apply passert_ok; lia); reflexivity); done. }
  rewrite Hcmp; destruct (k x =? 0) eqn:H0.
  { destruct (root_nd t x false Hx) as (b & u & v & ->); exists [], x, false, b, u, v; split; [done|]; split; [constructor|].
    left; split; [lia | done]. }
  set (d := k x =? 1); assert (k x = sign d) as Hd by (unfold d; destruct (Z.eqb_spec (k x) 1); cbn [sign]; lia).
  destruct (root_nd t x d Hx) as (b & u & v & ->); rewrite nd_height in Hf.
  pose proof (holds_node _ _ _ _ _ _ _ Hs) as Hn.
  assert (forall j : avl_node -> ap (Z * option bool), (n ← get_node x; j n) s = j (entry d (parent_in None c) (root_of u) (root_of v) b) s) as Hget
    by (intros j; node_step Hn; done).
  rewrite Hget, link_entry; destruct (root_of u) as [z|] eqn:Hu.
  - destruct (IH u (mk_frame d x b v :: c) z Hu Hs) as (q & y & d' & b' & u' & v' & -> & Hq & Hr); [lia|].
    exists (q ++ [mk_frame d x b v]), y, d', b', u', v'; split; [rewrite plug_app; done|]; split; [|exact Hr].
    apply Forall_app; split; [exact Hq|]; repeat constructor; exact Hd.
  - exists [], x, d, b, u, v; destruct u; [|done]; split; [done|]; split; [constructor|]; right; done.
Qed.

(** Where the comparison of the nodes has its sides. *)
Definition sides (cmp : Z -> Z -> Z) (k : Z -> Z) (l : list Z) : Prop :=
  forall a b, a ∈ l -> b ∈ l -> cmp a b < 0 -> (0 < k b -> 0 < k a) /\ (k a < 0 -> k b < 0).
Lemma in_order_app cmp l1 l2 : in_order cmp (l1 ++ l2) <->
  in_order cmp l1 /\ in_order cmp l2 /\ (forall a b, a ∈ l1 -> b ∈ l2 -> cmp a b < 0).
Proof. unfold in_order; rewrite StronglySorted_app; tauto. Qed.
Lemma in_order_middle cmp p l q : in_order cmp (p ++ l ++ q) -> in_order cmp l.
Proof. rewrite !in_order_app; tauto. Qed.
Lemma sides_middle cmp k p x l q : sides cmp k (p ++ l ++ q) -> x ∈ l -> forall y, y ∈ l ->
  (cmp y x < 0 -> 0 < k x -> 0 < k y) /\ (cmp x y < 0 -> k x < 0 -> k y < 0).
Proof. intros Hs Hx y Hy; split; intros Hlt; [apply (Hs y x) | apply (Hs x y)]; set_solver. Qed.

Lemma route_sides cmp k q l : in_order cmp (before q ++ l ++ after q) -> sides cmp k (before q ++ l ++ after q) -> route k q ->
  (forall y, y ∈ before q -> 0 < k y) /\ (forall y, y ∈ after q -> k y < 0).
Proof.
  revert l; induction q as [|[d x b v] q IH]; intros l Ho Hsd Hr; [split; intros y Hy; inversion Hy|].
  apply Forall_cons in Hr as [Hx Hr]; cbn [f_node f_side] in Hx; cbn [before after f_side f_sib f_node] in *.
  destruct d; cbn [sign app] in *.
  - replace ((before q ++ inorder v ++ [x]) ++ l ++ after q) with (before q ++ (inorder v ++ x :: l) ++ after q) in *
      by (rewrite <- !app_assoc; cbn; rewrite <- ?app_assoc; done).
    destruct (IH _ Ho Hsd Hr) as [IH1 IH2]; split; [|exact IH2]; intros y Hy; rewrite !elem_of_app, elem_of_cons in Hy.
    destruct Hy as [Hy|[Hy|[->|Hy]]]; [auto | | lia | inversion Hy].
    apply in_order_middle, in_order_app in Ho as (_ & _ & Ho).
    apply (sides_middle _ _ _ x _ _ Hsd); [set_solver | set_solver | apply Ho; [exact Hy | left] | lia].
  - replace (before q ++ [] ++ l ++ x :: inorder v ++ after q) with (before q ++ (l ++ x :: inorder v) ++ after q) in *
      by (cbn; rewrite <- !app_assoc; cbn; done).
    replace ((before q ++ []) ++ l ++ x :: inorder v ++ after q) with (before q ++ (l ++ x :: inorder v) ++ after q) in *
      by (rewrite <- !app_assoc; cbn; done).
    destruct (IH _ Ho Hsd Hr) as [IH1 IH2]; split; [intros y Hy; apply IH1; rewrite app_nil_r in Hy; exact Hy|].
    intros y Hy; rewrite elem_of_cons, elem_of_app in Hy; destruct Hy as [->|[Hy|Hy]]; [lia | | auto].
    apply in_order_middle, in_order_app in Ho as (_ & Ho & _).
    apply (sides_middle _ _ _ x _ _ Hsd); [set_solver | set_solver | apply (in_order_head _ _ _ _ Ho Hy) | lia].
Qed.

(** What the search for a value says about the nodes in order. *)
Lemma search_found cmp k T s x : three_way k -> root_of T = Some x -> holds s T -> in_order cmp (inorder T) -> sides cmp k (inorder T) ->
  (exists y, y ∈ inorder T /\ k y = 0 /\ BAVL_search (fuel_of s) k x s = Ok ((y, None), s, [])) \/
  (exists q y d b v, T = plug q (nd d y b Leaf v) /\ k y = sign d /\
    BAVL_search (fuel_of s) k x s = Ok ((y, Some d), s, []) /\
    (forall z, z ∈ before (mk_frame d y b v :: q) -> 0 < k z) /\ (forall z, z ∈ after (mk_frame d y b v :: q) -> k z < 0)).
Proof.
  intros Hk Hx Hs Ho Hsd; pose proof (fuel_enough s T Hs); pose proof (height_size T) as Hh; unfold Zlen in Hh.
  destruct (search_eq k (fuel_of s) T [] s x Hk Hx Hs ltac:(lia)) as (q & y & d & b & u & v & -> & Hq & [[H0 Hr]|(H0 & -> & Hr)]).
  - left; exists y; split; [rewrite plug_nodes, nd_inorder; left | done].
  - right; exists q, y, d, b, v; split; [done|]; split; [exact H0|]; split; [exact Hr|].
    apply (route_sides cmp k (mk_frame d y b v :: q) []); [..|constructor; done];
      (change (plug q (nd d y b Leaf v)) with (plug (mk_frame d y b v :: q) Leaf) in *; rewrite inorder_plug in *; done).
Qed.

(** * The operations *)

Lemma frame_nodes_length c : (length c <= length (frame_nodes c))%nat.
Proof. induction c as [|f c IH]; cbn [length frame_nodes]; [lia|]; rewrite length_app; lia. Qed.
Lemma context_fuel s c t : holds s (plug c t) -> (length c < fuel_of s)%nat.
Proof.
  intros Hs; pose proof (fuel_enough _ _ Hs); pose proof (frame_nodes_length c).
  assert (length (inorder (plug c t)) = length (inorder t) + length (frame_nodes c))%nat by (rewrite plug_nodes, length_app; done); lia.
Qed.

Lemma holds_Leaf s : holds s Leaf -> root s = None.
Proof. intros [H1 _]; exact H1. Qed.
(** A new leaf. *)
Lemma hang_eq s f c x : holds s (plug (f :: c) Leaf) -> x ∉ inorder (plug (f :: c) Leaf) -> exists s',
  (forall A (k : ap A), (set_link (f_node f) (f_side f) (Some x);;
   pmod (fun s => s <| nodes ::= <[x := mk_node (Some (f_node f)) None None 0]> |>);; k) s = k s') /\
  holds s' (plug (f :: c) (Node Leaf x 0 Leaf)) /\
  (forall y, y ∉ x :: inorder (plug (f :: c) Leaf) -> nodes s' !! y = nodes s !! y).
Proof.
  intros Hs Hx; pose proof Hs as ([Hr Hseg] & _ & Hnd)%holds_plug; cbn [inorder app root_of] in *.
  rewrite plug_nodes in Hx; cbn [inorder app] in Hx; pose proof Hseg as (Hf & _).
  eexists; split; [intros A k; pstep_by ltac:(apply upd_node_eq, Hf); pstep; reflexivity|]; rewrite with_link_entry.
  cbn [update root nodes]; split.
  - apply holds_plug; split; [split; [exact Hr|]|split].
    + apply avl_seg_insert; [exact Hx|]; apply seg_hole with (1 := Hseg); exact Hnd.
    + cbn [rep parent_in]; split; [apply lookup_insert_eq | done].
    + cbn [inorder app]; apply NoDup_cons; done.
  - intros y Hy; rewrite plug_nodes in Hy; cbn [inorder app frame_nodes] in *.
    change (<[x := mk_node (Some (f_node f)) None None 0]> (<[f_node f := entry (f_side f) (parent_in None c) (Some x) (root_of (f_sib f)) (f_bal f)]> (nodes s)) !! y = nodes s !! y).
    rewrite !lookup_insert_ne by set_solver; done.
Qed.

(** Where a new node goes. *)
Definition inserted (cmp : Z -> Z -> Z) (x : Z) (l l' : list Z) (ref : option Z) : Prop :=
  exists l1 l2, l = l1 ++ l2 /\ l' = l1 ++ x :: l2 /\ (forall y, y ∈ l1 -> 0 < cmp x y) /\ (forall y, y ∈ l2 -> cmp x y < 0) /\
  match ref with Some c => last l1 = Some c \/ head l2 = Some c | None => l = [] end.

Section insert.
Context (cmp : Z -> Z -> Z) (x : Z) (s : avl) (T : tree).
Hypothesis (Hcmp : three_way (cmp x)) (Hs : holds s T) (Hb : balanced T) (Ho : in_order cmp (inorder T))
  (Hsd : sides cmp (cmp x) (inorder T)).

Lemma insert_new : (forall y, y ∈ inorder T -> cmp x y <> 0) -> x ∉ inorder T -> exists s' T' ref,
  BAVL_Insert cmp x s = Ok ((true, ref), s', []) /\ holds s' T' /\ balanced T' /\ inserted cmp x (inorder T) (inorder T') ref /\
  (forall y, y ∉ x :: inorder T -> nodes s' !! y = nodes s !! y).
Proof.
  intros Hne Hx; pose proof Hs as (Hr & _); unfold BAVL_Insert.
  assert (forall A (k : avl -> ap A), (s ← pget; k s) s = k s s) as Hget by (intros; pstep; done); rewrite Hget, Hr.
  destruct (root_of T) as [z|] eqn:Hz.
  - destruct (search_found cmp (cmp x) T s z Hcmp Hz Hs Ho Hsd) as [(y & Hy & H0 & _)|(q & y & d & b & v & -> & Hd & Hsearch & H1 & H2)];
      [destruct (Hne y Hy H0)|].
    set (f := mk_frame d y b v) in *; change (plug q (nd d y b Leaf v)) with (plug (f :: q) Leaf) in *.
    destruct (hang_eq s f q x Hs Hx) as (s1 & Hhang & Hs1 & Hk1).
    destruct (rebalance_turns (S (fuel_of s)) q f (Node Leaf x 0 Leaf) 0 1) as (T' & HbT & HT); [cbn; lia | | done | lia | |].
    { apply (balanced_plug (f :: q) Leaf); exact Hb. }
    { pose proof (context_fuel s (f :: q) Leaf Hs); lia. }
    destruct (HT s1 Hs1) as (s2 & Hreb & Hs2 & Hi2 & Hk2).
    exists s2, T', (Some y); split; [|split; [exact Hs2|split; [exact HbT|split]]].
    + pstep_by ltac:(exact Hsearch); cbv beta iota; change y with (f_node f); change d with (f_side f); rewrite Hhang.
      pstep_by ltac:(exact Hreb); done.
    + exists (before (f :: q)), (after (f :: q)); rewrite Hi2, !inorder_plug; split; [done|]; split; [done|].
      split; [exact H1|]; split; [exact H2|]; unfold f; destruct d; cbn [before after f_side f_sib f_node app]; [left | right; done].
      rewrite app_assoc, last_snoc; done.
    + intros w Hw; rewrite Hk2, Hk1; [done | exact Hw|]; rewrite inorder_plug in Hw |- *; cbn [inorder app] in *; set_solver.
  - destruct T; [|done]; eexists _, (Node Leaf x 0 Leaf), None; split; [pstep; reflexivity|].
    split; [|split; [cbn; lia|split]].
    + split; [done|]; split; [cbn; split; [apply lookup_insert_eq | done]|]; cbn; apply NoDup_singleton.
    + exists [], []; split_and!; try done; intros y Hy; inversion Hy.
    + intros y Hy; apply lookup_insert_ne; set_solver.
Qed.

Lemma insert_old y : y ∈ inorder T -> cmp x y = 0 -> exists z, z ∈ inorder T /\ cmp x z = 0 /\
  BAVL_Insert cmp x s = Ok ((false, Some z), s, []).
Proof.
  intros Hy H0; pose proof Hs as (Hr & _); unfold BAVL_Insert.
  assert (forall A (k : avl -> ap A), (s ← pget; k s) s = k s s) as Hget by (intros; pstep; done); rewrite Hget, Hr.
  destruct (root_of T) as [z|] eqn:Hz; [|destruct T; [inversion Hy | done]].
  destruct (search_found cmp (cmp x) T s z Hcmp Hz Hs Ho Hsd) as [(w & Hw & Hw0 & Hsearch)|(q & w & d & b & v & -> & Hd & _ & H1 & H2)].
  - exists w; split; [exact Hw|]; split; [exact Hw0|]; pstep_by ltac:(exact Hsearch); done.
  - change (plug q (nd d w b Leaf v)) with (plug (mk_frame d w b v :: q) Leaf) in Hy; rewrite inorder_plug in Hy.
    apply elem_of_app in Hy as [Hy|Hy]; [specialize (H1 y Hy) | specialize (H2 y Hy)]; lia.
Qed.
End insert.

Lemma lookup_eq cmp k s T : three_way k -> holds s T -> in_order cmp (inorder T) -> sides cmp k (inorder T) -> exists r e,
  BAVL_Lookup k s = Ok (r, s, []) /\ BAVL_LookupExact k s = Ok (e, s, []) /\
  ((exists y, r = Some y /\ e = Some y /\ y ∈ inorder T /\ k y = 0) \/
   e = None /\ exists l1 l2, inorder T = l1 ++ l2 /\ (forall y, y ∈ l1 -> 0 < k y) /\ (forall y, y ∈ l2 -> k y < 0) /\
     match r with Some c => last l1 = Some c \/ head l2 = Some c | None => inorder T = [] end).
Proof.
  intros Hk Hs Ho Hsd; pose proof Hs as (Hr & _); unfold BAVL_Lookup, BAVL_LookupExact.
  assert (forall A (j : avl -> ap A), (s ← pget; j s) s = j s s) as Hget by (intros; pstep; done); rewrite !Hget, Hr.
  destruct (root_of T) as [z|] eqn:Hz.
  - destruct (search_found cmp k T s z Hk Hz Hs Ho Hsd) as [(y & Hy & H0 & Hse)|(q & y & d & b & v & -> & Hd & Hse & H1 & H2)].
    + exists (Some y), (Some y); split; [pstep_by ltac:(exact Hse); done|]; split; [pstep_by ltac:(exact Hse); done|].
      left; exists y; done.
    + exists (Some y), None; split; [pstep_by ltac:(exact Hse); done|]; split; [pstep_by ltac:(exact Hse); done|].
      right; split; [done|]; exists (before (mk_frame d y b v :: q)), (after (mk_frame d y b v :: q)).
      split; [exact (inorder_plug (mk_frame d y b v :: q) Leaf)|]; split; [exact H1|]; split; [exact H2|].
      destruct d; cbn [before after f_side f_sib f_node app]; [left | right; done]; rewrite app_assoc, last_snoc; done.
  - destruct T; [|done]; exists None, None; split; [done|]; split; [done|]; right; split; [done|]; exists [], [].
    split_and!; try done; intros y Hy; inversion Hy.
Qed.

(** ** Removal *)

Lemma locate x T : x ∈ inorder T -> exists c l b r, T = plug c (Node l x b r).
Proof.
  induction T as [|l IHl y b r IHr]; cbn [inorder]; intros Hx; [inversion Hx|].
  rewrite elem_of_app, elem_of_cons in Hx; destruct Hx as [Hx|[->|Hx]].
  - destruct (IHl Hx) as (c & l' & b' & r' & ->); exists (c ++ [mk_frame false y b r]), l', b', r'; rewrite plug_app; done.
  - exists [], l, b, r; done.
  - destruct (IHr Hx) as (c & l' & b' & r' & ->); exists (c ++ [mk_frame true y b l]), l', b', r'; rewrite plug_app; done.
Qed.
Lemma before_app q c : before (q ++ c) = before c ++ before q.
Proof. induction q as [|f q IH]; cbn [app before]; [rewrite app_nil_r; done|]; rewrite IH, app_assoc; done. Qed.
Lemma after_app q c : after (q ++ c) = after q ++ after c.
Proof. induction q as [|f q IH]; cbn [app after]; [done|]; rewrite IH, app_assoc; done. Qed.
Lemma after_right q : Forall (fun f => f_side f = true) q -> after q = [].
Proof. induction 1 as [|f q Hf Hq IH]; cbn [after]; [done|]; rewrite Hf, IH; done. Qed.
Lemma remove_node_middle x l1 l2 : NoDup (l1 ++ x :: l2) -> remove_node x (l1 ++ x :: l2) = l1 ++ l2.
Proof.
  intros (_ & Hd & [Hx Hl2]%NoDup_cons)%NoDup_app; unfold remove_node; rewrite List.filter_app; fold (remove_node x l1) (remove_node x (x :: l2)).
  rewrite remove_node_cons by done; rewrite remove_node_absent; [done|]; intros Hin; apply (Hd x Hin); left.
Qed.

(** The part of BAVL_Remove that follows the swap. *)
Definition unhang (fuel : nat) (node : Z) : ap unit :=
  n ← get_node node;
  passert (negb (bool_decide (link0 n <> None) && bool_decide (link1 n <> None)));;
  let child := match link0 n with Some l => Some l | None => link1 n end in
  match parent n with
  | Some p =>
    m ← get_node p;
    let side := bool_decide (Some node = link1 m) in
    BAVL_replace_subtree node child;;
    BAVL_rebalance fuel p side (-1)
  | None => BAVL_replace_subtree node child
  end.
Lemma unhang_ok fuel c d x b t s : holds s (plug c (nd d x b t Leaf)) -> balanced (plug c (nd d x b t Leaf)) -> (length c <= fuel)%nat ->
  exists s' T', unhang fuel x s = Ok (tt, s', []) /\ holds s' T' /\ balanced T' /\
    inorder T' = before c ++ inorder t ++ after c /\ keeps (plug c (nd d x b t Leaf)) s s'.
Proof.
  intros Hs Hb Hf; pose proof (holds_node _ _ _ _ _ _ _ Hs) as Hx; apply balanced_plug in Hb as [Hb Hc].
  rewrite nd_height in Hc; apply nd_balanced in Hb as (Hbt & _); cbn [height] in Hc; pose proof (height_nonneg t).
  replace (1 + Z.max (height t) 0) with (height t + 1) in Hc by lia.
  destruct (replace_eq c d x b t s Hs) as (s1 & Hrep & Hs1 & Hk1).
  assert (exists s' T', (match parent_in None c with
      | Some p => m ← get_node p; (let side := bool_decide (Some x = link1 m) in BAVL_replace_subtree x (root_of t);; BAVL_rebalance fuel p side (-1))
      | None => BAVL_replace_subtree x (root_of t) end) s = Ok (tt, s', []) /\ holds s' T' /\ balanced T' /\
    inorder T' = before c ++ inorder t ++ after c /\ keeps (plug c (nd d x b t Leaf)) s s') as (s' & T' & He & Hrest).
  2: { exists s', T'; split; [|exact Hrest]; unfold unhang; node_step Hx; rewrite parent_entry.
    pstep_by ltac:(apply passert_ok; destruct d; cbn [entry link0 link1 root_of]; rewrite ?(bool_decide_eq_false_2 (None <> None)), ?andb_false_r by naive_solver; done).
    assert (match link0 (entry d (parent_in None c) (root_of t) (root_of Leaf) b) with Some l => Some l
      | None => link1 (entry d (parent_in None c) (root_of t) (root_of Leaf) b) end = root_of t) as -> by (destruct d, t; done).
    exact He. }
  destruct c as [|f c]; cbn [parent_in].
  - exists s1, t; split; [exact Hrep|]; split; [exact Hs1|]; split; [exact Hbt|]; split; [cbn; rewrite app_nil_r; done | exact Hk1].
  - destruct (rebalance_turns fuel c f t (height t + 1) (-1) Hbt Hc ltac:(lia) ltac:(lia) Hf) as (T' & HbT & HT).
    destruct (HT s1 Hs1) as (s2 & Hreb & Hs2 & Hi2 & Hk2).
    exists s2, T'; split; [|split; [exact Hs2|split; [exact HbT|split]]].
    + pose proof (holds_node s c (f_side f) (f_node f) (f_bal f) (nd d x b t Leaf) (f_sib f) Hs) as Hp; rewrite nd_root in Hp.
      node_step Hp; rewrite side_found; [pstep_by ltac:(exact Hrep); exact Hreb|].
      intros Hin; apply holds_plug in Hs as (_ & _ & Hnd); rewrite nd_inorder in Hnd; cbn [app frame_nodes] in Hnd.
      apply NoDup_cons in Hnd as [Hnx _]; set_solver.
    + rewrite Hi2, inorder_plug; done.
    + intros y Hy; rewrite Hk2, Hk1; [done | exact Hy|]; rewrite plug_nodes in Hy |- *; rewrite nd_inorder in Hy; set_solver.
Qed.

Lemma remove_eq_unhang x s : BAVL_Remove x s = (n ← get_node x;
  match link0 n, link1 n with Some l, Some _ => max ← BAVL_subtree_max l; BAVL_swap_nodes x max | _, _ => pskip end;; unhang (fuel_of s) x) s.
Proof. unfold BAVL_Remove; pstep; done. Qed.

Lemma whole_inorder x y b1 b2 p c L R : Forall (fun f => f_side f = true) p ->
  inorder (whole x y b1 b2 p c L R) = (before c ++ before p ++ inorder L ++ [y]) ++ x :: inorder R ++ after c.
Proof.
  intros Hp; unfold whole; rewrite inorder_plug, before_app, after_app, (after_right p Hp); cbn [before after f_side f_node f_sib inorder app].
  rewrite !app_nil_r, <- !app_assoc; done.
Qed.

Lemma remove_ok x s T : holds s T -> balanced T -> x ∈ inorder T -> exists s' T',
  BAVL_Remove x s = Ok (tt, s', []) /\ holds s' T' /\ balanced T' /\ inorder T' = remove_node x (inorder T) /\ keeps T s s'.
Proof.
  intros Hs Hb (c & l & b & r & ->)%locate; pose proof (holds_node s c true x b r l Hs) as Hx.
  pose proof (proj2 (proj2 Hs)) as Hnd; pose proof (context_fuel _ _ _ Hs) as Hf.
  assert (forall (k : avl_node -> ap unit), (n ← get_node x; k n) s = k (mk_node (parent_in None c) (root_of l) (root_of r) b) s) as Hget.
  { intros k; node_step Hx; done. }
  rewrite remove_eq_unhang, Hget; cbn [link0 link1].
  assert (l = Leaf \/ r = Leaf \/ (root_of l <> None /\ root_of r <> None)) as [->|[->|[Hl Hr]]].
  { destruct l, r; cbn; auto; right; right; done. }
  - destruct (unhang_ok (fuel_of s) c true x b r s Hs Hb ltac:(lia)) as (s' & T' & He & Hs' & Hb' & Hi & Hk).
    exists s', T'; split; [cbn [root_of]; pstep; exact He|]; split; [exact Hs'|]; split; [exact Hb'|]; split; [|exact Hk].
    rewrite Hi; rewrite inorder_plug in Hnd |- *; cbn [inorder app] in *; rewrite remove_node_middle; done.
  - destruct (unhang_ok (fuel_of s) c false x b l s Hs Hb ltac:(lia)) as (s' & T' & He & Hs' & Hb' & Hi & Hk).
    exists s', T'; split; [cbn [root_of]; destruct (root_of l); pstep; exact He|].
    split; [exact Hs'|]; split; [exact Hb'|]; split; [|exact Hk].
    assert (inorder (plug c (Node l x b Leaf)) = (before c ++ inorder l) ++ x :: after c) as E.
    { rewrite inorder_plug; cbn [inorder]; rewrite <- !app_assoc; done. }
    rewrite E in Hnd; rewrite Hi, E, remove_node_middle by exact Hnd; rewrite <- app_assoc; done.
  - destruct (root_of l) as [z|] eqn:Hz; [|done]; destruct (root_of r) as [z'|] eqn:Hz'; [|done].
    pose proof Hs as Hs0; change (plug c (Node l x b r)) with (plug (mk_frame false x b r :: c) l) in Hs0.
    destruct (descend_eq true (fuel_of s) l (mk_frame false x b r :: c) s z Hz Hs0) as (q & y & b' & v & -> & Hq & Hd).
    { pose proof (fuel_enough _ _ Hs0) as H1; rewrite plug_nodes, length_app in H1; lia. }
    rewrite <- plug_app in Hs0; change (plug (q ++ mk_frame false x b r :: c) (nd true y b' Leaf v)) with (whole x y b b' q c v r) in Hs0.
    assert (plug c (Node (plug q (nd true y b' Leaf v)) x b r) = whole x y b b' q c v r) as HT by (unfold whole; rewrite plug_app; done).
    rewrite HT in *; destruct (swap_ok x y b b' q c v r s Hq Hs0) as (s1 & Hswap & Hs1 & Hk1).
    assert (balanced (whole y x b b' q c v r)) as Hb1.
    { unfold whole in *; rewrite plug_app in *; cbn [plug] in *; apply balanced_plug in Hb as [Hb Hc]; apply balanced_plug.
      unfold plug1 in *; cbn [f_side f_node f_bal f_sib] in *; rewrite nd_balanced, nd_height in *.
      assert (height (plug q (Node v x b' Leaf)) = height (plug q (Node v y b' Leaf)) /\
        (balanced (plug q (Node v y b' Leaf)) -> balanced (plug q (Node v x b' Leaf)))) as [Eh Ebal]; [|rewrite Eh; tauto].
      clear; split; [|rewrite !balanced_plug; done].
      assert (forall t t', height t = height t' -> height (plug q t) = height (plug q t')) as Hh; [|apply Hh; done].
      induction q as [|f q IH]; intros t t' Ht; cbn [plug]; [exact Ht|]; apply IH; unfold plug1; rewrite !nd_height, Ht; done. }
    destruct (unhang_ok (fuel_of s) (q ++ mk_frame false y b r :: c) false x b' v s1 Hs1 Hb1) as (s2 & T' & He & Hs2 & Hb2 & Hi2 & Hk2).
    { unfold whole in Hs0; pose proof (context_fuel _ _ _ Hs0) as H1; rewrite length_app in *; cbn [length] in *; lia. }
    exists s2, T'; split; [|split; [exact Hs2|split; [exact Hb2|split]]].
    + pstep_by ltac:(pstep_by ltac:(unfold BAVL_subtree_max; pstep; exact Hd); exact Hswap); exact He.
    + rewrite Hi2; rewrite (whole_inorder _ _ _ _ _ _ _ _ Hq) in Hnd |- *; rewrite remove_node_middle by exact Hnd.
      rewrite before_app, after_app, (after_right q Hq); cbn [before after f_side f_node f_sib app]; rewrite app_nil_r, <- !app_assoc; done.
    + intros w Hw; rewrite Hk2, Hk1; [done | exact Hw|]; change (w ∉ inorder (whole y x b b' q c v r)).
      rewrite whole_nodes in Hw |- *; set_solver.
Qed.

(** ** The ends and the neighbours *)

Definition facing (d : bool) (l : list Z) : option Z := if d then head l else last l.
Definition outside (d : bool) (c : list frame) : list Z := if d then after c else before c.
Lemma outside_nil d q : Forall (fun f => f_side f = d) q -> outside d q = [].
Proof.
  destruct d; [apply after_right|]; induction 1 as [|f q Hf Hq IH]; cbn [outside before] in *; [done|]; rewrite Hf, IH; done.
Qed.
Lemma first_in_order d q y b v : Forall (fun f => f_side f = d) q ->
  facing (negb d) (inorder (plug q (nd d y b Leaf v))) = Some y.
Proof.
  intros Hq%outside_nil; rewrite inorder_plug; destruct d; cbn [outside negb facing nd inorder] in *; rewrite Hq; cbn [app].
  - rewrite app_nil_r, last_app; cbn; rewrite last_snoc; done.
  - done.
Qed.
Lemma end_eq d s T : holds s T -> BAVL_end d s = Ok (facing (negb d) (inorder T), s, []).
Proof.
  intros Hs; pose proof Hs as (Hr & _); unfold BAVL_end.
  assert (forall A (j : avl -> ap A), (s ← pget; j s) s = j s s) as Hget by (intros; pstep; done); rewrite Hget, Hr.
  destruct (root_of T) as [x|] eqn:Hx; [|destruct T, d; done]; pose proof (fuel_enough s T Hs).
  destruct (descend_eq d (fuel_of s) T [] s x Hx Hs ltac:(lia)) as (q & y & b & v & -> & Hq & Hd).
  pstep_by ltac:(exact Hd); rewrite first_in_order by exact Hq; done.
Qed.

Lemma side_facing d e p h v b : h ∉ inorder v -> bool_decide (Some h = link d (entry e p (Some h) (root_of v) b)) = Bool.eqb d e.
Proof.
  intros Hh; destruct (Bool.eqb_spec d e) as [->|Hne]; [rewrite link_entry; apply bool_decide_eq_true_2; done|].
  assert (d = negb e) as -> by (destruct d, e; done); rewrite link_entry_other; apply bool_decide_eq_false_2; intros He; apply Hh.
  destruct v as [|l x b' r]; [done|]; injection He as ->; cbn [inorder]; set_solver.
Qed.
Lemma ascend_eq d fuel c s t x : root_of t = Some x -> holds s (plug c t) -> (length c < fuel)%nat ->
  ascend fuel d x s = Ok (facing d (outside d c), s, []).
Proof.
  revert c t x; induction fuel as [|fuel IH]; intros c t x Hx Hs Hf; [lia|]; destruct (root_nd t x d Hx) as (b & u & v & ->).
  cbn [ascend]; node_step (holds_node _ _ _ _ _ _ _ Hs); rewrite parent_entry.
  destruct c as [|f c]; cbn [parent_in]; [destruct d; done|].
  pose proof (holds_node s c (f_side f) (f_node f) (f_bal f) (nd d x b u v) (f_sib f) Hs) as Hp; rewrite nd_root in Hp.
  node_step Hp; rewrite side_facing.
  - destruct (Bool.eqb_spec d (f_side f)) as [He|Hne].
    + rewrite (IH c (plug1 f (nd d x b u v)) (f_node f)); [|unfold plug1; apply nd_root | exact Hs | cbn in Hf; lia].
      destruct d; cbn [outside after before]; rewrite <- He; cbn [app]; rewrite ?app_nil_r; done.
    + destruct d, (f_side f) eqn:E; try done; cbn [outside after before]; rewrite E; cbn [facing app]; [done|].
      rewrite app_assoc, last_snoc; done.
  - apply holds_plug in Hs as (_ & _ & Hnd); rewrite nd_inorder in Hnd; cbn [app frame_nodes] in Hnd.
    apply NoDup_cons in Hnd as [Hnx _]; set_solver.
Qed.

Lemma facing_app d l m : facing d (if d then l ++ m else m ++ l) = match facing d l with Some x => Some x | None => facing d m end.
Proof. destruct d; cbn [facing]; [destruct l; done|]; rewrite last_app; done. Qed.
Lemma facing_nonempty d x l b r : exists y, facing d (inorder (Node l x b r)) = Some y.
Proof.
  destruct d; cbn [facing inorder]; [destruct (inorder l); cbn; eauto|]; rewrite last_app.
  assert (exists y, last (x :: inorder r) = Some y) as [y Hy] by (rewrite last_cons; destruct (last _); eauto); rewrite Hy; eauto.
Qed.
Lemma neighbour_eq d c x b u v s : holds s (plug c (nd d x b u v)) ->
  BAVL_neighbour d x s = Ok (facing d (if d then inorder u ++ outside d c else outside d c ++ inorder u), s, []).
Proof.
  intros Hs; pose proof (holds_node _ _ _ _ _ _ _ Hs) as Hx; pose proof (context_fuel _ _ _ Hs) as Hf; pose proof (fuel_enough _ _ Hs) as Hfu.
  unfold BAVL_neighbour; pstep; node_step Hx; rewrite link_entry, facing_app; destruct (root_of u) as [z|] eqn:Hz.
  - destruct (descend_eq (negb d) (fuel_of s) u (mk_frame d x b v :: c) s z Hz Hs) as (q & y & b' & v' & -> & Hq & Hd).
    { rewrite plug_nodes, nd_inorder in Hfu; cbn in Hfu; rewrite !length_app in Hfu; lia. }
    pstep_by ltac:(exact Hd); pose proof (first_in_order (negb d) q y b' v' Hq) as Hfirst; rewrite negb_involutive in Hfirst; rewrite Hfirst; done.
  - destruct u; [|done]; replace (facing d (inorder Leaf)) with (@None Z) by (destruct d; done).
    apply (ascend_eq d (fuel_of s) c s (nd d x b Leaf v)); [apply nd_root | exact Hs | lia].
Qed.
Lemma neighbours s T l1 x l2 : holds s T -> inorder T = l1 ++ x :: l2 ->
  BAVL_GetNext x s = Ok (head l2, s, []) /\ BAVL_GetPrev x s = Ok (last l1, s, []).
Proof.
  intros Hs He; assert (x ∈ inorder T) as Hx by (rewrite He; set_solver); destruct (locate x T Hx) as (c & l & b & r & ->).
  pose proof (proj2 (proj2 Hs)) as Hnd; rewrite He in Hnd.
  assert (inorder (plug c (Node l x b r)) = (before c ++ inorder l) ++ x :: inorder r ++ after c) as E.
  { rewrite inorder_plug; cbn [inorder]; rewrite <- !app_assoc; done. }
  assert (l1 = before c ++ inorder l /\ l2 = inorder r ++ after c) as [-> ->].
  { rewrite E in He; clear E; revert Hnd He; generalize (before c ++ inorder l) (inorder r ++ after c); clear; intros m1 m2 Hnd He.
    revert m1 He Hnd; induction l1 as [|a l1 IH]; intros [|a' m1] He Hnd; cbn in *; simplify_eq; try done.
    - apply NoDup_cons in Hnd as [Hn _]; set_solver.
    - apply NoDup_cons in Hnd as [Hn _]; set_solver.
    - apply NoDup_cons in Hnd as [_ Hnd]; destruct (IH m1) as [-> ->]; done. }
  split; [apply (neighbour_eq true c x b r l s Hs) | apply (neighbour_eq false c x b l r s Hs)].
Qed.

(** ** BAVL_Verify *)


(** ** The height *)


(** * What the tree promises *)

(** The memory holds a balanced tree of the nodes [l], in this order. *)
Definition represents (s : avl) (l : list Z) : Prop := exists T, holds s T /\ balanced T /\ inorder T = l.

Lemma sides_of_order cmp x l : cmp_order cmp (x :: l) -> sides cmp (cmp x) l.
Proof.
  intros [Ho Ht] a b Ha Hb Hlt; assert (a ∈ x :: l /\ b ∈ x :: l /\ x ∈ x :: l) as (Ha' & Hb' & Hx') by set_solver; split; intros H0.
  - apply Ho; [exact Ha' | exact Hx'|]; apply (Ht a b x); try done; apply Ho; done.
  - apply (Ht x a b); done.
Qed.
Lemma sides_of_key cmp k l : key_order cmp k l -> sides cmp k l.
Proof. intros Hk a b Ha Hb Hlt; destruct (Hk a b Ha Hb Hlt) as [H1 H2]; split; intros H0; [apply H2 | apply H1]; lia. Qed.
Lemma cmp_self cmp x l : cmp_order cmp (x :: l) -> cmp x x = 0.
Proof. intros [Ho _]; pose proof (Ho x x ltac:(left) ltac:(left)); lia. Qed.
Lemma inserted_sorted cmp x l l' ref : cmp_order cmp (x :: l) -> in_order cmp l -> inserted cmp x l l' ref -> l' ≡ₚ x :: l /\ in_order cmp l'.
Proof.
  intros Ho Hl (l1 & l2 & -> & -> & H1 & H2 & _); split; [rewrite Permutation_middle; done|].
  apply in_order_app in Hl as (Hl1 & Hl2 & H12); apply in_order_app; split; [exact Hl1|]; split.
  - change (x :: l2) with ([x] ++ l2); apply in_order_app; split; [repeat constructor|]; split; [exact Hl2|].
    intros a b Ha Hb; apply list_elem_of_singleton in Ha as ->; apply H2, Hb.
  - intros a b Ha Hb; apply elem_of_cons in Hb as [->|Hb]; [|apply H12; done].
    apply (proj1 Ho a x); [set_solver | left | apply H1, Ha].
Qed.


(** C39: Looking things up does not change the tree: a value is found where a node compares equal
    to it, and otherwise its neighbour is given; the ends, and the neighbours of a node, are those
    of the sorted list. *)
Theorem BAVL_walks cmp s l : represents s l -> in_order cmp l ->
  BAVL_IsEmpty s = Ok (bool_decide (l = []), s, []) /\
  BAVL_GetFirst s = Ok (head l, s, []) /\ BAVL_GetLast s = Ok (last l, s, []) /\
  (forall l1 x l2, l = l1 ++ x :: l2 -> BAVL_GetNext x s = Ok (head l2, s, []) /\ BAVL_GetPrev x s = Ok (last l1, s, [])) /\
  (forall k, three_way k -> key_order cmp k l -> exists r e,
    BAVL_Lookup k s = Ok (r, s, []) /\ BAVL_LookupExact k s = Ok (e, s, []) /\
    ((exists y, r = Some y /\ e = Some y /\ y ∈ l /\ k y = 0) \/
     e = None /\ exists l1 l2, l = l1 ++ l2 /\ (forall y, y ∈ l1 -> 0 < k y) /\ (forall y, y ∈ l2 -> k y < 0) /\
       match r with Some c => last l1 = Some c \/ head l2 = Some c | None => l = [] end)).
Proof.
  intros (T & Hs & Hb & <-) Hi; split.
  { pose proof Hs as (Hr & _); unfold BAVL_IsEmpty, pread; rewrite Hr; do 3 f_equal; apply bool_decide_ext.
    destruct T as [|l x b r]; [done|]; cbn; split; [done|]; intros He; destruct (inorder l); done. }
  split; [apply (end_eq false s T Hs)|]; split; [apply (end_eq true s T Hs)|]; split.
  - intros l1 x l2 He; apply (neighbours s T); done.
  - intros k Hk Ho; apply (lookup_eq cmp k s T Hk Hs Hi), sides_of_key, Ho.
Qed.


(** ** Reading a tree back *)

Fixpoint read_tree (fuel : nat) (m : gmap Z avl_node) (p : option Z) : tree :=
  match fuel, p with
  | S fuel, Some x =>
    match m !! x with
    | Some n => Node (read_tree fuel m (link0 n)) x (balance n) (read_tree fuel m (link1 n))
    | None => Leaf
    end
  | _, _ => Leaf
  end.
Lemma read_tree_eq fuel m p t : rep m p t -> (length (inorder t) <= fuel)%nat -> read_tree fuel m (root_of t) = t.
Proof.
  revert p t; induction fuel as [|fuel IH]; intros p [|l x b r] Hr Hf; try done; cbn [inorder] in Hf; rewrite length_app in Hf; cbn [length] in Hf; [lia|].
  destruct Hr as (Hx & Hl & Hrr); cbn [read_tree root_of]; rewrite Hx; cbn [link0 link1 balance].
  rewrite (IH _ _ Hl), (IH _ _ Hrr) by lia; done.
Qed.
Definition tree_of (s : avl) : tree := read_tree (fuel_of s) (nodes s) (root s).
Lemma tree_of_eq s T : holds s T -> tree_of s = T.
Proof. intros Hs; pose proof (fuel_enough s T Hs); destruct Hs as (Hr & Hrep & _); unfold tree_of; rewrite Hr; eapply read_tree_eq; [exact Hrep | lia]. Qed.

#[export] Instance rep_decision m p t : Decision (rep m p t).
Proof. revert p; induction t as [|l IHl x b r IHr]; intros p; cbn [rep]; apply _. Defined.
#[export] Instance balanced_decision t : Decision (balanced t).
Proof. induction t as [|l IHl x b r IHr]; cbn [balanced]; apply _. Defined.
#[export] Instance holds_decision s t : Decision (holds s t).
Proof. unfold holds; apply _. Defined.
(** The memory holds a balanced tree. *)
Definition valid (s : avl) : bool := bool_decide (holds s (tree_of s) /\ balanced (tree_of s)).
Lemma valid_represents s : valid s = true <-> exists l, represents s l.
Proof.
  unfold valid; rewrite bool_decide_eq_true; split; [intros [Hs Hb]; exists (inorder (tree_of s)), (tree_of s); done|].
  intros (l & T & Hs & Hb & _); rewrite (tree_of_eq s T Hs); done.
Qed.

(** * The tree behind the interface *)

(** A tree in memory that is in order. *)
Record avl_tree := mk_avl_tree { avl_memory : avl; avl_valid : valid avl_memory = true }.
Lemma valid_empty : valid (mk_avl None ∅) = true.
Proof. reflexivity. Qed.
(** What an operation leaves behind, if it goes through. *)
Definition after_op {X} (t : avl_tree) (dflt : X) (r : res (X * avl * list Empty_set)) : avl_tree * X :=
  match r with
  | Ok (x, s, _) => match decide (valid s = true) with left H => (mk_avl_tree s H, x) | right _ => (t, dflt) end
  | Err _ => (t, dflt)
  end.
Definition avl_elements (t : avl_tree) : list Z := inorder (tree_of (avl_memory t)).
Definition result_of {X} (dflt : X) (r : res (X * avl * list Empty_set)) : X := match r with Ok (x, _, _) => x | Err _ => dflt end.

#[export] Instance avl_ordtree : OrdTree avl_tree := {
  ot_empty := mk_avl_tree (mk_avl None ∅) valid_empty;
  ot_elements := avl_elements;
  ot_first := fun t => result_of None (BAVL_GetFirst (avl_memory t));
  ot_insert := fun cmp x t => let '(t', r) := after_op t (false, None) (BAVL_Insert cmp x (avl_memory t)) in (t', r.1);
  ot_remove := fun x t => if bool_decide (x ∈ avl_elements t) then (after_op t tt (BAVL_Remove x (avl_memory t))).1 else t;
  ot_lookup := fun k t => result_of None (BAVL_LookupExact k (avl_memory t)) }.

Lemma avl_elements_represents t : exists T, holds (avl_memory t) T /\ balanced T /\ inorder T = avl_elements t.
Proof.
  destruct t as [s Hs]; unfold avl_elements; cbn [avl_memory]; apply bool_decide_eq_true in Hs as [Hs Hb].
  exists (tree_of s); done.
Qed.
Lemma after_op_eq {X} t (dflt : X) r x s T : r = Ok (x, s, []) -> holds s T -> balanced T ->
  exists t', after_op t dflt r = (t', x) /\ avl_elements t' = inorder T.
Proof.
  intros -> Hs Hb; assert (valid s = true) as Hv by (apply valid_represents; exists (inorder T), T; done).
  unfold after_op; destruct (decide (valid s = true)) as [Hv'|]; [|done]; eexists; split; [reflexivity|].
  unfold avl_elements; cbn [avl_memory]; rewrite (tree_of_eq s T Hs); done.
Qed.
Lemma avl_tree_eq (t t' : avl_tree) : avl_memory t = avl_memory t' -> t = t'.
Proof. destruct t as [s H], t' as [s' H']; cbn; intros ->; f_equal; apply proof_irrel. Qed.

#[export] Instance avl_ordtree_ok : OrdTreeOk avl_tree.
Proof.
  split.
  - done.
  - intros t; destruct (avl_elements_represents t) as (T & Hs & Hb & He); cbn [ot_elements ot_first avl_ordtree]; unfold BAVL_GetFirst.
    rewrite (end_eq false _ T Hs); cbn; rewrite He; done.
  - intros cmp x t H3 Ho Hi Hne; cbn [ot_elements ot_insert ot_lookup avl_ordtree] in *; destruct (avl_elements_represents t) as (T & Hs & Hb & He); rewrite <- ?He in *.
    assert (x ∉ inorder T) as Hx by (intros Hx; apply (Hne x Hx), (cmp_self cmp x _ Ho)).
    destruct (insert_new cmp x _ T (H3 x) Hs Hb Hi (sides_of_order cmp x _ Ho) Hne Hx) as (s' & T' & ref & Hins & Hs' & Hb' & Hpos & _).
    destruct (after_op_eq t (false, None) _ _ _ T' Hins Hs' Hb') as (t' & Ht' & Hel); exists t'; rewrite Ht'; cbn [ot_elements avl_ordtree]; rewrite Hel; split; [done|].
    apply (inserted_sorted cmp x _ _ ref Ho Hi Hpos).
  - intros cmp x t y H3 Ho Hi Hy H0; cbn [ot_elements ot_insert ot_lookup avl_ordtree] in *; destruct (avl_elements_represents t) as (T & Hs & Hb & He); rewrite <- ?He in *.
    destruct (insert_old cmp x _ T (H3 x) Hs Hb Hi (sides_of_order cmp x _ Ho) y Hy H0) as (z & _ & _ & Hins); rewrite Hins; unfold after_op.
    destruct (decide _) as [Hv|Hv]; [f_equal; apply avl_tree_eq; done | destruct t as [s Hvs]; done].
  - intros x t; cbn [ot_elements ot_remove avl_ordtree]; destruct (avl_elements_represents t) as (T & Hs & Hb & He); destruct (bool_decide (x ∈ avl_elements t)) eqn:Hx.
    + apply bool_decide_eq_true in Hx; rewrite <- He in *; destruct (remove_ok x _ T Hs Hb Hx) as (s' & T' & Hrm & Hs' & Hb' & Hi' & _).
      destruct (after_op_eq t tt _ _ _ T' Hrm Hs' Hb') as (t' & Ht' & Hel); rewrite Ht'; cbn [fst]; rewrite Hel; exact Hi'.
    + apply bool_decide_eq_false in Hx; symmetry; apply remove_node_absent, Hx.
  - intros cmp k t H3 Hi Hk; cbn [ot_elements ot_insert ot_lookup avl_ordtree] in *; destruct (avl_elements_represents t) as (T & Hs & Hb & He); rewrite <- ?He in *.
    destruct (lookup_eq cmp k _ T H3 Hs Hi (sides_of_key cmp k _ Hk)) as (r & e & _ & Hl & Hcase); rewrite Hl; cbn [result_of].
    destruct Hcase as [(y & _ & -> & Hy & H0)|(-> & l1 & l2 & E & H1 & H2 & _)]; [done|].
    intros y Hy; rewrite E, elem_of_app in Hy; destruct Hy as [Hy|Hy]; [specialize (H1 y Hy) | specialize (H2 y Hy)]; lia.
Qed.

(** * A tree in use *)

Definition nodes0 : list Z := [50; 30; 70; 20; 40; 60; 80; 10; 25; 35; 45; 5].
Definition insert_all (l : list Z) (s : avl) : avl := fold_left (fun s x => result_of s (match BAVL_Insert B_COMPARE x s with
  | Ok (_, s', _) => Ok (s', s', []) | Err e => Err e end)) l s.
Definition avl0 : avl := Eval vm_compute in insert_all nodes0 (mk_avl None ∅).
Definition sorted0 : list Z := [5; 10; 20; 25; 30; 35; 40; 45; 50; 60; 70; 80].
Lemma avl0_represents : represents avl0 sorted0.
Proof.
  exists (tree_of avl0); assert (valid avl0 = true) as [Hs Hb]%bool_decide_eq_true by (vm_compute; reflexivity).
  split; [exact Hs|]; split; [exact Hb | vm_compute; reflexivity].
Qed.
Lemma sorted0_order : in_order B_COMPARE sorted0.
Proof. repeat constructor. Qed.

Lemma BAVL_walks_witness : BAVL_GetFirst avl0 = Ok (Some 5, avl0, []) /\ BAVL_GetNext 25 avl0 = Ok (Some 30, avl0, []).
Proof.
  destruct (BAVL_walks B_COMPARE avl0 sorted0 avl0_represents sorted0_order) as (_ & Hf & _ & Hn & _).
  split; [exact Hf | exact (proj1 (Hn [5; 10; 20] 25 [30; 35; 40; 45; 50; 60; 70; 80] eq_refl))].
Defined.
