(* ===== verification/BReactor.v ===== *)
(** The event loop of system/BReactor_badvpn.c, as built for Linux with epoll: jobs before expired
    timers before file descriptors, waiting when nothing is left, and the objects its users
    register: timers, file descriptors and limits. What one turn of the loop reads of the system,
    the clock of system/BTime.h and the answers of epoll_wait, is its argument. *)

From S2P Require Import Prelude MiscArith LinkedLists Pending OrderedTree.

Definition INT64_MAX : Z := 9223372036854775807.
Definition INT64_MIN : Z := -9223372036854775808.
Definition is_int64 (x : Z) : Prop := INT64_MIN <= x <= INT64_MAX.
(** [btime_t] is [int64_t]. *)
Definition int64_result (x : Z) : res Z := if (INT64_MIN <=? x) && (x <=? INT64_MAX) then Ok x else Err SignedOverflow.
Definition btime_add (t1 t2 : Z) : Z :=
  let overflows := add_signed_overflows INT64_MIN INT64_MAX t1 t2 in
  if negb (overflows =? 0) then if 0 <? overflows then INT64_MAX else INT64_MIN else t1 + t2.
Definition btime_getpast : Z := INT64_MIN.

Inductive timer_state := TIMER_STATE_INACTIVE | TIMER_STATE_RUNNING | TIMER_STATE_EXPIRED.
#[export] Instance timer_state_eq : EqDecision timer_state.
Proof. solve_decision. Defined.
Definition in_state (a b : timer_state) : bool := bool_decide (a = b).

(** [BSmallTimer] and [BTimer], whose [base] is one; [t_msTime] is the field of the latter. *)
Record timer := mk_timer { t_absTime : Z; t_state : timer_state; t_is_small : bool; t_msTime : Z }.
#[export] Instance timer_eta : Eta timer := fun t => mk_timer (t_absTime t) (t_state t) (t_is_small t) (t_msTime t).

Definition BREACTOR_READ : Z := Z.shiftl 1 0.
Definition BREACTOR_WRITE : Z := Z.shiftl 1 1.
Definition BREACTOR_ERROR : Z := Z.shiftl 1 2.
Definition BREACTOR_HUP : Z := Z.shiftl 1 3.
(** sys/epoll.h *)
Definition EPOLLIN : Z := 1.
Definition EPOLLOUT : Z := 4.
Definition EPOLLERR : Z := 8.
Definition EPOLLHUP : Z := 16.

(** [BFileDescriptor]; [epoll_returned_ptr] is the entry of [epoll_results] it points into. *)
Record fdesc := mk_fdesc { fd : Z; active : bool; waitEvents : Z; epoll_returned_ptr : option nat }.
#[export] Instance fdesc_eta : Eta fdesc := fun b => mk_fdesc (fd b) (active b) (waitEvents b) (epoll_returned_ptr b).
Record epoll_event := mk_event { ev_events : Z; ev_ptr : option Z }.
#[export] Instance epoll_event_eta : Eta epoll_event := fun e => mk_event (ev_events e) (ev_ptr e).
Record limit := mk_limit { l_limit : Z; l_count : Z }.
#[export] Instance limit_eta : Eta limit := fun l => mk_limit (l_limit l) (l_count l).

Definition BSYSTEM_MAX_RESULTS : Z := 64.

(** How one call of epoll_wait ends, [None] when interrupted, and the clock then. *)
Record wake := mk_wake { w_events : option (list epoll_event); w_now : Z }.

Inductive epoll_ctl_op := EPOLL_CTL_ADD | EPOLL_CTL_MOD | EPOLL_CTL_DEL.

Section reactor.
Context {T : Type} `{OrdTree T} {Hd Us : Type}.

(** The jobs are the stack that base/BPending.c implements. [timers], [fds] and [limits] are the
    memory of the users' objects. *)
Record reactor := mk_reactor {
  exiting : bool; exit_code : Z; pending_jobs : @pend_spec Hd Us;
  timers_tree : T; timers_expired_list : list Z; active_limits_list : list Z;
  epoll_results : list epoll_event; epoll_results_num : Z; epoll_results_pos : Z;
  d_fds_counter : Z; d_limits_ctr : Z;
  timers : gmap Z timer; fds : gmap Z fdesc; limits : gmap Z limit }.
#[export] Instance reactor_eta : Eta reactor := fun o =>
  mk_reactor (exiting o) (exit_code o) (pending_jobs o) (timers_tree o) (timers_expired_list o) (active_limits_list o)
    (epoll_results o) (epoll_results_num o) (epoll_results_pos o) (d_fds_counter o) (d_limits_ctr o)
    (timers o) (fds o) (limits o).

(** What the reactor calls: the handlers of its users, each the last thing a turn does, and the
    system. *)
Inductive rcall :=
| RunJob (j : @run Hd Us)
| TimerHandler (bt : Z) (small : bool)
| FdHandler (bs : Z) (events : Z)
| EpollWait (timeout : Z)
| EpollCtl (op : epoll_ctl_op) (fd : Z) (events : Z) (ptr : option Z)
| CloseEpoll.
Definition rp := prog reactor rcall.

Definition get_timer (bt : Z) : rp timer := fun o =>
  match timers o !! bt with Some t => Ok (t, o, []) | None => Err OutOfBounds end.
Definition mod_timer (bt : Z) (f : timer -> timer) : rp unit :=
  t ← get_timer bt; pmod (fun o => o <| timers ::= <[bt := f t]> |>).
Definition get_fd (bs : Z) : rp fdesc := fun o =>
  match fds o !! bs with Some b => Ok (b, o, []) | None => Err OutOfBounds end.
Definition mod_fd (bs : Z) (f : fdesc -> fdesc) : rp unit :=
  b ← get_fd bs; pmod (fun o => o <| fds ::= <[bs := f b]> |>).
Definition get_limit (l : Z) : rp limit := fun o =>
  match limits o !! l with Some x => Ok (x, o, []) | None => Err OutOfBounds end.
Definition mod_limit (l : Z) (f : limit -> limit) : rp unit :=
  x ← get_limit l; pmod (fun o => o <| limits ::= <[l := f x]> |>).
Definition get_result (i : nat) : rp epoll_event := fun o =>
  match epoll_results o !! i with Some e => Ok (e, o, []) | None => Err OutOfBounds end.
Definition on_jobs (op : pend_op) : rp unit := fun o =>
  match spec_step op (pending_jobs o) with
  | Some (s, rs) => Ok (tt, o <| pending_jobs := s |>, map RunJob rs)
  | None => Err AssertFailed
  end.
Definition has_jobs (o : reactor) : bool := match stack (pending_jobs o) with [] => false | _ => true end.

(** ** Timers *)

Definition abs_time (o : reactor) (bt : Z) : Z := match timers o !! bt with Some t => t_absTime t | None => 0 end.
Definition compare_timers (o : reactor) (t1 t2 : Z) : Z :=
  let cmp := B_COMPARE (abs_time o t1) (abs_time o t2) in
  if negb (cmp =? 0) then cmp else B_COMPARE t1 t2.

(** A timer of the tree is put on the list of the expired ones. *)
Definition expire (bt : Z) : rp unit :=
  pmod (fun o => o <| timers_tree ::= ot_remove bt |>);;
  pmod (fun o => o <| timers_expired_list ::= fun l => l ++ [bt] |>);;
  mod_timer bt (fun t => t <| t_state := TIMER_STATE_EXPIRED |>).

(** The loops over the tree, which end when it is empty. *)
Fixpoint move_until (fuel : nat) (chk : Z -> bool) (now : Z) (moved : bool) : rp bool :=
  match fuel with
  | O => fun _ => Err FuelExhausted
  | S fuel =>
    o ← pget;
    match ot_first (timers_tree o) with
    | None => mret moved
    | Some bt =>
      t ← get_timer bt;
      passert (in_state (t_state t) TIMER_STATE_RUNNING);;
      passert (chk (t_absTime t));;
      if now <? t_absTime t then mret moved else
      expire bt;;
      move_until fuel chk now true
    end
  end.
Definition tree_fuel (o : reactor) : nat := S (length (ot_elements (timers_tree o))).
Definition move_expired_timers (now : Z) : rp bool :=
  f ← pread tree_fuel; move_until f (fun _ => true) now false.
Definition move_first_timers : rp unit :=
  o ← pget;
  match ot_first (timers_tree o) with
  | None => passert false
  | Some bt =>
    t ← get_timer bt;
    passert (in_state (t_state t) TIMER_STATE_RUNNING);;
    expire bt;;
    f ← pread tree_fuel;
    move_until f (fun a => t_absTime t <=? a) (t_absTime t) true;;
    pskip
  end.

(** ** Waiting *)

(** [struct epoll_event epoll_results[BSYSTEM_MAX_RESULTS]] is written from its start. *)
Definition store_results (evs : list epoll_event) : rp unit :=
  pmod (fun o => o <| epoll_results ::= fun old => evs ++ drop (length evs) old |> <| epoll_results_num := Zlen evs |>).
Fixpoint set_fd_pointers (i : nat) (n : nat) : rp unit :=
  match n with
  | O => pskip
  | S n =>
    e ← get_result i;
    match ev_ptr e with
    | None => passert false
    | Some bs =>
      b ← get_fd bs;
      passert (active b);;
      passert (bool_decide (epoll_returned_ptr b = None));;
      mod_fd bs (fun b => b <| epoll_returned_ptr := Some i |>);;
      set_fd_pointers (S i) n
    end
  end.
Definition set_epoll_fd_pointers : rp unit :=
  n ← pread epoll_results_num; set_fd_pointers 0 (Z.to_nat n).

(** The loop around epoll_wait, one turn for each element of [ws]; [timeout_abs] is [None] when
    there is no timer. *)
Fixpoint wait_loop (timeout_abs : option Z) (now : Z) (ws : list wake) : rp unit :=
  match ws with
  | [] => fun _ => Err FuelExhausted
  | w :: ws =>
    timeout_rel ← match timeout_abs with Some a => plift (int64_result (a - now)) | None => mret 0 end;
    let timeout_rel_trunc := match timeout_abs with Some _ => Z.min timeout_rel INT_MAX | None => 0 end in
    pcall (EpollWait (match timeout_abs with Some _ => timeout_rel_trunc | None => -1 end));;
    let try_again :=
      match timeout_abs with
      | Some a => if a <=? w_now w then move_first_timers else wait_loop timeout_abs (w_now w) ws
      | None => wait_loop timeout_abs now ws
      end in
    match w_events w with
    | None => try_again
    | Some evs =>
      passert (negb (Zlen evs =? 0) || bool_decide (timeout_abs <> None));;
      passert (Zlen evs <=? BSYSTEM_MAX_RESULTS);;
      if negb (Zlen evs =? 0) then store_results evs;; set_epoll_fd_pointers
      else if timeout_rel_trunc =? timeout_rel then move_first_timers
      else try_again
    end
  end.

Fixpoint reset_limits (ls : list Z) : rp unit :=
  match ls with
  | [] => pskip
  | l :: ls =>
    x ← get_limit l;
    passert (0 <? l_count x);;
    mod_limit l (fun x => x <| l_count := 0 |>);;
    pmod (fun o => o <| active_limits_list ::= remove_node l |>);;
    reset_limits ls
  end.

Definition wait_for_events (now : Z) (ws : list wake) : rp unit :=
  o ← pget;
  passert (negb (has_jobs o));;
  passert (bool_decide (timers_expired_list o = []));;
  passert (epoll_results_pos o =? epoll_results_num o);;
  pmod (fun o => o <| epoll_results_num := 0 |> <| epoll_results_pos := 0 |>);;
  match ot_first (timers_tree o) with
  | Some bt =>
    t ← get_timer bt;
    passert (in_state (t_state t) TIMER_STATE_RUNNING);;
    moved ← move_expired_timers now;
    if moved : bool then pskip else
    wait_loop (Some (t_absTime t)) now ws;;
    ls ← pread active_limits_list;
    reset_limits ls
  | None =>
    wait_loop None 0 ws;;
    ls ← pread active_limits_list;
    reset_limits ls
  end.

(** ** The loop *)

Definition has_bit (x b : Z) : bool := negb (Z.land x b =? 0).
(** The events of a file descriptor to report. *)
Definition events_of (wait ev : Z) : Z :=
  Z.lor (Z.lor (Z.lor (if has_bit wait BREACTOR_READ && has_bit ev EPOLLIN then BREACTOR_READ else 0)
    (if has_bit wait BREACTOR_WRITE && has_bit ev EPOLLOUT then BREACTOR_WRITE else 0))
    (if has_bit ev EPOLLERR then BREACTOR_ERROR else 0)) (if has_bit ev EPOLLHUP then BREACTOR_HUP else 0).

Definition dispatch_timer (bt : Z) : rp unit :=
  t ← get_timer bt;
  passert (in_state (t_state t) TIMER_STATE_EXPIRED);;
  pmod (fun o => o <| timers_expired_list ::= remove_node bt |>);;
  mod_timer bt (fun t => t <| t_state := TIMER_STATE_INACTIVE |>);;
  pcall (TimerHandler bt (t_is_small t)).
Definition dispatch_result : rp unit :=
  pos ← pread epoll_results_pos;
  e ← get_result (Z.to_nat pos);
  pmod (fun o => o <| epoll_results_pos ::= Z.add 1 |>);;
  match ev_ptr e with
  | None => pskip
  | Some bs =>
    b ← get_fd bs;
    passert (active b);;
    passert (bool_decide (epoll_returned_ptr b = Some (Z.to_nat pos)));;
    mod_fd bs (fun b => b <| epoll_returned_ptr := None |>);;
    let events := events_of (waitEvents b) (ev_events e) in
    if events =? 0 then pskip else pcall (FdHandler bs events)
  end.

(** One turn of the loop of [BReactor_Exec], which the test of [exiting] has let in. *)
Definition BReactor_Exec_turn (now : Z) (ws : list wake) : rp unit :=
  o ← pget;
  if has_jobs o then on_jobs OpExecute else
  match timers_expired_list o with
  | bt :: _ => dispatch_timer bt
  | [] => if epoll_results_pos o <? epoll_results_num o then dispatch_result else wait_for_events now ws
  end.
(** One turn of the loop of [BReactor_Synchronize]: whether the job [ref] has been reached. *)
Definition BReactor_Synchronize_turn (ref : loc) : rp bool :=
  o ← pget;
  passert (has_jobs o);;
  if bool_decide (head (stack (pending_jobs o)) = Some ref) then mret true
  else on_jobs OpExecute;; mret false.
Definition BReactor_Quit (code : Z) : rp unit := pmod (fun o => o <| exiting := true |> <| exit_code := code |>).

(** [BPendingGroup_Free] asserts that there are no jobs, pending or not. *)
Definition BPendingGroup_Free_jobs : rp unit :=
  o ← pget; passert (bool_decide (size (known (pending_jobs o)) = 0%nat));; passert (negb (has_jobs o)).
(** [epoll_ok] is whether epoll_create succeeded; the rest of the reactor's memory is in [o]. *)
Definition BReactor_Init (epoll_ok : bool) : rp bool :=
  pmod (fun o => o <| exiting := false |> <| pending_jobs := mk_spec [] ∅ |>
                   <| timers_tree := ot_empty |> <| timers_expired_list := [] |> <| active_limits_list := [] |>);;
  if negb epoll_ok then BPendingGroup_Free_jobs;; mret false else
  pmod (fun o => o <| epoll_results_num := 0 |> <| epoll_results_pos := 0 |> <| d_fds_counter := 0 |> <| d_limits_ctr := 0 |>);;
  mret true.
Definition BReactor_Free : rp unit :=
  o ← pget;
  passert (negb (has_jobs o));;
  passert (bool_decide (ot_first (timers_tree o) = None));;
  passert (bool_decide (timers_expired_list o = []));;
  passert (bool_decide (active_limits_list o = []));;
  passert (DebugCounter_Free_ok (d_fds_counter o));;
  passert (DebugCounter_Free_ok (d_limits_ctr o));;
  pcall CloseEpoll;;
  BPendingGroup_Free_jobs.

(** ** The users' objects *)

Definition BSmallTimer_Init (bt : Z) : rp unit :=
  pmod (fun o => o <| timers ::= <[bt := mk_timer 0 TIMER_STATE_INACTIVE true 0]> |>).
Definition BTimer_Init (bt : Z) (msTime : Z) : rp unit :=
  pmod (fun o => o <| timers ::= <[bt := mk_timer 0 TIMER_STATE_INACTIVE false msTime]> |>).
Definition BSmallTimer_IsRunning (bt : Z) : rp bool :=
  t ← get_timer bt; mret (negb (in_state (t_state t) TIMER_STATE_INACTIVE)).

Definition BReactor_RemoveSmallTimer (bt : Z) : rp unit :=
  t ← get_timer bt;
  if in_state (t_state t) TIMER_STATE_INACTIVE then pskip else
  (if in_state (t_state t) TIMER_STATE_EXPIRED
   then pmod (fun o => o <| timers_expired_list ::= remove_node bt |>)
   else pmod (fun o => o <| timers_tree ::= ot_remove bt |>));;
  mod_timer bt (fun t => t <| t_state := TIMER_STATE_INACTIVE |>).
Definition BTIMER_SET_ABSOLUTE : Z := 1.
Definition BTIMER_SET_RELATIVE : Z := 2.
Definition BReactor_SetSmallTimer (bt : Z) (mode time now : Z) : rp unit :=
  passert ((mode =? BTIMER_SET_ABSOLUTE) || (mode =? BTIMER_SET_RELATIVE));;
  BReactor_RemoveSmallTimer bt;;
  let time := if mode =? BTIMER_SET_RELATIVE then btime_add now time else time in
  mod_timer bt (fun t => t <| t_absTime := time |>);;
  mod_timer bt (fun t => t <| t_state := TIMER_STATE_RUNNING |>);;
  o ← pget;
  let '(tree, res) := ot_insert (compare_timers o) bt (timers_tree o) in
  pmod (fun o => o <| timers_tree := tree |>);;
  passert res.
Definition BReactor_SetTimer (bt now : Z) : rp unit :=
  t ← get_timer bt; BReactor_SetSmallTimer bt BTIMER_SET_RELATIVE (t_msTime t) now.
Definition BReactor_SetTimerAfter (bt after now : Z) : rp unit := BReactor_SetSmallTimer bt BTIMER_SET_RELATIVE after now.
Definition BReactor_SetTimerAbsolute (bt time now : Z) : rp unit := BReactor_SetSmallTimer bt BTIMER_SET_ABSOLUTE time now.
Definition BReactor_RemoveTimer (bt : Z) : rp unit := BReactor_RemoveSmallTimer bt.

Definition BFileDescriptor_Init (bs : Z) (n : Z) : rp unit :=
  pmod (fun o => o <| fds ::= <[bs := mk_fdesc n false 0 None]> |>).
(** [ok] is whether epoll_ctl accepts the descriptor. *)
Definition BReactor_AddFileDescriptor (bs : Z) (ok : bool) : rp bool :=
  b ← get_fd bs;
  passert (negb (active b));;
  pcall (EpollCtl EPOLL_CTL_ADD (fd b) 0 (Some bs));;
  if negb ok then mret false else
  mod_fd bs (fun b => b <| epoll_returned_ptr := None |>);;
  mod_fd bs (fun b => b <| active := true |> <| waitEvents := 0 |>);;
  o ← pget;
  n ← plift (DebugCounter_Increment (d_fds_counter o));
  pmod (fun o => o <| d_fds_counter := n |>);;
  mret true.
(** [*bs->epoll_returned_ptr = NULL;] *)
Definition clear_result (i : nat) : rp unit :=
  e ← get_result i; pmod (fun o => o <| epoll_results ::= <[i := e <| ev_ptr := None |>]> |>).
Definition BReactor_RemoveFileDescriptor (bs : Z) : rp unit :=
  b ← get_fd bs;
  passert (active b);;
  o ← pget;
  n ← plift (DebugCounter_Decrement (d_fds_counter o));
  pmod (fun o => o <| d_fds_counter := n |>);;
  mod_fd bs (fun b => b <| active := false |>);;
  pcall (EpollCtl EPOLL_CTL_DEL (fd b) 0 None);;
  match epoll_returned_ptr b with Some i => clear_result i | None => pskip end.
Definition BReactor_SetFileDescriptorEvents (bs : Z) (events : Z) : rp unit :=
  b ← get_fd bs;
  passert (active b);;
  passert (Z.land events (Z.lnot (Z.lor BREACTOR_READ BREACTOR_WRITE)) =? 0);;
  if waitEvents b =? events then pskip else
  let eevents := Z.lor (if has_bit events BREACTOR_READ then EPOLLIN else 0) (if has_bit events BREACTOR_WRITE then EPOLLOUT else 0) in
  pcall (EpollCtl EPOLL_CTL_MOD (fd b) eevents (Some bs));;
  mod_fd bs (fun b => b <| waitEvents := events |>).

Definition BReactorLimit_Init (l lim : Z) : rp unit :=
  passert (0 <? lim);;
  pmod (fun o => o <| limits ::= <[l := mk_limit lim 0]> |>);;
  o ← pget;
  n ← plift (DebugCounter_Increment (d_limits_ctr o));
  pmod (fun o => o <| d_limits_ctr := n |>).
Definition BReactorLimit_Free (l : Z) : rp unit :=
  x ← get_limit l;
  o ← pget;
  n ← plift (DebugCounter_Decrement (d_limits_ctr o));
  pmod (fun o => o <| d_limits_ctr := n |>);;
  (if 0 <? l_count x then pmod (fun o => o <| active_limits_list ::= remove_node l |>) else pskip);;
  pmod (fun o => o <| limits ::= delete l |>).
Definition BReactorLimit_Increment (l : Z) : rp bool :=
  x ← get_limit l;
  if l_limit x <=? l_count x then mret false else
  mod_limit l (fun x => x <| l_count ::= Z.add 1 |>);;
  x ← get_limit l;
  (if l_count x =? 1 then pmod (fun o => o <| active_limits_list ::= fun ls => ls ++ [l] |>) else pskip);;
  mret true.
Definition BReactorLimit_SetLimit (l lim : Z) : rp unit :=
  passert (0 <? lim);;
  mod_limit l (fun x => x <| l_limit := lim |>).
End reactor.
Arguments reactor : clear implicits.
Arguments rcall : clear implicits.
