(* ===== verification/ReactorLoop.v ===== *)
(** The event loop of BReactor.v and its users: what the system answers, the invariant of timers,
    descriptors, results and limits, and the theorems that the loop is safe, dispatches in the
    documented order, forgets no timer and does not wait for ever. *)

From S2P Require Import Prelude MiscArith LinkedLists Pending OrderedTree BReactor BAVL BAVLRefines.

(** * The reactor and its users *)

Section steps.
Context {T : Type} `{OrdTree T} {Hd Us : Type}.
Implicit Types (o : reactor T Hd Us).

Inductive event :=
| ETurn (now : Z) (ws : list wake) | ESynchronize (ref : loc) | EQuit (code : Z)
| EJob (op : @pend_op Hd Us)
| ESmallTimerInit (bt : Z) | ETimerInit (bt ms : Z) | ESetTimer (bt mode time now : Z) | ESetDefault (bt now : Z) | ERemoveTimer (bt : Z)
| EFdInit (bs n : Z) | EAddFd (bs : Z) (ok : bool) | ERemoveFd (bs : Z) | ESetEvents (bs events : Z)
| ELimitInit (l lim : Z) | ELimitFree (l : Z) | EIncrement (l : Z) | ESetLimit (l lim : Z).

Definition handle (e : event) : @rp T Hd Us bool :=
  match e with
  | ETurn now ws => BReactor_Exec_turn now ws;; mret true
  | ESynchronize ref => BReactor_Synchronize_turn ref
  | EQuit code => BReactor_Quit code;; mret true
  | EJob op => on_jobs op;; mret true
  | ESmallTimerInit bt => BSmallTimer_Init bt;; mret true
  | ETimerInit bt ms => BTimer_Init bt ms;; mret true
  | ESetTimer bt mode time now => BReactor_SetSmallTimer bt mode time now;; mret true
  | ESetDefault bt now => BReactor_SetTimer bt now;; mret true
  | ERemoveTimer bt => BReactor_RemoveSmallTimer bt;; mret true
  | EFdInit bs n => BFileDescriptor_Init bs n;; mret true
  | EAddFd bs ok => BReactor_AddFileDescriptor bs ok
  | ERemoveFd bs => BReactor_RemoveFileDescriptor bs;; mret true
  | ESetEvents bs events => BReactor_SetFileDescriptorEvents bs events;; mret true
  | ELimitInit l lim => BReactorLimit_Init l lim;; mret true
  | ELimitFree l => BReactorLimit_Free l;; mret true
  | EIncrement l => BReactorLimit_Increment l
  | ESetLimit l lim => BReactorLimit_SetLimit l lim;; mret true
  end.

(** ** What epoll_wait and the clock do *)

Definition abs_of (ts : gmap Z timer) (bt : Z) : Z := match ts !! bt with Some t => t_absTime t | None => 0 end.
Definition next_timeout o : option Z := abs_of (timers o) <$> ot_first (timers_tree o).
Definition is_active (fs : gmap Z fdesc) (bs : Z) : Prop := exists b, fs !! bs = Some b /\ active b = true.
(** The documented answers of epoll_wait, called with the clock at [now] to wait until [timeout]:
    an error, which can only be an interruption; events of registered descriptors, no more than
    there is room for, with the pointer that was registered; nothing, which takes a timeout, and
    the time waited for. *)
Definition answer_ok (fs : gmap Z fdesc) (timeout : option Z) (now : Z) (w : wake) : Prop :=
  match w_events w with
  | None => True
  | Some [] => exists a, timeout = Some a /\ now + Z.min (a - now) INT_MAX <= w_now w
  | Some evs => Zlen evs <= BSYSTEM_MAX_RESULTS /\ exists l, map ev_ptr evs = map Some l /\ NoDup l /\ forall bs, bs ∈ l -> is_active fs bs
  end.
(** The answer after which the reactor stops waiting. *)
Definition stops (timeout : option Z) (now : Z) (w : wake) : bool :=
  match w_events w, timeout with
  | Some (_ :: _), _ => true
  | Some [], Some a => (a - now <=? INT_MAX) || (a <=? w_now w)
  | None, Some a => a <=? w_now w
  | _, None => false
  end.
Fixpoint wakes_ok (fs : gmap Z fdesc) (timeout : option Z) (now : Z) (ws : list wake) : Prop :=
  match ws with
  | [] => False
  | w :: ws => now <= w_now w <= INT64_MAX /\ answer_ok fs timeout now w /\
      if stops timeout now w then ws = [] else wakes_ok fs timeout (w_now w) ws
  end.
Definition clock_after (now : Z) (ws : list wake) : Z := match list.last ws with Some w => w_now w | None => now end.

(** Nothing is left to dispatch. *)
Definition idle o : bool :=
  negb (has_jobs o) && bool_decide (timers_expired_list o = []) && (epoll_results_pos o =? epoll_results_num o).
Definition due o (now : Z) : bool := match next_timeout o with Some a => a <=? now | None => false end.
Definition is_running (ts : gmap Z timer) (bt : Z) : Prop := exists t, ts !! bt = Some t /\ t_state t = TIMER_STATE_RUNNING.
Definition is_expired (ts : gmap Z timer) (bt : Z) : Prop := exists t, ts !! bt = Some t /\ t_state t = TIMER_STATE_EXPIRED.

(** The users keep to the documentation of the functions; [clock] is the last that is known of
    the clock, which never goes back. *)
Definition enabled (e : event) o (clock : Z) : Prop :=
  match e with
  | ETurn now ws => exiting o = false /\ clock <= now <= INT64_MAX /\
      if idle o && negb (due o now) then wakes_ok (fds o) (next_timeout o) now ws else ws = []
  | ESynchronize _ => exiting o = false /\ has_jobs o = true
  | EQuit _ => True
  | EJob op => match op with
      | OpInit j _ _ => known (pending_jobs o) !! j = None
      | OpFree j | OpSetHandler j _ _ | OpSet j | OpUnset j => is_Some (known (pending_jobs o) !! j)
      | OpExecute => False
      end
  | ESmallTimerInit bt | ETimerInit bt _ => ~ is_running (timers o) bt /\ ~ is_expired (timers o) bt
  | ESetTimer bt mode time now => is_Some (timers o !! bt) /\ is_int64 time /\ clock <= now <= INT64_MAX /\
      (mode = BTIMER_SET_ABSOLUTE \/ mode = BTIMER_SET_RELATIVE)
  | ESetDefault bt now => (exists t, timers o !! bt = Some t /\ is_int64 (t_msTime t)) /\ clock <= now <= INT64_MAX
  | ERemoveTimer bt => is_Some (timers o !! bt)
  | EFdInit bs _ => ~ is_active (fds o) bs
  | EAddFd bs _ => is_Some (fds o !! bs) /\ ~ is_active (fds o) bs
  | ERemoveFd bs => is_active (fds o) bs
  | ESetEvents bs events => is_active (fds o) bs /\ Z.land events (Z.lnot (Z.lor BREACTOR_READ BREACTOR_WRITE)) = 0
  | ELimitInit l lim => limits o !! l = None /\ 0 < lim
  | ELimitFree l | EIncrement l => is_Some (limits o !! l)
  | ESetLimit l lim => is_Some (limits o !! l) /\ 0 < lim
  end.
Definition tick (e : event) (clock : Z) : Z :=
  match e with
  | ETurn now ws => clock_after now ws
  | ESetTimer _ _ _ now | ESetDefault _ now => now
  | _ => clock
  end.

(** ** The invariant *)

Definition timers_ok (tr : T) (ex : list Z) (ts : gmap Z timer) (clock : Z) : Prop :=
  NoDup (ot_elements tr) /\ NoDup ex /\ (forall bt, bt ∈ ot_elements tr <-> is_running ts bt) /\ (forall bt, bt ∈ ex <-> is_expired ts bt) /\
  in_order (compare_by (abs_of ts)) (ot_elements tr) /\ (forall bt, bt ∈ ot_elements tr -> is_int64 (abs_of ts bt)) /\
  (forall bt, bt ∈ ex -> abs_of ts bt <= clock).

(** Descriptor [bs] is to be reported from entry [i]. *)
Definition points (fs : gmap Z fdesc) (bs : Z) (i : nat) : Prop :=
  exists b, fs !! bs = Some b /\ active b = true /\ epoll_returned_ptr b = Some i.
Definition results_ok (res : list epoll_event) (num pos : Z) (fs : gmap Z fdesc) : Prop :=
  Zlen res = BSYSTEM_MAX_RESULTS /\ 0 <= pos <= num /\ num <= BSYSTEM_MAX_RESULTS /\
  (forall bs i, points fs bs i <-> pos <= Z.of_nat i < num /\ exists e, res !! i = Some e /\ ev_ptr e = Some bs).
Definition fds_ok (ctr : Z) (fs : gmap Z fdesc) : Prop :=
  (exists l, NoDup l /\ (forall bs, bs ∈ l <-> is_active fs bs) /\ ctr_ok ctr (length l)) /\
  (forall bs b, fs !! bs = Some b -> Z.land (waitEvents b) (Z.lnot (Z.lor BREACTOR_READ BREACTOR_WRITE)) = 0).
Definition limits_ok (act : list Z) (ctr : Z) (ls : gmap Z limit) : Prop :=
  NoDup act /\ (forall l, l ∈ act <-> exists x, ls !! l = Some x /\ 0 < l_count x) /\
  (forall l x, ls !! l = Some x -> 0 <= l_count x) /\ ctr_ok ctr (size ls).
Definition jobs_ok (p : @pend_spec Hd Us) : Prop :=
  NoDup (stack p) /\ forall j, j ∈ stack p -> is_Some (known p !! j).

Definition inv o (clock : Z) : Prop :=
  timers_ok (timers_tree o) (timers_expired_list o) (timers o) clock /\
  results_ok (epoll_results o) (epoll_results_num o) (epoll_results_pos o) (fds o) /\
  fds_ok (d_fds_counter o) (fds o) /\ limits_ok (active_limits_list o) (d_limits_ctr o) (limits o) /\
  jobs_ok (pending_jobs o) /\ 0 <= clock <= INT64_MAX.

Inductive step : reactor T Hd Us * Z -> reactor T Hd Us * Z -> Prop :=
| step_intro e o clock b o' ks : enabled e o clock -> handle e o = Ok (b, o', ks) -> step (o, clock) (o', tick e clock).
(** From a reactor that was initialised, no object of a user being registered. *)
Definition memory_ok o : Prop := timers o = ∅ /\ fds o = ∅ /\ limits o = ∅ /\ Zlen (epoll_results o) = BSYSTEM_MAX_RESULTS.
Definition reachable o (clock : Z) : Prop := exists o0 o1 ks, memory_ok o0 /\ BReactor_Init true o0 = Ok (true, o1, ks) /\ star step (o1, 0) (o, clock).
End steps.

Section proofs.
Context {T : Type} `{OrdTreeOk T} {Hd Us : Type}.
Implicit Types (o : reactor T Hd Us) (ts : gmap Z timer) (fs : gmap Z fdesc).

(** * Timers *)

Lemma get_timer_eq bt t o : timers o !! bt = Some t -> get_timer bt o = Ok (t, o, []).
Proof. intros Ht; unfold get_timer; rewrite Ht; done. Qed.
Lemma mod_timer_eq bt t f o : timers o !! bt = Some t -> mod_timer bt f o = Ok (tt, o <| timers ::= <[bt := f t]> |>, []).
Proof. intros Ht; unfold mod_timer; pstep_by ltac:(apply get_timer_eq, Ht); done. Qed.
Ltac timer_step Ht := pstep_by ltac:(apply get_timer_eq; exact Ht).

Lemma abs_of_insert ts bt t x : abs_of (<[bt := t]> ts) x = if decide (bt = x) then t_absTime t else abs_of ts x.
Proof. unfold abs_of; destruct (decide (bt = x)) as [->|Hn]; [rewrite lookup_insert_eq | rewrite lookup_insert_ne]; done. Qed.
Lemma abs_of_eq ts bt t : ts !! bt = Some t -> abs_of ts bt = t_absTime t.
Proof. unfold abs_of; intros ->; done. Qed.
Lemma in_state_true t s : t_state t = s -> in_state (t_state t) s = true.
Proof. intros ->; unfold in_state; apply bool_decide_eq_true_2; done. Qed.
Lemma in_state_false a s : a <> s -> in_state a s = false.
Proof. intros Hn; unfold in_state; apply bool_decide_eq_false_2; done. Qed.

(** One timer changes its state, and the tree and the list with it. *)
Lemma timers_change tr ex ts clock bt t tr' ex' : timers_ok tr ex ts clock ->
  NoDup (ot_elements tr') -> NoDup ex' ->
  (forall x, x <> bt -> (x ∈ ot_elements tr' <-> x ∈ ot_elements tr)) -> (forall x, x <> bt -> (x ∈ ex' <-> x ∈ ex)) ->
  (bt ∈ ot_elements tr' <-> t_state t = TIMER_STATE_RUNNING) -> (bt ∈ ex' <-> t_state t = TIMER_STATE_EXPIRED) ->
  (t_state t = TIMER_STATE_RUNNING -> is_int64 (t_absTime t)) -> (t_state t = TIMER_STATE_EXPIRED -> t_absTime t <= clock) ->
  in_order (compare_by (abs_of (<[bt := t]> ts))) (ot_elements tr') ->
  timers_ok tr' ex' (<[bt := t]> ts) clock.
Proof.
  intros (_ & _ & Hrun & Hexp & _ & Hint & Hcl) Hnd Hnd' Htr Hex Hbt Hbt' Hi Hc Ho.
  assert (forall x s, (exists y, <[bt := t]> ts !! x = Some y /\ t_state y = s) <-> if decide (bt = x) then t_state t = s else exists y, ts !! x = Some y /\ t_state y = s) as Hs.
  { intros x s; destruct (decide (bt = x)) as [->|Hn]; [rewrite lookup_insert_eq; naive_solver | rewrite lookup_insert_ne by done; done]. }
  split; [exact Hnd|]; split; [exact Hnd'|]; split; [|split; [|split; [exact Ho|split]]].
  - intros x; unfold is_running; rewrite Hs; destruct (decide (bt = x)) as [<-|Hn]; [exact Hbt | rewrite Htr by done; apply Hrun].
  - intros x; unfold is_expired; rewrite Hs; destruct (decide (bt = x)) as [<-|Hn]; [exact Hbt' | rewrite Hex by done; apply Hexp].
  - intros x Hx; rewrite abs_of_insert; destruct (decide (bt = x)) as [<-|Hn]; [apply Hi, Hbt, Hx | apply Hint, Htr; done].
  - intros x Hx; rewrite abs_of_insert; destruct (decide (bt = x)) as [<-|Hn]; [apply Hc, Hbt', Hx | apply Hcl, Hex; done].
Qed.

(** The order of the tree does not depend on the other timers. *)
Lemma order_but ts bt t l : bt ∉ l -> in_order (compare_by (abs_of ts)) l -> in_order (compare_by (abs_of (<[bt := t]> ts))) l.
Proof.
  intros Hbt; apply (compare_by_shift (abs_of ts) (abs_of (<[bt := t]> ts)) 0); intros y Hy; rewrite abs_of_insert.
  destruct (decide (bt = y)) as [->|]; [done | lia].
Qed.
Lemma NoDup_snoc (x : Z) l : NoDup l -> x ∉ l -> NoDup (l ++ [x]).
Proof. intros Hl Hx; rewrite Permutation_app_comm; cbn; constructor; done. Qed.

Lemma timers_inactive tr ex ts clock bt t : timers_ok tr ex ts clock -> t_state t = TIMER_STATE_INACTIVE ->
  timers_ok (ot_remove bt tr) (remove_node bt ex) (<[bt := t]> ts) clock.
Proof.
  intros Hok Ht; pose proof Hok as (Hn1 & Hn2 & Hrun & Hexp & Ho & Hint & Hcl); eapply timers_change; [exact Hok | ..]; rewrite ?Ht; try done.
  - rewrite ot_remove_elements; apply remove_node_NoDup, Hn1.
  - apply remove_node_NoDup, Hn2.
  - intros x Hx; rewrite ot_remove_elements, remove_node_elem; tauto.
  - intros x Hx; rewrite remove_node_elem; tauto.
  - rewrite ot_remove_elements, remove_node_elem; naive_solver.
  - rewrite remove_node_elem; naive_solver.
  - rewrite ot_remove_elements; apply order_but; [rewrite remove_node_elem; tauto | apply in_order_remove, Ho].
Qed.
(** Taking a timer away from where it is not changes nothing. *)
Lemma not_in_tree tr ex ts clock bt t : timers_ok tr ex ts clock -> ts !! bt = Some t -> t_state t <> TIMER_STATE_RUNNING -> bt ∉ ot_elements tr.
Proof. intros (_ & _ & Hrun & _) Ht Hs Hin; apply Hrun in Hin as (t' & Ht' & Hs'); congruence. Qed.
Lemma not_in_expired tr ex ts clock bt t : timers_ok tr ex ts clock -> ts !! bt = Some t -> t_state t <> TIMER_STATE_EXPIRED -> bt ∉ ex.
Proof. intros (_ & _ & _ & Hexp & _) Ht Hs Hin; apply Hexp in Hin as (t' & Ht' & Hs'); congruence. Qed.

Lemma timers_expire tr ex ts clock bt l t : timers_ok tr ex ts clock -> ot_elements tr = bt :: l -> ts !! bt = Some t -> t_absTime t <= clock ->
  ot_elements (ot_remove bt tr) = l /\ timers_ok (ot_remove bt tr) (ex ++ [bt]) (<[bt := t <| t_state := TIMER_STATE_EXPIRED |>]> ts) clock.
Proof.
  intros Hok He Ht Hle; pose proof Hok as (Hn1 & Hn2 & Hrun & Hexp & Ho & Hint & Hcl); rewrite He in *.
  apply NoDup_cons in Hn1 as [Hbl Hnl].
  assert (ot_elements (ot_remove bt tr) = l) as Hl by (rewrite ot_remove_elements, He; apply remove_node_cons, Hbl).
  assert (bt ∉ ex) as Hbx.
  { intros Hx; apply Hexp in Hx as (t1 & H1 & H1'); destruct (proj1 (Hrun bt) ltac:(left)) as (t2 & H2 & H2'); congruence. }
  split; [exact Hl|]; eapply timers_change; [exact Hok | ..]; rewrite ?Hl, ?He; try done.
  - apply NoDup_snoc; done.
  - intros x Hx; rewrite elem_of_cons; naive_solver.
  - intros x Hx; rewrite elem_of_app, list_elem_of_singleton; naive_solver.
  - rewrite elem_of_app, list_elem_of_singleton; naive_solver.
  - apply order_but; [exact Hbl|]; inversion Ho; done.
Qed.

Lemma timers_set tr ex ts clock bt t : timers_ok tr ex ts clock -> bt ∉ ot_elements tr -> bt ∉ ex ->
  t_state t = TIMER_STATE_RUNNING -> is_int64 (t_absTime t) -> exists tr',
  ot_insert (compare_by (abs_of (<[bt := t]> ts))) bt tr = (tr', true) /\ ot_elements tr' ≡ₚ bt :: ot_elements tr /\
  timers_ok tr' ex (<[bt := t]> ts) clock.
Proof.
  intros Hok Hb1 Hb2 Ht Hi; pose proof Hok as (Hn1 & Hn2 & Hrun & Hexp & Ho & Hint & Hcl).
  set (ts' := <[bt := t]> ts); assert (in_order (compare_by (abs_of ts')) (ot_elements tr)) as Ho' by (apply order_but; done).
  destruct (ot_insert_new (compare_by (abs_of ts')) bt tr) as (tr' & Hins & Hp & Hord); [| | exact Ho' | |].
  - intros a b; apply compare_by_three_way.
  - apply compare_by_order.
  - intros y Hy Hz; apply compare_by_eq in Hz; congruence.
  - exists tr'; split; [exact Hins|]; split; [exact Hp|]; eapply timers_change; [exact Hok | ..]; rewrite ?Ht, ?Hp; try done.
    + constructor; done.
    + intros x Hx; rewrite Hp, elem_of_cons; naive_solver.
    + split; [done | left].
Qed.

(** The tree, the list and the timers of a reactor. *)
Definition with_timers (tr : T) (ex : list Z) ts o : reactor T Hd Us :=
  mk_reactor (exiting o) (exit_code o) (pending_jobs o) tr ex (active_limits_list o) (epoll_results o) (epoll_results_num o)
    (epoll_results_pos o) (d_fds_counter o) (d_limits_ctr o) ts (fds o) (limits o).
Lemma expire_eq bt t o : timers o !! bt = Some t -> expire bt o =
  Ok (tt, with_timers (ot_remove bt (timers_tree o)) (timers_expired_list o ++ [bt]) (<[bt := t <| t_state := TIMER_STATE_EXPIRED |>]> (timers o)) o, []).
Proof. intros Ht; destruct o; unfold expire; pstep; pstep; etransitivity; [eapply mod_timer_eq; exact Ht | done]. Qed.

(** The timers of [l], the first of the tree, have expired. *)
Definition expired_from o (l : list Z) o' : Prop := exists tr' ts',
  o' = with_timers tr' (timers_expired_list o ++ l) ts' o /\ ot_elements (timers_tree o) = l ++ ot_elements tr' /\
  (forall x, abs_of ts' x = abs_of (timers o) x).

Lemma expire_ok o clock bt l : timers_ok (timers_tree o) (timers_expired_list o) (timers o) clock ->
  ot_elements (timers_tree o) = bt :: l -> abs_of (timers o) bt <= clock -> exists t o1,
  timers o !! bt = Some t /\ t_state t = TIMER_STATE_RUNNING /\ expire bt o = Ok (tt, o1, []) /\ expired_from o [bt] o1 /\
  ot_elements (timers_tree o1) = l /\ timers_ok (timers_tree o1) (timers_expired_list o1) (timers o1) clock.
Proof.
  intros Hok He Hle; pose proof Hok as (_ & _ & Hrun & _); destruct (proj1 (Hrun bt)) as (t & Ht & Hs); [rewrite He; left|].
  rewrite (abs_of_eq _ _ _ Ht) in Hle; destruct (timers_expire _ _ _ clock bt l t Hok He Ht Hle) as [Hl Hok'].
  exists t; eexists; split; [exact Ht|]; split; [exact Hs|]; split; [apply expire_eq, Ht|]; split; [|split; [exact Hl | exact Hok']].
  eexists _, _; split; [reflexivity|]; rewrite Hl; split; [exact He|]; intros x; rewrite abs_of_insert.
  destruct (decide (bt = x)) as [<-|]; [rewrite (abs_of_eq _ _ _ Ht) |]; done.
Qed.
Lemma expired_from_trans o l o1 l' o2 : expired_from o l o1 -> expired_from o1 l' o2 -> expired_from o (l ++ l') o2.
Proof.
  intros (tr1 & ts1 & -> & He1 & Ha1) (tr2 & ts2 & -> & He2 & Ha2); exists tr2, ts2; cbn [timers_tree timers_expired_list timers with_timers] in *.
  rewrite He1, He2, <- !app_assoc; split; [done|]; split; [done|]; intros x; rewrite Ha2; apply Ha1.
Qed.
Lemma expired_from_nil o : expired_from o [] o.
Proof. exists (timers_tree o), (timers o); rewrite app_nil_r; destruct o; done. Qed.

Lemma move_until_ok fuel chk now clock moved o : timers_ok (timers_tree o) (timers_expired_list o) (timers o) clock -> now <= clock ->
  (forall bt, bt ∈ ot_elements (timers_tree o) -> chk (abs_of (timers o) bt) = true) ->
  (length (ot_elements (timers_tree o)) < fuel)%nat -> exists l o',
  move_until fuel chk now moved o = Ok (moved || bool_decide (l <> []), o', []) /\ expired_from o l o' /\
  timers_ok (timers_tree o') (timers_expired_list o') (timers o') clock /\
  (forall x, x ∈ l -> abs_of (timers o) x <= now) /\ (forall x, x ∈ ot_elements (timers_tree o') -> now < abs_of (timers o') x).
Proof.
  revert moved o; induction fuel as [|fuel IH]; intros moved o Hok Hnow Hchk Hf; [lia|].
  cbn [move_until]; assert (forall A (k : reactor T Hd Us -> rp A), (o ← pget; k o) o = k o o) as Hget by (intros; pstep; done); rewrite Hget, ot_first_head.
  destruct (ot_elements (timers_tree o)) as [|bt rest] eqn:He; cbn [head].
  { exists [], o; split; [rewrite (bool_decide_eq_false_2 ([] <> [])) by (intros Hne; apply Hne; done); rewrite orb_false_r; done|]; split; [apply expired_from_nil|]; split; [exact Hok|].
    rewrite He; split; intros x Hx; inversion Hx. }
  pose proof Hok as (_ & _ & Hrun & _ & Ho & _); destruct (proj1 (Hrun bt)) as (t & Ht & Hs); [rewrite He; left|].
  assert (chk (t_absTime t) = true) as Hct by (rewrite <- (abs_of_eq _ _ _ Ht); apply Hchk; left).
  rewrite He in Ho; destruct (Z.ltb_spec now (t_absTime t)) as [Hlt|Hge].
  - exists [], o; split; [|split; [apply expired_from_nil|split; [exact Hok|split; [intros x Hx; inversion Hx|]]]].
    + timer_step Ht; pstep_by ltac:(apply passert_ok, in_state_true, Hs); pstep_by ltac:(apply passert_ok, Hct).
      rewrite (proj2 (Z.ltb_lt _ _) Hlt), (bool_decide_eq_false_2 ([] <> [])) by (intros Hne; apply Hne; done); rewrite orb_false_r; done.
    + rewrite He; intros x Hx; pose proof (compare_by_least _ _ _ x Ho Hx) as Hle; rewrite (abs_of_eq _ _ _ Ht) in Hle; lia.
  - destruct (expire_ok o clock bt rest Hok He) as (t' & o1 & Ht' & _ & Hexp & Hfrom & He1 & Hok1); [rewrite (abs_of_eq _ _ _ Ht); lia|].
    pose proof Hfrom as (tr1 & ts1 & Eo1 & _ & Ha1).
    assert (forall x, abs_of (timers o1) x = abs_of (timers o) x) as Ha by (rewrite Eo1; exact Ha1).
    destruct (IH true o1 Hok1 Hnow) as (l & o' & Hm & Hfrom' & Hok' & Hl1 & Hl2); [|rewrite He1; cbn in Hf; lia|].
    { intros x Hx; rewrite Ha; apply Hchk; rewrite He1 in Hx; right; exact Hx. }
    exists (bt :: l), o'; split; [|split; [exact (expired_from_trans _ _ _ _ _ Hfrom Hfrom')|split; [exact Hok'|split; [|exact Hl2]]]].
    + timer_step Ht; pstep_by ltac:(apply passert_ok, in_state_true, Hs); pstep_by ltac:(apply passert_ok, Hct).
      rewrite (proj2 (Z.ltb_ge _ _) Hge); pstep_by ltac:(exact Hexp); rewrite Hm, (bool_decide_eq_true_2 (bt :: l <> [])), orb_true_r by done; done.
    + intros x Hx; apply elem_of_cons in Hx as [->|Hx]; [rewrite (abs_of_eq _ _ _ Ht); exact Hge | rewrite <- Ha; apply Hl1, Hx].
Qed.

Lemma timers_later tr ex ts clock clock' : timers_ok tr ex ts clock -> clock <= clock' -> timers_ok tr ex ts clock'.
Proof. intros (H1 & H2 & H3 & H4 & H5 & H6 & H7) Hle; split_and!; try done; intros bt Hb; specialize (H7 bt Hb); lia. Qed.
Lemma first_running o clock bt : timers_ok (timers_tree o) (timers_expired_list o) (timers o) clock -> ot_first (timers_tree o) = Some bt ->
  exists t l, timers o !! bt = Some t /\ t_state t = TIMER_STATE_RUNNING /\ ot_elements (timers_tree o) = bt :: l /\
    next_timeout o = Some (t_absTime t) /\ is_int64 (t_absTime t) /\ (forall x, x ∈ bt :: l -> t_absTime t <= abs_of (timers o) x).
Proof.
  intros (_ & _ & Hrun & _ & Ho & Hint & _) Hf; unfold next_timeout; rewrite Hf; rewrite ot_first_head in Hf.
  destruct (ot_elements (timers_tree o)) as [|bt' l] eqn:He; [done|]; injection Hf as ->.
  destruct (proj1 (Hrun bt)) as (t & Ht & Hs); [left|]; exists t, l; split; [exact Ht|]; split; [exact Hs|]; split; [done|].
  cbn; rewrite (abs_of_eq _ _ _ Ht); split; [done|]; split; [rewrite <- (abs_of_eq _ _ _ Ht); apply Hint; left|].
  intros x Hx; rewrite <- (abs_of_eq _ _ _ Ht); apply (compare_by_least _ _ _ x Ho Hx).
Qed.

Lemma move_expired_ok now clock o : timers_ok (timers_tree o) (timers_expired_list o) (timers o) clock -> now <= clock -> exists l o',
  move_expired_timers now o = Ok (bool_decide (l <> []), o', []) /\ expired_from o l o' /\
  timers_ok (timers_tree o') (timers_expired_list o') (timers o') clock /\
  (forall x, x ∈ l -> abs_of (timers o) x <= now) /\ (forall x, x ∈ ot_elements (timers_tree o') -> now < abs_of (timers o') x).
Proof.
  intros Hok Hle; destruct (move_until_ok (tree_fuel o) (fun _ => true) now clock false o Hok Hle) as (l & o' & Hm & Hrest); [done | unfold tree_fuel; lia|].
  exists l, o'; split; [unfold move_expired_timers; pstep; exact Hm | exact Hrest].
Qed.
Lemma move_first_ok clock a o : timers_ok (timers_tree o) (timers_expired_list o) (timers o) clock -> next_timeout o = Some a -> a <= clock -> exists l o',
  move_first_timers o = Ok (tt, o', []) /\ l <> [] /\ expired_from o l o' /\
  timers_ok (timers_tree o') (timers_expired_list o') (timers o') clock /\
  (forall x, x ∈ l -> abs_of (timers o) x <= a) /\ (forall x, x ∈ ot_elements (timers_tree o') -> a < abs_of (timers o') x).
Proof.
  intros Hok Hn Hle; destruct (ot_first (timers_tree o)) as [bt|] eqn:Hf; [|unfold next_timeout in Hn; rewrite Hf in Hn; done].
  destruct (first_running o clock bt Hok Hf) as (t & l0 & Ht & Hs & He & Hn' & _ & Hleast); rewrite Hn in Hn'; injection Hn' as ->.
  destruct (expire_ok o clock bt l0 Hok He) as (_ & o1 & _ & _ & Hexp & Hfrom & He1 & Hok1); [rewrite (abs_of_eq _ _ _ Ht); lia|].
  pose proof Hfrom as (tr1 & ts1 & Eo1 & _ & Ha1).
  assert (forall x, abs_of (timers o1) x = abs_of (timers o) x) as Ha by (rewrite Eo1; exact Ha1).
  destruct (move_until_ok (tree_fuel o1) (fun x => t_absTime t <=? x) (t_absTime t) clock true o1 Hok1 Hle) as (l & o' & Hm & Hfrom' & Hok' & Hl1 & Hl2);
    [|unfold tree_fuel; lia|].
  { intros x Hx; rewrite Ha; apply Z.leb_le, Hleast; rewrite He1 in Hx; right; exact Hx. }
  exists (bt :: l), o'; split; [|split; [done|split; [exact (expired_from_trans _ _ _ _ _ Hfrom Hfrom')|split; [exact Hok'|split; [|exact Hl2]]]]].
  - unfold move_first_timers; pstep; rewrite Hf; timer_step Ht; pstep_by ltac:(apply passert_ok, in_state_true, Hs).
    pstep_by ltac:(exact Hexp); pstep; pstep_by ltac:(exact Hm); done.
  - intros x Hx; apply elem_of_cons in Hx as [->|Hx]; [rewrite (abs_of_eq _ _ _ Ht); lia | rewrite <- Ha; apply Hl1, Hx].
Qed.

(** * File descriptors *)

Lemma get_fd_eq bs b o : fds o !! bs = Some b -> get_fd bs o = Ok (b, o, []).
Proof. intros Hb; unfold get_fd; rewrite Hb; done. Qed.
Lemma mod_fd_eq bs b f o : fds o !! bs = Some b -> mod_fd bs f o = Ok (tt, o <| fds ::= <[bs := f b]> |>, []).
Proof. intros Hb; unfold mod_fd; pstep_by ltac:(apply get_fd_eq, Hb); done. Qed.
Ltac fd_step Hb := pstep_by ltac:(apply get_fd_eq; exact Hb).
Ltac fd_mod Hb := pstep_by ltac:(eapply mod_fd_eq; exact Hb).

Definition with_results (res : list epoll_event) (num pos : Z) fs o : reactor T Hd Us :=
  mk_reactor (exiting o) (exit_code o) (pending_jobs o) (timers_tree o) (timers_expired_list o) (active_limits_list o) res num
    pos (d_fds_counter o) (d_limits_ctr o) (timers o) fs (limits o).

(** The descriptors [l] are reported from the entries from [i] on. *)
Fixpoint mark (i : nat) (l : list Z) fs : gmap Z fdesc :=
  match l with [] => fs | bs :: l => mark (S i) l (alter (fun b => b <| epoll_returned_ptr := Some i |>) bs fs) end.
Lemma mark_lookup i l fs bs : NoDup l -> mark i l fs !! bs =
  match list_find (fun x => x = bs) l with Some (k, _) => (fun b => b <| epoll_returned_ptr := Some (i + k)%nat |>) <$> fs !! bs | None => fs !! bs end.
Proof.
  revert i fs; induction l as [|x l IH]; intros i fs Hnd; [done|]; apply NoDup_cons in Hnd as [Hx Hnd]; cbn [mark list_find].
  rewrite IH by done; destruct (decide (x = bs)) as [->|Hn].
  - rewrite lookup_alter_eq; destruct (list_find (fun x => x = bs) l) as [[k y]|] eqn:Hf.
    + apply list_find_Some in Hf as (Hk & -> & _); apply list_elem_of_lookup_2 in Hk; done.
    + rewrite Nat.add_0_r; done.
  - rewrite lookup_alter_ne by done; destruct (list_find (fun x => x = bs) l) as [[k y]|]; [|done]; cbn [prod_map fmap option_fmap option_map].
    f_equal; done || (replace (S i + k)%nat with (i + S k)%nat by lia; done).
Qed.
Lemma mark_active i l fs bs : NoDup l -> (is_active (mark i l fs) bs <-> is_active fs bs).
Proof.
  intros Hnd; unfold is_active; rewrite mark_lookup by done; destruct (list_find _ l) as [[k y]|]; [|done].
  destruct (fs !! bs) as [b|]; cbn; [|done]; split; intros (b' & Hb & Ha); injection Hb as <-; eexists; split; [reflexivity| |reflexivity|]; exact Ha.
Qed.
Lemma mark_events i l fs bs b : NoDup l -> mark i l fs !! bs = Some b -> exists b', fs !! bs = Some b' /\ waitEvents b = waitEvents b'.
Proof.
  intros Hnd; rewrite mark_lookup by done; destruct (list_find _ l) as [[k y]|]; [|eauto].
  destruct (fs !! bs) as [b'|]; [|done]; intros [= <-]; eauto.
Qed.
Lemma mark_points i l fs bs j : NoDup l -> (forall bs i, ~ points fs bs i) -> (forall bs, bs ∈ l -> is_active fs bs) ->
  (points (mark i l fs) bs j <-> exists k, l !! k = Some bs /\ j = (i + k)%nat).
Proof.
  intros Hnd Hno Hact; unfold points; rewrite mark_lookup by done; destruct (list_find (fun x => x = bs) l) as [[k y]|] eqn:Hf.
  - apply list_find_Some in Hf as (Hk & -> & _); destruct (Hact bs) as (b & Hb & Ha); [apply list_elem_of_lookup_2 in Hk; done|]; rewrite Hb; cbn; split.
    + intros (b' & [= <-] & _ & [= <-]); eauto.
    + intros (k' & Hk' & ->); eexists; split; [reflexivity|]; split; [exact Ha|]; rewrite (NoDup_lookup _ _ _ _ Hnd Hk' Hk); done.
  - split; [intros Hp; destruct (Hno bs j Hp)|]; intros (k & Hk & _); apply list_find_None in Hf; rewrite Forall_forall in Hf.
    destruct (Hf bs); [apply list_elem_of_lookup_2 in Hk; exact Hk | done].
Qed.

Lemma set_fd_pointers_eq i l o : NoDup l -> (forall bs, bs ∈ l -> exists b, fds o !! bs = Some b /\ active b = true /\ epoll_returned_ptr b = None) ->
  (forall k bs, l !! k = Some bs -> exists e, epoll_results o !! (i + k)%nat = Some e /\ ev_ptr e = Some bs) ->
  set_fd_pointers i (length l) o = Ok (tt, with_results (epoll_results o) (epoll_results_num o) (epoll_results_pos o) (mark i l (fds o)) o, []).
Proof.
  revert i o; induction l as [|bs l IH]; intros i o Hnd Hl Hres; [destruct o; done|]; apply NoDup_cons in Hnd as [Hx Hnd]; cbn [length set_fd_pointers mark].
  destruct (Hres 0%nat bs eq_refl) as (e & He & Hp); rewrite Nat.add_0_r in He; destruct (Hl bs) as (b & Hb & Ha & Hn); [left|].
  pstep_by ltac:(unfold get_result; rewrite He; reflexivity); rewrite Hp; fd_step Hb; rewrite Ha, Hn; pstep; pstep; fd_mod Hb.
  etransitivity; [apply IH|].
  - exact Hnd.
  - intros x Hxl; destruct (Hl x) as (b' & Hb' & Hb''); [right; exact Hxl|]; exists b'; split; [|exact Hb''].
    change (<[bs := b <| epoll_returned_ptr := Some i |>]> (fds o) !! x = Some b'); rewrite lookup_insert_ne; [exact Hb' | congruence].
  - intros k x Hk; destruct (Hres (S k) x Hk) as (e' & He' & Hp'); exists e'; split; [|exact Hp'].
    change (epoll_results o !! (S i + k)%nat = Some e'); rewrite <- He'; f_equal; lia.
  - assert (<[bs := b <| epoll_returned_ptr := Some i |>]> (fds o) = alter (fun b => b <| epoll_returned_ptr := Some i |>) bs (fds o)) as <-.
    { apply map_eq; intros x; destruct (decide (bs = x)) as [<-|Hne]; [rewrite lookup_insert_eq, lookup_alter_eq, Hb | rewrite lookup_insert_ne, lookup_alter_ne by done]; done. }
    destruct o; done.
Qed.

(** * Waiting *)

(** Events [evs] of the descriptors [l] have come. *)
Definition got_events o (evs : list epoll_event) (l : list Z) o' : Prop :=
  evs <> [] /\ map ev_ptr evs = map Some l /\ NoDup l /\ (forall bs, bs ∈ l -> is_active (fds o) bs) /\
  o' = with_results (evs ++ drop (length evs) (epoll_results o)) (Zlen evs) 0 (mark 0 l (fds o)) o.
(** How a wait ends: with events, or with timers that are due. *)
Definition woken o (clock : Z) (w : wake) o' : Prop :=
  (exists evs l, w_events w = Some evs /\ got_events o evs l o') \/
  (exists l, l <> [] /\ expired_from o l o' /\ timers_ok (timers_tree o') (timers_expired_list o') (timers o') clock /\
     (forall x, x ∈ l -> abs_of (timers o) x <= clock)).

Lemma store_eq o evs l : Zlen evs <= BSYSTEM_MAX_RESULTS -> evs <> [] -> map ev_ptr evs = map Some l -> NoDup l ->
  (forall bs, bs ∈ l -> is_active (fds o) bs) -> (forall bs i, ~ points (fds o) bs i) -> epoll_results_pos o = 0 -> exists o',
  (store_results evs;; set_epoll_fd_pointers) o = Ok (tt, o', []) /\ got_events o evs l o'.
Proof.
  intros HL Hne Hm Hnd Hact Hno Hpos; eexists; split; [|split; [exact Hne|split; [exact Hm|split; [exact Hnd|split; [exact Hact | reflexivity]]]]].
  unfold store_results; pstep; unfold set_epoll_fd_pointers; pstep.
  assert (length evs = length l) as Hlen by (rewrite <- (length_map ev_ptr), Hm, length_map; done).
  change (epoll_results_num (update epoll_results_num _ _)) with (Zlen evs); unfold Zlen at 1; rewrite Nat2Z.id, Hlen.
  etransitivity; [apply set_fd_pointers_eq|].
  - exact Hnd.
  - intros bs Hbs; destruct (Hact bs Hbs) as (b & Hb & Ha); exists b; split; [exact Hb|]; split; [exact Ha|].
    destruct (epoll_returned_ptr b) as [i|] eqn:Hp; [|done]; destruct (Hno bs i); exists b; done.
  - intros k bs Hk; change (exists e, (evs ++ drop (length l) (epoll_results o)) !! k = Some e /\ ev_ptr e = Some bs).
    assert (map ev_ptr evs !! k = Some (Some bs)) as Hme by (rewrite Hm; rewrite list_lookup_fmap, Hk; done).
    rewrite list_lookup_fmap in Hme; destruct (evs !! k) as [e|] eqn:He; [|done]; injection Hme as Hp; exists e; split; [|exact Hp].
    apply lookup_app_l_Some, He.
  - destruct o; cbn in Hpos; subst; do 3 f_equal; unfold with_results; cbn; rewrite Hlen; done.
Qed.

Lemma is_int64_sub a now : is_int64 a -> 0 <= now < a -> int64_result (a - now) = Ok (a - now).
Proof. unfold is_int64, int64_result, INT64_MIN, INT64_MAX; intros; decide_tests; done. Qed.

(** What epoll_wait is called with. *)
Definition wait_for (timeout : option Z) (now : Z) : Z :=
  match timeout with Some a => Z.min (a - now) INT_MAX | None => -1 end.
Definition timeouts_ok (timeout : option Z) (ks : list (@rcall Hd Us)) : Prop :=
  Forall (fun k => exists t, k = EpollWait t /\ match timeout with Some _ => 0 <= t <= INT_MAX | None => t = -1 end) ks.
(** The timeout is ahead, and the clock the loop knows is right when there is one. *)
Definition ahead (timeout : option Z) (now n : Z) : Prop := forall a, timeout = Some a -> n = now /\ now < a /\ is_int64 a.
Lemma wait_for_ok timeout now n ks : ahead timeout now n -> timeouts_ok timeout ks -> timeouts_ok timeout (EpollWait (wait_for timeout now) :: ks).
Proof.
  intros Ha; constructor; [|done]; eexists; split; [done|]; destruct timeout as [a|]; [|done].
  destruct (Ha a eq_refl) as (_ & Hlt & _); cbn; unfold INT_MAX; lia.
Qed.

Lemma pbind_same {S C A B} (p : prog S C A) (k k' : A -> prog S C B) s :
  (forall a s1 c, p s = Ok (a, s1, c) -> k a s1 = k' a s1) -> (p ≫= k) s = (p ≫= k') s.
Proof. intros Hk; unfold mbind, prog_bind; destruct (p s) as [[[a s1] c]|]; [rewrite (Hk a s1 c) by done|]; done. Qed.
Lemma wait_loop_step timeout now n w ws o : ahead timeout now n -> 0 <= now -> answer_ok (fds o) timeout now w ->
  wait_loop timeout n (w :: ws) o = (pcall (EpollWait (wait_for timeout now));;
    match w_events w with
    | Some (e :: evs) => store_results (e :: evs);; set_epoll_fd_pointers
    | Some [] => match timeout with
        | Some a => if Z.min (a - now) INT_MAX =? a - now then move_first_timers else if a <=? w_now w then move_first_timers else wait_loop timeout (w_now w) ws
        | None => pskip
        end
    | None => match timeout with
        | Some a => if a <=? w_now w then move_first_timers else wait_loop timeout (w_now w) ws
        | None => wait_loop timeout n ws
        end
    end) o.
Proof.
  intros Ha Hn Hans; cbn [wait_loop]; unfold answer_ok in Hans.
  assert (forall A (k : Z -> rp A), (x ← match timeout with Some a => plift (int64_result (a - n)) | None => mret 0 end; k x) o =
    k (match timeout with Some a => a - now | None => 0 end) o) as ->.
  { intros A k; destruct timeout as [a|]; [|pstep; done]; destruct (Ha a eq_refl) as (-> & Hlt & Hi).
    pstep_by ltac:(unfold plift; rewrite is_int64_sub by (auto || lia); reflexivity); done. }
  cbv zeta; replace (match timeout with Some _ => match timeout with Some _ => Z.min _ INT_MAX | None => 0 end | None => -1 end)
    with (wait_for timeout now) by (destruct timeout; done).
  apply pbind_same; intros [] s1 c [= <- _]; destruct (w_events w) as [[|e evs]|].
  - destruct Hans as (a & -> & _); pstep_by ltac:(apply passert_ok, bool_decide_eq_true_2; done); pstep; done.
  - destruct Hans as (HL & _); assert (negb (Zlen (e :: evs) =? 0) = true) as -> by (rewrite Zlen_cons; pose proof (Zlen_nonneg evs); lia).
    pstep; pstep_by ltac:(apply passert_ok; lia); done.
  - destruct timeout as [a|]; done.
Qed.

Lemma wait_again timeout now n w ws o : ahead timeout now n -> 0 <= now -> answer_ok (fds o) timeout now w -> stops timeout now w = false ->
  wait_loop timeout n (w :: ws) o = (pcall (EpollWait (wait_for timeout now));; wait_loop timeout (match timeout with Some _ => w_now w | None => n end) ws) o /\
  (forall a, timeout = Some a -> w_now w < a).
Proof.
  intros Ha Hn Hans Hst; rewrite (wait_loop_step _ _ _ _ _ _ Ha Hn Hans); unfold answer_ok, stops in *.
  destruct (w_events w) as [[|e evs]|]; [|done|]; destruct timeout as [a|]; try done.
  - apply orb_false_iff in Hst as [H1 H2]; rewrite H2; assert ((Z.min (a - now) INT_MAX =? a - now) = false) as -> by lia.
    split; [done|]; intros ? [= <-]; lia.
  - destruct Hans as (a & Hx & _); done.
  - rewrite Hst; split; [done|]; intros ? [= <-]; lia.
Qed.
Lemma wait_stop timeout now n w ws o : ahead timeout now n -> 0 <= now -> answer_ok (fds o) timeout now w -> stops timeout now w = true ->
  (exists e evs, w_events w = Some (e :: evs) /\
     wait_loop timeout n (w :: ws) o = (pcall (EpollWait (wait_for timeout now));; store_results (e :: evs);; set_epoll_fd_pointers) o) \/
  (exists a, timeout = Some a /\ a <= w_now w /\
     wait_loop timeout n (w :: ws) o = (pcall (EpollWait (wait_for timeout now));; move_first_timers) o).
Proof.
  intros Ha Hn Hans Hst; rewrite (wait_loop_step _ _ _ _ _ _ Ha Hn Hans); unfold answer_ok, stops in *.
  destruct (w_events w) as [[|e evs]|]; [|left; eauto|]; destruct timeout as [a|]; try done; right; exists a; (split; [done|]).
  - destruct Hans as (a' & [= <-] & Hw); destruct (Z.eqb_spec (Z.min (a - now) INT_MAX) (a - now)); [split; [lia | done]|].
    assert ((a <=? w_now w) = true) as -> by lia; split; [lia | done].
  - rewrite Hst; split; [lia | done].
Qed.

Lemma wait_loop_ok timeout now n ws o clock : timers_ok (timers_tree o) (timers_expired_list o) (timers o) clock -> clock <= now ->
  next_timeout o = timeout -> ahead timeout now n -> 0 <= now -> (forall bs i, ~ points (fds o) bs i) ->
  epoll_results_pos o = 0 -> wakes_ok (fds o) timeout now ws ->
  exists w o' ks, list.last ws = Some w /\ wait_loop timeout n ws o = Ok (tt, o', ks) /\ now <= w_now w <= INT64_MAX /\
    length ks = length ws /\ timeouts_ok timeout ks /\ woken o (w_now w) w o'.
Proof.
  intros Hok Hcl Hnext Hto Hn0 Hno Hpos; revert now n Hcl Hto Hn0; induction ws as [|w ws IH]; intros now n Hcl Hto Hn0 Hws; [done|].
  destruct Hws as (Hw & Hans & Hrest).
  assert (forall (p : rp unit) o' ks, p o = Ok (tt, o', ks) -> (pcall (EpollWait (wait_for timeout now));; p) o = Ok (tt, o', EpollWait (wait_for timeout now) :: ks)) as Hcall.
  { intros p o' ks Hp; exact (pbind_calls _ _ _ _ _ _ _ _ _ eq_refl Hp). }
  destruct (stops timeout now w) eqn:Hst.
  - subst ws; exists w; destruct (wait_stop _ _ _ _ [] o Hto Hn0 Hans Hst) as [(e & evs & Hev & Hl)|(a & Ha & Hle & Hl)].
    + unfold answer_ok in Hans; rewrite Hev in Hans; destruct Hans as (HL & l & Hm & Hnd & Hact).
      destruct (store_eq o (e :: evs) l HL ltac:(done) Hm Hnd Hact Hno Hpos) as (o' & Hs & Hgot).
      exists o', [EpollWait (wait_for timeout now)]; split; [done|]; split; [rewrite Hl; apply Hcall, Hs|]; split; [lia|]; split; [done|].
      split; [eapply wait_for_ok; [exact Hto | constructor] | left; exists (e :: evs), l; done].
    + rewrite Ha in Hnext; destruct (move_first_ok (w_now w) a o) as (l & o' & Hm & Hne & Hfrom & Hok' & Hlt & _);
        [apply (timers_later _ _ _ clock); [exact Hok | lia] | exact Hnext | exact Hle|].
      exists o', [EpollWait (wait_for timeout now)]; split; [done|]; split; [rewrite Hl; apply Hcall, Hm|]; split; [lia|]; split; [done|].
      split; [eapply wait_for_ok; [exact Hto | constructor]|]; right; exists l; do 3 (split; [done|]); intros x Hx; specialize (Hlt x Hx); lia.
  - destruct (wait_again _ _ _ _ ws o Hto Hn0 Hans Hst) as [Hl Hlt].
    destruct (IH (w_now w) (match timeout with Some _ => w_now w | None => n end)) as (w' & o' & ks & Hlast & He & Hnow & HL & Hks & Hwo); [lia | | lia | exact Hrest |].
    { intros a Ha; destruct (Hto a Ha) as (_ & _ & Hi); rewrite Ha; split; [done|]; split; [apply Hlt, Ha | exact Hi]. }
    exists w', o', (EpollWait (wait_for timeout now) :: ks); split; [destruct ws; [done | exact Hlast]|]; split; [rewrite Hl; apply Hcall, He|].
    split; [lia|]; split; [cbn; rewrite HL; done|]; split; [eapply wait_for_ok; [exact Hto | exact Hks] | exact Hwo].
Qed.

(** * Limits *)

Lemma get_limit_eq l x o : limits o !! l = Some x -> get_limit l o = Ok (x, o, []).
Proof. intros Hx; unfold get_limit; rewrite Hx; done. Qed.
Lemma mod_limit_eq l x f o : limits o !! l = Some x -> mod_limit l f o = Ok (tt, o <| limits ::= <[l := f x]> |>, []).
Proof. intros Hx; unfold mod_limit; pstep_by ltac:(apply get_limit_eq, Hx); done. Qed.
Definition with_limits (act : list Z) (ctr : Z) (ls : gmap Z limit) o : reactor T Hd Us :=
  mk_reactor (exiting o) (exit_code o) (pending_jobs o) (timers_tree o) (timers_expired_list o) act (epoll_results o) (epoll_results_num o)
    (epoll_results_pos o) (d_fds_counter o) ctr (timers o) (fds o) ls.
Definition zeroed (ls : gmap Z limit) : gmap Z limit := (fun x => x <| l_count := 0 |>) <$> ls.
(** The counted limits are those on the list. *)
Definition counted (act : list Z) (ls : gmap Z limit) : Prop :=
  NoDup act /\ (forall l, l ∈ act <-> exists x, ls !! l = Some x /\ 0 < l_count x) /\ (forall l x, ls !! l = Some x -> 0 <= l_count x).

Lemma reset_limits_eq act o : active_limits_list o = act -> counted act (limits o) ->
  reset_limits act o = Ok (tt, with_limits [] (d_limits_ctr o) (zeroed (limits o)) o, []).
Proof.
  revert o; induction act as [|l act IH]; intros o Hact (Hnd & Hin & Hpos); cbn [reset_limits].
  - unfold pskip, mret, prog_ret; do 3 f_equal; destruct o; cbn in *; subst; unfold with_limits; cbn; f_equal.
    apply map_eq; intros l; unfold zeroed; rewrite lookup_fmap; destruct (_ !! l) as [[a c]|] eqn:Hl; [|done]; cbn; do 2 f_equal.
    destruct (Z.eq_dec c 0) as [->|Hne]; [done|]; specialize (Hpos l _ Hl); cbn in Hpos.
    assert (l ∈ []) as Hl0 by (apply Hin; eexists; split; [exact Hl | cbn; lia]); inversion Hl0.
  - destruct (proj1 (Hin l)) as (x & Hx & Hc); [left|]; apply NoDup_cons in Hnd as [Hla Hnd].
    pstep_by ltac:(apply get_limit_eq, Hx); pstep_by ltac:(apply passert_ok; lia); pstep_by ltac:(eapply mod_limit_eq, Hx); pstep.
    etransitivity; [apply IH|].
    + change (remove_node l (active_limits_list o) = act); rewrite Hact; apply remove_node_cons, Hla.
    + change (counted act (<[l := x <| l_count := 0 |>]> (limits o))); split; [exact Hnd|]; split.
      * intros k; destruct (decide (l = k)) as [<-|Hn].
        -- rewrite lookup_insert_eq; split; [intros Hx'; destruct (Hla Hx') | intros (y & [= <-] & Hy); change (0 < 0) in Hy; lia].
        -- rewrite lookup_insert_ne by done; rewrite <- Hin, elem_of_cons; split; [right; done | intros [->|Hk]; done].
      * intros k y; destruct (decide (l = k)) as [<-|Hn]; [rewrite lookup_insert_eq; intros [= <-]; done | rewrite lookup_insert_ne by done; apply Hpos].
    + assert (zeroed (<[l := x <| l_count := 0 |>]> (limits o)) = zeroed (limits o)) as Hz.
      { unfold zeroed; rewrite fmap_insert; apply insert_id; rewrite lookup_fmap, Hx; destruct x; done. }
      do 3 f_equal; rewrite <- Hz; destruct o; done.
Qed.

(** * A turn of the loop *)

Lemma woken_frame o clock w o' : woken o clock w o' ->
  active_limits_list o' = active_limits_list o /\ limits o' = limits o /\ d_limits_ctr o' = d_limits_ctr o /\ exiting o' = exiting o /\
  exit_code o' = exit_code o /\ pending_jobs o' = pending_jobs o /\ d_fds_counter o' = d_fds_counter o.
Proof. intros [(evs & l & _ & _ & _ & _ & _ & ->)|(l & _ & (tr & ts & -> & _) & _)]; done. Qed.

(** The results taken in. *)
Definition drained o : reactor T Hd Us := with_results (epoll_results o) 0 0 (fds o) o.

Lemma wait_eq now ws o clock : inv o clock -> enabled (ETurn now ws) o clock -> idle o = true -> exists o' ks,
  wait_for_events now ws o = Ok (tt, o', ks) /\
  if due o now then ks = [] /\ exists l, l <> [] /\ expired_from (drained o) l o' /\
      timers_ok (timers_tree o') (timers_expired_list o') (timers o') now /\ (forall x, x ∈ l -> abs_of (timers o) x <= now) /\
      (forall x, x ∈ ot_elements (timers_tree o') -> now < abs_of (timers o') x)
  else length ks = length ws /\ timeouts_ok (next_timeout o) ks /\ exists w o1, list.last ws = Some w /\ now <= w_now w <= INT64_MAX /\
      woken (drained o) (w_now w) w o1 /\ o' = with_limits [] (d_limits_ctr o) (zeroed (limits o)) o1.
Proof.
  intros (Hok & (_ & _ & _ & Hpts) & _ & (Hl1 & Hl2 & Hl3 & _) & _ & Hcl) (_ & Hnow & Hen) Hidle; rewrite Hidle in Hen; cbn [andb] in Hen.
  pose proof Hidle as ((Hj%negb_true_iff & He%bool_decide_eq_true)%andb_true_iff & Hp)%andb_true_iff.
  assert (forall bs i, ~ points (fds o) bs i) as Hno by (intros bs i Hbi; apply Hpts in Hbi as [Hi _]; lia).
  set (o0 := drained o) in *.
  assert (timers_ok (timers_tree o0) (timers_expired_list o0) (timers o0) clock) as Hok0 by exact Hok.
  assert (forall A (k : reactor T Hd Us -> rp A), (x ← pget; passert (negb (has_jobs x));; passert (bool_decide (timers_expired_list x = []));;
    passert (epoll_results_pos x =? epoll_results_num x);; pmod (fun o => o <| epoll_results_num := 0 |> <| epoll_results_pos := 0 |>);; k x) o = k o o0) as Hstart.
  { intros A k; pstep; rewrite Hj, He, Hp; pstep; pstep; pstep; pstep; destruct o; done. }
  unfold wait_for_events; rewrite Hstart; clear Hstart.
  assert (forall o1 w ks (p : rp unit), woken o0 (w_now w) w o1 -> p o0 = Ok (tt, o1, ks) ->
    (p;; ls ← pread active_limits_list; reset_limits ls) o0 = Ok (tt, with_limits [] (d_limits_ctr o) (zeroed (limits o)) o1, ks)) as Hfin.
  { intros o1 w ks p Hwo Hpo; destruct (woken_frame _ _ _ _ Hwo) as (Ha & Hls & Hc & _).
    etransitivity; [eapply pbind_calls; [exact Hpo | pstep; apply reset_limits_eq; [done | rewrite Ha, Hls; done]]|].
    rewrite Hls, Hc, app_nil_r; done. }
  change (due o now) with (match next_timeout o with Some a => a <=? now | None => false end) in *.
  destruct (ot_first (timers_tree o)) as [bt|] eqn:Hf.
  - destruct (first_running o clock bt Hok Hf) as (t & l & Ht & Hs & _ & Hn & Hi & _).
    assert (forall A (k : timer -> rp A), (t ← get_timer bt; passert (in_state (t_state t) TIMER_STATE_RUNNING);; k t) o0 = k t o0) as Hget.
    { intros A k; timer_step (Ht : timers o0 !! bt = Some t); pstep_by ltac:(apply passert_ok, in_state_true, Hs); done. }
    rewrite Hget, Hn in *; destruct (move_expired_ok now now o0) as (l0 & o' & Hm & Hfrom & Hok' & H1 & H2); [apply (timers_later _ _ _ clock); [exact Hok | lia] | lia|].
    destruct (t_absTime t <=? now) eqn:Hdue.
    + assert (l0 <> []) as Hne.
      { intros ->; destruct Hfrom as (tr & ts & -> & He0 & Ha); specialize (H2 bt); cbn [timers_tree timers with_timers] in *.
        rewrite Ha in H2; change (timers_tree o0) with (timers_tree o) in He0; change (timers o0) with (timers o) in H2.
        rewrite (abs_of_eq _ _ _ Ht) in H2; cbn [app] in He0; rewrite <- He0 in H2; rewrite ot_first_head in Hf.
        destruct (ot_elements (timers_tree o)); [done|]; injection Hf as ->; specialize (H2 ltac:(left)); lia. }
      rewrite (bool_decide_eq_true_2 _ Hne) in Hm; exists o', []; split; [pstep_by ltac:(exact Hm); done|]; split; [done|]; exists l0; done.
    + assert (l0 = []) as ->.
      { destruct l0 as [|x l0]; [done|]; destruct Hfrom as (tr & ts & -> & He0 & Ha).
        pose proof (first_running o clock bt Hok Hf) as (t' & l' & Ht' & _ & Hel & _ & _ & Hleast); rewrite Ht in Ht'; injection Ht' as <-.
        assert (x ∈ bt :: l') as Hx by (rewrite <- Hel; change (timers_tree o0) with (timers_tree o) in He0; rewrite He0; left).
        specialize (Hleast x Hx); specialize (H1 x ltac:(left)); change (timers o0) with (timers o) in H1; lia. }
      destruct (wait_loop_ok (Some (t_absTime t)) now now ws o0 clock Hok0) as (w & o1 & ks & Hlast & Hl & Hw & HL & Hks & Hwo);
        [lia | exact Hn | intros a [= <-]; split; [done|]; split; [lia | exact Hi] | lia | exact Hno | done | exact Hen|].
      exists (with_limits [] (d_limits_ctr o) (zeroed (limits o)) o1), ks; split; [|split; [exact HL|split; [exact Hks|exists w, o1; done]]].
      assert (o' = o0) as ->.
      { clear - Hm Hf Ht Hs Hdue; unfold move_expired_timers in Hm.
        assert (move_until (tree_fuel o0) (fun _ => true) now false o0 = Ok (false, o0, [])) as Hm'.
        { unfold tree_fuel; cbn [move_until]; pstep; change (timers_tree o0) with (timers_tree o); rewrite Hf; timer_step (Ht : timers o0 !! bt = Some t).
          pstep_by ltac:(apply passert_ok, in_state_true, Hs); pstep; assert ((now <? t_absTime t) = true) as -> by lia; done. }
        assert ((f ← pread tree_fuel; move_until f (fun _ => true) now false) o0 = Ok (false, o0, [])) as Hm'' by (pstep; exact Hm').
        rewrite Hm'' in Hm; injection Hm; done. }
      pstep_by ltac:(exact Hm); apply (Hfin o1 w ks _ Hwo Hl).
  - assert (next_timeout o = None) as Hn by (unfold next_timeout; rewrite Hf; done); rewrite Hn in *.
    destruct (wait_loop_ok None now 0 ws o0 clock Hok0) as (w & o1 & ks & Hlast & Hl & Hw & HL & Hks & Hwo);
      [lia | exact Hn | done | lia | exact Hno | done | exact Hen|].
    exists (with_limits [] (d_limits_ctr o) (zeroed (limits o)) o1), ks; split; [apply (Hfin o1 w ks _ Hwo Hl)|].
    split; [exact HL|]; split; [exact Hks|]; exists w, o1; done.
Qed.

(** * The invariant is kept *)

(** A step that succeeds and keeps the invariant. *)
Definition kept (e : event) o (clock : Z) : Prop :=
  exists b o' ks, handle e o = Ok (b, o', ks) /\ inv o' (tick e clock).

Lemma points_insert fs bs b x i : points (<[bs := b]> fs) x i <->
  if decide (bs = x) then active b = true /\ epoll_returned_ptr b = Some i else points fs x i.
Proof.
  unfold points; destruct (decide (bs = x)) as [->|Hn]; [rewrite lookup_insert_eq | rewrite lookup_insert_ne by done; done]; naive_solver.
Qed.
Lemma is_active_insert fs bs b x : is_active (<[bs := b]> fs) x <-> if decide (bs = x) then active b = true else is_active fs x.
Proof.
  unfold is_active; destruct (decide (bs = x)) as [->|Hn]; [rewrite lookup_insert_eq | rewrite lookup_insert_ne by done; done]; naive_solver.
Qed.
Lemma results_same res num pos fs fs' : (forall bs i, points fs' bs i <-> points fs bs i) -> results_ok res num pos fs -> results_ok res num pos fs'.
Proof. intros Hp (H1 & H2 & H3 & H4); do 3 (split; [done|]); intros bs i; rewrite Hp; apply H4. Qed.
Definition mask_ok (x : Z) : Prop := Z.land x (Z.lnot (Z.lor BREACTOR_READ BREACTOR_WRITE)) = 0.
Lemma fds_same ctr fs bs b b' : fs !! bs = Some b -> active b' = active b -> mask_ok (waitEvents b') -> fds_ok ctr fs -> fds_ok ctr (<[bs := b']> fs).
Proof.
  intros Hb Ha Hm ((l & Hnd & Hl & Hc) & Hmask); split.
  - exists l; split; [exact Hnd|]; split; [|exact Hc]; intros x; rewrite Hl, is_active_insert; destruct (decide (bs = x)) as [<-|]; [|done].
    rewrite Ha; unfold is_active; rewrite Hb; naive_solver.
  - intros x y; destruct (decide (bs = x)) as [<-|Hn]; [rewrite lookup_insert_eq; intros [= <-]; exact Hm | rewrite lookup_insert_ne by done; apply Hmask].
Qed.
Lemma result_at o pos : results_ok (epoll_results o) (epoll_results_num o) (epoll_results_pos o) (fds o) ->
  epoll_results_pos o = pos -> pos < epoll_results_num o -> exists e, get_result (Z.to_nat pos) o = Ok (e, o, []) /\ epoll_results o !! Z.to_nat pos = Some e.
Proof.
  intros (HL & Hr & Hn & _) Hp Hlt; unfold get_result; destruct (epoll_results o !! Z.to_nat pos) as [e|] eqn:He; [eauto|].
  apply lookup_ge_None in He; unfold Zlen in HL; lia.
Qed.

(** ** Jobs *)

Lemma spec_remove_elem j l x : x ∈ spec_remove j l <-> x ∈ l /\ x <> j.
Proof. unfold spec_remove; rewrite list_elem_of_filter; tauto. Qed.
Lemma jobs_kept op (p : @pend_spec Hd Us) : jobs_ok p -> (op = OpExecute -> stack p <> []) ->
  (forall j h u, op = OpInit j h u -> known p !! j = None) ->
  (forall j, (op = OpFree j \/ (exists h u, op = OpSetHandler j h u) \/ op = OpSet j \/ op = OpUnset j) -> is_Some (known p !! j)) ->
  exists p' rs, spec_step op p = Some (p', rs) /\ jobs_ok p'.
Proof.
  intros (Hnd & Hk) He Hi Hs.
  assert (forall j l, NoDup l -> NoDup (spec_remove j l)) as Hrm by (intros; apply NoDup_filter; done).
  destruct op as [j h u|j|j h u|j|j|]; cbn [spec_step].
  - rewrite (decide_False (P := is_Some _)) by (rewrite (Hi j h u eq_refl); intros [? ?]; done); eexists _, _; split; [done|]; split; [exact Hnd|].
    intros x Hx; cbn in *; apply lookup_insert_is_Some; destruct (decide (j = x)); auto.
  - rewrite (decide_True (P := is_Some _)) by (apply Hs; auto); eexists _, _; split; [done|]; split; [apply Hrm, Hnd|]; cbn.
    intros x [Hx Hxj]%spec_remove_elem; rewrite lookup_delete_ne by congruence; auto.
  - rewrite (decide_True (P := is_Some _)) by (apply Hs; eauto 6); eexists _, _; split; [done|]; split; [exact Hnd|].
    intros x Hx; cbn in *; apply lookup_insert_is_Some; destruct (decide (j = x)); auto.
  - rewrite (decide_True (P := is_Some _)) by (apply Hs; auto); eexists _, _; split; [done|]; split; cbn.
    + constructor; [rewrite spec_remove_elem; tauto | apply Hrm, Hnd].
    + intros x [->|[Hx _]%spec_remove_elem]%elem_of_cons; [apply Hs; auto | auto].
  - rewrite (decide_True (P := is_Some _)) by (apply Hs; auto); eexists _, _; split; [done|]; split; [apply Hrm, Hnd|]; cbn.
    intros x [Hx _]%spec_remove_elem; auto.
  - specialize (He eq_refl); destruct (stack p) as [|j l] eqn:Hst; [done|]; destruct (Hk j ltac:(left)) as [[h u] Hju]; rewrite Hju.
    apply NoDup_cons in Hnd as [_ Hnd]; eexists _, _; split; [done|]; split; [exact Hnd|]; intros x Hx; apply Hk; right; exact Hx.
Qed.
Definition with_jobs (p : @pend_spec Hd Us) o : reactor T Hd Us :=
  mk_reactor (exiting o) (exit_code o) p (timers_tree o) (timers_expired_list o) (active_limits_list o) (epoll_results o) (epoll_results_num o)
    (epoll_results_pos o) (d_fds_counter o) (d_limits_ctr o) (timers o) (fds o) (limits o).
Lemma on_jobs_eq op o p rs : spec_step op (pending_jobs o) = Some (p, rs) -> on_jobs op o = Ok (tt, with_jobs p o, map RunJob rs).
Proof. intros Hs; unfold on_jobs; rewrite Hs; destruct o; done. Qed.
Lemma execute_eq o j l : jobs_ok (pending_jobs o) -> stack (pending_jobs o) = j :: l -> exists h u,
  known (pending_jobs o) !! j = Some (h, u) /\
  on_jobs OpExecute o = Ok (tt, with_jobs (mk_spec l (known (pending_jobs o))) o, [RunJob (Run h u)]) /\
  jobs_ok (mk_spec l (known (pending_jobs o))).
Proof.
  intros (Hnd & Hk) Hst; rewrite Hst in *; destruct (Hk j ltac:(left)) as [[h u] Hju]; exists h, u; split; [exact Hju|]; split.
  - apply (on_jobs_eq OpExecute o _ [Run h u]); cbn; rewrite Hst, Hju; done.
  - apply NoDup_cons in Hnd as [_ Hnd]; split; [exact Hnd|]; intros x Hx; apply Hk; right; exact Hx.
Qed.
Lemma has_jobs_eq o : has_jobs o = true <-> stack (pending_jobs o) <> [].
Proof. unfold has_jobs; destruct (stack _); split; done. Qed.

(** ** Turns *)

Definition dispatched_timer o bt t o' : Prop :=
  o' = with_timers (timers_tree o) (remove_node bt (timers_expired_list o)) (<[bt := t <| t_state := TIMER_STATE_INACTIVE |>]> (timers o)) o.
Lemma dispatch_timer_eq o clock bt l : timers_ok (timers_tree o) (timers_expired_list o) (timers o) clock -> timers_expired_list o = bt :: l ->
  exists t, timers o !! bt = Some t /\ t_state t = TIMER_STATE_EXPIRED /\ t_absTime t <= clock /\ remove_node bt (timers_expired_list o) = l /\
    let o' := with_timers (timers_tree o) l (<[bt := t <| t_state := TIMER_STATE_INACTIVE |>]> (timers o)) o in
    dispatch_timer bt o = Ok (tt, o', [TimerHandler bt (t_is_small t)]) /\
    timers_ok (timers_tree o') (timers_expired_list o') (timers o') clock.
Proof.
  intros Hok He; pose proof Hok as (_ & Hnd & _ & Hexp & _ & _ & Hcl); destruct (proj1 (Hexp bt)) as (t & Ht & Hs); [rewrite He; left|].
  exists t; split; [exact Ht|]; split; [exact Hs|]; split; [rewrite <- (abs_of_eq _ _ _ Ht); apply Hcl; rewrite He; left|].
  assert (remove_node bt (timers_expired_list o) = l) as Hl by (rewrite He in *; apply NoDup_cons in Hnd as [Hb _]; apply remove_node_cons, Hb).
  split; [exact Hl|]; cbv zeta; split.
  - unfold dispatch_timer; timer_step Ht; pstep_by ltac:(apply passert_ok, in_state_true, Hs); pstep.
    pstep_by ltac:(eapply mod_timer_eq; exact Ht); rewrite <- Hl; destruct o; done.
  - cbn [timers_tree timers_expired_list timers with_timers]; pose proof (timers_inactive _ _ _ _ bt (t <| t_state := TIMER_STATE_INACTIVE |>) Hok eq_refl) as Hok'.
    rewrite Hl in Hok'; destruct Hok' as (H1 & H2 & H3 & H4 & H5 & H6 & H7).
    assert (bt ∉ ot_elements (timers_tree o)) as Hbt by (apply (not_in_tree _ _ _ _ _ _ Hok Ht); rewrite Hs; done).
    assert (ot_elements (ot_remove bt (timers_tree o)) = ot_elements (timers_tree o)) as Heq by (rewrite ot_remove_elements; apply remove_node_absent, Hbt).
    unfold timers_ok; rewrite Heq in *; split_and!; assumption.
Qed.

(** The next result, whose descriptor may be gone. *)
Definition took_result o (ptr : option Z) o' : Prop :=
  o' = with_results (epoll_results o) (epoll_results_num o) (1 + epoll_results_pos o)
    (match ptr with Some bs => alter (fun b => b <| epoll_returned_ptr := None |>) bs (fds o) | None => fds o end) o.
Lemma dispatch_result_eq o : results_ok (epoll_results o) (epoll_results_num o) (epoll_results_pos o) (fds o) -> fds_ok (d_fds_counter o) (fds o) ->
  epoll_results_pos o < epoll_results_num o -> exists e o',
  epoll_results o !! Z.to_nat (epoll_results_pos o) = Some e /\ took_result o (ev_ptr e) o' /\
  results_ok (epoll_results o') (epoll_results_num o') (epoll_results_pos o') (fds o') /\ fds_ok (d_fds_counter o') (fds o') /\
  match ev_ptr e with
  | None => dispatch_result o = Ok (tt, o', [])
  | Some bs => exists b, fds o !! bs = Some b /\ active b = true /\
      dispatch_result o = Ok (tt, o', if events_of (waitEvents b) (ev_events e) =? 0 then [] else [FdHandler bs (events_of (waitEvents b) (ev_events e))])
  end.
Proof.
  intros Hok Hfds Hlt; pose proof Hok as (HL & Hr & Hn & Hpts); destruct (result_at o _ Hok eq_refl Hlt) as (e & Hget & He).
  exists e; eexists; split; [exact He|]; split; [reflexivity|]; unfold dispatch_result.
  destruct (ev_ptr e) as [bs|] eqn:Hp.
  - destruct (proj2 (Hpts bs (Z.to_nat (epoll_results_pos o)))) as (b & Hb & Ha & Hi); [split; [lia | eauto]|].
    assert (alter (fun b => b <| epoll_returned_ptr := None |>) bs (fds o) = <[bs := b <| epoll_returned_ptr := None |>]> (fds o)) as Halter.
    { apply map_eq; intros x; destruct (decide (bs = x)) as [<-|Hx]; [rewrite lookup_alter_eq, lookup_insert_eq, Hb | rewrite lookup_alter_ne, lookup_insert_ne by done]; done. }
    rewrite Halter; split; [|split].
    + split; [exact HL|]; split; [cbn; lia|]; split; [exact Hn|]; intros x i; cbn [fds epoll_results epoll_results_num epoll_results_pos with_results].
      rewrite points_insert; destruct (decide (bs = x)) as [<-|Hx].
      * split; [intros [_ ?]; done|]; intros (Hi' & e' & He' & Hp'); assert (points (fds o) bs i) as (b' & Hb' & _ & Hi'') by (apply Hpts; split; [lia | eauto]).
        rewrite Hb in Hb'; injection Hb' as <-; rewrite Hi in Hi''; injection Hi'' as Hi''; lia.
      * rewrite Hpts; split; [|intros (? & ?); split; [lia | done]]; intros (Hi' & e' & He' & Hp'); split; [|eauto].
        assert (Z.of_nat i <> epoll_results_pos o); [|lia]; intros Heq; rewrite <- Heq, Nat2Z.id in He; congruence.
    + apply (fds_same _ _ bs b); [exact Hb | done | apply Hfds in Hb; exact Hb | exact Hfds].
    + exists b; split; [exact Hb|]; split; [exact Ha|]; pstep; pstep_by ltac:(exact Hget); pstep; rewrite Hp.
      pstep_by ltac:(apply get_fd_eq; exact Hb); rewrite Ha, Hi; pstep; pstep_by ltac:(apply passert_ok, bool_decide_eq_true_2; done).
      pstep_by ltac:(eapply mod_fd_eq; exact Hb); cbv zeta; destruct (_ =? 0); destruct o; done.
  - split; [|split; [exact Hfds|]].
    + split; [exact HL|]; split; [cbn; lia|]; split; [exact Hn|]; intros x i; cbn [fds epoll_results epoll_results_num epoll_results_pos with_results].
      rewrite Hpts; split; [|intros (? & ?); split; [lia | done]]; intros (Hi' & e' & He' & Hp'); split; [|eauto].
      assert (Z.of_nat i <> epoll_results_pos o); [|lia]; intros Heq; rewrite <- Heq, Nat2Z.id in He; congruence.
    + pstep; pstep_by ltac:(exact Hget); pstep; rewrite Hp; destruct o; done.
Qed.

(** What one turn of the loop does. *)
Inductive turned (now : Z) (ws : list wake) o : reactor T Hd Us -> list (@rcall Hd Us) -> Prop :=
| t_job j l h u : stack (pending_jobs o) = j :: l -> known (pending_jobs o) !! j = Some (h, u) ->
    turned now ws o (with_jobs (mk_spec l (known (pending_jobs o))) o) [RunJob (Run h u)]
| t_timer bt l t : stack (pending_jobs o) = [] -> timers_expired_list o = bt :: l -> timers o !! bt = Some t -> t_absTime t <= now ->
    turned now ws o (with_timers (timers_tree o) l (<[bt := t <| t_state := TIMER_STATE_INACTIVE |>]> (timers o)) o) [TimerHandler bt (t_is_small t)]
| t_gone o' e : stack (pending_jobs o) = [] -> timers_expired_list o = [] -> epoll_results_pos o < epoll_results_num o -> epoll_results o !! Z.to_nat (epoll_results_pos o) = Some e ->
    ev_ptr e = None -> took_result o None o' -> turned now ws o o' []
| t_fd o' e bs b : stack (pending_jobs o) = [] -> timers_expired_list o = [] -> epoll_results_pos o < epoll_results_num o -> epoll_results o !! Z.to_nat (epoll_results_pos o) = Some e ->
    ev_ptr e = Some bs -> fds o !! bs = Some b -> active b = true -> took_result o (Some bs) o' ->
    turned now ws o o' (let ev := events_of (waitEvents b) (ev_events e) in if ev =? 0 then [] else [FdHandler bs ev])
| t_due o' l : idle o = true -> due o now = true -> l <> [] -> expired_from (drained o) l o' -> (forall x, x ∈ l -> abs_of (timers o) x <= now) ->
    (forall x, x ∈ ot_elements (timers_tree o') -> now < abs_of (timers o') x) -> turned now ws o o' []
| t_wait o1 w ks : idle o = true -> due o now = false -> list.last ws = Some w -> now <= w_now w <= INT64_MAX -> length ks = length ws ->
    timeouts_ok (next_timeout o) ks -> woken (drained o) (w_now w) w o1 ->
    turned now ws o (with_limits [] (d_limits_ctr o) (zeroed (limits o)) o1) ks.

Lemma not_idle_jobs o : has_jobs o = true -> idle o = false.
Proof. intros Hj; unfold idle; rewrite Hj; done. Qed.
Lemma expired_from_frame o l o' : expired_from o l o' -> epoll_results o' = epoll_results o /\ epoll_results_num o' = epoll_results_num o /\
  epoll_results_pos o' = epoll_results_pos o /\ fds o' = fds o /\ d_fds_counter o' = d_fds_counter o /\ pending_jobs o' = pending_jobs o /\
  active_limits_list o' = active_limits_list o /\ d_limits_ctr o' = d_limits_ctr o /\ limits o' = limits o.
Proof. intros (tr & ts & -> & _); done. Qed.
Lemma drained_results o : results_ok (epoll_results o) (epoll_results_num o) (epoll_results_pos o) (fds o) -> epoll_results_pos o = epoll_results_num o ->
  results_ok (epoll_results (drained o)) 0 0 (fds (drained o)).
Proof.
  intros (HL & Hr & Hn & Hpts) Hp; split; [exact HL|]; split; [lia|]; split; [lia|]; intros bs i; split.
  - intros Hbi; apply Hpts in Hbi as [Hi _]; lia.
  - intros [Hi _]; lia.
Qed.
Lemma zeroed_ok act ctr (ls : gmap Z limit) : limits_ok act ctr ls -> limits_ok [] ctr (zeroed ls).
Proof.
  intros (_ & _ & _ & Hc); split; [constructor|]; unfold zeroed; split; [|split; [|rewrite map_size_fmap; exact Hc]].
  - intros l; rewrite lookup_fmap; split; [intros Hx; inversion Hx|]; intros (x & Hx & Hlt); destruct (ls !! l); [|done]; injection Hx as <-; change (0 < 0) in Hlt; lia.
  - intros l x; rewrite lookup_fmap; destruct (ls !! l); [|done]; intros [= <-]; done.
Qed.
Lemma mark_fds ctr fs l : NoDup l -> fds_ok ctr fs -> fds_ok ctr (mark 0 l fs).
Proof.
  intros Hnd ((la & Hla & Hact & Hc) & Hmask); split.
  - exists la; split; [exact Hla|]; split; [|exact Hc]; intros x; rewrite mark_active by exact Hnd; apply Hact.
  - intros x b Hb; destruct (mark_events _ _ _ _ _ Hnd Hb) as (b' & Hb' & ->); apply (Hmask x b' Hb').
Qed.
Lemma got_results o evs l o' : results_ok (epoll_results o) 0 0 (fds o) -> Zlen evs <= BSYSTEM_MAX_RESULTS -> got_events o evs l o' ->
  results_ok (epoll_results o') (epoll_results_num o') (epoll_results_pos o') (fds o').
Proof.
  intros (HL & _ & _ & Hpts) Hle (_ & Hm & Hnd & Hact & ->); cbn [fds epoll_results epoll_results_num epoll_results_pos with_results].
  pose proof (Zlen_nonneg evs); split; [|split; [lia|split; [exact Hle|]]].
  - rewrite Zlen_app; change (drop (length evs) (epoll_results o)) with (drop (length evs) (epoll_results o)).
    unfold Zlen in *; rewrite length_drop; lia.
  - intros bs i; rewrite mark_points; [|exact Hnd | intros x j Hx; apply Hpts in Hx as [Hj _]; lia | exact Hact]; split.
    + intros (k & Hk & ->); assert (map ev_ptr evs !! k = Some (Some bs)) as Hmk by (rewrite Hm, list_lookup_fmap, Hk; done).
      rewrite list_lookup_fmap in Hmk; destruct (evs !! k) as [e|] eqn:He; [|done]; injection Hmk as Hp.
      pose proof (lookup_lt_Some _ _ _ He); split; [unfold Zlen; cbn; lia|]; exists e; split; [|exact Hp]; apply lookup_app_l_Some, He.
    + intros (Hi & e & He & Hp); rewrite lookup_app_l in He by (unfold Zlen in Hi; lia); exists i; split; [|done].
      assert (map ev_ptr evs !! i = Some (Some bs)) as Hmi by (rewrite list_lookup_fmap, He; cbn; rewrite Hp; done).
      rewrite Hm, list_lookup_fmap in Hmi; destruct (l !! i); [|done]; cbn in Hmi; congruence.
Qed.

Lemma woken_inv o clock now w o1 : inv o clock -> clock <= now -> epoll_results_pos o = epoll_results_num o -> now <= w_now w <= INT64_MAX ->
  match w_events w with Some evs => Zlen evs <= BSYSTEM_MAX_RESULTS | None => True end -> woken (drained o) (w_now w) w o1 ->
  inv (with_limits [] (d_limits_ctr o) (zeroed (limits o)) o1) (w_now w).
Proof.
  intros (Ht & Hr & Hf & Hl & Hj & Hc) Hcn Hp Hw Hev Hwo; pose proof (drained_results o Hr Hp) as Hdr; unfold inv; cbn [with_limits timers_tree timers_expired_list timers
    epoll_results epoll_results_num epoll_results_pos fds d_fds_counter active_limits_list d_limits_ctr limits pending_jobs].
  destruct Hwo as [(evs & l & He & Hgot)|(l & Hne & Hfrom & Hok & _)].
  - rewrite He in Hev; pose proof Hgot as (_ & _ & Hnd & _ & ->); split; [apply (timers_later _ _ _ clock); [exact Ht | lia]|].
    split; [apply (got_results _ _ _ _ Hdr Hev Hgot)|]; split; [apply mark_fds; done|]; split; [apply (zeroed_ok _ _ _ Hl)|]; split; [exact Hj | lia].
  - destruct (expired_from_frame _ _ _ Hfrom) as (-> & -> & -> & -> & -> & -> & _); split; [exact Hok|]; split; [exact Hdr|]; split; [exact Hf|].
    split; [apply (zeroed_ok _ _ _ Hl)|]; split; [exact Hj | lia].
Qed.

(** The answers that end a wait are among those epoll_wait may give. *)
Lemma wakes_last fs timeout now ws w : wakes_ok fs timeout now ws -> list.last ws = Some w ->
  match w_events w with Some evs => Zlen evs <= BSYSTEM_MAX_RESULTS | None => True end.
Proof.
  revert now; induction ws as [|x ws IH]; intros now; [done|]; intros (_ & Hans & Hrest) Hl.
  assert (ws = [] \/ exists y ys, ws = y :: ys) as [->|(y & ys & ->)] by (destruct ws; eauto).
  - injection Hl as ->; unfold answer_ok in Hans; destruct (w_events w) as [[|e evs]|]; [done | apply Hans | done].
  - destruct (stops timeout now x); [done|]; apply (IH _ Hrest Hl).
Qed.
Lemma clock_after_last now ws w : list.last ws = Some w -> clock_after now ws = w_now w.
Proof. unfold clock_after; intros ->; done. Qed.

Lemma turn_ok now ws o clock : inv o clock -> enabled (ETurn now ws) o clock -> exists o' ks,
  handle (ETurn now ws) o = Ok (true, o', ks) /\ turned now ws o o' ks /\ inv o' (clock_after now ws).
Proof.
  intros Hinv Hen; pose proof Hinv as (Ht & Hr & Hf & Hl & Hj & Hc); pose proof Hen as (_ & Hnow & Hws).
  assert (forall o' ks, BReactor_Exec_turn now ws o = Ok (tt, o', ks) -> handle (ETurn now ws) o = Ok (true, o', ks)) as Hh.
  { intros o' ks He; unfold handle; etransitivity; [eapply pbind_calls; [exact He | reflexivity]|]; rewrite app_nil_r; done. }
  assert (idle o = false -> ws = []) as Hni by (intros Hi; rewrite Hi in Hws; exact Hws).
  unfold BReactor_Exec_turn in Hh.
  assert (forall A (k : reactor T Hd Us -> rp A), (o ← pget; k o) o = k o o) as Hget by (intros; pstep; done); setoid_rewrite Hget in Hh.
  destruct (stack (pending_jobs o)) as [|j l] eqn:Hst.
  2: { destruct (execute_eq o j l Hj Hst) as (h & u & Hju & He & Hj'); assert (has_jobs o = true) as Hhj by (apply has_jobs_eq; rewrite Hst; done).
    rewrite Hhj in Hh; eexists _, _; split; [apply Hh, He|]; split; [apply (t_job _ _ _ j l h u); done|].
    rewrite (Hni (not_idle_jobs _ Hhj)); split; [apply (timers_later _ _ _ clock); [exact Ht | cbn; lia]|]; do 3 (split; [done|]); split; [exact Hj' | cbn; lia]. }
  assert (has_jobs o = false) as Hhj by (unfold has_jobs; rewrite Hst; done); rewrite Hhj in Hh.
  destruct (timers_expired_list o) as [|bt l] eqn:He.
  2: { rewrite <- He in Ht; destruct (dispatch_timer_eq o clock bt l Ht He) as (t & Htm & Hs & Hle & Hrm & Hdis & Hok); eexists _, _; split; [apply Hh, Hdis|].
    split; [apply (t_timer _ _ _ bt l t); done || lia|]; rewrite Hni by (unfold idle; rewrite Hhj, He; done).
    split; [apply (timers_later _ _ _ clock); [exact Hok | cbn; lia]|]; do 4 (split; [done|]); cbn; lia. }
  destruct (Z.ltb_spec (epoll_results_pos o) (epoll_results_num o)) as [Hlt|Hge].
  - destruct (dispatch_result_eq o Hr Hf Hlt) as (e & o' & Hee & Htook & Hr' & Hf' & Hcase).
    assert (inv o' (clock_after now ws)) as Hinv'.
    { rewrite Hni by (unfold idle; rewrite Hhj, He; cbn; lia); rewrite Htook in *; split; [cbn; rewrite He; apply (timers_later _ _ _ clock); [exact Ht | cbn; lia]|].
      do 4 (split; [done|]); cbn; lia. }
    destruct (ev_ptr e) as [bs|] eqn:Hp.
    + destruct Hcase as (b & Hb & Ha & Hdis); eexists _, _; split; [apply Hh, Hdis|]; split; [apply (t_fd _ _ _ o' e bs b); done | exact Hinv'].
    + eexists _, _; split; [apply Hh, Hcase|]; split; [apply (t_gone _ _ _ o' e); done | exact Hinv'].
  - assert (epoll_results_pos o = epoll_results_num o) as Hp by (destruct Hr as (_ & ? & _); lia).
    assert (idle o = true) as Hidle by (unfold idle; rewrite Hhj, He; cbn; lia).
    destruct (wait_eq now ws o clock Hinv Hen Hidle) as (o' & ks & Hw & Hcase); exists o', ks; split; [apply Hh, Hw|].
    rewrite Hidle in Hws; destruct (due o now) eqn:Hdue; cbn [andb negb] in Hws.
    + destruct Hcase as (-> & lx & Hne & Hfrom & Hok & H1 & H2); split; [apply (t_due _ _ _ o' lx); done|]; rewrite Hws.
      pose proof (drained_results o Hr Hp) as Hdr; unfold inv; destruct (expired_from_frame _ _ _ Hfrom) as (-> & -> & -> & -> & -> & -> & -> & -> & ->).
      split; [exact Hok|]; split; [exact Hdr|]; do 3 (split; [done|]); cbn; lia.
    + destruct Hcase as (HL & Hks & w & o1 & Hlast & Hw' & Hwo & ->); split; [apply (t_wait _ _ _ o1 w ks); done|].
      rewrite (clock_after_last _ _ _ Hlast); apply (woken_inv o clock now w o1 Hinv); done || lia || exact (wakes_last _ _ _ _ _ Hws Hlast).
Qed.

(** ** The users' calls *)

Lemma no_calls o e clock b o' : handle e o = Ok (b, o', []) -> inv o' (tick e clock) -> kept e o clock.
Proof. intros He Hi; exists b, o', []; done. Qed.
Lemma ctr_up c n : ctr_ok c n -> exists c', DebugCounter_Increment c = Ok c' /\ ctr_ok c' (S n).
Proof.
  intros [H1 H2]; unfold DebugCounter_Increment, rassert; assert ((0 <=? c) = true) as -> by lia; eexists; split; [reflexivity|].
  unfold ctr_ok; destruct (Z.eqb_spec c INT_MAX); cbn [negb]; [subst; split; [done | left; done] | split; [lia | right; destruct H2; lia]].
Qed.
Lemma ctr_down c n : ctr_ok c (S n) -> exists c', DebugCounter_Decrement c = Ok c' /\ ctr_ok c' n.
Proof.
  intros [H1 H2]; assert (0 < c) as Hpos by (destruct H2 as [-> | ->]; [done | lia]).
  unfold DebugCounter_Decrement, rassert; assert ((0 <? c) = true) as -> by lia; eexists; split; [reflexivity|].
  unfold ctr_ok; destruct (Z.eqb_spec c INT_MAX); cbn [negb]; [subst; split; [done | left; done] | split; [lia | right; destruct H2; lia]].
Qed.

Lemma synchronize_kept ref o clock : inv o clock -> has_jobs o = true -> kept (ESynchronize ref) o clock.
Proof.
  intros Hinv Hj; pose proof Hinv as (Ht & Hr & Hf & Hl & Hjobs & Hc).
  assert (forall (p : rp bool) b o' ks, p o = Ok (b, o', ks) -> (if bool_decide (head (stack (pending_jobs o)) = Some ref) then mret true else p) o =
    if bool_decide (head (stack (pending_jobs o)) = Some ref) then Ok (true, o, []) else Ok (b, o', ks)) as Hif by (intros; destruct (bool_decide _); done).
  destruct (stack (pending_jobs o)) as [|j l] eqn:Hst; [unfold has_jobs in Hj; rewrite Hst in Hj; done|].
  destruct (execute_eq o j l Hjobs Hst) as (h & u & Hju & He & Hj').
  assert ((on_jobs OpExecute;; mret false) o = Ok (false, with_jobs (mk_spec l (known (pending_jobs o))) o, [RunJob (Run h u)])) as Hp.
  { etransitivity; [eapply pbind_calls; [exact He | reflexivity]|]; done. }
  destruct (bool_decide (head (j :: l) = Some ref)) eqn:Hb; unfold kept, handle, BReactor_Synchronize_turn.
  - exists true, o, []; split; [|exact Hinv]; pstep; pstep_by ltac:(apply passert_ok, Hj); rewrite Hst, Hb; done.
  - eexists false, _, _; split; [pstep; pstep_by ltac:(apply passert_ok, Hj); rewrite Hst, Hb; exact Hp|].
    split; [exact Ht|]; do 3 (split; [done|]); split; [exact Hj' | exact Hc].
Qed.
Lemma job_kept op o clock : inv o clock -> enabled (EJob op) o clock -> kept (EJob op) o clock.
Proof.
  intros (Ht & Hr & Hf & Hl & Hj & Hc) Hen; destruct (jobs_kept op _ Hj) as (p & rs & Hs & Hj').
  - intros ->; done.
  - intros j h u ->; exact Hen.
  - intros j [-> | [(h & u & ->) | [-> | ->]]]; exact Hen.
  - exists true, (with_jobs p o), (map RunJob rs); split.
    + unfold handle; etransitivity; [eapply pbind_calls; [apply on_jobs_eq, Hs | reflexivity]|]; rewrite app_nil_r; done.
    + split; [exact Ht|]; do 3 (split; [done|]); done.
Qed.

(** A timer that is not running may be changed freely. *)
Lemma timers_idle tr ex ts clock bt t : timers_ok tr ex ts clock -> bt ∉ ot_elements tr -> bt ∉ ex -> t_state t = TIMER_STATE_INACTIVE ->
  timers_ok tr ex (<[bt := t]> ts) clock.
Proof.
  intros Hok Hb1 Hb2 Ht; pose proof Hok as (Hn1 & Hn2 & _ & _ & Ho & _); eapply timers_change; [exact Hok | ..]; rewrite ?Ht; try done.
  apply order_but; done.
Qed.
Lemma timer_init_kept bt t o clock e : inv o clock -> ~ is_running (timers o) bt -> ~ is_expired (timers o) bt -> t_state t = TIMER_STATE_INACTIVE ->
  tick e clock = clock -> handle e o = Ok (true, o <| timers ::= <[bt := t]> |>, []) -> kept e o clock.
Proof.
  intros (Ht & Hr & Hf & Hl & Hj & Hc) H1 H2 Hs Htick He; eapply no_calls; [exact He|]; rewrite Htick.
  split; [|done]; apply timers_idle; [exact Ht | | | exact Hs]; destruct Ht as (_ & _ & Hrun & Hexp & _); [rewrite Hrun | rewrite Hexp]; done.
Qed.

Definition stopped o bt t : reactor T Hd Us :=
  with_timers (ot_remove bt (timers_tree o)) (remove_node bt (timers_expired_list o)) (<[bt := t <| t_state := TIMER_STATE_INACTIVE |>]> (timers o)) o.
(** Stopping a timer, up to what the tree looks like where it was not in the tree. *)
Lemma remove_timer_ok o clock bt t : timers_ok (timers_tree o) (timers_expired_list o) (timers o) clock -> timers o !! bt = Some t -> exists tr ex,
  BReactor_RemoveSmallTimer bt o = Ok (tt, with_timers tr ex (<[bt := t <| t_state := TIMER_STATE_INACTIVE |>]> (timers o)) o, []) /\
  timers_ok tr ex (<[bt := t <| t_state := TIMER_STATE_INACTIVE |>]> (timers o)) clock /\
  ot_elements tr = remove_node bt (ot_elements (timers_tree o)) /\ ex = remove_node bt (timers_expired_list o).
Proof.
  intros Hok Ht; set (t' := t <| t_state := TIMER_STATE_INACTIVE |>).
  pose proof (timers_inactive _ _ _ _ bt t' Hok eq_refl) as (H1 & H2 & H3 & H4 & H5 & H6 & H7).
  assert (forall tr ex, ot_elements tr = remove_node bt (ot_elements (timers_tree o)) -> ex = remove_node bt (timers_expired_list o) ->
    timers_ok tr ex (<[bt := t']> (timers o)) clock) as Hgo.
  { intros tr ex He ->; rewrite ot_remove_elements, <- He in *; split_and!; assumption. }
  unfold BReactor_RemoveSmallTimer; destruct (t_state t) eqn:Hs.
  - assert (remove_node bt (ot_elements (timers_tree o)) = ot_elements (timers_tree o)) as E1
      by (apply remove_node_absent, (not_in_tree _ _ _ _ _ _ Hok Ht); rewrite Hs; done).
    assert (remove_node bt (timers_expired_list o) = timers_expired_list o) as E2
      by (apply remove_node_absent, (not_in_expired _ _ _ _ _ _ Hok Ht); rewrite Hs; done).
    exists (timers_tree o), (timers_expired_list o); split; [|split; [apply Hgo; done | done]].
    timer_step Ht; rewrite Hs; cbn; do 3 f_equal; unfold t'; assert (t <| t_state := TIMER_STATE_INACTIVE |> = t) as -> by (destruct t; cbn in Hs; subst; done).
    rewrite insert_id by exact Ht; destruct o; done.
  - assert (remove_node bt (timers_expired_list o) = timers_expired_list o) as E2
      by (apply remove_node_absent, (not_in_expired _ _ _ _ _ _ Hok Ht); rewrite Hs; done).
    exists (ot_remove bt (timers_tree o)), (timers_expired_list o); split; [|split; [apply Hgo; [apply ot_remove_elements | done] | split; [apply ot_remove_elements | done]]].
    timer_step Ht; rewrite Hs; cbn [in_state bool_decide decide_rel timer_state_eq]; pstep; etransitivity; [eapply mod_timer_eq; exact Ht|]; destruct o; done.
  - assert (remove_node bt (ot_elements (timers_tree o)) = ot_elements (timers_tree o)) as E1
      by (apply remove_node_absent, (not_in_tree _ _ _ _ _ _ Hok Ht); rewrite Hs; done).
    exists (timers_tree o), (remove_node bt (timers_expired_list o)); split; [|split; [apply Hgo; done | done]].
    timer_step Ht; rewrite Hs; cbn [in_state bool_decide decide_rel timer_state_eq]; pstep; etransitivity; [eapply mod_timer_eq; exact Ht|]; destruct o; done.
Qed.

Definition set_time (mode time now : Z) : Z := if mode =? BTIMER_SET_RELATIVE then btime_add now time else time.
Lemma btime_add_range a b : is_int64 a -> is_int64 b -> is_int64 (btime_add a b) /\
  btime_add a b = Z.max INT64_MIN (Z.min INT64_MAX (a + b)).
Proof.
  unfold is_int64, btime_add, add_signed_overflows, INT64_MIN, INT64_MAX; intros.
  destruct (Z.ltb_spec a 0), (Z.ltb_spec b 0); cbn [xorb]; [destruct (Z.ltb_spec a (-9223372036854775808 - b)) | .. | destruct (Z.ltb_spec (9223372036854775807 - b) a)];
    cbn; change (- (1) =? 0) with false; change (- 0 =? 0) with true; change (0 <? - (1)) with false; cbn; lia.
Qed.
(** Setting a timer: it runs, and will expire at its time. *)
Lemma set_timer_ok o clock bt t mode time now : timers_ok (timers_tree o) (timers_expired_list o) (timers o) clock -> timers o !! bt = Some t ->
  mode = BTIMER_SET_ABSOLUTE \/ mode = BTIMER_SET_RELATIVE -> is_int64 time -> is_int64 now -> exists tr,
  let t' := t <| t_state := TIMER_STATE_RUNNING |> <| t_absTime := set_time mode time now |> in
  let ex := remove_node bt (timers_expired_list o) in
  BReactor_SetSmallTimer bt mode time now o = Ok (tt, with_timers tr ex (<[bt := t']> (timers o)) o, []) /\
  timers_ok tr ex (<[bt := t']> (timers o)) clock /\ bt ∈ ot_elements tr.
Proof.
  intros Hok Ht Hmode Htime Hnow; destruct (remove_timer_ok o clock bt t Hok Ht) as (tr & ex & Hrm & Hok' & Htr & ->).
  set (t' := t <| t_state := TIMER_STATE_RUNNING |> <| t_absTime := set_time mode time now |>).
  assert (is_int64 (t_absTime t')) as Hi.
  { change (is_int64 (set_time mode time now)); unfold set_time; destruct (_ =? _); [apply btime_add_range; done | done]. }
  destruct (timers_set tr (remove_node bt (timers_expired_list o)) (<[bt := t <| t_state := TIMER_STATE_INACTIVE |>]> (timers o)) clock bt t' Hok')
    as (tr' & Hins & Hp & Hok''); [rewrite Htr, remove_node_elem; tauto | rewrite remove_node_elem; tauto | done | exact Hi|].
  rewrite insert_insert_eq in Hins, Hok''; exists tr'; cbv zeta; split; [|split; [exact Hok'' | rewrite Hp; left]].
  unfold BReactor_SetSmallTimer; pstep_by ltac:(apply passert_ok; destruct Hmode as [-> | ->]; done); pstep_by ltac:(exact Hrm).
  cbv zeta; fold (set_time mode time now); pstep_by ltac:(eapply mod_timer_eq; apply lookup_insert_eq).
  pstep_by ltac:(eapply mod_timer_eq; apply lookup_insert_eq); pstep.
  match goal with |- (let '(_, _) := ot_insert (compare_timers ?s) bt _ in _) _ = _ => set (s2 := s) end.
  set (t1 := t <| t_state := TIMER_STATE_INACTIVE |>); set (t2 := t1 <| t_absTime := set_time mode time now |>).
  assert (timers s2 = <[bt := t']> (timers o)) as Es.
  { change (timers s2) with (<[bt := t2 <| t_state := TIMER_STATE_RUNNING |>]> (<[bt := t2]> (<[bt := t1]> (timers o)))); rewrite !insert_insert_eq; done. }
  assert (compare_timers s2 = compare_by (abs_of (<[bt := t']> (timers o)))) as -> by (rewrite <- Es; done).
  change (timers_tree s2) with tr; rewrite Hins; pstep; unfold passert; do 3 f_equal.
  unfold with_timers; rewrite <- Es; destruct o; done.
Qed.

Lemma set_timer_kept bt mode time now o clock e : inv o clock -> is_Some (timers o !! bt) -> mode = BTIMER_SET_ABSOLUTE \/ mode = BTIMER_SET_RELATIVE ->
  is_int64 time -> clock <= now <= INT64_MAX -> tick e clock = now ->
  handle e o = (BReactor_SetSmallTimer bt mode time now;; mret true) o -> kept e o clock.
Proof.
  intros (Ht & Hr & Hf & Hl & Hj & Hc) [t Htm] Hmode Htime Hnow Htick He.
  destruct (set_timer_ok o clock bt t mode time now Ht Htm Hmode Htime) as (tr & Hs & Hok & _); [unfold is_int64, INT64_MIN; lia|].
  eexists true, _, _; split; [rewrite He; etransitivity; [eapply pbind_calls; [exact Hs | reflexivity] | reflexivity]|].
  rewrite Htick; split; [apply (timers_later _ _ _ clock); [exact Hok | lia]|]; do 4 (split; [done|]); lia.
Qed.
Lemma remove_timer_kept bt o clock : inv o clock -> is_Some (timers o !! bt) -> kept (ERemoveTimer bt) o clock.
Proof.
  intros (Ht & Hr & Hf & Hl & Hj & Hc) [t Htm]; destruct (remove_timer_ok o clock bt t Ht Htm) as (tr & ex & Hs & Hok & _ & _).
  eexists true, _, _; split; [etransitivity; [eapply pbind_calls; [exact Hs | reflexivity] | reflexivity]|].
  split; [exact Hok|]; do 4 (split; [done|]); exact Hc.
Qed.

(** ** File descriptors *)

Definition with_fds (ctr : Z) fs o : reactor T Hd Us :=
  mk_reactor (exiting o) (exit_code o) (pending_jobs o) (timers_tree o) (timers_expired_list o) (active_limits_list o) (epoll_results o) (epoll_results_num o)
    (epoll_results_pos o) ctr (d_limits_ctr o) (timers o) fs (limits o).
Lemma inv_fds o clock ctr fs : inv o clock -> results_ok (epoll_results o) (epoll_results_num o) (epoll_results_pos o) fs -> fds_ok ctr fs ->
  inv (with_fds ctr fs o) clock.
Proof. intros (Ht & _ & _ & Hl & Hj & Hc) Hr Hf; split; [exact Ht|]; done. Qed.
(** A descriptor that is not registered has no say in the results. *)
Lemma points_inactive fs bs b b' : fs !! bs = Some b -> active b = false -> (active b' = true -> epoll_returned_ptr b' = None) ->
  forall x i, points (<[bs := b']> fs) x i <-> points fs x i.
Proof.
  intros Hb Ha Hp x i; rewrite points_insert; destruct (decide (bs = x)) as [<-|]; [|done]; split; [intros [H1 H2]; rewrite (Hp H1) in H2; done|].
  intros (b0 & Hb0 & Ha0 & _); congruence.
Qed.
Lemma not_active fs bs b : ~ is_active fs bs -> fs !! bs = Some b -> active b = false.
Proof. intros Hn Hb; destruct (active b) eqn:Ha; [destruct Hn; exists b; done | done]. Qed.

Lemma fd_init_kept bs n o clock : inv o clock -> ~ is_active (fds o) bs -> kept (EFdInit bs n) o clock.
Proof.
  intros Hinv Hn; pose proof Hinv as (_ & Hr & ((l & Hnd & Hl & Hc) & Hm) & _).
  apply (no_calls _ _ _ true (with_fds (d_fds_counter o) (<[bs := mk_fdesc n false 0 None]> (fds o)) o)); [destruct o; done|].
  apply inv_fds; [exact Hinv | |].
  - eapply results_same; [|exact Hr]; intros x i; rewrite points_insert; destruct (decide (bs = x)) as [<-|]; [|done]; cbn.
    split; [intros [? _]; done | intros (b & Hb & Ha & _); destruct Hn; exists b; done].
  - split.
    + exists l; split; [exact Hnd|]; split; [|exact Hc]; intros x; rewrite Hl, is_active_insert; destruct (decide (bs = x)) as [<-|]; done.
    + intros x b; destruct (decide (bs = x)) as [<-|Hx]; [rewrite lookup_insert_eq; intros [= <-]; done | rewrite lookup_insert_ne by done; apply Hm].
Qed.
Lemma add_fd_ok bs ok o clock b : inv o clock -> fds o !! bs = Some b -> active b = false -> exists o',
  BReactor_AddFileDescriptor bs ok o = Ok (ok, o', [EpollCtl EPOLL_CTL_ADD (fd b) 0 (Some bs)]) /\ inv o' clock /\
  if ok then exists n, o' = with_fds n (<[bs := mk_fdesc (fd b) true 0 None]> (fds o)) o else o' = o.
Proof.
  intros Hinv Hb Ha; pose proof Hinv as (_ & Hr & ((l & Hnd & Hl & Hc) & Hm) & _).
  assert (forall (p : rp bool) b' o', p o = Ok (b', o', []) -> (b ← get_fd bs; passert (negb (active b));; pcall (EpollCtl EPOLL_CTL_ADD (fd b) 0 (Some bs));; p) o =
    Ok (b', o', [EpollCtl EPOLL_CTL_ADD (fd b) 0 (Some bs)])) as Hstart.
  { intros p b' o' Hp; fd_step Hb; rewrite Ha; pstep; exact (pbind_calls _ _ _ _ _ _ _ _ _ eq_refl Hp). }
  destruct ok; [|exists o; split; [exact (Hstart (mret false) false o eq_refl)|]; done].
  destruct (ctr_up _ _ Hc) as (n & Hn & Hc'); set (b1 := mk_fdesc (fd b) true 0 None).
  exists (with_fds n (<[bs := b1]> (fds o)) o); split; [|split; [|exists n; done]].
  - apply Hstart; cbn [negb]; pstep_by ltac:(eapply mod_fd_eq; exact Hb); pstep_by ltac:(eapply mod_fd_eq; apply lookup_insert_eq).
    pstep; pstep_by ltac:(unfold plift; match goal with |- (match DebugCounter_Increment ?x with _ => _ end) = _ => change x with (d_fds_counter o) end; rewrite Hn; reflexivity).
    pstep; rewrite <- (insert_insert_eq (fds o) bs b1 (b <| epoll_returned_ptr := None |>)); destruct o; done.
  - apply inv_fds; [exact Hinv | |].
    + eapply results_same; [|exact Hr]; apply (points_inactive _ _ b); done.
    + split.
      * exists (bs :: l); split; [constructor; [rewrite Hl; intros (b0 & Hb0 & Ha0); congruence | exact Hnd]|]; split; [|exact Hc'].
        intros x; rewrite elem_of_cons, Hl, is_active_insert; destruct (decide (bs = x)) as [<-|Hx]; [split; [done | left; done] | naive_solver].
      * intros x y; destruct (decide (bs = x)) as [<-|Hx]; [rewrite lookup_insert_eq; intros [= <-]; done | rewrite lookup_insert_ne by done; apply Hm].
Qed.

(** The result that was to be reported for a descriptor is struck out. *)
Definition struck (p : option nat) (res : list epoll_event) : list epoll_event :=
  match p with Some i => alter (fun e => e <| ev_ptr := None |>) i res | None => res end.
Lemma struck_ok res num pos fs bs b : results_ok res num pos fs -> fs !! bs = Some b -> active b = true ->
  results_ok (struck (epoll_returned_ptr b) res) num pos (<[bs := b <| active := false |>]> fs).
Proof.
  intros (HL & Hr & Hn & Hpts) Hb Ha; split; [unfold struck; destruct (epoll_returned_ptr b); [unfold Zlen in *; rewrite length_alter|]; exact HL|].
  split; [exact Hr|]; split; [exact Hn|]; intros x i; rewrite points_insert; destruct (decide (bs = x)) as [<-|Hx].
  - split; [intros [? _]; done|]; intros (Hi & e & He & Hp); exfalso; unfold struck in He; destruct (epoll_returned_ptr b) as [j|] eqn:Hj.
    + destruct (decide (j = i)) as [->|Hji].
      * rewrite list_lookup_alter_eq in He; destruct (res !! i); [injection He as <-; done | done].
      * rewrite list_lookup_alter_ne in He by done; assert (points fs bs i) as (b' & Hb' & _ & Hi') by (apply Hpts; eauto); congruence.
    + assert (points fs bs i) as (b' & Hb' & _ & Hi') by (apply Hpts; eauto); congruence.
  - rewrite Hpts; unfold struck; destruct (epoll_returned_ptr b) as [j|] eqn:Hj; [|done]; destruct (decide (j = i)) as [->|Hji]; [|rewrite list_lookup_alter_ne by done; done].
    rewrite list_lookup_alter_eq; assert (points fs bs i) as (_ & e0 & He0 & Hp0)%Hpts by (exists b; done).
    rewrite He0; split; intros (Hi & e & He & Hp); injection He as <-; [rewrite Hp0 in Hp; congruence | done].
Qed.
Lemma remove_fd_ok bs o clock b : inv o clock -> fds o !! bs = Some b -> active b = true -> exists n,
  let o' := mk_reactor (exiting o) (exit_code o) (pending_jobs o) (timers_tree o) (timers_expired_list o) (active_limits_list o)
    (struck (epoll_returned_ptr b) (epoll_results o)) (epoll_results_num o) (epoll_results_pos o) n (d_limits_ctr o) (timers o)
    (<[bs := b <| active := false |>]> (fds o)) (limits o) in
  BReactor_RemoveFileDescriptor bs o = Ok (tt, o', [EpollCtl EPOLL_CTL_DEL (fd b) 0 None]) /\ inv o' clock.
Proof.
  intros Hinv Hb Ha; pose proof Hinv as (Ht & Hr & ((l & Hnd & Hl & Hc) & Hm) & Hlim & Hj & Hclk).
  assert (bs ∈ l) as Hbl by (apply Hl; exists b; done).
  assert (length l = S (length (remove_node bs l))) as HLl by (pose proof (Zlen_remove_node bs l Hnd Hbl); unfold Zlen in *; lia).
  rewrite HLl in Hc; destruct (ctr_down _ _ Hc) as (n & Hn & Hc'); exists n; cbv zeta; split.
  - unfold BReactor_RemoveFileDescriptor; fd_step Hb; rewrite Ha; pstep; pstep; pstep_by ltac:(unfold plift; rewrite Hn; reflexivity); pstep.
    pstep_by ltac:(eapply mod_fd_eq; exact Hb).
    etransitivity; [eapply pbind_calls; [reflexivity|]|reflexivity].
    unfold struck; destruct (epoll_returned_ptr b) as [i|] eqn:Hi; [|destruct o; done].
    destruct Hr as (_ & _ & _ & Hpts); assert (points (fds o) bs i) as (_ & e & He & _)%Hpts by (exists b; done).
    unfold clear_result; pstep_by ltac:(unfold get_result; match goal with |- (match ?r !! i with _ => _ end) = _ => change r with (epoll_results o) end; rewrite He; reflexivity).
    unfold pmod; do 3 f_equal; assert (alter (fun e => e <| ev_ptr := None |>) i (epoll_results o) = <[i := e <| ev_ptr := None |>]> (epoll_results o)) as ->.
    { apply list_eq; intros k; destruct (decide (i = k)) as [<-|]; [rewrite list_lookup_alter_eq, list_lookup_insert_eq, He by (apply lookup_lt_Some in He; done) |
        rewrite list_lookup_alter_ne, list_lookup_insert_ne by done]; done. }
    destruct o; done.
  - split; [exact Ht|]; split; [apply struck_ok; done|]; split; [|done]; split.
    + exists (remove_node bs l); split; [apply remove_node_NoDup, Hnd|]; split; [|exact Hc'].
      intros x; rewrite remove_node_elem, Hl; cbn [fds]; rewrite is_active_insert; destruct (decide (bs = x)) as [<-|Hx]; [split; [tauto | done] | naive_solver].
    + intros x y; cbn [fds]; destruct (decide (bs = x)) as [<-|Hx]; [rewrite lookup_insert_eq; intros [= <-]; apply (Hm bs b Hb) | rewrite lookup_insert_ne by done; apply Hm].
Qed.
Lemma set_events_ok bs events o clock b : inv o clock -> fds o !! bs = Some b -> active b = true -> mask_ok events -> exists ks,
  BReactor_SetFileDescriptorEvents bs events o = Ok (tt, with_fds (d_fds_counter o) (<[bs := b <| waitEvents := events |>]> (fds o)) o, ks) /\
  inv (with_fds (d_fds_counter o) (<[bs := b <| waitEvents := events |>]> (fds o)) o) clock.
Proof.
  intros Hinv Hb Ha Hm; pose proof Hinv as (_ & Hr & Hf & _).
  assert (forall ks, (if waitEvents b =? events then pskip else pcall (EpollCtl EPOLL_CTL_MOD (fd b)
      (Z.lor (if has_bit events BREACTOR_READ then EPOLLIN else 0) (if has_bit events BREACTOR_WRITE then EPOLLOUT else 0)) (Some bs));; mod_fd bs (fun b => b <| waitEvents := events |>)) o =
      Ok (tt, with_fds (d_fds_counter o) (<[bs := b <| waitEvents := events |>]> (fds o)) o, ks) ->
    BReactor_SetFileDescriptorEvents bs events o = Ok (tt, with_fds (d_fds_counter o) (<[bs := b <| waitEvents := events |>]> (fds o)) o, ks)) as Hgo.
  { intros ks Hk; unfold BReactor_SetFileDescriptorEvents; fd_step Hb; rewrite Ha; pstep; pstep_by ltac:(apply passert_ok, Z.eqb_eq; exact Hm); exact Hk. }
  assert (inv (with_fds (d_fds_counter o) (<[bs := b <| waitEvents := events |>]> (fds o)) o) clock) as Hinv'.
  { apply inv_fds; [exact Hinv | | apply (fds_same _ _ bs b); done]; eapply results_same; [|exact Hr]; intros x i; rewrite points_insert.
    destruct (decide (bs = x)) as [<-|]; [|done]; unfold points; rewrite Hb; cbn; naive_solver. }
  destruct (Z.eqb_spec (waitEvents b) events) as [He|Hne].
  - exists []; split; [apply Hgo|exact Hinv']; unfold pskip, mret, prog_ret; do 3 f_equal.
    assert (b <| waitEvents := events |> = b) as -> by (destruct b; cbn in He; subst; done); rewrite insert_id by exact Hb; destruct o; done.
  - eexists; split; [apply Hgo | exact Hinv']; etransitivity; [eapply pbind_calls; [reflexivity | eapply mod_fd_eq; exact Hb]|]; destruct o; done.
Qed.

(** ** Limits *)

Lemma inv_limits o clock act ctr ls : inv o clock -> limits_ok act ctr ls -> inv (with_limits act ctr ls o) clock.
Proof. intros (Ht & Hr & Hf & _ & Hj & Hc) Hl; split; [exact Ht|]; done. Qed.
(** The counts but that of [l] stay. *)
Lemma counted_change act act' (ls : gmap Z limit) l x : counted act ls -> NoDup act' -> (forall k, k <> l -> (k ∈ act' <-> k ∈ act)) ->
  (l ∈ act' <-> 0 < l_count x) -> 0 <= l_count x -> counted act' (<[l := x]> ls).
Proof.
  intros (_ & Hin & Hpos) Hnd Hk Hl Hx; split; [exact Hnd|]; split.
  - intros k; destruct (decide (l = k)) as [<-|Hn]; [rewrite lookup_insert_eq; naive_solver | rewrite lookup_insert_ne, Hk by done; apply Hin].
  - intros k y; destruct (decide (l = k)) as [<-|Hn]; [rewrite lookup_insert_eq; naive_solver | rewrite lookup_insert_ne by done; apply Hpos].
Qed.
Lemma limits_counted act ctr (ls : gmap Z limit) : limits_ok act ctr ls <-> counted act ls /\ ctr_ok ctr (size ls).
Proof. unfold limits_ok, counted; tauto. Qed.
Lemma limit_init_ok l lim o clock : inv o clock -> limits o !! l = None -> 0 < lim -> exists n,
  BReactorLimit_Init l lim o = Ok (tt, with_limits (active_limits_list o) n (<[l := mk_limit lim 0]> (limits o)) o, []) /\
  inv (with_limits (active_limits_list o) n (<[l := mk_limit lim 0]> (limits o)) o) clock.
Proof.
  intros Hinv Hl Hlim; pose proof Hinv as (_ & _ & _ & (Hcnt & Hc)%limits_counted & _); destruct (ctr_up _ _ Hc) as (n & Hn & Hc'); exists n; split.
  - unfold BReactorLimit_Init; pstep_by ltac:(apply passert_ok; lia); pstep; pstep.
    pstep_by ltac:(unfold plift; match goal with |- (match DebugCounter_Increment ?x with _ => _ end) = _ => change x with (d_limits_ctr o) end; rewrite Hn; reflexivity).
    destruct o; done.
  - apply inv_limits; [exact Hinv|]; apply limits_counted; split; [|rewrite map_size_insert_None by exact Hl; exact Hc'].
    apply (counted_change (active_limits_list o)); [exact Hcnt | apply Hcnt | done | cbn | done]; destruct Hcnt as (_ & Hin & _); rewrite Hin, Hl; split; [intros (? & ? & _); done | lia].
Qed.
Lemma limit_free_ok l o clock : inv o clock -> is_Some (limits o !! l) -> exists n act,
  BReactorLimit_Free l o = Ok (tt, with_limits act n (delete l (limits o)) o, []) /\ inv (with_limits act n (delete l (limits o)) o) clock.
Proof.
  intros Hinv [x Hx]; pose proof Hinv as (_ & _ & _ & (Hcnt & Hc)%limits_counted & _); pose proof Hcnt as (Hnd & Hin & Hpos).
  assert (size (limits o) = S (size (delete l (limits o)))) as Hsz.
  { rewrite map_size_delete_Some by (exists x; exact Hx); assert (size (limits o) <> 0%nat); [|lia]; rewrite map_size_ne_0_lookup; eauto. }
  rewrite Hsz in Hc; destruct (ctr_down _ _ Hc) as (n & Hn & Hc'); specialize (Hpos l x Hx).
  assert (remove_node l (active_limits_list o) = if 0 <? l_count x then remove_node l (active_limits_list o) else active_limits_list o) as Hrm.
  { destruct (Z.ltb_spec 0 (l_count x)); [done|]; apply remove_node_absent; rewrite Hin; intros (y & Hy & Hlt); rewrite Hx in Hy; injection Hy as ->; lia. }
  exists n, (remove_node l (active_limits_list o)); split.
  - unfold BReactorLimit_Free; pstep_by ltac:(apply get_limit_eq, Hx); pstep; pstep_by ltac:(unfold plift; rewrite Hn; reflexivity); pstep.
    rewrite Hrm; destruct (0 <? l_count x); pstep; destruct o; done.
  - apply inv_limits; [exact Hinv|]; apply limits_counted; split; [|exact Hc'].
    split; [apply remove_node_NoDup, Hnd|]; split.
    + intros k; rewrite remove_node_elem, Hin; destruct (decide (l = k)) as [<-|Hk]; [rewrite lookup_delete_eq; split; [tauto | intros (? & ? & _); done] | rewrite lookup_delete_ne by done; naive_solver].
    + intros k y [_ Hy]%lookup_delete_Some; apply Hcnt in Hy; exact Hy.
Qed.
(** A limit lets its count go up to the limit and no further. *)
Lemma increment_ok l x o clock : inv o clock -> limits o !! l = Some x -> exists o',
  BReactorLimit_Increment l o = Ok (l_count x <? l_limit x, o', []) /\ inv o' clock /\
  if l_count x <? l_limit x then exists act, o' = with_limits act (d_limits_ctr o) (<[l := x <| l_count := l_count x + 1 |>]> (limits o)) o else o' = o.
Proof.
  intros Hinv Hx; pose proof Hinv as (_ & _ & _ & (Hcnt & Hc)%limits_counted & _); pose proof Hcnt as (Hnd & Hin & Hpos); specialize (Hpos l x Hx).
  unfold BReactorLimit_Increment; rewrite Z.ltb_antisym; destruct (l_limit x <=? l_count x) eqn:Hle; cbn [negb].
  { exists o; split; [pstep_by ltac:(apply get_limit_eq, Hx); rewrite Hle; done | done]. }
  set (x' := x <| l_count := l_count x + 1 |>); assert (x <| l_count ::= Z.add 1 |> = x') as Ex by (unfold x'; destruct x as [a b]; cbn; unfold update; cbn; f_equal; lia).
  set (act := if l_count x' =? 1 then active_limits_list o ++ [l] else active_limits_list o).
  assert (l ∈ active_limits_list o <-> 0 < l_count x) as Hlin by (rewrite Hin; split; [intros (y & Hy & Hlt); congruence | intros; exists x; done]).
  exists (with_limits act (d_limits_ctr o) (<[l := x']> (limits o)) o); split; [|split; [|exists act; done]].
  - pstep_by ltac:(apply get_limit_eq, Hx); rewrite Hle; pstep_by ltac:(eapply mod_limit_eq, Hx); rewrite Ex.
    pstep_by ltac:(apply get_limit_eq; apply lookup_insert_eq); unfold act; destruct (l_count x' =? 1); pstep; destruct o; done.
  - apply inv_limits; [exact Hinv|]; apply limits_counted; split; [|rewrite map_size_insert_Some by (exists x; exact Hx); exact Hc].
    assert (l_count x' = l_count x + 1) as Ec by done; unfold act; rewrite Ec; destruct (Z.eqb_spec (l_count x + 1) 1) as [H1|H1].
    + apply (counted_change (active_limits_list o)); [exact Hcnt | apply NoDup_snoc; [exact Hnd | rewrite Hlin; lia] | | | lia].
      * intros k Hk; rewrite elem_of_app, list_elem_of_singleton; naive_solver.
      * rewrite elem_of_app, list_elem_of_singleton; split; [lia | auto].
    + apply (counted_change (active_limits_list o)); [exact Hcnt | exact Hnd | done | rewrite Hlin; lia | lia].
Qed.
Lemma set_limit_ok l lim x o clock : inv o clock -> limits o !! l = Some x -> 0 < lim ->
  BReactorLimit_SetLimit l lim o = Ok (tt, with_limits (active_limits_list o) (d_limits_ctr o) (<[l := x <| l_limit := lim |>]> (limits o)) o, []) /\
  inv (with_limits (active_limits_list o) (d_limits_ctr o) (<[l := x <| l_limit := lim |>]> (limits o)) o) clock.
Proof.
  intros Hinv Hx Hlim; pose proof Hinv as (_ & _ & _ & (Hcnt & Hc)%limits_counted & _); split.
  - unfold BReactorLimit_SetLimit; pstep_by ltac:(apply passert_ok; lia); etransitivity; [eapply mod_limit_eq, Hx|]; destruct o; done.
  - apply inv_limits; [exact Hinv|]; apply limits_counted; split; [|rewrite map_size_insert_Some by (exists x; exact Hx); exact Hc].
    pose proof Hcnt as (Hnd & Hin & Hpos); apply (counted_change (active_limits_list o)); [exact Hcnt | exact Hnd | done | | exact (Hpos l x Hx)].
    rewrite Hin; split; [intros (y & Hy & Hlt); rewrite Hx in Hy; injection Hy as <-; exact Hlt | intros; exists x; done].
Qed.

(** * What the reactor promises *)

(** What an event does to the list of expired timers, turns apart. *)
Definition drops (e : @event Hd Us) o o' : Prop :=
  match e with
  | ETurn _ _ => True
  | ESetTimer bt _ _ _ | ESetDefault bt _ | ERemoveTimer bt => timers_expired_list o' = remove_node bt (timers_expired_list o)
  | _ => timers_expired_list o' = timers_expired_list o
  end.
Definition went_well (e : @event Hd Us) o (clock : Z) : Prop :=
  exists b o' ks, handle e o = Ok (b, o', ks) /\ inv o' (tick e clock) /\ drops e o o'.
Lemma with_true (p : @rp T Hd Us unit) o o' ks : p o = Ok (tt, o', ks) -> (p;; mret true) o = Ok (true, o', ks).
Proof. intros Hp; etransitivity; [eapply pbind_calls; [exact Hp | reflexivity]|]; rewrite app_nil_r; done. Qed.

Lemma timer_events_ok e o clock : inv o clock -> enabled e o clock ->
  match e with ESmallTimerInit _ | ETimerInit _ _ | ESetTimer _ _ _ _ | ESetDefault _ _ | ERemoveTimer _ => True | _ => False end -> went_well e o clock.
Proof.
  intros Hinv Hen He; pose proof Hinv as (Ht & Hr & Hf & Hl & Hj & Hc); pose proof Ht as (_ & _ & Hrun & Hexp & _).
  assert (forall bt t, ~ is_running (timers o) bt -> ~ is_expired (timers o) bt -> t_state t = TIMER_STATE_INACTIVE ->
    inv (o <| timers ::= <[bt := t]> |>) clock) as Hinit.
  { intros bt t H1 H2 Hs; split; [|done]; apply timers_idle; [exact Ht | rewrite Hrun; done | rewrite Hexp; done | exact Hs]. }
  assert (forall bt t mode time now, timers o !! bt = Some t -> mode = BTIMER_SET_ABSOLUTE \/ mode = BTIMER_SET_RELATIVE -> is_int64 time -> clock <= now <= INT64_MAX ->
    exists o', BReactor_SetSmallTimer bt mode time now o = Ok (tt, o', []) /\ inv o' now /\ timers_expired_list o' = remove_node bt (timers_expired_list o)) as Hset.
  { intros bt t mode time now Htm Hm Hti Hn; destruct (set_timer_ok o clock bt t mode time now Ht Htm Hm Hti) as (tr & Hs & Hok & _); [unfold is_int64, INT64_MIN; lia|].
    eexists; split; [exact Hs|]; split; [|done]; split; [apply (timers_later _ _ _ clock); [exact Hok | lia]|]; do 4 (split; [done|]); lia. }
  destruct e as [| | | |bt|bt ms|bt mode time now|bt now|bt| | | | | | | |]; try done; cbn [enabled] in Hen.
  - destruct Hen as [H1 H2]; eexists true, _, []; split; [apply with_true; reflexivity|]; split; [apply Hinit; done | done].
  - destruct Hen as [H1 H2]; eexists true, _, []; split; [apply with_true; reflexivity|]; split; [apply Hinit; done | done].
  - destruct Hen as ([t Htm] & Hti & Hn & Hm); destruct (Hset bt t mode time now Htm Hm Hti Hn) as (o' & Hs & Hi & Hx).
    exists true, o', []; split; [apply with_true; exact Hs | done].
  - destruct Hen as ((t & Htm & Hms) & Hn); destruct (Hset bt t BTIMER_SET_RELATIVE (t_msTime t) now Htm ltac:(right; done) Hms Hn) as (o' & Hs & Hi & Hx).
    exists true, o', []; split; [apply with_true; unfold BReactor_SetTimer; timer_step Htm; exact Hs | done].
  - destruct Hen as [t Htm]; destruct (remove_timer_ok o clock bt t Ht Htm) as (tr & ex & Hs & Hok & _ & ->).
    eexists true, _, []; split; [apply with_true; exact Hs|]; split; [|done]; split; [exact Hok|]; done.
Qed.
Lemma fd_events_ok e o clock : inv o clock -> enabled e o clock ->
  match e with EFdInit _ _ | EAddFd _ _ | ERemoveFd _ | ESetEvents _ _ => True | _ => False end -> went_well e o clock.
Proof.
  intros Hinv Hen He; destruct e as [| | | | | | | | |bs n|bs ok|bs|bs ev| | | |]; try done; cbn [enabled] in Hen.
  - destruct (fd_init_kept bs n o clock Hinv Hen) as (b & o' & ks & Hh & Hi); exists b, o', ks; split; [exact Hh|]; split; [exact Hi|].
    unfold handle in Hh; rewrite (with_true _ o _ [] eq_refl) in Hh; injection Hh as _ <- _; done.
  - destruct Hen as [[b Hb] Hn]; destruct (add_fd_ok bs ok o clock b Hinv Hb (not_active _ _ _ Hn Hb)) as (o' & Hh & Hi & Ho); eexists _, o', _; split; [exact Hh|].
    split; [exact Hi|]; destruct ok; [destruct Ho as [n ->] | subst]; done.
  - destruct Hen as (b & Hb & Ha); destruct (remove_fd_ok bs o clock b Hinv Hb Ha) as (n & Hh & Hi); eexists true, _, _; split; [apply with_true; exact Hh|]; done.
  - destruct Hen as ((b & Hb & Ha) & Hm); destruct (set_events_ok bs ev o clock b Hinv Hb Ha Hm) as (ks & Hh & Hi); eexists true, _, ks; split; [apply with_true; exact Hh|]; done.
Qed.
Lemma limit_events_ok e o clock : inv o clock -> enabled e o clock ->
  match e with ELimitInit _ _ | ELimitFree _ | EIncrement _ | ESetLimit _ _ => True | _ => False end -> went_well e o clock.
Proof.
  intros Hinv Hen He; destruct e as [| | | | | | | | | | | | |l lim|l|l|l lim]; try done; cbn [enabled] in Hen.
  - destruct Hen as [Hl Hp]; destruct (limit_init_ok l lim o clock Hinv Hl Hp) as (n & Hh & Hi); eexists true, _, []; split; [apply with_true; exact Hh|]; done.
  - destruct (limit_free_ok l o clock Hinv Hen) as (n & act & Hh & Hi); eexists true, _, []; split; [apply with_true; exact Hh|]; done.
  - destruct Hen as [x Hx]; destruct (increment_ok l x o clock Hinv Hx) as (o' & Hh & Hi & Ho); eexists _, o', []; split; [exact Hh|]; split; [exact Hi|].
    destruct (_ <? _); [destruct Ho as [act ->] | subst]; done.
  - destruct Hen as [[x Hx] Hp]; destruct (set_limit_ok l lim x o clock Hinv Hx Hp) as (Hh & Hi); eexists true, _, []; split; [apply with_true; exact Hh|]; done.
Qed.
Lemma kept_expired e o clock (p : @rp T Hd Us bool) : handle e o = p o -> (forall b o' ks, p o = Ok (b, o', ks) -> timers_expired_list o' = timers_expired_list o) ->
  (forall o', timers_expired_list o' = timers_expired_list o -> drops e o o') -> kept e o clock -> went_well e o clock.
Proof. intros He Hp Hd' (b & o' & ks & Hh & Hi); exists b, o', ks; split; [exact Hh|]; split; [exact Hi|]; apply Hd'; rewrite He in Hh; eauto. Qed.

Lemma on_jobs_expired op o o' ks : on_jobs op o = Ok (tt, o', ks) -> timers_expired_list o' = timers_expired_list o.
Proof. unfold on_jobs; destruct (spec_step op (pending_jobs o)) as [[p rs]|]; [|done]; intros [= <- _]; destruct o; done. Qed.
Lemma event_ok e o clock : inv o clock -> enabled e o clock -> went_well e o clock.
Proof.
  intros Hinv Hen; destruct e as [now ws|ref|code|op| | | | | | | | | | | | |];
    try (apply timer_events_ok; done); try (apply fd_events_ok; done); try (apply limit_events_ok; done).
  - destruct (turn_ok now ws o clock Hinv Hen) as (o' & ks & Hh & _ & Hi); exists true, o', ks; done.
  - destruct (synchronize_kept ref o clock Hinv (proj2 Hen)) as (b & o' & ks & Hh & Hi); exists b, o', ks; split; [exact Hh|]; split; [exact Hi|].
    cbn [drops handle] in *; unfold BReactor_Synchronize_turn in Hh.
    assert ((if bool_decide (head (stack (pending_jobs o)) = Some ref) then mret true else on_jobs OpExecute;; mret false) o = Ok (b, o', ks)) as Hh'.
    { rewrite <- Hh; symmetry; pstep; pstep_by ltac:(apply passert_ok, (proj2 Hen)); done. }
    destruct (bool_decide _); [injection Hh' as _ <- _; done|].
    unfold mbind, prog_bind in Hh'; destruct (on_jobs OpExecute o) as [[[[] o1] k1]|] eqn:Hj; [|done]; injection Hh' as _ <- _; eapply on_jobs_expired, Hj.
  - exists true, (o <| exiting := true |> <| exit_code := code |>), []; done.
  - destruct (job_kept op o clock Hinv Hen) as (b & o' & ks & Hh & Hi); exists b, o', ks; split; [exact Hh|]; split; [exact Hi|].
    cbn [drops handle] in *; unfold mbind, prog_bind in Hh; destruct (on_jobs op o) as [[[[] o1] k1]|] eqn:Hj; [|done]; injection Hh as _ <- _; eapply on_jobs_expired, Hj.
Qed.

Lemma reactor_init_eq o : BReactor_Init true o = Ok (true, mk_reactor false (exit_code o) (mk_spec [] ∅) ot_empty [] [] (epoll_results o) 0 0 0 0 (timers o) (fds o) (limits o), []).
Proof. destruct o; done. Qed.
Lemma reactor_inv o clock : reachable o clock -> inv o clock.
Proof.
  intros (o0 & o1 & ks & (Hts & Hfs & Hls & HL) & Hi & Hstar).
  assert (inv o1 0) as H1.
  { rewrite reactor_init_eq in Hi; injection Hi as <- _; unfold inv; cbn [timers_tree timers_expired_list timers epoll_results epoll_results_num epoll_results_pos
      fds d_fds_counter active_limits_list d_limits_ctr limits pending_jobs]; rewrite Hts, Hfs, Hls; split; [|split; [|split; [|split; [|split]]]].
    - assert (forall bt s, ~ exists t, (∅ : gmap Z timer) !! bt = Some t /\ t_state t = s) as Hno by (intros bt s (t & Ht & _); done).
      unfold timers_ok; rewrite ot_empty_elements; do 2 (split; [constructor|]); split; [|split; [|split; [constructor|split]]];
        intros bt; try split; intros Hx; try (inversion Hx; fail); destruct (Hno _ _ Hx).
    - split; [exact HL|]; do 2 (split; [done|]); intros bs i; split; [intros (b & Hb & _); done | intros [Hx _]; lia].
    - split; [|intros bs b Hb; done]; exists []; split; [constructor|]; split; [|split; [done | right; done]].
      intros bs; split; [intros Hx; inversion Hx | intros (b & Hb & _); done].
    - split; [constructor|]; split; [|split; [intros l x Hx; done | split; [done | right; done]]].
      intros l; split; [intros Hx; inversion Hx | intros (x & Hx & _); done].
    - split; [constructor|]; intros j Hj; inversion Hj.
    - done. }
  apply (star_invariant step (fun x => inv x.1 x.2)) in Hstar; [exact Hstar | | exact H1].
  intros a b Ha Hst; destruct Hst as [e o2 clock2 b2 o2' ks2 Hen He]; cbn [fst snd] in *; destruct (event_ok e o2 clock2 Ha Hen) as (b' & o' & ks' & He' & Hinv & _).
  rewrite He' in He; injection He as _ <- _; exact Hinv.
Qed.

(** The events of a report: what is wanted of reading and writing, errors and hang-ups at any rate. *)
Lemma events_of_wanted wait ev : (has_bit (events_of wait ev) BREACTOR_READ = true -> has_bit wait BREACTOR_READ = true /\ has_bit ev EPOLLIN = true) /\
  (has_bit (events_of wait ev) BREACTOR_WRITE = true -> has_bit wait BREACTOR_WRITE = true /\ has_bit ev EPOLLOUT = true).
Proof.
  unfold events_of; destruct (has_bit wait BREACTOR_READ && has_bit ev EPOLLIN) eqn:E1, (has_bit wait BREACTOR_WRITE && has_bit ev EPOLLOUT) eqn:E2,
    (has_bit ev EPOLLERR), (has_bit ev EPOLLHUP); rewrite ?andb_true_iff in *; split; intros Hx; try exact E1; try exact E2; vm_compute in Hx; discriminate Hx.
Qed.

Lemma reach_step o clock e b o' ks : reachable o clock -> enabled e o clock -> handle e o = Ok (b, o', ks) -> reachable o' (tick e clock).
Proof.
  intros (o0 & o1 & k & Hm & Hi & Hs) Hen He; exists o0, o1, k; split; [exact Hm|]; split; [exact Hi|].
  eapply star_step; [exact Hs | econstructor; [exact Hen | exact He]].
Qed.


(** C8: Each turn of the loop does the first of these that there is to do: run the job on top of
    the stack; call the handler of the timer that expired first, whose time has come; report the
    next result, to a descriptor that is still registered, events that are wanted of it, and
    nothing when the descriptor is gone; else wait, and then all jobs, timers and results are
    done. A wait ends with new results or with the timers in order that are due, and all counts
    of limits are reset unless timers were due before it. *)
Theorem BReactor_turn o clock now ws : reachable o clock -> enabled (ETurn now ws) o clock -> exists o' ks,
  handle (ETurn now ws) o = Ok (true, o', ks) /\ turned now ws o o' ks /\
  (forall bs ev, FdHandler bs ev ∈ ks -> ev <> 0 /\ exists b, fds o !! bs = Some b /\ active b = true /\
     (has_bit ev BREACTOR_READ = true -> has_bit (waitEvents b) BREACTOR_READ = true) /\
     (has_bit ev BREACTOR_WRITE = true -> has_bit (waitEvents b) BREACTOR_WRITE = true)).
Proof.
  intros Hr Hen; destruct (turn_ok now ws o clock (reactor_inv o clock Hr) Hen) as (o' & ks & He & Ht & _).
  exists o', ks; split; [exact He|]; split; [exact Ht|]; intros bs ev Hin; destruct Ht as [j l h u _ _|bt l t _ _ _ _| | o' e bs' b _ _ _ _ _ Hb Ha _ | |o1 w ks _ _ _ _ _ Hto _];
    try (apply elem_of_cons in Hin as [Hin|Hin]; [discriminate Hin | inversion Hin]); try (inversion Hin; fail).
  - cbv zeta in Hin; destruct (events_of (waitEvents b) (ev_events e) =? 0) eqn:Hz; [inversion Hin|]; apply list_elem_of_singleton in Hin; injection Hin as -> ->.
    split; [lia|]; exists b; split; [exact Hb|]; split; [exact Ha|]; destruct (events_of_wanted (waitEvents b) (ev_events e)) as [H1 H2]; split; [apply H1 | apply H2].
  - unfold timeouts_ok in Hto; rewrite Forall_forall in Hto; destruct (Hto _ Hin) as (t & Ht & _); discriminate Ht.
Qed.

(** ** No timer is forgotten *)

Definition touches (bt : Z) (e : @event Hd Us) : bool :=
  match e with ESetTimer x _ _ _ | ESetDefault x _ | ERemoveTimer x => x =? bt | _ => false end.
(** The turns that find no job. *)
Definition free_turn (e : @event Hd Us) o : bool := match e with ETurn _ _ => negb (has_jobs o) | _ => false end.
Inductive runs : list (@event Hd Us) -> reactor T Hd Us -> Z -> list (@rcall Hd Us) -> nat -> reactor T Hd Us -> Z -> Prop :=
| runs_nil o clock : runs [] o clock [] 0 o clock
| runs_cons e es o clock b o1 ks kss n o2 clock2 : enabled e o clock -> handle e o = Ok (b, o1, ks) ->
    runs es o1 (tick e clock) kss n o2 clock2 ->
    runs (e :: es) o clock (ks ++ kss) (if free_turn e o then S n else n) o2 clock2.

Lemma remove_node_split (x y : Z) (l1 l2 : list Z) : x <> y -> exists l1' l2', remove_node x (l1 ++ y :: l2) = l1' ++ y :: l2' /\ (length l1' <= length l1)%nat.
Proof.
  intros Hn; exists (remove_node x l1), (remove_node x l2); unfold remove_node; rewrite List.filter_app; cbn [List.filter].
  rewrite (proj2 (Z.eqb_neq y x)) by congruence; split; [done|]; apply List.filter_length_le.
Qed.
(** A timer that has expired moves up the list with every turn that finds no job. *)
Lemma expired_moves e o clock b o1 ks bt l1 l2 : inv o clock -> enabled e o clock -> handle e o = Ok (b, o1, ks) -> touches bt e = false ->
  timers_expired_list o = l1 ++ bt :: l2 ->
  (exists small, TimerHandler bt small ∈ ks) \/
  (exists l1' l2', timers_expired_list o1 = l1' ++ bt :: l2' /\ (length l1' + (if free_turn e o then 1 else 0) <= length l1)%nat).
Proof.
  intros Hinv Hen He Ht Hl; destruct e as [now ws|ref|code|op|x|x ms|x mode time now|x now|x|bs n|bs ok|bs|bs ev|l lim|l|l|l lim];
    try (match goal with |- context [free_turn ?ev o] => destruct (event_ok ev o clock Hinv Hen) as (b' & o' & ks' & He' & _ & Hdrop) end;
      rewrite He' in He; injection He as _ <- _; cbn [drops free_turn touches] in *; right;
      first [ rewrite Hdrop, Hl; exists l1, l2; split; [done | lia]
            | rewrite Hdrop, Hl; apply Z.eqb_neq in Ht; destruct (remove_node_split x bt l1 l2 Ht) as (l1' & l2' & Hrm & Hlen);
              exists l1', l2'; split; [exact Hrm | lia] ]).
  destruct (turn_ok now ws o clock Hinv Hen) as (o' & ks' & He' & Hturn & _); rewrite He' in He; injection He as _ <- <-; cbn [free_turn].
  assert (forall i, timers_expired_list o = i -> i <> [] -> idle o = false) as Hni.
  { intros i Hi Hne; unfold idle; rewrite Hi, (bool_decide_eq_false_2 _ Hne), andb_false_r; done. }
  assert (timers_expired_list o <> []) as Hne by (rewrite Hl; destruct l1; done).
  destruct Hturn as [j l h u Hst _|bt' l t Hst Hex _ _|o' e Hst Hex|o' e bs b0 Hst Hex|o' l Hid _|o2 w ks Hid _]; try congruence.
  - right; exists l1, l2; split; [exact Hl|]; assert (has_jobs o = true) as -> by (apply has_jobs_eq; rewrite Hst; done); cbn [negb]; lia.
  - assert (has_jobs o = false) as -> by (unfold has_jobs; rewrite Hst; done); cbn [negb]; rewrite Hl in Hex; destruct l1 as [|y l1]; cbn [app] in Hex; injection Hex as <- <-.
    + left; eexists; left.
    + right; exists l1, l2; split; [done | cbn; lia].
  - rewrite (Hni _ eq_refl Hne) in Hid; done.
  - rewrite (Hni _ eq_refl Hne) in Hid; done.
Qed.

Lemma idle_inv o : idle o = true -> stack (pending_jobs o) = [] /\ timers_expired_list o = [] /\ epoll_results_pos o = epoll_results_num o.
Proof.
  intros ((Hj%negb_true_iff & He%bool_decide_eq_true)%andb_true_iff & Hp)%andb_true_iff; split_and!; [|exact He | lia].
  unfold has_jobs in Hj; destruct (stack (pending_jobs o)); done.
Qed.
Lemma waited_all now ws o clock o' ks : inv o clock -> enabled (ETurn now ws) o clock -> idle o = true ->
  handle (ETurn now ws) o = Ok (true, o', ks) -> forall bt, is_running (timers o') bt -> now < abs_of (timers o') bt.
Proof.
  intros Hinv Hen Hid He bt Hb; destruct (turn_ok now ws o clock Hinv Hen) as (o2 & ks2 & He2 & Hturn & Hinv'); rewrite He2 in He; injection He as <- <-.
  pose proof Hinv' as ((_ & _ & Hrun' & _) & _); apply Hrun' in Hb.
  destruct (idle_inv o Hid) as (Hst & Hexp & Hpos).
  destruct Hturn as [j l h u Hst' _|bt' l t _ Hex _ _|o' e _ _ Hlt|o' e bs b0 _ _ Hlt|o' l _ _ _ _ _ H2|o1 w ks _ Hdue _ _ _ _ Hwo]; try congruence; try lia.
  - apply H2, Hb.
  - assert (forall x, x ∈ ot_elements (timers_tree o) -> now < abs_of (timers o) x) as Hall.
    { intros x Hx; destruct (ot_first (timers_tree o)) as [f|] eqn:Hf; [|rewrite ot_first_head in Hf; destruct (ot_elements (timers_tree o)); [inversion Hx | discriminate Hf]].
      destruct (first_running o clock f (proj1 Hinv) Hf) as (t & l & _ & _ & El & Hn & _ & Hle).
      unfold due in Hdue; rewrite Hn in Hdue; rewrite El in Hx; specialize (Hle x Hx); lia. }
    destruct Hwo as [(evs & l & _ & _ & _ & _ & _ & ->)|(l & _ & (tr & ts & -> & El & Ha) & _)]; [apply Hall, Hb|].
    cbn [timers_tree timers with_limits with_timers] in *; rewrite Ha; apply (Hall bt); change (timers_tree (drained o)) with (timers_tree o) in El.
    rewrite El, elem_of_app; right; exact Hb.
Qed.

Lemma runs_timely es o clock ks n o' clock' : runs es o clock ks n o' clock' -> inv o clock -> forall bt l1 l2,
  timers_expired_list o = l1 ++ bt :: l2 -> forallb (fun e => negb (touches bt e)) es = true -> (length l1 < n)%nat ->
  exists small, TimerHandler bt small ∈ ks.
Proof.
  induction 1 as [o clock|e es o clock b o1 ks kss n o2 clock2 Hen He Hruns IH]; intros Hinv bt l1 l2 Hl Ht Hn; [lia|].
  cbn [forallb] in Ht; apply andb_true_iff in Ht as [Ht%negb_true_iff Hts].
  destruct (expired_moves _ _ _ _ _ _ bt l1 l2 Hinv Hen He Ht Hl) as [[sm Hs]|(l1' & l2' & Hl' & Hlen)].
  - exists sm; apply elem_of_app; left; exact Hs.
  - destruct (event_ok e o clock Hinv Hen) as (b' & o1' & ks' & He' & Hinv1 & _); rewrite He' in He; injection He as _ <- _.
    destruct (IH Hinv1 bt l1' l2' Hl' Hts) as [sm Hs]; [destruct (free_turn e o); lia | exists sm; apply elem_of_app; right; exact Hs].
Qed.

(** C7: No timer is forgotten or early: a wait that begins at a time leaves no timer running that
    is due by then, but on the list of the expired; from its place there the handler of a timer
    is called after as many turns that find no job as timers stand before it, and one, whatever
    else happens, unless its user sets or removes it; and only timers whose time has come are
    on the list. *)
Theorem BReactor_timely o clock : reachable o clock ->
  (forall now ws o' ks, enabled (ETurn now ws) o clock -> idle o = true -> handle (ETurn now ws) o = Ok (true, o', ks) ->
     forall bt, is_running (timers o') bt -> now < abs_of (timers o') bt) /\
  (forall es ks n o' clock' bt l1 l2, runs es o clock ks n o' clock' -> timers_expired_list o = l1 ++ bt :: l2 ->
     forallb (fun e => negb (touches bt e)) es = true -> (length l1 < n)%nat -> exists small, TimerHandler bt small ∈ ks) /\
  (forall bt, bt ∈ timers_expired_list o <-> is_expired (timers o) bt) /\
  (forall bt, bt ∈ timers_expired_list o -> abs_of (timers o) bt <= clock).
Proof.
  intros Hr; pose proof (reactor_inv o clock Hr) as Hinv; split; [|split].
  - intros now ws o' ks Hen Hid He; exact (waited_all now ws o clock o' ks Hinv Hen Hid He).
  - intros es ks n o' clock' bt l1 l2 Hruns Hl Ht Hn; exact (runs_timely _ _ _ _ _ _ _ Hruns Hinv bt l1 l2 Hl Ht Hn).
  - destruct Hinv as ((_ & _ & _ & Hexp & _ & _ & Hcl) & _); split; [exact Hexp | exact Hcl].
Qed.

(** ** No wait is endless *)

Definition clock_at (now : Z) (f : nat -> wake) (n : nat) : Z := match n with O => now | S n => w_now (f n) end.
Lemma clock_at_shift now f n : clock_at (w_now (f 0%nat)) (fun k => f (S k)) n = clock_at now f (S n).
Proof. destruct n; reflexivity. Qed.
Lemma stream_stops N fs timeout now (f : nat -> wake) :
  (forall n, clock_at now f n <= w_now (f n) <= INT64_MAX /\ answer_ok fs timeout (clock_at now f n) (f n)) ->
  stops timeout (clock_at now f N) (f N) = true -> exists n, wakes_ok fs timeout now (map f (seq 0 n)).
Proof.
  revert now f; induction N as [|N IH]; intros now f Hall Hst; destruct (Hall 0%nat) as [Hc Ha]; cbn [clock_at] in Hc, Ha.
  - exists 1%nat; cbn [seq map wakes_ok]; cbn [clock_at] in Hst; rewrite Hst; done.
  - destruct (stops timeout now (f 0%nat)) eqn:H1; [exists 1%nat; cbn [seq map wakes_ok]; rewrite H1; done|].
    destruct (IH (w_now (f 0%nat)) (fun k => f (S k))) as [n Hn].
    + intros n; rewrite (clock_at_shift now); apply (Hall (S n)).
    + rewrite (clock_at_shift now); exact Hst.
    + exists (S n); cbn [seq map wakes_ok]; rewrite H1; split; [exact Hc|]; split; [exact Ha|].
      rewrite <- seq_shift, map_map; exact Hn.
Qed.

(** C26: A wait ends: when the answers of epoll_wait go on for ever, interruptions and timeouts that
    were cut to what fits an [int] among them, but one has events or the clock reaches the time of
    the first timer at one, then after finitely many of them the turn of the loop is over. *)
Theorem BReactor_waits o clock now (f : nat -> wake) : reachable o clock -> exiting o = false -> idle o = true -> due o now = false ->
  clock <= now <= INT64_MAX ->
  (forall n, clock_at now f n <= w_now (f n) <= INT64_MAX /\ answer_ok (fds o) (next_timeout o) (clock_at now f n) (f n)) ->
  (exists n, (exists e evs, w_events (f n) = Some (e :: evs)) \/ (exists a, next_timeout o = Some a /\ a <= w_now (f n))) ->
  exists n o' ks, handle (ETurn now (map f (seq 0 n))) o = Ok (true, o', ks) /\ length ks = n.
Proof.
  intros Hr Hex Hid Hdue Hnow Hall (N & Hprog).
  assert (stops (next_timeout o) (clock_at now f N) (f N) = true) as Hst.
  { unfold stops; destruct Hprog as [(e & evs & ->)|(a & -> & Hle)]; [destruct (next_timeout o); done|].
    rewrite (proj2 (Z.leb_le _ _) Hle), orb_true_r; destruct (w_events (f N)) as [[|]|]; done. }
  destruct (stream_stops N _ _ _ _ Hall Hst) as [n Hn].
  assert (enabled (ETurn now (map f (seq 0 n))) o clock) as Hen by (split; [exact Hex|]; split; [exact Hnow|]; rewrite Hid, Hdue; exact Hn).
  pose proof (reactor_inv o clock Hr) as Hinv; destruct (turn_ok now _ o clock Hinv Hen) as (o' & ks & He & Hturn & _).
  destruct (idle_inv o Hid) as (Hst' & Hexp & Hpos).
  exists n, o', ks; split; [exact He|].
  destruct Hturn as [j l h u Hj _|bt' l t _ Hx _ _|o' e _ _ Hlt|o' e bs b0 _ _ Hlt|o' l _ Hd'|o1 w ks _ _ _ _ HL]; try congruence; try lia.
  rewrite HL, length_map, length_seq; done.
Qed.
End proofs.

(** * A reactor at work *)

Section example.
Let R : Type := reactor avl_tree nat nat.
Definition memory0 : reactor avl_tree nat nat :=
  mk_reactor false 0 (mk_spec [] ∅) ot_empty [] [] (replicate 64 (mk_event 0 None)) 0 0 0 0 ∅ ∅ ∅.
Definition after (e : event) (o : R) : R := match handle e o with Ok (_, o', _) => o' | Err _ => o end.
Lemma reach_after e (o : R) clock : reachable o clock -> enabled e o clock -> reachable (after e o) (tick e clock).
Proof.
  intros Hr Hen; destruct (event_ok e o clock (reactor_inv o clock Hr) Hen) as (b & o' & ks & He & _).
  unfold after; rewrite He; exact (reach_step _ _ _ _ _ _ Hr Hen He).
Qed.

(** Two timers and a descriptor watched for reading; the descriptor is reported at time 20, and
    both timers are due when the loop comes to wait the second time. *)
Definition users : list (@event nat nat) :=
  [EFdInit 5 7; EAddFd 5 true; ESetEvents 5 BREACTOR_READ; ELimitInit 3 2; EIncrement 3;
   ESmallTimerInit 9; ETimerInit 8 40; ESetTimer 9 BTIMER_SET_RELATIVE 100 0; ESetDefault 8 0].
Definition report : wake := mk_wake (Some [mk_event EPOLLIN (Some 5)]) 20.
Fixpoint upto (n : nat) : R :=
  match n with O => match BReactor_Init true memory0 with Ok (_, o, _) => o | Err _ => memory0 end | S n => after (nth n users (EQuit 0)) (upto n) end.
Definition set_up : R := Eval vm_compute in upto 9.
Ltac inactive := let Hx := fresh in intros (? & Hx & ?); vm_compute in Hx; first [discriminate Hx | injection Hx as <-; discriminate].
Lemma set_up_reachable : reachable set_up 0.
Proof.
  assert (reachable (upto 0) 0) as H0.
  { exists memory0, (upto 0), []; split; [split_and!; reflexivity|]; split; [reflexivity | constructor]. }
  apply (reach_after (EFdInit 5 7)) in H0; [|cbn [enabled]; inactive].
  apply (reach_after (EAddFd 5 true)) in H0; [|split; [vm_compute; eauto | inactive]].
  apply (reach_after (ESetEvents 5 BREACTOR_READ)) in H0; [|split; [eexists; split; vm_compute; reflexivity | reflexivity]].
  apply (reach_after (ELimitInit 3 2)) in H0; [|split; reflexivity].
  apply (reach_after (EIncrement 3)) in H0; [|vm_compute; eauto].
  apply (reach_after (ESmallTimerInit 9)) in H0; [|split; inactive].
  apply (reach_after (ETimerInit 8 40)) in H0; [|split; inactive].
  apply (reach_after (ESetTimer 9 BTIMER_SET_RELATIVE 100 0)) in H0; [|split; [vm_compute; eauto|]; split; [done|]; split; [done | right; done]].
  apply (reach_after (ESetDefault 8 0)) in H0; [|split; [eexists; split; [vm_compute; reflexivity | done] | done]].
  exact H0.
Qed.
Lemma first_wait : enabled (ETurn 10 [report]) set_up 0.
Proof.
  split; [reflexivity|]; split; [split; done|]; change (wakes_ok (fds set_up) (Some 40) 10 [report]); cbn [wakes_ok]; split; [split; done|]; split; [|done].
  split; [done|]; exists [5]; split; [reflexivity|]; split; [apply NoDup_singleton|]; intros bs Hb; apply list_elem_of_singleton in Hb as ->.
  eexists; split; vm_compute; reflexivity.
Qed.
Definition reported : R := Eval vm_compute in after (ETurn 10 [report]) set_up.
Lemma reported_reachable : reachable reported 20.
Proof. exact (reach_after _ _ _ set_up_reachable first_wait). Qed.
(** The report is dispatched, then the wait finds both timers due. *)
Definition expired : R := Eval vm_compute in after (ETurn 200 []) (after (ETurn 30 []) reported).
Lemma expired_reachable : reachable expired 200.
Proof.
  pose proof (reach_after (ETurn 30 []) _ _ reported_reachable ltac:(split; [reflexivity|]; split; [split; done | reflexivity])) as H1.
  exact (reach_after (ETurn 200 []) _ _ H1 ltac:(split; [reflexivity|]; split; [split; done | reflexivity])).
Qed.

Lemma BReactor_turn_witness : exists o' ks, handle (ETurn 30 []) reported = Ok (true, o', ks) /\ turned 30 [] reported o' ks.
Proof.
  destruct (BReactor_turn reported 20 30 [] reported_reachable) as (o' & ks & He & Ht & _);
    [split; [reflexivity|]; split; [split; done | reflexivity] | exists o', ks; split; [exact He | exact Ht]].
Defined.
(** Timer 9 stands behind timer 8, so two turns are enough. *)
Lemma BReactor_timely_witness : timers_expired_list expired = [8; 9] /\
  exists ks n o' clock', runs [ETurn 200 []; ETurn 201 []] expired 200 ks n o' clock' /\ exists small, TimerHandler 9 small ∈ ks.
Proof.
  split; [reflexivity|].
  assert (exists ks n o' clock', runs [ETurn 200 []; ETurn 201 []] expired 200 ks n o' clock' /\ n = 2%nat) as (ks & n & o' & clock' & Hr & Hn).
  { eexists _, _, _, _; split; [refine (runs_cons _ _ _ _ true _ _ _ _ _ _ _ _ (runs_cons _ _ _ _ true _ _ _ _ _ _ _ _ (runs_nil _ _)));
      try (vm_compute; reflexivity); (split; [reflexivity|]; split; [split; done | reflexivity])|]; vm_compute; reflexivity. }
  exists ks, n, o', clock'; split; [exact Hr|]; destruct (BReactor_timely expired 200 expired_reachable) as (_ & Ht & _).
  refine (Ht _ _ _ _ _ 9 [8] [] Hr eq_refl eq_refl _); rewrite Hn; cbn; lia.
Defined.
(** Interrupted for ever, the wait still ends when the clock reaches the first timer. *)
Lemma BReactor_waits_witness : exists n o' ks, handle (ETurn 10 (map (fun k => mk_wake None (11 + 10 * Z.of_nat (k `min` 5))) (seq 0 n))) set_up = Ok (true, o', ks) /\ length ks = n.
Proof.
  apply (BReactor_waits set_up 0 10 _ set_up_reachable); try reflexivity; [split; done | |].
  - intros n; split; [|exact I]; cbn [w_now]; unfold clock_at, INT64_MAX; destruct n as [|n]; cbn [w_now]; lia.
  - exists 5%nat; right; exists 40; split; [reflexivity | done].
Defined.
End example.
