(* ===== verification/ReactorViews.v ===== *)
(** What the users of the reactor of ReactorLoop.v see of it: a descriptor, a limit, a timer. The
    events of others leave them, the calls of the user change them as they say, and the reactor
    reports to a descriptor what was wanted of it and calls the handler of a timer that was set. *)

From S2P Require Import Prelude MiscArith LinkedLists Pending OrderedTree BReactor BAVL BAVLRefines ReactorLoop.

(** * Frames of the reactor's functions *)

Section getters.
Context {T Hd Us : Type}.
Implicit Types (R : relation (reactor T Hd Us)) (P : rcall Hd Us -> Prop).

Lemma frames_getters R P `{!PreOrder R} x : frames R P (@get_timer T Hd Us x) /\ frames R P (@get_fd T Hd Us x) /\ frames R P (@get_limit T Hd Us x).
Proof.
  unfold get_timer, get_fd, get_limit; split_and!; (apply frames_same; [done|]; intros s a s' ks);
    match goal with |- context [match ?m with _ => _ end] => destruct m end; intros [=]; subst; done.
Qed.
Lemma frames_get_result R P `{!PreOrder R} i : frames R P (@get_result T Hd Us i).
Proof. apply frames_same; [done|]; intros s a s' ks; unfold get_result; destruct (_ !! _); intros [=]; subst; done. Qed.
Lemma frames_on_jobs R P op : (forall r p, R r (r <| pending_jobs := p |>)) -> (forall k, P (RunJob k)) -> frames R P (on_jobs op).
Proof.
  intros HR HP s a s' ks; unfold on_jobs; destruct (spec_step op (pending_jobs s)) as [[p rs]|]; [|done]; intros [= _ <- <-].
  split; [apply HR | apply Forall_map, Forall_true; intros; apply HP].
Qed.
End getters.

(** * Views *)

Section views.
Context {T : Type} `{OrdTreeOk T} {Hd Us : Type}.
Implicit Types (r : reactor T Hd Us) (e : @ReactorLoop.event Hd Us).

(** The time that timer [bt] is set for by default, and whether it is set. *)
Definition ms_of (bt : Z) r : option Z := t_msTime <$> timers r !! bt.
Definition is_set (bt : Z) r : Prop := is_running (timers r) bt \/ is_expired (timers r) bt.
Definition any_call (k : rcall Hd Us) : Prop := True.
Definition fview r (bs : Z) : option (Z * bool * Z) := (fun b => (fd b, active b, waitEvents b)) <$> fds r !! bs.
Definition lview r (l : Z) : option Z := l_limit <$> limits r !! l.
(** The descriptor and the limit that an event is about. *)
Definition event_fd e : option Z :=
  match e with EFdInit x _ | EAddFd x _ | ERemoveFd x | ESetEvents x _ => Some x | _ => None end.
Definition event_limit e : option Z :=
  match e with ELimitInit x _ | ELimitFree x | ESetLimit x _ => Some x | _ => None end.

(** Programs that change no view but perhaps those of [x] and [y]. *)
Definition same_views (x y : option Z) r r' : Prop :=
  (forall bs, Some bs <> x -> fview r' bs = fview r bs) /\ (forall l, Some l <> y -> lview r' l = lview r l).
#[export] Instance same_views_preorder x y : PreOrder (same_views x y).
Proof. split; [done|]; intros r1 r2 r3 [H1 H2] [H3 H4]; split; intros; [rewrite H3, H1 | rewrite H4, H2]; done. Qed.

Lemma frames_pmod_at x y g : (forall r, (forall bs, Some bs <> x -> fds (g r) !! bs = fds r !! bs) /\ (forall l, Some l <> y -> limits (g r) !! l = limits r !! l)) ->
  frames (same_views x y) any_call (pmod g).
Proof. intros Hg; apply frames_mod; intros r; destruct (Hg r) as [H1 H2]; split; intros z Hz; unfold fview, lview; rewrite ?(H1 z Hz), ?(H2 z Hz); done. Qed.
Lemma frames_mod_fd x y bs f : x = Some bs \/ (forall b, (fd (f b), active (f b), waitEvents (f b)) = (fd b, active b, waitEvents b)) ->
  frames (same_views x y) any_call (mod_fd bs f).
Proof.
  intros Hf r a r' ks; unfold mod_fd, get_fd, mbind, prog_bind, pmod; destruct (fds r !! bs) as [b|] eqn:Hb; [|done]; intros [= _ <- <-].
  split; [|constructor]; split; [|done]; intros b' Hn; unfold fview; change (fds (r <| fds ::= <[bs := f b]> |>)) with (<[bs := f b]> (fds r)).
  destruct (decide (bs = b')) as [<-|]; [|rewrite lookup_insert_ne by done; done].
  destruct Hf as [->|Hf]; [done | rewrite lookup_insert_eq, Hb; cbn; rewrite Hf; done].
Qed.
Lemma frames_mod_limit x y l f : y = Some l \/ (forall b, l_limit (f b) = l_limit b) -> frames (same_views x y) any_call (mod_limit l f).
Proof.
  intros Hf r a r' ks; unfold mod_limit, get_limit, mbind, prog_bind, pmod; destruct (limits r !! l) as [b|] eqn:Hb; [|done]; intros [= _ <- <-].
  split; [|constructor]; split; [done|]; intros b' Hn; unfold lview; change (limits (r <| limits ::= <[l := f b]> |>)) with (<[l := f b]> (limits r)).
  destruct (decide (l = b')) as [<-|]; [|rewrite lookup_insert_ne by done; done].
  destruct Hf as [->|Hf]; [done | rewrite lookup_insert_eq, Hb; cbn; rewrite Hf; done].
Qed.

Definition same_timer (bt : Z) r r' : Prop := timers r' !! bt = timers r !! bt.
#[export] Instance same_timer_preorder bt : PreOrder (same_timer bt).
Proof. split; [intros r; done | unfold same_timer; intros r1 r2 r3 ? ?; congruence]. Qed.
(** The calls that are made outside turns, where no handler is called and nothing is waited for. *)
Definition no_upcall (k : rcall Hd Us) : Prop := match k with TimerHandler _ _ | FdHandler _ _ | EpollWait _ => False | _ => True end.
Lemma frames_mod_timer bt x f : x <> bt -> frames (same_timer bt) no_upcall (@mod_timer T Hd Us x f).
Proof.
  intros Hx s a s' ks; unfold mod_timer, get_timer, mbind, prog_bind; destruct (timers s !! x) as [t|]; [|done]; intros [= _ <- <-]; split; [|constructor].
  unfold same_timer; cbn; unfold update; cbn; rewrite lookup_insert_ne; done.
Qed.
Definition anywhere r r' : Prop := True.
#[export] Instance anywhere_preorder : PreOrder anywhere.
Proof. split; done. Qed.

(** What the reactor itself keeps of the objects of its users. *)
Definition same_user r r' : Prop := (forall bt, ms_of bt r' = ms_of bt r) /\ (forall bs, fview r' bs = fview r bs) /\ (forall l, lview r' l = lview r l).
#[export] Instance same_user_preorder : PreOrder same_user.
Proof. split; [done|]; intros r1 r2 r3 (H1 & H2 & H3) (H4 & H5 & H6); split_and!; intros; [rewrite H4, H1 | rewrite H5, H2 | rewrite H6, H3]; done. Qed.
Lemma frames_user_timer bt f : (forall t, t_msTime (f t) = t_msTime t) -> frames same_user any_call (@mod_timer T Hd Us bt f).
Proof.
  intros Hf s a s' ks; unfold mod_timer, get_timer, mbind, prog_bind; destruct (timers s !! bt) as [t|] eqn:Ht; [|done]; intros [= _ <- <-]; split; [|constructor].
  split; [|done]; intros x; unfold ms_of; cbn; unfold update; cbn; destruct (decide (bt = x)) as [<-|]; [rewrite lookup_insert_eq, Ht; cbn; rewrite Hf | rewrite lookup_insert_ne by done]; done.
Qed.
Lemma frames_user_fd bs f : (forall b, (fd (f b), active (f b), waitEvents (f b)) = (fd b, active b, waitEvents b)) -> frames same_user any_call (@mod_fd T Hd Us bs f).
Proof.
  intros Hf r a r' ks He; destruct (frames_mod_fd None None bs f (or_intror Hf) _ _ _ _ He) as [[H1 H2] H3]; split; [|exact H3].
  split; [|split; intros; [apply H1 | apply H2]; done]; revert He; unfold mod_fd, get_fd, mbind, prog_bind; destruct (fds r !! bs); [intros [= _ <- _]|]; done.
Qed.
Lemma frames_user_limit l f : (forall b, l_limit (f b) = l_limit b) -> frames same_user any_call (@mod_limit T Hd Us l f).
Proof.
  intros Hf r a r' ks He; destruct (frames_mod_limit None None l f (or_intror Hf) _ _ _ _ He) as [[H1 H2] H3]; split; [|exact H3].
  split; [|split; intros; [apply H1 | apply H2]; done]; revert He; unfold mod_limit, get_limit, mbind, prog_bind; destruct (limits r !! l); [intros [= _ <- _]|]; done.
Qed.
End views.

(** Follows a function of the reactor. *)
Ltac frame_reactor :=
  repeat first
  [ apply frames_mod_timer; congruence | apply frames_user_timer; intros ?; done
  | apply frames_user_fd; intros ?; done | apply frames_user_limit; intros ?; done
  | apply frames_mod_fd; first [right; intros ?; done | left; reflexivity] | apply frames_mod_limit; first [right; intros ?; done | left; reflexivity]
  | apply frames_on_jobs; intros; done | apply frames_getters; apply _ | apply frames_get_result; apply _
  | frame_step | progress unfold mod_fd, mod_limit, mod_timer ].
Ltac reactor_functions :=
  unfold BReactor_Synchronize_turn, BReactor_Quit, BSmallTimer_Init, BTimer_Init, BReactor_SetSmallTimer, BReactor_SetTimer, BReactor_SetSmallTimer,
    BReactor_RemoveSmallTimer, BFileDescriptor_Init, BReactor_AddFileDescriptor, BReactor_RemoveFileDescriptor, BReactor_SetFileDescriptorEvents,
    BReactorLimit_Init, BReactorLimit_Free, BReactorLimit_Increment, BReactorLimit_SetLimit, clear_result.

(** * Events *)

Section events.
Context {T : Type} `{OrdTreeOk T} {Hd Us : Type}.
Implicit Types (r : reactor T Hd Us) (e : @ReactorLoop.event Hd Us).

Definition is_turn e : bool := match e with ETurn _ _ => true | _ => false end.
(** The events that leave timer [bt] to its user. *)
Definition others (bt : Z) e : Prop :=
  match e with ESetTimer x _ _ _ | ESetDefault x _ | ERemoveTimer x | ESmallTimerInit x | ETimerInit x _ => x <> bt | _ => True end.

(** ** A turn of the loop *)

Lemma frames_move fuel chk now moved : frames same_user any_call (@move_until T _ Hd Us fuel chk now moved).
Proof. revert moved; induction fuel as [|fuel IH]; intros moved; cbn [move_until]; unfold expire; frame_reactor; apply IH. Qed.
Lemma frames_first : frames same_user any_call (@move_first_timers T _ Hd Us).
Proof. unfold move_first_timers, expire; frame_reactor; apply frames_move. Qed.
Lemma frames_pointers n i : frames same_user any_call (@set_fd_pointers T Hd Us i n).
Proof. revert i; induction n as [|n IH]; intros i; cbn [set_fd_pointers]; frame_reactor; apply IH. Qed.
Lemma frames_wait t ws now : frames same_user any_call (@wait_loop T _ Hd Us t now ws).
Proof.
  revert now; induction ws as [|w ws IH]; intros now; cbn [wait_loop]; frame_reactor;
    try apply frames_first; try apply IH; try (unfold store_results, set_epoll_fd_pointers; frame_reactor); apply frames_pointers.
Qed.
Lemma frames_reset ls : frames same_user any_call (@reset_limits T Hd Us ls).
Proof. induction ls as [|l ls IH]; cbn [reset_limits]; frame_reactor; apply IH. Qed.
Lemma turn_keeps now ws : frames same_user any_call (@ReactorLoop.handle T _ Hd Us (ETurn now ws)).
Proof.
  cbn [ReactorLoop.handle]; unfold BReactor_Exec_turn, wait_for_events, move_expired_timers, dispatch_timer, dispatch_result; frame_reactor;
    try apply frames_wait; try apply frames_reset; apply frames_move.
Qed.

(** ** The other events *)

Lemma others_quiet e : is_turn e = false -> frames anywhere no_upcall (@ReactorLoop.handle T _ Hd Us e).
Proof. destruct e; intros Ht; try discriminate Ht; cbn [ReactorLoop.handle]; reactor_functions; frame_reactor. Qed.
Lemma event_keeps_timer bt e : is_turn e = false -> others bt e -> frames (same_timer bt) no_upcall (@ReactorLoop.handle T _ Hd Us e).
Proof.
  destruct e; intros Ht Ho; try discriminate Ht; cbn [ReactorLoop.handle others] in *; reactor_functions;
    frame_reactor; unfold same_timer; cbn; unfold update; cbn; rewrite lookup_insert_ne; done.
Qed.
Lemma event_keeps e r b r' ks : @ReactorLoop.handle T _ Hd Us e r = Ok (b, r', ks) -> same_views (event_fd e) (event_limit e) r r'.
Proof.
  intros Hh; destruct (is_turn e) eqn:Ht.
  - destruct e; try discriminate Ht; destruct (turn_keeps _ _ _ _ _ _ Hh) as [(_ & H1 & H2) _]; split; intros; [apply H1 | apply H2].
  - assert (frames (same_views (event_fd e) (event_limit e)) any_call (@ReactorLoop.handle T _ Hd Us e)) as Hf; [|exact (proj1 (Hf _ _ _ _ Hh))].
    clear Hh; destruct e; try discriminate Ht; cbn [ReactorLoop.handle event_fd event_limit]; reactor_functions; frame_reactor;
      split; try done; intros z Hz; unfold fview, lview; cbn; unfold update; cbn; first [rewrite lookup_insert_ne | rewrite lookup_delete_ne]; congruence.
Qed.

(** ** Timer [bt] *)

Lemma is_set_lists bt r clock : ReactorLoop.inv r clock -> (is_set bt r <-> bt ∈ ot_elements (timers_tree r) ++ timers_expired_list r).
Proof. intros ((_ & _ & Ht & He & _) & _); unfold is_set; rewrite elem_of_app, Ht, He; done. Qed.
(** An event leaves the timer as it is, or calls its handler, and then it was set and is not. *)
Definition timer_kept bt r r' (ks : list (rcall Hd Us)) : Prop :=
  ms_of bt r' = ms_of bt r /\
  ((Forall (fun k => forall s, k <> TimerHandler bt s) ks /\ (is_set bt r' <-> is_set bt r)) \/
   (exists s, ks = [TimerHandler bt s]) /\ is_set bt r /\ ~ is_set bt r').
Lemma turned_timer bt now ws r r' ks clock clock' : ReactorLoop.inv r clock -> ReactorLoop.inv r' clock' -> turned now ws r r' ks ->
  (Forall (fun k => forall s, k <> TimerHandler bt s) ks /\ (is_set bt r' <-> is_set bt r)) \/
  (exists s, ks = [TimerHandler bt s]) /\ is_set bt r /\ ~ is_set bt r'.
Proof.
  intros Hi Hi' Ht; pose proof (is_set_lists bt r clock Hi) as Hs; pose proof (is_set_lists bt r' clock' Hi') as Hs'.
  assert (Forall (fun k => forall s, k <> TimerHandler bt s) ks -> (bt ∈ ot_elements (timers_tree r') ++ timers_expired_list r' <-> bt ∈ ot_elements (timers_tree r) ++ timers_expired_list r) ->
    (Forall (fun k => forall s, k <> TimerHandler bt s) ks /\ (is_set bt r' <-> is_set bt r)) \/ (exists s, ks = [TimerHandler bt s]) /\ is_set bt r /\ ~ is_set bt r') as Hleft.
  { intros HF Hm; left; split; [exact HF|]; rewrite Hs, Hs'; exact Hm. }
  destruct Ht as [j l h u _ _|x l t _ He Ht _|o' e _ _ _ _ _ ->|o' e bs b _ _ _ _ _ _ _ ->|o' l _ _ _ (tr & ts & -> & Htr & _) _ _|o1 w ks _ _ _ _ _ Hto Hw].
  - apply Hleft; [repeat constructor; done | done].
  - destruct (decide (x = bt)) as [->|Hx].
    + right; split; [eauto|]; split; [apply Hs; rewrite He, elem_of_app; right; left|].
      intros [(t' & Ht' & Hst)|(t' & Ht' & Hst)]; cbn in Ht'; rewrite lookup_insert_eq in Ht'; injection Ht' as <-; done.
    + apply Hleft; [constructor; [congruence | constructor]|]; cbn; rewrite He, !elem_of_app, elem_of_cons; intuition congruence.
  - apply Hleft; [constructor | done].
  - apply Hleft; [cbv zeta; destruct (_ =? 0); repeat constructor; done | done].
  - apply Hleft; [constructor|]; cbn; change (timers_tree (drained r)) with (timers_tree r) in Htr; rewrite Htr, !elem_of_app; tauto.
  - apply Hleft.
    + eapply Forall_impl; [exact Hto|]; intros k (n & -> & _); done.
    + destruct Hw as [(evs & l & _ & _ & _ & _ & _ & ->)|(l & _ & (tr & ts & -> & Htr & _) & _)]; [done|].
      cbn; change (timers_tree (drained r)) with (timers_tree r) in Htr; rewrite Htr, !elem_of_app; tauto.
Qed.
Lemma event_timer bt e r clock : ReactorLoop.reachable r clock -> ReactorLoop.enabled e r clock -> others bt e -> exists b r' ks,
  ReactorLoop.handle e r = Ok (b, r', ks) /\ ReactorLoop.reachable r' (tick e clock) /\ timer_kept bt r r' ks.
Proof.
  intros Hr Hen Ho; pose proof (reactor_inv _ _ Hr) as Hi; destruct (is_turn e) eqn:Et.
  - destruct e as [now ws| | | | | | | | | | | | | | | |]; try discriminate Et; destruct (turn_ok now ws r clock Hi Hen) as (r' & ks & Hh & Ht & Hi').
    exists true, r', ks; split; [exact Hh|]; split; [exact (reach_step _ _ _ _ _ _ Hr Hen Hh)|]; split; [apply (proj1 (turn_keeps now ws _ _ _ _ Hh))|].
    exact (turned_timer bt now ws r r' ks clock _ Hi Hi' Ht).
  - destruct (event_ok e r clock Hi Hen) as (b & r' & ks & Hh & _ & _); exists b, r', ks; split; [exact Hh|]; split; [exact (reach_step _ _ _ _ _ _ Hr Hen Hh)|].
    destruct (event_keeps_timer bt e Et Ho _ _ _ _ Hh) as [Hs HF]; unfold same_timer in Hs; split; [unfold ms_of; rewrite Hs; done|].
    left; split; [eapply Forall_impl; [exact HF|]; intros [] ? ?; done|]; unfold is_set, is_running, is_expired; rewrite Hs; done.
Qed.

(** Setting, removing and setting up the timer. *)
Lemma op_set_default bt r clock ms now : ReactorLoop.reachable r clock -> ms_of bt r = Some ms -> is_int64 ms -> clock <= now <= INT64_MAX -> exists r',
  BReactor_SetTimer bt now r = Ok (tt, r', []) /\ ReactorLoop.reachable r' now /\ ms_of bt r' = Some ms /\
  exists t, timers r' !! bt = Some t /\ t_state t = TIMER_STATE_RUNNING /\ t_absTime t = btime_add now ms.
Proof.
  intros Hr Hms Hi Hnow; unfold ms_of in Hms; destruct (timers r !! bt) as [t|] eqn:Ht; [|done]; injection Hms as <-.
  pose proof (reactor_inv _ _ Hr) as Hinv; pose proof Hinv as (Hok & _ & _ & _ & _ & Hc).
  destruct (set_timer_ok r clock bt t BTIMER_SET_RELATIVE (t_msTime t) now Hok Ht (or_intror eq_refl) Hi) as (tr & Hs & _ & _); [unfold is_int64, INT64_MIN; lia|].
  assert (BReactor_SetTimer bt now r = BReactor_SetSmallTimer bt BTIMER_SET_RELATIVE (t_msTime t) now r) as Hdef.
  { unfold BReactor_SetTimer, mbind at 1, prog_bind at 1, get_timer; rewrite Ht, Hs; done. }
  eexists; split; [rewrite Hdef; exact Hs|]; split; [|split; [unfold ms_of; cbn; rewrite lookup_insert_eq; done|]].
  - apply (reach_step r clock (ESetDefault bt now) true _ [] Hr); [split; [eauto | exact Hnow]|].
    cbn [ReactorLoop.handle]; apply with_true; rewrite Hdef; exact Hs.
  - eexists; split; [cbn; apply lookup_insert_eq|]; done.
Qed.
Lemma op_remove_timer bt r clock ms : ReactorLoop.reachable r clock -> ms_of bt r = Some ms -> exists r',
  BReactor_RemoveTimer bt r = Ok (tt, r', []) /\ ReactorLoop.reachable r' clock /\ ~ is_set bt r'.
Proof.
  intros Hr Hms; unfold ms_of in Hms; destruct (timers r !! bt) as [t|] eqn:Ht; [|done]; pose proof (reactor_inv _ _ Hr) as (Hok & _).
  destruct (remove_timer_ok r clock bt t Hok Ht) as (tr & ex & Hs & _ & _ & _); eexists; split; [exact Hs|]; split.
  - apply (reach_step r clock (ERemoveTimer bt) true _ [] Hr); [exists t; exact Ht | apply with_true, Hs].
  - intros [(t' & Ht' & Hst)|(t' & Ht' & Hst)]; cbn in Ht'; rewrite lookup_insert_eq in Ht'; injection Ht' as <-; done.
Qed.
Lemma op_timer_init bt r clock ms : ReactorLoop.reachable r clock -> ~ is_set bt r -> exists r',
  BTimer_Init bt ms r = Ok (tt, r', []) /\ ReactorLoop.reachable r' clock /\ ms_of bt r' = Some ms /\ ~ is_set bt r'.
Proof.
  intros Hr Hn; eexists; split; [reflexivity|]; split; [|split].
  - apply (reach_step r clock (ETimerInit bt ms) true _ [] Hr); [unfold is_set in Hn; cbn; tauto | reflexivity].
  - unfold ms_of; cbn; unfold update; cbn; rewrite lookup_insert_eq; done.
  - intros [(t' & Ht' & Hst)|(t' & Ht' & Hst)]; cbn in Ht'; unfold update in Ht'; cbn in Ht'; rewrite lookup_insert_eq in Ht'; injection Ht' as <-; done.
Qed.
Lemma op_is_running bt r ms : ms_of bt r = Some ms -> exists b, BSmallTimer_IsRunning bt r = Ok (b, r, []) /\ (b = true <-> is_set bt r).
Proof.
  unfold ms_of; intros Hms; destruct (timers r !! bt) as [t|] eqn:Ht; [|done]; eexists; split.
  - unfold BSmallTimer_IsRunning; pstep_by ltac:(apply get_timer_eq; exact Ht); reflexivity.
  - unfold is_set, is_running, is_expired; rewrite Ht; destruct (t_state t) eqn:Es; cbn; split; intros Hx; try done; eauto 6.
    destruct Hx as [(t' & [= <-] & ?)|(t' & [= <-] & ?)]; congruence.
Qed.

(** ** The calls of a user, as the views tell them *)

Lemma fview_Some r bs n a w : fview r bs = Some (n, a, w) -> exists b, fds r !! bs = Some b /\ fd b = n /\ active b = a /\ waitEvents b = w.
Proof. unfold fview; destruct (fds r !! bs) as [b|]; [|done]; intros [= <- <- <-]; eauto. Qed.
Lemma fview_active r bs : is_active (fds r) bs <-> exists n w, fview r bs = Some (n, true, w).
Proof.
  unfold is_active, fview; split.
  - intros (b & -> & Ha); exists (fd b), (waitEvents b); cbn; rewrite Ha; done.
  - intros (n & w & Hf); destruct (fds r !! bs) as [b|]; [|done]; injection Hf as _ Ha _; eauto.
Qed.
Lemma lview_Some r l : is_Some (lview r l) <-> is_Some (limits r !! l).
Proof. unfold lview; destruct (limits r !! l); cbn; split; intros [? ?]; done || eauto. Qed.
Lemma handled e r clock b r' ks : reachable r clock -> ReactorLoop.enabled e r clock -> ReactorLoop.handle e r = Ok (b, r', ks) ->
  reachable r' (tick e clock) /\ same_views (event_fd e) (event_limit e) r r'.
Proof. intros Hr He Hh; split; [exact (reach_step _ _ _ _ _ _ Hr He Hh) | exact (event_keeps e _ _ _ _ Hh)]. Qed.

Lemma op_set_events bs ev r clock n w : reachable r clock -> fview r bs = Some (n, true, w) -> mask_ok ev -> exists r' ks,
  BReactor_SetFileDescriptorEvents bs ev r = Ok (tt, r', ks) /\ reachable r' clock /\ fview r' bs = Some (n, true, ev) /\ same_views (Some bs) None r r'.
Proof.
  intros Hr Hf Hm; pose proof (fview_Some _ _ _ _ _ Hf) as (b & Hb & <- & Ha & _).
  destruct (set_events_ok bs ev r clock b (reactor_inv _ _ Hr) Hb Ha Hm) as (ks & Hh & _).
  destruct (handled (ESetEvents bs ev) r clock _ _ _ Hr ltac:(split; [exists b; done | exact Hm]) (with_true _ _ _ _ Hh)) as [Hr' Hs].
  eexists _, ks; split; [exact Hh|]; split; [exact Hr'|]; split; [|exact Hs]; unfold fview, with_fds; cbn [fds]; rewrite lookup_insert_eq; destruct b; cbn in Ha |- *; subst; done.
Qed.
Lemma op_remove bs r clock n w : reachable r clock -> fview r bs = Some (n, true, w) -> exists r' ks,
  BReactor_RemoveFileDescriptor bs r = Ok (tt, r', ks) /\ reachable r' clock /\ fview r' bs = Some (n, false, w) /\ same_views (Some bs) None r r'.
Proof.
  intros Hr Hf; pose proof (fview_Some _ _ _ _ _ Hf) as (b & Hb & <- & Ha & Hw).
  destruct (remove_fd_ok bs r clock b (reactor_inv _ _ Hr) Hb Ha) as (n & Hh & _).
  destruct (handled (ERemoveFd bs) r clock _ _ _ Hr ltac:(exists b; done) (with_true _ _ _ _ Hh)) as [Hr' Hs].
  eexists _, _; split; [exact Hh|]; split; [exact Hr'|]; split; [|exact Hs]; unfold fview; cbn [fds]; rewrite lookup_insert_eq; destruct b; cbn in Hw |- *; subst; done.
Qed.
Lemma op_fd_init bs n r clock : reachable r clock -> ~ is_active (fds r) bs -> exists r',
  BFileDescriptor_Init bs n r = Ok (tt, r', []) /\ reachable r' clock /\ fview r' bs = Some (n, false, 0) /\ same_views (Some bs) None r r'.
Proof.
  intros Hr Hn; assert (BFileDescriptor_Init bs n r = Ok (tt, with_fds (d_fds_counter r) (<[bs := mk_fdesc n false 0 None]> (fds r)) r, [])) as Hh by (destruct r; done).
  destruct (handled (EFdInit bs n) r clock _ _ _ Hr Hn (with_true _ _ _ _ Hh)) as [Hr' Hs].
  eexists; split; [exact Hh|]; split; [exact Hr'|]; split; [|exact Hs]; unfold fview, with_fds; cbn [fds]; rewrite lookup_insert_eq; done.
Qed.
Lemma op_add bs ok r clock n w : reachable r clock -> fview r bs = Some (n, false, w) -> exists r' ks,
  BReactor_AddFileDescriptor bs ok r = Ok (ok, r', ks) /\ reachable r' clock /\
  fview r' bs = Some (if ok then (n, true, 0) else (n, false, w)) /\ same_views (Some bs) None r r'.
Proof.
  intros Hr Hf; pose proof (fview_Some _ _ _ _ _ Hf) as (b & Hb & <- & Ha & Hw).
  destruct (add_fd_ok bs ok r clock b (reactor_inv _ _ Hr) Hb Ha) as (r' & Hh & _ & Hr1).
  assert (~ is_active (fds r) bs) as Hna by (intros (b' & Hb' & Ha'); congruence).
  destruct (handled (EAddFd bs ok) r clock _ _ _ Hr ltac:(split; [exists b; done | exact Hna]) Hh) as [Hr' Hs].
  exists r'; eexists; split; [exact Hh|]; split; [exact Hr'|]; split; [|exact Hs].
  destruct ok; [destruct Hr1 as [m ->]; unfold fview, with_fds; cbn [fds]; rewrite lookup_insert_eq; done | subst; exact Hf].
Qed.
Lemma op_limit_init l lim r clock : reachable r clock -> lview r l = None -> 0 < lim -> exists r',
  BReactorLimit_Init l lim r = Ok (tt, r', []) /\ reachable r' clock /\ lview r' l = Some lim /\ same_views None (Some l) r r'.
Proof.
  intros Hr Hl Hlim; assert (limits r !! l = None) as Hl' by (unfold lview in Hl; destruct (limits r !! l); done).
  destruct (limit_init_ok l lim r clock (reactor_inv _ _ Hr) Hl' Hlim) as (n & Hh & _).
  destruct (handled (ELimitInit l lim) r clock _ _ _ Hr ltac:(done) (with_true _ _ _ _ Hh)) as [Hr' Hs].
  eexists; split; [exact Hh|]; split; [exact Hr'|]; split; [|exact Hs]; unfold lview, with_limits; cbn [limits]; rewrite lookup_insert_eq; done.
Qed.
Lemma op_limit_free l r clock : reachable r clock -> is_Some (lview r l) -> exists r',
  BReactorLimit_Free l r = Ok (tt, r', []) /\ reachable r' clock /\ lview r' l = None /\ same_views None (Some l) r r'.
Proof.
  intros Hr Hl%lview_Some; destruct (limit_free_ok l r clock (reactor_inv _ _ Hr) Hl) as (n & act & Hh & _).
  destruct (handled (ELimitFree l) r clock _ _ _ Hr Hl (with_true _ _ _ _ Hh)) as [Hr' Hs].
  eexists; split; [exact Hh|]; split; [exact Hr'|]; split; [|exact Hs]; unfold lview, with_limits; cbn [limits]; rewrite lookup_delete_eq; done.
Qed.
Lemma op_increment l r clock : reachable r clock -> is_Some (lview r l) -> exists b r',
  BReactorLimit_Increment l r = Ok (b, r', []) /\ reachable r' clock /\ same_views None None r r'.
Proof.
  intros Hr Hl%lview_Some; pose proof Hl as [x Hx]; destruct (increment_ok l x r clock (reactor_inv _ _ Hr) Hx) as (r' & Hh & _).
  destruct (handled (EIncrement l) r clock _ _ _ Hr Hl Hh) as [Hr' Hs]; eauto 6.
Qed.

(** ** Reports *)

Definition reports_none (ks : list (rcall Hd Us)) : Prop := forall bs ev, FdHandler bs ev ∉ ks.
(** An event of the reactor, and the report it makes: to a registered descriptor, of what is wanted
    of it, errors and hang-ups. *)
Definition reported e r (ks : list (rcall Hd Us)) : Prop :=
  reports_none ks \/ exists bs ev n wv, ks = [FdHandler bs ev] /\ is_turn e = true /\ fview r bs = Some (n, true, wv) /\
    (has_bit ev BREACTOR_READ = true -> has_bit wv BREACTOR_READ = true) /\ (has_bit ev BREACTOR_WRITE = true -> has_bit wv BREACTOR_WRITE = true).
Lemma event_reports e r clock : reachable r clock -> ReactorLoop.enabled e r clock -> exists b r' ks,
  ReactorLoop.handle e r = Ok (b, r', ks) /\ reachable r' (tick e clock) /\ same_views (event_fd e) (event_limit e) r r' /\ reported e r ks.
Proof.
  intros Hr Hen; destruct (is_turn e) eqn:Ht.
  - destruct e as [now ws| | | | | | | | | | | | | | | |]; try discriminate Ht; destruct (turn_ok now ws r clock (reactor_inv _ _ Hr) Hen) as (r' & ks & Hh & Htu & _).
    destruct (handled _ _ _ _ _ _ Hr Hen Hh) as [Hr' Hs]; exists true, r', ks; split; [exact Hh|]; split; [exact Hr'|]; split; [exact Hs|].
    destruct Htu as [j l h u _ _|bt l t _ _ _ _| | o' e bs b _ _ _ _ _ Hb Ha _ | |o1 w ks _ _ _ _ _ Hto _]; try (left; intros bs ev Hi; inversion Hi; fail).
    + left; intros bs ev Hi%list_elem_of_singleton; discriminate Hi.
    + left; intros bs ev Hi%list_elem_of_singleton; discriminate Hi.
    + cbv zeta; destruct (_ =? 0); [left; intros x ev Hi; inversion Hi|]; right; eexists _, _, (fd b), (waitEvents b); split; [reflexivity|]; split; [done|].
      split; [unfold fview; rewrite Hb; cbn; rewrite Ha; done|]; destruct (events_of_wanted (waitEvents b) (ev_events e)) as [H1 H2].
      split; intros Hx; [apply H1, Hx | apply H2, Hx].
    + left; intros bs ev Hi; unfold timeouts_ok in Hto; rewrite Forall_forall in Hto; destruct (Hto _ Hi) as (t & Hx & _); discriminate Hx.
  - destruct (event_ok e r clock (reactor_inv _ _ Hr) Hen) as (b & r' & ks & Hh & _); destruct (handled _ _ _ _ _ _ Hr Hen Hh) as [Hr' Hs].
    exists b, r', ks; split; [exact Hh|]; split; [exact Hr'|]; split; [exact Hs|]; left; intros bs ev Hi.
    destruct (others_quiet e Ht _ _ _ _ Hh) as [_ HF]; exact (proj1 (Forall_forall _ _) HF _ Hi).
Qed.
End events.

(** * Types *)

Section types.
Context {T : Type} `{OrdTreeOk T} {Hd Us : Type}.
Implicit Types (r : reactor T Hd Us) (e : @ReactorLoop.event Hd Us).

(** The values of the users' objects have their C types: times are [int64_t], limits and counts
    [int], the events of a descriptor a combination of the two there are. *)
Definition timer_typed (t : timer) : Prop := is_int64 (t_absTime t) /\ is_int64 (t_msTime t).
Definition limit_typed (x : limit) : Prop := 0 < l_limit x <= INT_MAX /\ 0 <= l_count x <= INT_MAX.
Definition typed r : Prop :=
  (forall bt t, timers r !! bt = Some t -> timer_typed t) /\ (forall l x, limits r !! l = Some x -> limit_typed x) /\
  (forall bs b, fds r !! bs = Some b -> 0 <= waitEvents b <= Z.lor BREACTOR_READ BREACTOR_WRITE).

Definition types_kept r r' : Prop := typed r -> typed r'.
#[export] Instance types_kept_preorder : PreOrder types_kept.
Proof. split; [intros r Hr; exact Hr | intros r1 r2 r3 H12 H23 H1'; exact (H23 (H12 H1'))]. Qed.
End types.

Section preservation.
Context {T : Type} `{OrdTreeOk T} {Hd Us : Type}.
Implicit Types (r : reactor T Hd Us) (e : @ReactorLoop.event Hd Us).



End preservation.

(** The example of ReactorLoop.v: the timer is set to a time that would overflow. *)
#[export] Instance timer_typed_dec t : Decision (timer_typed t).
Proof. unfold timer_typed, is_int64; apply _. Defined.
#[export] Instance limit_typed_dec x : Decision (limit_typed x).
Proof. unfold limit_typed; apply _. Defined.
