(* ===== verification/BConnection.v ===== *)
(** system/BConnection_unix.c: connections and the connector that opens them, over the reactor of
    BReactor.v. What the system answers is an argument; a connection or a connector that is not
    initialised is [None]. Listening sockets and Unix addresses, which tun2socks has no use for,
    are left out. *)

From S2P Require Import Prelude IntCodec MiscArith Addr FlowIface LinkedLists Pending OrderedTree BReactor.

Definition BCONNECTION_SEND_LIMIT : Z := 2.
Definition BCONNECTION_RECV_LIMIT : Z := 2.

Inductive send_states := SEND_STATE_NOT_INITED | SEND_STATE_READY | SEND_STATE_BUSY.
Inductive recv_states :=
| RECV_STATE_NOT_INITED | RECV_STATE_READY | RECV_STATE_BUSY | RECV_STATE_INITED_CLOSED | RECV_STATE_NOT_INITED_CLOSED.
#[export] Instance send_states_eq : EqDecision send_states.
Proof. solve_decision. Defined.
#[export] Instance recv_states_eq : EqDecision recv_states.
Proof. solve_decision. Defined.
Definition sending (a b : send_states) : bool := bool_decide (a = b).
Definition receiving (a b : recv_states) : bool := bool_decide (a = b).

Inductive con_event := BCONNECTION_EVENT_ERROR | BCONNECTION_EVENT_RECVCLOSED.

(** [struct sys_addr]: a [sockaddr_in] or a [sockaddr_in6]. *)
Inductive sys_addr := SysIPv4 (ip port : Z) | SysIPv6 (ip : list Z) (port : Z).
Definition addr_socket_to_sys (addr : BAddr) : res sys_addr :=
  match addr with
  | BADDR_IPV4 ip port => Ok (SysIPv4 ip port)
  | BADDR_IPV6 ip port => Ok (SysIPv6 (ztake 16 ip) port)
  | _ => Err AssertFailed
  end.
Definition BConnection_AddressSupported (addr : BAddr) : bool :=
  (baddr_type addr =? BADDR_TYPE_IPV4) || (baddr_type addr =? BADDR_TYPE_IPV6).

(** The answer of read or write: a number of bytes, EAGAIN or another error; and that of connect. *)
Inductive answer := Count (bytes : Z) | Again | Failure.
Inductive connect_answer := ConnectDone | ConnectInProgress | ConnectFailed.

(** [job] is whether [o->job] is set. *)
Record connector := mk_connector { job : bool; k_fd : Z; connected : bool; have_bfd : bool }.
#[export] Instance connector_eta : Eta connector := fun o => mk_connector (job o) (k_fd o) (connected o) (have_bfd o).

(** [handler] is whether there is one; [recv_job] whether [o->recv.job] is set, and [d_err]
    whether the job of [o->d_err] is. Pointers to the users' data are offsets. *)
Record connection := mk_con {
  handler : bool; c_fd : Z; close_fd : bool; is_hupd : bool; wait_events : Z;
  send_iface : SPI.t; send_job : bool; send_busy_data : option Z; send_busy_data_len : Z; send_state : send_states;
  recv_iface : SPI.t; recv_job : bool; recv_busy_data : option Z; recv_busy_data_avail : Z; recv_state : recv_states;
  d_err : bool }.
#[export] Instance connection_eta : Eta connection := fun o =>
  mk_con (handler o) (c_fd o) (close_fd o) (is_hupd o) (wait_events o)
    (send_iface o) (send_job o) (send_busy_data o) (send_busy_data_len o) (send_state o)
    (recv_iface o) (recv_job o) (recv_busy_data o) (recv_busy_data_avail o) (recv_state o) (d_err o).

(** [BConnection_source]. *)
Inductive source := SourceConnector | SourcePipe (pipefd : Z) (nonblocking_ok : bool).

Section connection.
Context {T : Type} `{OrdTree T} {Hd Us : Type}.
(** The addresses of [o->bfd], [o->send.limit] and [o->recv.limit] of the connection and of
    [o->bfd] of the connector. *)
Variables bfd send_limit recv_limit connector_bfd : Z.

Record world := mk_world { rx : reactor T Hd Us; con : option connection; cnr : option connector }.
#[export] Instance world_eta : Eta world := fun w => mk_world (rx w) (con w) (cnr w).

Inductive ccall :=
| Sys (k : rcall Hd Us)
| Write (data : option Z) (len : Z) | Read (data : option Z) (avail : Z)
| Connect (fd : Z) (addr : sys_addr) | Close (fd : Z)
| ConHandler (e : con_event) | ConnectorHandler (is_error : bool)
| SendDone (len : Z) | RecvDone (len : Z).
Definition wp := prog world ccall.

Definition on_reactor {A} (p : @rp T Hd Us A) : wp A := fun w =>
  match p (rx w) with Ok (a, o, ks) => Ok (a, w <| rx := o |>, map Sys ks) | Err f => Err f end.
Definition con_get : wp connection := fun w => match con w with Some o => Ok (o, w, []) | None => Err OutOfBounds end.
Definition con_mod (f : connection -> connection) : wp unit := fun w =>
  match con w with Some o => Ok (tt, w <| con := Some (f o) |>, []) | None => Err OutOfBounds end.
Definition cnr_get : wp connector := fun w => match cnr w with Some o => Ok (o, w, []) | None => Err OutOfBounds end.
Definition cnr_mod (f : connector -> connector) : wp unit := fun w =>
  match cnr w with Some o => Ok (tt, w <| cnr := Some (f o) |>, []) | None => Err OutOfBounds end.
(** Runs a function of an interface of the connection, then the handlers it calls. *)
Definition on_send (m : SPI.sp unit) (f : SPI.call -> wp unit) : wp unit :=
  o ← con_get;
  match m (send_iface o) with
  | Ok (_, i, ks) => con_mod (fun o => o <| send_iface := i |>);; foreach f ks
  | Err e => fun _ => Err e
  end.
Definition on_recv (m : SPI.sp unit) (f : SPI.call -> wp unit) : wp unit :=
  o ← con_get;
  match m (recv_iface o) with
  | Ok (_, i, ks) => con_mod (fun o => o <| recv_iface := i |>);; foreach f ks
  | Err e => fun _ => Err e
  end.

(** ** The connector *)

Definition connector_fd_handler (so_error : option Z) : wp unit :=
  o ← cnr_get;
  passert (0 <=? k_fd o);;
  passert (negb (connected o));;
  passert (have_bfd o);;
  on_reactor (BReactor_RemoveFileDescriptor connector_bfd);;
  cnr_mod (fun o => o <| have_bfd := false |>);;
  match so_error with
  | Some result => if negb (result =? 0) then pskip else cnr_mod (fun o => o <| connected := true |>)
  | None => pskip
  end;;
  o ← cnr_get;
  pcall (ConnectorHandler (negb (connected o))).
Definition connector_job_handler : wp unit :=
  cnr_mod (fun o => o <| job := false |>);;
  o ← cnr_get;
  passert (0 <=? k_fd o);;
  passert (connected o);;
  passert (negb (have_bfd o));;
  pcall (ConnectorHandler false).
(** [socket] is the new socket if there is one, [nonblocking_ok] and [add_ok] whether it could be
    made non-blocking and added to the reactor. *)
Definition BConnector_Init (addr : BAddr) (socket : option Z) (nonblocking_ok : bool) (connect : connect_answer) (add_ok : bool) : wp bool :=
  if negb (BConnection_AddressSupported addr) then mret false else
  sysaddr ← plift (addr_socket_to_sys addr);
  match socket with
  | None => mret false
  | Some fd =>
    let fail2 := pcall (Close fd);; pmod (fun w => w <| cnr := None |>);; mret false in
    pmod (fun w => w <| cnr := Some (mk_connector false fd false false) |>);;
    if negb nonblocking_ok then fail2 else
    pcall (Connect fd sysaddr);;
    match connect with
    | ConnectFailed => fail2
    | ConnectInProgress =>
      on_reactor (BFileDescriptor_Init connector_bfd fd);;
      added ← on_reactor (BReactor_AddFileDescriptor connector_bfd add_ok);
      if negb added then fail2 else
      on_reactor (BReactor_SetFileDescriptorEvents connector_bfd BREACTOR_WRITE);;
      cnr_mod (fun o => o <| have_bfd := true |>);;
      mret true
    | ConnectDone => cnr_mod (fun o => o <| connected := true |>);; cnr_mod (fun o => o <| job := true |>);; mret true
    end
  end.
Definition BConnector_Free : wp unit :=
  o ← cnr_get;
  (if have_bfd o then on_reactor (BReactor_RemoveFileDescriptor connector_bfd) else pskip);;
  (if negb (k_fd o =? -1) then pcall (Close (k_fd o)) else pskip);;
  pmod (fun w => w <| cnr := None |>).

(** ** Input and output *)

Definition connection_report_error : wp unit :=
  o ← con_get;
  passert (negb (d_err o));;
  passert (handler o);;
  passert (negb (d_err o));;
  con_mod (fun o => o <| d_err := true |>);;
  pcall (ConHandler BCONNECTION_EVENT_ERROR).
(** [o->wait_events |= ev], and the reactor is told. *)
Definition wait_for_fd (ev : Z) : wp unit :=
  con_mod (fun o => o <| wait_events ::= fun x => Z.lor x ev |>);;
  o ← con_get;
  on_reactor (BReactor_SetFileDescriptorEvents bfd (wait_events o)).

Definition connection_send (a : answer) : wp unit :=
  o ← con_get;
  passert (negb (d_err o));;
  passert (sending (send_state o) SEND_STATE_BUSY);;
  allowed ← (if is_hupd o then mret true else on_reactor (BReactorLimit_Increment send_limit));
  if negb allowed then wait_for_fd BREACTOR_WRITE else
  pcall (Write (send_busy_data o) (send_busy_data_len o));;
  match a with
  | Again => if negb (is_hupd o) then wait_for_fd BREACTOR_WRITE else connection_report_error
  | Failure => connection_report_error
  | Count bytes =>
    passert (0 <? bytes);;
    passert (bytes <=? send_busy_data_len o);;
    con_mod (fun o => o <| send_state := SEND_STATE_READY |>);;
    on_send (SPI.Done bytes) (fun _ => passert false)
  end.
Definition connection_recv (a : answer) : wp unit :=
  o ← con_get;
  passert (negb (d_err o));;
  passert (receiving (recv_state o) RECV_STATE_BUSY);;
  allowed ← (if is_hupd o then mret true else on_reactor (BReactorLimit_Increment recv_limit));
  if negb allowed then wait_for_fd BREACTOR_READ else
  pcall (Read (recv_busy_data o) (recv_busy_data_avail o));;
  match a with
  | Again => if negb (is_hupd o) then wait_for_fd BREACTOR_READ else connection_report_error
  | Failure => connection_report_error
  | Count bytes =>
    if bytes =? 0 then
      con_mod (fun o => o <| recv_state := RECV_STATE_INITED_CLOSED |>);;
      pcall (ConHandler BCONNECTION_EVENT_RECVCLOSED)
    else
      passert (0 <? bytes);;
      passert (bytes <=? recv_busy_data_avail o);;
      con_mod (fun o => o <| recv_state := RECV_STATE_READY |>);;
      on_recv (SPI.StreamRecvInterface_Done bytes) (fun _ => passert false)
  end.

Definition connection_fd_handler (events : Z) (a : answer) : wp unit :=
  o ← con_get;
  passert (negb (d_err o));;
  passert (negb (is_hupd o));;
  con_mod (fun o => o <| wait_events ::= fun x => Z.land x (Z.lnot events) |>);;
  o ← con_get;
  on_reactor (BReactor_SetFileDescriptorEvents bfd (wait_events o));;
  (if has_bit events BREACTOR_HUP then
     on_reactor (BReactor_RemoveFileDescriptor bfd);; con_mod (fun o => o <| is_hupd := true |>)
   else pskip);;
  let have_send := has_bit events BREACTOR_WRITE ||
    (has_bit events (Z.lor BREACTOR_ERROR BREACTOR_HUP) && sending (send_state o) SEND_STATE_BUSY) in
  (if have_send then passert (sending (send_state o) SEND_STATE_BUSY) else pskip);;
  let have_recv := has_bit events BREACTOR_READ ||
    (has_bit events (Z.lor BREACTOR_ERROR BREACTOR_HUP) && receiving (recv_state o) RECV_STATE_BUSY) in
  (if have_recv then passert (receiving (recv_state o) RECV_STATE_BUSY) else pskip);;
  if have_send then
    (if have_recv then con_mod (fun o => o <| recv_job := true |>) else pskip);;
    connection_send a
  else if have_recv then connection_recv a
  else
    o ← con_get;
    if negb (is_hupd o) then connection_report_error else pskip.
Definition connection_send_job_handler (a : answer) : wp unit :=
  con_mod (fun o => o <| send_job := false |>);;
  o ← con_get;
  passert (negb (d_err o));;
  passert (sending (send_state o) SEND_STATE_BUSY);;
  connection_send a.
Definition connection_recv_job_handler (a : answer) : wp unit :=
  con_mod (fun o => o <| recv_job := false |>);;
  o ← con_get;
  passert (negb (d_err o));;
  passert (receiving (recv_state o) RECV_STATE_BUSY);;
  connection_recv a.
Definition connection_send_if_handler_send (data : option Z) (data_len : Z) (a : answer) : wp unit :=
  o ← con_get;
  passert (negb (d_err o));;
  passert (sending (send_state o) SEND_STATE_READY);;
  passert (0 <? data_len);;
  con_mod (fun o => o <| send_busy_data := data |> <| send_busy_data_len := data_len |>);;
  con_mod (fun o => o <| send_state := SEND_STATE_BUSY |>);;
  connection_send a.
Definition connection_recv_if_handler_recv (data : option Z) (data_avail : Z) (a : answer) : wp unit :=
  o ← con_get;
  passert (negb (d_err o));;
  passert (receiving (recv_state o) RECV_STATE_READY);;
  passert (0 <? data_avail);;
  con_mod (fun o => o <| recv_busy_data := data |> <| recv_busy_data_avail := data_avail |>);;
  con_mod (fun o => o <| recv_state := RECV_STATE_BUSY |>);;
  connection_recv a.

(** ** The connection *)

Definition is_source_connector (s : source) : bool := match s with SourceConnector => true | _ => false end.
(** [add_ok] is whether the descriptor could be added to the reactor; what memory the interfaces
    are initialised in is of no account. *)
Definition BConnection_Init (s : source) (add_ok : bool) (si ri : SPI.t) : wp bool :=
  match s with
  | SourceConnector =>
    k ← cnr_get;
    passert (0 <=? k_fd k);;
    passert (connected k);;
    passert (negb (have_bfd k));;
    passert (negb (job k))
  | SourcePipe pipefd _ => passert (0 <=? pipefd)
  end;;
  fd ← match s with
    | SourceConnector => k ← cnr_get; cnr_mod (fun k => k <| k_fd := -1 |>);; mret (k_fd k)
    | SourcePipe pipefd _ => mret pipefd
    end;
  let close := is_source_connector s in
  let fail1 := (if close then pcall (Close fd) else pskip);; mret false in
  if match s with SourcePipe _ ok => negb ok | _ => false end then fail1 else
  on_reactor (BFileDescriptor_Init bfd fd);;
  added ← on_reactor (BReactor_AddFileDescriptor bfd add_ok);
  if negb added then fail1 else
  on_reactor (BReactorLimit_Init send_limit BCONNECTION_SEND_LIMIT);;
  on_reactor (BReactorLimit_Init recv_limit BCONNECTION_RECV_LIMIT);;
  pmod (fun w => w <| con := Some (mk_con true fd close false 0 si false None 0 SEND_STATE_NOT_INITED
                                     ri false None 0 RECV_STATE_NOT_INITED false) |>);;
  mret true.
Definition BConnection_Free : wp unit :=
  o ← con_get;
  passert (sending (send_state o) SEND_STATE_NOT_INITED);;
  passert (receiving (recv_state o) RECV_STATE_NOT_INITED || receiving (recv_state o) RECV_STATE_NOT_INITED_CLOSED);;
  on_reactor (BReactorLimit_Free recv_limit);;
  on_reactor (BReactorLimit_Free send_limit);;
  (if negb (is_hupd o) then on_reactor (BReactor_RemoveFileDescriptor bfd) else pskip);;
  (if close_fd o then pcall (Close (c_fd o)) else pskip);;
  pmod (fun w => w <| con := None |>).
Definition BConnection_SetHandlers (h : bool) : wp unit := con_mod (fun o => o <| handler := h |>).

Definition BConnection_SendAsync_Init : wp unit :=
  o ← con_get;
  passert (negb (d_err o));;
  passert (sending (send_state o) SEND_STATE_NOT_INITED);;
  on_send SPI.Init (fun _ => passert false);;
  con_mod (fun o => o <| send_job := false |>);;
  con_mod (fun o => o <| send_state := SEND_STATE_READY |>).
Definition BConnection_SendAsync_Free : wp unit :=
  o ← con_get;
  passert (sending (send_state o) SEND_STATE_READY || sending (send_state o) SEND_STATE_BUSY);;
  (if negb (is_hupd o) then
     con_mod (fun o => o <| wait_events ::= fun x => Z.land x (Z.lnot BREACTOR_WRITE) |>);;
     o ← con_get; on_reactor (BReactor_SetFileDescriptorEvents bfd (wait_events o))
   else pskip);;
  con_mod (fun o => o <| send_job := false |>);;
  con_mod (fun o => o <| send_iface ::= fun i => i <| SPI.job_operation := false |> <| SPI.job_done := false |> |>);;
  con_mod (fun o => o <| send_state := SEND_STATE_NOT_INITED |>).
Definition BConnection_RecvAsync_Init : wp unit :=
  o ← con_get;
  passert (negb (d_err o));;
  passert (receiving (recv_state o) RECV_STATE_NOT_INITED);;
  on_recv SPI.StreamRecvInterface_Init (fun _ => passert false);;
  con_mod (fun o => o <| recv_job := false |>);;
  con_mod (fun o => o <| recv_state := RECV_STATE_READY |>).
Definition BConnection_RecvAsync_Free : wp unit :=
  o ← con_get;
  passert (receiving (recv_state o) RECV_STATE_READY || receiving (recv_state o) RECV_STATE_BUSY ||
           receiving (recv_state o) RECV_STATE_INITED_CLOSED);;
  (if negb (is_hupd o) then
     con_mod (fun o => o <| wait_events ::= fun x => Z.land x (Z.lnot BREACTOR_READ) |>);;
     o ← con_get; on_reactor (BReactor_SetFileDescriptorEvents bfd (wait_events o))
   else pskip);;
  con_mod (fun o => o <| recv_job := false |>);;
  con_mod (fun o => o <| recv_iface ::= fun i => i <| SPI.job_operation := false |> <| SPI.job_done := false |> |>);;
  con_mod (fun o => o <| recv_state := RECV_STATE_NOT_INITED |>).
End connection.
Arguments world : clear implicits.
Arguments ccall : clear implicits.
