(* ===== verification/ConnectionIO.v ===== *)
(** Connections and connectors (BConnection.v) at work on the reactor, as ReactorViews.v shows it:
    what their users, the reactor and the system do, the invariant, and the theorems that both
    streams arrive, that no operation is forgotten, and that descriptors are closed once. *)

From S2P Require Import Prelude MiscArith IntCodec Addr FlowIface LinkedLists Pending OrderedTree BReactor ReactorLoop ReactorViews BConnection BAVL BAVLRefines.

(** * The users of a connection *)

Section steps.
Context {T : Type} `{OrdTree T} {Hd Us : Type}.
Variables bfd send_limit recv_limit connector_bfd : Z.
#[local] Abbreviation world := (world T Hd Us).
#[local] Abbreviation ccall := (ccall Hd Us).
Implicit Types (w : world) (e : @ReactorLoop.event Hd Us).

(** [EReactor e] is an event of the reactor and its other users, with what the system answers
    when it makes the reactor call the connection or the connector; [data] are the bytes a read
    has found, and for [ESend] the bytes at the pointer. *)
Inductive event :=
| EReactor (e : @ReactorLoop.event Hd Us) (so_error : option Z) (a : answer) (data : list Z)
| EConnectorInit (addr : BAddr) (socket : option Z) (nonblocking_ok : bool) (connect : connect_answer) (add_ok : bool)
| EConnectorJob | EConnectorFree
| EInit (s : source) (add_ok : bool) (si ri : SPI.t) | EFree | ESetHandlers (h : bool)
| ESendInit | ESendFree | ERecvInit | ERecvFree
| ESend (ptr : Z) (data : list Z) | ESendOperation (a : answer) | ESendCompleted
| ERecv (ptr avail : Z) | ERecvOperation (a : answer) (data : list Z) | ERecvCompleted
| ESendJob (a : answer) | ERecvJob (a : answer) (data : list Z).

Definition dispatch (so_error : option Z) (a : answer) (k : rcall Hd Us) : @wp T Hd Us unit :=
  match k with
  | FdHandler bs ev =>
    if bs =? bfd then connection_fd_handler bfd send_limit recv_limit ev a
    else if bs =? connector_bfd then connector_fd_handler connector_bfd so_error
    else pcall (Sys k)
  | _ => pcall (Sys k)
  end.
Definition dispatch_send (a : answer) (k : SPI.call) : @wp T Hd Us unit :=
  match k with
  | SPI.HandlerOperation d n => connection_send_if_handler_send bfd send_limit d n a
  | SPI.HandlerDone n => pcall (SendDone n)
  end.
Definition dispatch_recv (a : answer) (k : SPI.call) : @wp T Hd Us unit :=
  match k with
  | SPI.HandlerOperation d n => connection_recv_if_handler_recv bfd recv_limit d n a
  | SPI.HandlerDone n => pcall (RecvDone n)
  end.
Definition handle (x : event) : @wp T Hd Us bool :=
  match x with
  | EReactor e so a _ => fun w =>
      match ReactorLoop.handle e (rx w) with
      | Ok (_, r, ks) => (foreach (dispatch so a) ks;; mret true) (w <| rx := r |>)
      | Err f => Err f
      end
  | EConnectorInit addr so nb c add => BConnector_Init connector_bfd addr so nb c add
  | EConnectorJob => connector_job_handler;; mret true
  | EConnectorFree => BConnector_Free connector_bfd;; mret true
  | EInit s add si ri => BConnection_Init bfd send_limit recv_limit s add si ri
  | EFree => BConnection_Free bfd send_limit recv_limit;; mret true
  | ESetHandlers h => BConnection_SetHandlers h;; mret true
  | ESendInit => BConnection_SendAsync_Init;; on_send SPI.Sender_Init (fun _ => passert false);; mret true
  | ESendFree => BConnection_SendAsync_Free bfd;; mret true
  | ERecvInit => BConnection_RecvAsync_Init;; on_recv SPI.StreamRecvInterface_Receiver_Init (fun _ => passert false);; mret true
  | ERecvFree => BConnection_RecvAsync_Free bfd;; mret true
  | ESend p d => on_send (SPI.Sender_Send (Some p) (Zlen d)) (fun _ => passert false);; mret true
  | ESendOperation a => on_send SPI.run_operation (dispatch_send a);; mret true
  | ESendCompleted => on_send SPI.run_done (dispatch_send Failure);; mret true
  | ERecv p n => on_recv (SPI.StreamRecvInterface_Receiver_Recv (Some p) n) (fun _ => passert false);; mret true
  | ERecvOperation a _ => on_recv SPI.StreamRecvInterface_job_operation (dispatch_recv a);; mret true
  | ERecvCompleted => on_recv SPI.StreamRecvInterface_job_done (dispatch_recv Failure);; mret true
  | ESendJob a => connection_send_job_handler bfd send_limit a;; mret true
  | ERecvJob a _ => connection_recv_job_handler bfd recv_limit a;; mret true
  end.

(** What happened so far: the clock, the operations of both interfaces, the bytes the system took
    and those the sender was told of, the bytes the system gave and those the receiver was told
    of, whether the connector's handler was called, and the sockets that are open. [s_data] and
    [r_data] are the bytes of the operation to send and of the last read. *)
Record ghost := mk_ghost {
  clock : Z; hs : history; hr : history; sent : list Z; acked : list Z; s_data : list Z;
  got : list Z; delivered : list Z; r_data : list Z; told : bool; open : list Z }.
#[export] Instance ghost_eta : Eta ghost := fun g =>
  mk_ghost (clock g) (hs g) (hr g) (sent g) (acked g) (s_data g) (got g) (delivered g) (r_data g) (told g) (open g).

(** ** What the users and the system keep to *)

(** No error was reported, and there is a handler. *)
Definition usable (o : connection) : Prop := d_err o = false /\ handler o = true.
Definition write_ok (len : Z) (a : answer) : Prop := match a with Count n => 0 < n <= len | _ => True end.
Definition read_ok (avail : Z) (a : answer) (data : list Z) : Prop := match a with Count n => 0 <= n <= avail /\ Zlen data = n | _ => True end.
(** Whether the handler of the descriptor sends. *)
Definition sends (o : connection) (ev : Z) : bool :=
  has_bit ev BREACTOR_WRITE || (has_bit ev (Z.lor BREACTOR_ERROR BREACTOR_HUP) && sending (send_state o) SEND_STATE_BUSY).
(** A descriptor in error that has not hung up is ready for what is waited for. *)
Definition error_ready (o : connection) (ev : Z) : Prop :=
  has_bit ev BREACTOR_ERROR = true -> has_bit ev BREACTOR_HUP = false ->
  (has_bit (wait_events o) BREACTOR_READ = true -> has_bit ev BREACTOR_READ = true) /\
  (has_bit (wait_events o) BREACTOR_WRITE = true -> has_bit ev BREACTOR_WRITE = true).
(** Jobs are run before anything is reported. *)
Definition fd_answer_ok (o : connection) (ev : Z) (a : answer) (data : list Z) : Prop :=
  error_ready o ev /\ recv_job o = false /\ if sends o ev then write_ok (send_busy_data_len o) a else read_ok (recv_busy_data_avail o) a data.
Definition runs_loop e : bool := match e with ETurn _ _ | ESynchronize _ => true | _ => false end.

Definition enabled (x : event) w (g : ghost) : Prop :=
  match x with
  | EReactor e so a data => ReactorLoop.enabled e (rx w) (clock g) /\
      event_fd e <> Some bfd /\ event_fd e <> Some connector_bfd /\ event_limit e <> Some send_limit /\ event_limit e <> Some recv_limit /\
      forall o, con w = Some o -> runs_loop e = true -> usable o /\
        forall b r ks ev, ReactorLoop.handle e (rx w) = Ok (b, r, ks) -> FdHandler bfd ev ∈ ks -> fd_answer_ok o ev a data
  | EConnectorInit _ so _ _ _ => cnr w = None /\ forall fd, so = Some fd -> 0 <= fd /\ fd ∉ open g
  | EConnectorJob => exists k, cnr w = Some k /\ job k = true
  | EConnectorFree => is_Some (cnr w)
  | EInit s _ si ri => con w = None /\ SPI.job_operation si = false /\ SPI.job_done si = false /\ SPI.job_operation ri = false /\ SPI.job_done ri = false /\
      match s with
      | SourceConnector => told g = true /\ exists k, cnr w = Some k /\ connected k = true /\ 0 <= k_fd k
      | SourcePipe fd _ => 0 <= fd
      end
  | EFree => exists o, con w = Some o /\ send_state o = SEND_STATE_NOT_INITED /\ recv_state o = RECV_STATE_NOT_INITED
  | ESetHandlers _ => is_Some (con w)
  | ESendInit => exists o, con w = Some o /\ usable o /\ send_state o = SEND_STATE_NOT_INITED
  | ESendFree => exists o, con w = Some o /\ send_state o <> SEND_STATE_NOT_INITED
  | ERecvInit => exists o, con w = Some o /\ usable o /\ recv_state o = RECV_STATE_NOT_INITED
  | ERecvFree => exists o, con w = Some o /\ recv_state o <> RECV_STATE_NOT_INITED
  | ESend p d => exists o, con w = Some o /\ usable o /\ send_state o <> SEND_STATE_NOT_INITED /\ SPI.enabled (SPI.ESend p (Zlen d)) (send_iface o) (hs g)
  | ESendOperation a => exists o, con w = Some o /\ usable o /\ SPI.job_operation (send_iface o) = true /\ write_ok (SPI.job_operation_len (send_iface o)) a
  | ESendCompleted => exists o, con w = Some o /\ usable o /\ SPI.job_done (send_iface o) = true
  | ERecv p n => exists o, con w = Some o /\ usable o /\ recv_state o <> RECV_STATE_NOT_INITED /\ SPI.enabled (SPI.ESend p n) (recv_iface o) (hr g)
  | ERecvOperation a data => exists o, con w = Some o /\ usable o /\ SPI.job_operation (recv_iface o) = true /\ read_ok (SPI.job_operation_len (recv_iface o)) a data
  | ERecvCompleted => exists o, con w = Some o /\ usable o /\ SPI.job_done (recv_iface o) = true
  | ESendJob a => exists o, con w = Some o /\ usable o /\ send_job o = true /\ write_ok (send_busy_data_len o) a
  | ERecvJob a data => exists o, con w = Some o /\ usable o /\ recv_job o = true /\ read_ok (recv_busy_data_avail o) a data
  end.

(** ** What it comes to *)

Definition answer_of (x : event) : answer :=
  match x with EReactor _ _ a _ | ESendOperation a | ERecvOperation a _ | ESendJob a | ERecvJob a _ => a | _ => Failure end.
Definition data_of (x : event) : list Z :=
  match x with EReactor _ _ _ d | ERecvOperation _ d | ERecvJob _ d => d | _ => [] end.
(** A successful write or read among the calls. *)
Definition wrote (a : answer) (ks : list ccall) : option Z :=
  if existsb (fun k => match k with Write _ _ => true | _ => false end) ks then match a with Count n => Some n | _ => None end else None.
Definition found (a : answer) (ks : list ccall) : option Z :=
  if existsb (fun k => match k with Read _ _ => true | _ => false end) ks then match a with Count n => Some n | _ => None end else None.
(** The bytes that were taken, and of which the sender is not told yet; and so for the receiver. *)
Definition unreported (i : SPI.t) (data : list Z) : list Z := if SPI.job_done i then ztake (SPI.job_done_len i) data else [].
Definition unacked (oc : option connection) (data : list Z) : list Z := match oc with Some o => unreported (send_iface o) data | None => [] end.
Definition undelivered (oc : option connection) (data : list Z) : list Z := match oc with Some o => unreported (recv_iface o) data | None => [] end.

Definition done_send (a : answer) (ks : list ccall) (h : history) : history :=
  match wrote a ks with Some n => SPI.count (SPI.EDone n) h | None => h end.
Definition done_recv (a : answer) (ks : list ccall) (h : history) : history :=
  match found a ks with Some n => if n =? 0 then h else SPI.count (SPI.EDone n) h | None => h end.
Definition count_send (x : event) (h : history) : history :=
  match x with
  | ESendInit => h0
  | ESend p d => SPI.count (SPI.ESend p (Zlen d)) h
  | ESendOperation _ => SPI.count SPI.EOperation h
  | ESendCompleted => SPI.count SPI.ECompleted h
  | _ => h
  end.
Definition count_recv (x : event) (h : history) : history :=
  match x with
  | ERecvInit => h0
  | ERecv p n => SPI.count (SPI.ESend p n) h
  | ERecvOperation _ _ => SPI.count SPI.EOperation h
  | ERecvCompleted => SPI.count SPI.ECompleted h
  | _ => h
  end.
Definition taken (a : answer) (ks : list ccall) (data : list Z) : list Z := match wrote a ks with Some n => ztake n data | None => [] end.
Definition given (a : answer) (ks : list ccall) (data : list Z) : list Z := match found a ks with Some n => ztake n data | None => [] end.
Definition told_sent (ks : list ccall) (data : list Z) : list Z := concat (map (fun k => match k with SendDone n => ztake n data | _ => [] end) ks).
Definition told_received (ks : list ccall) (data : list Z) : list Z := concat (map (fun k => match k with RecvDone n => ztake n data | _ => [] end) ks).
Definition opened (x : event) (l : list Z) : list Z :=
  match x with EConnectorInit addr (Some fd) _ _ _ => if BConnection_AddressSupported addr then l ++ [fd] else l | _ => l end.
Definition count_open (x : event) (ks : list ccall) (l : list Z) : list Z :=
  fold_left (fun l k => match k with Close fd => remove_node fd l | _ => l end) ks (opened x l).

(** [w] is the state before the event, and [ks] are the calls it makes. *)
Definition count (x : event) w (ks : list ccall) (g : ghost) : ghost :=
  mk_ghost (match x with EReactor e _ _ _ => tick e (clock g) | _ => clock g end)
    (done_send (answer_of x) ks (count_send x (hs g))) (done_recv (answer_of x) ks (count_recv x (hr g)))
    (sent g ++ taken (answer_of x) ks (s_data g))
    (acked g ++ match x with ESendFree => unacked (con w) (s_data g) | _ => told_sent ks (s_data g) end)
    (match x with ESend _ d => d | _ => s_data g end)
    (got g ++ given (answer_of x) ks (data_of x))
    (delivered g ++ match x with ERecvFree => undelivered (con w) (r_data g) | _ => told_received ks (r_data g) end)
    (match found (answer_of x) ks with Some _ => data_of x | None => r_data g end)
    (match x with EConnectorInit _ _ _ _ _ => false | _ => told g end || existsb (fun k => match k with ConnectorHandler _ => true | _ => false end) ks)
    (count_open x ks (open g)).
Inductive step : world * ghost -> world * ghost -> Prop :=
| step_intro x w g b w' ks : enabled x w g -> handle x w = Ok (b, w', ks) -> step (w, g) (w', count x w ks g).

(** What is closed is open, and is closed once. *)
Fixpoint closes_ok (ks : list ccall) (l : list Z) : Prop :=
  match ks with
  | [] => True
  | Close fd :: ks => fd ∈ l /\ closes_ok ks (remove_node fd l)
  | _ :: ks => closes_ok ks l
  end.
(** What is asked of the system is what the operation under way asks for. *)
Definition asked (o : connection) (k : ccall) : Prop :=
  match k with
  | Write p n => p = SPI.job_operation_data (send_iface o) /\ n = SPI.job_operation_len (send_iface o)
  | Read p n => p = SPI.job_operation_data (recv_iface o) /\ n = SPI.job_operation_len (recv_iface o)
  | _ => True
  end.

(** Neither object is initialised, and their memory is in no use of the reactor's. *)
Definition reachable w (g : ghost) : Prop := exists r c, ReactorLoop.reachable r c /\
  ~ is_active (fds r) bfd /\ ~ is_active (fds r) connector_bfd /\ limits r !! send_limit = None /\ limits r !! recv_limit = None /\
  star step (mk_world r None None, mk_ghost c h0 h0 [] [] [] [] [] [] false []) (w, g).

(** ** The invariant *)

(** The bits of [wait_events]. *)
Definition wv (r s : bool) : Z := (if r then BREACTOR_READ else 0) + (if s then BREACTOR_WRITE else 0).

Definition send_ok (o : connection) (h : history) (snt ack data : list Z) (s : bool) : Prop :=
  send_job o = false /\ snt = ack ++ unreported (send_iface o) data /\
  (SPI.job_operation (send_iface o) = true -> Zlen data = SPI.job_operation_len (send_iface o)) /\
  match send_state o with
  | SEND_STATE_NOT_INITED => SPI.job_operation (send_iface o) = false /\ SPI.job_done (send_iface o) = false /\ (is_hupd o = false -> s = false)
  | SEND_STATE_READY => SPI.inv (send_iface o) h /\ h_received h = h_finished h /\ (is_hupd o = false -> s = false)
  | SEND_STATE_BUSY => SPI.inv (send_iface o) h /\ provider_busy h /\ Zlen data = send_busy_data_len o /\
      send_busy_data o = SPI.job_operation_data (send_iface o) /\ send_busy_data_len o = SPI.job_operation_len (send_iface o) /\
      (d_err o = false -> is_hupd o = false /\ s = true)
  end.
Definition recv_ok (o : connection) (h : history) (gt dlv data : list Z) (r : bool) : Prop :=
  gt = dlv ++ unreported (recv_iface o) data /\
  match recv_state o with
  | RECV_STATE_NOT_INITED => SPI.job_operation (recv_iface o) = false /\ SPI.job_done (recv_iface o) = false /\ recv_job o = false /\ (is_hupd o = false -> r = false)
  | RECV_STATE_READY => SPI.inv (recv_iface o) h /\ h_received h = h_finished h /\ recv_job o = false /\ (is_hupd o = false -> r = false)
  | RECV_STATE_BUSY => SPI.inv (recv_iface o) h /\ provider_busy h /\
      recv_busy_data o = SPI.job_operation_data (recv_iface o) /\ recv_busy_data_avail o = SPI.job_operation_len (recv_iface o) /\
      (recv_job o = true -> is_hupd o = false -> r = false) /\ (d_err o = false -> recv_job o = false -> is_hupd o = false /\ r = true)
  | RECV_STATE_INITED_CLOSED => SPI.inv (recv_iface o) h /\ provider_busy h /\ recv_job o = false /\ (is_hupd o = false -> r = false)
  | RECV_STATE_NOT_INITED_CLOSED => False
  end.
Definition linked (r : reactor T Hd Us) (o : connection) : Prop :=
  (exists n v, fview r bfd = Some (n, negb (is_hupd o), v) /\ (is_hupd o = false -> v = wait_events o)) /\
  lview r send_limit = Some BCONNECTION_SEND_LIMIT /\ lview r recv_limit = Some BCONNECTION_RECV_LIMIT.
Definition con_ok (r : reactor T Hd Us) (oc : option connection) (g : ghost) : Prop :=
  match oc with
  | None => ~ is_active (fds r) bfd /\ lview r send_limit = None /\ lview r recv_limit = None /\ sent g = acked g /\ got g = delivered g
  | Some o => linked r o /\ 0 <= c_fd o /\ exists rd wr, wait_events o = wv rd wr /\
      send_ok o (hs g) (sent g) (acked g) (s_data g) wr /\ recv_ok o (hr g) (got g) (delivered g) (r_data g) rd
  end.
Definition cnr_ok (r : reactor T Hd Us) (kc : option connector) (t : bool) : Prop :=
  match kc with
  | None => ~ is_active (fds r) connector_bfd
  | Some k => -1 <= k_fd k /\
      if have_bfd k then (exists n, fview r connector_bfd = Some (n, true, BREACTOR_WRITE)) /\ connected k = false /\ job k = false /\ t = false /\ 0 <= k_fd k
      else ~ is_active (fds r) connector_bfd /\ t = negb (job k) /\ (job k = true -> connected k = true /\ 0 <= k_fd k)
  end.
Definition owned (oc : option connection) (kc : option connector) (fd : Z) : Prop :=
  (exists o, oc = Some o /\ close_fd o = true /\ c_fd o = fd) \/ (exists k, kc = Some k /\ k_fd k = fd /\ 0 <= fd).
Definition open_ok (oc : option connection) (kc : option connector) (l : list Z) : Prop :=
  NoDup l /\ (forall fd, fd ∈ l <-> owned oc kc fd) /\
  (forall o k, oc = Some o -> kc = Some k -> close_fd o = true -> 0 <= k_fd k -> c_fd o <> k_fd k).
Definition inv w (g : ghost) : Prop :=
  ReactorLoop.reachable (rx w) (clock g) /\ con_ok (rx w) (con w) g /\ cnr_ok (rx w) (cnr w) (told g) /\ open_ok (con w) (cnr w) (open g).
End steps.

(** * The handlers *)

Section proofs.
Context {T : Type} `{OrdTreeOk T} {Hd Us : Type}.
Variables bfd send_limit recv_limit connector_bfd : Z.
Hypothesis Hbfd : bfd <> connector_bfd.
Hypothesis Hlimits : send_limit <> recv_limit.
Implicit Types (r : reactor T Hd Us) (o : connection) (kc : option connector) (oc : option connection) (g : ghost) (ks : list (ccall Hd Us)).
#[local] Abbreviation linked := (linked bfd send_limit recv_limit).

(** The calls that are not calls of the system. *)
Definition is_heard (k : ccall Hd Us) : bool := match k with Sys _ => false | _ => true end.
Definition heard ks : list (ccall Hd Us) := List.filter is_heard ks.
Lemma heard_app k1 k2 : heard (k1 ++ k2) = heard k1 ++ heard k2.
Proof. apply List.filter_app. Qed.
Lemma heard_sys (ks : list (rcall Hd Us)) : heard (map Sys ks) = [].
Proof. induction ks as [|k ks IH]; [done | exact IH]. Qed.
Lemma heard_cons k ks : heard (k :: ks) = if is_heard k then k :: heard ks else heard ks.
Proof. done. Qed.
Lemma existsb_heard (f : ccall Hd Us -> bool) ks : (forall k, f (Sys k) = false) -> existsb f (heard ks) = existsb f ks.
Proof. intros Hf; induction ks as [|k ks IH]; [done|]; rewrite heard_cons; destruct k; cbn [is_heard existsb]; rewrite ?Hf, IH; done. Qed.
Lemma map_heard {A} (f : ccall Hd Us -> list A) ks : (forall k, f (Sys k) = []) -> concat (map f (heard ks)) = concat (map f ks).
Proof. intros Hf; induction ks as [|k ks IH]; [done|]; rewrite heard_cons; destruct k; cbn [is_heard map concat]; rewrite ?Hf, IH; done. Qed.
Lemma fold_heard {A} (f : A -> ccall Hd Us -> A) ks a : (forall a k, f a (Sys k) = a) -> fold_left f (heard ks) a = fold_left f ks a.
Proof. intros Hf; revert a; induction ks as [|k ks IH]; intros a; [done|]; rewrite heard_cons; destruct k; cbn [is_heard fold_left]; rewrite ?Hf, IH; done. Qed.
Lemma count_heard (x : @event Hd Us) (w : world T Hd Us) ks g : count x w (heard ks) g = count x w ks g.
Proof.
  unfold count, done_send, done_recv, count_open, taken, given, told_sent, told_received, wrote, found; rewrite !existsb_heard, fold_heard by done; f_equal; destruct x; rewrite ?map_heard by done; done.
Qed.

(** ** Steps of a program *)

Lemma sys_step {A B} (p : @rp T Hd Us A) (k : A -> wp B) r a r' kr oc kc (b : B) (w : world T Hd Us) k2 :
  p r = Ok (a, r', kr) -> k a (mk_world r' oc kc) = Ok (b, w, k2) -> (on_reactor p ≫= k) (mk_world r oc kc) = Ok (b, w, map Sys kr ++ k2).
Proof. intros Hp Hk; unfold mbind, prog_bind, on_reactor; cbn [rx]; rewrite Hp; change ((mk_world r oc kc) <| rx := r' |>) with (mk_world r' oc kc); rewrite Hk; done. Qed.
Lemma sys_last (p : @rp T Hd Us unit) r r' kr oc kc : p r = Ok (tt, r', kr) -> on_reactor p (mk_world r oc kc) = Ok (tt, mk_world r' oc kc, map Sys kr).
Proof. intros Hp; unfold on_reactor; cbn [rx]; rewrite Hp; done. Qed.
Lemma call_step {B} (c : ccall Hd Us) (k : unit -> wp B) (w : world T Hd Us) (b : B) w' k2 : k tt w = Ok (b, w', k2) -> (pcall c ≫= k) w = Ok (b, w', c :: k2).
Proof. intros Hk; unfold mbind, prog_bind, pcall; rewrite Hk; done. Qed.
Lemma with_true_w (p : @wp T Hd Us unit) w w' ks : p w = Ok (tt, w', ks) -> (p;; mret true) w = Ok (true, w', ks).
Proof. intros Hp; etransitivity; [eapply pbind_calls; [exact Hp | reflexivity]|]; rewrite app_nil_r; done. Qed.

(** ** Bits *)

Lemma wv_mask rd wr : mask_ok (wv rd wr).
Proof. destruct rd, wr; reflexivity. Qed.
Lemma wv_read rd wr : has_bit (wv rd wr) BREACTOR_READ = rd.
Proof. destruct rd, wr; reflexivity. Qed.
Lemma wv_write rd wr : has_bit (wv rd wr) BREACTOR_WRITE = wr.
Proof. destruct rd, wr; reflexivity. Qed.
Lemma wv_or_read rd wr : Z.lor (wv rd wr) BREACTOR_READ = wv true wr.
Proof. destruct rd, wr; reflexivity. Qed.
Lemma wv_or_write rd wr : Z.lor (wv rd wr) BREACTOR_WRITE = wv rd true.
Proof. destruct rd, wr; reflexivity. Qed.
Lemma has_bit_test x n : 0 <= n -> has_bit x (Z.shiftl 1 n) = Z.testbit x n.
Proof.
  intros Hn; unfold has_bit; rewrite Z.shiftl_1_l; destruct (Z.testbit x n) eqn:Ht.
  - destruct (Z.eqb_spec (Z.land x (2 ^ n)) 0) as [He|]; [|done]; apply (f_equal (fun z => Z.testbit z n)) in He.
    rewrite Z.land_spec, Ht, Z.pow2_bits_true, Z.bits_0 in He by exact Hn; done.
  - assert (Z.land x (2 ^ n) = 0) as ->; [|done]; apply Z.bits_inj'; intros m Hm; rewrite Z.land_spec, Z.bits_0, Z.pow2_bits_eqb by exact Hn.
    destruct (Z.eqb_spec n m) as [<-|]; [rewrite Ht; done | apply andb_false_r].
Qed.
Lemma has_bit_two x m n : 0 <= m -> 0 <= n -> has_bit x (Z.lor (Z.shiftl 1 m) (Z.shiftl 1 n)) = has_bit x (Z.shiftl 1 m) || has_bit x (Z.shiftl 1 n).
Proof.
  intros Hm Hn; unfold has_bit; rewrite Z.land_lor_distr_r.
  destruct (Z.eqb_spec (Z.land x (Z.shiftl 1 m)) 0) as [->|H1]; [done|]; cbn [negb orb].
  destruct (Z.eqb_spec (Z.lor (Z.land x (Z.shiftl 1 m)) (Z.land x (Z.shiftl 1 n))) 0) as [He|]; [|done].
  apply Z.lor_eq_0_iff in He; tauto.
Qed.
(** Handled events are waited for no more. *)
Lemma wv_clear rd wr ev : Z.land (wv rd wr) (Z.lnot ev) = wv (rd && negb (has_bit ev BREACTOR_READ)) (wr && negb (has_bit ev BREACTOR_WRITE)).
Proof.
  unfold BREACTOR_READ, BREACTOR_WRITE; rewrite !has_bit_test by lia; apply Z.bits_inj'; intros n Hn; rewrite Z.land_spec, Z.lnot_spec by exact Hn.
  assert (forall a b m, 0 <= m -> Z.testbit (wv a b) m = if m =? 0 then a else if m =? 1 then b else false) as Hb.
  { intros a b m Hm; destruct (Z.eqb_spec m 0) as [->|]; [destruct a, b; done|]; destruct (Z.eqb_spec m 1) as [->|]; [destruct a, b; done|].
    destruct (Z.eq_dec (wv a b) 0) as [->|Hz]; [apply Z.bits_0|]; apply Z.bits_above_log2; [destruct a, b; done|].
    apply Z.le_lt_trans with 1; [|lia]; destruct a, b; done. }
  rewrite !Hb by exact Hn; destruct (Z.eqb_spec n 0) as [->|]; [done|]; destruct (Z.eqb_spec n 1) as [->|]; done.
Qed.
Lemma wv_clear_read rd wr : Z.land (wv rd wr) (Z.lnot BREACTOR_READ) = wv false wr.
Proof. destruct rd, wr; reflexivity. Qed.
Lemma wv_clear_write rd wr : Z.land (wv rd wr) (Z.lnot BREACTOR_WRITE) = wv rd false.
Proof. destruct rd, wr; reflexivity. Qed.

(** ** Sending and receiving *)

Lemma linked_view r o : linked r o -> is_hupd o = false -> exists n, fview r bfd = Some (n, true, wait_events o).
Proof. intros ((n & v & Hf & Hv) & _) Hh; rewrite Hh in Hf; rewrite (Hv Hh) in Hf; exists n; exact Hf. Qed.
Lemma linked_change r r' o o' n : linked r o -> same_views (Some bfd) None r r' -> is_hupd o' = false -> fview r' bfd = Some (n, true, wait_events o') -> linked r' o'.
Proof. intros (_ & H1 & H2) [_ Hl] Hh Hf; split; [exists n, (wait_events o'); rewrite Hh; done|]; rewrite !Hl by done; done. Qed.
Lemma linked_same r o o' : linked r o -> is_hupd o' = is_hupd o -> wait_events o' = wait_events o -> linked r o'.
Proof. intros ((n & v & Hf & Hv) & Hl) H1 H2; split; [exists n, v; rewrite H1, H2; done | exact Hl]. Qed.
Lemma linked_kept r r' o x y : linked r o -> same_views x y r r' -> x <> Some bfd -> y <> Some send_limit -> y <> Some recv_limit -> linked r' o.
Proof. intros ((n & v & Hf & Hv) & H1 & H2) [H3 H4] Hx Hy1 Hy2; split; [exists n, v; rewrite H3 by congruence; done|]; rewrite !H4 by congruence; done. Qed.

Definition with_wait (ev : Z) o : connection := o <| wait_events ::= fun x => Z.lor x ev |>.
Lemma con_wait_eq ev r o kc c : ReactorLoop.reachable r c -> linked r o -> is_hupd o = false -> mask_ok (Z.lor (wait_events o) ev) -> exists r' kr,
  wait_for_fd bfd ev (mk_world r (Some o) kc) = Ok (tt, mk_world r' (Some (with_wait ev o)) kc, map Sys kr) /\
  ReactorLoop.reachable r' c /\ linked r' (with_wait ev o) /\ same_views (Some bfd) None r r'.
Proof.
  intros Hr Hl Hh Hm; destruct (linked_view _ _ Hl Hh) as [n Hf]; destruct (op_set_events _ (Z.lor (wait_events o) ev) _ _ _ _ Hr Hf Hm) as (r' & ks & Hs & Hr' & Hf' & Hv).
  exists r', ks; split; [|split; [exact Hr'|]; split; [|exact Hv]].
  - unfold wait_for_fd; pstep; pstep; apply sys_last; exact Hs.
  - eapply linked_change; [exact Hl | exact Hv | exact Hh | exact Hf'].
Qed.

Lemma report_eq r o kc : d_err o = false -> handler o = true ->
  connection_report_error (mk_world r (Some o) kc) = Ok (tt, mk_world r (Some (o <| d_err := true |>)) kc, [ConHandler BCONNECTION_EVENT_ERROR]).
Proof. intros H1 H2; unfold connection_report_error; pstep; rewrite H1, H2; do 3 pstep; pstep; reflexivity. Qed.
(** The limit does not count once the descriptor has hung up. *)
Lemma allowed_eq l r o oc kc c : ReactorLoop.reachable r c -> linked r o -> l = send_limit \/ l = recv_limit -> exists b r' kr, (is_hupd o = true -> b = true) /\
  (if is_hupd o then mret true else on_reactor (BReactorLimit_Increment l)) (mk_world r oc kc) = Ok (b, mk_world r' oc kc, map Sys kr) /\
  ReactorLoop.reachable r' c /\ linked r' o /\ same_views None None r r'.
Proof.
  intros Hr Hl Hlim; destruct (is_hupd o) eqn:Hh; [exists true, r, []; split; [done|]; split; [reflexivity|]; done|].
  destruct (op_increment l r c Hr) as (b & r' & Hi & Hr' & Hv); [destruct Hl as (_ & H1 & H2); destruct Hlim as [-> | ->]; eauto|].
  exists b, r', []; split; [done|]; split; [unfold on_reactor; cbn [rx]; rewrite Hi; done|]; split; [exact Hr'|]; split; [|exact Hv].
  eapply linked_kept; [exact Hl | exact Hv | done..].
Qed.
Lemma views_trans r1 r2 r3 : same_views None None r1 r2 -> same_views (Some bfd) None r2 r3 -> same_views (Some bfd) None r1 r3.
Proof. intros [H1 H2] [H3 H4]; split; intros; [rewrite H3, H1 by done | rewrite H4, H2 by done]; done. Qed.
Lemma views_weaken r1 r2 : same_views None None r1 r2 -> same_views (Some bfd) None r1 r2.
Proof. intros [H1 H2]; split; intros; [apply H1 | apply H2]; done. Qed.

(** Both directions try their call in the same way. *)
Definition attempt (l ev : Z) (busy : connection -> bool) (call : connection -> ccall Hd Us) (k : connection -> Z -> @wp T Hd Us unit) (a : answer) : @wp T Hd Us unit :=
  o ← con_get;
  passert (negb (d_err o));;
  passert (busy o);;
  allowed ← (if is_hupd o then mret true else on_reactor (BReactorLimit_Increment l));
  if negb allowed then wait_for_fd bfd ev else
  pcall (call o);;
  match a with
  | Again => if negb (is_hupd o) then wait_for_fd bfd ev else connection_report_error
  | Failure => connection_report_error
  | Count n => k o n
  end.
Inductive attempted (ev : Z) o (call : ccall Hd Us) (a : answer) (done : Z -> connection -> list (ccall Hd Us) -> Prop) : connection -> list (ccall Hd Us) -> Prop :=
| attempt_waits hd : is_hupd o = false -> (hd = [] \/ hd = [call] /\ a = Again) -> attempted ev o call a done (with_wait ev o) hd
| attempt_fails : (forall n, a <> Count n) -> attempted ev o call a done (o <| d_err := true |>) [call; ConHandler BCONNECTION_EVENT_ERROR]
| attempt_counts n o' hd : a = Count n -> done n o' hd -> attempted ev o call a done o' (call :: hd).

Lemma attempt_ok l ev busy call k a r o kc c done : ReactorLoop.reachable r c -> linked r o -> (l = send_limit \/ l = recv_limit) -> mask_ok (Z.lor (wait_events o) ev) ->
  usable o -> busy o = true -> is_heard (call o) = true ->
  (forall n r', a = Count n -> exists o' k2, k o n (mk_world r' (Some o) kc) = Ok (tt, mk_world r' (Some o') kc, k2) /\
     is_hupd o' = is_hupd o /\ wait_events o' = wait_events o /\ done n o' (heard k2)) -> exists r' o' ks,
  attempt l ev busy call k a (mk_world r (Some o) kc) = Ok (tt, mk_world r' (Some o') kc, ks) /\
  ReactorLoop.reachable r' c /\ linked r' o' /\ same_views (Some bfd) None r r' /\ attempted ev o (call o) a done o' (heard ks).
Proof.
  intros Hr Hl Hlim Hm [He Hha] Hbusy Hcall Hk; destruct (allowed_eq l r o (Some o) kc c Hr Hl Hlim) as (b & r1 & k1 & Hup & Hal & Hr1 & Hl1 & Hv1).
  assert (forall (k : bool -> wp unit) w' k2, k b (mk_world r1 (Some o) kc) = Ok (tt, w', k2) ->
    (o ← con_get; passert (negb (d_err o));; passert (busy o);;
     allowed ← (if is_hupd o then mret true else on_reactor (BReactorLimit_Increment l)); k allowed) (mk_world r (Some o) kc) = Ok (tt, w', map Sys k1 ++ k2)) as Hstart.
  { intros k' w' k2 Hk'; pstep; rewrite He, Hbusy; pstep; pstep; eapply pbind_calls; [exact Hal | exact Hk']. }
  assert (forall w' k2, heard (map Sys k1 ++ call o :: k2) = call o :: heard k2 /\ (connection_report_error (mk_world r1 (Some o) kc) = Ok (tt, w', k2) -> True)) as Hheard.
  { intros w' k2; split; [rewrite heard_app, heard_sys, heard_cons, Hcall; done | done]. }
  unfold attempt; destruct b eqn:Eb.
  2:{ destruct (is_hupd o) eqn:Hh; [discriminate (Hup eq_refl)|]; destruct (con_wait_eq ev r1 o kc c Hr1 Hl1 Hh Hm) as (r' & ks & Hs & Hr' & Hl' & Hv').
      exists r', (with_wait ev o), (map Sys k1 ++ map Sys ks); split; [apply Hstart; exact Hs|]; split; [exact Hr'|]; split; [exact Hl'|]; split; [exact (views_trans _ _ _ Hv1 Hv')|].
      rewrite heard_app, !heard_sys; apply attempt_waits; [exact Hh | left; done]. }
  assert (is_hupd o = true \/ a = Failure -> (forall n, a <> Count n) -> exists r' o' ks,
    (match a with Again => if negb (is_hupd o) then wait_for_fd bfd ev else connection_report_error | Failure => connection_report_error | Count n => k o n end) (mk_world r1 (Some o) kc) =
      Ok (tt, mk_world r' (Some o') kc, ks) /\ ReactorLoop.reachable r' c /\ linked r' o' /\ same_views None None r1 r' /\ attempted ev o (call o) a done o' (call o :: heard ks)) as Hfail.
  { intros Hcase Hn; exists r1, (o <| d_err := true |>), [ConHandler BCONNECTION_EVENT_ERROR]; split.
    - destruct a as [n| |]; [destruct (Hn n); done | destruct Hcase as [-> | ?]; [|done] |]; apply report_eq; done.
    - split; [exact Hr1|]; split; [exact Hl1|]; split; [done | apply attempt_fails, Hn]. }
  assert ((exists r' o' ks,
    (match a with Again => if negb (is_hupd o) then wait_for_fd bfd ev else connection_report_error | Failure => connection_report_error | Count n => k o n end) (mk_world r1 (Some o) kc) =
      Ok (tt, mk_world r' (Some o') kc, ks) /\ ReactorLoop.reachable r' c /\ linked r' o' /\ same_views (Some bfd) None r1 r' /\ attempted ev o (call o) a done o' (call o :: heard ks)))
    as (r' & o' & ks & Hs & Hr' & Hl' & Hv' & Ho').
  2:{ exists r', o', (map Sys k1 ++ call o :: ks); split; [apply Hstart; cbn [negb]; apply call_step; exact Hs|]; split; [exact Hr'|]; split; [exact Hl'|].
      split; [exact (views_trans _ _ _ Hv1 Hv')|]; rewrite (proj1 (Hheard (mk_world r1 (Some o) kc) ks)); exact Ho'. }
  destruct a as [n| |].
  - destruct (Hk n r1 eq_refl) as (o' & k2 & Hs & H1 & H2 & Hd'); exists r1, o', k2; split; [exact Hs|]; split; [exact Hr1|].
    split; [exact (linked_same _ _ _ Hl1 H1 H2)|]; split; [done|]; eapply attempt_counts; done.
  - destruct (is_hupd o) eqn:Hh; [destruct Hfail as (r' & o' & ks & ? & ? & ? & ? & ?); [left; done | done |]; exists r', o', ks; do 3 (split; [done|]); split; [apply views_weaken; done | done]|].
    destruct (con_wait_eq ev r1 o kc c Hr1 Hl1 Hh Hm) as (r' & ks & Hs & Hr' & Hl' & Hv'); exists r', (with_wait ev o), (map Sys ks).
    split; [exact Hs|]; split; [exact Hr'|]; split; [exact Hl'|]; split; [exact Hv'|]; rewrite heard_sys; apply attempt_waits; [exact Hh | right; done].
  - destruct Hfail as (r' & o' & ks & ? & ? & ? & ? & ?); [right; done | done |]; exists r', o', ks; do 3 (split; [done|]); split; [apply views_weaken; done | done].
Qed.

(** What follows a successful call. *)
Definition send_done o (n : Z) o' (hd : list (ccall Hd Us)) : Prop :=
  hd = [] /\ exists i, SPI.Done n (send_iface o) = Ok (tt, i, []) /\ o' = o <| send_state := SEND_STATE_READY |> <| send_iface := i |>.
Definition recv_done o (n : Z) o' (hd : list (ccall Hd Us)) : Prop :=
  n = 0 /\ hd = [ConHandler BCONNECTION_EVENT_RECVCLOSED] /\ o' = o <| recv_state := RECV_STATE_INITED_CLOSED |> \/
  0 < n /\ hd = [] /\ exists i, SPI.Done n (recv_iface o) = Ok (tt, i, []) /\ o' = o <| recv_state := RECV_STATE_READY |> <| recv_iface := i |>.

Lemma connection_send_ok r o kc c a rd wr h : ReactorLoop.reachable r c -> linked r o -> wait_events o = wv rd wr -> usable o -> send_state o = SEND_STATE_BUSY ->
  SPI.inv (send_iface o) h -> provider_busy h -> send_busy_data_len o = SPI.job_operation_len (send_iface o) -> write_ok (send_busy_data_len o) a -> exists r' o' ks,
  connection_send bfd send_limit a (mk_world r (Some o) kc) = Ok (tt, mk_world r' (Some o') kc, ks) /\
  ReactorLoop.reachable r' c /\ linked r' o' /\ same_views (Some bfd) None r r' /\
  attempted BREACTOR_WRITE o (Write (send_busy_data o) (send_busy_data_len o)) a (send_done o) o' (heard ks).
Proof.
  intros Hr Hl Hw Hu Hst Hi Hb Hlen Ha; apply (attempt_ok send_limit BREACTOR_WRITE (fun o => sending (send_state o) SEND_STATE_BUSY)
    (fun o => Write (send_busy_data o) (send_busy_data_len o)) (fun o bytes => passert (0 <? bytes);; passert (bytes <=? send_busy_data_len o);;
      con_mod (fun o => o <| send_state := SEND_STATE_READY |>);; on_send (SPI.Done bytes) (fun _ => passert false))); try done; [left; done | rewrite Hw, wv_or_write; apply wv_mask | rewrite Hst; done |].
  intros n r' ->; destruct Ha as [Ha1 Ha2]; rewrite Hlen in Ha2; destruct (SPI.spi_inv_step (SPI.EDone n) (send_iface o) h Hi ltac:(done)) as (i & Hs & _); cbn [SPI.handle SPI.calls_of] in Hs.
  exists (o <| send_state := SEND_STATE_READY |> <| send_iface := i |>), []; split; [|split; [done|]; split; [done|]; split; [done | exists i; done]].
  pstep_by ltac:(apply passert_ok; lia); pstep_by ltac:(apply passert_ok; lia); pstep; unfold on_send; pstep.
  change (send_iface (o <| send_state := SEND_STATE_READY |>)) with (send_iface o); rewrite Hs; reflexivity.
Qed.
Lemma connection_recv_ok r o kc c a data rd wr h : ReactorLoop.reachable r c -> linked r o -> wait_events o = wv rd wr -> usable o -> recv_state o = RECV_STATE_BUSY ->
  SPI.inv (recv_iface o) h -> provider_busy h -> recv_busy_data_avail o = SPI.job_operation_len (recv_iface o) -> read_ok (recv_busy_data_avail o) a data -> exists r' o' ks,
  connection_recv bfd recv_limit a (mk_world r (Some o) kc) = Ok (tt, mk_world r' (Some o') kc, ks) /\
  ReactorLoop.reachable r' c /\ linked r' o' /\ same_views (Some bfd) None r r' /\
  attempted BREACTOR_READ o (Read (recv_busy_data o) (recv_busy_data_avail o)) a (recv_done o) o' (heard ks).
Proof.
  intros Hr Hl Hw Hu Hst Hi Hb Hlen Ha; apply (attempt_ok recv_limit BREACTOR_READ (fun o => receiving (recv_state o) RECV_STATE_BUSY)
    (fun o => Read (recv_busy_data o) (recv_busy_data_avail o)) (fun o bytes => if bytes =? 0 then
      con_mod (fun o => o <| recv_state := RECV_STATE_INITED_CLOSED |>);; pcall (ConHandler BCONNECTION_EVENT_RECVCLOSED) else
      passert (0 <? bytes);; passert (bytes <=? recv_busy_data_avail o);;
      con_mod (fun o => o <| recv_state := RECV_STATE_READY |>);; on_recv (SPI.StreamRecvInterface_Done bytes) (fun _ => passert false)));
    try done; [right; done | rewrite Hw, wv_or_read; apply wv_mask | rewrite Hst; done |].
  intros n r' ->; destruct Ha as [[Ha1 Ha2] _]; destruct (Z.eqb_spec n 0) as [->|Hn].
  { eexists _, _; split; [pstep; reflexivity|]; split; [done|]; split; [done|]; left; done. }
  rewrite Hlen in Ha2; destruct (SPI.spi_inv_step (SPI.EDone n) (recv_iface o) h Hi ltac:(split; [done | lia])) as (i & Hs & _); cbn [SPI.handle SPI.calls_of] in Hs.
  exists (o <| recv_state := RECV_STATE_READY |> <| recv_iface := i |>), []; split; [|split; [done|]; split; [done|]; right; split; [lia|]; split; [done | exists i; done]].
  pstep_by ltac:(apply passert_ok; lia); pstep_by ltac:(apply passert_ok; lia); pstep; unfold on_recv, SPI.StreamRecvInterface_Done; pstep.
  change (recv_iface (o <| recv_state := RECV_STATE_READY |>)) with (recv_iface o); rewrite Hs; reflexivity.
Qed.

(** ** What an attempt does to the invariant *)

Definition sending_now o (h : history) (snt ack data : list Z) (s : bool) : Prop :=
  send_job o = false /\ snt = ack /\ send_state o = SEND_STATE_BUSY /\ SPI.inv (send_iface o) h /\ provider_busy h /\ Zlen data = send_busy_data_len o /\
  send_busy_data o = SPI.job_operation_data (send_iface o) /\ send_busy_data_len o = SPI.job_operation_len (send_iface o) /\ (is_hupd o = false -> s = false).
Definition receiving_now o (h : history) (gt dlv : list Z) (r : bool) : Prop :=
  recv_job o = false /\ gt = dlv /\ recv_state o = RECV_STATE_BUSY /\ SPI.inv (recv_iface o) h /\ provider_busy h /\
  recv_busy_data o = SPI.job_operation_data (recv_iface o) /\ recv_busy_data_avail o = SPI.job_operation_len (recv_iface o) /\ (is_hupd o = false -> r = false).
Definition same_rest o o' : Prop := is_hupd o' = is_hupd o /\ c_fd o' = c_fd o /\ close_fd o' = close_fd o /\ (d_err o' = false -> d_err o = false).
Definition same_recv o o' : Prop := recv_iface o' = recv_iface o /\ recv_job o' = recv_job o /\ recv_busy_data o' = recv_busy_data o /\
  recv_busy_data_avail o' = recv_busy_data_avail o /\ recv_state o' = recv_state o.
Definition same_send o o' : Prop := send_iface o' = send_iface o /\ send_job o' = send_job o /\ send_busy_data o' = send_busy_data o /\
  send_busy_data_len o' = send_busy_data_len o /\ send_state o' = send_state o.
Lemma recv_ok_same o o' h gt dlv data rd : same_recv o o' -> same_rest o o' -> recv_ok o h gt dlv data rd -> recv_ok o' h gt dlv data rd.
Proof.
  unfold same_recv, same_rest, recv_ok; intros (-> & -> & -> & -> & ->) (-> & _ & _ & He) (H1 & H2); split; [exact H1|]; destruct (recv_state o); try done.
  destruct H2 as (? & ? & ? & ? & ? & H3); do 5 (split; [done|]); intros Hd' Hj; apply H3; auto.
Qed.
Lemma send_ok_same o o' h snt ack data s : same_send o o' -> same_rest o o' -> send_ok o h snt ack data s -> send_ok o' h snt ack data s.
Proof.
  unfold same_send, same_rest, send_ok; intros (-> & -> & -> & -> & ->) (-> & _ & _ & He) (H1 & H2 & H3 & H4); do 3 (split; [done|]); destruct (send_state o); try done.
  destruct H4 as (? & ? & ? & ? & ? & H5); do 5 (split; [done|]); intros Hd'; apply H5; auto.
Qed.
Lemma same_recv_trans o1 o2 o3 : same_recv o1 o2 -> same_recv o2 o3 -> same_recv o1 o3.
Proof. unfold same_recv; intuition congruence. Qed.
Lemma con_same_rest_trans o1 o2 o3 : same_rest o1 o2 -> same_rest o2 o3 -> same_rest o1 o3.
Proof. unfold same_rest; intuition congruence. Qed.

Lemma with_wait_read o rd wr : wait_events o = wv rd wr -> wait_events (with_wait BREACTOR_READ o) = wv true wr.
Proof. intros Hw; destruct o; cbn in *; subst; unfold with_wait, update; cbn; apply wv_or_read. Qed.
Lemma with_wait_write o rd wr : wait_events o = wv rd wr -> wait_events (with_wait BREACTOR_WRITE o) = wv rd true.
Proof. intros Hw; destruct o; cbn in *; subst; unfold with_wait, update; cbn; apply wv_or_write. Qed.
(** The provider of an operation it has not completed. *)
Lemma busy_iface i h : SPI.inv i h -> provider_busy h -> SPI.job_done i = false /\ SPI.job_operation i = false.
Proof. intros (_ & Hs) Hb; unfold provider_busy in *; destruct (SPI.state i); destruct_and?; try lia; done. Qed.

Lemma send_attempt o a o' hd rd wr h snt ack data : sending_now o h snt ack data wr -> wait_events o = wv rd wr -> usable o -> write_ok (send_busy_data_len o) a ->
  attempted BREACTOR_WRITE o (Write (send_busy_data o) (send_busy_data_len o)) a (send_done o) o' hd ->
  same_rest o o' /\ same_recv o o' /\ exists wr', wait_events o' = wv rd wr' /\ send_ok o' (done_send a hd h) (snt ++ taken a hd data) (ack ++ told_sent hd data) data wr'.
Proof.
  intros (Hj & -> & Hst & Hi & Hb & Hd' & Hbd & Hbl & Hs) Hw [He Hha] Ha Hatt; destruct (busy_iface _ _ Hi Hb) as [Hjd Hjo].
  assert (forall o2 s2, send_iface o2 = send_iface o -> send_job o2 = send_job o -> send_busy_data o2 = send_busy_data o -> send_busy_data_len o2 = send_busy_data_len o ->
    send_state o2 = send_state o -> (d_err o2 = false -> is_hupd o2 = false /\ s2 = true) -> send_ok o2 h (ack ++ []) (ack ++ []) data s2) as Hbusy.
  { intros o2 s2 H1 H2 H3 H4 H5 H6; unfold send_ok, unreported; rewrite H1, H2, H3, H4, H5, Hst, Hjd, !app_nil_r; do 2 (split; [done|]); split; [congruence|]; done. }
  destruct Hatt as [hd Hh Hhd|Hn|n o' hd -> (-> & i & Hi' & ->)].
  - split; [done|]; split; [done|]; exists true; split; [eapply with_wait_write, Hw|].
    assert (done_send a hd h = h /\ taken a hd data = [] /\ told_sent hd data = []) as (-> & -> & ->) by (destruct Hhd as [-> | [-> ->]]; done).
    apply Hbusy; done.
  - split; [split; [done|]; split; [done|]; split; [done|]; intros; done|]; split; [done|]; exists wr; split; [exact Hw|].
    assert (done_send a [Write (send_busy_data o) (send_busy_data_len o); ConHandler BCONNECTION_EVENT_ERROR] h = h /\
      taken a [Write (send_busy_data o) (send_busy_data_len o); ConHandler BCONNECTION_EVENT_ERROR] data = []) as (-> & ->).
    { unfold done_send, taken, wrote; destruct a as [n| |]; [destruct (Hn n); done | done..]. }
    apply Hbusy; done.
  - split; [done|]; split; [done|]; exists wr; split; [exact Hw|]; destruct Ha as [Ha1 Ha2]; destruct (SPI.spi_inv_step (SPI.EDone n) _ _ Hi) as (i2 & Hs2 & Hi2); [split; [done | lia]|].
    pose proof (SPI.spi_op_kept _ _ _ _ Hs2 ltac:(done)) as (_ & _ & Hk1 & Hk2); cbn [SPI.handle SPI.calls_of] in Hs2; rewrite Hs2 in Hi'; injection Hi' as <-.
    unfold send_ok, unreported; cbn [send_iface send_job send_state is_hupd update connection_eta].
    change (send_iface (o <| send_state := SEND_STATE_READY |> <| send_iface := i2 |>)) with i2; rewrite Hk1, Hk2.
    split; [exact Hj|]; split; [cbn [told_sent map concat]; rewrite app_nil_r; done|]; split; [intros Hx; exfalso|].
    + destruct Hi2 as [_ Hi2]; rewrite Hx, Hk1 in Hi2; destruct (SPI.state i2); destruct_and?; done.
    + split; [exact Hi2|]; split; [unfold provider_busy in Hb; cbn; lia | exact Hs].
Qed.
Lemma recv_attempt o a o' hd rd wr h gt dlv data old : receiving_now o h gt dlv rd -> wait_events o = wv rd wr -> usable o -> read_ok (recv_busy_data_avail o) a data ->
  attempted BREACTOR_READ o (Read (recv_busy_data o) (recv_busy_data_avail o)) a (recv_done o) o' hd ->
  same_rest o o' /\ same_send o o' /\ exists rd', wait_events o' = wv rd' wr /\
  recv_ok o' (done_recv a hd h) (gt ++ given a hd data) (dlv ++ told_received hd old) (match found a hd with Some _ => data | None => old end) rd'.
Proof.
  intros (Hj & -> & Hst & Hi & Hb & Hbd & Hbl & Hs) Hw [He Hha] Ha Hatt; destruct (busy_iface _ _ Hi Hb) as [Hjd Hjo].
  assert (forall o2 s2 d2, recv_iface o2 = recv_iface o -> recv_job o2 = recv_job o -> recv_busy_data o2 = recv_busy_data o -> recv_busy_data_avail o2 = recv_busy_data_avail o ->
    recv_state o2 = recv_state o -> (d_err o2 = false -> is_hupd o2 = false /\ s2 = true) -> recv_ok o2 h (dlv ++ []) (dlv ++ []) d2 s2) as Hbusy.
  { intros o2 s2 d2 H1 H2 H3 H4 H5 H6; unfold recv_ok, unreported; rewrite H1, H2, H3, H4, H5, Hst, Hjd, !app_nil_r, Hj; do 5 (split; [done|]); split; [done|]; intros; apply H6; done. }
  destruct Hatt as [hd Hh Hhd|Hn|n o' hd -> Hdone].
  - split; [done|]; split; [done|]; exists true; split; [eapply with_wait_read, Hw|].
    assert (done_recv a hd h = h /\ given a hd data = [] /\ told_received hd old = []) as (-> & -> & ->) by (destruct Hhd as [-> | [-> ->]]; done).
    apply Hbusy; done.
  - split; [split; [done|]; split; [done|]; split; [done|]; intros; done|]; split; [done|]; exists rd; split; [exact Hw|].
    assert (done_recv a [Read (recv_busy_data o) (recv_busy_data_avail o); ConHandler BCONNECTION_EVENT_ERROR] h = h /\
      given a [Read (recv_busy_data o) (recv_busy_data_avail o); ConHandler BCONNECTION_EVENT_ERROR] data = []) as (-> & ->).
    { unfold done_recv, given, found; destruct a as [n| |]; [destruct (Hn n); done | done..]. }
    apply Hbusy; done.
  - destruct Ha as [[Ha1 Ha2] Hlen]; destruct Hdone as [(-> & -> & ->)|(Hn & -> & i & Hi' & ->)].
    + split; [done|]; split; [done|]; exists rd; split; [exact Hw|]; split; [|split; [exact Hi | done]].
      unfold unreported, given, found; cbn [existsb]; change (recv_iface (o <| recv_state := RECV_STATE_INITED_CLOSED |>)) with (recv_iface o); rewrite Hjd, !app_nil_r; done.
    + split; [done|]; split; [done|]; exists rd; split; [exact Hw|]; destruct (SPI.spi_inv_step (SPI.EDone n) _ _ Hi) as (i2 & Hs2 & Hi2); [split; [done | lia]|].
      pose proof (SPI.spi_op_kept _ _ _ _ Hs2 ltac:(done)) as (_ & _ & Hk1 & Hk2); cbn [SPI.handle SPI.calls_of] in Hs2; rewrite Hs2 in Hi'; injection Hi' as <-.
      unfold recv_ok, unreported; change (recv_iface (o <| recv_state := RECV_STATE_READY |> <| recv_iface := i2 |>)) with i2; rewrite Hk1, Hk2.
      unfold done_recv, given, found; cbn [existsb orb told_received map concat]; rewrite app_nil_r; destruct (Z.eqb_spec n 0) as [|_]; [lia|].
      split; [done|]; split; [exact Hi2|]; split; [unfold provider_busy in Hb; cbn; lia | done].
Qed.

(** ** Events of the connection *)

#[local] Abbreviation inv := (@inv T _ Hd Us bfd send_limit recv_limit connector_bfd).
#[local] Abbreviation enabled := (@enabled T _ Hd Us bfd send_limit recv_limit connector_bfd).
#[local] Abbreviation handle := (@handle T _ Hd Us bfd send_limit recv_limit connector_bfd).
Implicit Types (x : @event Hd Us) (w : world T Hd Us).

Definition asks_ok w ks : Prop := forall k, k ∈ ks -> (exists o, con w = Some o /\ asked o k) \/ con w = None /\ match k with Write _ _ | Read _ _ => False | _ => True end.
(** What the connector's handler is told, if it is called. *)
Definition handler_calls ks : list bool := concat (map (fun k => match k with ConnectorHandler e => [e] | _ => [] end) ks).
Definition answers_ok w ks g : Prop :=
  handler_calls ks = [] \/ told g = false /\ exists k, cnr w = Some k /\ handler_calls ks = [negb (connected k)].
Definition kept x w g : Prop := exists b w' ks,
  handle x w = Ok (b, w', ks) /\ inv w' (count x w ks g) /\ closes_ok ks (opened x (open g)) /\ asks_ok w' ks /\ answers_ok w' ks g.

Definition is_con x : bool :=
  match x with EConnectorInit _ _ _ _ _ | EConnectorJob | EConnectorFree | EInit _ _ _ _ | EFree => false | _ => true end.
Definition proper o (k : ccall Hd Us) : Prop := match k with Close _ | ConnectorHandler _ => False | _ => asked o k end.
Lemma proper_heard o ks : Forall (proper o) (heard ks) -> Forall (proper o) ks.
Proof.
  induction ks as [|k ks IH]; [constructor|]; rewrite heard_cons; destruct (is_heard k) eqn:Hk; intros Hf.
  - apply Forall_cons in Hf as [H1 H2]; constructor; auto.
  - constructor; [destruct k; done | auto].
Qed.
Lemma proper_closes o ks l : Forall (proper o) ks -> closes_ok ks l /\ fold_left (fun l k => match k with Close fd => remove_node fd l | _ => l end) ks l = l /\
  existsb (fun k => match k with ConnectorHandler _ => true | _ => false end) ks = false.
Proof. induction 1 as [|k ks Hk _ IH]; [done|]; destruct k; cbn in *; tauto. Qed.

Lemma proper_answers o ks : Forall (proper o) ks -> handler_calls ks = [].
Proof. induction 1 as [|k ks Hk _ IH]; [done|]; destruct k; cbn in *; tauto. Qed.
Lemma cnr_kept r r' kc t (vx vy : option Z) : cnr_ok connector_bfd r kc t -> same_views vx vy r r' -> vx <> Some connector_bfd -> cnr_ok connector_bfd r' kc t.
Proof.
  intros Hk [Hv _] Hx; assert (fview r' connector_bfd = fview r connector_bfd) as He by (apply Hv; congruence).
  assert (is_active (fds r') connector_bfd <-> is_active (fds r) connector_bfd) as Ha by (rewrite !fview_active, He; done).
  destruct kc as [k|]; cbn in *; [|tauto]; destruct Hk as [H1 H2]; split; [exact H1|]; destruct (have_bfd k); [rewrite He; exact H2 | tauto].
Qed.
Lemma con_event x r o kc g b r' o' ks rd wr : inv (mk_world r (Some o) kc) g -> is_con x = true ->
  handle x (mk_world r (Some o) kc) = Ok (b, mk_world r' (Some o') kc, ks) ->
  ReactorLoop.reachable r' (match x with EReactor e _ _ _ => tick e (clock g) | _ => clock g end) -> linked r' o' -> same_views (Some bfd) None r r' ->
  c_fd o' = c_fd o -> close_fd o' = close_fd o -> Forall (proper o') (heard ks) -> wait_events o' = wv rd wr ->
  send_ok o' (done_send (answer_of x) (heard ks) (count_send x (hs g))) (sent g ++ taken (answer_of x) (heard ks) (s_data g))
    (acked g ++ match x with ESendFree => unreported (send_iface o) (s_data g) | _ => told_sent (heard ks) (s_data g) end)
    (match x with ESend _ d => d | _ => s_data g end) wr ->
  recv_ok o' (done_recv (answer_of x) (heard ks) (count_recv x (hr g))) (got g ++ given (answer_of x) (heard ks) (data_of x))
    (delivered g ++ match x with ERecvFree => unreported (recv_iface o) (r_data g) | _ => told_received (heard ks) (r_data g) end)
    (match found (answer_of x) (heard ks) with Some _ => data_of x | None => r_data g end) rd ->
  kept x (mk_world r (Some o) kc) g.
Proof.
  intros (Hr & Hcon & Hcnr & Hnd & Hopen & Hdis) Hx Hh Hr' Hl Hv Hfd Hcl Hpr Hw Hs Hrc; exists b, (mk_world r' (Some o') kc), ks; split; [exact Hh|].
  pose proof (proper_heard _ _ Hpr) as Hpr'; destruct (proper_closes _ _ (open g) Hpr') as (Hclo & _); destruct (proper_closes _ _ (open g) Hpr) as (_ & Hfold & Hex).
  assert (opened x (open g) = open g) as Ho by (destruct x; done).
  split; [|split; [rewrite Ho; exact Hclo|]].
  - rewrite <- count_heard; unfold count, count_open; split; [exact Hr'|]; cbn [con rx cnr hs hr sent acked s_data got delivered r_data told open clock unacked undelivered].
    rewrite Ho, Hfold; rewrite Hex, orb_false_r; cbn [con cnr rx] in *.
    split; [split; [exact Hl|]; split; [rewrite Hfd; apply Hcon|]; exists rd, wr; split; [exact Hw|]; split; [exact Hs | exact Hrc]|].
    split; [eapply cnr_kept; [|exact Hv | congruence]; destruct x; done || discriminate Hx|]; split; [exact Hnd|]; split.
    + intros fd; rewrite Hopen; unfold owned; split; (intros [(o1 & [= <-] & H1 & H2)|Hk]; [left | right; exact Hk]).
      * exists o'; rewrite Hcl, Hfd; done.
      * exists o; rewrite <- Hcl, <- Hfd; done.
    + intros o1 k [= <-] Hk H1 H2; rewrite Hfd; apply Hdis; [done | exact Hk | congruence | exact H2].
  - split; [|left; exact (proper_answers _ _ Hpr')]; intros k Hk; left; exists o'; split; [done|]; rewrite Forall_forall in Hpr'; specialize (Hpr' k Hk); destruct k; done.
Qed.

(** An attempt to send makes no difference to the receiver, and an attempt to receive none to the sender. *)
Lemma send_calls o a o' hd rd : attempted BREACTOR_WRITE o (Write (send_busy_data o) (send_busy_data_len o)) a (send_done o) o' hd ->
  send_busy_data o = SPI.job_operation_data (send_iface o) -> send_busy_data_len o = SPI.job_operation_len (send_iface o) ->
  Forall (proper o') hd /\ found a hd = None /\ told_received hd rd = [].
Proof.
  intros Hatt Hd' Hl; destruct Hatt as [hd Hh Hhd|Hn|n o' hd -> (-> & i & Hi & ->)].
  - destruct Hhd as [-> | [-> _]]; (split; [|done]); [constructor | constructor; [done | constructor]].
  - split; [|done]; do 2 (constructor; [done|]); constructor.
  - split; [|done]; constructor; [|constructor]; destruct (SPI.spi_op_kept (SPI.EDone n) _ _ _ Hi ltac:(done)) as (H1 & H2 & _).
    cbn [proper asked]; change (send_iface (o <| send_state := SEND_STATE_READY |> <| send_iface := i |>)) with i; rewrite H1, H2; done.
Qed.
Lemma recv_calls o a o' hd sd : attempted BREACTOR_READ o (Read (recv_busy_data o) (recv_busy_data_avail o)) a (recv_done o) o' hd ->
  recv_busy_data o = SPI.job_operation_data (recv_iface o) -> recv_busy_data_avail o = SPI.job_operation_len (recv_iface o) ->
  Forall (proper o') hd /\ wrote a hd = None /\ told_sent hd sd = [].
Proof.
  intros Hatt Hd' Hl; destruct Hatt as [hd Hh Hhd|Hn|n o' hd -> [(-> & -> & ->)|(_ & -> & i & Hi & ->)]].
  - destruct Hhd as [-> | [-> _]]; (split; [|done]); [constructor | constructor; [done | constructor]].
  - split; [|done]; do 2 (constructor; [done|]); constructor.
  - split; [|done]; do 2 (constructor; [done|]); constructor.
  - split; [|done]; constructor; [|constructor]; destruct (SPI.spi_op_kept (SPI.EDone n) _ _ _ Hi ltac:(done)) as (H1 & H2 & _).
    cbn [proper asked]; change (recv_iface (o <| recv_state := RECV_STATE_READY |> <| recv_iface := i |>)) with i; rewrite H1, H2; done.
Qed.

#[local] Ltac no_calls := cbn [heard List.filter]; unfold done_send, done_recv, taken, given, told_sent, told_received, wrote, found; cbn [existsb map concat]; rewrite !app_nil_r.
Lemma set_handlers_kept hv w g : inv w g -> enabled (ESetHandlers hv) w g -> kept (ESetHandlers hv) w g.
Proof.
  destruct w as [r oc kc]; intros Hinv [o Ho]; cbn in Ho; subst oc; pose proof Hinv as (Hr & (Hl & _ & rd & wr & Hw & Hs & Hrc) & _).
  apply (con_event (ESetHandlers hv) r o kc g true r (o <| handler := hv |>) [] rd wr); try done; try reflexivity; no_calls; done.
Qed.
Lemma send_init_kept w g : inv w g -> enabled ESendInit w g -> kept ESendInit w g.
Proof.
  destruct w as [r oc kc]; intros Hinv (o & Ho & (He & Hha) & Hst); cbn in Ho; subst oc; pose proof Hinv as (Hr & (Hl & _ & rd & wr & Hw & Hs & Hrc) & _).
  unfold send_ok in Hs; rewrite Hst in Hs; destruct Hs as (Hj & Hsent & _ & Hjo & Hjd & Hwr).
  set (i := SPI.mk true false (SPI.job_operation_data (send_iface o)) (SPI.job_operation_len (send_iface o)) false (SPI.job_done_len (send_iface o)) ST_NONE).
  apply (con_event ESendInit r o kc g true r (o <| send_job := false |> <| send_state := SEND_STATE_READY |> <| send_iface := i |>) [] rd wr); try done.
  - destruct o; cbn in He, Hst; subst; reflexivity.
  - no_calls; split; [done|]; split; [rewrite Hsent; unfold unreported; rewrite Hjd; done|]; split; [done|]; split; done.
  - no_calls; done.
Qed.
Lemma recv_init_kept w g : inv w g -> enabled ERecvInit w g -> kept ERecvInit w g.
Proof.
  destruct w as [r oc kc]; intros Hinv (o & Ho & (He & Hha) & Hst); cbn in Ho; subst oc; pose proof Hinv as (Hr & (Hl & _ & rd & wr & Hw & Hs & Hrc) & _).
  unfold recv_ok in Hrc; rewrite Hst in Hrc; destruct Hrc as (Hgot & Hjo & Hjd & Hj & Hrd).
  set (i := SPI.mk true false (SPI.job_operation_data (recv_iface o)) (SPI.job_operation_len (recv_iface o)) false (SPI.job_done_len (recv_iface o)) ST_NONE).
  apply (con_event ERecvInit r o kc g true r (o <| recv_job := false |> <| recv_state := RECV_STATE_READY |> <| recv_iface := i |>) [] rd wr); try done.
  - destruct o; cbn in He, Hst; subst; reflexivity.
  - no_calls; done.
  - no_calls; split; [rewrite Hgot; unfold unreported; rewrite Hjd; done|]; split; done.
Qed.

(** The reactor is told of the new [wait_events], unless the descriptor has hung up. *)
Lemma unwait_eq ev o r kc c rd wr : ReactorLoop.reachable r c -> linked r o -> Z.land (wait_events o) (Z.lnot ev) = wv rd wr -> exists r' kr (o1 : connection),
  o1 = (if is_hupd o then o else o <| wait_events := wv rd wr |>) /\
  (if negb (is_hupd o) then
     con_mod (fun o => o <| wait_events ::= fun z => Z.land z (Z.lnot ev) |>);;
     o ← con_get; on_reactor (BReactor_SetFileDescriptorEvents bfd (wait_events o))
   else pskip) (mk_world r (Some o) kc) = Ok (tt, mk_world r' (Some o1) kc, map Sys kr) /\
  ReactorLoop.reachable r' c /\ linked r' o1 /\ same_views (Some bfd) None r r'.
Proof.
  intros Hr Hl Hw; destruct (is_hupd o) eqn:Hh; [exists r, [], o; do 4 (split; [done|]); done|].
  destruct (linked_view _ _ Hl Hh) as [n Hf]; destruct (op_set_events _ (wv rd wr) _ _ _ _ Hr Hf (wv_mask rd wr)) as (r' & ks & Hs & Hr' & Hf' & Hv).
  exists r', ks, (o <| wait_events := wv rd wr |>); split; [done|]; split; [|split; [exact Hr'|]; split; [|exact Hv]].
  - cbn [negb]; pstep; pstep.
    assert (o <| wait_events ::= fun z => Z.land z (Z.lnot ev) |> = o <| wait_events := wv rd wr |>) as -> by (rewrite <- Hw; destruct o; done).
    apply sys_last; exact Hs.
  - eapply linked_change; [exact Hl | exact Hv | exact Hh | exact Hf'].
Qed.
Lemma send_free_kept w g : inv w g -> enabled ESendFree w g -> kept ESendFree w g.
Proof.
  destruct w as [r oc kc]; intros Hinv (o & Ho & Hst); cbn in Ho; subst oc; pose proof Hinv as (Hr & (Hl & _ & rd & wr & Hw & Hs & Hrc) & _); cbn [rx] in *.
  destruct (unwait_eq BREACTOR_WRITE o r kc (clock g) rd false Hr Hl) as (r' & kr & o1 & Ho1 & Hun & Hr' & Hl' & Hv); [rewrite Hw; apply wv_clear_write|].
  set (o' := o1 <| send_job := false |> <| send_iface ::= fun i => i <| SPI.job_operation := false |> <| SPI.job_done := false |> |> <| send_state := SEND_STATE_NOT_INITED |>).
  assert (same_recv o o1 /\ same_rest o o1) as [Hsr Hsr'] by (subst o1; destruct (is_hupd o) eqn:?; repeat split; done).
  apply (con_event ESendFree r o kc g true r' o' (map Sys kr) rd (if is_hupd o then wr else false)); try done; try (apply Hsr').
  - apply with_true_w; unfold BConnection_SendAsync_Free; pstep; pstep_by ltac:(apply passert_ok; destruct (send_state o); done).
    etransitivity; [eapply pbind_calls; [exact Hun | reflexivity]|]; rewrite app_nil_r; done.
  - rewrite heard_sys; constructor.
  - unfold o'; change (wait_events o1 = wv rd (if is_hupd o then wr else false)); subst o1; destruct (is_hupd o); done.
  - rewrite heard_sys; no_calls; destruct Hs as (_ & Hsent & _); split; [done|]; split; [rewrite <- Hsent; unfold unreported; cbn; rewrite app_nil_r; done|].
    split; [done|]; do 2 (split; [done|]); destruct Hsr' as (Hh & _); change (is_hupd o1 = false -> (if is_hupd o then wr else false) = false); rewrite Hh; intros ->; done.
  - rewrite heard_sys; no_calls; eapply recv_ok_same; [|exact Hsr'|exact Hrc]; exact Hsr.
Qed.
Lemma recv_free_kept w g : inv w g -> enabled ERecvFree w g -> kept ERecvFree w g.
Proof.
  destruct w as [r oc kc]; intros Hinv (o & Ho & Hst); cbn in Ho; subst oc; pose proof Hinv as (Hr & (Hl & _ & rd & wr & Hw & Hs & Hrc) & _); cbn [rx] in *.
  destruct (unwait_eq BREACTOR_READ o r kc (clock g) false wr Hr Hl) as (r' & kr & o1 & Ho1 & Hun & Hr' & Hl' & Hv); [rewrite Hw; apply wv_clear_read|].
  set (o' := o1 <| recv_job := false |> <| recv_iface ::= fun i => i <| SPI.job_operation := false |> <| SPI.job_done := false |> |> <| recv_state := RECV_STATE_NOT_INITED |>).
  assert (same_send o o1 /\ same_rest o o1) as [Hsr Hsr'] by (subst o1; destruct (is_hupd o) eqn:?; repeat split; done).
  apply (con_event ERecvFree r o kc g true r' o' (map Sys kr) (if is_hupd o then rd else false) wr); try done; try (apply Hsr').
  - apply with_true_w; unfold BConnection_RecvAsync_Free; pstep; pstep_by ltac:(apply passert_ok; destruct Hrc as [_ Hrc]; destruct (recv_state o); done).
    etransitivity; [eapply pbind_calls; [exact Hun | reflexivity]|]; rewrite app_nil_r; done.
  - rewrite heard_sys; constructor.
  - unfold o'; change (wait_events o1 = wv (if is_hupd o then rd else false) wr); subst o1; destruct (is_hupd o); done.
  - rewrite heard_sys; no_calls; eapply send_ok_same; [|exact Hsr'|exact Hs]; exact Hsr.
  - rewrite heard_sys; no_calls; destruct Hrc as (Hgot & _); split; [rewrite <- Hgot; unfold unreported; cbn; rewrite app_nil_r; done|].
    do 3 (split; [done|]); destruct Hsr' as (Hh & _); change (is_hupd o1 = false -> (if is_hupd o then rd else false) = false); rewrite Hh; intros ->; done.
Qed.

(** *** Operations *)

Lemma on_send_nil m f r o kc i : m (send_iface o) = Ok (tt, i, []) -> on_send m f (mk_world r (Some o) kc) = Ok (tt, mk_world r (Some (o <| send_iface := i |>)) kc, @nil (ccall Hd Us)).
Proof. intros Hm; unfold on_send; pstep; rewrite Hm; reflexivity. Qed.
Lemma con_on_send_one m (f : SPI.call -> @wp T Hd Us unit) r o kc i k w' ks : m (send_iface o) = Ok (tt, i, [k]) -> f k (mk_world r (Some (o <| send_iface := i |>)) kc) = Ok (tt, w', ks) ->
  on_send m f (mk_world r (Some o) kc) = Ok (tt, w', ks).
Proof. intros Hm Hf; unfold on_send; pstep; rewrite Hm; pstep; cbn [foreach]; etransitivity; [eapply pbind_calls; [exact Hf | reflexivity]|]; rewrite app_nil_r; done. Qed.
Lemma on_recv_nil m f r o kc i : m (recv_iface o) = Ok (tt, i, []) -> on_recv m f (mk_world r (Some o) kc) = Ok (tt, mk_world r (Some (o <| recv_iface := i |>)) kc, @nil (ccall Hd Us)).
Proof. intros Hm; unfold on_recv; pstep; rewrite Hm; reflexivity. Qed.
Lemma con_on_recv_one m (f : SPI.call -> @wp T Hd Us unit) r o kc i k w' ks : m (recv_iface o) = Ok (tt, i, [k]) -> f k (mk_world r (Some (o <| recv_iface := i |>)) kc) = Ok (tt, w', ks) ->
  on_recv m f (mk_world r (Some o) kc) = Ok (tt, w', ks).
Proof. intros Hm Hf; unfold on_recv; pstep; rewrite Hm; pstep; cbn [foreach]; etransitivity; [eapply pbind_calls; [exact Hf | reflexivity]|]; rewrite app_nil_r; done. Qed.

(** Where an interface stands, by what its jobs and its user do. *)
Lemma idle_iface i h : SPI.inv i h -> user_idle h -> SPI.job_done i = false /\ ~ provider_busy h.
Proof. intros (_ & Hs) Hi; unfold user_idle, provider_busy in *; destruct (SPI.state i); destruct_and?; split; done || lia. Qed.
Lemma pending_iface i h : SPI.inv i h -> SPI.job_operation i = true -> SPI.job_done i = false /\ h_received h = h_finished h /\ 0 < SPI.job_operation_len i.
Proof. intros (_ & Hs) Hi; destruct (SPI.state i); destruct_and?; congruence || done. Qed.
Lemma done_iface i h : SPI.inv i h -> SPI.job_done i = true -> h_received h = h_finished h.
Proof. intros (_ & Hs) Hi; destruct (SPI.state i); destruct_and?; congruence || done. Qed.
(** The state of the connection that goes with it. *)
Lemma send_ready o h snt ack data s : send_ok o h snt ack data s -> send_state o <> SEND_STATE_NOT_INITED -> ~ provider_busy h ->
  send_state o = SEND_STATE_READY /\ SPI.inv (send_iface o) h /\ (is_hupd o = false -> s = false).
Proof. intros (_ & _ & _ & Hs) Hn Hb; destruct (send_state o); tauto. Qed.
Lemma send_inited o h snt ack data s : send_ok o h snt ack data s -> SPI.job_operation (send_iface o) = true \/ SPI.job_done (send_iface o) = true ->
  send_state o <> SEND_STATE_NOT_INITED /\ SPI.inv (send_iface o) h.
Proof. intros (_ & _ & _ & Hs) Hj; destruct (send_state o); destruct_and?; (destruct Hj; congruence) || done. Qed.
Lemma recv_ready o h gt dlv data s : recv_ok o h gt dlv data s -> recv_state o <> RECV_STATE_NOT_INITED -> ~ provider_busy h ->
  recv_state o = RECV_STATE_READY /\ SPI.inv (recv_iface o) h /\ recv_job o = false /\ (is_hupd o = false -> s = false).
Proof. intros (_ & Hs) Hn Hb; destruct (recv_state o); tauto. Qed.
Lemma recv_inited o h gt dlv data s : recv_ok o h gt dlv data s -> SPI.job_operation (recv_iface o) = true \/ SPI.job_done (recv_iface o) = true ->
  recv_state o <> RECV_STATE_NOT_INITED /\ SPI.inv (recv_iface o) h.
Proof. intros (_ & Hs) Hj; destruct (recv_state o); destruct_and?; (destruct Hj; congruence) || done. Qed.
Lemma not_busy h : h_received h = h_finished h -> ~ provider_busy h.
Proof. unfold provider_busy; lia. Qed.

Lemma send_kept p d w g : inv w g -> enabled (ESend p d) w g -> kept (ESend p d) w g.
Proof.
  destruct w as [r oc kc]; intros Hinv (o & Ho & [He Hha] & Hst & Hen); cbn in Ho; subst oc; pose proof Hinv as (Hr & (Hl & _ & rd & wr & Hw & Hs & Hrc) & _).
  assert (SPI.inv (send_iface o) (hs g)) as Hi by (destruct Hs as (_ & _ & _ & Hs); destruct (send_state o); tauto).
  destruct (idle_iface _ _ Hi (proj1 Hen)) as [Hjd Hnb]; destruct (send_ready _ _ _ _ _ _ Hs Hst Hnb) as (Hst' & _ & Hwr).
  destruct (SPI.spi_inv_step _ _ _ Hi Hen) as (i & Hi' & Hinv'); destruct (SPI.spi_send_data _ _ _ _ _ Hi') as (_ & Hlen & Hjd').
  apply (con_event (ESend p d) r o kc g true r (o <| send_iface := i |>) [] rd wr); try done.
  - unfold handle; apply with_true_w; apply on_send_nil; exact Hi'.
  - no_calls; split; [apply Hs|]; split; [destruct Hs as (_ & Hsent & _); rewrite Hsent; unfold unreported; change (send_iface (o <| send_iface := i |>)) with i; rewrite Hjd, Hjd', Hjd; done|].
    split; [intros _; symmetry; exact Hlen|]; change (send_state (o <| send_iface := i |>)) with (send_state o); rewrite Hst'; split; [exact Hinv'|].
    split; [|exact Hwr]; destruct Hi as (_ & Hi); unfold provider_busy in Hnb; cbn; destruct (SPI.state (send_iface o)); destruct_and?; lia || done.
  - no_calls; exact Hrc.
Qed.
Lemma recv_kept p n w g : inv w g -> enabled (ERecv p n) w g -> kept (ERecv p n) w g.
Proof.
  destruct w as [r oc kc]; intros Hinv (o & Ho & [He Hha] & Hst & Hen); cbn in Ho; subst oc; pose proof Hinv as (Hr & (Hl & _ & rd & wr & Hw & Hs & Hrc) & _).
  assert (SPI.inv (recv_iface o) (hr g)) as Hi by (destruct Hrc as (_ & Hrc); destruct (recv_state o); tauto).
  destruct (idle_iface _ _ Hi (proj1 Hen)) as [Hjd Hnb]; destruct (recv_ready _ _ _ _ _ _ Hrc Hst Hnb) as (Hst' & _ & Hj & Hrd).
  destruct (SPI.spi_inv_step _ _ _ Hi Hen) as (i & Hi' & Hinv'); destruct (SPI.spi_send_data _ _ _ _ _ Hi') as (_ & Hlen & Hjd').
  apply (con_event (ERecv p n) r o kc g true r (o <| recv_iface := i |>) [] rd wr); try done.
  - unfold handle; apply with_true_w; apply on_recv_nil; exact Hi'.
  - no_calls; exact Hs.
  - no_calls; split; [destruct Hrc as (Hgot & _); rewrite Hgot; unfold unreported; change (recv_iface (o <| recv_iface := i |>)) with i; rewrite Hjd, Hjd', Hjd; done|].
    change (recv_state (o <| recv_iface := i |>)) with (recv_state o); rewrite Hst'; split; [exact Hinv'|].
    split; [|done]; destruct Hi as (_ & Hi); unfold provider_busy in Hnb; cbn; destruct (SPI.state (recv_iface o)); destruct_and?; lia || done.
Qed.
Lemma send_completed_kept w g : inv w g -> enabled ESendCompleted w g -> kept ESendCompleted w g.
Proof.
  destruct w as [r oc kc]; intros Hinv (o & Ho & [He Hha] & Hjd); cbn in Ho; subst oc; pose proof Hinv as (Hr & (Hl & _ & rd & wr & Hw & Hs & Hrc) & _).
  destruct (send_inited _ _ _ _ _ _ Hs ltac:(right; exact Hjd)) as [Hst Hi]; pose proof (done_iface _ _ Hi Hjd) as Hrf.
  destruct (send_ready _ _ _ _ _ _ Hs Hst (not_busy _ Hrf)) as (Hst' & _ & Hwr); destruct (SPI.spi_inv_step SPI.ECompleted _ _ Hi Hjd) as (i & Hi' & Hinv').
  destruct (SPI.spi_op_kept _ _ _ _ Hi' ltac:(done)) as (_ & _ & Hjd'); pose proof Hs as (Hsj & Hsent & _).
  apply (con_event ESendCompleted r o kc g true r (o <| send_iface := i |>) [SendDone (SPI.job_done_len (send_iface o))] rd wr); try done.
  - unfold handle; apply with_true_w; eapply con_on_send_one; [exact Hi' | reflexivity].
  - constructor; [done | constructor].
  - cbn [heard List.filter is_heard told_sent map concat]; rewrite !app_nil_r; split; [exact Hsj|].
    split; [rewrite Hsent; unfold unreported; change (send_iface (o <| send_iface := i |>)) with i; rewrite Hjd, Hjd', app_nil_r; done|].
    split; [change (SPI.job_operation i = true -> Zlen (s_data g) = SPI.job_operation_len i); intros Hx; exfalso; destruct Hinv' as [_ Hinv']; rewrite Hx in Hinv';
      cbn [SPI.count h_started h_received h_finished h_completed] in Hinv'; destruct (SPI.state i); destruct_and?; try done; destruct Hi as [_ Hi]; rewrite Hjd in Hi; destruct (SPI.state (send_iface o)); destruct_and?; done || lia|].
    change (send_state (o <| send_iface := i |>)) with (send_state o); rewrite Hst'; split; [exact Hinv' | done].
  - no_calls; exact Hrc.
Qed.
Lemma recv_completed_kept w g : inv w g -> enabled ERecvCompleted w g -> kept ERecvCompleted w g.
Proof.
  destruct w as [r oc kc]; intros Hinv (o & Ho & [He Hha] & Hjd); cbn in Ho; subst oc; pose proof Hinv as (Hr & (Hl & _ & rd & wr & Hw & Hs & Hrc) & _).
  destruct (recv_inited _ _ _ _ _ _ Hrc ltac:(right; exact Hjd)) as [Hst Hi]; pose proof (done_iface _ _ Hi Hjd) as Hrf.
  destruct (recv_ready _ _ _ _ _ _ Hrc Hst (not_busy _ Hrf)) as (Hst' & _ & Hj & Hrd); destruct (SPI.spi_inv_step SPI.ECompleted _ _ Hi Hjd) as (i & Hi' & Hinv').
  destruct (SPI.spi_op_kept _ _ _ _ Hi' ltac:(done)) as (_ & _ & Hjd'); pose proof Hrc as (Hgot & _).
  apply (con_event ERecvCompleted r o kc g true r (o <| recv_iface := i |>) [RecvDone (SPI.job_done_len (recv_iface o))] rd wr); try done.
  - unfold handle; apply with_true_w; eapply con_on_recv_one; [exact Hi' | reflexivity].
  - constructor; [done | constructor].
  - no_calls; exact Hs.
  - cbn [heard List.filter is_heard told_received map concat]; rewrite !app_nil_r.
    split; [rewrite Hgot; unfold unreported; change (recv_iface (o <| recv_iface := i |>)) with i; cbn; rewrite Hjd, Hjd', app_nil_r; done|].
    change (recv_state (o <| recv_iface := i |>)) with (recv_state o); rewrite Hst'; split; [exact Hinv' | done].
Qed.

(** *** Attempts *)

Definition clock_of x g : Z := match x with EReactor e _ _ _ => tick e (clock g) | _ => clock g end.
Definition attempts x : Prop := match x with ESendOperation _ | ERecvOperation _ _ | ERecvJob _ _ | EReactor _ _ _ _ => True | _ => False end.
(** The rest of the event, once the connection is about to send. *)
Lemma send_event x r o kc g r1 o2 rd wr : inv (mk_world r (Some o) kc) g -> attempts x -> ReactorLoop.reachable r1 (clock_of x g) -> linked r1 o2 ->
  same_views (Some bfd) None r r1 -> c_fd o2 = c_fd o -> close_fd o2 = close_fd o -> usable o2 -> wait_events o2 = wv rd wr ->
  sending_now o2 (count_send x (hs g)) (sent g) (acked g) (s_data g) wr -> recv_ok o2 (hr g) (got g) (delivered g) (r_data g) rd ->
  count_recv x (hr g) = hr g -> write_ok (send_busy_data_len o2) (answer_of x) ->
  (forall w' ks, connection_send bfd send_limit (answer_of x) (mk_world r1 (Some o2) kc) = Ok (tt, w', ks) -> exists k0,
     handle x (mk_world r (Some o) kc) = Ok (true, w', k0 ++ ks) /\ heard k0 = []) -> kept x (mk_world r (Some o) kc) g.
Proof.
  intros Hinv Hx Hr Hl Hv Hfd Hcl Hu Hw Hs Hrc Hcr Ha Hh; pose proof Hs as (_ & _ & Hst & Hi & Hb & _ & Hbd & Hbl & _).
  destruct (connection_send_ok r1 o2 kc _ (answer_of x) rd wr _ Hr Hl Hw Hu Hst Hi Hb Hbl Ha) as (r' & o' & ks & Hcs & Hr' & Hl' & Hv' & Hatt).
  destruct (Hh _ _ Hcs) as (k0 & Hhx & Hk0); destruct (send_attempt _ _ _ _ _ _ _ _ _ _ Hs Hw Hu Ha Hatt) as (Hsr & Hsv & wr' & Hw' & Hsok).
  destruct (send_calls _ _ _ _ (r_data g) Hatt Hbd Hbl) as (Hpr & Hfo & Hto); pose proof Hsr as (_ & H1 & H2 & _).
  assert (heard (k0 ++ ks) = heard ks) as Hhk by (rewrite heard_app, Hk0; done).
  apply (con_event x r o kc g true r' o' (k0 ++ ks) rd wr'); rewrite ?Hhk; try done; try congruence; try (destruct x; done).
  - destruct Hv as [V1 V2], Hv' as [V3 V4]; split; intros; [rewrite V3, V1 by done | rewrite V4, V2 by done]; done.
  - assert (match x with ERecvFree => unreported (recv_iface o) (r_data g) | _ => told_received (heard ks) (r_data g) end = []) as -> by (destruct x; done).
    unfold done_recv, given; rewrite Hfo, Hcr, !app_nil_r; exact (recv_ok_same _ _ _ _ _ _ _ Hsv Hsr Hrc).
Qed.
Lemma con_recv_event x r o kc g r1 o2 rd wr : inv (mk_world r (Some o) kc) g -> attempts x -> ReactorLoop.reachable r1 (clock_of x g) -> linked r1 o2 ->
  same_views (Some bfd) None r r1 -> c_fd o2 = c_fd o -> close_fd o2 = close_fd o -> usable o2 -> wait_events o2 = wv rd wr ->
  receiving_now o2 (count_recv x (hr g)) (got g) (delivered g) rd -> send_ok o2 (hs g) (sent g) (acked g) (s_data g) wr ->
  count_send x (hs g) = hs g -> read_ok (recv_busy_data_avail o2) (answer_of x) (data_of x) ->
  (forall w' ks, connection_recv bfd recv_limit (answer_of x) (mk_world r1 (Some o2) kc) = Ok (tt, w', ks) -> exists k0,
     handle x (mk_world r (Some o) kc) = Ok (true, w', k0 ++ ks) /\ heard k0 = []) -> kept x (mk_world r (Some o) kc) g.
Proof.
  intros Hinv Hx Hr Hl Hv Hfd Hcl Hu Hw Hs Hsd Hcs Ha Hh; pose proof Hs as (_ & _ & Hst & Hi & Hb & Hbd & Hbl & _).
  destruct (connection_recv_ok r1 o2 kc _ (answer_of x) (data_of x) rd wr _ Hr Hl Hw Hu Hst Hi Hb Hbl Ha) as (r' & o' & ks & Hcr & Hr' & Hl' & Hv' & Hatt).
  destruct (Hh _ _ Hcr) as (k0 & Hhx & Hk0); destruct (recv_attempt _ _ _ _ _ _ _ _ _ _ (r_data g) Hs Hw Hu Ha Hatt) as (Hsr & Hsv & rd' & Hw' & Hrok).
  destruct (recv_calls _ _ _ _ (s_data g) Hatt Hbd Hbl) as (Hpr & Hfo & Hto); pose proof Hsr as (_ & H1 & H2 & _).
  assert (heard (k0 ++ ks) = heard ks) as Hhk by (rewrite heard_app, Hk0; done).
  apply (con_event x r o kc g true r' o' (k0 ++ ks) rd' wr); rewrite ?Hhk; try done; try congruence; try (destruct x; done).
  - destruct Hv as [V1 V2], Hv' as [V3 V4]; split; intros; [rewrite V3, V1 by done | rewrite V4, V2 by done]; done.
  - assert (match x with ESendFree => unreported (send_iface o) (s_data g) | _ => told_sent (heard ks) (s_data g) end = []) as -> by (destruct x; done).
    assert (match x with ESend _ d => d | _ => s_data g end = s_data g) as -> by (destruct x; done).
    unfold done_send, taken; rewrite Hfo, Hcs, !app_nil_r; exact (send_ok_same _ _ _ _ _ _ _ Hsv Hsr Hsd).
Qed.

Lemma operation_step i h : SPI.inv i h -> SPI.job_operation i = true -> exists i',
  SPI.run_operation i = Ok (tt, i', [SPI.HandlerOperation (SPI.job_operation_data i) (SPI.job_operation_len i)]) /\ SPI.inv i' (SPI.count SPI.EOperation h) /\
  provider_busy (SPI.count SPI.EOperation h) /\ SPI.job_operation_data i' = SPI.job_operation_data i /\ SPI.job_operation_len i' = SPI.job_operation_len i.
Proof.
  intros Hi Hj; destruct (pending_iface _ _ Hi Hj) as (_ & Hrf & _); destruct (SPI.spi_inv_step SPI.EOperation _ _ Hi Hj) as (i' & Hs & Hi').
  destruct (SPI.spi_op_kept _ _ _ _ Hs ltac:(done)) as (H1 & H2 & _); exists i'; split; [exact Hs|]; split; [exact Hi'|]; split; [unfold provider_busy; cbn; lia | done].
Qed.
Lemma send_operation_kept a w g : inv w g -> enabled (ESendOperation a) w g -> kept (ESendOperation a) w g.
Proof.
  destruct w as [r oc kc]; intros Hinv (o & Ho & Hu & Hjo & Ha); cbn in Ho; subst oc; pose proof Hinv as (Hr & (Hl & _ & rd & wr & Hw & Hs & Hrc) & _).
  destruct (send_inited _ _ _ _ _ _ Hs ltac:(left; exact Hjo)) as [Hst Hi]; destruct (pending_iface _ _ Hi Hjo) as (Hjd & Hrf & Hlen).
  destruct (send_ready _ _ _ _ _ _ Hs Hst (not_busy _ Hrf)) as (Hst' & _ & Hwr); destruct (operation_step _ _ Hi Hjo) as (i' & Hi' & Hinv' & Hb' & Hd' & Hl').
  pose proof Hs as (Hsj & Hsent & Hdata & _); set (o2 := o <| send_iface := i' |> <| send_busy_data := SPI.job_operation_data (send_iface o) |> <| send_busy_data_len := SPI.job_operation_len (send_iface o) |>
    <| send_state := SEND_STATE_BUSY |>).
  apply (send_event (ESendOperation a) r o kc g r o2 rd wr); try done.
  - split; [exact Hsj|]; split; [rewrite Hsent; unfold unreported; rewrite Hjd, app_nil_r; done|]; do 3 (split; [done|]); split; [apply Hdata, Hjo|].
    split; [symmetry; exact Hd'|]; split; [symmetry; exact Hl' | exact Hwr].
  - intros w' ks Hcs; exists []; split; [|done]; apply with_true_w; eapply con_on_send_one; [exact Hi'|]; cbn [dispatch_send].
    unfold connection_send_if_handler_send; pstep; destruct Hu as [He _]; change (d_err (o <| send_iface := i' |>)) with (d_err o); rewrite He; pstep.
    change (send_state (o <| send_iface := i' |>)) with (send_state o); rewrite Hst'; pstep; pstep_by ltac:(apply passert_ok; lia); pstep; pstep; exact Hcs.
Qed.
Lemma recv_operation_kept a data w g : inv w g -> enabled (ERecvOperation a data) w g -> kept (ERecvOperation a data) w g.
Proof.
  destruct w as [r oc kc]; intros Hinv (o & Ho & Hu & Hjo & Ha); cbn in Ho; subst oc; pose proof Hinv as (Hr & (Hl & _ & rd & wr & Hw & Hs & Hrc) & _).
  destruct (recv_inited _ _ _ _ _ _ Hrc ltac:(left; exact Hjo)) as [Hst Hi]; destruct (pending_iface _ _ Hi Hjo) as (Hjd & Hrf & Hlen).
  destruct (recv_ready _ _ _ _ _ _ Hrc Hst (not_busy _ Hrf)) as (Hst' & _ & Hj & Hrd); destruct (operation_step _ _ Hi Hjo) as (i' & Hi' & Hinv' & Hb' & Hd' & Hl').
  pose proof Hrc as (Hgot & _); set (o2 := o <| recv_iface := i' |> <| recv_busy_data := SPI.job_operation_data (recv_iface o) |> <| recv_busy_data_avail := SPI.job_operation_len (recv_iface o) |>
    <| recv_state := RECV_STATE_BUSY |>).
  apply (con_recv_event (ERecvOperation a data) r o kc g r o2 rd wr); try done.
  - split; [exact Hj|]; split; [rewrite Hgot; unfold unreported; rewrite Hjd, app_nil_r; done|]; do 3 (split; [done|]).
    split; [symmetry; exact Hd'|]; split; [symmetry; exact Hl' | exact Hrd].
  - intros w' ks Hcs; exists []; split; [|done]; apply with_true_w; eapply con_on_recv_one; [exact Hi'|]; cbn [dispatch_recv].
    unfold connection_recv_if_handler_recv; pstep; destruct Hu as [He _]; change (d_err (o <| recv_iface := i' |>)) with (d_err o); rewrite He; pstep.
    change (recv_state (o <| recv_iface := i' |>)) with (recv_state o); rewrite Hst'; pstep; pstep_by ltac:(apply passert_ok; lia); pstep; pstep; exact Hcs.
Qed.
Lemma recv_job_kept a data w g : inv w g -> enabled (ERecvJob a data) w g -> kept (ERecvJob a data) w g.
Proof.
  destruct w as [r oc kc]; intros Hinv (o & Ho & Hu & Hj & Ha); cbn in Ho; subst oc; pose proof Hinv as (Hr & (Hl & _ & rd & wr & Hw & Hs & Hrc) & _).
  pose proof Hrc as (Hgot & Hst); destruct (recv_state o) eqn:Est; try contradiction; try (destruct_and?; congruence); destruct Hst as (Hi & Hb & Hbd & Hbl & Hrd & _).
  destruct (busy_iface _ _ Hi Hb) as [Hjd _]; set (o2 := o <| recv_job := false |>); apply (con_recv_event (ERecvJob a data) r o kc g r o2 rd wr); try done.
  - split; [done|]; split; [rewrite Hgot; unfold unreported; rewrite Hjd, app_nil_r; done|]; do 5 (split; [done|]); exact (Hrd Hj).
  - intros w' ks Hcs; exists []; split; [|done]; apply with_true_w; unfold connection_recv_job_handler; pstep; pstep; destruct Hu as [He _].
    change (d_err (o <| recv_job := false |>)) with (d_err o); rewrite He; pstep; change (recv_state (o <| recv_job := false |>)) with (recv_state o); rewrite Est; pstep; exact Hcs.
Qed.
(** [o->send.job] is never set. *)
Lemma send_job_kept a w g : inv w g -> enabled (ESendJob a) w g -> kept (ESendJob a) w g.
Proof.
  destruct w as [r oc kc]; intros Hinv (o & Ho & Hu & Hj & _); cbn in Ho; subst oc; pose proof Hinv as (_ & (_ & _ & rd & wr & _ & (Hs & _) & _) & _); congruence.
Qed.

(** *** The reactor calls *)

Lemma foreach_sys so a kr w : (forall ev, FdHandler bfd ev ∉ kr) -> (forall ev, FdHandler connector_bfd ev ∉ kr) ->
  foreach (dispatch bfd send_limit recv_limit connector_bfd so a) kr w = Ok (tt, w, map Sys kr).
Proof.
  intros H1 H2; induction kr as [|k kr IH]; [done|]; cbn [foreach map].
  assert (dispatch bfd send_limit recv_limit connector_bfd so a k = pcall (Sys k)) as ->.
  { destruct k as [j|bt small|bs ev|t|op f ev p|]; try done; cbn [dispatch]; destruct (Z.eqb_spec bs bfd) as [->|]; [destruct (H1 ev); left|].
    destruct (Z.eqb_spec bs connector_bfd) as [->|]; [destruct (H2 ev); left | done]. }
  apply call_step, IH; [intros ev Hi; apply (H1 ev); right; exact Hi | intros ev Hi; apply (H2 ev); right; exact Hi].
Qed.
Lemma con_none_kept r r' (vx vy : option Z) g g' : con_ok bfd send_limit recv_limit r None g -> same_views vx vy r r' -> vx <> Some bfd -> vy <> Some send_limit -> vy <> Some recv_limit ->
  sent g' = sent g -> acked g' = acked g -> got g' = got g -> delivered g' = delivered g -> con_ok bfd send_limit recv_limit r' None g'.
Proof.
  intros (Ha & H1 & H2 & H3 & H4) [V1 V2] Hx Hy1 Hy2 E1 E2 E3 E4; unfold con_ok; rewrite E1, E2, E3, E4; split; [|split; [|split; [|done]]].
  - rewrite fview_active in *; rewrite V1 by congruence; exact Ha.
  - rewrite V2 by congruence; exact H1.
  - rewrite V2 by congruence; exact H2.
Qed.
(** Calls of the system alone change nothing that is counted. *)
Lemma count_sys x w (kr : list (rcall Hd Us)) g : match x with EReactor _ _ _ _ => True | _ => False end ->
  count x w (map Sys kr) g = mk_ghost (clock_of x g) (hs g) (hr g) (sent g) (acked g) (s_data g) (got g) (delivered g) (r_data g) (told g) (open g).
Proof. intros Hx; destruct x; try contradiction; rewrite <- count_heard, heard_sys; unfold count; cbn; rewrite !app_nil_r, orb_false_r; done. Qed.
Lemma sys_closes (kr : list (rcall Hd Us)) l : closes_ok (map (@Sys Hd Us) kr) l.
Proof. induction kr as [|k kr IH]; [done | exact IH]. Qed.
Lemma sys_asks w (kr : list (rcall Hd Us)) : asks_ok w (map Sys kr).
Proof. intros k Hk; apply list_elem_of_fmap in Hk as (c & -> & _); destruct (con w) as [o|] eqn:Ho; [left; exists o; done | right; done]. Qed.

Lemma sys_answers (kr : list (rcall Hd Us)) : handler_calls (map (@Sys Hd Us) kr) = [].
Proof. induction kr as [|k kr IH]; [done | exact IH]. Qed.

(** An event of the reactor that is no business of the connection's or the connector's. *)
Lemma reactor_quiet_kept e so a data r oc kc g b r1 kr : inv (mk_world r oc kc) g -> ReactorLoop.handle e r = Ok (b, r1, kr) -> ReactorLoop.reachable r1 (tick e (clock g)) ->
  same_views (event_fd e) (event_limit e) r r1 -> event_fd e <> Some bfd -> event_fd e <> Some connector_bfd -> event_limit e <> Some send_limit -> event_limit e <> Some recv_limit ->
  (forall ev, FdHandler bfd ev ∉ kr) -> (forall ev, FdHandler connector_bfd ev ∉ kr) -> kept (EReactor e so a data) (mk_world r oc kc) g.
Proof.
  intros (Hr & Hcon & Hcnr & Hopen) Hh Hr1 Hv Hx1 Hx2 Hy1 Hy2 H1 H2; exists true, (mk_world r1 oc kc), (map Sys kr); split; [|split; [|split; [apply sys_closes | split; [apply sys_asks | left; apply sys_answers]]]].
  - unfold handle; cbn [rx]; rewrite Hh; etransitivity; [eapply pbind_calls; [apply foreach_sys; done | reflexivity]|]; rewrite app_nil_r; done.
  - rewrite count_sys by done; split; [exact Hr1|]; cbn [con rx cnr told open] in *; split; [|split; [eapply cnr_kept; [exact Hcnr | exact Hv | exact Hx2] | exact Hopen]].
    destruct oc as [o|]; [destruct Hcon as [Hl Hc]; split; [eapply linked_kept; [exact Hl | exact Hv | done..] | exact Hc]|].
    eapply con_none_kept; [exact Hcon | exact Hv | done..].
Qed.

(** The handler of the descriptor: what it waits for no more, and whether it hangs up. *)
Definition hung_up ev o rd wr : connection :=
  o <| wait_events := wv (rd && negb (has_bit ev BREACTOR_READ)) (wr && negb (has_bit ev BREACTOR_WRITE)) |> <| is_hupd := has_bit ev BREACTOR_HUP |>.
Definition fd_rest ev a o : @wp T Hd Us unit :=
  let have_send := has_bit ev BREACTOR_WRITE || (has_bit ev (Z.lor BREACTOR_ERROR BREACTOR_HUP) && sending (send_state o) SEND_STATE_BUSY) in
  let have_recv := has_bit ev BREACTOR_READ || (has_bit ev (Z.lor BREACTOR_ERROR BREACTOR_HUP) && receiving (recv_state o) RECV_STATE_BUSY) in
  (if have_send then passert (sending (send_state o) SEND_STATE_BUSY) else pskip);;
  (if have_recv then passert (receiving (recv_state o) RECV_STATE_BUSY) else pskip);;
  if have_send then (if have_recv then con_mod (fun o => o <| recv_job := true |>) else pskip);; connection_send bfd send_limit a
  else if have_recv then connection_recv bfd recv_limit a
  else o ← con_get; if negb (is_hupd o) then connection_report_error else pskip.
Lemma fd_start ev a r o kc c rd wr : ReactorLoop.reachable r c -> linked r o -> is_hupd o = false -> d_err o = false -> wait_events o = wv rd wr -> exists r' kr,
  ReactorLoop.reachable r' c /\ linked r' (hung_up ev o rd wr) /\ same_views (Some bfd) None r r' /\
  forall w' k2, fd_rest ev a o (mk_world r' (Some (hung_up ev o rd wr)) kc) = Ok (tt, w', k2) ->
    connection_fd_handler bfd send_limit recv_limit ev a (mk_world r (Some o) kc) = Ok (tt, w', map Sys kr ++ k2).
Proof.
  intros Hr Hl Hh He Hw; destruct (linked_view _ _ Hl Hh) as [n Hf]; set (wv' := wv (rd && negb (has_bit ev BREACTOR_READ)) (wr && negb (has_bit ev BREACTOR_WRITE))).
  destruct (op_set_events _ wv' _ _ _ _ Hr Hf (wv_mask _ _)) as (r1 & k1 & Hs1 & Hr1 & Hf1 & Hv1).
  set (o1 := o <| wait_events := wv' |>); assert (o <| wait_events ::= fun z => Z.land z (Z.lnot ev) |> = o1) as Eo1.
  { unfold o1, wv'; rewrite <- wv_clear, <- Hw; destruct o; done. }
  assert (exists r' kr, (if has_bit ev BREACTOR_HUP then on_reactor (BReactor_RemoveFileDescriptor bfd);; con_mod (fun o => o <| is_hupd := true |>) else pskip) (mk_world r1 (Some o1) kc) =
      Ok (tt, mk_world r' (Some (hung_up ev o rd wr)) kc, map Sys kr) /\ ReactorLoop.reachable r' c /\ linked r' (hung_up ev o rd wr) /\ same_views (Some bfd) None r1 r')
    as (r' & kr & Hs2 & Hr2 & Hl2 & Hv2).
  { unfold hung_up; fold wv' o1; destruct (has_bit ev BREACTOR_HUP) eqn:Hup.
    - destruct (op_remove _ _ _ _ _ Hr1 Hf1) as (r2 & k2 & Hs2 & Hr2 & Hf2 & Hv2); exists r2, k2; split; [|split; [exact Hr2|]; split; [|exact Hv2]].
      + etransitivity; [eapply sys_step; [exact Hs2 | reflexivity]|]; rewrite app_nil_r; done.
      + destruct Hl as (_ & L1 & L2), Hv1 as [_ V1], Hv2 as [_ V2]; split; [exists n, wv'; split; [exact Hf2 | done]|]; rewrite !V2, !V1 by done; done.
    - exists r1, []; split; [unfold pskip, mret, prog_ret; do 4 f_equal; destruct o; cbn in Hh |- *; subst; done|]; split; [exact Hr1|]; split; [|done].
      eapply linked_change; [exact Hl | exact Hv1 | done | exact Hf1]. }
  exists r', (k1 ++ kr); split; [exact Hr2|]; split; [exact Hl2|]; split; [destruct Hv1 as [V1 V2], Hv2 as [V3 V4]; split; intros; [rewrite V3, V1 by done | rewrite V4, V2 by done]; done|].
  intros w' k2 Hrest; unfold connection_fd_handler; pstep; rewrite He, Hh; pstep; pstep; pstep; rewrite Eo1; pstep.
  change (wait_events o1) with wv'; rewrite map_app, <- app_assoc; eapply sys_step; [exact Hs1|]; eapply pbind_calls; [exact Hs2 | exact Hrest].
Qed.

Section fd_event.
Variables (ev : Z) (o : connection) (rd wr : bool) (h hq : history) (snt ack sd gt dlv rv : list Z).
Hypothesis Hs : send_ok o h snt ack sd wr.
Hypothesis Hrc : recv_ok o hq gt dlv rv rd.
Hypothesis Hw : wait_events o = wv rd wr.
Hypothesis He : d_err o = false.
Hypothesis Hh : is_hupd o = false.
Hypothesis Hj : recv_job o = false.
Hypothesis Hrd : has_bit ev BREACTOR_READ = true -> rd = true.
Hypothesis Hwr : has_bit ev BREACTOR_WRITE = true -> wr = true.
Hypothesis Herr : error_ready o ev.

Lemma send_busy_iff : send_state o = SEND_STATE_BUSY <-> wr = true.
Proof.
  destruct Hs as (_ & _ & _ & Hst); destruct (send_state o).
  - destruct Hst as (_ & _ & Hst); split; [done | intros Hx; rewrite (Hst Hh) in Hx; done].
  - destruct Hst as (_ & _ & Hst); split; [done | intros Hx; rewrite (Hst Hh) in Hx; done].
  - destruct Hst as (_ & _ & _ & _ & _ & Hst); split; [intros _; apply Hst, He | done].
Qed.
Lemma recv_busy_iff : recv_state o = RECV_STATE_BUSY <-> rd = true.
Proof.
  destruct Hrc as (_ & Hst); destruct (recv_state o); try contradiction.
  - destruct Hst as (_ & _ & _ & Hst); split; [done | intros Hx; rewrite (Hst Hh) in Hx; done].
  - destruct Hst as (_ & _ & _ & Hst); split; [done | intros Hx; rewrite (Hst Hh) in Hx; done].
  - destruct Hst as (_ & _ & _ & _ & _ & Hst); split; [intros _; apply Hst; done | done].
  - destruct Hst as (_ & _ & _ & Hst); split; [done | intros Hx; rewrite (Hst Hh) in Hx; done].
Qed.
Definition alarm : bool := has_bit ev (Z.lor BREACTOR_ERROR BREACTOR_HUP).
Lemma alarm_eq : alarm = has_bit ev BREACTOR_ERROR || has_bit ev BREACTOR_HUP.
Proof. apply has_bit_two; lia. Qed.
Definition have_send : bool := has_bit ev BREACTOR_WRITE || (alarm && sending (send_state o) SEND_STATE_BUSY).
Definition have_recv : bool := has_bit ev BREACTOR_READ || (alarm && receiving (recv_state o) RECV_STATE_BUSY).
Lemma have_send_busy : have_send = true -> send_state o = SEND_STATE_BUSY.
Proof. intros [Hx|[_ Hx]%andb_true_iff]%orb_true_iff; [apply send_busy_iff, Hwr, Hx | exact (bool_decide_eq_true_1 _ Hx)]. Qed.
Lemma have_recv_busy : have_recv = true -> recv_state o = RECV_STATE_BUSY.
Proof. intros [Hx|[_ Hx]%andb_true_iff]%orb_true_iff; [apply recv_busy_iff, Hrd, Hx | exact (bool_decide_eq_true_1 _ Hx)]. Qed.
(** What is handled is waited for no more, unless the descriptor has hung up. *)
Lemma have_send_clear : have_send = true -> has_bit ev BREACTOR_HUP = false -> wr && negb (has_bit ev BREACTOR_WRITE) = false.
Proof.
  intros Hx Hup; pose proof (proj1 send_busy_iff (have_send_busy Hx)) as Hw1; destruct (has_bit ev BREACTOR_WRITE) eqn:E; [apply andb_false_r|].
  unfold have_send in Hx; rewrite E, alarm_eq, Hup, orb_false_r in Hx; cbn [orb] in Hx; apply andb_true_iff in Hx as [Hx _].
  destruct (Herr Hx Hup) as [_ H2]; rewrite Hw, wv_write in H2; rewrite (H2 Hw1) in E; done.
Qed.
Lemma have_recv_clear : have_recv = true -> has_bit ev BREACTOR_HUP = false -> rd && negb (has_bit ev BREACTOR_READ) = false.
Proof.
  intros Hx Hup; pose proof (proj1 recv_busy_iff (have_recv_busy Hx)) as Hw1; destruct (has_bit ev BREACTOR_READ) eqn:E; [apply andb_false_r|].
  unfold have_recv in Hx; rewrite E, alarm_eq, Hup, orb_false_r in Hx; cbn [orb] in Hx; apply andb_true_iff in Hx as [Hx _].
  destruct (Herr Hx Hup) as [H2 _]; rewrite Hw, wv_read in H2; rewrite (H2 Hw1) in E; done.
Qed.
Lemma not_send : have_send = false -> send_state o = SEND_STATE_BUSY -> has_bit ev BREACTOR_WRITE = false /\ has_bit ev BREACTOR_HUP = false.
Proof.
  intros [H1 H2]%orb_false_iff Hb; rewrite Hb, alarm_eq in H2; split; [exact H1|]; destruct (has_bit ev BREACTOR_HUP); [rewrite orb_true_r in H2; done | done].
Qed.
Lemma not_recv : have_recv = false -> recv_state o = RECV_STATE_BUSY -> has_bit ev BREACTOR_READ = false /\ has_bit ev BREACTOR_HUP = false.
Proof.
  intros [H1 H2]%orb_false_iff Hb; rewrite Hb, alarm_eq in H2; split; [exact H1|]; destruct (has_bit ev BREACTOR_HUP); [rewrite orb_true_r in H2; done | done].
Qed.
#[local] Abbreviation o2 := (hung_up ev o rd wr).
Lemma send_kept_up : have_send = false -> send_ok o2 h snt ack sd (wr && negb (has_bit ev BREACTOR_WRITE)).
Proof.
  intros Hx; pose proof (not_send Hx) as Hn; pose proof send_busy_iff as [Hb1 Hb2]; destruct Hs as (H1 & H2 & H3 & H4); do 3 (split; [done|]).
  change (send_state o2) with (send_state o); change (is_hupd o2) with (has_bit ev BREACTOR_HUP); destruct (send_state o).
  - destruct H4 as (? & ? & H4); do 2 (split; [done|]); intros _; rewrite (H4 Hh); done.
  - destruct H4 as (? & ? & H4); do 2 (split; [done|]); intros _; rewrite (H4 Hh); done.
  - destruct H4 as (? & ? & ? & ? & ? & _), (Hn eq_refl) as [-> ->]; do 5 (split; [done|]); intros _; rewrite (Hb1 eq_refl); done.
Qed.
Lemma recv_kept_up : have_recv = false -> recv_ok o2 hq gt dlv rv (rd && negb (has_bit ev BREACTOR_READ)).
Proof.
  intros Hx; pose proof (not_recv Hx) as Hn; pose proof recv_busy_iff as [Hb1 Hb2]; destruct Hrc as (H1 & H4); split; [done|].
  change (recv_state o2) with (recv_state o); change (is_hupd o2) with (has_bit ev BREACTOR_HUP); change (recv_job o2) with (recv_job o); destruct (recv_state o); try done.
  - destruct H4 as (? & ? & ? & H4); do 3 (split; [done|]); intros _; rewrite (H4 Hh); done.
  - destruct H4 as (? & ? & ? & H4); do 3 (split; [done|]); intros _; rewrite (H4 Hh); done.
  - destruct H4 as (? & ? & ? & ? & _), (Hn eq_refl) as [-> ->]; do 4 (split; [done|]); rewrite Hj; split; [done|]; intros _ _; rewrite (Hb1 eq_refl); done.
  - destruct H4 as (? & ? & ? & H4); do 3 (split; [done|]); intros _; rewrite (H4 Hh); done.
Qed.
(** Both directions at once: the receiver is left to its job. *)
Lemma recv_job_up : have_recv = true -> recv_ok (o2 <| recv_job := true |>) hq gt dlv rv (rd && negb (has_bit ev BREACTOR_READ)).
Proof.
  intros Hx; pose proof (have_recv_busy Hx) as Hb; pose proof (have_recv_clear Hx) as Hc; destruct Hrc as (H1 & H4); split; [exact H1|]; rewrite Hb in H4.
  change (recv_state (o2 <| recv_job := true |>)) with (recv_state o); rewrite Hb; destruct H4 as (? & ? & ? & ? & _); do 4 (split; [done|]); split; [intros _ Hup; exact (Hc Hup) | done].
Qed.
Lemma sending_up : have_send = true -> sending_now o2 h snt ack sd (wr && negb (has_bit ev BREACTOR_WRITE)).
Proof.
  intros Hx; pose proof (have_send_busy Hx) as Hb; pose proof (have_send_clear Hx) as Hc; destruct Hs as (H1 & H2 & H3 & H4); rewrite Hb in H4.
  destruct H4 as (Hi & Hpb & ? & ? & ? & _); destruct (busy_iface _ _ Hi Hpb) as [Hjd _]; split; [done|]; split; [rewrite H2; unfold unreported; rewrite Hjd, app_nil_r; done|].
  do 6 (split; [done|]); exact Hc.
Qed.
Lemma receiving_up : have_recv = true -> receiving_now o2 hq gt dlv (rd && negb (has_bit ev BREACTOR_READ)).
Proof.
  intros Hx; pose proof (have_recv_busy Hx) as Hb; pose proof (have_recv_clear Hx) as Hc; destruct Hrc as (H1 & H4); rewrite Hb in H4.
  destruct H4 as (Hi & Hpb & ? & ? & _); destruct (busy_iface _ _ Hi Hpb) as [Hjd _]; split; [done|]; split; [rewrite H1; unfold unreported; rewrite Hjd, app_nil_r; done|].
  do 5 (split; [done|]); exact Hc.
Qed.
End fd_event.

Lemma fd_event_kept e so a data r o kc g b r1 ev n v : inv (mk_world r (Some o) kc) g -> usable o -> ReactorLoop.handle e r = Ok (b, r1, [FdHandler bfd ev]) ->
  ReactorLoop.reachable r1 (tick e (clock g)) -> same_views None None r r1 -> fview r bfd = Some (n, true, v) ->
  (has_bit ev BREACTOR_READ = true -> has_bit v BREACTOR_READ = true) -> (has_bit ev BREACTOR_WRITE = true -> has_bit v BREACTOR_WRITE = true) ->
  fd_answer_ok o ev a data -> kept (EReactor e so a data) (mk_world r (Some o) kc) g.
Proof.
  intros Hinv Hu Hhe Hr1 Hv1 Hf Hrv Hwv (Herr & Hj & Ha); pose proof Hinv as (_ & (Hl & _ & rd & wr & Hw & Hs & Hrc) & _); cbn [rx] in *; pose proof Hu as [He Hha].
  assert (is_hupd o = false) as Hh by (destruct Hl as ((n' & v' & Hf' & _) & _); rewrite Hf in Hf'; destruct (is_hupd o); [discriminate Hf' | done]).
  assert (v = wait_events o) as -> by (destruct Hl as ((n' & v' & Hf' & Hv') & _); rewrite Hf in Hf'; injection Hf' as _ _ ->; apply Hv', Hh).
  rewrite Hw, wv_read in Hrv; rewrite Hw, wv_write in Hwv.
  assert (linked r1 o) as Hl1 by (eapply linked_kept; [exact Hl | exact Hv1 | done..]).
  destruct (fd_start ev a r1 o kc _ rd wr Hr1 Hl1 Hh He Hw) as (r2 & kr & Hr2 & Hl2 & Hv2 & Hrun).
  pose proof (views_trans _ _ _ Hv1 Hv2) as Hv; set (o2 := hung_up ev o rd wr) in *.
  assert (forall w' k2, fd_rest ev a o (mk_world r2 (Some o2) kc) = Ok (tt, w', k2) -> handle (EReactor e so a data) (mk_world r (Some o) kc) = Ok (true, w', map Sys kr ++ k2)) as Hgo.
  { intros w' k2 Hk; unfold handle; cbn [rx]; rewrite Hhe; cbn [foreach dispatch]; rewrite Z.eqb_refl; apply with_true_w.
    etransitivity; [eapply pbind_calls; [apply Hrun, Hk | reflexivity]|]; rewrite app_nil_r; done. }
  unfold fd_rest in Hgo; fold (alarm ev) in Hgo; fold (have_send ev o) (have_recv ev o) in Hgo; cbv zeta in Hgo.
  assert (write_ok (send_busy_data_len o) a \/ have_send ev o = false) as Hwa by (unfold have_send, alarm; fold (sends o ev); destruct (sends o ev); auto).
  assert (read_ok (recv_busy_data_avail o) a data \/ have_send ev o = true) as Hra by (unfold have_send, alarm; fold (sends o ev); destruct (sends o ev); auto).
  destruct (have_send ev o) eqn:Ehs.
  - assert (send_state o = SEND_STATE_BUSY) as Hbusy by (eapply have_send_busy; eassumption); rewrite Hbusy in Hgo; destruct (have_recv ev o) eqn:Ehr.
    + assert (recv_state o = RECV_STATE_BUSY) as Hbusy' by (eapply have_recv_busy; eassumption); rewrite Hbusy' in Hgo.
      apply (send_event (EReactor e so a data) r o kc g r2 (o2 <| recv_job := true |>) (rd && negb (has_bit ev BREACTOR_READ)) (wr && negb (has_bit ev BREACTOR_WRITE))); try done.
      * eapply sending_up; eassumption.
      * eapply recv_job_up; eassumption.
      * destruct Hwa; done.
      * intros w' ks Hcs; exists (map Sys kr); split; [|apply heard_sys]; apply Hgo; pstep; pstep; pstep; exact Hcs.
    + apply (send_event (EReactor e so a data) r o kc g r2 o2 (rd && negb (has_bit ev BREACTOR_READ)) (wr && negb (has_bit ev BREACTOR_WRITE))); try done.
      * eapply sending_up; eassumption.
      * eapply recv_kept_up; eassumption.
      * destruct Hwa; done.
      * intros w' ks Hcs; exists (map Sys kr); split; [|apply heard_sys]; apply Hgo; pstep; pstep; pstep; exact Hcs.
  - destruct (have_recv ev o) eqn:Ehr.
    + assert (recv_state o = RECV_STATE_BUSY) as Hbusy' by (eapply have_recv_busy; eassumption); rewrite Hbusy' in Hgo.
      apply (con_recv_event (EReactor e so a data) r o kc g r2 o2 (rd && negb (has_bit ev BREACTOR_READ)) (wr && negb (has_bit ev BREACTOR_WRITE))); try done.
      * eapply receiving_up; eassumption.
      * eapply send_kept_up; eassumption.
      * destruct Hra; done.
      * intros w' ks Hcs; exists (map Sys kr); split; [|apply heard_sys]; apply Hgo; pstep; pstep; exact Hcs.
    + assert (send_ok o2 (hs g) (sent g) (acked g) (s_data g) (wr && negb (has_bit ev BREACTOR_WRITE))) as Hs2 by (eapply send_kept_up; eassumption).
      assert (recv_ok o2 (hr g) (got g) (delivered g) (r_data g) (rd && negb (has_bit ev BREACTOR_READ))) as Hrc2 by (eapply recv_kept_up; eassumption).
      destruct (has_bit ev BREACTOR_HUP) eqn:Hup.
      * assert (handle (EReactor e so a data) (mk_world r (Some o) kc) = Ok (true, mk_world r2 (Some o2) kc, map Sys kr)) as Hhd.
        { rewrite <- (app_nil_r (map Sys kr)); apply Hgo; pstep; pstep; pstep; change (is_hupd o2) with (has_bit ev BREACTOR_HUP); rewrite Hup; done. }
        apply (con_event (EReactor e so a data) r o kc g true r2 o2 (map Sys kr) (rd && negb (has_bit ev BREACTOR_READ)) (wr && negb (has_bit ev BREACTOR_WRITE))); try done;
          rewrite heard_sys; try (no_calls; done); apply Forall_nil_2.
      * set (o3 := o2 <| d_err := true |>).
        assert (same_rest o2 o3 /\ same_recv o2 o3 /\ same_send o2 o3) as (S1 & S2 & S3) by (repeat split; done).
        apply (con_event (EReactor e so a data) r o kc g true r2 o3 (map Sys kr ++ [ConHandler BCONNECTION_EVENT_ERROR]) (rd && negb (has_bit ev BREACTOR_READ)) (wr && negb (has_bit ev BREACTOR_WRITE))); try done;
          rewrite ?heard_app, ?heard_sys; try (no_calls; done).
        -- apply Hgo; pstep; pstep; pstep; change (is_hupd o2) with (has_bit ev BREACTOR_HUP); rewrite Hup; apply report_eq; done.
        -- repeat constructor.
        -- no_calls; exact (send_ok_same _ _ _ _ _ _ _ S3 S1 Hs2).
        -- no_calls; exact (recv_ok_same _ _ _ _ _ _ _ S2 S1 Hrc2).
Qed.

(** ** Events of the connector, and the life of the connection *)

Lemma con_ok_ext r oc g g' : con_ok bfd send_limit recv_limit r oc g -> hs g' = hs g -> hr g' = hr g -> sent g' = sent g -> acked g' = acked g -> s_data g' = s_data g ->
  got g' = got g -> delivered g' = delivered g -> r_data g' = r_data g -> con_ok bfd send_limit recv_limit r oc g'.
Proof. destruct g, g'; cbn; intros Hc; intros; subst; exact Hc. Qed.
Lemma con_kept r r' oc g (vx vy : option Z) : con_ok bfd send_limit recv_limit r oc g -> same_views vx vy r r' -> vx <> Some bfd -> vy <> Some send_limit -> vy <> Some recv_limit ->
  con_ok bfd send_limit recv_limit r' oc g.
Proof.
  intros Hc Hv Hx Hy1 Hy2; destruct oc as [o|]; [|eapply con_none_kept; [exact Hc | exact Hv | done..]].
  destruct Hc as [Hl Hc]; split; [eapply linked_kept; [exact Hl | exact Hv | done..] | exact Hc].
Qed.
(** Calls of neither stream. *)
Definition streamless (k : ccall Hd Us) : bool := match k with Write _ _ | Read _ _ | SendDone _ | RecvDone _ => false | _ => true end.
Lemma streamless_calls a ks data : forallb streamless ks = true -> wrote a ks = None /\ found a ks = None /\ told_sent ks data = [] /\ told_received ks data = [].
Proof.
  intros Hk; unfold wrote, found; induction ks as [|k ks IH]; [done|]; cbn [forallb] in Hk; apply andb_true_iff in Hk as [H1 H2].
  destruct (IH H2) as (E1 & E2 & E3 & E4); destruct k; try discriminate H1; cbn [existsb orb told_sent told_received map concat app]; done.
Qed.
Definition lifecycle x : Prop := match x with EConnectorInit _ _ _ _ _ | EConnectorJob | EConnectorFree | EInit _ _ _ _ | EFree | EReactor _ _ _ _ => True | _ => False end.
Lemma life_event x r oc kc g b r' oc' kc' ks : lifecycle x -> handle x (mk_world r oc kc) = Ok (b, mk_world r' oc' kc', ks) ->
  ReactorLoop.reachable r' (clock_of x g) -> con_ok bfd send_limit recv_limit r' oc' g -> forallb streamless (heard ks) = true ->
  cnr_ok connector_bfd r' kc' (match x with EConnectorInit _ _ _ _ _ => false | _ => told g end || existsb (fun k => match k with ConnectorHandler _ => true | _ => false end) (heard ks)) ->
  open_ok oc' kc' (count_open x (heard ks) (open g)) -> closes_ok (heard ks) (opened x (open g)) ->
  answers_ok (mk_world r' oc' kc') (heard ks) g -> kept x (mk_world r oc kc) g.
Proof.
  intros Hx Hh Hr Hc Hst Hk Ho Hcl Hans; exists b, (mk_world r' oc' kc'), ks; split; [exact Hh|]; destruct (streamless_calls (answer_of x) _ (s_data g) Hst) as (E1 & E2 & E3 & _).
  destruct (streamless_calls (answer_of x) _ (r_data g) Hst) as (_ & _ & _ & E4); split; [|split].
  - rewrite <- count_heard; unfold count; split; [exact Hr|]; split; [|split; [exact Hk | exact Ho]].
    unfold done_send, done_recv, taken, given; rewrite E1, E2, E3, E4; cbn [con rx]; eapply con_ok_ext; [exact Hc|..]; destruct x; try contradiction; cbn; rewrite ?app_nil_r; done.
  - clear -Hcl; revert Hcl; generalize (opened x (open g)); induction ks as [|k ks IH]; intros l; [done|]; rewrite heard_cons; destruct k; cbn [is_heard closes_ok]; try apply IH.
    intros [H1 H2]; split; [exact H1 | apply IH, H2].
  - split; [|unfold answers_ok, handler_calls in *; rewrite map_heard in Hans by done; exact Hans]; intros k Hk'; assert (streamless k = true \/ is_heard k = false) as Hcase.
    { destruct (is_heard k) eqn:E; [left|right; done]; rewrite forallb_forall in Hst; apply Hst; apply filter_In; split; [apply list_elem_of_In; exact Hk' | exact E]. }
    destruct oc' as [o'|]; [left; exists o'; split; [done|] | right; split; [done|]]; destruct k; try done; destruct Hcase; discriminate.
Qed.
Lemma open_ext oc kc l oc' kc' : open_ok oc kc l -> (forall fd, owned oc' kc' fd <-> owned oc kc fd) ->
  (forall o k, oc' = Some o -> kc' = Some k -> close_fd o = true -> 0 <= k_fd k -> c_fd o <> k_fd k) -> open_ok oc' kc' l.
Proof. intros (H1 & H2 & _) He Hd'; split; [exact H1|]; split; [intros fd; rewrite H2, He; done | exact Hd']. Qed.
Lemma remove_snoc (fd : Z) l : fd ∉ l -> remove_node fd (l ++ [fd]) = l.
Proof.
  intros Hn; unfold remove_node; rewrite List.filter_app; cbn; rewrite Z.eqb_refl, app_nil_r; apply remove_node_absent, Hn.
Qed.
(** A descriptor of neither object is closed, or of the one that goes. *)
Lemma open_close oc kc l oc' kc' fd : open_ok oc kc l -> owned oc kc fd -> (forall z, owned oc' kc' z <-> owned oc kc z /\ z <> fd) ->
  (forall o k, oc' = Some o -> kc' = Some k -> close_fd o = true -> 0 <= k_fd k -> c_fd o <> k_fd k) -> fd ∈ l /\ open_ok oc' kc' (remove_node fd l).
Proof.
  intros (H1 & H2 & _) Ho He Hd'; split; [apply H2, Ho|]; split; [apply remove_node_NoDup, H1|]; split; [|exact Hd'].
  intros x; rewrite remove_node_elem, He, H2; done.
Qed.
Lemma open_add oc l k : open_ok oc None l -> 0 <= k_fd k -> k_fd k ∉ l -> open_ok oc (Some k) (l ++ [k_fd k]).
Proof.
  intros (H1 & H2 & _) Hp Hn; split; [|split].
  - apply NoDup_app; split; [exact H1|]; split; [|apply NoDup_singleton]; intros x Hx ->%list_elem_of_singleton; done.
  - intros x; rewrite elem_of_app, list_elem_of_singleton, H2; unfold owned; split.
    + intros [[Ho|(k' & Hk & _)]| ->]; [left; exact Ho | done | right; exists k; done].
    + intros [Ho|(k' & [= <-] & <- & _)]; [left; left; exact Ho | right; done].
  - intros o k' -> [= <-] Hc _ He; apply Hn; rewrite <- He; apply H2; left; exists o; done.
Qed.

Lemma connector_event_kept e so a data r oc kc g b r1 ev n v : inv (mk_world r oc kc) g -> ReactorLoop.handle e r = Ok (b, r1, [FdHandler connector_bfd ev]) ->
  ReactorLoop.reachable r1 (tick e (clock g)) -> same_views None None r r1 -> fview r connector_bfd = Some (n, true, v) -> kept (EReactor e so a data) (mk_world r oc kc) g.
Proof.
  intros (_ & Hcon & Hcnr & Hopen) Hhe Hr1 Hv1 Hf; cbn [rx con cnr] in *.
  destruct kc as [k|]; [|destruct Hcnr; apply fview_active; eauto]; destruct Hcnr as [Hk1 Hk]; destruct (have_bfd k) eqn:Eb; [|destruct Hk as [Hk _]; destruct Hk; apply fview_active; eauto].
  destruct Hk as (_ & Hc & Hj & Ht & Hk0); assert (fview r1 connector_bfd = Some (n, true, v)) as Hf1 by (destruct Hv1 as [V _]; rewrite V by done; exact Hf).
  destruct (op_remove _ _ _ _ _ Hr1 Hf1) as (r2 & kr & Hs2 & Hr2 & Hf2 & Hv2); set (k' := mk_connector false (k_fd k) (match so with Some z => z =? 0 | None => false end) false).
  apply (life_event (EReactor e so a data) r oc (Some k) g true r2 oc (Some k') (map Sys kr ++ [ConnectorHandler (negb (connected k'))])); rewrite ?heard_app, ?heard_sys; try done; try (left; done).
  - unfold handle; cbn [rx]; rewrite Hhe; cbn [foreach dispatch]; destruct (Z.eqb_spec connector_bfd bfd) as [|_]; [congruence|]; rewrite Z.eqb_refl; apply with_true_w.
    etransitivity; [eapply pbind_calls; [|reflexivity]|rewrite app_nil_r; reflexivity]; unfold connector_fd_handler; pstep; pstep_by ltac:(apply passert_ok; lia); rewrite Hc, Eb; pstep; pstep.
    eapply sys_step; [exact Hs2|]; pstep.
    destruct so as [x|]; [destruct (x =? 0) eqn:Ex|]; cbn [negb]; do 2 pstep; destruct k as [j fd c hb]; cbn in Hj, Hc |- *; subst; unfold k'; rewrite ?Ex; reflexivity.
  - eapply con_kept; [eapply con_kept; [exact Hcon | exact Hv1 | done..] | exact Hv2 | congruence | done | done].
  - split; [exact Hk1|]; cbn [have_bfd k']; split; [|split; [cbn; rewrite orb_true_r; done | done]].
    rewrite fview_active, Hf2; intros (? & ? & ?); congruence.
  - eapply open_ext; [exact Hopen | |].
    + intros fd; unfold owned; split; (intros [Ho|(k1 & [= <-] & Hx)]; [left; exact Ho | right; eexists; split; [reflexivity | exact Hx]]).
    + intros o k1 Ho [= <-]; exact (proj2 (proj2 Hopen) o k Ho eq_refl).
  - right; split; [exact Ht|]; exists k'; done.
Qed.
Lemma connector_job_kept w g : inv w g -> enabled EConnectorJob w g -> kept EConnectorJob w g.
Proof.
  destruct w as [r oc kc]; intros (Hr & Hcon & Hcnr & Hopen) (k & Hk & Hj); cbn in Hk; subst kc; cbn [rx con cnr] in *; destruct Hcnr as [Hk1 Hk].
  destruct (have_bfd k) eqn:Eb; [destruct Hk as (_ & _ & ? & _); congruence|]; destruct Hk as (Hna & Ht & Hc); destruct (Hc Hj) as [Hc1 Hc2].
  apply (life_event EConnectorJob r oc (Some k) g true r oc (Some (k <| job := false |>)) [ConnectorHandler false]); try done; try (left; done).
  - apply with_true_w; unfold connector_job_handler; pstep; pstep.
    change (k_fd (k <| job := false |>)) with (k_fd k); change (connected (k <| job := false |>)) with (connected k); change (have_bfd (k <| job := false |>)) with (have_bfd k).
    pstep_by ltac:(apply passert_ok; lia); rewrite Hc1, Eb; pstep; pstep; done.
  - split; [exact Hk1|]; change (have_bfd (k <| job := false |>)) with (have_bfd k); rewrite Eb; split; [exact Hna|]; split; [cbn; rewrite orb_true_r; done | done].
  - eapply open_ext; [exact Hopen | |].
    + intros fd; unfold owned; split; (intros [Ho|(k1 & [= <-] & Hx)]; [left; exact Ho | right; eexists; split; [reflexivity | exact Hx]]).
    + intros o k1 Ho [= <-]; exact (proj2 (proj2 Hopen) o k Ho eq_refl).
  - right; split; [rewrite Ht, Hj; done|]; eexists; split; [reflexivity|]; change (connected (k <| job := false |>)) with (connected k); rewrite Hc1; done.
Qed.

Lemma not_active_view r bs n v : fview r bs = Some (n, false, v) -> ~ is_active (fds r) bs.
Proof. rewrite fview_active; intros -> (? & ? & ?); congruence. Qed.
Lemma connector_init_kept addr so nb c add w g : inv w g -> enabled (EConnectorInit addr so nb c add) w g -> kept (EConnectorInit addr so nb c add) w g.
Proof.
  destruct w as [r oc kc]; intros (Hr & Hcon & Hcnr & Hopen) [Hk Hso]; cbn [rx con cnr] in *; subst kc; set (x := EConnectorInit addr so nb c add).
  destruct (BConnection_AddressSupported addr) eqn:Hsup.
  2:{ apply (life_event x r oc None g false r oc None []); try done; try (left; done).
      - unfold x, handle, BConnector_Init; rewrite Hsup; done.
      - unfold count_open, opened, x; destruct so; rewrite ?Hsup; exact Hopen. }
  assert (exists sa, addr_socket_to_sys addr = Ok sa) as [sa Hsa] by (destruct addr; try discriminate Hsup; eexists; reflexivity).
  destruct so as [fd|].
  2:{ apply (life_event x r oc None g false r oc None []); try done; try (left; done); unfold x, handle, BConnector_Init; rewrite Hsup, Hsa; done. }
  destruct (Hso fd eq_refl) as [Hfd Hnew]; assert (opened x (open g) = open g ++ [fd]) as Eop by (unfold opened, x; rewrite Hsup; done).
  (** What was opened is closed when anything fails. *)
  assert (forall r' ks, ReactorLoop.reachable r' (clock g) -> con_ok bfd send_limit recv_limit r' oc g -> ~ is_active (fds r') connector_bfd ->
    handle x (mk_world r oc None) = Ok (false, mk_world r' oc None, ks) -> heard ks = [Close fd] \/ heard ks = [Connect fd sa; Close fd] -> kept x (mk_world r oc None) g) as Hfail.
  { intros r' ks Hr' Hcon' Hna Hh Hks; apply (life_event x r oc None g false r' oc None ks); try done; try (left; done).
    - destruct Hks as [-> | ->]; done.
    - unfold count_open; rewrite Eop; destruct Hks as [-> | ->]; cbn [fold_left]; rewrite remove_snoc by exact Hnew; exact Hopen.
    - rewrite Eop; destruct Hks as [-> | ->]; cbn; (split; [apply elem_of_app; right; left | done]).
    - left; destruct Hks as [-> | ->]; done. }
  assert (forall r' ks k, ReactorLoop.reachable r' (clock g) -> con_ok bfd send_limit recv_limit r' oc g -> k_fd k = fd -> cnr_ok connector_bfd r' (Some k) false ->
    handle x (mk_world r oc None) = Ok (true, mk_world r' oc (Some k), ks) -> heard ks = [Connect fd sa] -> kept x (mk_world r oc None) g) as Hgood.
  { intros r' ks k Hr' Hcon' Hkf Hcn Hh Hks; apply (life_event x r oc None g true r' oc (Some k) ks); rewrite ?Hks; try done; try (left; done).
    unfold count_open; rewrite Eop; cbn [fold_left]; rewrite <- Hkf; apply open_add; [exact Hopen | rewrite Hkf; exact Hfd | rewrite Hkf; exact Hnew]. }
  assert (forall b w' ks, (if negb nb then pcall (Close fd);; pmod (fun w => w <| cnr := None |>);; mret false else
      pcall (Connect fd sa);;
      match c with
      | ConnectFailed => pcall (Close fd);; pmod (fun w => w <| cnr := None |>);; mret false
      | ConnectInProgress =>
        on_reactor (BFileDescriptor_Init connector_bfd fd);;
        added ← on_reactor (BReactor_AddFileDescriptor connector_bfd add);
        if negb added then pcall (Close fd);; pmod (fun w => w <| cnr := None |>);; mret false else
        on_reactor (BReactor_SetFileDescriptorEvents connector_bfd BREACTOR_WRITE);;
        cnr_mod (fun q => q <| have_bfd := true |>);;
        mret true
      | ConnectDone => cnr_mod (fun q => q <| connected := true |>);; cnr_mod (fun q => q <| job := true |>);; mret true
      end) (mk_world r oc (Some (mk_connector false fd false false))) = Ok (b, w', ks) -> handle x (mk_world r oc None) = Ok (b, w', ks)) as Hgo.
  { intros b w' ks Hrest; unfold x, handle, BConnector_Init; rewrite Hsup; cbn [negb]; pstep_by ltac:(unfold plift; rewrite Hsa; reflexivity); pstep; exact Hrest. }
  destruct nb; cbn [negb] in Hgo; [|eapply Hfail; [exact Hr | exact Hcon | exact Hcnr | apply Hgo; reflexivity | left; done]].
  destruct c.
  - eapply (Hgood r _ (mk_connector true fd true false)); [exact Hr | exact Hcon | done | | apply Hgo; reflexivity | done].
    split; [cbn; lia|]; cbn; split; [exact Hcnr|]; split; [done|]; intros _; split; [done | exact Hfd].
  - destruct (op_fd_init _ fd _ _ Hr Hcnr) as (r1 & Hs1 & Hr1 & Hf1 & Hv1); destruct (op_add _ add _ _ _ _ Hr1 Hf1) as (r2 & k2 & Hs2 & Hr2 & Hf2 & Hv2).
    assert (con_ok bfd send_limit recv_limit r2 oc g) as Hcon2 by (eapply con_kept; [eapply con_kept; [exact Hcon | exact Hv1 | congruence | done..] | exact Hv2 | congruence | done..]).
    destruct add.
    + destruct (op_set_events _ BREACTOR_WRITE _ _ _ _ Hr2 Hf2 ltac:(reflexivity)) as (r3 & k3 & Hs3 & Hr3 & Hf3 & Hv3).
      eapply (Hgood r3 _ (mk_connector false fd false true)); [exact Hr3 | eapply con_kept; [exact Hcon2 | exact Hv3 | congruence | done..] | done | | apply Hgo; apply call_step; eapply sys_step; [exact Hs1|]; eapply sys_step; [exact Hs2|]; cbn [negb]; eapply sys_step; [exact Hs3 | reflexivity] |].
      * split; [cbn; lia|]; cbn; split; [exists fd; exact Hf3 | done].
      * rewrite heard_cons; cbn [is_heard]; rewrite !heard_app, !heard_sys; done.
    + eapply (Hfail r2); [exact Hr2 | exact Hcon2 | eapply not_active_view; exact Hf2 | apply Hgo; apply call_step; eapply sys_step; [exact Hs1|]; eapply sys_step; [exact Hs2 | reflexivity] | right].
      rewrite heard_cons; cbn [is_heard]; rewrite !heard_app, !heard_sys; done.
  - eapply Hfail; [exact Hr | exact Hcon | exact Hcnr | apply Hgo; reflexivity | right; done].
Qed.
Lemma connector_free_kept w g : inv w g -> enabled EConnectorFree w g -> kept EConnectorFree w g.
Proof.
  destruct w as [r oc kc]; intros (Hr & Hcon & Hcnr & Hopen) [k Hk]; cbn [rx con cnr] in *; subst kc; destruct Hcnr as [Hk1 Hk].
  assert (exists r' kr, (if have_bfd k then on_reactor (BReactor_RemoveFileDescriptor connector_bfd) else pskip) (mk_world r oc (Some k)) = Ok (tt, mk_world r' oc (Some k), map Sys kr) /\
    ReactorLoop.reachable r' (clock g) /\ same_views (Some connector_bfd) None r r' /\ ~ is_active (fds r') connector_bfd) as (r' & kr & Hs & Hr' & Hv & Hna).
  { destruct (have_bfd k); [|exists r, []; destruct Hk; done]; destruct Hk as ((n & Hf) & _); destruct (op_remove _ _ _ _ _ Hr Hf) as (r' & kr & Hs & Hr' & Hf' & Hv).
    exists r', kr; split; [apply sys_last, Hs|]; do 2 (split; [done|]); eapply not_active_view; exact Hf'. }
  assert (forall ks w', ((if negb (k_fd k =? -1) then pcall (Close (k_fd k)) else pskip);; pmod (fun w => w <| cnr := None |>)) (mk_world r' oc (Some k)) = Ok (tt, w', ks) ->
    handle EConnectorFree (mk_world r oc (Some k)) = Ok (true, w', map Sys kr ++ ks)) as Hgo.
  { intros ks w' Hrest; apply with_true_w; unfold BConnector_Free; pstep; eapply pbind_calls; [exact Hs | exact Hrest]. }
  assert (con_ok bfd send_limit recv_limit r' oc g) as Hcon' by (eapply con_kept; [exact Hcon | exact Hv | congruence | done..]).
  destruct (Z.eqb_spec (k_fd k) (-1)) as [Ek|Ek]; cbn [negb] in Hgo.
  - apply (life_event EConnectorFree r oc (Some k) g true r' oc None (map Sys kr ++ [])); rewrite ?heard_app, ?heard_sys; try done; try (left; done); [apply Hgo; done|].
    eapply open_ext; [exact Hopen | | done]; intros fd; unfold owned; split; (intros [Ho|(k1 & Hk' & ? & ?)]; [left; exact Ho|]); [done | injection Hk' as <-; lia].
  - assert (owned oc (Some k) (k_fd k)) as Hown by (right; exists k; split; [done|]; split; [done | lia]).
    destruct (open_close _ _ _ oc None _ Hopen Hown) as [Hin Hop]; [|done|].
    + intros fd; unfold owned; split.
      * intros [(o & -> & Hc & Hfd)|(? & ? & _)]; [|done]; split; [left; exists o; done|]; rewrite <- Hfd; apply (proj2 (proj2 Hopen) o k eq_refl eq_refl Hc); lia.
      * intros [[Ho|(k1 & [= <-] & Hx & _)] Hne]; [left; exact Ho | congruence].
    + apply (life_event EConnectorFree r oc (Some k) g true r' oc None (map Sys kr ++ [Close (k_fd k)])); rewrite ?heard_app, ?heard_sys; try done; try (left; done); apply Hgo; done.
Qed.

(** A connection that begins. *)
Definition fresh_con (fd : Z) (cl : bool) (si ri : SPI.t) : connection :=
  mk_con true fd cl false 0 si false None 0 SEND_STATE_NOT_INITED ri false None 0 RECV_STATE_NOT_INITED false.
Definition init_rest (fd : Z) (cl add : bool) (si ri : SPI.t) : @wp T Hd Us bool :=
  on_reactor (BFileDescriptor_Init bfd fd);;
  added ← on_reactor (BReactor_AddFileDescriptor bfd add);
  if negb added then (if cl then pcall (Close fd) else pskip);; mret false else
  on_reactor (BReactorLimit_Init send_limit BCONNECTION_SEND_LIMIT);;
  on_reactor (BReactorLimit_Init recv_limit BCONNECTION_RECV_LIMIT);;
  pmod (fun w => w <| con := Some (fresh_con fd cl si ri) |>);;
  mret true.
Lemma init_rest_ok r c fd (cl add : bool) si ri kc : ReactorLoop.reachable r c -> ~ is_active (fds r) bfd -> lview r send_limit = None -> lview r recv_limit = None -> exists r' ks,
  ReactorLoop.reachable r' c /\ (forall t, cnr_ok connector_bfd r kc t -> cnr_ok connector_bfd r' kc t) /\
  init_rest fd cl add si ri (mk_world r None kc) = Ok (add, mk_world r' (if add then Some (fresh_con fd cl si ri) else None) kc, ks) /\
  heard ks = (if add then [] else if cl then [Close fd] else []) /\
  (if add then linked r' (fresh_con fd cl si ri) else ~ is_active (fds r') bfd /\ lview r' send_limit = None /\ lview r' recv_limit = None).
Proof.
  intros Hr Hna Hl1 Hl2; destruct (op_fd_init _ fd _ _ Hr Hna) as (r1 & Hs1 & Hr1 & Hf1 & Hv1); destruct (op_add _ add _ _ _ _ Hr1 Hf1) as (r2 & k2 & Hs2 & Hr2 & Hf2 & Hv2).
  assert (lview r2 send_limit = None /\ lview r2 recv_limit = None) as [L1 L2] by (destruct Hv1 as [_ V1], Hv2 as [_ V2]; rewrite !V2, !V1 by done; done).
  assert (forall t, cnr_ok connector_bfd r kc t -> cnr_ok connector_bfd r2 kc t) as Hcn.
  { intros t Hk; eapply cnr_kept; [eapply cnr_kept; [exact Hk | exact Hv1 | congruence] | exact Hv2 | congruence]. }
  destruct add.
  - destruct (op_limit_init send_limit BCONNECTION_SEND_LIMIT _ _ Hr2 L1) as (r3 & Hs3 & Hr3 & Hf3 & Hv3); [done|].
    destruct (op_limit_init recv_limit BCONNECTION_RECV_LIMIT r3 c Hr3) as (r4 & Hs4 & Hr4 & Hf4 & Hv4); [destruct Hv3 as [_ V3]; rewrite V3 by congruence; exact L2 | done|].
    exists r4, (map Sys [] ++ map Sys k2 ++ map Sys [] ++ map Sys [] ++ []); split; [exact Hr4|]; split; [|split; [|split]].
    + intros t Hk; eapply cnr_kept; [eapply cnr_kept; [exact (Hcn t Hk) | exact Hv3 | done] | exact Hv4 | done].
    + unfold init_rest; eapply sys_step; [exact Hs1|]; eapply sys_step; [exact Hs2|]; cbn [negb]; eapply sys_step; [exact Hs3|]; eapply sys_step; [exact Hs4 | reflexivity].
    + rewrite !heard_app, !heard_sys; done.
    + destruct Hv3 as [V3 V4], Hv4 as [V5 V6]; split; [exists fd, 0; rewrite V5, V3 by done; done|]; split; [rewrite V6 by congruence; exact Hf3 | exact Hf4].
  - exists r2, (map Sys [] ++ map Sys k2 ++ (if cl then [Close fd] else [])); split; [exact Hr2|]; split; [exact Hcn|]; split; [|split].
    + unfold init_rest; eapply sys_step; [exact Hs1|]; eapply sys_step; [exact Hs2|]; cbn [negb]; destruct cl; reflexivity.
    + rewrite !heard_app, !heard_sys; destruct cl; done.
    + split; [eapply not_active_view; exact Hf2 | done].
Qed.
Lemma init_kept s add si ri w g : inv w g -> enabled (EInit s add si ri) w g -> kept (EInit s add si ri) w g.
Proof.
  destruct w as [r oc kc]; intros (Hr & Hcon & Hcnr & Hopen) (Hoc & Hj1 & Hj2 & Hj3 & Hj4 & Hsrc); cbn [rx con cnr] in *; subst oc.
  set (x := EInit s add si ri); pose proof Hcon as (Hna & Hl1 & Hl2 & Hsent & Hgot).
  (** The source, whose descriptor is the connection's from now on. *)
  assert (forall fd kc1, 0 <= fd -> cnr_ok connector_bfd r kc1 (told g) ->
    (forall z, owned None kc z <-> owned None kc1 z \/ is_source_connector s = true /\ z = fd) -> (is_source_connector s = true -> ~ owned None kc1 fd) ->
    (forall b w' ks, init_rest fd (is_source_connector s) add si ri (mk_world r None kc1) = Ok (b, w', ks) -> handle x (mk_world r None kc) = Ok (b, w', ks)) ->
    kept x (mk_world r None kc) g) as Hgo.
  { intros fd kc1 Hfd Hcn Hown Hnew Hrun; destruct (init_rest_ok r _ fd (is_source_connector s) add si ri kc1 Hr Hna Hl1 Hl2) as (r' & ks & Hr' & Hcn' & Hinit & Hks & Hres).
    apply (life_event x r None kc g add r' (if add then Some (fresh_con fd (is_source_connector s) si ri) else None) kc1 ks); try done; try (left; done).
    - apply Hrun, Hinit.
    - destruct add; [|destruct Hres as (? & ? & ?); done]; split; [exact Hres|]; split; [exact Hfd|]; exists false, false; split; [done|]; split.
      + split; [done|]; split; [rewrite Hsent; unfold unreported; cbn; rewrite Hj2, app_nil_r; done|]; cbn; rewrite Hj1; done.
      + split; [rewrite Hgot; unfold unreported; cbn; rewrite Hj4, app_nil_r; done | done].
    - rewrite Hks; destruct add, s; done.
    - rewrite Hks; assert (existsb (fun k => match k with @ConnectorHandler _ _ _ => true | _ => false end) (if add then [] else if is_source_connector s then [@Close Hd Us fd] else []) = false) as ->
        by (destruct add, s; done); cbn [x]; rewrite orb_false_r; apply Hcn', Hcn.
    - rewrite Hks; destruct add.
      + eapply open_ext; [exact Hopen | |]; cbn [fold_left].
        * intros z; rewrite Hown; unfold owned; destruct (is_source_connector s) eqn:Es; split.
          -- intros [(o & [= <-] & _ & <-)|Ho]; [right; done | left; right; exact Ho].
          -- intros [[(? & ? & _)|Ho]|[_ ->]]; [done | right; exact Ho | left; eexists; done].
          -- intros [(o & [= <-] & ? & _)|Ho]; [done | left; right; exact Ho].
          -- intros [[(? & ? & _)|Ho]|[? _]]; [done | right; exact Ho | done].
        * intros o k [= <-] -> Hc Hk Heq; cbn in Hc, Heq; apply (Hnew Hc); right; exists k; split; [done|]; split; [done|]; congruence.
      + destruct (is_source_connector s) eqn:Es; cbn [fold_left].
        * eapply open_close; [exact Hopen | apply Hown; right; done | | done].
          intros z; rewrite Hown; split; [intros Ho; split; [left; exact Ho | intros ->; apply (Hnew eq_refl), Ho] | intros [[Ho|[_ ->]] Hne]; [exact Ho | done]].
        * eapply open_ext; [exact Hopen | | done]; intros z; rewrite Hown; split; [left; done | intros [Ho|[? _]]; done].
    - rewrite Hks; destruct add; [done|]; destruct (is_source_connector s) eqn:Es; [|done]; split; [apply Hopen, Hown; right; done | done].
    - left; rewrite Hks; destruct add, s; done. }
  destruct s as [|pipefd nb].
  - destruct Hsrc as (Ht & k & -> & Hc & Hk0); destruct Hcnr as [_ Hk]; destruct (have_bfd k) eqn:Eb; [destruct Hk as (_ & ? & _); congruence|]; destruct Hk as (Hna' & Hj & _).
    apply (Hgo (k_fd k) (Some (k <| k_fd := -1 |>)) Hk0).
    + split; [change (-1 <= -1); lia|]; change (have_bfd (k <| k_fd := -1 |>)) with (have_bfd k); rewrite Eb; split; [exact Hna'|]; split; [exact Hj|].
      change (job (k <| k_fd := -1 |>)) with (job k); intros Hx; rewrite Ht, Hx in Hj; done.
    + intros z; unfold owned; split; [intros [(? & ? & _)|(k1 & [= <-] & <- & _)]; [done | right; done]|].
      intros [[(? & ? & _)|(k1 & [= <-] & Hx & ?)]|[_ ->]]; [done | change (-1 = z) in Hx; lia | right; exists k; done].
    + intros _ [(? & ? & _)|(k1 & [= <-] & Hx & ?)]; [done | change (-1 = k_fd k) in Hx; lia].
    + intros b w' ks Hrest; unfold x, handle, BConnection_Init.
      assert ((k ← cnr_get; passert (0 <=? k_fd k);; passert (connected k);; passert (negb (have_bfd k));; passert (negb (job k))) (mk_world r None (Some k)) = Ok (tt, mk_world r None (Some k), @nil (ccall Hd Us))) as Hchk.
      { pstep; pstep_by ltac:(apply passert_ok; lia); rewrite Hc, Eb; pstep; pstep; apply passert_ok; destruct (job k); [rewrite Ht in Hj; done | done]. }
      pstep_by ltac:(exact Hchk); pstep_by ltac:(pstep; pstep; reflexivity); exact Hrest.
  - destruct nb.
    + apply (Hgo pipefd kc Hsrc Hcnr); [intros z; split; [left; done | intros [Ho|[? _]]; done] | done |].
      intros b w' ks Hrest; unfold x, handle, BConnection_Init; pstep_by ltac:(apply passert_ok; lia); pstep; exact Hrest.
    + apply (life_event x r None kc g false r None kc []); try done; try (left; done); [|unfold x; rewrite orb_false_r; exact Hcnr].
      unfold x, handle, BConnection_Init; pstep_by ltac:(apply passert_ok; lia); pstep; reflexivity.
Qed.
Lemma free_kept w g : inv w g -> enabled EFree w g -> kept EFree w g.
Proof.
  destruct w as [r oc kc]; intros (Hr & Hcon & Hcnr & Hopen) (o & Ho & Hs & Hrs); cbn [rx con cnr] in *; subst oc; destruct Hcon as (Hl & Hfd & rd & wr & Hw & Hso & Hro).
  pose proof Hl as ((n & v & Hf & _) & Hl1 & Hl2); unfold send_ok in Hso; rewrite Hs in Hso; unfold recv_ok in Hro; rewrite Hrs in Hro.
  destruct Hso as (_ & Hsent & _ & _ & Hjd & _), Hro as (Hgot & _ & Hjd' & _).
  destruct (op_limit_free recv_limit _ _ Hr ltac:(eauto)) as (r1 & Hs1 & Hr1 & Hf1 & Hv1).
  destruct (op_limit_free send_limit r1 _ Hr1) as (r2 & Hs2 & Hr2 & Hf2 & Hv2); [destruct Hv1 as [_ V]; rewrite V by congruence; eauto|].
  assert (fview r2 bfd = Some (n, negb (is_hupd o), v)) as Hfv by (destruct Hv1 as [V1 _], Hv2 as [V2 _]; rewrite V2, V1 by done; exact Hf).
  assert (exists r' kr, (if negb (is_hupd o) then on_reactor (BReactor_RemoveFileDescriptor bfd) else pskip) (mk_world r2 (Some o) kc) = Ok (tt, mk_world r' (Some o) kc, map Sys kr) /\
    ReactorLoop.reachable r' (clock g) /\ same_views (Some bfd) None r2 r' /\ ~ is_active (fds r') bfd) as (r3 & kr & Hs3 & Hr3 & Hv3 & Hna).
  { destruct (is_hupd o); [exists r2, []; split; [done|]; split; [exact Hr2|]; split; [done | eapply not_active_view; exact Hfv]|].
    destruct (op_remove _ _ _ _ _ Hr2 Hfv) as (r' & kr & H1 & H2 & H3 & H4); exists r', kr; split; [apply sys_last, H1|]; do 2 (split; [done|]); eapply not_active_view; exact H3. }
  set (cl := if close_fd o then [@Close Hd Us (c_fd o)] else []).
  assert (handle EFree (mk_world r (Some o) kc) = Ok (true, mk_world r3 None kc, map Sys [] ++ map Sys [] ++ map Sys kr ++ cl)) as Hh.
  { apply with_true_w; unfold BConnection_Free; pstep; rewrite Hs, Hrs; pstep; pstep; eapply sys_step; [exact Hs1|]; eapply sys_step; [exact Hs2|].
    eapply pbind_calls; [exact Hs3|]; unfold cl; destruct (close_fd o); reflexivity. }
  assert (heard (map Sys [] ++ map Sys [] ++ map Sys kr ++ cl) = cl) as Hks by (rewrite !heard_app, !heard_sys; unfold cl; destruct (close_fd o); done).
  assert (close_fd o = true -> owned (Some o) kc (c_fd o)) as Hown by (intros Hc; left; exists o; done).
  assert ((if close_fd o then c_fd o ∈ open g else True) /\ open_ok None kc (if close_fd o then remove_node (c_fd o) (open g) else open g)) as [Hin Hop].
  { destruct (close_fd o) eqn:Hc.
    - eapply open_close; [exact Hopen | exact (Hown eq_refl) | | done]; intros z; unfold owned; split.
      + intros [(? & ? & _)|(k & -> & Hx & Hz)]; [done|]; split; [right; exists k; done|]; intros ->; apply (proj2 (proj2 Hopen) o k eq_refl eq_refl Hc); [lia | done].
      + intros [[(o1 & [= <-] & _ & Hx)|Hx] Hne]; [congruence | right; exact Hx].
    - split; [done|]; eapply open_ext; [exact Hopen | | done]; intros z; unfold owned; split; [intros [(? & ? & _)|Hx]; [done | right; exact Hx]|].
      intros [(o1 & [= <-] & ? & _)|Hx]; [congruence | right; exact Hx]. }
  apply (life_event EFree r (Some o) kc g true r3 None kc _ I Hh); rewrite ?Hks; try done; try (left; done).
  - destruct Hv1 as [_ V1], Hv2 as [_ V2], Hv3 as [_ V3]; split; [exact Hna|]; split; [rewrite V3 by done; exact Hf2|]; split; [rewrite V3, V2 by congruence; exact Hf1|].
    rewrite Hsent, Hgot; unfold unreported; rewrite Hjd, Hjd', !app_nil_r; done.
  - unfold cl; destruct (close_fd o); done.
  - assert (existsb (fun k => match k with ConnectorHandler _ => true | _ => false end) cl = false) as -> by (unfold cl; destruct (close_fd o); done); rewrite orb_false_r.
    eapply cnr_kept; [eapply cnr_kept; [eapply cnr_kept; [exact Hcnr | exact Hv1 | done] | exact Hv2 | done] | exact Hv3 | congruence].
  - unfold cl, count_open; destruct (close_fd o); exact Hop.
  - unfold cl; destruct (close_fd o); [split; [exact Hin | done] | done].
  - left; unfold cl; destruct (close_fd o); done.
Qed.

(** ** Any event *)

Lemma reactor_kept e so a data w g : inv w g -> enabled (EReactor e so a data) w g -> kept (EReactor e so a data) w g.
Proof.
  destruct w as [r oc kc]; intros Hinv (Hen & Hx1 & Hx2 & Hy1 & Hy2 & Hu); pose proof Hinv as (Hr & Hcon & _); cbn [rx con] in *.
  destruct (event_reports e r _ Hr Hen) as (b & r1 & ks & Hh & Hr1 & Hv & Hrep).
  assert ((forall ev, FdHandler bfd ev ∉ ks) -> (forall ev, FdHandler connector_bfd ev ∉ ks) -> kept (EReactor e so a data) (mk_world r oc kc) g) as Hquiet.
  { intros; eapply reactor_quiet_kept; [exact Hinv | exact Hh | exact Hr1 | exact Hv | done..]. }
  destruct Hrep as [Hno|(bs & ev & n & v & -> & Ht & Hf & Hrd & Hwr)]; [apply Hquiet; intros ev; apply Hno|].
  assert (same_views None None r r1) as Hv1 by (destruct e; try discriminate Ht; exact Hv).
  destruct (decide (bs = bfd)) as [->|Hn1]; [|destruct (decide (bs = connector_bfd)) as [->|Hn2]].
  - destruct oc as [o|]; [|destruct Hcon as [Hna _]; destruct Hna; apply fview_active; eauto].
    destruct (Hu o eq_refl) as [Huse Hans]; [destruct e; try discriminate Ht; done|].
    eapply fd_event_kept; [exact Hinv | exact Huse | exact Hh | exact Hr1 | exact Hv1 | exact Hf | exact Hrd | exact Hwr | eapply Hans; [exact Hh | left]].
  - eapply connector_event_kept; [exact Hinv | exact Hh | exact Hr1 | exact Hv1 | exact Hf].
  - apply Hquiet; intros ev' Hi%list_elem_of_singleton; congruence.
Qed.
Lemma con_event_kept x w g : inv w g -> enabled x w g -> kept x w g.
Proof.
  destruct x; intros Hinv Hen.
  - exact (reactor_kept _ _ _ _ _ _ Hinv Hen).
  - exact (connector_init_kept _ _ _ _ _ _ _ Hinv Hen).
  - exact (connector_job_kept _ _ Hinv Hen).
  - exact (connector_free_kept _ _ Hinv Hen).
  - exact (init_kept _ _ _ _ _ _ Hinv Hen).
  - exact (free_kept _ _ Hinv Hen).
  - exact (set_handlers_kept _ _ _ Hinv Hen).
  - exact (send_init_kept _ _ Hinv Hen).
  - exact (send_free_kept _ _ Hinv Hen).
  - exact (recv_init_kept _ _ Hinv Hen).
  - exact (recv_free_kept _ _ Hinv Hen).
  - exact (send_kept _ _ _ _ Hinv Hen).
  - exact (send_operation_kept _ _ _ Hinv Hen).
  - exact (send_completed_kept _ _ Hinv Hen).
  - exact (recv_kept _ _ _ _ Hinv Hen).
  - exact (recv_operation_kept _ _ _ _ Hinv Hen).
  - exact (recv_completed_kept _ _ Hinv Hen).
  - exact (send_job_kept _ _ _ Hinv Hen).
  - exact (recv_job_kept _ _ _ _ Hinv Hen).
Qed.
#[local] Abbreviation reachable := (@reachable T _ Hd Us bfd send_limit recv_limit connector_bfd).
Lemma con_inv w g : reachable w g -> inv w g.
Proof.
  intros (r & c & Hr & H1 & H2 & H3 & H4 & Hstar); apply (star_invariant _ (fun z => inv z.1 z.2)) in Hstar; [exact Hstar | |].
  - intros z1 z2 Ha Hst; destruct Hst as [x w1 g1 b w2 ks Hen Hh]; cbn [fst snd] in *; destruct (con_event_kept x w1 g1 Ha Hen) as (b' & w' & ks' & Hh' & Hi & _).
    rewrite Hh in Hh'; injection Hh' as _ -> ->; exact Hi.
  - split; [exact Hr|]; split; [|split; [exact H2|]]; cbn [fst snd con cnr rx].
    + split; [exact H1|]; unfold lview; cbn; rewrite H3, H4; done.
    + split; [constructor|]; split; [intros fd; split; [intros Hx; inversion Hx | intros [(? & ? & _)|(? & ? & _)]; done] | done].
Qed.
Lemma con_reach x w g b w' ks : reachable w g -> enabled x w g -> handle x w = Ok (b, w', ks) -> reachable w' (count x w ks g).
Proof.
  intros (r & c & Hr & H1 & H2 & H3 & H4 & Hs) Hen Hh; exists r, c; do 5 (split; [done|]); eapply star_step; [exact Hs | econstructor; [exact Hen | exact Hh]].
Qed.

(** * What the connection promises *)




(** C12: The sockets that are open are those of the connector and of the connection it became, each
    belonging to one of them; whatever is closed is open and is closed once, also when something
    fails on the way, so that none is left when both are gone. The connector answers once, and
    says whether it is connected; until it has, the reactor or its job is going to make it. *)
Theorem BConnector_owns w g : reachable w g ->
  NoDup (open g) /\ (forall fd, fd ∈ open g <-> owned (con w) (cnr w) fd) /\ (con w = None -> cnr w = None -> open g = []) /\
  (forall x b w' ks, enabled x w g -> handle x w = Ok (b, w', ks) -> closes_ok ks (opened x (open g)) /\ answers_ok w' ks g) /\
  (forall k, cnr w = Some k -> told g = false -> job k = true \/ exists b, fds (rx w) !! connector_bfd = Some b /\ active b = true /\ has_bit (waitEvents b) BREACTOR_WRITE = true).
Proof.
  intros Hr; pose proof (con_inv w g Hr) as Hinv; pose proof Hinv as (_ & _ & Hcnr & (Hnd & Hop & _)); split; [exact Hnd|]; split; [exact Hop|]; split; [|split].
  - intros Hc Hk; destruct (open g) as [|fd l]; [done|]; exfalso; destruct (proj1 (Hop fd)) as [(? & ? & _)|(? & ? & _)]; [left | congruence..].
  - intros x b w' ks Hen Hh; destruct (con_event_kept x w g Hinv Hen) as (b' & w2 & ks' & Hh' & _ & Hcl & _ & Han); rewrite Hh in Hh'; injection Hh' as _ <- <-; done.
  - intros k Hk Ht; rewrite Hk in Hcnr; destruct Hcnr as [_ Hcnr]; destruct (have_bfd k); [|destruct Hcnr as (_ & Hj & _); left; rewrite Ht in Hj; destruct (job k); done].
    right; destruct Hcnr as ((n & Hf) & _); destruct (fview_Some _ _ _ _ _ Hf) as (b & Hb & _ & Ha & Hwe); exists b; rewrite Hwe; done.
Qed.
End proofs.

(** * A connection at work *)

Section example.
#[local] Abbreviation W := (world avl_tree nat nat).
#[local] Abbreviation handle := (@handle avl_tree _ nat nat 5 3 4 6).
#[local] Abbreviation reachable := (@reachable avl_tree _ nat nat 5 3 4 6).
#[local] Abbreviation enabled := (@enabled avl_tree _ nat nat 5 3 4 6).
Definition go (x : @event nat nat) (s : W * ghost) : W * ghost :=
  match handle x s.1 with Ok (_, w, ks) => (w, count x s.1 ks s.2) | Err _ => s end.
Lemma reach_go x (s : W * ghost) : reachable s.1 s.2 -> enabled x s.1 s.2 -> reachable (go x s).1 (go x s).2.
Proof.
  intros Hr Hen; destruct (con_event_kept 5 3 4 6 ltac:(done) ltac:(done) x s.1 s.2 (con_inv 5 3 4 6 ltac:(done) ltac:(done) _ _ Hr) Hen) as (b & w' & ks & Hh & _).
  unfold go; rewrite Hh; exact (con_reach _ _ _ _ _ _ _ _ _ _ Hr Hen Hh).
Qed.
Definition iface0 : SPI.t := SPI.mk false false None 0 false 0 ST_NONE.
Definition turn (now : Z) (ws : list wake) (so : option Z) (a : answer) : @event nat nat := EReactor (ETurn now ws) so a [].
Definition ready (bs ev now : Z) : wake := mk_wake (Some [mk_event ev (Some bs)]) now.
(** A connection is made, three bytes are to be sent, and two of them are, the second time. *)
Definition course : list (@event nat nat) :=
  [EConnectorInit (BADDR_IPV4 1 2) (Some 7) true ConnectInProgress true; turn 10 [ready 6 EPOLLOUT 20] None Failure; turn 20 [] (Some 0) Failure;
   EInit SourceConnector true iface0 iface0; ESendInit; ESend 0 [1; 2; 3]; ESendOperation Again; turn 30 [ready 5 EPOLLOUT 40] None Failure; turn 40 [] None (Count 2)].
Definition start : W * ghost :=
  (mk_world (match BReactor_Init true memory0 with Ok (_, o, _) => o | Err _ => memory0 end) None None, mk_ghost 0 h0 h0 [] [] [] [] [] [] false []).
Definition connecting : W * ghost := Eval vm_compute in fold_left (fun s x => go x s) (take 1 course) start.
Definition reported_ready : W * ghost := Eval vm_compute in fold_left (fun s x => go x s) (take 2 course) start.
Definition opened_con : W * ghost := Eval vm_compute in fold_left (fun s x => go x s) (take 4 course) start.
Definition waiting : W * ghost := Eval vm_compute in fold_left (fun s x => go x s) (take 7 course) start.

Lemma start_reachable : reachable start.1 start.2.
Proof.
  exists (rx start.1), 0; split; [|split_and!; try reflexivity; try (intros (b & Hb & _); discriminate Hb); constructor].
  exists memory0, (rx start.1), []; split; [split_and!; reflexivity|]; split; [reflexivity | constructor].
Qed.
(** A wait that ends with a report of [bs]. *)
Lemma wait_enabled (s : W * ghost) bs ev now : exiting (rx s.1) = false -> 0 <= clock s.2 <= now -> now + 10 <= INT64_MAX -> idle (rx s.1) && negb (due (rx s.1) now) = true ->
  is_active (fds (rx s.1)) bs -> (forall o, con s.1 = Some o -> usable o) ->
  ReactorLoop.handle (ETurn now [ready bs ev (now + 10)]) (rx s.1) <> Err AssertFailed ->
  (forall b r ks, ReactorLoop.handle (ETurn now [ready bs ev (now + 10)]) (rx s.1) = Ok (b, r, ks) -> reports_none ks) ->
  enabled (turn now [ready bs ev (now + 10)] None Failure) s.1 s.2.
Proof.
  intros Hex Hc Hn Hid Ha Hu _ Hno; split; [|do 4 (split; [done|]); intros o Ho _; split; [exact (Hu o Ho)|]; intros b r ks ev' Hh Hi; destruct (Hno _ _ _ Hh 5 ev'); exact Hi].
  split; [exact Hex|]; split; [lia|]; rewrite Hid; cbn [wakes_ok ready w_now w_events]; split; [lia|]; split; [|done].
  split; [done|]; exists [bs]; split; [done|]; split; [apply NoDup_singleton|]; intros x ->%list_elem_of_singleton; exact Ha.
Qed.
#[local] Ltac no_report := intros ? ? ? Hh; vm_compute in Hh; injection Hh as _ _ <-; intros ? ? Hi; apply list_elem_of_singleton in Hi; discriminate Hi.
Lemma connecting_reachable : reachable connecting.1 connecting.2.
Proof.
  apply (reach_go (nth 0 course EFree) start start_reachable); split; [reflexivity|]; intros fd [= <-]; split; [done | intros Hi; inversion Hi].
Qed.
Lemma connecting_wait : enabled (turn 10 [ready 6 EPOLLOUT 20] None Failure) connecting.1 connecting.2.
Proof.
  apply (wait_enabled connecting 6 EPOLLOUT 10); try reflexivity; try done; [eexists; split; vm_compute; reflexivity | no_report].
Qed.
Lemma opened_reachable : reachable opened_con.1 opened_con.2.
Proof.
  pose proof (reach_go _ _ connecting_reachable connecting_wait) as H1.
  pose proof (reach_go (nth 2 course EFree) _ H1) as H2.
  assert (enabled (nth 2 course EFree) reported_ready.1 reported_ready.2) as E2.
  { split; [split; [reflexivity|]; split; [split; done | reflexivity]|]; do 4 (split; [done|]); intros o Ho; discriminate Ho. }
  specialize (H2 E2); pose proof (reach_go (nth 3 course EFree) _ H2) as H3; refine (H3 _).
  split; [reflexivity|]; do 4 (split; [done|]); split; [reflexivity|]; eexists; split; [vm_compute; reflexivity | split; [reflexivity | done]].
Qed.

Lemma BConnector_owns_witness : NoDup (open opened_con.2) /\ open opened_con.2 = [7] /\ owned (con opened_con.1) (cnr opened_con.1) 7.
Proof.
  destruct (BConnector_owns 5 3 4 6 ltac:(discriminate) ltac:(discriminate) _ _ opened_reachable) as (Hn & Ho & _).
  split; [exact Hn|]; split; [reflexivity | apply Ho; left].
Defined.

(** An error that is reported alone, and an attempt to send that succeeds nevertheless: the
    descriptor stays registered for writing, and the next report fails an assertion. *)
Lemma error_alone_fails_assertion :
  match fold_left (fun s x => go x s) [turn 30 [ready 5 EPOLLERR 40] None Failure; turn 40 [] None (Count 2); ESendCompleted; turn 50 [ready 5 EPOLLOUT 60] None Failure] waiting with
  | (w, _) => handle (turn 60 [] None (Count 1)) w = Err AssertFailed
  end.
Proof. vm_compute; reflexivity. Qed.
End example.
