(* ===== verification/FairQueue.v ===== *)
(** flow/PacketPassFairQueue.c: several flows share one output. The flow that has sent the least,
    counted in packets weighted by their size, is served first. The queue is modelled with the
    interfaces of all flows and of the output; the tree of waiting flows is any that keeps the
    promise of OrderedTree. *)

From S2P Require Import Prelude MiscArith FlowIface OrderedTree.

(** [FAIRQUEUE_MAX_TIME], which is [UINT64_MAX]. *)
Definition FAIRQUEUE_MAX_TIME : Z := 18446744073709551615.

Section fairqueue.
Context {T : Type} `{OrdTree T}.

(** A flow is known by its address. [handler_busy] is whether the handler is set. *)
Record flow := mk_flow {
  f_handler_busy : bool; f_input : PPI.t; f_time : Z; f_is_queued : bool;
  f_data : option (list Z); f_data_len : Z }.
#[export] Instance flow_eta : Eta flow := fun f =>
  mk_flow (f_handler_busy f) (f_input f) (f_time f) (f_is_queued f) (f_data f) (f_data_len f).

(** [flows] is the memory the flows live in. *)
Record queue := mk_queue {
  q_output : PPI.t; q_use_cancel : bool; q_packet_weight : Z; q_sending_flow : option Z;
  q_sending_len : Z; q_previous_flow : option Z; q_queued_tree : T; q_flows_list : list Z;
  q_freeing : bool; q_schedule_job : bool; q_d_ctr : Z; q_flows : gmap Z flow }.
#[export] Instance queue_eta : Eta queue := fun m =>
  mk_queue (q_output m) (q_use_cancel m) (q_packet_weight m) (q_sending_flow m) (q_sending_len m)
    (q_previous_flow m) (q_queued_tree m) (q_flows_list m) (q_freeing m) (q_schedule_job m)
    (q_d_ctr m) (q_flows m).

Inductive fq_call :=
| UserDone (f : Z)
| HandlerBusy (f : Z)
| OutputOperation (data : option (list Z)) (len : Z)
| OutputRequestCancel.
Definition fqp := prog queue fq_call.

Definition get_flow (f : Z) : fqp flow := fun m =>
  match q_flows m !! f with Some x => Ok (x, m, []) | None => Err OutOfBounds end.
Definition mod_flow (f : Z) (g : flow -> flow) : fqp unit :=
  x ← get_flow f;
  pmod (fun m => m <| q_flows ::= insert f (g x) |>).
Definition put_output (u : PPI.t) (m : queue) : queue := m <| q_output := u |>.
Definition on_output (p : PPI.pp unit) : fqp unit := run_on q_output put_output p (fun _ => passert false).
Definition on_input (f : Z) (p : PPI.pp unit) (h : PPI.call -> fqp unit) : fqp unit := fun m =>
  match q_flows m !! f with
  | None => Err OutOfBounds
  | Some x =>
    match p (f_input x) with
    | Ok (_, i, ks) => foreach h ks (m <| q_flows ::= insert f (x <| f_input := i |>) |>)
    | Err e => Err e
    end
  end.

Definition time_of (m : queue) (f : Z) : Z :=
  match q_flows m !! f with Some x => f_time x | None => 0 end.
Definition compare_flows (m : queue) (f1 f2 : Z) : Z :=
  let cmp := B_COMPARE (time_of m f1) (time_of m f2) in
  if negb (cmp =? 0) then cmp else B_COMPARE f1 f2.

Definition opt_is (p : option Z) (f : Z) : bool := bool_decide (p = Some f).
Definition is_null {A} (p : option A) : bool := match p with None => true | Some _ => false end.

Definition get_current_time : fqp Z :=
  m ← pget;
  match q_sending_flow m with
  | Some s => x ← get_flow s; mret (f_time x)
  | None =>
    have ← match ot_first (q_queued_tree m) with
           | Some f => x ← get_flow f; passert (f_is_queued x);; mret (Some (f_time x))
           | None => mret None
           end;
    have ← match q_previous_flow m with
           | Some p =>
             x ← get_flow p;
             match have with
             | Some t => mret (Some (if f_time x <? t then f_time x else t))
             | None => mret (Some (f_time x))
             end
           | None => mret have
           end;
    mret (default 0 have)
  end.

(** The loop over [flows_list]: no flow but the one just finished goes below zero, which goes
    below zero only to come back when the amount is added. *)
Fixpoint subtract_all (flow : Z) (subtract : Z) (l : list Z) : fqp unit :=
  match l with
  | [] => pskip
  | someflow :: l =>
    x ← get_flow someflow;
    (if (f_time x <? subtract) && negb (someflow =? flow) then
       passert (negb (f_is_queued x));;
       mod_flow someflow (fun x => x <| f_time := 0 |>)
     else mod_flow someflow (fun x => x <| f_time := wrap 64 (f_time x - subtract) |>));;
    subtract_all flow subtract l
  end.

Definition increment_sent_flow (flow : Z) (amount : Z) : fqp unit :=
  m ← pget;
  x ← get_flow flow;
  passert (amount <=? FAIRQUEUE_MAX_TIME);;
  passert (negb (f_is_queued x));;
  passert (is_null (q_sending_flow m));;
  (if FAIRQUEUE_MAX_TIME - f_time x <? amount then
     subtract ← match ot_first (q_queued_tree m) with
                | None => mret (f_time x)
                | Some f => y ← get_flow f; passert (f_is_queued y);; mret (f_time y)
                end;
     subtract_all flow subtract (q_flows_list m)
   else pskip);;
  mod_flow flow (fun x => x <| f_time := wrap 64 (f_time x + amount) |>).

Definition schedule : fqp unit :=
  m ← pget;
  passert (is_null (q_sending_flow m));;
  passert (is_null (q_previous_flow m));;
  passert (negb (q_freeing m));;
  match ot_first (q_queued_tree m) with
  | None => passert false
  | Some qflow =>
    x ← get_flow qflow;
    passert (f_is_queued x);;
    pmod (fun m => m <| q_queued_tree ::= ot_remove qflow |>);;
    mod_flow qflow (fun x => x <| f_is_queued := false |>);;
    on_output (PPI.Sender_Send (f_data x) (f_data_len x));;
    pmod (fun m => m <| q_sending_flow := Some qflow |> <| q_sending_len := f_data_len x |>)
  end.

(** The queue of jobs clears a job before it calls the handler. *)
Definition schedule_job_handler : fqp unit :=
  pmod (fun m => m <| q_schedule_job := false |>);;
  m ← pget;
  passert (is_null (q_sending_flow m));;
  passert (negb (q_freeing m));;
  pmod (fun m => m <| q_previous_flow := None |>);;
  if is_null (ot_first (q_queued_tree m)) then pskip else schedule.

Definition input_handler_send (flow : Z) (data : option (list Z)) (data_len : Z) : fqp unit :=
  m ← pget;
  x ← get_flow flow;
  passert (negb (opt_is (q_sending_flow m) flow));;
  passert (negb (f_is_queued x));;
  passert (negb (q_freeing m));;
  (if opt_is (q_previous_flow m) flow then pmod (fun m => m <| q_previous_flow := None |>)
   else
     t ← get_current_time;
     mod_flow flow (fun x => x <| f_time := bmax (f_time x) t |>));;
  mod_flow flow (fun x => x <| f_data := data |> <| f_data_len := data_len |>);;
  m ← pget;
  let '(tree, res) := ot_insert (compare_flows m) flow (q_queued_tree m) in
  pmod (fun m => m <| q_queued_tree := tree |>);;
  passert res;;
  mod_flow flow (fun x => x <| f_is_queued := true |>);;
  if is_null (q_sending_flow m) && negb (q_schedule_job m) then schedule else pskip.

Definition output_handler_done : fqp unit :=
  m ← pget;
  match q_sending_flow m with
  | None => passert false
  | Some flow =>
    passert (is_null (q_previous_flow m));;
    passert (negb (q_schedule_job m));;
    passert (negb (q_freeing m));;
    x ← get_flow flow;
    passert (negb (f_is_queued x));;
    pmod (fun m => m <| q_sending_flow := None |> <| q_previous_flow := Some flow |>);;
    increment_sent_flow flow (wrap 64 (q_packet_weight m + q_sending_len m));;
    pmod (fun m => m <| q_schedule_job := true |>);;
    on_input flow PPI.Done (fun _ => passert false);;
    x ← get_flow flow;
    if f_handler_busy x then
      mod_flow flow (fun x => x <| f_handler_busy := false |>);;
      pcall (HandlerBusy flow)
    else pskip
  end.

(** The output is set up by its provider before. *)
Definition PacketPassFairQueue_Init (use_cancel : bool) (packet_weight : Z) : fqp bool :=
  m ← pget;
  passert (0 <? packet_weight);;
  passert (negb use_cancel || PPI.has_requestcancel (q_output m));;
  pmod (fun m => m <| q_use_cancel := use_cancel |> <| q_packet_weight := packet_weight |>);;
  if negb ((PPI.mtu (q_output m) <=? FAIRQUEUE_MAX_TIME)
           && (packet_weight <=? FAIRQUEUE_MAX_TIME - PPI.mtu (q_output m))) then mret false else
  on_output PPI.Sender_Init;;
  pmod (fun m => m <| q_sending_flow := None |> <| q_previous_flow := None |>
                   <| q_queued_tree := ot_empty |> <| q_flows_list := [] |> <| q_freeing := false |>
                   <| q_schedule_job := false |> <| q_d_ctr := 0 |>);;
  mret true.
Definition PacketPassFairQueue_PrepareFree : fqp unit := pmod (fun m => m <| q_freeing := true |>).
Definition PacketPassFairQueue_GetMTU : fqp Z := pread (fun m => PPI.mtu (q_output m)).

(** [i] is what the memory of the flow's input held; the user sets itself up on it next. *)
Definition PacketPassFairQueueFlow_Init (flow : Z) (i : PPI.t) : fqp unit :=
  m ← pget;
  passert (negb (q_freeing m));;
  match PPI.Init (PPI.mtu (q_output m)) i with
  | Err e => fun _ => Err e
  | Ok (_, i, _) =>
    pmod (fun m => m <| q_flows ::= insert flow (mk_flow false i 0 false None 0) |>
                     <| q_flows_list ::= fun l => l ++ [flow] |> <| q_d_ctr ::= Z.add 1 |>)
  end.
Definition PacketPassFairQueueFlow_Free (flow : Z) : fqp unit :=
  m ← pget;
  x ← get_flow flow;
  passert (q_freeing m || negb (opt_is (q_sending_flow m) flow));;
  passert (0 <? q_d_ctr m);;
  pmod (fun m => m <| q_d_ctr ::= Z.add (-1) |>);;
  (if opt_is (q_sending_flow m) flow then pmod (fun m => m <| q_sending_flow := None |>) else pskip);;
  (if opt_is (q_previous_flow m) flow then pmod (fun m => m <| q_previous_flow := None |>) else pskip);;
  (if f_is_queued x then pmod (fun m => m <| q_queued_tree ::= ot_remove flow |>) else pskip);;
  pmod (fun m => m <| q_flows_list ::= remove_node flow |> <| q_flows ::= delete flow |>).
Definition PacketPassFairQueueFlow_AssertFree (flow : Z) : fqp unit :=
  m ← pget;
  passert (q_freeing m || negb (opt_is (q_sending_flow m) flow)).
Definition PacketPassFairQueueFlow_IsBusy (flow : Z) : fqp bool :=
  m ← pget;
  passert (negb (q_freeing m));;
  mret (opt_is (q_sending_flow m) flow).
Definition PacketPassFairQueueFlow_RequestCancel (flow : Z) : fqp unit :=
  m ← pget;
  passert (opt_is (q_sending_flow m) flow);;
  passert (q_use_cancel m);;
  passert (negb (q_freeing m));;
  passert (negb (q_schedule_job m));;
  on_output PPI.Sender_RequestCancel.
Definition PacketPassFairQueueFlow_SetBusyHandler (flow : Z) (handler : bool) : fqp unit :=
  m ← pget;
  passert (opt_is (q_sending_flow m) flow);;
  passert (negb (q_freeing m));;
  mod_flow flow (fun x => x <| f_handler_busy := handler |>).
End fairqueue.
Arguments queue : clear implicits.

(** * The queue between its flows and its output *)

Section steps.
Context {T : Type} `{OrdTree T}.

Definition dispatch_in (f : Z) (c : PPI.call) : fqp unit :=
  match c with
  | PPI.HandlerOperation d n => input_handler_send f d n
  | PPI.HandlerRequestCancel => passert false (* the inputs have no cancel handler *)
  | PPI.HandlerDone => pcall (UserDone f)
  end.
Definition dispatch_out (c : PPI.call) : fqp unit :=
  match c with
  | PPI.HandlerOperation d n => pcall (OutputOperation d n)
  | PPI.HandlerRequestCancel => pcall OutputRequestCancel
  | PPI.HandlerDone => output_handler_done
  end.

Inductive event :=
| In (f : Z) (e : PPI.event) | Out (e : PPI.event) | Schedule
| FlowInit (f : Z) (i : PPI.t) | FlowFree (f : Z) | PrepareFree
| RequestCancel (f : Z) | SetBusyHandler (f : Z) (h : bool).

Definition handle (e : event) : fqp unit :=
  match e with
  | In f e => on_input f (PPI.handle e) (dispatch_in f)
  | Out e => run_on q_output put_output (PPI.handle e) dispatch_out
  | Schedule => schedule_job_handler
  | FlowInit f i =>
      PacketPassFairQueueFlow_Init f i;; on_input f PPI.Sender_Init (fun _ => passert false)
  | FlowFree f => PacketPassFairQueueFlow_Free f
  | PrepareFree => PacketPassFairQueue_PrepareFree
  | RequestCancel f => PacketPassFairQueueFlow_RequestCancel f
  | SetBusyHandler f h => PacketPassFairQueueFlow_SetBusyHandler f h
  end.

(** The histories of the interfaces; how far the times of all flows have been lowered; and the
    weight each flow has sent. *)
Record ghost := mk_ghost {
  g_out : history; g_in : gmap Z history; g_off : Z; g_sent : gmap Z Z }.
Definition g_init : ghost := mk_ghost h0 ∅ 0 ∅.
Definition sent (g : ghost) (f : Z) : Z := default 0 (g_sent g !! f).

(** Users send on inputs, the provider completes on the output, the queue of jobs runs what is
    pending; after [PrepareFree] flows are only freed. *)
Definition enabled (e : event) (m : queue T) (g : ghost) : Prop :=
  match e with
  | In f e => q_freeing m = false /\ e <> PPI.EDone /\
      exists x h, q_flows m !! f = Some x /\ g_in g !! f = Some h /\ PPI.enabled e (f_input x) h
  | Out e => q_freeing m = false /\ PPI.enabled e (q_output m) (g_out g) /\
      (forall d, e <> PPI.ESend d) /\ e <> PPI.ERequestCancel
  | Schedule => q_freeing m = false /\ q_schedule_job m = true
  | FlowInit f i => q_freeing m = false /\ q_flows m !! f = None
  | FlowFree f => is_Some (q_flows m !! f) /\ (q_freeing m = true \/ q_sending_flow m <> Some f)
  | PrepareFree => True
  | RequestCancel f => q_freeing m = false /\ q_sending_flow m = Some f /\ q_use_cancel m = true
  | SetBusyHandler f h => q_freeing m = false /\ q_sending_flow m = Some f
  end.

(** A send is started exactly when a flow becomes the sending one. *)
Definition resume (m m' : queue T) (k : history) : history :=
  if is_null (q_sending_flow m) && negb (is_null (q_sending_flow m'))
  then PPI.count (PPI.ESend []) k else k.
Definition bump (e : PPI.event) (f : Z) (hs : gmap Z history) : gmap Z history :=
  alter (PPI.count e) f hs.
Definition weight (m : queue T) : Z := q_packet_weight m + q_sending_len m.
(** By how much [increment_sent_flow] lowers the times. *)
Definition lowered (m : queue T) (f : Z) : Z :=
  if FAIRQUEUE_MAX_TIME - time_of m f <? weight m then
    match ot_first (q_queued_tree m) with Some q => time_of m q | None => time_of m f end
  else 0.

Definition count (e : event) (m m' : queue T) (g : ghost) : ghost :=
  match e with
  | In f e => mk_ghost (resume m m' (g_out g)) (bump e f (g_in g)) (g_off g) (g_sent g)
  | Schedule => mk_ghost (resume m m' (g_out g)) (g_in g) (g_off g) (g_sent g)
  | Out PPI.ECompleted =>
      match q_sending_flow m with
      | Some f => mk_ghost (PPI.count PPI.ECompleted (g_out g)) (bump PPI.EDone f (g_in g))
                    (g_off g + lowered m f) (<[f := sent g f + weight m]> (g_sent g))
      | None => g
      end
  | Out e => mk_ghost (PPI.count e (g_out g)) (g_in g) (g_off g) (g_sent g)
  | RequestCancel _ => mk_ghost (PPI.count PPI.ERequestCancel (g_out g)) (g_in g) (g_off g) (g_sent g)
  | FlowInit f _ => mk_ghost (g_out g) (<[f := h0]> (g_in g)) (g_off g) (<[f := 0]> (g_sent g))
  | FlowFree f => mk_ghost (g_out g) (delete f (g_in g)) (g_off g) (delete f (g_sent g))
  | PrepareFree | SetBusyHandler _ _ => g
  end.

Inductive step : queue T * ghost -> queue T * ghost -> Prop :=
| step_intro e m g m' calls : enabled e m g -> handle e m = Ok (tt, m', calls) ->
    step (m, g) (m', count e m m' g).

(** ** The invariant *)

Definition queued (fs : gmap Z flow) (f : Z) : Prop :=
  exists x, fs !! f = Some x /\ f_is_queued x = true.

(** The flows' memory, the list, the tree and the pointers to flows agree. *)
Definition core (m : queue T) : Prop :=
  NoDup (q_flows_list m) /\ (forall f, f ∈ q_flows_list m <-> is_Some (q_flows m !! f)) /\
  q_d_ctr m = Zlen (q_flows_list m) /\
  NoDup (ot_elements (q_queued_tree m)) /\
  (forall f, f ∈ ot_elements (q_queued_tree m) <-> queued (q_flows m) f) /\
  (forall f, q_sending_flow m = Some f -> is_Some (q_flows m !! f) /\ ~ queued (q_flows m) f) /\
  (forall f, q_previous_flow m = Some f -> is_Some (q_flows m !! f) /\ ~ queued (q_flows m) f).

Definition flow_ok (mtu : Z) (sending : Prop) (x : flow) (h : history) : Prop :=
  PPI.inv (f_input x) h /\ PPI.mtu (f_input x) = mtu /\ PPI.has_requestcancel (f_input x) = false /\
  0 <= f_time x <= FAIRQUEUE_MAX_TIME /\
  (f_is_queued x = true -> exists d, f_data x = Some d /\ f_data_len x = Zlen d /\ Zlen d <= mtu) /\
  (provider_busy h <-> f_is_queued x = true \/ sending).

(** What the output is asked to send is the packet of flow [f]. *)
Definition asked (m : queue T) (f : Z) : Prop := PPI.job_operation (q_output m) = true ->
  exists x, q_flows m !! f = Some x /\ PPI.job_operation_data (q_output m) = f_data x /\
    PPI.job_operation_len (q_output m) = f_data_len x.

(** While not being freed: what is sending was ahead of all that wait, what waits is in order,
    and nothing waits without the queue being about to serve it. *)
Definition live (m : queue T) (g : ghost) : Prop :=
  PPI.inv (q_output m) (g_out g) /\ 0 < q_packet_weight m /\
  q_packet_weight m + PPI.mtu (q_output m) <= FAIRQUEUE_MAX_TIME /\ 0 <= PPI.mtu (q_output m) /\
  (q_use_cancel m = true -> PPI.has_requestcancel (q_output m) = true) /\
  (forall f x, q_flows m !! f = Some x -> exists h, g_in g !! f = Some h /\
     flow_ok (PPI.mtu (q_output m)) (q_sending_flow m = Some f) x h) /\
  in_order (compare_flows m) (ot_elements (q_queued_tree m)) /\
  match q_sending_flow m with
  | Some f => h_started (g_out g) = h_completed (g_out g) + 1 /\ q_previous_flow m = None /\
      q_schedule_job m = false /\ 0 <= q_sending_len m <= PPI.mtu (q_output m) /\
      (forall y, queued (q_flows m) y -> time_of m f <= time_of m y) /\ asked m f
  | None => user_idle (g_out g) /\
      (q_schedule_job m = false -> q_previous_flow m = None /\ ot_elements (q_queued_tree m) = [])
  end.

Definition inv (m : queue T) (g : ghost) : Prop := core m /\ (q_freeing m = false -> live m g).
End steps.

(** ** The order of the tree *)

Section proofs.
Context {T : Type} `{OrdTreeOk T}.
Implicit Types (m : queue T) (g : ghost).

Lemma compare_flows_lt m a b : compare_flows m a b < 0 <->
  time_of m a < time_of m b \/ time_of m a = time_of m b /\ a < b.
Proof. apply (compare_by_lt (time_of m)). Qed.
Lemma compare_flows_eq m a b : compare_flows m a b = 0 -> a = b.
Proof. apply (compare_by_eq (time_of m)). Qed.
Lemma compare_flows_gt m a b : 0 < compare_flows m b a <-> compare_flows m a b < 0.
Proof. apply (compare_by_gt (time_of m)). Qed.
Lemma compare_flows_three_way m a b : -1 <= compare_flows m a b <= 1.
Proof. apply (compare_by_three_way (time_of m)). Qed.
Lemma compare_flows_order m l : cmp_order (compare_flows m) l.
Proof. apply (compare_by_order (time_of m)). Qed.
Lemma order_shift m m' s l :
  (forall y, y ∈ l -> time_of m' y = time_of m y - s) ->
  in_order (compare_flows m) l -> in_order (compare_flows m') l.
Proof. apply (compare_by_shift (time_of m) (time_of m')). Qed.
Lemma first_is_least m f l y : in_order (compare_flows m) (f :: l) -> y ∈ f :: l ->
  time_of m f <= time_of m y.
Proof. apply (compare_by_least (time_of m)). Qed.

Lemma time_of_eq m f x : q_flows m !! f = Some x -> time_of m f = f_time x.
Proof. unfold time_of; intros ->; done. Qed.

Lemma queued_insert fs f x y : queued (<[f := x]> fs) y <->
  (y = f /\ f_is_queued x = true) \/ (y <> f /\ queued fs y).
Proof.
  unfold queued; destruct (decide (y = f)) as [->|Hn].
  - rewrite lookup_insert_eq; naive_solver.
  - rewrite lookup_insert_ne by done; naive_solver.
Qed.

Lemma get_flow_eq m f x : q_flows m !! f = Some x -> get_flow f m = Ok (x, m, []).
Proof. unfold get_flow; intros ->; done. Qed.
Lemma mod_flow_eq m f x h : q_flows m !! f = Some x ->
  mod_flow f h m = Ok (tt, m <| q_flows ::= insert f (h x) |>, []).
Proof. intros Hx; unfold mod_flow; pstep_by ltac:(apply get_flow_eq; exact Hx); done. Qed.
Ltac pflow Hx := pstep_by ltac:(apply get_flow_eq; exact Hx).
Ltac pmodflow Hx := pstep_by ltac:(apply mod_flow_eq; exact Hx).

(** ** Serving the first flow *)

Definition served m (f : Z) (x : flow) (d : list Z) (u : PPI.t) : queue T :=
  mk_queue u (q_use_cancel m) (q_packet_weight m) (Some f) (Zlen d) None
    (ot_remove f (q_queued_tree m)) (q_flows_list m) false (q_schedule_job m) (q_d_ctr m)
    (<[f := x <| f_is_queued := false |>]> (q_flows m)).

Lemma schedule_eq m f l x d k : q_sending_flow m = None -> q_previous_flow m = None ->
  q_freeing m = false -> ot_elements (q_queued_tree m) = f :: l -> q_flows m !! f = Some x ->
  f_is_queued x = true -> f_data x = Some d -> f_data_len x = Zlen d ->
  Zlen d <= PPI.mtu (q_output m) -> PPI.inv (q_output m) k -> user_idle k ->
  exists u, schedule m = Ok (tt, served m f x d u, []) /\ PPI.job_operation_data u = Some d /\
    PPI.job_operation_len u = Zlen d /\ PPI.inv u (PPI.count (PPI.ESend []) k) /\
    PPI.mtu u = PPI.mtu (q_output m) /\ PPI.has_requestcancel u = PPI.has_requestcancel (q_output m).
Proof.
  intros Hs Hp Hf He Hx Hq Hd Hl HL Hu Hi.
  destruct (PPI.ppi_inv_step (PPI.ESend d) _ k Hu) as (u & Hsend & Hu' & Hm & Hc); [done|].
  exists u; pose proof (PPI.ppi_send_data _ _ _ _ _ Hsend) as [Hud Hun]; split; [|done]; destruct m as [out uc pw sf sl pf tr fl fr sj dc fs].
  cbn [q_output q_sending_flow q_previous_flow q_freeing q_queued_tree q_flows] in *; subst sf pf fr.
  unfold schedule; pstep; pstep; pstep; pstep; cbn [q_queued_tree]; rewrite ot_first_head, He; cbn [head].
  pflow Hx; rewrite Hq; pstep; pstep; pmodflow Hx; rewrite Hd, Hl.
  pstep_by ltac:(apply run_on_nil; exact Hsend); done.
Qed.

(** The invariant but for what it says of an idle or busy output. *)
Definition live0 m g : Prop :=
  PPI.inv (q_output m) (g_out g) /\ 0 < q_packet_weight m /\
  q_packet_weight m + PPI.mtu (q_output m) <= FAIRQUEUE_MAX_TIME /\ 0 <= PPI.mtu (q_output m) /\
  (q_use_cancel m = true -> PPI.has_requestcancel (q_output m) = true) /\
  (forall f x, q_flows m !! f = Some x -> exists h, g_in g !! f = Some h /\
     flow_ok (PPI.mtu (q_output m)) (q_sending_flow m = Some f) x h) /\
  in_order (compare_flows m) (ot_elements (q_queued_tree m)).

Lemma live_live0 m g : live m g -> live0 m g.
Proof. intros (? & ? & ? & ? & ? & ? & ? & _); do 6 (split; [done|]); done. Qed.

(** The parameters of the queue do not change. *)
Definition same_setup m m' : Prop :=
  q_packet_weight m' = q_packet_weight m /\ PPI.mtu (q_output m') = PPI.mtu (q_output m).

Lemma schedule_inv m g : core m -> live0 m g -> q_freeing m = false ->
  q_sending_flow m = None -> q_previous_flow m = None -> q_schedule_job m = false ->
  user_idle (g_out g) -> ot_elements (q_queued_tree m) <> [] ->
  exists m', schedule m = Ok (tt, m', []) /\ is_Some (q_sending_flow m') /\
    inv m' (mk_ghost (PPI.count (PPI.ESend []) (g_out g)) (g_in g) (g_off g) (g_sent g)) /\
    (forall y, time_of m' y = time_of m y) /\ same_setup m m' /\
    (forall y, f_data <$> q_flows m' !! y = f_data <$> q_flows m !! y).
Proof.
  intros (Hnd & Hfl & Hdc & Hnt & Hel & _ & _) (Hu & Hw & Hwm & Hmtu & Huc & Hflows & Hord) Hfr Hs Hp Hj Hi Hne.
  destruct (ot_elements (q_queued_tree m)) as [|f l] eqn:E; [done|]; clear Hne.
  destruct (proj1 (Hel f)) as (x & Hx & Hq); [left|].
  destruct (Hflows f x Hx) as (h & Hh & Hinv & Him & Hirc & Htm & Hdata & Hbusy).
  destruct (Hdata Hq) as (d & Hd & Hl & HL).
  destruct (schedule_eq m f l x d (g_out g)) as (u & Hsch & Hud & Hun & Hu' & Hum & Huh); [done..|].
  assert (forall y, time_of (served m f x d u) y = time_of m y) as Ht.
  { intros y; unfold time_of, served; cbn [q_flows]; destruct (decide (y = f)) as [->|].
    - rewrite lookup_insert_eq, Hx; done.
    - rewrite lookup_insert_ne by done; done. }
  exists (served m f x d u); split; [done|]; split; [eexists; done|]; split; [|split; [exact Ht | split; [split; [done | exact Hum]|]]].
  2: { intros y; cbn [served q_flows]; destruct (decide (y = f)) as [->|];
         [rewrite lookup_insert_eq, Hx; done | rewrite lookup_insert_ne; done]. }
  apply list.NoDup_cons in Hnt as [Hfl' Hnt].
  assert (remove_node f (f :: l) = l) as Hrm by (apply remove_node_cons; done).
  split; [|intros _].
  - split; [done|]; split; [|split; [done|]; split; [|split; [|split]]]; cbn [served q_flows q_queued_tree
      q_flows_list q_sending_flow q_previous_flow]; rewrite ?ot_remove_elements, ?E, ?Hrm.
    + intros y; rewrite Hfl; destruct (decide (y = f)) as [->|];
        [rewrite lookup_insert_eq, Hx; split; eauto | rewrite lookup_insert_ne by done; done].
    + done.
    + intros y; rewrite queued_insert, <- Hel, elem_of_cons; cbn; split; [|naive_solver].
      intros Hy; right; split; [congruence | auto].
    + intros y [= <-]; rewrite lookup_insert_eq, queued_insert; cbn; naive_solver.
    + done.
  - split; [exact Hu'|]; split; [done|]; cbn [served q_output q_packet_weight q_use_cancel q_flows
      q_sending_flow q_queued_tree q_schedule_job q_sending_len q_previous_flow g_out g_in].
    rewrite Hum, Huh; split; [done|]; split; [done|]; split; [done|]; split; [|split].
    + intros y z Hz; destruct (decide (y = f)) as [->|Hn].
      * rewrite lookup_insert_eq in Hz; injection Hz as <-; exists h; split; [done|].
        refine (conj Hinv (conj Him (conj Hirc (conj Htm (conj _ _))))); [discriminate|].
        rewrite Hbusy, Hq; cbn; tauto.
      * rewrite lookup_insert_ne in Hz by done; destruct (Hflows y z Hz) as (hy & Hhy & H1 & H2 & H3 & H4 & H5 & H6).
        exists hy; split; [done|]; refine (conj H1 (conj H2 (conj H3 (conj H4 (conj H5 _))))).
        rewrite H6, Hs; split; (intros [|]; [auto | congruence]).
    + rewrite ot_remove_elements, E, Hrm; apply (order_shift m _ 0); [intros; rewrite Ht; lia|].
      inversion Hord; done.
    + unfold user_idle in Hi; split; [cbn; lia|]; split; [done|]; split; [done|].
      split; [pose proof (Zlen_nonneg d); lia|]; split.
      2: { intros _; exists (x <| f_is_queued := false |>); split; [apply lookup_insert_eq | split; [exact (eq_trans Hud (eq_sym Hd)) | exact (eq_trans Hun (eq_sym Hl))]]. }
      intros y Hy; rewrite !Ht.
      apply (first_is_least m f l); [done|].
      apply queued_insert in Hy as [[-> Hy]|[_ Hy]]; [discriminate Hy | apply Hel; done].
Qed.


(** ** Changing one flow *)

Definition with_flow (f : Z) (x : flow) m : queue T := m <| q_flows ::= insert f x |>.

Lemma core_with_flow m f x x' : core m -> q_flows m !! f = Some x ->
  f_is_queued x' = f_is_queued x -> core (with_flow f x' m).
Proof.
  intros (Hnd & Hfl & Hdc & Hnt & Hel & Hs & Hp) Hx Hq.
  assert (forall y, is_Some (<[f := x']> (q_flows m) !! y) <-> is_Some (q_flows m !! y)) as Hdom.
  { intros y; destruct (decide (y = f)) as [->|]; [rewrite lookup_insert_eq, Hx; split; eauto|].
    rewrite lookup_insert_ne by done; done. }
  assert (forall y, queued (<[f := x']> (q_flows m)) y <-> queued (q_flows m) y) as Hqs.
  { intros y; rewrite queued_insert, Hq; unfold queued; destruct (decide (y = f)) as [->|]; naive_solver. }
  split; [exact Hnd|]; split; [intros y; etransitivity; [apply Hfl | symmetry; apply Hdom]|].
  split; [exact Hdc|]; split; [exact Hnt|].
  split; [intros y; etransitivity; [apply Hel | symmetry; apply Hqs]|].
  split; intros y Hy; [destruct (Hs y Hy) as [? Hn] | destruct (Hp y Hy) as [? Hn]];
    (split; [apply Hdom; done | intros Hc; apply Hn, Hqs, Hc]).
Qed.

Lemma time_with_flow m f x y : time_of (with_flow f x m) y = if decide (y = f) then f_time x else time_of m y.
Proof.
  unfold time_of, with_flow; change (q_flows (m <| q_flows ::= insert f x |>)) with (<[f := x]> (q_flows m)).
  destruct (decide (y = f)) as [->|]; [rewrite lookup_insert_eq | rewrite lookup_insert_ne]; done.
Qed.

Lemma live0_with_flow m g f x x' hs h' : live0 m g -> q_flows m !! f = Some x ->
  hs !! f = Some h' -> (forall y, y <> f -> hs !! y = g_in g !! y) ->
  flow_ok (PPI.mtu (q_output m)) (q_sending_flow m = Some f) x' h' ->
  (f ∈ ot_elements (q_queued_tree m) -> f_time x' = f_time x) ->
  live0 (with_flow f x' m) (mk_ghost (g_out g) hs (g_off g) (g_sent g)).
Proof.
  intros (Hu & Hw & Hwm & Hmtu & Huc & Hflows & Hord) Hx Hh Hhs Hok Htm.
  split; [done|]; split; [done|]; split; [done|]; split; [done|]; split; [done|]; split.
  - intros y z Hz; change (<[f := x']> (q_flows m) !! y = Some z) in Hz; cbn [g_in].
    destruct (decide (y = f)) as [->|Hn].
    + rewrite lookup_insert_eq in Hz; injection Hz as <-; exists h'; done.
    + rewrite lookup_insert_ne in Hz by done; rewrite Hhs by done; apply Hflows; done.
  - apply (order_shift m _ 0); [|exact Hord]; intros y Hy; rewrite time_with_flow.
    destruct (decide (y = f)) as [->|]; [rewrite (time_of_eq _ _ _ Hx), Htm by done|]; lia.
Qed.

(** The part of [live] on the output depends on the flows by their times and flags only. *)
Definition at_output m g : Prop :=
  match q_sending_flow m with
  | Some f => h_started (g_out g) = h_completed (g_out g) + 1 /\ q_previous_flow m = None /\
      q_schedule_job m = false /\ 0 <= q_sending_len m <= PPI.mtu (q_output m) /\
      (forall y, queued (q_flows m) y -> time_of m f <= time_of m y) /\ asked m f
  | None => user_idle (g_out g) /\
      (q_schedule_job m = false -> q_previous_flow m = None /\ ot_elements (q_queued_tree m) = [])
  end.

Lemma live_split m g : live m g <-> live0 m g /\ at_output m g.
Proof.
  unfold live, live0, at_output; split.
  - intros (a & b & c & d & e & f & h & i); exact (conj (conj a (conj b (conj c (conj d (conj e (conj f h)))))) i).
  - intros [(a & b & c & d & e & f & h) i]; exact (conj a (conj b (conj c (conj d (conj e (conj f (conj h i))))))).
Qed.

Lemma asked_with_flow m s f x x' : asked m s -> q_flows m !! f = Some x ->
  f_data x' = f_data x -> f_data_len x' = f_data_len x -> asked (with_flow f x' m) s.
Proof.
  intros Ha Hx Hd Hn Hj; destruct (Ha Hj) as (z & Hz & Hzd & Hzn).
  change (exists z, <[f := x']> (q_flows m) !! s = Some z /\ PPI.job_operation_data (q_output m) = f_data z /\
    PPI.job_operation_len (q_output m) = f_data_len z).
  destruct (decide (s = f)) as [->|]; [exists x'; rewrite lookup_insert_eq; split; [done|]; split; congruence|].
  exists z; rewrite lookup_insert_ne; done.
Qed.

Lemma at_output_with_flow m g f x x' hs : at_output m g -> q_flows m !! f = Some x ->
  f_is_queued x' = f_is_queued x -> f_time x' = f_time x -> f_data x' = f_data x ->
  f_data_len x' = f_data_len x ->
  at_output (with_flow f x' m) (mk_ghost (g_out g) hs (g_off g) (g_sent g)).
Proof.
  intros Hat Hx Hq Ht Hxd Hxn; unfold at_output in *.
  assert (forall y, time_of (with_flow f x' m) y = time_of m y) as Htm.
  { intros y; rewrite time_with_flow; destruct (decide (y = f)) as [->|]; [|done].
    rewrite (time_of_eq _ _ _ Hx); done. }
  change (q_sending_flow (with_flow f x' m)) with (q_sending_flow m).
  destruct (q_sending_flow m) as [s|]; [|exact Hat]; destruct Hat as (H1 & H2 & H3 & H4 & H5 & H6).
  split; [done|]; split; [done|]; split; [done|]; split; [done|]; split; [|apply asked_with_flow with x; done].
  intros y Hy; rewrite !Htm; apply H5; apply queued_insert in Hy as [[-> Hy]|[_ Hy]]; [|done].
  exists x; split; congruence.
Qed.

Lemma bump_eq e f h (hs : gmap Z history) : hs !! f = Some h -> bump e f hs !! f = Some (PPI.count e h).
Proof. intros Hh; unfold bump; rewrite lookup_alter_eq, Hh; done. Qed.
Lemma bump_ne e f (hs : gmap Z history) y : y <> f -> bump e f hs !! y = hs !! y.
Proof. intros; unfold bump; rewrite lookup_alter_ne by done; done. Qed.

(** A flow whose input's interface moved on by [e]. *)
Lemma input_moved m g f x i h h' e : inv m g -> q_freeing m = false ->
  q_flows m !! f = Some x -> g_in g !! f = Some h -> h' = PPI.count e h -> PPI.inv i h' ->
  PPI.mtu i = PPI.mtu (f_input x) -> PPI.has_requestcancel i = PPI.has_requestcancel (f_input x) ->
  (provider_busy h' <-> provider_busy h) ->
  inv (with_flow f (x <| f_input := i |>) m)
    (mk_ghost (g_out g) (bump e f (g_in g)) (g_off g) (g_sent g)).
Proof.
  intros [Hcore Hlive] Hfr Hx Hh -> Hi Hm Hrc Hb; specialize (Hlive Hfr).
  apply live_split in Hlive as [Hl0 Hat]; split; [eapply core_with_flow; done|].
  intros _; apply live_split; split; [|eapply at_output_with_flow; done].
  pose proof Hl0 as (_ & _ & _ & _ & _ & Hflows & _).
  destruct (Hflows f x Hx) as (h1 & Hh1 & H1 & H2 & H3 & H4 & H5 & H6).
  rewrite Hh in Hh1; injection Hh1 as <-.
  eapply live0_with_flow; [done | done | apply bump_eq; done | intros; apply bump_ne; done | | done].
  refine (conj Hi (conj (eq_trans Hm H2) (conj (eq_trans Hrc H3) (conj H4 (conj H5 _)))));
    rewrite Hb; exact H6.
Qed.

(** ** The times *)

Lemma current_eq m : core m ->
  (forall f x, q_flows m !! f = Some x -> 0 <= f_time x <= FAIRQUEUE_MAX_TIME) ->
  in_order (compare_flows m) (ot_elements (q_queued_tree m)) ->
  exists t, get_current_time m = Ok (t, m, []) /\ 0 <= t <= FAIRQUEUE_MAX_TIME /\
    match q_sending_flow m with
    | Some s => t = time_of m s
    | None => forall y, queued (q_flows m) y -> t <= time_of m y
    end.
Proof.
  intros (_ & _ & _ & _ & Hel & Hs & Hp) Htm Hord; unfold get_current_time.
  destruct (q_sending_flow m) as [s|] eqn:Es.
  { destruct (Hs s eq_refl) as [[x Hx] _]; exists (f_time x).
    split; [pstep; rewrite Es; pflow Hx; done|]; split; [eapply Htm; done | rewrite (time_of_eq _ _ _ Hx); done]. }
  destruct (ot_elements (q_queued_tree m)) as [|f l] eqn:E.
  - assert (forall y, ~ queued (q_flows m) y) as Hnq.
    { intros y Hy; apply Hel in Hy; inversion Hy. }
    destruct (q_previous_flow m) as [p|] eqn:Ep.
    + destruct (Hp p eq_refl) as [[x Hx] _]; exists (f_time x); split.
      { pstep; rewrite Es, ot_first_head, E; pstep; rewrite Ep; pstep_by ltac:(pflow Hx; reflexivity); done. }
      split; [eapply Htm; done|]; intros y Hy; destruct (Hnq y Hy).
    + exists 0; split; [pstep; rewrite Es, ot_first_head, E; pstep; rewrite Ep; pstep; done|].
      split; [unfold FAIRQUEUE_MAX_TIME; lia|]; intros y Hy; destruct (Hnq y Hy).
  - destruct (proj1 (Hel f)) as (x & Hx & Hq); [left|]; pose proof (Htm _ _ Hx).
    assert (forall y, queued (q_flows m) y -> f_time x <= time_of m y) as Hleast.
    { intros y Hy; rewrite <- (time_of_eq _ _ _ Hx); apply (first_is_least m f l); [done | apply Hel; done]. }
    destruct (q_previous_flow m) as [p|] eqn:Ep.
    + destruct (Hp p eq_refl) as [[z Hz] _]; pose proof (Htm _ _ Hz).
      exists (if f_time z <? f_time x then f_time z else f_time x); split.
      { pstep; rewrite Es, ot_first_head, E; cbn [head].
        pstep_by ltac:(pflow Hx; rewrite Hq; pstep; reflexivity); cbv beta; rewrite Ep.
        pstep_by ltac:(pflow Hz; reflexivity); done. }
      destruct (Z.ltb_spec (f_time z) (f_time x)); (split; [done|]); [|exact Hleast].
      intros y Hy; specialize (Hleast y Hy); lia.
    + exists (f_time x); split; [|done].
      pstep; rewrite Es, ot_first_head, E; cbn [head].
      pstep_by ltac:(pflow Hx; rewrite Hq; pstep; reflexivity); cbv beta; rewrite Ep; pstep; done.
Qed.

Definition lower (f s y : Z) (x : flow) : flow :=
  x <| f_time := if (f_time x <? s) && negb (y =? f) then 0 else wrap 64 (f_time x - s) |>.

Lemma subtract_all_eq flow s l m : NoDup l ->
  (forall y, y ∈ l -> exists x, q_flows m !! y = Some x /\ (f_is_queued x = true -> s <= f_time x)) ->
  exists fs, subtract_all flow s l m = Ok (tt, m <| q_flows := fs |>, []) /\
    forall y, fs !! y = if bool_decide (y ∈ l) then lower flow s y <$> q_flows m !! y else q_flows m !! y.
Proof.
  intros Hl; revert m; induction Hl as [|f l Hf Hl IH]; intros m Hm; cbn [subtract_all].
  - exists (q_flows m); split; [destruct m; done | done].
  - destruct (Hm f) as (x & Hx & Hq); [left|].
    destruct (IH (m <| q_flows ::= insert f (lower flow s f x) |>)) as (fs & He & Hfs).
    { intros y Hy; destruct (Hm y) as (z & Hz & Hqz); [right; done|]; exists z; split; [|done].
      change (<[f := lower flow s f x]> (q_flows m) !! y = Some z); rewrite lookup_insert_ne by congruence; done. }
    exists fs; split.
    + pflow Hx; etransitivity; [eapply pbind_ok|exact He]; unfold lower.
      destruct (Z.ltb_spec (f_time x) s), (Z.eqb_spec f flow); cbn [andb negb];
        try (etransitivity; [apply mod_flow_eq; exact Hx | reflexivity]).
      pstep_by ltac:(apply passert_ok; destruct (f_is_queued x); [specialize (Hq eq_refl); lia | done]).
      etransitivity; [apply mod_flow_eq; exact Hx | reflexivity].
    + intros y; rewrite Hfs; change (q_flows (m <| q_flows ::= insert f (lower flow s f x) |>))
        with (<[f := lower flow s f x]> (q_flows m)).
      destruct (decide (y = f)) as [->|Hn].
      * rewrite bool_decide_eq_false_2, bool_decide_eq_true_2, lookup_insert_eq, Hx by (done || left); done.
      * rewrite lookup_insert_ne by done; destruct (decide (y ∈ l)) as [Hy|Hy].
        { rewrite !bool_decide_eq_true_2 by (done || right; done); done. }
        rewrite !bool_decide_eq_false_2; [done | | done].
        intros [->|?]%elem_of_cons; done.
Qed.

(** All flows lowered by [s] but not below zero, then [flow] advanced by [amount]. *)
Definition advance1 (f amount s y : Z) (x : flow) : flow :=
  x <| f_time := if y =? f then f_time x + amount - s else Z.max 0 (f_time x - s) |>.
Definition advance (f amount s : Z) (fs : gmap Z flow) : gmap Z flow :=
  map_imap (fun y x => Some (advance1 f amount s y x)) fs.

Lemma lookup_advance flow amount s fs y : advance flow amount s fs !! y = advance1 flow amount s y <$> fs !! y.
Proof. unfold advance; rewrite map_lookup_imap; destruct (fs !! y); done. Qed.

Lemma wrap_add_sub a s b : 0 <= a + b - s <= FAIRQUEUE_MAX_TIME ->
  wrap 64 (wrap 64 (a - s) + b) = a + b - s.
Proof.
  intros Hr; unfold wrap; rewrite Z.add_mod_idemp_l by done.
  replace (a - s + b) with (a + b - s) by lia; apply Z.mod_small.
  change (2 ^ 64) with 18446744073709551616; unfold FAIRQUEUE_MAX_TIME in Hr; lia.
Qed.

Lemma advance_lowered f x amount s fs fs' : fs !! f = Some x ->
  (forall y, fs' !! y = lower f s y <$> fs !! y) ->
  (forall y z, fs !! y = Some z -> 0 <= f_time z <= FAIRQUEUE_MAX_TIME) -> 0 <= s ->
  0 <= f_time x + amount - s <= FAIRQUEUE_MAX_TIME ->
  advance f amount s fs =
    <[f := (lower f s f x) <| f_time := wrap 64 (f_time (lower f s f x) + amount) |>]> fs'.
Proof.
  intros Hx Hfs Htm Hs Hr; apply map_eq; intros y; rewrite lookup_advance.
  destruct (decide (y = f)) as [->|Hn].
  - rewrite lookup_insert_eq, Hx; cbn [fmap option_fmap option_map]; f_equal.
    unfold advance1, lower; cbv beta iota delta [update]; cbn [f_time f_handler_busy f_input f_is_queued f_data f_data_len].
    rewrite Z.eqb_refl; cbn [negb]; rewrite andb_false_r, wrap_add_sub by done; done.
  - rewrite lookup_insert_ne, Hfs by done; destruct (fs !! y) as [z|] eqn:E; [|done]; specialize (Htm y z E).
    cbn [fmap option_fmap option_map]; f_equal; unfold advance1, lower; destruct (Z.eqb_spec y f); [done|].
    cbn [negb]; rewrite andb_true_r; destruct (Z.ltb_spec (f_time z) s).
    + rewrite Z.max_l by lia; done.
    + rewrite Z.max_r, wrap_small by (try lia; change (2 ^ 64) with 18446744073709551616;
        unfold FAIRQUEUE_MAX_TIME in *; lia); done.
Qed.

Lemma advance_unlowered f x amount fs : fs !! f = Some x ->
  (forall y z, fs !! y = Some z -> 0 <= f_time z <= FAIRQUEUE_MAX_TIME) ->
  0 <= amount -> f_time x + amount <= FAIRQUEUE_MAX_TIME ->
  advance f amount 0 fs = <[f := x <| f_time := wrap 64 (f_time x + amount) |>]> fs.
Proof.
  intros Hx Htm Ha Hr; apply map_eq; intros y; rewrite lookup_advance; pose proof (Htm f x Hx).
  destruct (decide (y = f)) as [->|Hn].
  - rewrite lookup_insert_eq, Hx; cbn [fmap option_fmap option_map]; f_equal.
    unfold advance1; rewrite Z.eqb_refl, Z.sub_0_r, wrap_small; [done|].
    change (2 ^ 64) with 18446744073709551616; unfold FAIRQUEUE_MAX_TIME in *; lia.
  - rewrite lookup_insert_ne by done; destruct (fs !! y) as [z|] eqn:E; [|done]; specialize (Htm y z E).
    cbn [fmap option_fmap option_map]; f_equal; unfold advance1; destruct (Z.eqb_spec y f); [done|].
    rewrite Z.sub_0_r, Z.max_r by lia; destruct z; done.
Qed.

Lemma increment_eq m f x amount : core m -> q_sending_flow m = None ->
  (forall y z, q_flows m !! y = Some z -> 0 <= f_time z <= FAIRQUEUE_MAX_TIME) ->
  in_order (compare_flows m) (ot_elements (q_queued_tree m)) ->
  q_flows m !! f = Some x -> f_is_queued x = false -> 0 <= amount <= FAIRQUEUE_MAX_TIME ->
  (forall y, queued (q_flows m) y -> f_time x <= time_of m y) ->
  exists s, s = (if FAIRQUEUE_MAX_TIME - f_time x <? amount then
                   match ot_first (q_queued_tree m) with Some q => time_of m q | None => f_time x end
                 else 0) /\
    increment_sent_flow f amount m = Ok (tt, m <| q_flows := advance f amount s (q_flows m) |>, []) /\
    0 <= s /\ 0 <= f_time x + amount - s <= FAIRQUEUE_MAX_TIME /\
    (forall y, queued (q_flows m) y -> s <= time_of m y).
Proof.
  intros (Hnd & Hfl & _ & _ & Hel & _) Hs Htm Hord Hx Hq Ha Hleast; pose proof (Htm f x Hx) as Htx.
  destruct (Z.ltb_spec (FAIRQUEUE_MAX_TIME - f_time x) amount) as [Hov|Hno].
  - set (s := match ot_first (q_queued_tree m) with Some q => time_of m q | None => f_time x end).
    assert (0 <= s <= FAIRQUEUE_MAX_TIME /\ f_time x <= s /\ forall y, queued (q_flows m) y -> s <= time_of m y)
      as (Hs0 & Hs1 & Hs2).
    { unfold s; rewrite ot_first_head; destruct (ot_elements (q_queued_tree m)) as [|q l] eqn:E; cbn [head].
      - split; [done|]; split; [lia|]; intros y Hy; apply Hel in Hy; inversion Hy.
      - destruct (proj1 (Hel q)) as (z & Hz & Hqz); [left|]; rewrite (time_of_eq _ _ _ Hz).
        split; [eapply Htm; done|]; split; [rewrite <- (time_of_eq _ _ _ Hz); apply Hleast; exists z; done|].
        intros y Hy; rewrite <- (time_of_eq _ _ _ Hz); apply (first_is_least m q l); [done | apply Hel; done]. }
    destruct (subtract_all_eq f s (q_flows_list m) m Hnd) as (fs & Hsub & Hfs).
    { intros y Hy; apply Hfl in Hy as [z Hz]; exists z; split; [done|]; intros Hqz.
      rewrite <- (time_of_eq _ _ _ Hz); apply Hs2; exists z; done. }
    assert (forall y, fs !! y = lower f s y <$> q_flows m !! y) as Hfs'.
    { intros y; rewrite Hfs; destruct (decide (y ∈ q_flows_list m)) as [Hy|Hy].
      - rewrite bool_decide_eq_true_2 by done; done.
      - rewrite bool_decide_eq_false_2 by done; rewrite Hfl in Hy.
        destruct (q_flows m !! y) eqn:E; [destruct Hy; eauto | done]. }
    exists s; split; [done|]; split; [|split; [lia|]; split; [lia | done]].
    rewrite (advance_lowered f x amount s (q_flows m) fs) by (done || lia).
    unfold increment_sent_flow; pstep; pflow Hx; pstep_by ltac:(apply passert_ok; lia).
    pstep_by ltac:(apply passert_ok; rewrite Hq; done); pstep_by ltac:(apply passert_ok; rewrite Hs; done).
    test_true (FAIRQUEUE_MAX_TIME - f_time x <? amount); cbv iota.
    etransitivity; [eapply pbind_ok; etransitivity; [eapply pbind_ok | exact Hsub]|].
    + unfold s; rewrite ot_first_head; destruct (ot_elements (q_queued_tree m)) as [|q l]; cbn [head]; [done|].
      destruct (proj1 (Hel q)) as (z & Hz & Hqz); [left|]; pflow Hz; rewrite Hqz; pstep.
      rewrite (time_of_eq _ _ _ Hz); done.
    + etransitivity; [apply (mod_flow_eq (m <| q_flows := fs |>) f (lower f s f x)) | reflexivity].
      change (fs !! f = Some (lower f s f x)); rewrite Hfs', Hx; done.
  - exists 0; split; [done|]; split; [|split; [lia|]; split; [lia|]].
    + unfold increment_sent_flow; pstep; pflow Hx; pstep_by ltac:(apply passert_ok; lia).
      pstep_by ltac:(apply passert_ok; rewrite Hq; done); pstep_by ltac:(apply passert_ok; rewrite Hs; done).
      test_false (FAIRQUEUE_MAX_TIME - f_time x <? amount); cbv iota; pstep.
      erewrite mod_flow_eq by exact Hx; rewrite (advance_unlowered f x amount (q_flows m)) by (done || lia); done.
    + intros y (z & Hz & _); rewrite (time_of_eq _ _ _ Hz); eapply Htm; done.
Qed.

(** ** The output has sent a packet *)

Definition finished m (f : Z) (job : bool) (fs : gmap Z flow) : queue T :=
  mk_queue (q_output m) (q_use_cancel m) (q_packet_weight m) None (q_sending_len m) (Some f)
    (q_queued_tree m) (q_flows_list m) false job (q_d_ctr m) fs.
Definition sent_flow m (f : Z) (x : flow) (i : PPI.t) : flow :=
  mk_flow false i (f_time x + weight m - lowered m f) (f_is_queued x) (f_data x) (f_data_len x).

Lemma on_input_nil m f x (p : PPI.pp unit) k i : q_flows m !! f = Some x ->
  p (f_input x) = Ok (tt, i, []) ->
  on_input f p k m = Ok (tt, with_flow f (x <| f_input := i |>) m, []).
Proof. intros Hx Hp; unfold on_input; rewrite Hx, Hp; done. Qed.

Lemma finished_core m f job : core m -> q_sending_flow m = Some f -> core (finished m f job (q_flows m)).
Proof.
  intros (Hnd & Hfl & Hdc & Hnt & Hel & Hs & Hp) Hf; do 5 (split; [done|]).
  split; [discriminate|]; intros y [= <-]; apply Hs; done.
Qed.

Lemma ok_flows (k : gmap Z flow -> queue T) a b (c : list fq_call) : a = b -> Ok (tt, k a, c) = Ok (tt, k b, c).
Proof. intros ->; done. Qed.

Lemma output_done_eq m f x h : core m -> q_sending_flow m = Some f -> q_previous_flow m = None ->
  q_schedule_job m = false -> q_freeing m = false ->
  (forall y z, q_flows m !! y = Some z -> 0 <= f_time z <= FAIRQUEUE_MAX_TIME) ->
  in_order (compare_flows m) (ot_elements (q_queued_tree m)) -> 0 <= weight m <= FAIRQUEUE_MAX_TIME ->
  (forall y, queued (q_flows m) y -> time_of m f <= time_of m y) ->
  q_flows m !! f = Some x -> PPI.inv (f_input x) h -> provider_busy h ->
  exists i calls, output_handler_done m =
      Ok (tt, finished m f true (<[f := sent_flow m f x i]> (advance f (weight m) (lowered m f) (q_flows m))), calls) /\
    PPI.inv i (PPI.count PPI.EDone h) /\ PPI.mtu i = PPI.mtu (f_input x) /\
    PPI.has_requestcancel i = PPI.has_requestcancel (f_input x) /\
    0 <= lowered m f /\ 0 <= f_time x + weight m - lowered m f <= FAIRQUEUE_MAX_TIME /\
    (forall y, queued (q_flows m) y -> lowered m f <= time_of m y).
Proof.
  intros Hc Hs Hp Hj Hfr Htm Hord Hw Hleast Hx Hi Hb; pose proof (time_of_eq _ _ _ Hx) as Htx.
  assert (f_is_queued x = false) as Hq.
  { destruct Hc as (_ & _ & _ & _ & _ & Hsn & _); destruct (Hsn f Hs) as [_ Hn].
    destruct (f_is_queued x) eqn:E; [destruct Hn; exists x; done | done]. }
  destruct (increment_eq (finished m f false (q_flows m)) f x (weight m)) as (s & Hse & Hinc & Hs0 & Hr & Hsq);
    [apply finished_core; done | done | exact Htm | | done | done | done | rewrite <- Htx; exact Hleast |].
  { apply (order_shift m _ 0); [intros; unfold time_of; cbn; lia | done]. }
  assert (s = lowered m f) as ->.
  { rewrite Hse; unfold lowered; rewrite Htx; done. }
  destruct (PPI.ppi_inv_step PPI.EDone _ h Hi Hb) as (i & Hdone & Hi' & Him & Hirc).
  assert (exists calls, output_handler_done m =
    Ok (tt, finished m f true (<[f := sent_flow m f x i]> (advance f (weight m) (lowered m f) (q_flows m))), calls))
    as [calls Hout]; [|exists i, calls; auto 10].
  set (x1 := advance1 f (weight m) (lowered m f) f x).
  set (fs := advance f (weight m) (lowered m f) (q_flows m)) in *.
  assert (fs !! f = Some x1) as Hx1 by (unfold fs; rewrite lookup_advance, Hx; done).
  unfold output_handler_done; destruct m as [out uc pw sf sl pf tr fl fr sj dc fs0].
  cbn [q_output q_sending_flow q_previous_flow q_freeing q_queued_tree q_flows q_schedule_job] in *; subst sf pf fr sj.
  assert (wrap 64 (pw + sl) = pw + sl) as Hwr.
  { apply wrap_small; change (2 ^ 64) with 18446744073709551616.
    unfold weight in Hw; cbn in Hw; unfold FAIRQUEUE_MAX_TIME in Hw; lia. }
  set (hb := if f_handler_busy x then [HandlerBusy f] else []); exists hb.
  pstep; pstep; pstep; pstep; pflow Hx; rewrite Hq; pstep; pstep; cbn [q_packet_weight q_sending_len].
  rewrite Hwr; pstep_by ltac:(exact Hinc); pstep.
  pstep_by ltac:(apply on_input_nil; [exact Hx1 | exact Hdone]).
  pflow (lookup_insert_eq fs f (x1 <| f_input := i |>)).
  assert (sent_flow (mk_queue out uc pw (Some f) sl None tr fl false false dc fs0) f x i
    = (x1 <| f_input := i |>) <| f_handler_busy := false |>) as ->.
  { unfold x1, advance1; rewrite Z.eqb_refl; done. }
  change (f_handler_busy (x1 <| f_input := i |>)) with (f_handler_busy x); unfold hb.
  destruct (f_handler_busy x) eqn:Eb; cbv iota.
  - pstep_by ltac:(apply mod_flow_eq; apply lookup_insert_eq); unfold pcall.
    apply (ok_flows (mk_queue out uc pw None sl (Some f) tr fl false true dc)); apply insert_insert_eq.
  - apply (ok_flows (mk_queue out uc pw None sl (Some f) tr fl false true dc)); f_equal.
    unfold x1, advance1; cbv beta iota delta [update]; cbn; rewrite Eb; done.
Qed.

Lemma finished_lookup m f x i y : q_flows m !! f = Some x ->
  <[f := sent_flow m f x i]> (advance f (weight m) (lowered m f) (q_flows m)) !! y =
  if decide (y = f) then Some (sent_flow m f x i)
  else (fun z => z <| f_time := Z.max 0 (f_time z - lowered m f) |>) <$> q_flows m !! y.
Proof.
  intros Hx; destruct (decide (y = f)) as [->|Hn]; [apply lookup_insert_eq|].
  rewrite lookup_insert_ne, lookup_advance by done; destruct (q_flows m !! y); [|done].
  cbn [fmap option_fmap option_map]; unfold advance1; destruct (Z.eqb_spec y f); done.
Qed.

Lemma core_flags m m' : core m ->
  (forall y, f_is_queued <$> q_flows m' !! y = f_is_queued <$> q_flows m !! y) ->
  q_flows_list m' = q_flows_list m -> q_d_ctr m' = q_d_ctr m -> q_queued_tree m' = q_queued_tree m ->
  (forall y, q_sending_flow m' = Some y -> is_Some (q_flows m !! y) /\ ~ queued (q_flows m) y) ->
  (forall y, q_previous_flow m' = Some y -> is_Some (q_flows m !! y) /\ ~ queued (q_flows m) y) ->
  core m'.
Proof.
  intros (Hnd & Hfl & Hdc & Hnt & Hel & _ & _) Hf Hl Hd Ht Hs Hp.
  assert (forall y, is_Some (q_flows m' !! y) <-> is_Some (q_flows m !! y)) as Hdom.
  { intros y; specialize (Hf y); destruct (q_flows m' !! y), (q_flows m !! y); try discriminate Hf; split; eauto;
      intros [? [=]]. }
  assert (forall y, queued (q_flows m') y <-> queued (q_flows m) y) as Hqs.
  { intros y; specialize (Hf y); unfold queued.
    destruct (q_flows m' !! y), (q_flows m !! y); try discriminate Hf; [injection Hf as Hf | naive_solver].
    split; intros (z & [= <-] & Hz); eexists; split; try done; congruence. }
  unfold core; rewrite Hl, Hd, Ht; split; [done|]; split; [intros y; rewrite Hdom; done|].
  split; [done|]; split; [done|]; split; [intros y; rewrite Hqs; done|].
  split; intros y Hy; rewrite Hdom, Hqs; auto.
Qed.

(** What [Out PPI.ECompleted] does to the queue. *)
Lemma out_completed m g : inv m g -> q_freeing m = false -> PPI.job_done (q_output m) = true ->
  exists f m' calls, q_sending_flow m = Some f /\ handle (Out PPI.ECompleted) m = Ok (tt, m', calls) /\
    inv m' (count (Out PPI.ECompleted) m m' g) /\ 
    q_freeing m' = false /\ q_packet_weight m' = q_packet_weight m /\
    PPI.mtu (q_output m') = PPI.mtu (q_output m) /\ q_schedule_job m' = true /\
    0 <= lowered m f /\ 0 <= q_sending_len m <= PPI.mtu (q_output m) /\
    (forall y, queued (q_flows m) y -> lowered m f <= time_of m y /\ time_of m f <= time_of m y) /\
    (forall y, is_Some (q_flows m !! y) -> time_of m' y =
       if decide (y = f) then time_of m y + weight m - lowered m f
       else Z.max 0 (time_of m y - lowered m f)).
Proof.
  intros [Hcore Hlive] Hfr Hjob; specialize (Hlive Hfr).
  apply live_split in Hlive as [(Hu & Hpw & Hpwm & Hmtu & Huc & Hflows & Hord) Hat].
  destruct (PPI.ppi_inv_completed _ _ Hu Hjob) as [Hst Hre].
  destruct (q_sending_flow m) as [f|] eqn:Es; unfold at_output in Hat; rewrite Es in Hat;
    [|destruct Hat as [Hid _]; unfold user_idle in Hid; lia].
  destruct Hat as (_ & Hp & Hj & Hlen & Hleast & _).
  pose proof Hcore as (_ & _ & _ & _ & Hel & Hsf & _); destruct (Hsf f Es) as [[x Hx] Hnq].
  destruct (Hflows f x Hx) as (h & Hh & Hi & Him & Hirc & Htx & _ & Hb).
  destruct (PPI.ppi_inv_step PPI.ECompleted _ _ Hu Hjob) as (u & Hdone & Hu' & Hum & Huh).
  set (m1 := put_output u m).
  assert (0 <= weight m <= FAIRQUEUE_MAX_TIME) as Hw by (unfold weight; lia).
  destruct (output_done_eq m1 f x h) as (i & calls & Ho & Hi' & Him' & Hirc' & Hlo & Hr & Hlq); try done.
  { intros y z Hz; destruct (Hflows y z Hz) as (? & _ & _ & _ & _ & ? & _); done. }
  { apply Hb; right; done. }
  set (fs := <[f := sent_flow m f x i]> (advance f (weight m) (lowered m f) (q_flows m))).
  assert (forall y, time_of (finished m1 f true fs) y = if decide (y = f) then f_time x + weight m - lowered m f
    else match q_flows m !! y with Some _ => Z.max 0 (time_of m y - lowered m f) | None => 0 end) as Ht.
  { intros y; unfold time_of, finished; cbn [q_flows]; unfold fs; rewrite finished_lookup by done.
    destruct (decide (y = f)); [done|]; destruct (q_flows m !! y); done. }
  exists f, (finished m1 f true fs), calls; split; [done|]; split.
  { etransitivity; [apply run_on_one; exact Hdone | exact Ho]. }
  split; [|split; [done|]; split; [done|]; split; [exact Hum|]; split; [done|]; split; [done|]; split; [done|]; split].
  - cbn [count]; rewrite Es; split; [|intros _; apply live_split; split].
    + eapply core_flags; [exact Hcore | | done | done | done | discriminate | intros y [= <-]; apply Hsf; done].
      intros y; cbn [finished q_flows]; unfold fs; rewrite finished_lookup by done.
      destruct (decide (y = f)) as [->|]; [rewrite Hx; done | destruct (q_flows m !! y); done].
    + split; [exact Hu'|]; split; [done|]; split; [change (q_packet_weight m + PPI.mtu u <= FAIRQUEUE_MAX_TIME); rewrite Hum; done|].
      split; [change (0 <= PPI.mtu u); rewrite Hum; done|]; split.
      { change (q_use_cancel m = true -> PPI.has_requestcancel u = true); rewrite Huh; done. }
      change (PPI.mtu (q_output (finished m1 f true fs))) with (PPI.mtu u); rewrite Hum; split.
      * intros y z Hz; change (fs !! y = Some z) in Hz; unfold fs in Hz; rewrite finished_lookup in Hz by done.
        destruct (decide (y = f)) as [->|Hn].
        -- injection Hz as <-; exists (PPI.count PPI.EDone h); split; [apply bump_eq; done|].
           refine (conj Hi' (conj (eq_trans Him' Him) (conj (eq_trans Hirc' Hirc) (conj _ (conj _ _))))).
           ++ exact Hr.
           ++ intros Hq; destruct Hnq; exists x; done.
           ++ assert (f_is_queued x = false) as Hq
                by (destruct (f_is_queued x) eqn:E; [destruct Hnq; exists x; done | done]).
              cbn [sent_flow f_is_queued q_sending_flow finished]; rewrite Hq.
              assert (provider_busy h) as Hbh by (apply Hb; right; done).
              unfold provider_busy in *; cbn [PPI.count h_received h_finished]; split; [lia | intros [|]; discriminate].
        -- destruct (q_flows m !! y) as [z0|] eqn:Ey; [|discriminate Hz]; injection Hz as <-.
           destruct (Hflows y z0 Ey) as (hy & Hhy & H1 & H2 & H3 & H4 & H5 & H6).
           exists hy; split; [etransitivity; [apply bump_ne; done | exact Hhy]|].
           refine (conj H1 (conj H2 (conj H3 (conj _ (conj H5 _))))); [change (0 <= lowered m f) in Hlo;
             change (0 <= Z.max 0 (f_time z0 - lowered m f) <= FAIRQUEUE_MAX_TIME); lia|].
           cbn [f_is_queued q_sending_flow finished]; etransitivity; [exact H6|].
           cbv beta iota delta [update]; cbn; split; (intros [|]; [auto | congruence]).
      * apply (order_shift m _ (lowered m f)); [|exact Hord]; intros y Hy; rewrite Ht.
        apply Hel in Hy as Hy'; specialize (Hlq y Hy'); change (lowered m1 f) with (lowered m f) in Hlq.
        change (time_of m1 y) with (time_of m y) in Hlq.
        destruct Hy' as (z & Hz & Hqz); rewrite decide_False by (intros ->; apply Hnq; exists z; done).
        rewrite Hz; lia.
    + unfold at_output; cbn [finished q_sending_flow q_schedule_job g_out]; split; [|discriminate].
      unfold user_idle; cbn; lia.
  - intros y Hy; split; [apply Hlq; done | apply Hleast; done].
  - intros y [z Hz]; rewrite Ht, Hz; destruct (decide (y = f)) as [->|]; [|done].
    rewrite (time_of_eq _ _ _ Hx); done.
Qed.

(** ** A flow hands over a packet *)

Definition enqueued m (f : Z) (prev : option Z) (tree : T) (x : flow) : queue T :=
  mk_queue (q_output m) (q_use_cancel m) (q_packet_weight m) (q_sending_flow m) (q_sending_len m)
    prev tree (q_flows_list m) (q_freeing m) (q_schedule_job m) (q_d_ctr m) (<[f := x]> (q_flows m)).

Lemma enqueued_mod m f prev tree x k :
  mod_flow f k (enqueued m f prev tree x) = Ok (tt, enqueued m f prev tree (k x), []).
Proof.
  etransitivity; [apply mod_flow_eq, lookup_insert_eq|].
  apply (ok_flows (fun fs => mk_queue (q_output m) (q_use_cancel m) (q_packet_weight m) (q_sending_flow m)
    (q_sending_len m) prev tree (q_flows_list m) (q_freeing m) (q_schedule_job m) (q_d_ctr m) fs)).
  apply insert_insert_eq.
Qed.

(** The flow that was served last keeps its time, the others catch up with the present. *)
Definition prev_after m (f : Z) : option Z := if opt_is (q_previous_flow m) f then None else q_previous_flow m.
Definition caught_up m (f : Z) (x : flow) (t' : Z) : Prop :=
  f_time x <= t' <= FAIRQUEUE_MAX_TIME /\
  (forall s, q_sending_flow m = Some s -> time_of m s <= t') /\
  (forall y, queued (q_flows m) y -> t' <= Z.max (f_time x) (time_of m y)).

Lemma catch_up_eq m g f x x1 : core m -> live m g -> q_freeing m = false -> q_flows m !! f = Some x ->
  q_sending_flow m <> Some f -> f_is_queued x1 = f_is_queued x -> f_time x1 = f_time x ->
  exists t', caught_up m f x t' /\
    (if opt_is (q_previous_flow m) f then pmod (fun m => m <| q_previous_flow := None |>)
     else t ← get_current_time; mod_flow f (fun x => x <| f_time := bmax (f_time x) t |>)) (with_flow f x1 m)
    = Ok (tt, enqueued m f (prev_after m f) (q_queued_tree m) (x1 <| f_time := t' |>), []).
Proof.
  intros Hcore Hlive Hfr Hx Hns Hq1 Ht1.
  apply live_split in Hlive as [(_ & _ & _ & _ & _ & Hflows & Hord) Hat].
  assert (forall y z, q_flows m !! y = Some z -> 0 <= f_time z <= FAIRQUEUE_MAX_TIME) as Htm.
  { intros y z Hz; destruct (Hflows y z Hz) as (? & _ & _ & _ & _ & ? & _); done. }
  pose proof (Htm f x Hx) as Htx.
  unfold prev_after, opt_is; destruct (decide (q_previous_flow m = Some f)) as [Hp|Hp].
  - rewrite bool_decide_eq_true_2 by done; exists (f_time x); split.
    + split; [lia|]; split; [|intros; lia]; intros s Hs; unfold at_output in Hat; rewrite Hs in Hat.
      destruct Hat as (_ & Hn & _); congruence.
    + destruct m, x1; cbn in Ht1; subst; done.
  - rewrite bool_decide_eq_false_2 by done.
    assert (core (with_flow f x1 m)) as Hcore' by (eapply core_with_flow; done).
    assert (forall y, time_of (with_flow f x1 m) y = time_of m y) as Ht.
    { intros y; rewrite time_with_flow; destruct (decide (y = f)) as [->|]; [|done].
      rewrite (time_of_eq _ _ _ Hx); done. }
    destruct (current_eq (with_flow f x1 m)) as (t & Hc & Hr & Hle); [done | | |].
    { intros y z Hz; change (<[f := x1]> (q_flows m) !! y = Some z) in Hz.
      destruct (decide (y = f)) as [->|]; [rewrite lookup_insert_eq in Hz; injection Hz as <-; lia|].
      rewrite lookup_insert_ne in Hz by done; eauto. }
    { apply (order_shift m _ 0); [intros; rewrite Ht; lia | done]. }
    change (q_sending_flow (with_flow f x1 m)) with (q_sending_flow m) in Hle.
    assert (forall y, queued (q_flows m) y -> queued (q_flows (with_flow f x1 m)) y) as Hqs.
    { intros y Hy; apply queued_insert; destruct (decide (y = f)) as [->|]; [left | right; done].
      destruct Hy as (z & Hz & Hqz); split; congruence. }
    exists (Z.max (f_time x) t); split.
    + split; [lia|]; split; [intros s Hs; rewrite Hs, Ht in Hle; lia|].
      intros y Hy; unfold at_output in Hat; destruct (q_sending_flow m) as [s|].
      * destruct Hat as (_ & _ & _ & _ & Hleast & _); specialize (Hleast y Hy); rewrite Ht in Hle; lia.
      * specialize (Hle y (Hqs y Hy)); rewrite Ht in Hle; lia.
    + pstep_by ltac:(exact Hc).
      pose proof (enqueued_mod m f (q_previous_flow m) (q_queued_tree m) x1
        (fun x => x <| f_time := bmax (f_time x) t |>)) as He.
      assert (bmax (f_time x1) t = Z.max (f_time x) t) as Hb.
      { rewrite Ht1; apply bmax_eq. }
      cbv beta in He; rewrite <- Hb; destruct m; exact He.
Qed.

Definition waiting (x : flow) (i : PPI.t) (t : Z) (d : list Z) : flow :=
  mk_flow (f_handler_busy x) i t true (Some d) (Zlen d).

Lemma enqueued_time m f prev tree x y :
  time_of (enqueued m f prev tree x) y = if decide (y = f) then f_time x else time_of m y.
Proof. apply (time_with_flow m f x y). Qed.

Lemma enqueued_core m f x prev tree i t d : core m -> q_flows m !! f = Some x -> f_is_queued x = false ->
  q_sending_flow m <> Some f -> prev = prev_after m f ->
  ot_elements tree ≡ₚ f :: ot_elements (q_queued_tree m) ->
  core (enqueued m f prev tree (waiting x i t d)).
Proof.
  intros (Hnd & Hfl & Hdc & Hnt & Hel & Hs & Hp) Hx Hq Hns -> Htree.
  assert (~ queued (q_flows m) f) as Hnq by (intros (z & Hz & Hqz); congruence).
  assert (forall y, queued (q_flows (enqueued m f (prev_after m f) tree (waiting x i t d))) y <->
    y = f \/ queued (q_flows m) y) as Hqs.
  { intros y; etransitivity; [apply queued_insert|]; cbn; destruct (decide (y = f)); naive_solver. }
  assert (forall y, is_Some (q_flows (enqueued m f (prev_after m f) tree (waiting x i t d)) !! y) <->
    is_Some (q_flows m !! y)) as Hdom.
  { intros y; cbn [enqueued q_flows]; destruct (decide (y = f)) as [->|];
      [rewrite lookup_insert_eq, Hx; split; eauto | rewrite lookup_insert_ne by done; done]. }
  split; [done|]; split; [intros y; rewrite Hdom; apply Hfl|]; split; [done|]; split; [|split; [|split]].
  - cbn [enqueued q_queued_tree]; rewrite Htree; apply list.NoDup_cons; split; [rewrite Hel; done | done].
  - intros y; rewrite Hqs; cbn [enqueued q_queued_tree]; rewrite Htree, elem_of_cons, Hel; done.
  - intros y Hy; rewrite Hdom, Hqs; destruct (Hs y Hy) as [? Hn]; split; [done|]; intros [->|?]; auto.
  - intros y Hy; rewrite Hdom, Hqs; cbn [enqueued q_previous_flow] in Hy; unfold prev_after, opt_is in Hy.
    destruct (decide (q_previous_flow m = Some f)) as [E|E];
      [rewrite bool_decide_eq_true_2 in Hy by done; discriminate|].
    rewrite bool_decide_eq_false_2 in Hy by done.
    destruct (Hp y Hy) as [? Hn]; split; [done|]; intros [->|?]; auto.
Qed.

(** The queue runs when it was idle. *)
Definition wake m : fqp unit := if is_null (q_sending_flow m) && negb (q_schedule_job m) then schedule else pskip.

Lemma asked_insert m f s prev tree x : asked m s -> s <> f -> asked (enqueued m f prev tree x) s.
Proof.
  intros Ha Hn Hj; destruct (Ha Hj) as (z & Hz & Hd); exists z; split; [|done].
  cbn [enqueued q_flows]; rewrite lookup_insert_ne; done.
Qed.

Lemma enqueued_inv m g f x h prev tree i t d : inv m g -> q_freeing m = false -> q_flows m !! f = Some x ->
  g_in g !! f = Some h -> f_is_queued x = false -> q_sending_flow m <> Some f -> prev = prev_after m f ->
  caught_up m f x t -> Zlen d <= PPI.mtu (q_output m) ->
  ot_elements tree ≡ₚ f :: ot_elements (q_queued_tree m) ->
  in_order (compare_flows (enqueued m f prev tree (waiting x i t d))) (ot_elements tree) ->
  PPI.inv i (PPI.count PPI.EOperation h) -> PPI.mtu i = PPI.mtu (f_input x) ->
  PPI.has_requestcancel i = PPI.has_requestcancel (f_input x) -> provider_busy (PPI.count PPI.EOperation h) ->
  exists m', wake m (enqueued m f prev tree (waiting x i t d)) = Ok (tt, m', []) /\
    inv m' (mk_ghost (resume m m' (g_out g)) (bump PPI.EOperation f (g_in g)) (g_off g) (g_sent g)) /\
    (forall y, time_of m' y = if decide (y = f) then t else time_of m y) /\ same_setup m m' /\
    f_data <$> q_flows m' !! f = Some (Some d).
Proof.
  intros [Hcore Hlive] Hfr Hx Hh Hq Hns Hprev (Ht1 & Ht2 & Ht3) Hd Htree Hord Hi Him Hirc Hb; specialize (Hlive Hfr).
  apply live_split in Hlive as [(Hu & Hpw & Hpwm & Hmtu & Huc & Hflows & _) Hat].
  destruct (Hflows f x Hx) as (h0 & Hh0 & _ & Hxm & Hxr & Htx & _ & Hbx); rewrite Hh in Hh0; injection Hh0 as <-.
  set (m2 := enqueued m f prev tree (waiting x i t d)) in *.
  set (hs := bump PPI.EOperation f (g_in g)).
  assert (core m2) as Hcore2 by (apply enqueued_core; done).
  assert (forall k, k = g_out g -> live0 m2 (mk_ghost k hs (g_off g) (g_sent g))) as Hl2.
  { intros k ->; split; [done|]; split; [done|]; split; [done|]; split; [done|]; split; [done|]; split; [|done].
    intros y z Hz; change (<[f := waiting x i t d]> (q_flows m) !! y = Some z) in Hz; cbn [g_in].
    destruct (decide (y = f)) as [->|Hn].
    - rewrite lookup_insert_eq in Hz; injection Hz as <-; exists (PPI.count PPI.EOperation h).
      split; [apply bump_eq; done|]; refine (conj Hi (conj (eq_trans Him Hxm) (conj (eq_trans Hirc Hxr) (conj _ (conj _ _))))).
      + cbn; lia.
      + intros _; exists d; done.
      + cbn; tauto.
    - rewrite lookup_insert_ne in Hz by done; destruct (Hflows y z Hz) as (hy & Hhy & Hok).
      exists hy; split; [unfold hs; rewrite bump_ne; done | exact Hok]. }
  assert (forall y, time_of m2 y = if decide (y = f) then t else time_of m y) as Htm by (apply enqueued_time).
  assert (f_data <$> q_flows m2 !! f = Some (Some d)) as Hdata2.
  { cbn [m2 enqueued q_flows]; rewrite lookup_insert_eq; done. }
  unfold wake; destruct (q_sending_flow m) as [s|] eqn:Es; cbn [is_null andb].
  - exists m2; split; [done|]; split; [|split; [exact Htm | split; [done | exact Hdata2]]]; split; [exact Hcore2|]; intros _; apply live_split.
    unfold resume; rewrite Es; cbn [is_null andb]; split; [apply Hl2; done|].
    unfold at_output in *; change (q_sending_flow m2) with (q_sending_flow m); rewrite Es in *.
    destruct Hat as (H1 & H2 & H3 & H4 & H5 & H6); split; [done|]; split; [|split; [done|]; split; [done|]; split].
    + cbn [m2 enqueued q_previous_flow]; rewrite Hprev; unfold prev_after; rewrite H2; destruct (opt_is _ _); done.
    + intros y Hy; rewrite !Htm; rewrite (decide_False (P := s = f)) by congruence.
      apply queued_insert in Hy as [[-> _]|[Hn Hy]]; [rewrite decide_True by done; auto|].
      rewrite decide_False by done; auto.
    + apply asked_insert; [exact H6 | intros ->; apply Hns; done].
  - destruct (q_schedule_job m) eqn:Ej; cbn [negb].
    + exists m2; split; [done|]; split; [|split; [exact Htm | split; [done | exact Hdata2]]]; split; [exact Hcore2|]; intros _; apply live_split.
      unfold resume; rewrite Es; change (q_sending_flow m2) with (q_sending_flow m); rewrite Es; cbn [is_null andb negb].
      split; [apply Hl2; done|]; unfold at_output in *; change (q_sending_flow m2) with (q_sending_flow m).
      change (q_schedule_job m2) with (q_schedule_job m); rewrite Es, Ej in *; split; [apply Hat | discriminate].
    + unfold at_output in Hat; rewrite Es in Hat; destruct Hat as [Hid Hempty]; destruct (Hempty Ej) as [Hp He].
      destruct (schedule_inv m2 (mk_ghost (g_out g) hs (g_off g) (g_sent g))) as (m' & Hs & [s Hs'] & Hinv & Ht' & Hset & Hdf);
        [done | apply Hl2; done | done | done | | done | done | |].
      { cbn [m2 enqueued q_previous_flow]; rewrite Hprev; unfold prev_after; rewrite Hp; destruct (opt_is _ _); done. }
      { cbn [m2 enqueued q_queued_tree]; intros E; rewrite E in Htree; apply Permutation_nil_cons in Htree; done. }
      exists m'; split; [done|]; split; [|split; [intros y; rewrite Ht'; apply Htm | split; [exact Hset | rewrite Hdf; exact Hdata2]]].
      unfold resume; rewrite Es, Hs'; done.
Qed.

Lemma in_operation m g f x h : inv m g -> q_freeing m = false -> q_flows m !! f = Some x ->
  g_in g !! f = Some h -> PPI.job_operation (f_input x) = true ->
  exists m' t, handle (In f PPI.EOperation) m = Ok (tt, m', []) /\
    inv m' (count (In f PPI.EOperation) m m' g) /\ caught_up m f x t /\ ~ queued (q_flows m) f /\
    (forall y, time_of m' y = if decide (y = f) then t else time_of m y) /\ same_setup m m' /\
    f_data <$> q_flows m' !! f = Some (PPI.job_operation_data (f_input x)).
Proof.
  intros [Hcore Hlive] Hfr Hx Hh Hjob; specialize (Hlive Hfr).
  pose proof (proj1 (live_split _ _) Hlive) as [(_ & _ & _ & _ & _ & Hflows & Hord) _].
  destruct (Hflows f x Hx) as (h0 & Hh0 & Hi & Hm & _ & _ & _ & Hb); rewrite Hh in Hh0; injection Hh0 as <-.
  destruct (PPI.inv_operation _ _ Hi Hjob) as (d & Hd & Hn & Hlen & Hrf & _).
  destruct (PPI.ppi_inv_step PPI.EOperation _ h Hi Hjob) as (i & Hop & Hi' & Hm' & Hrc').
  cbn [PPI.calls_of] in Hop; rewrite Hd, Hn in Hop; rewrite Hm in Hlen.
  assert (~ provider_busy h) as Hnb by (unfold provider_busy; lia).
  assert (f_is_queued x = false) as Hq by (destruct (f_is_queued x); [destruct Hnb; apply Hb; auto | done]).
  assert (q_sending_flow m <> Some f) as Hns by (intros Hs; apply Hnb, Hb; auto).
  assert (~ queued (q_flows m) f) as Hnq by (intros (z & Hz & Hqz); congruence).
  destruct (catch_up_eq m g f x (x <| f_input := i |>)) as (t & Hc & Hrun); [done..|].
  pose proof Hcore as (_ & _ & _ & _ & Hel & _).
  set (xt := (x <| f_input := i |> <| f_data := Some d |> <| f_data_len := Zlen d |>) <| f_time := t |>).
  set (m1 := enqueued m f (prev_after m f) (q_queued_tree m) xt).
  assert (forall y, y <> f -> time_of m1 y = time_of m y) as Ht1.
  { intros y Hy; unfold m1; rewrite enqueued_time, decide_False; done. }
  destruct (ot_insert_new (compare_flows m1) f (q_queued_tree m)) as (tree & Hins & Htree & Hord').
  { intros a b; apply compare_flows_three_way. }
  { apply compare_flows_order. }
  { apply (order_shift m _ 0); [|exact Hord]; intros y Hy; rewrite Ht1; [lia|]; intros ->; apply Hnq, Hel, Hy. }
  { intros y Hy Hc0; apply compare_flows_eq in Hc0 as <-; apply Hnq, Hel, Hy. }
  destruct (enqueued_inv m g f x h (prev_after m f) tree i t d) as (m' & Hw & Hinv & Ht' & Hset & Hdf); try done.
  { apply (order_shift m1 _ 0); [|exact Hord']; intros y _; unfold m1; rewrite !enqueued_time; change (f_time xt) with t; cbn; destruct (decide _); lia. }
  { unfold provider_busy; cbn; lia. }
  exists m', t; split; [|rewrite Hd; auto 10].
  unfold handle, on_input; rewrite Hx, Hop; cbn [foreach dispatch_in].
  assert (input_handler_send f (Some d) (Zlen d) (with_flow f (x <| f_input := i |>) m) = Ok (tt, m', [])) as Hsend.
  2: { etransitivity; [eapply pbind_ok; exact Hsend | done]. }
  unfold input_handler_send; pstep; pflow (lookup_insert_eq (q_flows m) f (x <| f_input := i |>)).
  pstep_by ltac:(apply passert_ok; unfold opt_is; rewrite bool_decide_eq_false_2; done).
  pstep_by ltac:(apply passert_ok; change (negb (f_is_queued x) = true); rewrite Hq; done).
  pstep_by ltac:(apply passert_ok; change (negb (q_freeing m) = true); rewrite Hfr; done).
  pstep_by ltac:(exact Hrun); pstep_by ltac:(apply enqueued_mod); pstep.
  match goal with |- (let '(_, _) := ?o in _) _ = _ => replace o with (tree, true) by (symmetry; exact Hins) end.
  pstep; pstep.
  pstep_by ltac:(exact (enqueued_mod m f (prev_after m f) tree xt (fun x => x <| f_is_queued := true |>))).
  exact Hw.
Qed.

(** ** The other events *)

Lemma resume_same m m' k : q_sending_flow m' = q_sending_flow m -> resume m m' k = k.
Proof. unfold resume; intros ->; destruct (is_null _); done. Qed.

Lemma in_other m g f x h e : inv m g -> q_freeing m = false -> q_flows m !! f = Some x ->
  g_in g !! f = Some h -> e = PPI.ECompleted \/ (exists d, e = PPI.ESend d) ->
  PPI.enabled e (f_input x) h ->
  exists m' calls, handle (In f e) m = Ok (tt, m', calls) /\ inv m' (count (In f e) m m' g) /\
    (forall y, time_of m' y = time_of m y) /\ same_setup m m'.
Proof.
  intros Hinv Hfr Hx Hh He Hen; pose proof Hinv as [_ Hlive]; specialize (Hlive Hfr).
  apply live_split in Hlive as [(_ & _ & _ & _ & _ & Hflows & _) _].
  destruct (Hflows f x Hx) as (h1 & Hh1 & Hi & _); rewrite Hh in Hh1; injection Hh1 as <-.
  destruct (PPI.ppi_inv_step e _ h Hi Hen) as (i & Hop & Hi' & Him & Hirc).
  set (m' := with_flow f (x <| f_input := i |>) m).
  assert (inv m' (count (In f e) m m' g)) as Hinv'.
  { cbn [count]; rewrite resume_same by done; eapply input_moved; try done.
    destruct He as [->|[d ->]]; done. }
  assert (forall y, time_of m' y = time_of m y) as Ht.
  { intros y; unfold m'; rewrite time_with_flow; destruct (decide (y = f)) as [->|]; [|done].
    rewrite (time_of_eq _ _ _ Hx); done. }
  destruct He as [->|[d ->]]; cbn [PPI.calls_of] in Hop.
  - exists m', [UserDone f]; split; [|done]; unfold handle, on_input; rewrite Hx, Hop; done.
  - exists m', []; split; [|done]; unfold handle; apply on_input_nil; done.
Qed.

(** The interface of the output moves on without completing anything. *)
Lemma output_moved m g u k : inv m g -> q_freeing m = false -> PPI.inv u k ->
  PPI.mtu u = PPI.mtu (q_output m) -> PPI.has_requestcancel u = PPI.has_requestcancel (q_output m) ->
  (PPI.job_operation u = true -> PPI.job_operation (q_output m) = true /\
     PPI.job_operation_data u = PPI.job_operation_data (q_output m) /\
     PPI.job_operation_len u = PPI.job_operation_len (q_output m)) ->
  h_started k = h_started (g_out g) -> h_completed k = h_completed (g_out g) ->
  inv (put_output u m) (mk_ghost k (g_in g) (g_off g) (g_sent g)).
Proof.
  intros [Hcore Hlive] Hfr Hu Hm Hrc Hop Hks Hkc; specialize (Hlive Hfr).
  split; [exact Hcore|]; intros _.
  destruct Hlive as (_ & Hpw & Hpwm & Hmtu & Huc & Hflows & Hord & Hat); split; [exact Hu|].
  change (q_output (put_output u m)) with u; cbn [g_out]; unfold user_idle in *; rewrite Hm, Hrc, Hks, Hkc.
  refine (conj Hpw (conj Hpwm (conj Hmtu (conj Huc (conj Hflows (conj Hord _)))))).
  change (q_sending_flow (put_output u m)) with (q_sending_flow m).
  destruct (q_sending_flow m) as [s|]; [|exact Hat]; destruct Hat as (H1 & H2 & H3 & H4 & H5 & H6).
  refine (conj H1 (conj H2 (conj H3 (conj H4 (conj H5 _))))); intros Hj; destruct (Hop Hj) as (Hj' & Hd & Hn).
  destruct (H6 Hj') as (x & Hx & Hxd & Hxn); exists x; split; [done|].
  split; [exact (eq_trans Hd Hxd) | exact (eq_trans Hn Hxn)].
Qed.

Lemma out_other m g e : inv m g -> q_freeing m = false -> PPI.enabled e (q_output m) (g_out g) ->
  (forall d, e <> PPI.ESend d) -> e <> PPI.ERequestCancel -> e <> PPI.ECompleted ->
  exists u calls, handle (Out e) m = Ok (tt, put_output u m, calls) /\
    inv (put_output u m) (count (Out e) m (put_output u m) g) /\ same_setup m (put_output u m).
Proof.
  intros Hinv Hfr Hen Hns Hnc Hnd; pose proof Hinv as [_ Hlive]; specialize (Hlive Hfr).
  destruct Hlive as (Hu & _); destruct (PPI.ppi_inv_step e _ _ Hu Hen) as (u & Hop & Hu' & Hum & Huh).
  exists u; destruct e; [edestruct Hns; done | done | | | | done]; cbn [PPI.calls_of] in Hop; eexists; split;
    [apply run_on_nil; exact Hop | | etransitivity; [apply run_on_one; exact Hop | reflexivity] |
     | etransitivity; [apply run_on_one; exact Hop | reflexivity] |];
    (split; [|split; [done | exact Hum]]; apply output_moved; try done; eapply PPI.ppi_op_kept; done).
Qed.

Lemma request_cancel m g f : inv m g -> enabled (RequestCancel f) m g ->
  exists u, handle (RequestCancel f) m = Ok (tt, put_output u m, []) /\
    inv (put_output u m) (count (RequestCancel f) m (put_output u m) g) /\ same_setup m (put_output u m).
Proof.
  intros Hinv (Hfr & Hs & Huse); pose proof Hinv as [_ Hlive]; specialize (Hlive Hfr).
  destruct Hlive as (Hu & _ & _ & _ & Huc & _ & _ & Hat); rewrite Hs in Hat; destruct Hat as (Hst & _ & Hj & _).
  destruct (PPI.ppi_inv_step PPI.ERequestCancel _ _ Hu) as (u & Hop & Hu' & Hum & Huh).
  { split; [unfold user_idle; lia | auto]. }
  exists u; split; [|split; [|split; [done | exact Hum]]].
  2: { apply output_moved; try done; eapply PPI.ppi_op_kept; done. }
  unfold handle, PacketPassFairQueueFlow_RequestCancel, opt_is; pstep; rewrite Hs, bool_decide_eq_true_2 by done; pstep.
  rewrite Huse; pstep; rewrite Hfr; pstep; rewrite Hj; pstep; apply run_on_nil; exact Hop.
Qed.

Lemma set_busy_handler m g f b : inv m g -> enabled (SetBusyHandler f b) m g ->
  exists m', handle (SetBusyHandler f b) m = Ok (tt, m', []) /\ inv m' g /\
    (forall y, time_of m' y = time_of m y) /\ same_setup m m'.
Proof.
  intros [Hcore Hlive] (Hfr & Hs); specialize (Hlive Hfr); pose proof Hcore as (_ & _ & _ & _ & _ & Hsf & _).
  destruct (Hsf f Hs) as [[x Hx] _]; exists (with_flow f (x <| f_handler_busy := b |>) m).
  apply live_split in Hlive as [Hl0 Hat]; pose proof Hl0 as (_ & _ & _ & _ & _ & Hflows & _).
  destruct (Hflows f x Hx) as (h & Hh & Hok); split; [|split; [|split; [|done]]].
  - unfold handle, PacketPassFairQueueFlow_SetBusyHandler, opt_is; pstep; rewrite Hs, bool_decide_eq_true_2 by done; pstep.
    rewrite Hfr; pstep; etransitivity; [apply mod_flow_eq; exact Hx | done].
  - split; [eapply core_with_flow; done|]; intros _; apply live_split; destruct g as [go gi gf gs]; split.
    + eapply (live0_with_flow m (mk_ghost go gi gf gs)); done.
    + eapply (at_output_with_flow m (mk_ghost go gi gf gs)); done.
  - intros y; rewrite time_with_flow; destruct (decide (y = f)) as [->|]; [|done].
    rewrite (time_of_eq _ _ _ Hx); done.
Qed.

Lemma schedule_event m g : inv m g -> enabled Schedule m g ->
  exists m', handle Schedule m = Ok (tt, m', []) /\ inv m' (count Schedule m m' g) /\
    (forall y, time_of m' y = time_of m y) /\ same_setup m m'.
Proof.
  intros [Hcore Hlive] (Hfr & Hj); specialize (Hlive Hfr); apply live_split in Hlive as [Hl0 Hat].
  unfold at_output in Hat; destruct (q_sending_flow m) as [s|] eqn:Es; [destruct Hat as (_ & _ & Hj' & _); congruence|].
  destruct Hat as [Hid _].
  set (m1 := m <| q_schedule_job := false |> <| q_previous_flow := None |>).
  assert (core m1) as Hcore1.
  { destruct Hcore as (? & ? & ? & ? & ? & ? & ?); do 6 (split; [done|]); discriminate. }
  assert (live0 m1 g) as Hl1 by exact Hl0.
  assert (handle Schedule m = (if is_null (ot_first (q_queued_tree m)) then pskip else schedule) m1) as Hrun.
  { unfold handle, schedule_job_handler; pstep; pstep.
    pstep_by ltac:(apply passert_ok; change (is_null (q_sending_flow m) = true); rewrite Es; done).
    pstep_by ltac:(apply passert_ok; change (negb (q_freeing m) = true); rewrite Hfr; done); pstep; done. }
  rewrite Hrun, ot_first_head; destruct (ot_elements (q_queued_tree m)) as [|f l] eqn:E; cbn [head is_null].
  - exists m1; split; [done|]; split; [|done]; cbn [count]; rewrite resume_same by done.
    split; [done|]; intros _; apply live_split; destruct g as [go gi gf gs]; split; [done|].
    unfold at_output; change (q_sending_flow m1) with (q_sending_flow m); rewrite Es; auto.
  - destruct (schedule_inv m1 g) as (m' & Hs & [s Hs'] & Hinv & Ht & Hset & _); try done.
    { change (ot_elements (q_queued_tree m) <> []); rewrite E; done. }
    exists m'; split; [done|]; split; [|done]; cbn [count]; unfold resume; rewrite Es, Hs'; done.
Qed.

Lemma prepare_free_inv m g : inv m g -> inv (m <| q_freeing := true |>) g.
Proof. intros [Hcore _]; split; [exact Hcore | discriminate]. Qed.

Definition added m (f : Z) (i : PPI.t) : queue T :=
  m <| q_flows ::= insert f (mk_flow false i 0 false None 0) |> <| q_flows_list ::= fun l => l ++ [f] |>
    <| q_d_ctr ::= Z.add 1 |>.

Lemma added_core m f i : core m -> q_flows m !! f = None -> core (added m f i).
Proof.
  intros (Hnd & Hfl & Hdc & Hnt & Hel & Hs & Hp) Hx; unfold added.
  assert (forall y, queued (q_flows (added m f i)) y <-> queued (q_flows m) y) as Hqs.
  { intros y; etransitivity; [apply queued_insert|]; cbn; split; [intros [[_ ?]|[_ ?]]; done|].
    intros Hy; right; split; [intros ->; destruct Hy as (? & Hy & _); congruence | done]. }
  assert (forall y, is_Some (q_flows m !! y) -> is_Some (q_flows (added m f i) !! y)) as Hdom.
  { intros y [z Hz]; change (is_Some (<[f := mk_flow false i 0 false None 0]> (q_flows m) !! y)).
    rewrite lookup_insert_ne by congruence; eauto. }
  split; [|split; [|split; [|split; [done|split; [|split]]]]].
  - change (NoDup (q_flows_list m ++ [f])); apply list.NoDup_app; split; [done|]; split; [|apply NoDup_singleton].
    intros y Hy ->%list_elem_of_singleton; apply Hfl in Hy as [z Hz]; congruence.
  - intros y; change (y ∈ q_flows_list m ++ [f] <-> is_Some (<[f := mk_flow false i 0 false None 0]> (q_flows m) !! y)).
    rewrite elem_of_app, list_elem_of_singleton, Hfl; destruct (decide (y = f)) as [->|];
      [rewrite lookup_insert_eq; split; eauto | rewrite lookup_insert_ne by done; naive_solver].
  - change (1 + q_d_ctr m = Zlen (q_flows_list m ++ [f])); rewrite Hdc, Zlen_app; cbn; unfold Zlen; cbn; lia.
  - intros y; rewrite Hqs; apply Hel.
  - intros y Hy; rewrite Hqs; destruct (Hs y Hy); auto.
  - intros y Hy; rewrite Hqs; destruct (Hp y Hy); auto.
Qed.

Lemma flow_init m g f i : inv m g -> enabled (FlowInit f i) m g ->
  exists m', handle (FlowInit f i) m = Ok (tt, m', []) /\ inv m' (count (FlowInit f i) m m' g) /\
    (forall y, y <> f -> time_of m' y = time_of m y) /\ same_setup m m'.
Proof.
  intros [Hcore Hlive] (Hfr & Hx); specialize (Hlive Hfr); apply live_split in Hlive as [Hl0 Hat].
  destruct Hl0 as (Hu & Hpw & Hpwm & Hmtu & Huc & Hflows & Hord).
  pose proof (PPI.ppi_Init_eq i _ Hmtu) as Hinit.
  set (i1 := PPI.mk (PPI.mtu (q_output m)) false false false (PPI.job_operation_data i) (PPI.job_operation_len i)
               false false ST_NONE (PPI.cancel_requested i)) in Hinit.
  set (i2 := i1 <| PPI.has_done := true |>).
  assert (PPI.Sender_Init i1 = Ok (tt, i2, [])) as Hsend by done.
  assert (handle (FlowInit f i) m = Ok (tt, added m f i2, [])) as Hrun.
  { unfold handle, PacketPassFairQueueFlow_Init; pstep_by ltac:(pstep; rewrite Hfr; pstep; rewrite Hinit; reflexivity).
    etransitivity; [apply on_input_nil; [apply lookup_insert_eq | exact Hsend]|].
    destruct m; apply (ok_flows (fun fs => mk_queue _ _ _ _ _ _ _ _ _ _ _ fs)); apply insert_insert_eq. }
  assert (forall y, time_of (added m f i2) y = if decide (y = f) then 0 else time_of m y) as Ht.
  { intros y; etransitivity; [apply (time_with_flow m f (mk_flow false i2 0 false None 0) y) | done]. }
  pose proof Hcore as (_ & _ & _ & _ & Hel & Hsf & _).
  exists (added m f i2); split; [exact Hrun|]; split; [|split; [|done]].
  2: { intros y Hy; rewrite Ht, decide_False; done. }
  assert (forall y, queued (q_flows m) y -> y <> f) as Hnq by (intros y (z & Hz & _) ->; congruence).
  split; [apply added_core; done|]; intros _; apply live_split; split.
  - split; [done|]; split; [done|]; split; [done|]; split; [done|]; split; [done|]; split.
    + intros y z Hz; change (<[f := mk_flow false i2 0 false None 0]> (q_flows m) !! y = Some z) in Hz.
      cbn [count g_in]; destruct (decide (y = f)) as [->|Hn].
      * rewrite lookup_insert_eq in Hz; injection Hz as <-; exists h0; split; [apply lookup_insert_eq|].
        split; [|split; [done|split; [done|split; [|split; [discriminate|]]]]].
        -- split; [done|]; split; [intros _ Hc; destruct Hc; done | done].
        -- cbn; unfold FAIRQUEUE_MAX_TIME; lia.
        -- unfold provider_busy; cbn; split; [lia|]; intros [|Hs]; [discriminate|].
           destruct (Hsf f Hs) as [[? ?] _]; congruence.
      * rewrite lookup_insert_ne in Hz by done; rewrite lookup_insert_ne by done; apply Hflows; done.
    + apply (order_shift m _ 0); [|exact Hord]; intros y Hy; rewrite Ht, decide_False; [lia|].
      apply Hnq, Hel; done.
  - unfold at_output in *; change (q_sending_flow (added m f i2)) with (q_sending_flow m).
    destruct (q_sending_flow m) as [s|]; [|exact Hat]; destruct Hat as (H1 & H2 & H3 & H4 & H5 & H6).
    assert (s <> f) as Hsf' by (intros ->; destruct (Hsf f eq_refl) as [[? ?] _]; congruence).
    split; [done|]; split; [done|]; split; [done|]; split; [done|]; split.
    2: { intros Hj; destruct (H6 Hj) as (z & Hz & Hzd); exists z; split; [|done].
         refine (eq_trans (lookup_insert_ne _ _ _ _ _) Hz); done. }
    intros y Hy.
    assert (queued (q_flows m) y) as Hy'.
    { apply queued_insert in Hy as [[_ Hy]|[_ Hy]]; [discriminate Hy | done]. }
    rewrite !Ht, !decide_False; [auto | auto | done].
Qed.

Definition freed m (f : Z) (tree : T) : queue T :=
  mk_queue (q_output m) (q_use_cancel m) (q_packet_weight m)
    (if opt_is (q_sending_flow m) f then None else q_sending_flow m) (q_sending_len m)
    (prev_after m f) tree (remove_node f (q_flows_list m)) (q_freeing m) (q_schedule_job m)
    (-1 + q_d_ctr m) (delete f (q_flows m)).

Lemma freed_queued m f tree y : queued (q_flows (freed m f tree)) y <-> y <> f /\ queued (q_flows m) y.
Proof.
  unfold queued; cbn [freed q_flows]; destruct (decide (y = f)) as [->|].
  - rewrite lookup_delete_eq; naive_solver.
  - rewrite lookup_delete_ne by done; naive_solver.
Qed.

Lemma opt_is_false p f : p <> Some f -> opt_is p f = false.
Proof. intros; apply bool_decide_eq_false_2; done. Qed.
Lemma opt_is_true f : opt_is (Some f) f = true.
Proof. apply bool_decide_eq_true_2; done. Qed.
Lemma opt_without p f y : (if opt_is p f then None else p) = Some y -> p = Some y /\ y <> f.
Proof.
  unfold opt_is; destruct (decide (p = Some f)) as [->|]; [rewrite bool_decide_eq_true_2 by done; discriminate|].
  rewrite bool_decide_eq_false_2 by done; naive_solver.
Qed.

Lemma freed_core m f tree : core m -> is_Some (q_flows m !! f) ->
  ot_elements tree = remove_node f (ot_elements (q_queued_tree m)) -> core (freed m f tree).
Proof.
  intros (Hnd & Hfl & Hdc & Hnt & Hel & Hs & Hp) Hx Htree.
  assert (forall y, is_Some (q_flows (freed m f tree) !! y) <-> y <> f /\ is_Some (q_flows m !! y)) as Hdom.
  { intros y; cbn [freed q_flows]; destruct (decide (y = f)) as [->|];
      [rewrite lookup_delete_eq; split; [intros [? [=]] | tauto] | rewrite lookup_delete_ne by done; tauto]. }
  split; [apply remove_node_NoDup; done|]; split; [|split; [|split; [|split; [|split]]]].
  - intros y; rewrite Hdom; cbn [freed q_flows_list]; rewrite remove_node_elem, Hfl; tauto.
  - cbn [freed q_d_ctr q_flows_list]; rewrite Hdc, (Zlen_remove_node f (q_flows_list m)); [lia | done | apply Hfl; done].
  - cbn [freed q_queued_tree]; rewrite Htree; apply remove_node_NoDup; done.
  - intros y; rewrite freed_queued; cbn [freed q_queued_tree]; rewrite Htree, remove_node_elem, Hel; tauto.
  - intros y [Hy Hn]%opt_without; rewrite Hdom, freed_queued; destruct (Hs y Hy); tauto.
  - intros y [Hy Hn]%opt_without; rewrite Hdom, freed_queued; destruct (Hp y Hy); tauto.
Qed.

Lemma freed_live m g f tree : live m g -> q_sending_flow m <> Some f ->
  ot_elements tree = remove_node f (ot_elements (q_queued_tree m)) ->
  (forall y, y ∈ ot_elements (q_queued_tree m) <-> queued (q_flows m) y) ->
  live (freed m f tree) (mk_ghost (g_out g) (delete f (g_in g)) (g_off g) (delete f (g_sent g))).
Proof.
  intros Hlive Hns Htree Hel; apply live_split in Hlive as [(Hu & Hpw & Hpwm & Hmtu & Huc & Hflows & Hord) Hat].
  assert (forall y, y <> f -> time_of (freed m f tree) y = time_of m y) as Ht.
  { intros y Hy; unfold time_of; cbn [freed q_flows]; rewrite lookup_delete_ne by done; done. }
  assert (q_sending_flow (freed m f tree) = q_sending_flow m) as Hs.
  { cbn [freed q_sending_flow]; rewrite opt_is_false; done. }
  apply live_split; split.
  - split; [done|]; split; [done|]; split; [done|]; split; [done|]; split; [done|]; split.
    + intros y z Hz; rewrite Hs; cbn [freed q_flows g_in] in *; destruct (decide (y = f)) as [->|Hn];
        [rewrite lookup_delete_eq in Hz; done|].
      rewrite lookup_delete_ne in Hz by done; rewrite lookup_delete_ne by done; apply Hflows; done.
    + cbn [freed q_queued_tree]; rewrite Htree; apply in_order_remove with (x := f) in Hord.
      apply (order_shift m _ 0); [|exact Hord]; intros y [_ Hy]%remove_node_elem; rewrite Ht; [lia | done].
  - unfold at_output in *; rewrite Hs; destruct (q_sending_flow m) as [s|].
    + destruct Hat as (H1 & H2 & H3 & H4 & H5 & H6); split; [done|].
      split; [cbn [freed q_previous_flow]; unfold prev_after; rewrite H2; destruct (opt_is _ _); done|].
      split; [done|]; split; [done|]; split.
      { intros y [Hn Hy]%freed_queued; rewrite !Ht by (congruence || done); auto. }
      intros Hj; destruct (H6 Hj) as (z & Hz & Hzd); exists z; split; [|done].
      cbn [freed q_flows]; rewrite lookup_delete_ne by congruence; done.
    + destruct Hat as [H1 H2]; split; [done|]; intros Hj; destruct (H2 Hj) as [H3 H4].
      cbn [freed q_previous_flow q_queued_tree]; rewrite Htree, H4; unfold prev_after; rewrite H3; destruct (opt_is _ _); done.
Qed.

Lemma flow_free m g f : inv m g -> enabled (FlowFree f) m g ->
  exists m', handle (FlowFree f) m = Ok (tt, m', []) /\ inv m' (count (FlowFree f) m m' g) /\
    q_flows m' = delete f (q_flows m) /\ same_setup m m'.
Proof.
  intros [Hcore Hlive] ([x Hx] & Hfs); pose proof Hcore as (Hnd & Hfl & Hdc & Hnt & Hel & _ & _).
  set (tree := if f_is_queued x then ot_remove f (q_queued_tree m) else q_queued_tree m).
  assert (ot_elements tree = remove_node f (ot_elements (q_queued_tree m))) as Htree.
  { unfold tree; destruct (f_is_queued x) eqn:Eq; [apply ot_remove_elements|].
    symmetry; apply remove_node_absent; rewrite Hel; intros (z & Hz & Hqz); congruence. }
  exists (freed m f tree); split; [|split; [|done]].
  - unfold handle, PacketPassFairQueueFlow_Free; pstep; pflow Hx.
    pstep_by ltac:(apply passert_ok; destruct Hfs as [->|Hns]; [done | rewrite opt_is_false by done; apply orb_true_r]).
    pstep_by ltac:(apply passert_ok; rewrite Hdc; pose proof (Zlen_remove_node f (q_flows_list m) Hnd
      (proj2 (Hfl f) (ex_intro _ x Hx))); pose proof (Zlen_nonneg (remove_node f (q_flows_list m))); lia).
    unfold freed, prev_after, tree; destruct m; cbn [q_sending_flow q_previous_flow q_queued_tree q_flows_list q_freeing
      q_schedule_job q_d_ctr q_flows q_output q_use_cancel q_packet_weight q_sending_len].
    destruct (opt_is q_sending_flow0 f), (opt_is q_previous_flow0 f), (f_is_queued x); done.
  - split; [apply freed_core; eauto|]; intros Hfr; change (q_freeing m = false) in Hfr.
    destruct Hfs as [Hc|Hns]; [congruence|]; apply freed_live; auto.
Qed.

(** ** Fairness *)

(** The time of a flow, counted from when the times were never lowered. *)
Definition virtual_time m g (f : Z) : Z := time_of m f + g_off g.
(** The most one packet adds to a flow's time. *)
Definition packet_cost m : Z := q_packet_weight m + PPI.mtu (q_output m).

Definition fairly m g m' g' : Prop := packet_cost m' = packet_cost m /\
  forall f, queued (q_flows m) f -> queued (q_flows m') f ->
    virtual_time m' g' f = virtual_time m g f /\
    forall x, is_Some (q_flows m !! x) -> is_Some (q_flows m' !! x) ->
      sent g' x - sent g x <= virtual_time m' g' x - virtual_time m g x /\
      virtual_time m' g' x <= Z.max (virtual_time m g x) (virtual_time m g f + packet_cost m).

Lemma fairly_same m g m' g' : same_setup m m' -> g_off g' = g_off g ->
  (forall y, is_Some (q_flows m !! y) -> is_Some (q_flows m' !! y) ->
     time_of m' y = time_of m y /\ sent g' y = sent g y) -> fairly m g m' g'.
Proof.
  intros [Hp Hm] Ho Hy; split; [unfold packet_cost; rewrite Hp, Hm; done|].
  intros f [a [Hf _]] [b [Hf' _]]; unfold virtual_time; rewrite Ho.
  destruct (Hy f) as [-> _]; [eauto..|]; split; [done|]; intros x Hx Hx'.
  destruct (Hy x Hx Hx') as [-> ->]; lia.
Qed.

Lemma fairly_caught_up m g f x t m' g' : same_setup m m' -> g_off g' = g_off g -> g_sent g' = g_sent g ->
  q_flows m !! f = Some x -> caught_up m f x t -> ~ queued (q_flows m) f ->
  0 <= packet_cost m ->
  (forall y, time_of m' y = if decide (y = f) then t else time_of m y) -> fairly m g m' g'.
Proof.
  intros [Hp Hm] Ho Hs Hx (Ht & _ & Hq) Hnq Hc Htm; split; [unfold packet_cost; rewrite Hp, Hm; done|].
  intros y Hy _; unfold virtual_time, sent; rewrite Ho, Hs, !Htm; rewrite decide_False by (intros ->; done).
  split; [done|]; intros z _ _; rewrite Htm; destruct (decide (z = f)) as [->|]; [|lia].
  specialize (Hq y Hy); rewrite (time_of_eq _ _ _ Hx); lia.
Qed.

Lemma fairly_sent m g f m' g' : same_setup m m' -> g_off g' = g_off g + lowered m f ->
  g_sent g' = <[f := sent g f + weight m]> (g_sent g) -> ~ queued (q_flows m) f -> 0 <= lowered m f ->
  0 <= q_sending_len m <= PPI.mtu (q_output m) -> 0 <= packet_cost m ->
  (forall y, queued (q_flows m) y -> lowered m f <= time_of m y /\ time_of m f <= time_of m y) ->
  (forall y, is_Some (q_flows m !! y) -> time_of m' y =
     if decide (y = f) then time_of m y + weight m - lowered m f else Z.max 0 (time_of m y - lowered m f)) ->
  fairly m g m' g'.
Proof.
  intros [Hp Hm] Ho Hs Hnq Hl Hlen Hc Hq Ht; split; [unfold packet_cost; rewrite Hp, Hm; done|].
  intros y Hy _; destruct (Hq y Hy) as [Hly Hfy]; pose proof Hy as (z & Hz & _).
  unfold virtual_time; rewrite Ho, (Ht y) by eauto; rewrite decide_False by (intros ->; done).
  split; [lia|]; intros x Hx _; rewrite (Ht x Hx); unfold sent at 1; rewrite Hs.
  destruct (decide (x = f)) as [->|Hn].
  - rewrite lookup_insert_eq; cbn [default from_option]; unfold packet_cost, weight, id; lia.
  - rewrite lookup_insert_ne by done; fold (sent g x); lia.
Qed.

Lemma live_cost m g : live m g -> 0 <= packet_cost m.
Proof. intros (_ & ? & _ & ? & _); unfold packet_cost; lia. Qed.

Lemma fq_inv_step e m g : inv m g -> enabled e m g ->
  exists m' calls, handle e m = Ok (tt, m', calls) /\ inv m' (count e m m' g) /\ fairly m g m' (count e m m' g).
Proof.
  intros Hinv Hen; destruct e as [f e|e| |f i|f| |f|f b].
  - destruct Hen as (Hfr & Hnd & x & h & Hx & Hh & He); pose proof Hinv as [_ Hlive]; specialize (Hlive Hfr).
    pose proof (live_cost _ _ Hlive) as Hcost; destruct Hlive as (_ & _ & _ & _ & _ & Hflows & _).
    destruct (Hflows f x Hx) as (h1 & Hh1 & Hi & _ & Hrc & _); rewrite Hh in Hh1; injection Hh1 as <-.
    destruct e as [d| | | | |]; [| destruct He; congruence | done | | | ].
    + destruct (in_other m g f x h (PPI.ESend d)) as (m' & calls & Hm & Hi' & Ht & Hset); eauto.
      exists m', calls; split; [done|]; split; [done|]; apply fairly_same; auto.
    + destruct (in_operation m g f x h) as (m' & t & Hm & Hi' & Hc & Hnq & Ht & Hset & _); [done..|].
      exists m', []; split; [done|]; split; [done|]; eapply fairly_caught_up; done.
    + destruct (PPI.inv_cancel _ _ Hi He); congruence.
    + destruct (in_other m g f x h PPI.ECompleted) as (m' & calls & Hm & Hi' & Ht & Hset); eauto.
      exists m', calls; split; [done|]; split; [done|]; apply fairly_same; auto.
  - destruct Hen as (Hfr & He & Hns & Hnc); pose proof Hinv as [[_ (_ & _ & _ & _ & Hsf & _)] Hlive]; specialize (Hlive Hfr).
    pose proof (live_cost _ _ Hlive) as Hcost; assert (e = PPI.ECompleted \/ e <> PPI.ECompleted) as [->|Hne] by (destruct e; auto).
    + destruct (out_completed m g Hinv Hfr He) as (f & m' & calls & Hs & Hm & Hi' & _ & Hw & Hmt & _ & Hlo & Hlen & Hq & Ht).
      exists m', calls; split; [done|]; split; [done|]; cbn [count]; rewrite Hs.
      apply (fairly_sent m g f); try done; apply Hsf; done.
    + destruct (out_other m g e Hinv Hfr He Hns Hnc Hne) as (u & calls & Hm & Hi' & Hset).
      exists (put_output u m), calls; split; [done|]; split; [done|].
      apply fairly_same; [done | destruct e; done | intros; destruct e; done].
  - destruct (schedule_event m g Hinv Hen) as (m' & Hm & Hi' & Ht & Hset).
    exists m', []; split; [done|]; split; [done|]; apply fairly_same; auto.
  - destruct (flow_init m g f i Hinv Hen) as (m' & Hm & Hi' & Ht & Hset); destruct Hen as [_ Hx].
    exists m', []; split; [done|]; split; [done|]; apply fairly_same; [done | done|]; intros y [z Hz] _.
    split; [apply Ht; congruence|]; unfold sent; cbn [count g_sent]; rewrite lookup_insert_ne by congruence; done.
  - destruct (flow_free m g f Hinv Hen) as (m' & Hm & Hi' & Hfl & Hset).
    exists m', []; split; [done|]; split; [done|]; apply fairly_same; [done | done|]; intros y _ [z Hz].
    unfold time_of, sent; cbn [count g_sent]; rewrite Hfl in *; destruct (decide (y = f)) as [->|];
      [rewrite lookup_delete_eq in Hz; done | rewrite !lookup_delete_ne by done; done].
  - exists (m <| q_freeing := true |>), []; split; [done|]; split; [apply prepare_free_inv; done|].
    apply fairly_same; done.
  - destruct (request_cancel m g f Hinv Hen) as (u & Hm & Hi' & Hset).
    exists (put_output u m), []; split; [done|]; split; [done|]; apply fairly_same; done.
  - destruct (set_busy_handler m g f b Hinv Hen) as (m' & Hm & Hi' & Ht & Hset).
    exists m', []; split; [done|]; split; [done|]; apply fairly_same; auto.
Qed.

(** ** The theorems *)

(** The memory before [PacketPassFairQueue_Init]: an output without a user, and no flows. *)
Definition unused m : Prop := PPI.fresh (q_output m) /\ q_flows m = ∅.

Lemma fq_init_inv m0 uc pw m1 : unused m0 -> PacketPassFairQueue_Init uc pw m0 = Ok (true, m1, []) ->
  inv m1 g_init /\ packet_cost m1 = pw + PPI.mtu (q_output m0).
Proof.
  intros [Hf Hfl]; unfold PacketPassFairQueue_Init; prog_simpl.
  destruct (0 <? pw) eqn:Hpw; [|discriminate].
  destruct (negb uc || PPI.has_requestcancel (q_output m0)) eqn:Huc; [|discriminate].
  destruct (PPI.fresh_user _ Hf) as (u & Hu & Hui & Hum & _ & Hurc); pose proof (proj1 Hf) as Hmtu.
  change (q_output (m0 <| q_use_cancel := uc |> <| q_packet_weight := pw |>)) with (q_output m0).
  destruct ((PPI.mtu (q_output m0) <=? FAIRQUEUE_MAX_TIME) && (pw <=? FAIRQUEUE_MAX_TIME - PPI.mtu (q_output m0))) eqn:Hmax;
    cbn [negb]; [|discriminate].
  set (m2 := m0 <| q_use_cancel := uc |> <| q_packet_weight := pw |>).
  assert (on_output PPI.Sender_Init m2 = Ok (tt, put_output u m2, [])) as Hon by (apply run_on_nil; exact Hu).
  rewrite Hon; intros [= <-]; apply andb_prop in Hmax as [_ Hmax].
  split; [|change (pw + PPI.mtu u = pw + PPI.mtu (q_output m0)); rewrite Hum; done].
  assert (forall cmp, in_order cmp (ot_elements (ot_empty : T))) as Hsorted.
  { intros; rewrite ot_empty_elements; constructor. }
  split; [|intros _].
  - split; [constructor|]; split; [|split; [done|]; split; [|split; [|split; discriminate]]].
    + intros f; change (f ∈ [] <-> is_Some (q_flows m0 !! f)); rewrite Hfl, lookup_empty.
      split; [intros Hc; inversion Hc | intros [? [=]]].
    + change (NoDup (ot_elements (ot_empty : T))); rewrite ot_empty_elements; constructor.
    + intros f; change (f ∈ ot_elements (ot_empty : T) <-> queued (q_flows m0) f).
      rewrite ot_empty_elements, Hfl; split; [intros Hc; inversion Hc | intros (? & Hc & _); rewrite lookup_empty in Hc; done].
  - split; [exact Hui|]; split; [change (0 < pw); lia|].
    split; [change (pw + PPI.mtu u <= FAIRQUEUE_MAX_TIME); rewrite Hum; lia|].
    split; [change (0 <= PPI.mtu u); rewrite Hum; lia|]; split.
    { change (uc = true -> PPI.has_requestcancel u = true); intros ->; rewrite Hurc; exact Huc. }
    split; [|split].
    + intros f x Hx; change (q_flows m0 !! f = Some x) in Hx; rewrite Hfl, lookup_empty in Hx; done.
    + apply Hsorted.
    + split; [done|]; intros _; split; [done|]; apply ot_empty_elements.
Qed.

Lemma fq_inv_reachable m g m' g' : inv m g -> star step (m, g) (m', g') -> inv m' g'.
Proof.
  intros Hinv Hs.
  refine (star_invariant step (fun p => inv (fst p) (snd p)) _ (m, g) (m', g') Hs Hinv).
  intros [a ga] [b gb] Ha Hab; inversion Hab; subst; cbn in *.
  destruct (fq_inv_step e a ga Ha) as (b' & ks & Hb & Hinv' & _); [done|].
  assert (b = b') as -> by congruence; done.
Qed.


(** While [f] waits and [x] exists. *)
Definition waits (f x : Z) (p : queue T * ghost) : Prop :=
  queued (q_flows (fst p)) f /\ is_Some (q_flows (fst p) !! x).
Definition step_while (P : queue T * ghost -> Prop) (a b : queue T * ghost) : Prop := step a b /\ P a /\ P b.


Lemma fairly_star m g m' g' f x : inv m g -> star (step_while (waits f x)) (m, g) (m', g') ->
  (m', g') = (m, g) \/
  inv m' g' /\ packet_cost m' = packet_cost m /\ virtual_time m' g' f = virtual_time m g f /\
  sent g' x - sent g x <= virtual_time m' g' x - virtual_time m g x /\
  virtual_time m' g' x <= Z.max (virtual_time m g x) (virtual_time m g f + packet_cost m).
Proof.
  intros Hinv Hs; remember (m, g) as a eqn:Ha; remember (m', g') as b eqn:Hb; revert m' g' Hb.
  induction Hs as [a|a b c Hs IH Hstep]; intros m' g' Hb; [left; congruence | right; subst].
  destruct b as [m1 g1]; destruct Hstep as (Hst & [Hf1 Hx1] & [Hf2 Hx2]); cbn [fst] in *.
  inversion Hst as [e ? ? ? calls Hen Hh]; subst.
  destruct (IH eq_refl m1 g1 eq_refl) as [[= <- <-]|(Hi1 & Hc1 & Hv1 & Hs1 & Hb1)].
  - destruct (fq_inv_step e m1 g1 Hinv Hen) as (m2 & ks & Hm & Hi2 & Hc & Hfair).
    assert (m2 = m') as -> by congruence; destruct (Hfair f Hf1 Hf2) as [Hv Hx]; destruct (Hx x Hx1 Hx2); auto.
  - destruct (fq_inv_step e m1 g1 Hi1 Hen) as (m2 & ks & Hm & Hi2 & Hc & Hfair).
    assert (m2 = m') as -> by congruence; destruct (Hfair f Hf1 Hf2) as [Hv Hx]; destruct (Hx x Hx1 Hx2).
    split; [done|]; split; [lia|]; split; [lia|]; split; lia.
Qed.

Lemma fairly_cost m g m' g' : inv m g -> star step (m, g) (m', g') -> packet_cost m' = packet_cost m.
Proof.
  intros Hinv Hs.
  refine (proj2 (star_invariant step (fun p => inv (fst p) (snd p) /\ packet_cost (fst p) = packet_cost m) _
    (m, g) (m', g') Hs (conj Hinv eq_refl))).
  intros [a ga] [b gb] [Ha Hc] Hab; inversion Hab as [e ? ? ? calls Hen Hh]; subst; cbn in *.
  destruct (fq_inv_step e a ga Ha Hen) as (b' & ks & Hb & Hinv' & Hc' & _).
  assert (b' = b) as -> by congruence; split; [done | lia].
Qed.

(** C17: A flow [x] that has sent less than [f] may catch up with it, but as long as [f] waits it gets
    no further than one packet ahead: what all its packets weigh together is bounded by how far
    it was behind and the cost of one packet. *)
Theorem PacketPassFairQueue_fair m0 uc pw m1 m g m' g' f x : unused m0 ->
  PacketPassFairQueue_Init uc pw m0 = Ok (true, m1, []) -> star step (m1, g_init) (m, g) ->
  star (step_while (waits f x)) (m, g) (m', g') ->
  sent g' x - sent g x <=
    Z.max 0 (time_of m f - time_of m x + pw + PPI.mtu (q_output m0)).
Proof.
  intros Hm0 Hinit Hs Hw; destruct (fq_init_inv _ _ _ _ Hm0 Hinit) as [Hi Hcost].
  pose proof (fq_inv_reachable _ _ _ _ Hi Hs) as Hinv; pose proof (fairly_cost _ _ _ _ Hi Hs) as Hc.
  destruct (fairly_star _ _ _ _ _ _ Hinv Hw) as [[= -> ->]|(_ & _ & _ & Hsent & Hb)]; [lia|].
  unfold virtual_time in *; lia.
Qed.
End proofs.

(** ** A run: flow 1 sends, and flow 2 waits behind it *)

Section example.
Let Q := queue (list Z).

Definition example_start : Q :=
  mk_queue (PPI.mk 1500 false false false None 0 false false ST_NONE false) false 1 None 0 None [] [] false false 0 ∅.
Definition example_init : Q :=
  match PacketPassFairQueue_Init false 40 example_start with Ok (_, m, _) => m | Err _ => example_start end.
Definition after (p : Q * ghost) (e : event) : Q * ghost :=
  match handle e (fst p) with
  | Ok (_, m, _) => (m, count e (fst p) m (snd p))
  | Err _ => p
  end.
Definition example_run (es : list event) : Q * ghost := fold_left after es (example_init, g_init).
Definition i0 : PPI.t := PPI.mk 0 false false false None 0 false false ST_NONE false.
Definition waiting_run : list event :=
  [FlowInit 1 i0; FlowInit 2 i0; In 1 (PPI.ESend [7; 8]); In 1 PPI.EOperation; In 2 (PPI.ESend [9]);
   In 2 PPI.EOperation].
Definition sending_run : list event := [Out PPI.EOperation; Out PPI.EDone; Out PPI.ECompleted].

Lemma step_after p e : enabled e (fst p) (snd p) ->
  match handle e (fst p) with Ok _ => true | Err _ => false end = true -> step p (after p e).
Proof.
  destruct p as [m g]; unfold after; cbn [fst snd]; intros He Hh.
  destruct (handle e m) as [[[[] m'] calls]|] eqn:E; [apply (step_intro e m g m' calls He E) | done].
Qed.

Ltac enabled_now :=
  lazymatch goal with
  | |- enabled (In _ _) _ _ => split; [reflexivity|]; split; [discriminate|]; eexists _, _;
      split; [vm_compute; reflexivity|]; split; [vm_compute; reflexivity|]; vm_compute; repeat split; discriminate
  | |- enabled (Out _) _ _ => split; [reflexivity|]; split; [vm_compute; reflexivity|]; split; intros; discriminate
  | |- enabled (FlowInit _ _) _ _ => split; vm_compute; reflexivity
  end.

Lemma waiting_run_steps : star step (example_init, g_init) (example_run waiting_run).
Proof.
  unfold example_run, waiting_run; cbn [fold_left].
  repeat (eapply star_step; [|apply step_after; [enabled_now | vm_compute; reflexivity]]); apply star_refl.
Qed.

Lemma sending_run_steps : star (step_while (waits 2 1)) (example_run waiting_run) (example_run (waiting_run ++ sending_run)).
Proof.
  unfold example_run; rewrite fold_left_app; set (p := fold_left after waiting_run (example_init, g_init)).
  unfold sending_run; cbn [fold_left].
  repeat (eapply star_step; [|split; [apply step_after; [enabled_now | vm_compute; reflexivity] |
    split; (split; [eexists; split; vm_compute; reflexivity | eexists; vm_compute; reflexivity])]]); apply star_refl.
Qed.

Lemma example_unused : unused example_start.
Proof. split; [vm_compute; repeat split; discriminate | reflexivity]. Qed.


Lemma PacketPassFairQueue_fair_witness :
  sent (snd (example_run (waiting_run ++ sending_run))) 1 - sent (snd (example_run waiting_run)) 1 = 42 /\ 42 <= 1540.
Proof.
  split; [vm_compute; reflexivity|].
  change 42 with (sent (snd (example_run (waiting_run ++ sending_run))) 1 - sent (snd (example_run waiting_run)) 1) at 1.
  pose proof (PacketPassFairQueue_fair example_start false 40 example_init (fst (example_run waiting_run))
    (snd (example_run waiting_run)) (fst (example_run (waiting_run ++ sending_run)))
    (snd (example_run (waiting_run ++ sending_run))) 2 1) as Hf.
  etransitivity; [apply Hf | vm_compute; discriminate].
  - exact example_unused.
  - vm_compute; reflexivity.
  - rewrite <- surjective_pairing; exact waiting_run_steps.
  - rewrite <- !surjective_pairing; exact sending_run_steps.
Defined.
End example.
