(* ===== verification/UdpGwClient.v ===== *)
(** udpgw_client/UdpGwClient.c: UDP flows multiplexed over one connection to a udpgw server. Each
    pair of addresses has a connection with an identifier and a flow of encoded packets into the
    send queue; when all identifiers are taken the connection used least recently is given away.
    The client is modelled with the flows of its connections; what it asks of the send queue, the
    connector and the server's side are calls. *)

From S2P Require Import Prelude IntCodec MiscArith Addr FlowIface PacketProto PacketProtoFlow OrderedTree BAVLRefines.

(** Android.mk defines it. *)
Definition PSIPHON : bool := true.

Definition UDPGW_CLIENT_FLAG_KEEPALIVE : Z := Z.shiftl 1 0.
Definition UDPGW_CLIENT_FLAG_REBIND : Z := Z.shiftl 1 1.
Definition UDPGW_CLIENT_FLAG_DNS : Z := Z.shiftl 1 2.
Definition UDPGW_CLIENT_FLAG_IPV6 : Z := Z.shiftl 1 3.

Definition uint16_comparator (v1 v2 : Z) : Z := B_COMPARE v1 v2.
(** Local and remote address. *)
Definition conaddr : Type := BAddr * BAddr.
Definition conaddr_comparator (v1 v2 : conaddr) : Z :=
  let r := BAddr_CompareOrder v1.2 v2.2 in
  if negb (r =? 0) then r else BAddr_CompareOrder v1.1 v2.1.

Section client.
Context `{Arch} {T : Type} `{OrdTree T}.

(** The queue flow of a connection is known by its input, which is the flow's output. *)
Record connection := mk_con {
  c_conaddr : conaddr; c_first_flags : Z; c_first_data : list Z; c_first_data_len : Z;
  c_conid : Z; c_first_job : bool; c_send_ppflow : PPF.t }.
#[export] Instance connection_eta : Eta connection := fun c =>
  mk_con (c_conaddr c) (c_first_flags c) (c_first_data c) (c_first_data_len c) (c_conid c)
    (c_first_job c) (c_send_ppflow c).

(** [connections] is the memory the connections live in. *)
Record client := mk_client {
  udp_mtu : Z; max_connections : Z; send_buffer_size : Z; keepalive_time : Z; udpgw_mtu : Z; pp_mtu : Z;
  tree_by_conaddr : T; tree_by_conid : T; connections_list : list Z; num_connections : Z; next_conid : Z;
  keepalive_packet : list Z; keepalive_if : PPI.t; keepalive_sending : bool; have_server : bool;
  recv_if : PPI.t; connections : gmap Z connection }.
#[export] Instance client_eta : Eta client := fun o =>
  mk_client (udp_mtu o) (max_connections o) (send_buffer_size o) (keepalive_time o) (udpgw_mtu o)
    (pp_mtu o) (tree_by_conaddr o) (tree_by_conid o) (connections_list o) (num_connections o)
    (next_conid o) (keepalive_packet o) (keepalive_if o) (keepalive_sending o) (have_server o)
    (recv_if o) (connections o).

Inductive gw_call :=
| HandlerServerError | DecoderOutputDone
| HandlerReceived (local_addr remote_addr : BAddr) (data : list Z)
| FlowCall (c : Z) (k : PPF.call)
| QueueFlowInit (c : Z) | QueueFlowAssertFree (c : Z) | QueueFlowFree (c : Z)
| ConnectorInit (mtu : Z) | MonitorInit (time : Z) | QueueInit (packet_weight : Z)
| ConnectorConnectOutput | ConnectorDisconnectOutput | SenderInit (mtu : Z) | SenderFree
| DecoderFree | QueuePrepareFree | KeepaliveFlowInit | KeepaliveFlowFree
| QueueFree | MonitorFree | ConnectorFree.
Definition gwp := prog client gw_call.

Definition get_con (c : Z) : gwp connection := fun o =>
  match connections o !! c with Some x => Ok (x, o, []) | None => Err OutOfBounds end.
Definition mod_con (c : Z) (f : connection -> connection) : gwp unit :=
  x ← get_con c;
  pmod (fun o => o <| connections ::= insert c (f x) |>).
(** Runs a function of the flow of connection [c]. *)
Definition on_flow {A} (c : Z) (p : PPF.fp A) : gwp A := fun o =>
  match connections o !! c with
  | None => Err OutOfBounds
  | Some x =>
    match p (c_send_ppflow x) with
    | Ok (a, f, ks) => Ok (a, o <| connections ::= insert c (x <| c_send_ppflow := f |>) |>, map (FlowCall c) ks)
    | Err e => Err e
    end
  end.
Definition put_recv_if (i : PPI.t) (o : client) : client := o <| recv_if := i |>.
Definition put_keepalive_if (i : PPI.t) (o : client) : client := o <| keepalive_if := i |>.
Definition on_recv_if (p : PPI.pp unit) : gwp unit := run_on recv_if put_recv_if p (fun _ => passert false).
Definition on_keepalive_if (p : PPI.pp unit) : gwp unit :=
  run_on keepalive_if put_keepalive_if p (fun _ => passert false).

(** ** Connections *)

Definition conaddr_of (o : client) (c : Z) : conaddr :=
  match connections o !! c with Some x => c_conaddr x | None => (BADDR_NONE, BADDR_NONE) end.
Definition conid_of (o : client) (c : Z) : Z :=
  match connections o !! c with Some x => c_conid x | None => 0 end.
Definition compare_conaddrs (o : client) (a b : Z) : Z := conaddr_comparator (conaddr_of o a) (conaddr_of o b).
Definition compare_conids (o : client) (a b : Z) : Z := uint16_comparator (conid_of o a) (conid_of o b).

Definition find_connection_by_conaddr (a : conaddr) : gwp (option Z) :=
  pread (fun o => ot_lookup (fun c => conaddr_comparator a (conaddr_of o c)) (tree_by_conaddr o)).
Definition find_connection_by_conid (conid : Z) : gwp (option Z) :=
  pread (fun o => ot_lookup (fun c => uint16_comparator conid (conid_of o c)) (tree_by_conid o)).
Definition is_null (p : option Z) : bool := match p with None => true | Some _ => false end.

Fixpoint find_unused_conid_loop (fuel : nat) : gwp Z :=
  match fuel with
  | O => fun _ => Err FuelExhausted
  | S fuel =>
    o ← pget;
    c ← find_connection_by_conid (wrap 16 (next_conid o));
    if is_null c then mret (wrap 16 (next_conid o)) else
    pmod (fun o => o <| next_conid := if next_conid o =? max_connections o - 1 then 0 else next_conid o + 1 |>);;
    find_unused_conid_loop fuel
  end.
Definition find_unused_conid : gwp Z :=
  o ← pget;
  passert (num_connections o <? max_connections o);;
  find_unused_conid_loop (S (Z.to_nat (max_connections o))).

Definition insert_by_conaddr (c : Z) : gwp bool := fun o =>
  let '(t, r) := ot_insert (compare_conaddrs o) c (tree_by_conaddr o) in
  Ok (r, o <| tree_by_conaddr := t |>, []).
Definition insert_by_conid (c : Z) : gwp bool := fun o =>
  let '(t, r) := ot_insert (compare_conids o) c (tree_by_conid o) in
  Ok (r, o <| tree_by_conid := t |>, []).

(** [connection_send], writing to the flow's buffer. *)
Definition udpgw_header_bytes (flags conid : Z) : list Z := host_bytes 1 (ltoh8 flags) ++ host_bytes 2 (ltoh16 conid).
Definition write_at (d : Z) (p : list Z) : PPF.fp unit :=
  f ← pget;
  m ← plift (mem_write (PPF.memory f) d p);
  pmod (fun f => PPF.put_buf (PPF.put_memory m (PPF.buffer f)) f).
Definition write_message (a : conaddr) (conid flags : Z) (data : list Z) (data_len : Z) : PPF.fp unit :=
  out ← PPF.on_writer BufferWriter.BufferWriter_StartPacket;
  match out with
  | None => pskip
  | Some out =>
    let flags := if baddr_type a.2 =? BADDR_TYPE_IPV6 then Z.lor flags UDPGW_CLIENT_FLAG_IPV6 else flags in
    write_at out (udpgw_header_bytes flags conid);;
    let out_pos := sizeof_udpgw_header in
    out_pos ← match a.2 with
      | BADDR_IPV4 ip port =>
          write_at (out + out_pos) (host_bytes 4 ip ++ host_bytes 2 port);;
          mret (out_pos + sizeof_udpgw_addr_ipv4)
      | BADDR_IPV6 ip port =>
          write_at (out + out_pos) (ztake 16 ip ++ host_bytes 2 port);;
          mret (out_pos + sizeof_udpgw_addr_ipv6)
      | _ => mret out_pos
      end;
    d ← plift (mem_read data 0 data_len);
    write_at (out + out_pos) d;;
    PPF.on_writer (BufferWriter.BufferWriter_EndPacket (out_pos + data_len))
  end.
Definition connection_send (c flags : Z) (data : list Z) (data_len : Z) : gwp unit :=
  x ← get_con c;
  o ← pget;
  passert (0 <=? data_len);;
  passert (data_len <=? udp_mtu o);;
  on_flow c (write_message (c_conaddr x) (c_conid x) flags data data_len).

(** The queue of jobs clears the job before it calls the handler. *)
Definition connection_first_job_handler (c : Z) : gwp unit :=
  mod_con c (fun x => x <| c_first_job := false |>);;
  x ← get_con c;
  connection_send c (Z.lor UDPGW_CLIENT_FLAG_REBIND (c_first_flags x)) (c_first_data x) (c_first_data_len x).

(** [new] is the address [malloc] returns, [flow] what is in the memory there, and [mem] the
    memory the flow's buffer is given. *)
Definition connection_init (new : option Z) (flow : PPF.t) (mem : option (list Z))
  (a : conaddr) (flags : Z) (data : list Z) (data_len : Z) : gwp unit :=
  o ← pget;
  passert (num_connections o <? max_connections o);;
  c ← find_connection_by_conaddr a;
  passert (is_null c);;
  passert (0 <=? data_len);;
  passert (data_len <=? udp_mtu o);;
  match new with
  | None => pskip
  | Some c =>
    conid ← find_unused_conid;
    pcall (QueueFlowInit c);;
    match PPI.Init (pp_mtu o) (PPF.output flow) with
    | Err e => fun _ => Err e
    | Ok (_, i, _) =>
      pmod (fun o => o <| connections ::= insert c (mk_con a flags data data_len conid true (PPF.put_out i flow)) |>);;
      r ← on_flow c (PPF.PacketProtoFlow_Init (udpgw_mtu o) (send_buffer_size o) (fun _ => mem));
      if negb r then pcall (QueueFlowFree c);; pmod (fun o => o <| connections ::= delete c |>) else
      r ← insert_by_conaddr c;
      passert r;;
      r ← insert_by_conid c;
      passert r;;
      pmod (fun o => o <| connections_list ::= fun l => l ++ [c] |> <| num_connections ::= Z.add 1 |>)
    end
  end.

Definition connection_free (c : Z) : gwp unit :=
  pcall (QueueFlowAssertFree c);;
  pmod (fun o => o <| num_connections ::= Z.add (-1) |>);;
  pmod (fun o => o <| connections_list ::= remove_node c |> <| tree_by_conid ::= ot_remove c |>
                   <| tree_by_conaddr ::= ot_remove c |>);;
  pcall (QueueFlowFree c);;
  pmod (fun o => o <| connections ::= delete c |>).

Definition reuse_connection (a : conaddr) : gwp Z :=
  c ← find_connection_by_conaddr a;
  passert (is_null c);;
  o ← pget;
  passert (0 <? num_connections o);;
  match head (connections_list o) with
  | None => fun _ => Err OutOfBounds
  | Some c =>
    pmod (fun o => o <| tree_by_conaddr ::= ot_remove c |>);;
    mod_con c (fun x => x <| c_conaddr := a |>);;
    r ← insert_by_conaddr c;
    passert r;;
    mret c
  end.
(** ** The server's side *)

Definition free_server : gwp unit :=
  pcall ConnectorDisconnectOutput;; pcall SenderFree;; pcall DecoderFree.
Definition decoder_handler_error : gwp unit :=
  o ← pget; passert (have_server o);; pcall HandlerServerError.

(** The bytes of an address of the protocol, read at [off]. *)
Definition load_ipv4 (data : list Z) (off : Z) : res BAddr :=
  ip ← mem_read data off 4; port ← mem_read data (off + 4) 2;
  Ok (BAddr_InitIPv4 (host_val ip) (host_val port)).
Definition load_ipv6 (data : list Z) (off : Z) : res BAddr :=
  ip ← mem_read data off 16; port ← mem_read data (off + 16) 2;
  Ok (BAddr_InitIPv6 ip (host_val port)).

Definition move_to_end (c : Z) : gwp unit :=
  pmod (fun o => o <| connections_list ::= fun l => remove_node c l ++ [c] |>).

Definition recv_interface_handler_send (data : list Z) (data_len : Z) : gwp unit :=
  o ← pget;
  passert (have_server o);;
  passert (0 <=? data_len);;
  passert (data_len <=? udpgw_mtu o);;
  on_recv_if PPI.Done;;
  if data_len <? sizeof_udpgw_header then pskip else
  flags ← plift (mem_read data 0 1);
  conid ← plift (mem_read data 1 2);
  let flags := ltoh8 (host_val flags) in
  let conid := ltoh16 (host_val conid) in
  let off := sizeof_udpgw_header in
  let data_len := data_len - sizeof_udpgw_header in
  let ipv6 := negb (Z.land flags UDPGW_CLIENT_FLAG_IPV6 =? 0) in
  let size := if ipv6 then sizeof_udpgw_addr_ipv6 else sizeof_udpgw_addr_ipv4 in
  if data_len <? size then pskip else
  remote_addr ← plift (if ipv6 then load_ipv6 data off else load_ipv4 data off);
  let off := off + size in
  let data_len := data_len - size in
  if udp_mtu o <? data_len then pskip else
  c ← find_connection_by_conid conid;
  match c with
  | None => pskip
  | Some c =>
    x ← get_con c;
    if negb (BAddr_CompareOrder (c_conaddr x).2 remote_addr =? 0) then pskip else
    move_to_end c;;
    payload ← plift (mem_read data off data_len);
    pcall (HandlerReceived (c_conaddr x).1 (c_conaddr x).2 payload)
  end.

Definition send_monitor_handler : gwp unit :=
  if PSIPHON then pskip else
  o ← pget;
  if keepalive_sending o then pskip else
  on_keepalive_if (PPI.Sender_Send (Some (keepalive_packet o)) (Zlen (keepalive_packet o)));;
  pmod (fun o => o <| keepalive_sending := true |>).
Definition keepalive_if_handler_done : gwp unit :=
  o ← pget;
  passert (keepalive_sending o);;
  pmod (fun o => o <| keepalive_sending := false |>).

(** ** The client *)

(** [queue_ok] is whether the send queue could be set up; [i] what the memory of the keepalive
    flow's input held. *)
Definition UdpGwClient_Init (udp_mtu0 max send_buffer keepalive : Z) (queue_ok : bool) (i : PPI.t) : gwp bool :=
  passert (0 <=? udp_mtu0);;
  passert (0 <=? udpgw_compute_mtu udp_mtu0);;
  passert (udpgw_compute_mtu udp_mtu0 <=? PACKETPROTO_MAXPAYLOAD);;
  passert (0 <? max);;
  passert (0 <? send_buffer);;
  pmod (fun o => o <| udp_mtu := udp_mtu0 |> <| max_connections := max |> <| send_buffer_size := send_buffer |>
                   <| keepalive_time := keepalive |>);;
  pmod (fun o => o <| max_connections := if UINT16_MAX + 1 <? max_connections o then UINT16_MAX + 1 else max_connections o |>);;
  pmod (fun o => o <| udpgw_mtu := udpgw_compute_mtu (udp_mtu o) |>);;
  pmod (fun o => o <| pp_mtu := udpgw_mtu o + sizeof_packetproto_header |>);;
  pmod (fun o => o <| tree_by_conaddr := ot_empty |> <| tree_by_conid := ot_empty |> <| connections_list := [] |>
                   <| num_connections := 0 |> <| next_conid := 0 |>);;
  o ← pget;
  pcall (ConnectorInit (pp_mtu o));;
  pcall (MonitorInit (keepalive_time o));;
  pcall (QueueInit 1);;
  if negb queue_ok then pcall MonitorFree;; pcall ConnectorFree;; mret false else
  pmod (fun o => o <| keepalive_packet := host_bytes 2 sizeof_udpgw_header ++ [UDPGW_CLIENT_FLAG_KEEPALIVE; 0; 0] |>);;
  pcall KeepaliveFlowInit;;
  match PPI.Init (pp_mtu o) i with
  | Err e => fun _ => Err e
  | Ok (_, i, _) =>
    pmod (put_keepalive_if i);;
    on_keepalive_if PPI.Sender_Init;;
    pmod (fun o => o <| keepalive_sending := false |> <| have_server := false |>);;
    mret true
  end.

Fixpoint free_connections (fuel : nat) : gwp unit :=
  match fuel with
  | O => fun _ => Err FuelExhausted
  | S fuel =>
    o ← pget;
    match head (connections_list o) with
    | None => pskip
    | Some c => connection_free c;; free_connections fuel
    end
  end.
Definition UdpGwClient_Free : gwp unit :=
  pcall QueuePrepareFree;;
  o ← pget;
  free_connections (S (length (connections_list o)));;
  (if have_server o then free_server else pskip);;
  pcall KeepaliveFlowFree;; pcall QueueFree;; pcall MonitorFree;; pcall ConnectorFree.

Definition is_ip (a : BAddr) : bool := (baddr_type a =? BADDR_TYPE_IPV4) || (baddr_type a =? BADDR_TYPE_IPV6).

Definition UdpGwClient_SubmitPacket (new : option Z) (flow : PPF.t) (mem : option (list Z))
  (local_addr remote_addr : BAddr) (is_dns : bool) (data : list Z) (data_len : Z) : gwp unit :=
  o ← pget;
  passert (is_ip local_addr);;
  passert (is_ip remote_addr);;
  passert (0 <=? data_len);;
  passert (data_len <=? udp_mtu o);;
  let a := (local_addr, remote_addr) in
  con ← find_connection_by_conaddr a;
  let flags := if is_dns then UDPGW_CLIENT_FLAG_DNS else 0 in
  reused ← (if is_null con && (num_connections o =? max_connections o) then
              c ← reuse_connection a; mret (Some c, Z.lor flags UDPGW_CLIENT_FLAG_REBIND)
            else mret (con, flags));
  let '(con, flags) := reused in
  match con with
  | None => connection_init new flow mem a flags data data_len
  | Some c => move_to_end c;; connection_send c flags data data_len
  end.

(** [decoder_ok] is whether the decoder's buffer could be allocated; setting the decoder up
    makes it the user of [recv_if]. *)
Definition UdpGwClient_ConnectServer (decoder_ok : bool) : gwp bool :=
  o ← pget;
  passert (negb (have_server o));;
  on_recv_if (PPI.Init (udpgw_mtu o));;
  if negb decoder_ok then mret false else
  on_recv_if PPI.Sender_Init;;
  pcall (SenderInit (pp_mtu o));;
  pcall ConnectorConnectOutput;;
  pmod (fun o => o <| have_server := true |>);;
  mret true.
Definition UdpGwClient_DisconnectServer : gwp unit :=
  o ← pget;
  passert (have_server o);;
  free_server;;
  pmod (fun o => o <| have_server := false |>).
End client.
Arguments client : clear implicits.

(** * Messages *)

Section messages.
Context `{Arch}.


Lemma write_at_eq d p f : write_at d p f = match mem_write (PPF.memory f) d p with
  | Ok m => Ok (tt, PPF.put_buf (PPF.put_memory m (PPF.buffer f)) f, [])
  | Err e => Err e
  end.
Proof. unfold write_at; prog_simpl; destruct (mem_write _ d p); done. Qed.

(** What [connection_send] writes. *)
Definition addr_bytes (a : BAddr) : list Z :=
  match a with
  | BADDR_IPV4 ip port => host_bytes 4 ip ++ host_bytes 2 port
  | BADDR_IPV6 ip port => ztake 16 ip ++ host_bytes 2 port
  | _ => []
  end.
Definition message_flags (a : BAddr) (flags : Z) : Z :=
  if baddr_type a =? BADDR_TYPE_IPV6 then Z.lor flags UDPGW_CLIENT_FLAG_IPV6 else flags.
Definition message (remote : BAddr) (conid flags : Z) (data : list Z) : list Z :=
  udpgw_header_bytes (message_flags remote flags) conid ++ addr_bytes remote ++ data.

Lemma addr_bytes_len a : baddr_wf a -> Zlen (addr_bytes a) =
  if baddr_type a =? BADDR_TYPE_IPV6 then sizeof_udpgw_addr_ipv6 else sizeof_udpgw_addr_ipv4.
Proof.
  destruct a as [|ip port|ip port|]; cbn; try done.
  intros (_ & HL & _); rewrite Zlen_app, Zlen_ztake, HL; done.
Qed.
Lemma message_len a conid flags data : baddr_wf a -> Zlen (message a conid flags data) <= 21 + Zlen data.
Proof.
  intros Ha; unfold message; rewrite !Zlen_app, (addr_bytes_len a Ha).
  change (Zlen (udpgw_header_bytes _ _)) with 3; destruct (_ =? _); unfold sizeof_udpgw_addr_ipv6, sizeof_udpgw_addr_ipv4; lia.
Qed.

(** The pieces make the message. *)
Lemma write_message_eq a conid flags data n f : baddr_wf a.2 -> n = Zlen data ->
  write_message a conid flags data n f = PPF.write_packet (message a.2 conid flags data) f.
Proof.
  intros Ha ->; unfold write_message, PPF.write_packet.
  assert (mem_read data 0 (Zlen data) = Ok data) as Hd.
  { pose proof (Zlen_nonneg data); rewrite mem_read_ok by lia; f_equal; apply slice_all; lia. }
  unfold message, message_flags; destruct a as [l r]; cbn [snd] in *.
  cbv beta iota zeta delta [mbind mret prog_ret prog_bind pget pmod plift pskip].
  destruct (PPF.on_writer BufferWriter.BufferWriter_StartPacket f) as [[[[out|] f1] ks]|e]; [|done..].
  rewrite Hd, write_at_eq, mem_write_app.
  set (fl := if baddr_type r =? BADDR_TYPE_IPV6 then _ else _).
  change (Zlen (udpgw_header_bytes fl conid)) with sizeof_udpgw_header.
  destruct (mem_write (PPF.memory f1) out (udpgw_header_bytes fl conid)) as [m1|e]; [|done].
  pose proof (addr_bytes_len r Ha) as HL; rewrite mem_write_app, HL.
  destruct r as [|ip port|ip port|]; [done| | | done]; cbn [baddr_type addr_bytes] in *; rewrite write_at_eq;
    change (PPF.memory (PPF.put_buf (PPF.put_memory m1 (PPF.buffer f1)) f1)) with m1;
    match goal with |- context [mem_write m1 ?d ?p] => destruct (mem_write m1 d p) as [m2|e]; [|done] end.
  all: rewrite write_at_eq; change (PPF.memory (PPF.put_buf (PPF.put_memory m2 _) _)) with m2.
  all: rewrite !Zlen_app; change (Zlen (udpgw_header_bytes fl conid)) with sizeof_udpgw_header.
  - change (BADDR_TYPE_IPV4 =? BADDR_TYPE_IPV6) with false in *; cbv iota in *.
    change (Zlen (host_bytes 4 ip) + Zlen (host_bytes 2 port)) with sizeof_udpgw_addr_ipv4.
    rewrite !Z.add_assoc; destruct (mem_write m2 _ data) as [m3|e]; [|done].
    destruct (PPF.on_writer _ _) as [[[[] s2] c2]|e]; done.
  - change (BADDR_TYPE_IPV6 =? BADDR_TYPE_IPV6) with true in *; cbv iota in *.
    rewrite Zlen_app in HL; rewrite HL.
    rewrite !Z.add_assoc; destruct (mem_write m2 _ data) as [m3|e]; [|done].
    destruct (PPF.on_writer _ _) as [[[[] s2] c2]|e]; done.
Qed.
End messages.

(** * The order of the trees *)

Definition conaddr_wf (a : conaddr) : Prop := baddr_wf a.1 /\ baddr_wf a.2.

Lemma uint16_comparator_ok : comparator (fun _ : Z => True) uint16_comparator.
Proof.
  split; intros; unfold uint16_comparator in *.
  - pose proof (B_COMPARE_sign a b); pose proof (B_COMPARE_sign b a); lia.
  - pose proof (B_COMPARE_sign a b); pose proof (B_COMPARE_sign b c); pose proof (B_COMPARE_sign a c); lia.
Qed.

Lemma B_COMPARE_three_way a b : -1 <= B_COMPARE a b <= 1.
Proof. unfold B_COMPARE, b2z; destruct (_ <? _), (_ <? _); lia. Qed.
Lemma conaddr_comparator_three_way a b : -1 <= conaddr_comparator a b <= 1.
Proof.
  assert (forall a b, -1 <= BAddr_CompareOrder a b <= 1) as Hb.
  { intros [|ip port|ip port|] [|ip' port'|ip' port'|]; unfold BAddr_CompareOrder;
      repeat (destruct (negb _); [apply B_COMPARE_three_way|]); try apply B_COMPARE_three_way; lia. }
  unfold conaddr_comparator; destruct (negb _); apply Hb.
Qed.
Lemma conaddr_comparator_sign a b : conaddr_wf a -> conaddr_wf b ->
  (conaddr_comparator a b < 0 <-> memcmp (baddr_key a.2 ++ baddr_key a.1) (baddr_key b.2 ++ baddr_key b.1) < 0) /\
  (conaddr_comparator a b = 0 <-> memcmp (baddr_key a.2 ++ baddr_key a.1) (baddr_key b.2 ++ baddr_key b.1) = 0).
Proof.
  intros [Ha1 Ha2] [Hb1 Hb2]; unfold conaddr_comparator.
  destruct (BAddr_CompareOrder_key _ _ Ha2 Hb2) as [L2 E2], (BAddr_CompareOrder_key _ _ Ha1 Hb1) as [L1 E1].
  rewrite memcmp_app by (rewrite !baddr_key_length by done; done).
  destruct (Z.eqb_spec (BAddr_CompareOrder a.2 b.2) 0), (Z.eqb_spec (memcmp (baddr_key a.2) (baddr_key b.2)) 0);
    cbn [negb]; tauto.
Qed.

Lemma conaddr_comparator_ok : comparator conaddr_wf conaddr_comparator.
Proof.
  assert (forall a b, conaddr_wf a -> conaddr_wf b ->
    length (baddr_key a.2 ++ baddr_key a.1) = length (baddr_key b.2 ++ baddr_key b.1)) as HL.
  { intros a b [] []; rewrite !length_app, !baddr_key_length; done. }
  split.
  - intros a b Ha Hb; destruct (conaddr_comparator_sign a b Ha Hb) as [Lab Eab], (conaddr_comparator_sign b a Hb Ha) as [Lba Eba].
    pose proof (memcmp_anti (baddr_key a.2 ++ baddr_key a.1) (baddr_key b.2 ++ baddr_key b.1)); split.
    + rewrite Eab; split; [intros E | intros ->; apply memcmp_refl].
      apply memcmp_eq in E; [|auto]; apply app_inj_1 in E as [E2 E1]; [|rewrite !baddr_key_length by apply Ha || apply Hb; done].
      destruct a, b; cbn in *; f_equal; apply baddr_key_inj; try done; apply Ha || apply Hb.
    + split; intros; destruct (Z.lt_trichotomy (conaddr_comparator b a) 0) as [|[|]]; lia.
  - intros a b c Ha Hb Hc; destruct (conaddr_comparator_sign a b Ha Hb) as [-> _],
      (conaddr_comparator_sign b c Hb Hc) as [-> _], (conaddr_comparator_sign a c Ha Hc) as [-> _].
    intros H1 H2; apply (memcmp_trans _ (baddr_key b.2 ++ baddr_key b.1)); auto; lia.
Qed.

(** * The invariant *)

Section invariant.
Context `{Arch} {T : Type} `{OrdTree T}.

(** The histories of the connections' flows and of [recv_if]. *)
Record ghost := mk_ghost { g_flows : gmap Z PPF.ghost; g_recv : history }.

Definition enclen (o : client T) : Z := PACKETPROTO_ENCLEN (udpgw_mtu o).
(** The memory of a flow's buffer. *)
Definition buffer_ok (mtu num : Z) : Prop :=
  0 < ChunkBuffer.ChunkBuffer2_calc_blocks (PACKETPROTO_ENCLEN mtu) num /\
  4 * ChunkBuffer.ChunkBuffer2_calc_blocks (PACKETPROTO_ENCLEN mtu) num <= INT_MAX.

Definition cfg_ok (o : client T) : Prop :=
  0 <= udp_mtu o /\ udpgw_mtu o = 21 + udp_mtu o /\ udpgw_mtu o <= PACKETPROTO_MAXPAYLOAD /\
  pp_mtu o = enclen o /\ 1 <= max_connections o <= 65536 /\ 0 < send_buffer_size o /\
  buffer_ok (udpgw_mtu o) (send_buffer_size o).

Definition con_ok (o : client T) (fs : gmap Z PPF.ghost) (c : Z) (x : connection) : Prop :=
  conaddr_wf (c_conaddr x) /\ 0 <= c_conid x < max_connections o /\
  (exists fg, fs !! c = Some fg /\ PPF.inv (udpgw_mtu o) (send_buffer_size o) (c_send_ppflow x) fg) /\
  (c_first_job x = true -> c_first_data_len x = Zlen (c_first_data x) /\ Zlen (c_first_data x) <= udp_mtu o).

(** The list, the trees and the memory hold the same connections; identifiers and addresses
    are keys; the front of the list is the connection used least recently. *)
Definition core (o : client T) : Prop :=
  NoDup (connections_list o) /\ (forall c, c ∈ connections_list o <-> is_Some (connections o !! c)) /\
  ot_elements (tree_by_conaddr o) ≡ₚ connections_list o /\ ot_elements (tree_by_conid o) ≡ₚ connections_list o /\
  num_connections o = Zlen (connections_list o) /\ num_connections o <= max_connections o /\
  0 <= next_conid o < max_connections o /\
  in_order (compare_conaddrs o) (ot_elements (tree_by_conaddr o)) /\
  in_order (compare_conids o) (ot_elements (tree_by_conid o)).

Definition inv (o : client T) (g : ghost) : Prop :=
  cfg_ok o /\ core o /\ (forall c x, connections o !! c = Some x -> con_ok o (g_flows g) c x) /\
  (have_server o = true -> PPI.inv (recv_if o) (g_recv g) /\ PPI.mtu (recv_if o) = udpgw_mtu o /\
     PPI.has_requestcancel (recv_if o) = false).
End invariant.

Section lookups.
Context `{Arch} {T : Type} `{OrdTreeOk T}.
Implicit Types (o : client T) (g : ghost).

Lemma get_con_eq c x o : connections o !! c = Some x -> get_con c o = Ok (x, o, []).
Proof. unfold get_con; intros ->; done. Qed.
Lemma mod_con_eq c x f o : connections o !! c = Some x ->
  mod_con c f o = Ok (tt, o <| connections ::= insert c (f x) |>, []).
Proof. intros Hx; unfold mod_con; pstep_by ltac:(apply get_con_eq; exact Hx); done. Qed.
Lemma on_flow_eq {A} c x (p : PPF.fp A) o a f : connections o !! c = Some x -> p (c_send_ppflow x) = Ok (a, f, []) ->
  on_flow c p o = Ok (a, o <| connections ::= insert c (x <| c_send_ppflow := f |>) |>, []).
Proof. intros Hx Hp; unfold on_flow; rewrite Hx, Hp; done. Qed.

Lemma conaddr_of_eq o c x : connections o !! c = Some x -> conaddr_of o c = c_conaddr x.
Proof. unfold conaddr_of; intros ->; done. Qed.
Lemma conid_of_eq o c x : connections o !! c = Some x -> conid_of o c = c_conid x.
Proof. unfold conid_of; intros ->; done. Qed.

Lemma conaddrs_wf o g c : inv o g -> c ∈ connections_list o -> conaddr_wf (conaddr_of o c).
Proof.
  intros (_ & (_ & Hdom & _) & Hcon & _) Hc; apply Hdom in Hc as [x Hx].
  rewrite (conaddr_of_eq _ _ _ Hx); apply (Hcon c x Hx).
Qed.

Lemma find_by_conaddr o g a : inv o g -> conaddr_wf a ->
  exists r, find_connection_by_conaddr a o = Ok (r, o, []) /\
    match r with
    | Some c => exists x, c ∈ connections_list o /\ connections o !! c = Some x /\ c_conaddr x = a
    | None => forall c, c ∈ connections_list o -> conaddr_of o c <> a
    end.
Proof.
  intros Hinv Ha; pose proof Hinv as (_ & (_ & Hdom & Ht & _ & _ & _ & _ & Hord & _) & _).
  eexists; split; [reflexivity|].
  pose proof (keyed_lookup _ _ conaddr_comparator_ok (conaddr_of o) a (tree_by_conaddr o)) as Hl.
  destruct (ot_lookup _ _) as [c|].
  - destruct Hl as [Hc Hk]; [apply conaddr_comparator_three_way | intros c' Hc'; eapply conaddrs_wf; [done|]; rewrite <- Ht; done | done | done |].
    rewrite Ht in Hc; destruct (proj1 (Hdom c) Hc) as [x Hx]; exists x; rewrite <- (conaddr_of_eq _ _ _ Hx); done.
  - intros c Hc; apply Hl; [apply conaddr_comparator_three_way | intros c' Hc'; eapply conaddrs_wf; [done|]; rewrite <- Ht; done | done | done |].
    rewrite Ht; done.
Qed.

Lemma find_by_conid o i : core o ->
  exists r, find_connection_by_conid i o = Ok (r, o, []) /\
    match r with
    | Some c => exists x, c ∈ connections_list o /\ connections o !! c = Some x /\ c_conid x = i
    | None => forall c, c ∈ connections_list o -> conid_of o c <> i
    end.
Proof.
  intros (_ & Hdom & _ & Ht & _ & _ & _ & _ & Hord); eexists; split; [reflexivity|].
  pose proof (keyed_lookup _ _ uint16_comparator_ok (conid_of o) i (tree_by_conid o)
    (B_COMPARE_three_way i) (fun _ _ => I) I Hord) as Hl.
  destruct (ot_lookup _ _) as [c|].
  - destruct Hl as [Hc Hk]; rewrite Ht in Hc; destruct (proj1 (Hdom c) Hc) as [x Hx]; exists x.
    rewrite <- (conid_of_eq _ _ _ Hx); done.
  - intros c Hc; apply Hl; rewrite Ht; done.
Qed.

(** ** An unused identifier *)

Definition next_id (max i : Z) : Z := if i =? max - 1 then 0 else i + 1.

Lemma next_id_mod max i : 0 <= i < max -> next_id max i = (i + 1) mod max.
Proof.
  intros Hi; unfold next_id; destruct (Z.eqb_spec i (max - 1)) as [->|].
  - replace (max - 1 + 1) with max by lia; rewrite Z_mod_same_full; done.
  - rewrite Z.mod_small; lia.
Qed.

Definition set_next (n : Z) o : client T := o <| next_conid := n |>.

(** The search stops at the first identifier that no connection has, if any is found. *)
Lemma find_loop_eq fuel o : core o -> max_connections o <= 65536 ->
  (exists k, (k < fuel)%nat /\
     let i := (next_conid o + Z.of_nat k) mod max_connections o in
     find_unused_conid_loop fuel o = Ok (i, set_next i o, []) /\
     forall c, c ∈ connections_list o -> conid_of o c <> i) \/
  (forall k, (k < fuel)%nat -> exists c, c ∈ connections_list o /\
     conid_of o c = (next_conid o + Z.of_nat k) mod max_connections o).
Proof.
  revert o; induction fuel as [|fuel IH]; intros o Hcore Hmax; [right; lia|].
  pose proof Hcore as (_ & _ & _ & _ & _ & _ & Hn & _).
  assert (wrap 16 (next_conid o) = next_conid o) as Hw by (apply wrap_small; change (2 ^ 16) with 65536; lia).
  assert (next_conid o = (next_conid o + Z.of_nat 0) mod max_connections o) as H0'.
  { rewrite Z.add_0_r, Z.mod_small; lia. }
  destruct (find_by_conid o (next_conid o) Hcore) as (r & Hf & Hr); destruct r as [c|].
  - destruct Hr as (x & Hc & Hx & Hid).
    set (o1 := set_next (next_id (max_connections o) (next_conid o)) o).
    assert (core o1) as Hcore1.
    { destruct Hcore as (H1' & H2' & H3' & H4' & H5' & H6' & H7' & H8' & H9'); do 6 (split; [done|]).
      split; [change (0 <= next_id (max_connections o) (next_conid o) < max_connections o);
        rewrite next_id_mod by done; apply Z.mod_pos_bound; lia | done]. }
    assert (find_unused_conid_loop (S fuel) o = find_unused_conid_loop fuel o1) as Hrun.
    { cbn [find_unused_conid_loop]; pstep; rewrite Hw; pstep_by ltac:(exact Hf); cbn [is_null]; pstep; done. }
    rewrite Hrun.
    assert (forall k, (next_conid o1 + Z.of_nat k) mod max_connections o1 =
      (next_conid o + Z.of_nat (S k)) mod max_connections o) as Hk.
    { intros k; change (next_conid o1) with (next_id (max_connections o) (next_conid o)).
      change (max_connections o1) with (max_connections o).
      rewrite next_id_mod, Zplus_mod_idemp_l by done; f_equal; lia. }
    destruct (IH o1 Hcore1 Hmax) as [(k & Hlt & Hrec & Hno)|Hall].
    + left; exists (S k); cbv zeta in *; rewrite Hk in *; split; [lia|]; split; [done | exact Hno].
    + right; intros [|k] Hlt; [exists c; rewrite <- H0', (conid_of_eq _ _ _ Hx); done|].
      destruct (Hall k) as (c' & Hc' & He); [lia|]; exists c'; rewrite <- Hk; done.
  - left; exists 0%nat; split; [lia|]; cbv zeta; rewrite <- H0'; split; [|done].
    cbn [find_unused_conid_loop]; pstep; rewrite Hw; pstep_by ltac:(exact Hf); cbn [is_null].
    destruct o; done.
Qed.

Lemma find_unused_eq o : core o -> max_connections o <= 65536 -> num_connections o < max_connections o ->
  exists i, find_unused_conid o = Ok (i, set_next i o, []) /\ 0 <= i < max_connections o /\
    forall c, c ∈ connections_list o -> conid_of o c <> i.
Proof.
  intros Hcore Hmax Hlt; pose proof Hcore as (_ & _ & _ & _ & Hnum & _ & Hn & _).
  destruct (find_loop_eq (S (Z.to_nat (max_connections o))) o Hcore Hmax) as [(k & _ & Hf & Hno)|Hall].
  - eexists; split; [|split; [|exact Hno]]; [|apply Z.mod_pos_bound; lia].
    unfold find_unused_conid; pstep; test_true (num_connections o <? max_connections o); pstep; exact Hf.
  - exfalso; set (ids := map Z.of_nat (seq 0 (Z.to_nat (max_connections o)))).
    assert (NoDup ids) as Hids by (apply NoDup_fmap; [apply _ | apply NoDup_seq]).
    assert (ids ⊆ map (conid_of o) (connections_list o)) as Hsub.
    { intros i (j & -> & Hj%elem_of_seq)%list_elem_of_fmap.
      destruct (Hall (Z.to_nat ((Z.of_nat j - next_conid o) mod max_connections o))) as (c & Hc & He).
      { pose proof (Z.mod_pos_bound (Z.of_nat j - next_conid o) (max_connections o)); lia. }
      apply list_elem_of_fmap; exists c; split; [|done]; rewrite He, Z2Nat.id by (apply Z.mod_pos_bound; lia).
      rewrite Zplus_mod_idemp_r; replace (next_conid o + (Z.of_nat j - next_conid o)) with (Z.of_nat j) by lia.
      rewrite Z.mod_small; lia. }
    apply NoDup_submseteq, submseteq_length in Hsub; [|done].
    unfold ids in Hsub; rewrite !length_map, length_seq in Hsub; unfold Zlen in Hnum; lia.
Qed.

(** * Operations on one connection *)

Definition put_con (c : Z) (x : connection) o : client T := o <| connections ::= insert c x |>.

Lemma put_con_lookup c x o y :
  connections (put_con c x o) !! y = if decide (y = c) then Some x else connections o !! y.
Proof.
  change (connections (put_con c x o)) with (<[c := x]> (connections o)).
  destruct (decide (y = c)) as [->|]; [apply lookup_insert_eq | apply lookup_insert_ne; done].
Qed.

(** A change to a connection that leaves its keys. *)
Lemma core_put_con c x x' o : core o -> connections o !! c = Some x ->
  c_conaddr x' = c_conaddr x -> c_conid x' = c_conid x -> core (put_con c x' o).
Proof.
  intros (Hnd & Hdom & Hta & Hti & Hnum & Hmax & Hnext & Hoa & Hoi) Hx Ha Hi.
  assert (forall y, conaddr_of (put_con c x' o) y = conaddr_of o y) as Hca.
  { intros y; unfold conaddr_of; rewrite put_con_lookup; destruct (decide (y = c)) as [->|]; [rewrite Hx|]; done. }
  assert (forall y, conid_of (put_con c x' o) y = conid_of o y) as Hci.
  { intros y; unfold conid_of; rewrite put_con_lookup; destruct (decide (y = c)) as [->|]; [rewrite Hx|]; done. }
  split; [done|]; split.
  { intros y; etransitivity; [apply Hdom|]; rewrite put_con_lookup; destruct (decide (y = c)) as [->|]; [|done].
    rewrite Hx; split; eauto. }
  do 5 (split; [done|]); split.
  - eapply (in_order_keys conaddr_comparator (conaddr_of o)); [intros; apply Hca | done].
  - eapply (in_order_keys uint16_comparator (conid_of o)); [intros; apply Hci | done].
Qed.

Definition with_flow (g : ghost) (c : Z) (fg : PPF.ghost) : ghost := mk_ghost (<[c := fg]> (g_flows g)) (g_recv g).

Lemma cons_put_con c x x' o g fg : inv o g -> connections o !! c = Some x ->
  con_ok o (<[c := fg]> (g_flows g)) c x' ->
  forall y z, connections (put_con c x' o) !! y = Some z -> con_ok (put_con c x' o) (g_flows (with_flow g c fg)) y z.
Proof.
  intros (_ & _ & Hcon & _) Hx Hok y z Hz; rewrite put_con_lookup in Hz.
  destruct (decide (y = c)) as [->|Hn]; [injection Hz as <-; exact Hok|].
  destruct (Hcon y z Hz) as (H1' & H2' & (yg & Hyg & Hi) & H4').
  split; [done|]; split; [done|]; split; [|done]; exists yg; split; [|done].
  cbn [with_flow g_flows]; rewrite lookup_insert_ne; done.
Qed.

Lemma inv_put_con c x x' o g fg : inv o g -> connections o !! c = Some x ->
  c_conaddr x' = c_conaddr x -> c_conid x' = c_conid x -> con_ok o (<[c := fg]> (g_flows g)) c x' ->
  inv (put_con c x' o) (with_flow g c fg).
Proof.
  intros Hinv Hx Ha Hi Hok; pose proof Hinv as (Hcfg & Hcore & _ & Hrecv).
  split; [exact Hcfg|]; split; [eapply core_put_con; done|]; split; [eapply cons_put_con; done | exact Hrecv].
Qed.

(** What a connection's flow accepts when it is given message [p]. *)
Definition accepts (f : PPF.t) (fg : PPF.ghost) (p : list Z) : PPF.ghost :=
  if BufferWriter.out_have (PPF.ainput f)
  then PPF.mk_ghost (PPF.hout fg) (PPF.accepted fg ++ [p]) (PPF.delivered fg) else fg.

Lemma connection_send_eq c x fg flags data o g : inv o g -> connections o !! c = Some x ->
  g_flows g !! c = Some fg -> Zlen data <= udp_mtu o ->
  exists f, connection_send c flags data (Zlen data) o = Ok (tt, put_con c (x <| c_send_ppflow := f |>) o, []) /\
    inv (put_con c (x <| c_send_ppflow := f |>) o)
      (with_flow g c (accepts (c_send_ppflow x) fg (message (c_conaddr x).2 (c_conid x) flags data))).
Proof.
  intros Hinv Hx Hfg Hd; pose proof Hinv as ((Hu0 & Hum & Hmax & _ & _ & Hs & _) & _ & Hcon & _).
  destruct (Hcon c x Hx) as (Hwf & Hid & (fg' & Hfg' & Hi) & Hjob); rewrite Hfg in Hfg'; injection Hfg' as <-.
  set (p := message (c_conaddr x).2 (c_conid x) flags data).
  assert (Zlen p <= udpgw_mtu o) as Hp by (pose proof (message_len (c_conaddr x).2 (c_conid x) flags data (proj2 Hwf)); unfold p; lia).
  pose proof Hi as (k & ph & d & Hrep).
  assert (0 <= udpgw_mtu o <= PACKETPROTO_MAXPAYLOAD) as Hm by lia.
  destruct (PPF.packet_step (udpgw_mtu o) (send_buffer_size o) Hm p (c_send_ppflow x) fg k ph d Hrep Hp) as (f & Hw & _ & Hf).
  exists f; split.
  - unfold connection_send; pstep_by ltac:(apply get_con_eq; exact Hx); pstep; pose proof (Zlen_nonneg data).
    test_true (0 <=? Zlen data); pstep; test_true (Zlen data <=? udp_mtu o); pstep.
    apply on_flow_eq; [exact Hx|]; rewrite write_message_eq; [exact Hw | apply Hwf | done].
  - eapply inv_put_con; [done | done | done | done |].
    split; [exact Hwf|]; split; [exact Hid|]; split; [|exact Hjob].
    eexists; split; [apply lookup_insert_eq|]; unfold accepts.
    destruct (BufferWriter.out_have _); [exact Hf | subst f; exact Hi].
Qed.

(** * Which connection a packet takes *)

Definition moved (c : Z) o : client T := o <| connections_list ::= fun l => remove_node c l ++ [c] |>.


Lemma inv_moved c o g : inv o g -> c ∈ connections_list o -> inv (moved c o) g.
Proof.
  intros (Hcfg & (Hnd & Hdom & Hta & Hti & Hnum & Hmax & Hnext & Hoa & Hoi) & Hcon & Hrecv) Hc.
  assert (connections_list (moved c o) ≡ₚ connections_list o) as Hp.
  { change (remove_node c (connections_list o) ++ [c] ≡ₚ connections_list o).
    rewrite <- Permutation_cons_append; apply remove_node_perm; done. }
  split; [exact Hcfg|]; split; [|split; [exact Hcon | exact Hrecv]].
  split; [rewrite Hp; done|]; split; [intros y; rewrite Hp; apply Hdom|].
  split; [rewrite Hp; done|]; split; [rewrite Hp; done|].
  split; [change (num_connections o = Zlen (connections_list (moved c o))); unfold Zlen in *; rewrite Hp; done | done].
Qed.

(** The connection is found in the tree by its address; taking it out leaves the others. *)
Lemma remove_perm c t o : NoDup (connections_list o) -> ot_elements t ≡ₚ connections_list o ->
  c ∈ connections_list o -> ot_elements (ot_remove c t) ≡ₚ remove_node c (connections_list o).
Proof.
  intros Hnd Ht Hc; rewrite ot_remove_elements.
  assert (NoDup (ot_elements t)) as Hnt by (rewrite Ht; done).
  apply (Permutation_cons_inv (a := c)); rewrite !remove_node_perm; [done | done | done | done | rewrite Ht; done].
Qed.

Lemma remove_not_in c l : c ∉ remove_node c l.
Proof. rewrite remove_node_elem; tauto. Qed.

Lemma insert_by_conaddr_eq c o t r : ot_insert (compare_conaddrs o) c (tree_by_conaddr o) = (t, r) ->
  insert_by_conaddr c o = Ok (r, o <| tree_by_conaddr := t |>, []).
Proof. unfold insert_by_conaddr; intros ->; done. Qed.
Lemma insert_by_conid_eq c o t r : ot_insert (compare_conids o) c (tree_by_conid o) = (t, r) ->
  insert_by_conid c o = Ok (r, o <| tree_by_conid := t |>, []).
Proof. unfold insert_by_conid; intros ->; done. Qed.

(** [c] takes the address [a], which no connection has. *)
Definition readdressed (c : Z) (a : conaddr) (t : T) (x : connection) o : client T :=
  (put_con c (x <| c_conaddr := a |>) o) <| tree_by_conaddr := t |>.

Lemma reuse_eq o g a c l x : inv o g -> conaddr_wf a -> connections_list o = c :: l ->
  connections o !! c = Some x -> (forall y, y ∈ connections_list o -> conaddr_of o y <> a) ->
  exists t, reuse_connection a o = Ok (c, readdressed c a t x o, []) /\ inv (readdressed c a t x o) g.
Proof.
  intros Hinv Ha Hl Hx Hno; pose proof Hinv as (Hcfg & (Hnd & Hdom & Hta & Hti & Hnum & Hmax & Hnext & Hoa & Hoi) & Hcon & Hrecv).
  assert (c ∈ connections_list o) as Hc by (rewrite Hl; left).
  set (t0 := ot_remove c (tree_by_conaddr o)).
  set (o1 := (put_con c (x <| c_conaddr := a |>) o) <| tree_by_conaddr := t0 |>).
  assert (ot_elements t0 ≡ₚ remove_node c (connections_list o)) as Ht0 by (apply remove_perm; done).
  assert (forall y, y <> c -> conaddr_of o1 y = conaddr_of o y) as Hca.
  { intros y Hy; unfold conaddr_of; change (connections o1) with (connections (put_con c (x <| c_conaddr := a |>) o)).
    rewrite put_con_lookup, decide_False; done. }
  assert (conaddr_of o1 c = a) as Hcc.
  { unfold conaddr_of; change (connections o1) with (connections (put_con c (x <| c_conaddr := a |>) o)).
    rewrite put_con_lookup, decide_True; done. }
  assert (forall y, y ∈ ot_elements t0 -> y <> c /\ y ∈ connections_list o) as Hel.
  { intros y Hy; rewrite Ht0, remove_node_elem in Hy; tauto. }
  assert (in_order (compare_conaddrs o1) (ot_elements t0)) as Ho0.
  { apply (in_order_keys conaddr_comparator (conaddr_of o)); [intros y Hy; apply Hca, Hel, Hy|].
    unfold t0; rewrite ot_remove_elements; apply in_order_remove; exact Hoa. }
  destruct (keyed_insert _ _ conaddr_comparator_ok (conaddr_of o1) c t0) as (t & Hins & Ht & Hord).
  { apply conaddr_comparator_three_way. }
  { intros y Hy; destruct (Hel y Hy); rewrite Hca by done; eapply conaddrs_wf; done. }
  { rewrite Hcc; done. }
  { exact Ho0. }
  { intros y Hy; destruct (Hel y Hy); rewrite Hcc, Hca by done; apply Hno; done. }
  exists t; split.
  - destruct (find_by_conaddr o g a Hinv Ha) as (r & Hf & Hr).
    destruct r as [y|]; [destruct Hr as (z & Hy & Hz & Haz); destruct (Hno y Hy); rewrite (conaddr_of_eq _ _ _ Hz); done|].
    unfold reuse_connection; pstep_by ltac:(exact Hf); pstep; pstep.
    assert (0 < num_connections o) as Hpos by (rewrite Hnum, Hl, Zlen_cons; pose proof (Zlen_nonneg l); lia).
    test_true (0 <? num_connections o); pstep; rewrite Hl; cbn [head]; pstep.
    pstep_by ltac:(apply (mod_con_eq c x); exact Hx).
    pstep_by ltac:(apply (insert_by_conaddr_eq c o1 t true); exact Hins).
    pstep; done.
  - assert (ot_elements t ≡ₚ connections_list o) as Htl.
    { rewrite Ht, Ht0; apply remove_node_perm; done. }
    split; [exact Hcfg|]; split; [|split; [|exact Hrecv]].
    + split; [exact Hnd|]; split.
      { intros y; etransitivity; [apply Hdom|].
        change (connections (readdressed c a t x o)) with (connections (put_con c (x <| c_conaddr := a |>) o)).
        rewrite put_con_lookup; destruct (decide (y = c)) as [->|]; [rewrite Hx; split; eauto | done]. }
      do 5 (split; [done|]); split; [exact Hord|].
      apply (in_order_keys uint16_comparator (conid_of o)); [|exact Hoi]; intros y _; unfold conid_of.
      change (connections (readdressed c a t x o)) with (connections (put_con c (x <| c_conaddr := a |>) o)).
      rewrite put_con_lookup; destruct (decide (y = c)) as [->|]; [rewrite Hx; done | done].
    + intros y z Hz; change (connections (readdressed c a t x o)) with (connections (put_con c (x <| c_conaddr := a |>) o)) in Hz.
      rewrite put_con_lookup in Hz; destruct (decide (y = c)) as [->|]; [injection Hz as <- | exact (Hcon y z Hz)].
      destruct (Hcon c x Hx) as (H1' & H2' & H3' & H4'); split; [done|]; done.
Qed.

(** * New connections *)


Definition created (c i : Z) (t1 t2 : T) (x : connection) o : client T :=
  put_con c x (set_next i o) <| tree_by_conaddr := t1 |> <| tree_by_conid := t2 |>
    <| connections_list ::= fun l => l ++ [c] |> <| num_connections ::= Z.add 1 |>.

Lemma created_core c i t1 t2 x o g : inv o g -> connections o !! c = None -> 0 <= i < max_connections o ->
  num_connections o < max_connections o -> conaddr_wf (c_conaddr x) -> c_conid x = i ->
  ot_elements t1 ≡ₚ c :: ot_elements (tree_by_conaddr o) -> ot_elements t2 ≡ₚ c :: ot_elements (tree_by_conid o) ->
  in_order (compare_conaddrs (put_con c x o)) (ot_elements t1) ->
  in_order (compare_conids (put_con c x o)) (ot_elements t2) -> core (created c i t1 t2 x o).
Proof.
  intros (_ & (Hnd & Hdom & Hta & Hti & Hnum & Hmax & Hnext & Hoa & Hoi) & _) Hnew Hi Hlt Hwf Hid H1' H2' Ho1 Ho2.
  assert (connections_list (created c i t1 t2 x o) ≡ₚ c :: connections_list o) as Hp.
  { change (connections_list o ++ [c] ≡ₚ c :: connections_list o); symmetry; apply Permutation_cons_append. }
  assert (c ∉ connections_list o) as Hc by (rewrite Hdom, Hnew; intros [? [=]]).
  split; [rewrite Hp; apply list.NoDup_cons; done|]; split.
  { intros y; rewrite Hp, elem_of_cons, Hdom; change (connections (created c i t1 t2 x o)) with (connections (put_con c x o)).
    rewrite put_con_lookup; destruct (decide (y = c)) as [->|]; [split; eauto | naive_solver]. }
  split; [etransitivity; [exact H1'|]; rewrite Hp, Hta; done|].
  split; [etransitivity; [exact H2'|]; rewrite Hp, Hti; done|].
  split; [change (1 + num_connections o = Zlen (connections_list (created c i t1 t2 x o)));
    unfold Zlen in *; rewrite Hp; cbn [length]; lia|].
  split; [change (1 + num_connections o <= max_connections o); lia|]; split; [exact Hi|]; split; [exact Ho1 | exact Ho2].
Qed.

Lemma created_inv c i t1 t2 x o g fg : inv o g -> connections o !! c = None ->
  core (created c i t1 t2 x o) -> con_ok o (<[c := fg]> (g_flows g)) c x ->
  inv (created c i t1 t2 x o) (with_flow g c fg).
Proof.
  intros (Hcfg & _ & Hcon & Hrecv) Hnew Hcore Hok; split; [exact Hcfg|]; split; [exact Hcore|]; split; [|exact Hrecv].
  intros y z Hz; change (connections (put_con c x o) !! y = Some z) in Hz; rewrite put_con_lookup in Hz.
  destruct (decide (y = c)) as [->|Hn]; [injection Hz as <-; exact Hok|].
  destruct (Hcon y z Hz) as (H1' & H2' & (yg & Hyg & Hi) & H4').
  split; [done|]; split; [done|]; split; [|done]; exists yg; split; [|done].
  cbn [with_flow g_flows]; rewrite lookup_insert_ne; done.
Qed.

(** The input of the queue flow, set up by the queue. *)
Definition queue_input (m : Z) (i : PPI.t) : PPI.t :=
  PPI.mk m false false false (PPI.job_operation_data i) (PPI.job_operation_len i) false false ST_NONE (PPI.cancel_requested i).

Lemma conid_insert c x o : 0 <= c_conid x -> core o -> connections o !! c = None ->
  (forall y, y ∈ connections_list o -> conid_of o y <> c_conid x) ->
  exists t, ot_insert (compare_conids (put_con c x o)) c (tree_by_conid o) = (t, true) /\
    ot_elements t ≡ₚ c :: ot_elements (tree_by_conid o) /\ in_order (compare_conids (put_con c x o)) (ot_elements t).
Proof.
  intros Hpos (Hnd & Hdom & _ & Hti & _ & _ & _ & _ & Hoi) Hnew Hno.
  assert (forall y, y ∈ ot_elements (tree_by_conid o) -> conid_of (put_con c x o) y = conid_of o y) as Hk.
  { intros y Hy; rewrite Hti, Hdom in Hy; unfold conid_of; rewrite put_con_lookup, decide_False; [done|].
    intros ->; rewrite Hnew in Hy; destruct Hy as [? [=]]. }
  apply (keyed_insert _ _ uint16_comparator_ok (conid_of (put_con c x o))); [apply B_COMPARE_three_way | done | done | |].
  - apply (in_order_keys uint16_comparator (conid_of o)); done.
  - intros y Hy; rewrite Hk by done; unfold conid_of at 2; rewrite put_con_lookup, decide_True by done.
    apply Hno; rewrite <- Hti; done.
Qed.

Lemma conaddr_insert c x o g : inv o g -> conaddr_wf (c_conaddr x) -> connections o !! c = None ->
  (forall y, y ∈ connections_list o -> conaddr_of o y <> c_conaddr x) ->
  exists t, ot_insert (compare_conaddrs (put_con c x o)) c (tree_by_conaddr o) = (t, true) /\
    ot_elements t ≡ₚ c :: ot_elements (tree_by_conaddr o) /\
    in_order (compare_conaddrs (put_con c x o)) (ot_elements t).
Proof.
  intros Hinv Hwf Hnew Hno; pose proof Hinv as (_ & (Hnd & Hdom & Hta & _ & _ & _ & _ & Hoa & _) & _).
  assert (forall y, y ∈ ot_elements (tree_by_conaddr o) -> conaddr_of (put_con c x o) y = conaddr_of o y) as Hk.
  { intros y Hy; rewrite Hta, Hdom in Hy; unfold conaddr_of; rewrite put_con_lookup, decide_False; [done|].
    intros ->; rewrite Hnew in Hy; destruct Hy as [? [=]]. }
  assert (conaddr_of (put_con c x o) c = c_conaddr x) as Hcc.
  { unfold conaddr_of; rewrite put_con_lookup, decide_True; done. }
  apply (keyed_insert _ _ conaddr_comparator_ok (conaddr_of (put_con c x o))); [apply conaddr_comparator_three_way | | | |].
  - intros y Hy; rewrite Hk by done; eapply conaddrs_wf; [done|]; rewrite <- Hta; done.
  - rewrite Hcc; done.
  - apply (in_order_keys conaddr_comparator (conaddr_of o)); done.
  - intros y Hy; rewrite Hk, Hcc by done; apply Hno; rewrite <- Hta; done.
Qed.

Definition new_flow_ghost : PPF.ghost := PPF.mk_ghost h0 [] [].

Lemma connection_init_eq o g c flow m a flags data : inv o g -> conaddr_wf a ->
  num_connections o < max_connections o -> (forall y, y ∈ connections_list o -> conaddr_of o y <> a) ->
  connections o !! c = None -> Zlen data <= udp_mtu o ->
  Zlen m = 4 * ChunkBuffer.ChunkBuffer2_calc_blocks (enclen o) (send_buffer_size o) ->
  exists i t1 t2 f, 0 <= i < max_connections o /\ (forall y, y ∈ connections_list o -> conid_of o y <> i) /\
    let o' := created c i t1 t2 (mk_con a flags data (Zlen data) i true f) o in
    connection_init (Some c) flow (Some m) a flags data (Zlen data) o = Ok (tt, o', [QueueFlowInit c]) /\
    inv o' (with_flow g c new_flow_ghost).
Proof.
  intros Hinv Hwf Hlt Hno Hnew Hd Hm; pose proof Hinv as (Hcfg & Hcore & _).
  pose proof Hcfg as (Hu0 & Hum & Hmax & Hpp & Hmc & Hs & Hbpos & Hbmax).
  destruct (find_unused_eq o Hcore ltac:(lia) Hlt) as (i & Hfind & Hi & Hfree).
  assert (0 <= udpgw_mtu o <= PACKETPROTO_MAXPAYLOAD) as Hmm by lia.
  set (flow1 := PPF.put_out (queue_input (pp_mtu o) (PPF.output flow)) flow).
  assert (0 <= pp_mtu o) as Hpp0 by (rewrite Hpp; unfold enclen, PACKETPROTO_ENCLEN, sizeof_packetproto_header; lia).
  destruct (PPF.ppf_init_inv (udpgw_mtu o) (send_buffer_size o) Hmm Hs m flow1) as (f & Hstart & Hf); try done.
  { change (PACKETPROTO_ENCLEN (udpgw_mtu o) <= pp_mtu o); rewrite Hpp; done. }
  set (x := mk_con a flags data (Zlen data) i true f).
  destruct (conid_insert c x o) as (t2 & Hins2 & Ht2 & Ho2); [apply Hi | done | done | done |].
  destruct (conaddr_insert c x o g) as (t1 & Hins1 & Ht1 & Ho1); [done | done | done | done |].
  exists i, t1, t2, f; split; [done|]; split; [done|]; cbv zeta; split.
  - destruct (find_by_conaddr o g a Hinv Hwf) as (r & Hf1 & Hr).
    destruct r as [y|]; [destruct Hr as (z & Hy & Hz & Haz); destruct (Hno y Hy); rewrite (conaddr_of_eq _ _ _ Hz); done|].
    pose proof (Zlen_nonneg data).
    unfold connection_init; pstep; test_true (num_connections o <? max_connections o); pstep.
    pstep_by ltac:(exact Hf1); pstep; test_true (0 <=? Zlen data); pstep; test_true (Zlen data <=? udp_mtu o); pstep.
    pstep_by ltac:(exact Hfind).
    apply (pbind_calls _ _ _ tt (set_next i o) [QueueFlowInit c] _ _ []); [done|].
    rewrite (PPI.ppi_Init_eq _ _ Hpp0); fold (queue_input (pp_mtu o) (PPF.output flow)); fold flow1; pstep.
    pstep_by ltac:(apply (on_flow_eq c (mk_con a flags data (Zlen data) i true flow1)); [apply lookup_insert_eq | exact Hstart]).
    cbn [negb].
    assert (forall o1, o1 = put_con c x (set_next i o) ->
      (r ← insert_by_conaddr c; passert r;; r ← insert_by_conid c; passert r;;
       pmod (fun o => o <| connections_list ::= fun l => l ++ [c] |> <| num_connections ::= Z.add 1 |>)) o1 =
      Ok (tt, created c i t1 t2 x o, [])) as Hrun.
    { intros o1 ->; pstep_by ltac:(apply (insert_by_conaddr_eq c (put_con c x (set_next i o)) t1 true); exact Hins1); pstep.
      pstep_by ltac:(apply (insert_by_conid_eq c _ t2 true); exact Hins2); pstep; done. }
    apply Hrun; unfold put_con; cbv beta iota delta [update]; destruct o; cbn; f_equal; apply insert_insert_eq.
  - apply created_inv; [done | done | eapply created_core; done |].
    split; [done|]; split; [done|]; split; [|intros _; done].
    exists new_flow_ghost; split; [apply lookup_insert_eq | exact Hf].
Qed.

(** Without memory the packet is dropped. *)
Lemma connection_init_fails o g new flow mem a flags data : new = None \/ mem = None -> inv o g -> conaddr_wf a ->
  num_connections o < max_connections o -> (forall y, y ∈ connections_list o -> conaddr_of o y <> a) ->
  (forall c, new = Some c -> connections o !! c = None) -> Zlen data <= udp_mtu o ->
  exists i calls, connection_init new flow mem a flags data (Zlen data) o = Ok (tt, set_next i o, calls) /\
    inv (set_next i o) g.
Proof.
  intros Hnm Hinv Hwf Hlt Hno Hnew Hd; pose proof Hinv as (Hcfg & Hcore & Hcon & Hrecv).
  pose proof Hcfg as (Hu0 & Hum & Hmax & Hpp & Hmc & Hs & Hbpos & Hbmax).
  destruct (find_by_conaddr o g a Hinv Hwf) as (r & Hf1 & Hr).
  destruct r as [y|]; [destruct Hr as (z & Hy & Hz & Haz); destruct (Hno y Hy); rewrite (conaddr_of_eq _ _ _ Hz); done|].
  assert (forall i, 0 <= i < max_connections o -> inv (set_next i o) g) as Hset.
  { intros i Hi; split; [exact Hcfg|]; split; [|split; [exact Hcon | exact Hrecv]].
    destruct Hcore as (? & ? & ? & ? & ? & ? & _ & ?); do 6 (split; [done|]); split; [exact Hi | done]. }
  pose proof Hcore as (_ & _ & _ & _ & _ & _ & Hnext & _); pose proof (Zlen_nonneg data).
  destruct new as [c|]; [assert (mem = None) as -> by (destruct Hnm; done)|].
  - destruct (find_unused_eq o Hcore ltac:(lia) Hlt) as (i & Hfind & Hi & Hfree).
    set (flow1 := PPF.put_out (queue_input (pp_mtu o) (PPF.output flow)) flow).
    assert (0 <= pp_mtu o) as Hpp0 by (rewrite Hpp; unfold enclen, PACKETPROTO_ENCLEN, sizeof_packetproto_header; lia).
    assert (0 <= udpgw_mtu o <= PACKETPROTO_MAXPAYLOAD) as Hmm by lia.
    destruct (PPF.ppf_init_no_memory (udpgw_mtu o) (send_buffer_size o) Hmm Hs flow1) as (f & Hstart); try done.
    { change (PACKETPROTO_ENCLEN (udpgw_mtu o) <= pp_mtu o); rewrite Hpp; done. }
    exists i, [QueueFlowInit c; QueueFlowFree c]; split; [|apply Hset; done].
    unfold connection_init; pstep; test_true (num_connections o <? max_connections o); pstep.
    pstep_by ltac:(exact Hf1); pstep; test_true (0 <=? Zlen data); pstep; test_true (Zlen data <=? udp_mtu o); pstep.
    pstep_by ltac:(exact Hfind).
    apply (pbind_calls _ _ _ tt (set_next i o) [QueueFlowInit c] _ _ [QueueFlowFree c]); [done|].
    rewrite (PPI.ppi_Init_eq _ _ Hpp0); fold (queue_input (pp_mtu o) (PPF.output flow)); fold flow1; pstep.
    pstep_by ltac:(apply (on_flow_eq c (mk_con a flags data (Zlen data) i true flow1)); [apply lookup_insert_eq | exact Hstart]).
    cbn [negb]; eapply (pbind_calls _ _ _ tt _ [QueueFlowFree c] _ _ []); [reflexivity|].
    destruct o; unfold pmod, set_next; cbv beta iota delta [update]; cbn in *; do 3 f_equal.
    rewrite insert_insert_eq; f_equal; apply delete_insert_id; apply Hnew; done.
  - exists (next_conid o), []; split; [|apply Hset; done].
    unfold connection_init; pstep; test_true (num_connections o <? max_connections o); pstep.
    pstep_by ltac:(exact Hf1); pstep; test_true (0 <=? Zlen data); pstep; test_true (Zlen data <=? udp_mtu o); pstep.
    destruct o; done.
Qed.

(** * Submitting a packet *)

(** The connections by use, the one used least recently first: addresses and identifiers. *)
Definition entry o (c : Z) : conaddr * Z := (conaddr_of o c, conid_of o c).
Definition lru o : list (conaddr * Z) := map (entry o) (connections_list o).

(** What submitting a packet does to them; [new] is the identifier of a new connection. *)
Definition has_addr (a : conaddr) (p : conaddr * Z) : bool := bool_decide (p.1 = a).
Definition lru_submit (max : Z) (a : conaddr) (new : option Z) (l : list (conaddr * Z)) : list (conaddr * Z) :=
  match List.find (has_addr a) l with
  | Some p => List.filter (fun q => negb (has_addr a q)) l ++ [p]
  | None =>
    if Zlen l =? max then match l with [] => [] | p :: l' => l' ++ [(a, p.2)] end
    else match new with Some i => l ++ [(a, i)] | None => l end
  end.

Lemma addr_unique o g c y : inv o g -> c ∈ connections_list o -> y ∈ connections_list o ->
  conaddr_of o y = conaddr_of o c -> y = c.
Proof.
  intros Hinv Hc Hy He; pose proof Hinv as (_ & (_ & _ & Hta & _ & _ & _ & _ & Hoa & _) & _).
  apply (in_order_by _ _ conaddr_comparator_ok (conaddr_of o) (ot_elements (tree_by_conaddr o)));
    rewrite ?Hta; auto; intros z Hz; eapply conaddrs_wf; [done|]; rewrite <- Hta; done.
Qed.

Lemma entries_find o c a l : (forall y, y ∈ l -> conaddr_of o y = a -> y = c) -> c ∈ l -> conaddr_of o c = a ->
  List.find (has_addr a) (map (entry o) l) = Some (entry o c).
Proof.
  intros Hu Hc Ha; induction l as [|y l IH]; [inversion Hc|]; cbn [map List.find]; unfold has_addr at 1; cbn [entry fst].
  destruct (decide (conaddr_of o y = a)) as [Hy|Hy].
  - rewrite bool_decide_eq_true_2 by done; rewrite (Hu y) by (left || done); done.
  - rewrite bool_decide_eq_false_2 by done; apply IH; [intros z Hz; apply Hu; right; done|].
    apply elem_of_cons in Hc as [->|]; done.
Qed.
Lemma entries_absent o a l : (forall y, y ∈ l -> conaddr_of o y <> a) -> List.find (has_addr a) (map (entry o) l) = None.
Proof.
  intros Hu; induction l as [|y l IH]; [done|]; cbn [map List.find]; unfold has_addr at 1; cbn [entry fst].
  rewrite bool_decide_eq_false_2 by (apply Hu; left); apply IH; intros z Hz; apply Hu; right; done.
Qed.
Lemma entries_filter o c a l : (forall y, y ∈ l -> conaddr_of o y = a <-> y = c) ->
  List.filter (fun q => negb (has_addr a q)) (map (entry o) l) = map (entry o) (remove_node c l).
Proof.
  intros Hu; induction l as [|y l IH]; [done|]; rewrite remove_node_eq; cbn [map List.filter].
  unfold has_addr at 1; cbn [entry fst]; rewrite IH by (intros z Hz; apply Hu; right; done).
  destruct (Z.eqb_spec y c) as [->|Hn].
  - rewrite bool_decide_eq_true_2 by (apply Hu; [left | done]); done.
  - rewrite bool_decide_eq_false_2; [done|]; intros Hy; apply Hu in Hy; [done | left].
Qed.
Lemma entries_ext o o' l : (forall y, y ∈ l -> entry o' y = entry o y) -> map (entry o') l = map (entry o) l.
Proof.
  intros He; induction l as [|y l IH]; [done|]; cbn [map]; rewrite He by left; f_equal.
  apply IH; intros z Hz; apply He; right; done.
Qed.
Lemma lru_len o : core o -> Zlen (lru o) = num_connections o.
Proof. intros (_ & _ & _ & _ & -> & _); unfold lru, Zlen; rewrite length_map; done. Qed.

Definition dns_flags (is_dns : bool) : Z := if is_dns then UDPGW_CLIENT_FLAG_DNS else 0.

(** The connection that has address [a], if it did before the packet or not. *)
Definition submit_count (a : conaddr) (is_dns : bool) (data : list Z) o o' g : ghost :=
  match List.find (fun c => bool_decide (conaddr_of o' c = a)) (connections_list o') with
  | None => g
  | Some c =>
    match connections o !! c, g_flows g !! c with
    | Some x, Some fg =>
      let flags := if bool_decide (c_conaddr x = a) then dns_flags is_dns
                   else Z.lor (dns_flags is_dns) UDPGW_CLIENT_FLAG_REBIND in
      with_flow g c (accepts (c_send_ppflow x) fg (message a.2 (c_conid x) flags data))
    | _, _ => with_flow g c new_flow_ghost
    end
  end.

Lemma found_unique o a c l : (forall y, y ∈ l -> conaddr_of o y = a -> y = c) -> c ∈ l -> conaddr_of o c = a ->
  List.find (fun c => bool_decide (conaddr_of o c = a)) l = Some c.
Proof.
  intros Hu Hc Ha; induction l as [|y l IH]; [inversion Hc|]; cbn [List.find].
  destruct (decide (conaddr_of o y = a)) as [Hy|Hy].
  - rewrite bool_decide_eq_true_2 by done; rewrite (Hu y) by (left || done); done.
  - rewrite bool_decide_eq_false_2 by done; apply IH; [intros z Hz; apply Hu; right; done|].
    apply elem_of_cons in Hc as [->|]; done.
Qed.
Lemma found_none o a l : (forall y, y ∈ l -> conaddr_of o y <> a) ->
  List.find (fun c => bool_decide (conaddr_of o c = a)) l = None.
Proof.
  intros Hu; induction l as [|y l IH]; [done|]; cbn [List.find].
  rewrite bool_decide_eq_false_2 by (apply Hu; left); apply IH; intros z Hz; apply Hu; right; done.
Qed.
Lemma found_in o g a c : inv o g -> c ∈ connections_list o -> conaddr_of o c = a ->
  List.find (fun c => bool_decide (conaddr_of o c = a)) (connections_list o) = Some c.
Proof.
  intros Hinv Hc Ha; apply found_unique; [|done | done]; intros y Hy He.
  eapply addr_unique; [done | done | done | congruence].
Qed.

(** The packet goes to a connection [c] that existed: it is used last now. *)
Lemma sent_entries o o1 c x f : connections o1 !! c = Some x ->
  forall y, entry (put_con c (x <| c_send_ppflow := f |>) o1) y = entry o1 y.
Proof.
  intros Hx y; unfold entry, conaddr_of, conid_of; rewrite put_con_lookup; destruct (decide (y = c)) as [->|]; [rewrite Hx|]; done.
Qed.

(** What is assumed of a submitted packet and of the memory for a new connection. *)
Definition submit_ok o (a : conaddr) (new : option Z) (mem : option (list Z)) (data : list Z) : Prop :=
  conaddr_wf a /\ Zlen data <= udp_mtu o /\ (forall c, new = Some c -> connections o !! c = None) /\
  (forall m, mem = Some m -> Zlen m = 4 * ChunkBuffer.ChunkBuffer2_calc_blocks (enclen o) (send_buffer_size o)).

Lemma is_ip_wf a : baddr_wf a -> is_ip a = true.
Proof. destruct a; cbn; done. Qed.

(** The steps up to the choice of the connection. *)
Lemma submit_start o g new flow mem la ra dns data r : inv o g -> submit_ok o (la, ra) new mem data ->
  find_connection_by_conaddr (la, ra) o = Ok (r, o, []) ->
  UdpGwClient_SubmitPacket new flow mem la ra dns data (Zlen data) o =
  (reused ← (if is_null r && (num_connections o =? max_connections o) then
              c ← reuse_connection (la, ra); mret (Some c, Z.lor (dns_flags dns) UDPGW_CLIENT_FLAG_REBIND)
            else mret (r, dns_flags dns));
   let '(con, flags) := reused in
   match con with
   | None => connection_init new flow mem (la, ra) flags data (Zlen data)
   | Some c => move_to_end c;; connection_send c flags data (Zlen data)
   end) o.
Proof.
  intros Hinv ([Hl Hr] & Hd & _) Hf; cbn in Hl, Hr; pose proof (Zlen_nonneg data).
  unfold UdpGwClient_SubmitPacket; pstep; rewrite (is_ip_wf _ Hl); pstep; rewrite (is_ip_wf _ Hr); pstep.
  test_true (0 <=? Zlen data); pstep; test_true (Zlen data <=? udp_mtu o); pstep; pstep_by ltac:(exact Hf); done.
Qed.

Lemma con_flow o g c x : inv o g -> connections o !! c = Some x -> exists fg, g_flows g !! c = Some fg.
Proof. intros (_ & _ & Hcon & _) Hx; destruct (Hcon c x Hx) as (_ & _ & (fg & ? & _) & _); eauto. Qed.

Lemma submit_existing o g new flow mem la ra dns data c x fg : inv o g -> submit_ok o (la, ra) new mem data ->
  c ∈ connections_list o -> connections o !! c = Some x -> c_conaddr x = (la, ra) -> g_flows g !! c = Some fg ->
  exists f, let o' := put_con c (x <| c_send_ppflow := f |>) (moved c o) in
    UdpGwClient_SubmitPacket new flow mem la ra dns data (Zlen data) o = Ok (tt, o', []) /\
    inv o' (with_flow g c (accepts (c_send_ppflow x) fg (message ra (c_conid x) (dns_flags dns) data))).
Proof.
  intros Hinv Hok Hc Hx Ha Hfg; pose proof Hok as (Hwf & Hd & _).
  destruct (connection_send_eq c x fg (dns_flags dns) data (moved c o) g) as (f & Hs & Hi); [apply inv_moved; done | exact Hx || exact Hx1 | done | exact Hd |].
  rewrite Ha in Hi; exists f; cbv zeta; split; [|exact Hi].
  destruct (find_by_conaddr o g (la, ra) Hinv Hwf) as (r & Hf & Hr).
  assert (r = Some c) as ->.
  { destruct r as [y|]; [|destruct (Hr c Hc); rewrite (conaddr_of_eq _ _ _ Hx); done].
    destruct Hr as (z & Hy & Hz & Haz); f_equal; apply (addr_unique o g); [done | done | done|].
    rewrite (conaddr_of_eq _ _ _ Hx), (conaddr_of_eq _ _ _ Hz); congruence. }
  rewrite (submit_start o g _ _ _ _ _ _ _ _ Hinv Hok Hf); cbn [is_null andb]; pstep; pstep; exact Hs.
Qed.

Lemma submit_reused o g new flow mem la ra dns data c l x fg : inv o g -> submit_ok o (la, ra) new mem data ->
  (forall y, y ∈ connections_list o -> conaddr_of o y <> (la, ra)) -> num_connections o = max_connections o ->
  connections_list o = c :: l -> connections o !! c = Some x -> g_flows g !! c = Some fg ->
  exists t f, let o' := put_con c (x <| c_conaddr := (la, ra) |> <| c_send_ppflow := f |>) (moved c (readdressed c (la, ra) t x o)) in
    UdpGwClient_SubmitPacket new flow mem la ra dns data (Zlen data) o = Ok (tt, o', []) /\
    inv o' (with_flow g c (accepts (c_send_ppflow x) fg
      (message ra (c_conid x) (Z.lor (dns_flags dns) UDPGW_CLIENT_FLAG_REBIND) data))).
Proof.
  intros Hinv Hok Hno Hfull Hl Hx Hfg; pose proof Hok as (Hwf & Hd & _).
  destruct (reuse_eq o g (la, ra) c l x Hinv Hwf Hl Hx Hno) as (t & Hre & Hinv1).
  set (o1 := readdressed c (la, ra) t x o) in *.
  assert (connections o1 !! c = Some (x <| c_conaddr := (la, ra) |>)) as Hx1.
  { change (connections o1) with (connections (put_con c (x <| c_conaddr := (la, ra) |>) o)).
    rewrite put_con_lookup, decide_True; done. }
  assert (c ∈ connections_list o1) as Hc1 by (change (c ∈ connections_list o); rewrite Hl; left).
  destruct (connection_send_eq c (x <| c_conaddr := (la, ra) |>) fg (Z.lor (dns_flags dns) UDPGW_CLIENT_FLAG_REBIND) data (moved c o1) g)
    as (f & Hs & Hi); [apply inv_moved; done | exact Hx || exact Hx1 | done | exact Hd |].
  exists t, f; cbv zeta; split; [|exact Hi].
  destruct (find_by_conaddr o g (la, ra) Hinv Hwf) as (r & Hf & Hr).
  destruct r as [y|]; [destruct Hr as (z & Hy & Hz & Haz); destruct (Hno y Hy); rewrite (conaddr_of_eq _ _ _ Hz); done|].
  rewrite (submit_start o g _ _ _ _ _ _ _ _ Hinv Hok Hf); cbn [is_null andb]; test_true (num_connections o =? max_connections o).
  pstep_by ltac:(pstep_by ltac:(exact Hre); reflexivity); pstep; exact Hs.
Qed.

Lemma submit_new o g new flow mem la ra dns data : inv o g -> submit_ok o (la, ra) new mem data ->
  (forall y, y ∈ connections_list o -> conaddr_of o y <> (la, ra)) -> num_connections o <> max_connections o ->
  UdpGwClient_SubmitPacket new flow mem la ra dns data (Zlen data) o =
    connection_init new flow mem (la, ra) (dns_flags dns) data (Zlen data) o.
Proof.
  intros Hinv Hok Hno Hroom; pose proof Hok as (Hwf & _).
  destruct (find_by_conaddr o g (la, ra) Hinv Hwf) as (r & Hf & Hr).
  destruct r as [y|]; [destruct Hr as (z & Hy & Hz & Haz); destruct (Hno y Hy); rewrite (conaddr_of_eq _ _ _ Hz); done|].
  rewrite (submit_start o g _ _ _ _ _ _ _ _ Hinv Hok Hf); cbn [is_null andb].
  test_false (num_connections o =? max_connections o); pstep; done.
Qed.

(** ** The effect on the order of use *)

Lemma lru_existing o g c a o1 : inv o g -> c ∈ connections_list o -> conaddr_of o c = a ->
  connections_list o1 = remove_node c (connections_list o) ++ [c] -> (forall y, entry o1 y = entry o y) ->
  forall new, lru o1 = lru_submit (max_connections o) a new (lru o).
Proof.
  intros Hinv Hc Ha Hl He new; unfold lru_submit, lru; rewrite Hl, map_app.
  assert (forall y, y ∈ connections_list o -> conaddr_of o y = a -> y = c) as Hu.
  { intros y Hy Hya; apply (addr_unique o g); [done | done | done | congruence]. }
  rewrite (entries_find o c a) by done; rewrite (entries_filter o c a).
  - rewrite (entries_ext o o1) by auto; cbn [map]; rewrite He; done.
  - intros y Hy; split; [apply Hu; done | intros ->; done].
Qed.

Lemma lru_reused o g c l a o1 : inv o g -> connections_list o = c :: l -> num_connections o = max_connections o ->
  (forall y, y ∈ connections_list o -> conaddr_of o y <> a) ->
  connections_list o1 = remove_node c (connections_list o) ++ [c] ->
  (forall y, y <> c -> entry o1 y = entry o y) -> entry o1 c = (a, conid_of o c) ->
  forall new, lru o1 = lru_submit (max_connections o) a new (lru o).
Proof.
  intros Hinv Hl Hfull Hno Hl1 He Hec new; pose proof Hinv as (_ & Hcore & _); pose proof Hcore as (Hnd & _).
  rewrite Hl in Hnd; apply list.NoDup_cons in Hnd as [Hc Hnd].
  unfold lru_submit; rewrite (lru_len o Hcore), Hfull, Z.eqb_refl; unfold lru; rewrite (entries_absent o a) by done.
  rewrite Hl1, Hl, remove_node_cons by done; cbn [map]; rewrite map_app; cbn [map]; rewrite Hec.
  rewrite (entries_ext o o1); [done|]; intros y Hy; apply He; intros ->; done.
Qed.

Lemma lru_created o g c a i o1 : inv o g -> num_connections o <> max_connections o -> connections o !! c = None ->
  (forall y, y ∈ connections_list o -> conaddr_of o y <> a) ->
  connections_list o1 = connections_list o ++ [c] -> (forall y, y <> c -> entry o1 y = entry o y) -> entry o1 c = (a, i) ->
  lru o1 = lru_submit (max_connections o) a (Some i) (lru o).
Proof.
  intros Hinv Hroom Hnew Hno Hl1 He Hec; pose proof Hinv as (_ & Hcore & _); pose proof Hcore as (_ & Hdom & _).
  unfold lru_submit; rewrite (lru_len o Hcore); test_false (num_connections o =? max_connections o).
  unfold lru; rewrite (entries_absent o a) by done; rewrite Hl1, map_app; cbn [map]; rewrite Hec.
  rewrite (entries_ext o o1); [done|]; intros y Hy; apply He; intros ->; apply Hdom in Hy as [? Hy]; congruence.
Qed.

(** * Receiving a message *)

(** Identifier, address and payload of a message of sufficient length. *)
Definition parse (d : list Z) : option (Z * BAddr * list Z) :=
  if Zlen d <? sizeof_udpgw_header then None else
  let ipv6 := negb (Z.land (host_val (slice 0 1 d)) UDPGW_CLIENT_FLAG_IPV6 =? 0) in
  let size := if ipv6 then sizeof_udpgw_addr_ipv6 else sizeof_udpgw_addr_ipv4 in
  if Zlen d - sizeof_udpgw_header <? size then None else
  Some (host_val (slice 1 2 d),
        if ipv6 then BADDR_IPV6 (slice 3 16 d) (host_val (slice 19 2 d))
        else BADDR_IPV4 (host_val (slice 3 4 d)) (host_val (slice 7 2 d)),
        zdrop (sizeof_udpgw_header + size) d).

(** The connection a message is for, and its payload. *)
Definition received o (d : list Z) : option (Z * list Z) :=
  match parse d with
  | None => None
  | Some (conid, remote, payload) =>
    if udp_mtu o <? Zlen payload then None else
    match ot_lookup (fun c => uint16_comparator conid (conid_of o c)) (tree_by_conid o) with
    | None => None
    | Some c => if BAddr_CompareOrder (conaddr_of o c).2 remote =? 0 then Some (c, payload) else None
    end
  end.

Lemma load_ipv6_eq (d : list Z) off : 0 <= off -> off + 18 <= Zlen d ->
  load_ipv6 d off = Ok (BADDR_IPV6 (slice off 16 d) (host_val (slice (off + 16) 2 d))).
Proof.
  intros; unfold load_ipv6; rewrite !mem_read_ok by lia; unfold mbind, res_bind, BAddr_InitIPv6, BAddr_MakeIPv6.
  rewrite ztake_all; [done | rewrite Zlen_slice_gen by lia; lia].
Qed.
Lemma load_ipv4_eq (d : list Z) off : 0 <= off -> off + 6 <= Zlen d ->
  load_ipv4 d off = Ok (BADDR_IPV4 (host_val (slice off 4 d)) (host_val (slice (off + 4) 2 d))).
Proof. intros; unfold load_ipv4; rewrite !mem_read_ok by lia; done. Qed.


Lemma recv_eq o g d i : inv o g -> have_server o = true -> Zlen d <= udpgw_mtu o ->
  PPI.Done (recv_if o) = Ok (tt, i, []) ->
  recv_interface_handler_send d (Zlen d) o =
    match received o d with
    | Some (c, payload) => Ok (tt, moved c (put_recv_if i o), [HandlerReceived (conaddr_of o c).1 (conaddr_of o c).2 payload])
    | None => Ok (tt, put_recv_if i o, [])
    end.
Proof.
  intros Hinv Hs Hlen Hdone; pose proof Hinv as (_ & Hcore & _); pose proof (Zlen_nonneg d).
  unfold recv_interface_handler_send, received, parse; pstep; rewrite Hs; pstep; test_true (0 <=? Zlen d); pstep.
  test_true (Zlen d <=? udpgw_mtu o); pstep; pstep_by ltac:(apply run_on_nil; exact Hdone).
  destruct (Z.ltb_spec (Zlen d) sizeof_udpgw_header) as [|Hh]; [done|]; unfold sizeof_udpgw_header in *.
  pstep_by ltac:(unfold plift; rewrite mem_read_ok by lia; reflexivity).
  pstep_by ltac:(unfold plift; rewrite mem_read_ok by lia; reflexivity).
  change (ltoh8 (host_val (slice 0 1 d))) with (host_val (slice 0 1 d)).
  change (ltoh16 (host_val (slice 1 2 d))) with (host_val (slice 1 2 d)).
  set (ipv6 := negb (Z.land (host_val (slice 0 1 d)) UDPGW_CLIENT_FLAG_IPV6 =? 0)).
  set (size := if ipv6 then sizeof_udpgw_addr_ipv6 else sizeof_udpgw_addr_ipv4).
  destruct (Z.ltb_spec (Zlen d - 3) size) as [|Hsize]; [done|].
  set (remote := if ipv6 then BADDR_IPV6 (slice 3 16 d) (host_val (slice 19 2 d))
    else BADDR_IPV4 (host_val (slice 3 4 d)) (host_val (slice 7 2 d))).
  assert ((if ipv6 then load_ipv6 d 3 else load_ipv4 d 3) = Ok remote) as Hremote.
  { unfold size, remote, sizeof_udpgw_addr_ipv6, sizeof_udpgw_addr_ipv4 in *; destruct ipv6.
    - rewrite load_ipv6_eq by lia; done.
    - rewrite load_ipv4_eq by lia; done. }
  pstep_by ltac:(unfold plift; rewrite Hremote; reflexivity).
  assert (0 <= size) as Hsz by (unfold size, sizeof_udpgw_addr_ipv6, sizeof_udpgw_addr_ipv4; destruct ipv6; lia).
  assert (Zlen (zdrop (3 + size) d) = Zlen d - 3 - size) as Hpl by (rewrite Zlen_zdrop; lia).
  rewrite Hpl; destruct (udp_mtu o <? Zlen d - 3 - size); [done|].
  destruct (find_by_conid (put_recv_if i o) (host_val (slice 1 2 d)) Hcore) as (r & Hf & Hr).
  pstep_by ltac:(exact Hf); injection Hf as Hf; rewrite <- Hf in Hr.
  change (ot_lookup _ (tree_by_conid (put_recv_if i o))) with
    (ot_lookup (fun c => uint16_comparator (host_val (slice 1 2 d)) (conid_of o c)) (tree_by_conid o)) in *.
  rewrite <- Hf; destruct (ot_lookup _ _) as [c|]; [|done]; destruct Hr as (x & Hc & Hx & Hid).
  change (connections o !! c = Some x) in Hx; pstep_by ltac:(apply get_con_eq; exact Hx).
  rewrite (conaddr_of_eq _ _ _ Hx); destruct (BAddr_CompareOrder _ _ =? 0); cbn [negb]; [|done].
  pstep; pstep_by ltac:(unfold plift; rewrite mem_read_ok by lia; reflexivity).
  unfold pcall; do 3 f_equal; replace (Zlen d - 3 - size) with (Zlen d - (3 + size)) by lia.
  rewrite slice_rest, (conaddr_of_eq _ _ _ Hx) by lia; done.
Qed.

(** A message that [connection_send] wrote is parsed back; the flags other than the one for the
    kind of address are not looked at. *)
Lemma u16_host x : is_u16 x -> host_val (host_bytes 2 x) = x.
Proof. intros Hx; apply host_val_bytes_id; unfold is_u16 in Hx; change (256 ^ Z.of_nat 2) with 65536; lia. Qed.


Lemma ipv6_flag flags : is_u8 flags -> 0 <= Z.lor flags UDPGW_CLIENT_FLAG_IPV6 < 256 /\
  Z.land (Z.lor flags UDPGW_CLIENT_FLAG_IPV6) UDPGW_CLIENT_FLAG_IPV6 = 8.
Proof.
  unfold is_u8; change UDPGW_CLIENT_FLAG_IPV6 with 8; intros Hf; split; [split|].
  - apply Z.lor_nonneg; lia.
  - destruct (Z.eq_dec flags 0) as [->|]; [done|]; apply (Z.log2_lt_pow2 _ 8); [|].
    + destruct (Z.lt_total 0 (Z.lor flags 8)) as [|[E|]]; [done | | ].
      * symmetry in E; apply Z.lor_eq_0_iff in E; lia.
      * assert (0 <= Z.lor flags 8) by (apply Z.lor_nonneg; lia); lia.
    + rewrite Z.log2_lor by lia; assert (Z.log2 flags < 8) by (apply Z.log2_lt_pow2; lia).
      change (Z.log2 8) with 3; lia.
  - rewrite Z.land_lor_distr_l; change (Z.land 8 8) with 8.
    apply Z.bits_inj'; intros n Hn; rewrite Z.lor_spec, Z.land_spec; change 8 with (2 ^ 3).
    destruct (Z.eq_dec n 3) as [->|]; [rewrite Z.pow2_bits_true by lia; rewrite orb_true_r; done|].
    rewrite Z.pow2_bits_false, andb_false_r by lia; done.
Qed.

Lemma message_flags_ok remote flags : is_u8 flags -> Z.land flags UDPGW_CLIENT_FLAG_IPV6 = 0 ->
  is_u8 (message_flags remote flags) /\
  negb (Z.land (message_flags remote flags) UDPGW_CLIENT_FLAG_IPV6 =? 0) = (baddr_type remote =? BADDR_TYPE_IPV6).
Proof.
  intros Hf Hbit; unfold message_flags; destruct (_ =? _).
  - destruct (ipv6_flag flags Hf) as [Hb ->]; done.
  - rewrite Hbit; done.
Qed.

Lemma parse_message remote conid flags data : baddr_wf remote -> is_u16 conid -> is_u8 flags ->
  Z.land flags UDPGW_CLIENT_FLAG_IPV6 = 0 ->
  parse (message remote conid flags data) = Some (conid, remote, data).
Proof.
  intros Hr Hc Hf Hbit; destruct (message_flags_ok remote flags Hf Hbit) as [Hmf Hv6].
  unfold message, udpgw_header_bytes, parse; cbv zeta.
  change (ltoh8 (message_flags remote flags)) with (message_flags remote flags).
  change (ltoh16 conid) with conid; pose proof (Zlen_nonneg data); pose proof (addr_bytes_len remote Hr) as HL.
  set (fb := host_bytes 1 (message_flags remote flags)); set (cb := host_bytes 2 conid).
  assert (host_val fb = message_flags remote flags) as Hfv by (apply host_val_bytes_id; exact Hmf).
  assert (Zlen fb = 1) as Hfb by done; assert (Zlen cb = 2) as Hcb by done.
  rewrite <- app_assoc, !Zlen_app, Hfb, Hcb, HL; unfold sizeof_udpgw_header.
  assert (slice 0 1 (fb ++ cb ++ addr_bytes remote ++ data) = fb) as Hs0 by (apply (slice_at 0 1 []); done).
  assert (slice 1 2 (fb ++ cb ++ addr_bytes remote ++ data) = cb) as Hs1 by (apply slice_at; done).
  assert (host_val cb = conid) as Hcv by (apply u16_host; done); rewrite Hs0, Hs1, Hfv, Hv6, Hcv.
  destruct remote as [|ip port|ip port|]; try done; cbn [addr_bytes baddr_type] in *.
  - change (BADDR_TYPE_IPV4 =? BADDR_TYPE_IPV6) with false in *; cbv iota in *; unfold sizeof_udpgw_addr_ipv4 in *.
    test_false (1 + (2 + (6 + Zlen data)) <? 3); test_false (1 + (2 + (6 + Zlen data)) - 3 <? 6); destruct Hr as [Hip Hport].
    assert (slice 3 4 (fb ++ cb ++ (host_bytes 4 ip ++ host_bytes 2 port) ++ data) = host_bytes 4 ip) as ->.
    { rewrite <- app_assoc, (app_assoc fb); apply slice_at; done. }
    assert (slice 7 2 (fb ++ cb ++ (host_bytes 4 ip ++ host_bytes 2 port) ++ data) = host_bytes 2 port) as ->.
    { rewrite <- app_assoc, (app_assoc fb), (app_assoc (fb ++ cb)); apply slice_at; done. }
    rewrite u16_host, host_val_bytes_id by (done || exact Hip); done.
  - change (BADDR_TYPE_IPV6 =? BADDR_TYPE_IPV6) with true in *; cbv iota in *; unfold sizeof_udpgw_addr_ipv6 in *.
    test_false (1 + (2 + (18 + Zlen data)) <? 3); test_false (1 + (2 + (18 + Zlen data)) - 3 <? 18).
    destruct Hr as (_ & Hip & Hport); rewrite !(ztake_all 16) in * by lia.
    assert (slice 3 16 (fb ++ cb ++ (ip ++ host_bytes 2 port) ++ data) = ip) as ->.
    { rewrite <- app_assoc, (app_assoc fb); apply slice_at; done. }
    assert (slice 19 2 (fb ++ cb ++ (ip ++ host_bytes 2 port) ++ data) = host_bytes 2 port) as ->.
    { rewrite <- app_assoc, (app_assoc fb), (app_assoc (fb ++ cb)); apply slice_at; [rewrite !Zlen_app, Hip; done | done]. }
    rewrite u16_host by done; do 2 f_equal.
    rewrite (app_assoc cb), (app_assoc fb); apply zdrop_app_eq; rewrite !Zlen_app, Hip; done.
Qed.

Lemma host_slice_u n off len (d : list Z) : bytes_ok d -> len = Z.of_nat n -> 0 <= off -> off + len <= Zlen d ->
  0 <= host_val (slice off len d) < 256 ^ len.
Proof.
  intros Hd -> Ho Hl; pose proof (host_val_bound _ (bytes_ok_slice off (Z.of_nat n) d Hd)) as Hb.
  rewrite Zlen_slice_gen in Hb by lia; replace (Z.min _ _) with (Z.of_nat n) in Hb by lia; exact Hb.
Qed.

Lemma split_at3 (d : list Z) a b : 0 <= a -> 0 <= b -> 1 + a + b <= Zlen d ->
  d = slice 0 1 d ++ slice 1 a d ++ slice (1 + a) b d ++ zdrop (1 + a + b) d.
Proof.
  intros; rewrite <- (slice_rest d (1 + a + b)) by lia.
  rewrite <- !slice_split by lia; symmetry.
  replace (1 + (a + (b + (Zlen d - (1 + a + b))))) with (Zlen d) by lia; apply slice_all.
Qed.

(** Whatever parses is a message. *)
Lemma parse_sound d conid remote payload : bytes_ok d -> parse d = Some (conid, remote, payload) ->
  exists flags, is_u8 flags /\ is_u16 conid /\ baddr_wf remote /\ d = message remote conid flags payload.
Proof.
  intros Hd; unfold parse, sizeof_udpgw_header.
  destruct (Z.ltb_spec (Zlen d) 3) as [|Hh]; [discriminate|].
  set (f := host_val (slice 0 1 d)).
  pose proof (host_slice_u 1 0 1 d Hd eq_refl ltac:(lia) ltac:(lia)) as Hf; change (256 ^ 1) with 256 in Hf.
  pose proof (host_slice_u 2 1 2 d Hd eq_refl ltac:(lia) ltac:(lia)) as Hc; change (256 ^ 2) with 65536 in Hc.
  destruct (Z.eqb_spec (Z.land f UDPGW_CLIENT_FLAG_IPV6) 0) as [Hv|Hv]; cbn [negb];
    match goal with |- context [_ - 3 <? ?s] => destruct (Z.ltb_spec (Zlen d - 3) s) as [|Hs]; [discriminate|] end;
    unfold sizeof_udpgw_addr_ipv6, sizeof_udpgw_addr_ipv4 in *; intros [= <- <- <-]; exists f.
  - pose proof (host_slice_u 4 3 4 d Hd eq_refl ltac:(lia) ltac:(lia)) as Hip.
    pose proof (host_slice_u 2 7 2 d Hd eq_refl ltac:(lia) ltac:(lia)) as Hport.
    split; [exact Hf|]; split; [exact Hc|]; split; [split; [exact Hip | exact Hport]|].
    unfold message, message_flags, udpgw_header_bytes; cbn [baddr_type addr_bytes].
    change (BADDR_TYPE_IPV4 =? BADDR_TYPE_IPV6) with false; cbv iota.
    change (ltoh8 f) with f; unfold f; change (ltoh16 (host_val (slice 1 2 d))) with (host_val (slice 1 2 d)).
    rewrite !(host_bytes_slice) by (done || lia); rewrite <- !app_assoc.
    rewrite (split_at3 d 2 6) at 1 by lia; change (1 + 2) with 3; change (3 + 6) with 9.
    change 6 with (4 + 2); rewrite (slice_split 3 4 2), <- app_assoc by lia; done.
  - pose proof (host_slice_u 2 19 2 d Hd eq_refl ltac:(lia) ltac:(lia)) as Hport.
    split; [exact Hf|]; split; [exact Hc|]; split.
    { split; [apply bytes_ok_slice; done|]; split; [rewrite Zlen_slice_gen by lia; lia | exact Hport]. }
    unfold message, message_flags, udpgw_header_bytes; cbn [baddr_type addr_bytes].
    change (BADDR_TYPE_IPV6 =? BADDR_TYPE_IPV6) with true; cbv iota.
    assert (Z.lor f UDPGW_CLIENT_FLAG_IPV6 = f) as ->.
    { change UDPGW_CLIENT_FLAG_IPV6 with (2 ^ 3) in *; apply Z.bits_inj'; intros n Hn; rewrite Z.lor_spec.
      destruct (Z.eq_dec n 3) as [->|]; [|rewrite Z.pow2_bits_false, orb_false_r by lia; done].
      destruct (Z.testbit f 3) eqn:E; [done|]; destruct Hv; apply Z.bits_inj'; intros k Hk.
      rewrite Z.land_spec, Z.bits_0; destruct (Z.eq_dec k 3) as [->|]; [rewrite E; done|].
      rewrite Z.pow2_bits_false, andb_false_r by lia; done. }
    change (ltoh8 f) with f; unfold f; change (ltoh16 (host_val (slice 1 2 d))) with (host_val (slice 1 2 d)).
    rewrite (ztake_all 16) by (rewrite Zlen_slice_gen by lia; lia).
    rewrite !(host_bytes_slice) by (done || lia); rewrite <- !app_assoc.
    rewrite (split_at3 d 2 18) at 1 by lia; change (1 + 2) with 3; change (3 + 18) with 21.
    change 18 with (16 + 2); rewrite (slice_split 3 16 2), <- app_assoc by lia; done.
Qed.

(** * The client between its users, the server and the queue of jobs *)

(** The user of [recv_if] is the decoder. *)
Definition dispatch_recv (k : PPI.call) : gwp unit :=
  match k with
  | PPI.HandlerOperation d n => recv_interface_handler_send (default [] d) n
  | PPI.HandlerRequestCancel => passert false
  | PPI.HandlerDone => pcall DecoderOutputDone
  end.

Inductive event :=
| Submit (local_addr remote_addr : BAddr) (is_dns : bool) (data : list Z)
    (new : option Z) (flow : PPF.t) (mem : option (list Z))
| Flow (c : Z) (e : PPF.event) | FirstJob (c : Z) | Recv (e : PPI.event)
| DecoderError | Timer | Connect (decoder_ok : bool) | Disconnect.

Definition handle (e : event) : gwp unit :=
  match e with
  | Submit la ra dns data new flow mem => UdpGwClient_SubmitPacket new flow mem la ra dns data (Zlen data)
  | Flow c e => on_flow c (PPF.handle e)
  | FirstJob c => connection_first_job_handler c
  | Recv e => run_on recv_if put_recv_if (PPI.handle e) dispatch_recv
  | DecoderError => decoder_handler_error
  | Timer => send_monitor_handler
  | Connect ok => UdpGwClient_ConnectServer ok;; pskip
  | Disconnect => UdpGwClient_DisconnectServer
  end.

(** Connections are written to by the client only; what the decoder passes on is received whole. *)
Definition gw_enabled (e : event) o g : Prop :=
  match e with
  | Submit la ra _ data new _ mem => submit_ok o (la, ra) new mem data
  | Flow c e => exists x fg, connections o !! c = Some x /\ g_flows g !! c = Some fg /\
      (forall p, e <> PPF.Packet p) /\ PPF.enabled e (c_send_ppflow x) fg
  | FirstJob c => exists x, connections o !! c = Some x /\ c_first_job x = true
  | Recv e => have_server o = true /\ PPI.enabled e (recv_if o) (g_recv g) /\
      e <> PPI.ERequestCancel /\ e <> PPI.EDone
  | DecoderError | Disconnect => have_server o = true
  | Timer => True
  | Connect _ => have_server o = false
  end.

Definition count (e : event) o o' g : ghost :=
  match e with
  | Submit la ra dns data _ _ _ => submit_count (la, ra) dns data o o' g
  | Flow c e =>
    match connections o !! c, connections o' !! c, g_flows g !! c with
    | Some x, Some x', Some fg => with_flow g c (PPF.count e (c_send_ppflow x) (c_send_ppflow x') fg)
    | _, _, _ => g
    end
  | FirstJob c =>
    match connections o !! c, g_flows g !! c with
    | Some x, Some fg => with_flow g c (accepts (c_send_ppflow x) fg (message (c_conaddr x).2 (c_conid x)
        (Z.lor UDPGW_CLIENT_FLAG_REBIND (c_first_flags x)) (c_first_data x)))
    | _, _ => g
    end
  | Recv PPI.EOperation => mk_ghost (g_flows g) (PPI.count PPI.EDone (PPI.count PPI.EOperation (g_recv g)))
  | Recv e => mk_ghost (g_flows g) (PPI.count e (g_recv g))
  | Connect _ => mk_ghost (g_flows g) h0
  | DecoderError | Timer | Disconnect => g
  end.
Inductive gw_step : client T * ghost -> client T * ghost -> Prop :=
| gw_step_intro e o g o' calls : gw_enabled e o g -> handle e o = Ok (tt, o', calls) ->
    gw_step (o, g) (o', count e o o' g).

(** What the three ways to submit have in common. *)
Definition submit_result o g a is_dns data (new : option Z) (mem : option (list Z)) o' : Prop :=
  inv o' (submit_count a is_dns data o o' g) /\
  exists i, lru o' = lru_submit (max_connections o) a i (lru o) /\
    (forall j, i = Some j -> 0 <= j < max_connections o /\ j ∉ map snd (lru o)) /\
    (is_Some new -> is_Some mem -> a ∉ map fst (lru o) -> Zlen (lru o) <> max_connections o -> is_Some i).

Lemma lru_addr o a : core o -> (exists c, c ∈ connections_list o /\ conaddr_of o c = a) <-> a ∈ map fst (lru o).
Proof.
  intros _; unfold lru; rewrite map_map; split.
  - intros (c & Hc & <-); apply list_elem_of_fmap; exists c; done.
  - intros (c & -> & Hc)%list_elem_of_fmap; exists c; done.
Qed.
Lemma lru_conid o i : (forall c, c ∈ connections_list o -> conid_of o c <> i) -> i ∉ map snd (lru o).
Proof. intros Hno; unfold lru; rewrite map_map; intros (c & -> & Hc)%list_elem_of_fmap; apply (Hno c Hc); done. Qed.

Lemma submit_inv o g la ra dns data new flow mem : inv o g -> submit_ok o (la, ra) new mem data ->
  exists o' calls, UdpGwClient_SubmitPacket new flow mem la ra dns data (Zlen data) o = Ok (tt, o', calls) /\
    submit_result o g (la, ra) dns data new mem o'.
Proof.
  intros Hinv Hok; pose proof Hok as (Hwf & Hd & Hnew & Hmem); pose proof Hinv as (Hcfg & Hcore & _).
  pose proof Hcore as (_ & Hdom & _ & _ & Hnum & Hmaxn & _); pose proof Hcfg as (_ & _ & _ & _ & Hmc & _).
  destruct (find_by_conaddr o g (la, ra) Hinv Hwf) as (r & _ & Hr); destruct r as [c|].
  - destruct Hr as (x & Hc & Hx & Ha); destruct (con_flow o g c x Hinv Hx) as (fg & Hfg).
    destruct (submit_existing o g new flow mem la ra dns data c x fg) as (f & Hs & Hi); [done..|].
    set (o' := put_con c (x <| c_send_ppflow := f |>) (moved c o)) in *.
    assert (forall y, entry o' y = entry o y) as He by (apply (sent_entries o (moved c o)); done).
    assert (conaddr_of o c = (la, ra)) as Hac by (rewrite (conaddr_of_eq _ _ _ Hx); done).
    assert (c ∈ connections_list o') as Hc'.
    { change (c ∈ remove_node c (connections_list o) ++ [c]); apply elem_of_app; right; left. }
    assert (conaddr_of o' c = (la, ra)) as Hac' by (specialize (He c); injection He as -> _; done).
    exists o', []; split; [exact Hs|]; split.
    + unfold submit_count; rewrite (found_in o' _ _ c Hi Hc' Hac'), Hx, Hfg, bool_decide_eq_true_2 by done; exact Hi.
    + exists None; split; [apply (lru_existing o g c (la, ra) o'); done|]; split; [discriminate|].
      intros _ _ Hn; destruct Hn; apply lru_addr; eauto.
  - destruct (decide (num_connections o = max_connections o)) as [Hfull|Hroom].
    + destruct (connections_list o) as [|c l] eqn:El; [rewrite Zlen_nil in Hnum; lia|]; rewrite <- El in *.
      assert (c ∈ connections_list o) as Hc by (rewrite El; left); destruct (proj1 (Hdom c) Hc) as [x Hx].
      destruct (con_flow o g c x Hinv Hx) as (fg & Hfg).
      destruct (submit_reused o g new flow mem la ra dns data c l x fg) as (t & f & Hs & Hi); [done..|].
      set (o1 := moved c (readdressed c (la, ra) t x o)) in *.
      set (o' := put_con c (x <| c_conaddr := (la, ra) |> <| c_send_ppflow := f |>) o1) in *.
      assert (conaddr_of o' c = (la, ra) /\ conid_of o' c = conid_of o c) as [Hac' Hic].
      { unfold conaddr_of, conid_of, o'; rewrite put_con_lookup, decide_True, Hx by done; done. }
      assert (forall y, y <> c -> entry o' y = entry o y) as He.
      { intros y Hy; unfold entry, conaddr_of, conid_of, o'; rewrite put_con_lookup, decide_False by done.
        change (connections o1) with (connections (put_con c (x <| c_conaddr := (la, ra) |>) o)).
        rewrite put_con_lookup, decide_False; done. }
      assert (c ∈ connections_list o') as Hc'.
      { change (c ∈ remove_node c (connections_list o) ++ [c]); apply elem_of_app; right; left. }
      exists o', []; split; [exact Hs|]; split.
      * unfold submit_count; rewrite (found_in o' _ _ c Hi Hc' Hac'), Hx, Hfg, bool_decide_eq_false_2; [exact Hi|].
        intros Heq; apply (Hr c Hc); rewrite (conaddr_of_eq _ _ _ Hx); done.
      * exists None; split; [|split; [discriminate|]].
        { apply (lru_reused o g c l (la, ra) o'); try done; unfold entry; rewrite Hac', Hic; done. }
        intros _ _ _ Hl; destruct Hl; rewrite lru_len; done.
    + assert (num_connections o < max_connections o) as Hlt by lia.
      rewrite (submit_new o g new flow mem la ra dns data Hinv Hok Hr Hroom).
      assert (forall i calls, connection_init new flow mem (la, ra) (dns_flags dns) data (Zlen data) o = Ok (tt, set_next i o, calls) ->
        inv (set_next i o) g -> (is_Some new -> is_Some mem -> False) ->
        exists o' calls, connection_init new flow mem (la, ra) (dns_flags dns) data (Zlen data) o = Ok (tt, o', calls) /\
          submit_result o g (la, ra) dns data new mem o') as Hfailed.
      { intros i calls Hrun Hi Hno; exists (set_next i o), calls; split; [exact Hrun|]; split.
        - unfold submit_count; rewrite (found_none (set_next i o)); [exact Hi | exact Hr].
        - exists None; split; [|split; [discriminate | intros H1' H2'; destruct (Hno H1' H2')]].
          unfold lru_submit; rewrite lru_len by done; test_false (num_connections o =? max_connections o).
          unfold lru at 2; rewrite entries_absent by exact Hr; done. }
      assert (new = None \/ mem = None \/ exists c m, new = Some c /\ mem = Some m) as Hcases.
      { destruct new, mem; eauto 6. }
      assert (new = None \/ mem = None -> is_Some new -> is_Some mem -> False) as Hnone.
      { intros [-> | ->] Hn1 Hn2; [destruct Hn1 | destruct Hn2]; discriminate. }
      destruct Hcases as [Hn|[Hn|(c & m & -> & ->)]].
      * destruct (connection_init_fails o g new flow mem (la, ra) (dns_flags dns) data (or_introl Hn)) as (i & calls & Hrun & Hi);
          [done.. | apply (Hfailed i calls); auto].
      * destruct (connection_init_fails o g new flow mem (la, ra) (dns_flags dns) data (or_intror Hn)) as (i & calls & Hrun & Hi);
          [done.. | apply (Hfailed i calls); auto].
      * destruct (connection_init_eq o g c flow m (la, ra) (dns_flags dns) data) as (i & t1 & t2 & f & Hri & Hfree & Hrun & Hi); auto.
        set (x := mk_con (la, ra) (dns_flags dns) data (Zlen data) i true f) in *.
        set (o' := created c i t1 t2 x o) in *.
        assert (connections o !! c = None) as Hcn by auto.
        assert (forall y, y <> c -> entry o' y = entry o y) as He.
        { intros y Hy; unfold entry, conaddr_of, conid_of; change (connections o') with (connections (put_con c x o)).
          rewrite put_con_lookup, decide_False; done. }
        assert (entry o' c = ((la, ra), i)) as Hec.
        { unfold entry, conaddr_of, conid_of; change (connections o') with (connections (put_con c x o)).
          rewrite put_con_lookup, decide_True; done. }
        assert (c ∈ connections_list o') as Hc'.
        { change (c ∈ connections_list o ++ [c]); apply elem_of_app; right; left. }
        exists o', [QueueFlowInit c]; split; [exact Hrun|]; split.
        -- unfold submit_count; rewrite (found_in o' _ (la, ra) c Hi Hc'), Hcn; [exact Hi | injection Hec as -> _; done].
        -- exists (Some i); split; [apply (lru_created o g c (la, ra) i o'); done|]; split; [|eauto].
           intros j [= <-]; split; [done | apply lru_conid; exact Hfree].
Qed.

Lemma flow_event o g c e : inv o g -> gw_enabled (Flow c e) o g ->
  exists o' calls, handle (Flow c e) o = Ok (tt, o', calls) /\ inv o' (count (Flow c e) o o' g).
Proof.
  intros Hinv (x & fg & Hx & Hfg & _ & He); pose proof Hinv as (Hcfg & _ & Hcon & _).
  pose proof Hcfg as (Hu0 & Hum & Hmax & _ & _ & Hs & _).
  destruct (Hcon c x Hx) as (Hwf & Hid & (fg' & Hfg' & Hi) & Hjob); rewrite Hfg in Hfg'; injection Hfg' as <-.
  assert (0 <= udpgw_mtu o <= PACKETPROTO_MAXPAYLOAD) as Hm by lia.
  destruct (PPF.ppf_inv_step (udpgw_mtu o) (send_buffer_size o) Hm e (c_send_ppflow x) fg Hi He) as (f & ks & Hf & Hi').
  exists (put_con c (x <| c_send_ppflow := f |>) o), (map (FlowCall c) ks); split.
  - cbn [handle]; unfold on_flow; rewrite Hx, Hf; done.
  - cbn [count]; rewrite put_con_lookup, decide_True, Hx, Hfg by done.
    eapply inv_put_con; [done | done | done | done |]; split; [exact Hwf|]; split; [exact Hid|].
    split; [eexists; split; [apply lookup_insert_eq | exact Hi'] | exact Hjob].
Qed.

Lemma first_job_event o g c : inv o g -> gw_enabled (FirstJob c) o g ->
  exists o' calls, handle (FirstJob c) o = Ok (tt, o', calls) /\ inv o' (count (FirstJob c) o o' g).
Proof.
  intros Hinv (x & Hx & Hjob); destruct (con_flow o g c x Hinv Hx) as (fg & Hfg).
  pose proof Hinv as (_ & _ & Hcon & _); destruct (Hcon c x Hx) as (Hwf & Hid & (fg' & Hfg' & Hi) & Hd).
  destruct (Hd Hjob) as [Hn Hlen]; rewrite Hfg in Hfg'; injection Hfg' as <-.
  set (x1 := x <| c_first_job := false |>).
  assert (inv (put_con c x1 o) (with_flow g c fg)) as Hinv1.
  { eapply inv_put_con; [done | done | done | done |]; split; [exact Hwf|]; split; [exact Hid|].
    split; [exists fg; split; [apply lookup_insert_eq | exact Hi] | discriminate]. }
  destruct (connection_send_eq c x1 fg (Z.lor UDPGW_CLIENT_FLAG_REBIND (c_first_flags x)) (c_first_data x) (put_con c x1 o) (with_flow g c fg))
    as (f & Hsend & Hi2); [exact Hinv1 | rewrite put_con_lookup, decide_True; done | apply lookup_insert_eq | exact Hlen |].
  eexists _, []; split.
  - cbn [handle]; unfold connection_first_job_handler; pstep_by ltac:(apply (mod_con_eq c x); exact Hx).
    pstep_by ltac:(apply (get_con_eq c x1); apply lookup_insert_eq).
    change (c_first_data_len x1) with (c_first_data_len x); rewrite Hn; exact Hsend.
  - cbn [count]; rewrite Hx, Hfg; revert Hi2; unfold with_flow; cbn [g_flows g_recv]; rewrite insert_insert_eq; intros Hi2; exact Hi2.
Qed.

Lemma put_recv_inv o g i h b : inv o g -> (b = true -> PPI.inv i h /\ PPI.mtu i = udpgw_mtu o /\ PPI.has_requestcancel i = false) ->
  have_server o = b -> inv (put_recv_if i o) (mk_ghost (g_flows g) h).
Proof. intros (Hcfg & Hcore & Hcon & _) Hi Hb; split; [exact Hcfg|]; split; [exact Hcore|]; split; [exact Hcon | rewrite <- Hb in Hi; exact Hi]. Qed.

Lemma recv_event o g e : inv o g -> gw_enabled (Recv e) o g ->
  exists o' calls, handle (Recv e) o = Ok (tt, o', calls) /\ inv o' (count (Recv e) o o' g) /\
    (e = PPI.EOperation -> forall d, PPI.job_operation_data (recv_if o) = Some d ->
       match received o d with
       | Some (c, payload) => c ∈ connections_list o /\ lru o' = lru (moved c o) /\
           calls = [HandlerReceived (conaddr_of o c).1 (conaddr_of o c).2 payload]
       | None => lru o' = lru o /\ calls = []
       end).
Proof.
  intros Hinv (Hs & He & Hnc & Hnd); pose proof Hinv as (_ & Hcore & _ & Hrecv); destruct (Hrecv Hs) as (Hi & Hm & Hrc).
  destruct (PPI.ppi_inv_step e _ _ Hi He) as (i & Hop & Hi' & Him & Hirc).
  assert (inv (put_recv_if i o) (mk_ghost (g_flows g) (PPI.count e (g_recv g)))) as Hinv1.
  { eapply put_recv_inv; [done | | done]; intros _; split; [done|]; split; congruence. }
  destruct e as [d| | | | |]; [| done | done | | destruct (PPI.inv_cancel _ _ Hi He); congruence |]; cbn [PPI.calls_of] in Hop.
  - exists (put_recv_if i o), []; split; [apply run_on_nil; exact Hop|]; split; [exact Hinv1 | discriminate].
  - destruct (PPI.inv_operation _ _ Hi He) as (d & Hd & Hn & Hlen & Hrf & _); rewrite Hd, Hn in Hop; rewrite Hm in Hlen.
    destruct (PPI.ppi_inv_step PPI.EDone _ _ Hi') as (i2 & Hdone & Hi2 & Him2 & Hirc2); [unfold PPI.enabled, provider_busy; cbn; lia|].
    assert (inv (put_recv_if i2 o) (count (Recv PPI.EOperation) o o g)) as Hinv2.
    { eapply put_recv_inv; [done | | done]; intros _; split; [done|]; split; congruence. }
    pose proof (recv_eq (put_recv_if i o) _ d i2 Hinv1 Hs Hlen Hdone) as Hr.
    change (received (put_recv_if i o) d) with (received o d) in Hr.
    assert (handle (Recv PPI.EOperation) o = recv_interface_handler_send d (Zlen d) (put_recv_if i o)) as Hrun.
    { etransitivity; [apply run_on_one; exact Hop | reflexivity]. }
    rewrite Hrun, Hr; destruct (received o d) as [[c p]|] eqn:Er.
    + assert (c ∈ connections_list o) as Hc.
      { unfold received in Er; destruct (parse d) as [[[ci ra] pl]|]; [|discriminate].
        destruct (_ <? _); [discriminate|]; destruct (find_by_conid o ci Hcore) as (r & Hf & Hr'); injection Hf as <-.
        destruct (ot_lookup _ _) as [c'|]; [|discriminate]; destruct (_ =? 0); [|discriminate]; injection Er as <- <-.
        destruct Hr' as (x & Hc & _); done. }
      eexists _, _; split; [reflexivity|]; split; [apply inv_moved; [exact Hinv2 | exact Hc]|].
      intros _ d' Hd'; assert (d' = d) as -> by congruence; rewrite Er; done.
    + eexists _, _; split; [reflexivity|]; split; [exact Hinv2|].
      intros _ d' Hd'; assert (d' = d) as -> by congruence; rewrite Er; done.
  - exists (put_recv_if i o), [DecoderOutputDone]; split; [etransitivity; [apply run_on_one; exact Hop | reflexivity]|].
    split; [exact Hinv1 | discriminate].
Qed.

(** Connecting and disconnecting change the interface to the decoder alone. *)
Definition connected_to (ok : bool) (i : PPI.t) o : client T := put_recv_if i o <| have_server := ok |>.
Lemma connect_eq o g ok : inv o g -> have_server o = false -> exists i,
  UdpGwClient_ConnectServer ok o = Ok (ok, connected_to ok i o, if ok then [SenderInit (pp_mtu o); ConnectorConnectOutput] else []) /\
  inv (connected_to ok i o) (mk_ghost (g_flows g) h0).
Proof.
  intros Hinv Hs; pose proof Hinv as (Hcfg & Hcore & Hcon & _); pose proof Hcfg as (Hu0 & Hum & _).
  set (i1 := queue_input (udpgw_mtu o) (recv_if o)).
  assert (PPI.Init (udpgw_mtu o) (recv_if o) = Ok (tt, i1, [])) as Hinit by (apply PPI.ppi_Init_eq; lia).
  exists (if ok then i1 <| PPI.has_done := true |> else i1); split.
  - unfold UdpGwClient_ConnectServer; pstep; rewrite Hs; pstep; pstep_by ltac:(apply run_on_nil; exact Hinit); destruct ok; cbn [negb].
    + pstep_by ltac:(apply run_on_nil; apply (PPI.ppi_Sender_Init_eq i1); done); done.
    + destruct o; cbn in Hs |- *; subst; done.
  - split; [exact Hcfg|]; split; [exact Hcore|]; split; [exact Hcon|]; intros Hok; change (ok = true) in Hok; subst ok.
    split; [|done]; split; [done|]; split; [intros _ Hc; destruct Hc; done | done].
Qed.
Lemma disconnect_eq o g : inv o g -> have_server o = true ->
  UdpGwClient_DisconnectServer o = Ok (tt, connected_to false (recv_if o) o, [ConnectorDisconnectOutput; SenderFree; DecoderFree]) /\
  inv (connected_to false (recv_if o) o) g.
Proof.
  intros (Hcfg & Hcore & Hcon & _) Hs; split.
  - unfold UdpGwClient_DisconnectServer; pstep; rewrite Hs; pstep; done.
  - split; [exact Hcfg|]; split; [exact Hcore|]; split; [exact Hcon | discriminate].
Qed.

Lemma gw_inv_step e o g : inv o g -> gw_enabled e o g ->
  exists o' calls, handle e o = Ok (tt, o', calls) /\ inv o' (count e o o' g).
Proof.
  intros Hinv He; destruct e as [la ra dns data new flow mem|c e|c|e| | |ok|].
  - destruct (submit_inv o g la ra dns data new flow mem Hinv He) as (o' & calls & Hs & Hi & _); eauto.
  - apply flow_event; done.
  - apply first_job_event; done.
  - destruct (recv_event o g e Hinv He) as (o' & calls & Hr & Hi & _); eauto.
  - exists o, [HandlerServerError]; split; [|done]; cbn [gw_enabled] in He.
    cbn [handle]; unfold decoder_handler_error; pstep; rewrite He; pstep; done.
  - exists o, []; done.
  - destruct (connect_eq o g ok Hinv He) as (i & Hc & Hi); exists (connected_to ok i o), (if ok then [SenderInit (pp_mtu o); ConnectorConnectOutput] else []).
    split; [|exact Hi]; cbn [handle]; unfold mbind, prog_bind; rewrite Hc; destruct ok; done.
  - destruct (disconnect_eq o g Hinv He) as [Hd Hi]; eauto.
Qed.

(** ** Setting the client up and freeing it *)

Definition g_init : ghost := mk_ghost ∅ h0.
Definition setup_ok (mtu max buffer : Z) : Prop :=
  0 <= mtu <= INT_MAX /\ 0 <= udpgw_compute_mtu mtu <= PACKETPROTO_MAXPAYLOAD /\ 0 < max /\ 0 < buffer /\
  buffer_ok (udpgw_compute_mtu mtu) buffer.

Lemma gw_init_inv o mtu max buffer keepalive i : connections o = ∅ -> setup_ok mtu max buffer ->
  exists o0 calls, UdpGwClient_Init mtu max buffer keepalive true i o = Ok (true, o0, calls) /\ inv o0 g_init /\
    max_connections o0 = Z.min max 65536 /\ lru o0 = [] /\ have_server o0 = false.
Proof.
  intros Hempty (Hm & Hum & Hmax & Hbuf & Hbok).
  assert (udpgw_compute_mtu mtu = 21 + mtu) as Hsum.
  { rewrite udpgw_mtu_sum in * by lia; destruct (_ <=? _); lia. }
  set (m' := if UINT16_MAX + 1 <? max then UINT16_MAX + 1 else max).
  assert (m' = Z.min max 65536) as Hm' by (unfold m', UINT16_MAX; destruct (Z.ltb_spec (65535 + 1) max); lia).
  set (k := (queue_input (udpgw_compute_mtu mtu + sizeof_packetproto_header) i) <| PPI.has_done := true |>).
  set (o0 := mk_client mtu m' buffer keepalive (udpgw_compute_mtu mtu) (udpgw_compute_mtu mtu + sizeof_packetproto_header)
    ot_empty ot_empty [] 0 0 (host_bytes 2 sizeof_udpgw_header ++ [UDPGW_CLIENT_FLAG_KEEPALIVE; 0; 0]) k false false (recv_if o) ∅).
  exists o0; eexists; split; [|split; [|split; [exact Hm' | done]]].
  - unfold UdpGwClient_Init; test_true (0 <=? mtu); pstep; test_true (0 <=? udpgw_compute_mtu mtu); pstep.
    test_true (udpgw_compute_mtu mtu <=? PACKETPROTO_MAXPAYLOAD); pstep; test_true (0 <? max); pstep; test_true (0 <? buffer); pstep.
    pstep; pstep; pstep; pstep; pstep; pstep.
    eapply pbind_calls; [reflexivity|]; eapply pbind_calls; [reflexivity|]; eapply pbind_calls; [reflexivity|]; cbn [negb].
    pstep; eapply pbind_calls; [reflexivity|]; cbv beta.
    match goal with |- context [PPI.Init ?x i] => change x with (udpgw_compute_mtu mtu + sizeof_packetproto_header) end.
    rewrite (PPI.ppi_Init_eq i) by (unfold sizeof_packetproto_header; lia); pstep.
    pstep_by ltac:(apply run_on_nil; apply PPI.ppi_Sender_Init_eq; done); pstep.
    unfold mret, prog_ret, o0, m'; destruct o; cbn in Hempty; subst; done.
  - split; [|split; [|split]].
    + split; [cbn; lia|]; split; [exact Hsum|]; split; [cbn; lia|]; split; [cbn; unfold enclen, PACKETPROTO_ENCLEN; cbn; lia|].
      split; [cbn; lia|]; split; [cbn; lia | exact Hbok].
    + split; [constructor|]; split.
      { intros c; change (c ∈ [] <-> is_Some ((∅ : gmap Z connection) !! c)); rewrite lookup_empty.
        split; [intros Hc; inversion Hc | intros [? [=]]]. }
      change (tree_by_conaddr o0) with (ot_empty : T); change (tree_by_conid o0) with (ot_empty : T); rewrite !ot_empty_elements.
      split; [done|]; split; [done|]; split; [done|]; split; [cbn; lia|]; split; [cbn; lia|]; split; constructor.
    + intros c x Hx; change ((∅ : gmap Z connection) !! c = Some x) in Hx; rewrite lookup_empty in Hx; done.
    + discriminate.
Qed.

Lemma gw_inv_reachable o g o' g' : inv o g -> star gw_step (o, g) (o', g') -> inv o' g'.
Proof.
  intros Hinv Hs.
  refine (star_invariant gw_step (fun p => inv (fst p) (snd p)) _ (o, g) (o', g') Hs Hinv).
  intros [a ga] [b gb] Ha Hab; inversion Hab; subst; cbn in *.
  destruct (gw_inv_step e a ga Ha) as (b' & ks & Hb & Hinv'); [done|].
  assert (b = b') as -> by congruence; done.
Qed.

Lemma conid_unique o c y : core o -> c ∈ connections_list o -> y ∈ connections_list o ->
  conid_of o y = conid_of o c -> y = c.
Proof.
  intros (_ & _ & _ & Hti & _ & _ & _ & _ & Hoi) Hc Hy He.
  apply (in_order_by _ _ uint16_comparator_ok (conid_of o) (ot_elements (tree_by_conid o))); rewrite ?Hti; auto.
Qed.

Lemma CompareOrder_zero a b : baddr_wf a -> baddr_wf b -> (BAddr_CompareOrder a b = 0 <-> a = b).
Proof.
  intros Ha Hb; destruct (BAddr_CompareOrder_key a b Ha Hb) as [_ ->]; split; [|intros ->; apply memcmp_refl].
  intros E; apply memcmp_eq in E; [apply baddr_key_inj; done | rewrite !baddr_key_length; done].
Qed.

Lemma received_sound o g d c payload : inv o g -> bytes_ok d -> received o d = Some (c, payload) ->
  exists x flags, c ∈ connections_list o /\ connections o !! c = Some x /\ is_u8 flags /\
    Zlen payload <= udp_mtu o /\ d = message (c_conaddr x).2 (c_conid x) flags payload.
Proof.
  intros Hinv Hd Hr; pose proof Hinv as (_ & Hcore & Hcon & _); unfold received in Hr.
  destruct (parse d) as [[[conid remote] pl]|] eqn:Ep; [|discriminate].
  destruct (parse_sound d conid remote pl Hd Ep) as (flags & Hf & Hc & Hra & Hmsg).
  destruct (Z.ltb_spec (udp_mtu o) (Zlen pl)); [discriminate|].
  destruct (find_by_conid o conid Hcore) as (r & Hfind & Hr'); injection Hfind as <-.
  destruct (ot_lookup _ _) as [c'|]; [|discriminate]; destruct Hr' as (x & Hcl & Hx & Hid).
  rewrite (conaddr_of_eq _ _ _ Hx) in Hr; destruct (Z.eqb_spec (BAddr_CompareOrder (c_conaddr x).2 remote) 0) as [Hz|]; [|discriminate].
  injection Hr as <- <-; destruct (Hcon c' x Hx) as ([_ Hwf] & _).
  apply CompareOrder_zero in Hz; [|done | done]; exists x, flags; rewrite Hz, Hid; done.
Qed.

Lemma received_complete o g c x flags payload : inv o g -> c ∈ connections_list o -> connections o !! c = Some x ->
  is_u8 flags -> Z.land flags UDPGW_CLIENT_FLAG_IPV6 = 0 -> Zlen payload <= udp_mtu o ->
  received o (message (c_conaddr x).2 (c_conid x) flags payload) = Some (c, payload).
Proof.
  intros Hinv Hc Hx Hf Hbit Hlen; pose proof Hinv as (Hcfg & Hcore & Hcon & _).
  destruct (Hcon c x Hx) as ([_ Hwf] & Hid & _); pose proof Hcfg as (_ & _ & _ & _ & Hmc & _).
  unfold received; rewrite parse_message by (done || (unfold is_u16; lia)); test_false (udp_mtu o <? Zlen payload).
  destruct (find_by_conid o (c_conid x) Hcore) as (r & Hfind & Hr'); injection Hfind as <-.
  destruct (ot_lookup _ _) as [c'|].
  - destruct Hr' as (x' & Hc' & Hx' & Hid').
    assert (c' = c) as -> by (apply (conid_unique o); [done | done | done|]; rewrite (conid_of_eq _ _ _ Hx), (conid_of_eq _ _ _ Hx'); done).
    rewrite (conaddr_of_eq _ _ _ Hx), (proj2 (CompareOrder_zero _ _ Hwf Hwf) eq_refl); done.
  - destruct (Hr' c Hc); rewrite (conid_of_eq _ _ _ Hx); done.
Qed.

(** Freeing the connections, the one used least recently first. *)
Definition empties o : Prop := connections_list o = [] /\ connections o = ∅.

Lemma free_all fuel o : NoDup (connections_list o) -> (forall c, is_Some (connections o !! c) -> c ∈ connections_list o) ->
  (length (connections_list o) < fuel)%nat ->
  exists o' calls, free_connections fuel o = Ok (tt, o', calls) /\ empties o' /\ have_server o' = have_server o.
Proof.
  revert o; induction fuel as [|fuel IH]; intros o Hnd Hdom Hf; [lia|].
  cbn [free_connections]; destruct (connections_list o) as [|c l] eqn:El.
  - exists o, []; split; [pstep; rewrite El; done|]; split; [|done]; split; [done|].
    apply map_eq; intros c; rewrite lookup_empty; destruct (connections o !! c) eqn:E; [|done].
    assert (c ∈ []) as Hc by (apply Hdom; eauto); inversion Hc.
  - set (o1 := o <| num_connections ::= Z.add (-1) |> <| connections_list ::= remove_node c |> <| tree_by_conid ::= ot_remove c |>
      <| tree_by_conaddr ::= ot_remove c |> <| connections ::= delete c |>).
    apply list.NoDup_cons in Hnd as [Hc Hnd].
    assert (connections_list o1 = l) as Hl1.
    { change (remove_node c (connections_list o) = l); rewrite El, remove_node_cons; done. }
    destruct (IH o1) as (o' & calls & Hrun & He & Hs).
    { rewrite Hl1; done. }
    { intros y Hy; change (is_Some (delete c (connections o) !! y)) in Hy; rewrite Hl1.
      destruct (decide (y = c)) as [->|Hn]; [rewrite lookup_delete_eq in Hy; destruct Hy; done|].
      rewrite lookup_delete_ne in Hy by done; apply Hdom in Hy; apply elem_of_cons in Hy as [|]; done. }
    { rewrite Hl1; cbn in Hf; lia. }
    exists o', ([QueueFlowAssertFree c; QueueFlowFree c] ++ calls); split; [|split; [exact He | exact Hs]].
    pstep; rewrite El; cbn [head]; eapply pbind_calls; [|exact Hrun]; reflexivity.
Qed.

Lemma client_free o g : inv o g -> exists o' calls, UdpGwClient_Free o = Ok (tt, o', calls) /\ empties o'.
Proof.
  intros (_ & (Hnd & Hdom & _) & _).
  destruct (free_all (S (length (connections_list o))) o) as (o' & calls & Hf & He & Hs);
    [done | intros c Hc; apply Hdom; done | lia |].
  assert (exists ks, (if have_server o then free_server else pskip) o' = Ok (tt, o', ks)) as [ks Hk].
  { destruct (have_server o); eexists; reflexivity. }
  exists o'; eexists; split; [|exact He]; unfold UdpGwClient_Free.
  eapply pbind_calls; [reflexivity|]; pstep; eapply pbind_calls; [exact Hf|].
  eapply pbind_calls; [exact Hk | reflexivity].
Qed.

(** * The theorems *)

(** The client was set up on memory [o] and has come to state [o'] with histories [g']. *)
Definition client_reaches (mtu max buffer keepalive : Z) (i : PPI.t) o o' g' : Prop :=
  exists o0 calls, UdpGwClient_Init mtu max buffer keepalive true i o = Ok (true, o0, calls) /\
    star gw_step (o0, g_init) (o', g').

Lemma client_reaches_inv mtu max buffer keepalive i o o' g' : connections o = ∅ -> setup_ok mtu max buffer ->
  client_reaches mtu max buffer keepalive i o o' g' -> inv o' g'.
Proof.
  intros Hempty Hok (o0 & calls & Hinit & Hs).
  destruct (gw_init_inv o mtu max buffer keepalive i Hempty Hok) as (o1 & calls1 & Hinit1 & Hi & _).
  apply (gw_inv_reachable o1 g_init); [done|]; assert (o1 = o0) as -> by congruence; done.
Qed.

(** C15: Whatever users submit, servers send and the queue of jobs runs, no assertion of the client
    fails, no search for an identifier goes on forever and no write leaves a flow's buffer; the
    connections have different addresses and different identifiers below the limit; and the
    client can be freed at any time. *)
Theorem UdpGwClient_safe mtu max buffer keepalive i o o' g' : connections o = ∅ -> setup_ok mtu max buffer ->
  client_reaches mtu max buffer keepalive i o o' g' ->
  (forall e, gw_enabled e o' g' -> exists o2 calls, handle e o' = Ok (tt, o2, calls)) /\
  NoDup (map fst (lru o')) /\ NoDup (map snd (lru o')) /\ Zlen (lru o') <= max_connections o' <= 65536 /\
  (forall i, i ∈ map snd (lru o') -> 0 <= i < max_connections o') /\
  (exists o2 calls, UdpGwClient_Free o' = Ok (tt, o2, calls) /\ empties o2).
Proof.
  intros Hempty Hok Hr; pose proof (client_reaches_inv _ _ _ _ _ _ _ _ Hempty Hok Hr) as Hinv.
  pose proof Hinv as (Hcfg & Hcore & Hcon & _); pose proof Hcore as (Hnd & Hdom & _ & _ & _ & Hmax & _).
  split; [|split; [|split; [|split; [|split]]]].
  - intros e He; destruct (gw_inv_step e o' g' Hinv He) as (o2 & calls & H2 & _); eauto.
  - unfold lru; rewrite map_map; apply NoDup_fmap_2_strong; [|done]; intros x y Hx Hy He.
    apply (addr_unique o' g'); done.
  - unfold lru; rewrite map_map; apply NoDup_fmap_2_strong; [|done]; intros x y Hx Hy He.
    apply (conid_unique o'); done.
  - rewrite lru_len by done; destruct Hcfg as (_ & _ & _ & _ & ? & _); lia.
  - unfold lru; rewrite map_map; intros j (c & -> & Hc)%list_elem_of_fmap; cbn [entry snd].
    apply Hdom in Hc as [x Hx]; rewrite (conid_of_eq _ _ _ Hx); apply (Hcon c x Hx).
  - apply (client_free o' g'); done.
Qed.


(** C25: A message from the server reaches the user exactly when it is one that could have been sent
    on a live connection, with the connection's addresses and the whole payload; it makes the
    connection the one used last. Anything else is dropped. *)
Theorem UdpGwClient_receives mtu max buffer keepalive i o o' g' d :
  connections o = ∅ -> setup_ok mtu max buffer -> client_reaches mtu max buffer keepalive i o o' g' ->
  gw_enabled (Recv PPI.EOperation) o' g' -> PPI.job_operation_data (recv_if o') = Some d -> bytes_ok d ->
  exists o2 calls, handle (Recv PPI.EOperation) o' = Ok (tt, o2, calls) /\
    (calls = [] /\ lru o2 = lru o' \/
     exists c x flags payload, connections o' !! c = Some x /\ d = message (c_conaddr x).2 (c_conid x) flags payload /\
       calls = [HandlerReceived (c_conaddr x).1 (c_conaddr x).2 payload] /\ lru o2 = lru (moved c o')) /\
    (forall c x flags payload, c ∈ connections_list o' -> connections o' !! c = Some x -> is_u8 flags ->
       Z.land flags UDPGW_CLIENT_FLAG_IPV6 = 0 -> Zlen payload <= udp_mtu o' ->
       d = message (c_conaddr x).2 (c_conid x) flags payload ->
       calls = [HandlerReceived (c_conaddr x).1 (c_conaddr x).2 payload]).
Proof.
  intros Hempty Hset Hr Hen Hd Hb; pose proof (client_reaches_inv _ _ _ _ _ _ _ _ Hempty Hset Hr) as Hinv.
  destruct (recv_event o' g' _ Hinv Hen) as (o2 & calls & Hrun & _ & Hres); specialize (Hres eq_refl d Hd).
  exists o2, calls; split; [exact Hrun|]; split.
  - destruct (received o' d) as [[c payload]|] eqn:Er; [|left; tauto]; right.
    destruct (received_sound o' g' d c payload Hinv Hb Er) as (x & flags & Hc & Hx & _ & _ & Hmsg).
    rewrite (conaddr_of_eq _ _ _ Hx) in Hres; destruct Hres as (_ & Hl & Hcalls); exists c, x, flags, payload; done.
  - intros c x flags payload Hc Hx Hf Hbit Hlen ->.
    rewrite (received_complete o' g' c x flags payload Hinv Hc Hx Hf Hbit Hlen), (conaddr_of_eq _ _ _ Hx) in Hres; tauto.
Qed.
End lookups.

(** * A run: one connection, which the server answers *)

Section example.
Let C : Type := client avl_tree.
#[local] Existing Instance arm64.

Definition blank_if : PPI.t := PPI.mk 0 false false false None 0 false false ST_NONE false.
Definition blank : C :=
  mk_client 0 0 0 0 0 0 ot_empty ot_empty [] 0 0 [] blank_if false false blank_if ∅.
Definition example_init : C :=
  match UdpGwClient_Init 10 1 2 0 true blank_if blank with Ok (_, o, _) => o | Err _ => blank end.
Definition after (p : C * ghost) (e : event) : C * ghost :=
  match handle e (fst p) with Ok (_, o, _) => (o, count e (fst p) o (snd p)) | Err _ => p end.
Definition example_run (es : list event) : C * ghost := fold_left after es (example_init, g_init).

Definition example_mem : list Z :=
  replicate (Z.to_nat (4 * ChunkBuffer.ChunkBuffer2_calc_blocks (PACKETPROTO_ENCLEN 31) 2)) 0.
Definition dns_server : BAddr := BADDR_IPV4 134744072 13568.
Definition user (port : Z) : BAddr := BADDR_IPV4 16777226 port.
Definition query (port : Z) : event := Submit (user port) dns_server true [1; 2; 3] (Some port) PPF.sample (Some example_mem).
Definition asked : list event := [Connect true; query 5].
Definition answered : list event := asked ++ [Recv (PPI.ESend (message dns_server 0 0 [4; 5]))].

Lemma gw_step_after p e : gw_enabled e (fst p) (snd p) ->
  match handle e (fst p) with Ok _ => true | Err _ => false end = true -> gw_step p (after p e).
Proof.
  destruct p as [o g]; unfold after; cbn [fst snd]; intros He Hh.
  destruct (handle e o) as [[[[] o'] calls]|] eqn:E; [apply (gw_step_intro e o g o' calls He E) | done].
Qed.

Lemma example_setup : setup_ok 10 1 2.
Proof. vm_compute; repeat split; discriminate. Qed.

Lemma query_ok : gw_enabled (query 5) (fst (after (example_init, g_init) (Connect true)))
  (snd (after (example_init, g_init) (Connect true))).
Proof.
  split; [vm_compute; repeat split; discriminate|]; split; [vm_compute; discriminate|].
  split; [intros c [= <-]; vm_compute; reflexivity | intros m [= <-]; vm_compute; reflexivity].
Qed.

Lemma answered_steps : star gw_step (example_init, g_init) (example_run answered).
Proof.
  unfold example_run, answered, asked; cbn [fold_left app].
  eapply star_step; [eapply star_step; [eapply star_step; [apply star_refl|]|]|]; apply gw_step_after.
  - vm_compute; reflexivity.
  - vm_compute; reflexivity.
  - exact query_ok.
  - vm_compute; reflexivity.
  - split; [vm_compute; reflexivity|]; split; [split; [vm_compute; reflexivity | vm_compute; discriminate]|].
    split; discriminate.
  - vm_compute; reflexivity.
Qed.

Lemma example_reaches : client_reaches 10 1 2 0 blank_if blank (fst (example_run answered)) (snd (example_run answered)).
Proof.
  exists example_init; eexists; split; [vm_compute; reflexivity|].
  rewrite <- surjective_pairing; exact answered_steps.
Qed.

Lemma UdpGwClient_safe_witness :
  lru (fst (example_run answered)) = [((user 5, dns_server), 0)] /\
  exists o2 calls, UdpGwClient_Free (fst (example_run answered)) = Ok (tt, o2, calls) /\ empties o2.
Proof.
  split; [vm_compute; reflexivity|].
  pose proof (UdpGwClient_safe 10 1 2 0 blank_if blank (fst (example_run answered)) (snd (example_run answered))
    eq_refl example_setup example_reaches) as (_ & _ & _ & _ & _ & Hfree); exact Hfree.
Defined.


Definition example_con : connection :=
  default (mk_con (BADDR_NONE, BADDR_NONE) 0 [] 0 0 false PPF.sample) (connections (fst (example_run answered)) !! 5).
Lemma example_con_addr : c_conaddr example_con = (user 5, dns_server).
Proof. vm_compute; reflexivity. Qed.

Lemma UdpGwClient_receives_witness :
  exists o2, handle (Recv PPI.EOperation) (fst (example_run answered)) = Ok (tt, o2, [HandlerReceived (user 5) dns_server [4; 5]]).
Proof.
  pose proof (UdpGwClient_receives 10 1 2 0 blank_if blank (fst (example_run answered)) (snd (example_run answered))
    (message dns_server 0 0 [4; 5]) eq_refl example_setup example_reaches) as H.
  destruct H as (o2 & calls & Hh & _ & Hc).
  - split; [vm_compute; reflexivity|]; split; [vm_compute; reflexivity|]; split; discriminate.
  - vm_compute; reflexivity.
  - vm_compute; repeat constructor; discriminate.
  - exists o2; rewrite Hh; do 2 f_equal.
    rewrite (Hc 5 example_con 0 [4; 5]);
      [rewrite example_con_addr; reflexivity | vm_compute; left | vm_compute; reflexivity
      | vm_compute; split; congruence | reflexivity | vm_compute; discriminate | vm_compute; reflexivity].
Defined.
End example.
