(* ===== verification/TcpClient.v ===== *)
(** The TCP relay of tun2socks/tun2socks.c: each connection lwIP accepts is a client, joined to a
    SOCKS connection of its own. Bytes from lwIP wait in [buf] until the SOCKS side takes them,
    bytes from the SOCKS side wait in [socks_recv_buf] until lwIP has room for them; a side that
    closes is drained before the client is freed. A handler runs on the client it was registered
    for; a client that was freed is [None], and touching it, or a pcb lwIP has freed, is a fault.
    lwIP is not modelled: what its functions return is an argument of the handlers that call them,
    and what is done to it is a call. *)

From S2P Require Import Prelude Addr FlowIface FlowViews OrderedTree.

(** lwip/custom/lwipopts.h and lwip/src/include/lwip/opt.h. *)
Definition TCP_MSS : Z := 1460.
Definition TCP_WND : Z := 4 * TCP_MSS.
Definition TCP_SND_BUF : Z := 16384.
Definition CLIENT_SOCKS_RECV_BUF_SIZE : Z := 8192.

Definition ERR_OK : Z := 0.
Definition ERR_MEM : Z := -1.
Definition ERR_ABRT : Z := -10.

Inductive socks_event := BSOCKSCLIENT_EVENT_ERROR | BSOCKSCLIENT_EVENT_UP | BSOCKSCLIENT_EVENT_ERROR_CLOSED.

(** * The client *)

(** Of the pcb, whether lwIP still has it and which callbacks are registered. A pointer to the
    stack frame of a waiting handler is the flag [dead_client]. *)
Record tcp_client := mk_client {
  local_addr : BAddr; remote_addr : BAddr; socks_username : option (list Z);
  pcb_live : bool; pcb_err : bool; pcb_recv : bool; pcb_sent : bool;
  dead_client : bool; client_closed : bool; buf : list Z; buf_used : Z;
  socks_up : bool; socks_closed : bool; socks_send_if : SPI.t; socks_recv_if : SPI.t;
  socks_recv_buf : list Z; socks_recv_buf_used : Z; socks_recv_buf_sent : Z;
  socks_recv_waiting : bool; socks_recv_tcp_pending : Z }.
#[export] Instance client_eta : Eta tcp_client := fun x =>
  mk_client (local_addr x) (remote_addr x) (socks_username x) (pcb_live x) (pcb_err x) (pcb_recv x)
    (pcb_sent x) (dead_client x) (client_closed x) (buf x) (buf_used x) (socks_up x) (socks_closed x)
    (socks_send_if x) (socks_recv_if x) (socks_recv_buf x) (socks_recv_buf_used x)
    (socks_recv_buf_sent x) (socks_recv_waiting x) (socks_recv_tcp_pending x).

(** A handler of lwIP that waits in [SYNC_COMMIT] while the jobs it caused run: its client,
    whether [dead_client] was killed, and what it does when it continues. *)
Inductive rest := AfterAccept | AfterRecv (p : list Z) | AfterSent.
Record frame := mk_frame { f_client : Z; f_killed : bool; f_rest : rest }.
#[export] Instance frame_eta : Eta frame := fun f => mk_frame (f_client f) (f_killed f) (f_rest f).

(** What a handler sees: its client and the variables of the program. *)
Record st := mk_st { this : option tcp_client; tcp_clients : list Z; num_clients : Z; sync : option frame }.
#[export] Instance st_eta : Eta st := fun s => mk_st (this s) (tcp_clients s) (num_clients s) (sync s).

Inductive tcp_call :=
| TcpAccepted | TcpNagleDisable (c : Z) | TcpRecved (c len : Z) | TcpWrite (c : Z) (data : list Z) (err : Z)
| TcpOutput (c : Z) | TcpClose (c : Z) | TcpAbort (c : Z) | PbufFree (p : list Z)
| SocksInit (c : Z) (dest : BAddr) (username : option (list Z)) | SocksFree (c : Z)
| SocksSend (c : Z) (data : option Z) (len : Z) | SocksRecv (c : Z) (data : option Z) (len : Z).
Definition tp := prog st tcp_call.

(** lwIP's answers during one handler: the space in the send buffer and the result of the write,
    by the number of the attempt (the space also by what is unacknowledged), and the results of
    [tcp_output] and [tcp_close]. *)
Record lwip := mk_lwip { sndbuf : nat -> Z -> Z; write_err : nat -> Z; output_err : Z; close_err : Z }.

Definition use_after_free {A} : tp A := fun _ => Err OutOfBounds.
Definition client_get : tp tcp_client := fun s =>
  match this s with Some x => Ok (x, s, []) | None => Err OutOfBounds end.
Definition client_mod (f : tcp_client -> tcp_client) : tp unit := fun s =>
  match this s with Some x => Ok (tt, s <| this := Some (f x) |>, []) | None => Err OutOfBounds end.
Definition pcb_use : tp unit := x ← client_get; if pcb_live x then pskip else use_after_free.
Definition pcb_call (k : tcp_call) : tp unit := pcb_use;; pcall k.
Definition tcp_err (b : bool) : tp unit := pcb_use;; client_mod (fun x => x <| pcb_err := b |>).
Definition tcp_recv (b : bool) : tp unit := pcb_use;; client_mod (fun x => x <| pcb_recv := b |>).
Definition tcp_sent (b : bool) : tp unit := pcb_use;; client_mod (fun x => x <| pcb_sent := b |>).
(** The pcb is lwIP's again once [tcp_close] succeeds, and after [tcp_abort]. *)
Definition tcp_close (c : Z) (l : lwip) : tp Z :=
  pcb_call (TcpClose c);;
  (if close_err l =? ERR_OK then client_mod (fun x => x <| pcb_live := false |>) else pskip);;
  mret (close_err l).
Definition tcp_abort (c : Z) : tp unit :=
  pcb_call (TcpAbort c);; client_mod (fun x => x <| pcb_live := false |>).

Definition kill (f : frame) : frame := f <| f_killed := true |>.
(** [DEAD_KILL(client->dead_client)]: the variable is on the stack of the waiting handler. *)
Definition DEAD_KILL : tp unit :=
  x ← client_get;
  if negb (dead_client x) then pskip else
  s ← pget;
  match sync s with
  | Some f => pmod (fun s => s <| sync := Some (kill f) |>)
  | None => use_after_free
  end.
(** [DEAD_ENTER(client->dead_client) SYNC_COMMIT]: the handler waits. *)
Definition sync_commit (c : Z) (k : rest) : tp (option Z) :=
  client_mod (fun x => x <| dead_client := true |>);;
  pmod (fun s => s <| sync := Some (mk_frame c false k) |>);;
  mret None.

(** * Closing *)

Definition client_dealloc (c : Z) : tp unit :=
  x ← client_get;
  passert (client_closed x);;
  passert (socks_closed x);;
  s ← pget;
  passert (0 <? num_clients s);;
  pmod (fun s => s <| num_clients ::= Z.add (-1) |>);;
  pmod (fun s => s <| tcp_clients ::= remove_node c |>);;
  pmod (fun s => s <| this := None |>).

(** The three functions call each other; the side closed first is found closed when the other is
    reached, so the calls nest at most three deep. *)
Fixpoint handle_freed_client (n : nat) (c : Z) (l : lwip) : tp unit :=
  match n with
  | O => fun _ => Err FuelExhausted
  | S n =>
    x ← client_get;
    passert (negb (client_closed x));;
    DEAD_KILL;;
    client_mod (fun x => x <| client_closed := true |>);;
    x ← client_get;
    if (0 <? buf_used x) && negb (socks_closed x) then pskip else
    if negb (socks_closed x) then free_socks n c l else client_dealloc c
  end
with free_client (n : nat) (c : Z) (l : lwip) : tp unit :=
  match n with
  | O => fun _ => Err FuelExhausted
  | S n =>
    x ← client_get;
    passert (negb (client_closed x));;
    tcp_err false;; tcp_recv false;; tcp_sent false;;
    err ← tcp_close c l;
    (if negb (err =? ERR_OK) then tcp_abort c else pskip);;
    handle_freed_client n c l
  end
with free_socks (n : nat) (c : Z) (l : lwip) : tp unit :=
  match n with
  | O => fun _ => Err FuelExhausted
  | S n =>
    x ← client_get;
    passert (negb (socks_closed x));;
    (if socks_up x then (if negb (client_closed x) then tcp_recv false else pskip) else pskip);;
    pcall (SocksFree c);;
    client_mod (fun x => x <| socks_closed := true |>);;
    x ← client_get;
    if socks_up x && ((0 <=? socks_recv_buf_used x) || (0 <? socks_recv_tcp_pending x)) && negb (client_closed x)
    then pskip else
    if negb (client_closed x) then free_client n c l else client_dealloc c
  end.
Definition close_fuel : nat := 3.
Definition client_handle_freed_client (c : Z) (l : lwip) : tp unit := handle_freed_client close_fuel c l.
Definition client_free_client (c : Z) (l : lwip) : tp unit := free_client close_fuel c l.
Definition client_free_socks (c : Z) (l : lwip) : tp unit := free_socks close_fuel c l.

Definition client_abort_client (c : Z) (l : lwip) : tp unit :=
  x ← client_get;
  passert (negb (client_closed x));;
  tcp_err false;; tcp_recv false;; tcp_sent false;;
  tcp_abort c;;
  client_handle_freed_client c l.

Definition client_murder (c : Z) : tp unit :=
  x ← client_get;
  (if negb (client_closed x) then
     tcp_err false;; tcp_recv false;; tcp_sent false;;
     tcp_abort c;;
     DEAD_KILL;;
     client_mod (fun x => x <| client_closed := true |>)
   else pskip);;
  (if negb (socks_closed x) then
     pcall (SocksFree c);;
     client_mod (fun x => x <| socks_closed := true |>)
   else pskip);;
  client_dealloc c.

(** * From lwIP to SOCKS *)

Definition put_send (i : SPI.t) : tcp_client -> tcp_client := fun x => x <| socks_send_if := i |>.
Definition put_recv (i : SPI.t) : tcp_client -> tcp_client := fun x => x <| socks_recv_if := i |>.
(** Runs a function of an interface of the client, then the handlers it calls. *)
Definition on_if (get : tcp_client -> SPI.t) (put : SPI.t -> tcp_client -> tcp_client)
  (m : SPI.sp unit) (f : SPI.call -> tp unit) : tp unit := fun s =>
  match this s with
  | None => Err OutOfBounds
  | Some x =>
    match m (get x) with
    | Ok (_, i, ks) => foreach f ks (s <| this := Some (put i x) |>)
    | Err e => Err e
    end
  end.
Definition no_handler (k : SPI.call) : tp unit := passert false.
Definition on_send (m : SPI.sp unit) : tp unit := on_if socks_send_if put_send m no_handler.
Definition on_recv (m : SPI.sp unit) : tp unit := on_if socks_recv_if put_recv m no_handler.

Definition client_send_to_socks : tp unit :=
  x ← client_get;
  passert (negb (socks_closed x));;
  passert (socks_up x);;
  passert (0 <? buf_used x);;
  on_send (SPI.Sender_Send (Some 0) (buf_used x)).

(** [p] is what [pbuf_copy_partial] copies, all of the chain; a chain of no buffers is the end of
    the stream. The result is [None] when the handler waits. *)
Definition client_recv_func (c : Z) (l : lwip) (p : option (list Z)) : tp (option Z) :=
  x ← client_get;
  passert (negb (client_closed x));;
  match p with
  | None => client_free_client c l;; mret (Some ERR_ABRT)
  | Some p =>
    passert (0 <? Zlen p);;
    if TCP_WND - buf_used x <? Zlen p then mret (Some ERR_MEM) else
    b ← plift (mem_write (buf x) (buf_used x) p);
    client_mod (fun x => x <| buf := b |> <| buf_used ::= Z.add (Zlen p) |>);;
    x ← client_get;
    if (buf_used x =? Zlen p) && socks_up x then
      passert (negb (socks_closed x));;
      client_send_to_socks;;
      sync_commit c (AfterRecv p)
    else pcall (PbufFree p);; mret (Some ERR_OK)
  end.

Definition client_socks_send_handler_done (c : Z) (l : lwip) (data_len : Z) : tp unit :=
  x ← client_get;
  passert (negb (socks_closed x));;
  passert (socks_up x);;
  passert (0 <? buf_used x);;
  passert (0 <? data_len);;
  passert (data_len <=? buf_used x);;
  b ← plift (mem_move (buf x) 0 data_len (buf_used x - data_len));
  client_mod (fun x => x <| buf := b |> <| buf_used ::= Z.add (- data_len) |>);;
  (if negb (client_closed x) then pcall (TcpRecved c data_len) else pskip);;
  x ← client_get;
  if 0 <? buf_used x then on_send (SPI.Sender_Send (Some 0) (buf_used x))
  else if client_closed x then client_free_socks c l
  else pskip.

(** * From SOCKS to lwIP *)

Definition client_socks_recv_initiate : tp unit :=
  x ← client_get;
  passert (negb (client_closed x));;
  passert (negb (socks_closed x));;
  passert (socks_up x);;
  passert (socks_recv_buf_used x =? -1);;
  on_recv (SPI.StreamRecvInterface_Receiver_Recv (Some 0) CLIENT_SOCKS_RECV_BUF_SIZE).

(** The loop of [client_socks_recv_send_out], from the [k]-th attempt; [false] when the client
    was aborted. Every turn but the last queues a byte. *)
Fixpoint send_out_loop (n : nat) (c : Z) (l : lwip) (k : nat) : tp bool :=
  match n with
  | O => fun _ => Err FuelExhausted
  | S n =>
    x ← client_get;
    pcb_use;;
    let to_write := Z.min (socks_recv_buf_used x - socks_recv_buf_sent x) (sndbuf l k (socks_recv_tcp_pending x)) in
    if to_write =? 0 then mret true else
    d ← plift (mem_read (socks_recv_buf x) (socks_recv_buf_sent x) to_write);
    pcb_call (TcpWrite c d (write_err l k));;
    if negb (write_err l k =? ERR_OK) then
      if write_err l k =? ERR_MEM then mret true else
      client_abort_client c l;; mret false
    else
    pending ← plift (int_result (socks_recv_tcp_pending x + to_write));
    client_mod (fun x => x <| socks_recv_buf_sent ::= Z.add to_write |> <| socks_recv_tcp_pending := pending |>);;
    x ← client_get;
    if socks_recv_buf_sent x <? socks_recv_buf_used x then send_out_loop n c l (S k) else mret true
  end.

Definition client_socks_recv_send_out (c : Z) (l : lwip) : tp Z :=
  x ← client_get;
  passert (negb (client_closed x));;
  passert (socks_up x);;
  passert (0 <? socks_recv_buf_used x);;
  passert (socks_recv_buf_sent x <? socks_recv_buf_used x);;
  passert (negb (socks_recv_waiting x));;
  r ← send_out_loop (Z.to_nat (socks_recv_buf_used x)) c l 0;
  if negb r then mret (-1) else
  pcb_call (TcpOutput c);;
  if negb (output_err l =? ERR_OK) then client_abort_client c l;; mret (-1) else
  x ← client_get;
  if socks_recv_buf_sent x <? socks_recv_buf_used x then
    if socks_recv_tcp_pending x =? 0 then client_abort_client c l;; mret (-1) else
    client_mod (fun x => x <| socks_recv_waiting := true |>);;
    mret 0
  else
  client_mod (fun x => x <| socks_recv_buf_used := -1 |>);;
  mret 0.

Definition client_socks_recv_handler_done (c : Z) (l : lwip) (data_len : Z) : tp unit :=
  x ← client_get;
  passert (0 <? data_len);;
  passert (data_len <=? CLIENT_SOCKS_RECV_BUF_SIZE);;
  passert (negb (socks_closed x));;
  passert (socks_up x);;
  passert (socks_recv_buf_used x =? -1);;
  if client_closed x then pskip else
  client_mod (fun x => x <| socks_recv_buf_used := data_len |> <| socks_recv_buf_sent := 0 |>
                         <| socks_recv_waiting := false |>);;
  r ← client_socks_recv_send_out c l;
  if r <? 0 then pskip else
  x ← client_get;
  if socks_recv_buf_used x =? -1 then client_socks_recv_initiate else pskip.

Definition client_sent_func (c : Z) (l : lwip) (len : Z) : tp (option Z) :=
  x ← client_get;
  passert (negb (client_closed x));;
  passert (socks_up x);;
  passert (0 <? len);;
  passert (len <=? socks_recv_tcp_pending x);;
  client_mod (fun x => x <| socks_recv_tcp_pending ::= Z.add (- len) |>);;
  if 0 <? socks_recv_buf_used x then
    passert (socks_recv_waiting x);;
    passert (socks_recv_buf_sent x <? socks_recv_buf_used x);;
    client_mod (fun x => x <| socks_recv_waiting := false |>);;
    r ← client_socks_recv_send_out c l;
    if r <? 0 then mret (Some ERR_ABRT) else
    x ← client_get;
    passert (0 <? socks_recv_tcp_pending x);;
    if (socks_recv_buf_used x =? -1) && negb (socks_closed x) then
      client_socks_recv_initiate;;
      sync_commit c AfterSent
    else mret (Some ERR_OK)
  else
  x ← client_get;
  if socks_closed x && (socks_recv_tcp_pending x =? 0) then
    client_free_client c l;; mret (Some ERR_ABRT)
  else mret (Some ERR_OK).

(** * Events *)

(** [si] and [ri] are the interfaces of the SOCKS client when it comes up. *)
Definition client_socks_handler (c : Z) (l : lwip) (e : socks_event) (si ri : SPI.t) : tp unit :=
  x ← client_get;
  passert (negb (socks_closed x));;
  match e with
  | BSOCKSCLIENT_EVENT_ERROR => client_free_socks c l
  | BSOCKSCLIENT_EVENT_UP =>
    passert (negb (socks_up x));;
    client_mod (put_send si);;
    on_send SPI.Sender_Init;;
    client_mod (put_recv ri);;
    on_recv SPI.StreamRecvInterface_Receiver_Init;;
    client_mod (fun x => x <| socks_recv_buf_used := -1 |> <| socks_recv_tcp_pending := 0 |>);;
    (if negb (client_closed x) then tcp_sent true else pskip);;
    client_mod (fun x => x <| socks_up := true |>);;
    (if 0 <? buf_used x then client_send_to_socks else pskip);;
    x ← client_get;
    if negb (client_closed x) then client_socks_recv_initiate else pskip
  | BSOCKSCLIENT_EVENT_ERROR_CLOSED =>
    passert (socks_up x);;
    client_free_socks c l
  end.

Definition client_err_func (c : Z) (l : lwip) : tp unit :=
  x ← client_get;
  passert (negb (client_closed x));;
  client_handle_freed_client c l.

(** [new] is what the memory [malloc] returns holds, [name] what [concat_strings] returns where
    the source address is added to the user name, [socks_ok] whether [BSocksClient_Init]
    succeeds. *)
Definition listener_accept_func (c : Z) (new : option tcp_client) (local remote : BAddr)
  (append_source_to_username : bool) (name : option (list Z)) (socks_ok : bool) : tp (option Z) :=
  pcall TcpAccepted;;
  match new with
  | None => mret (Some ERR_MEM)
  | Some new =>
    pmod (fun s => s <| this := Some (new <| socks_username := None |>) |>);;
    client_mod (fun x => x <| local_addr := local |> <| remote_addr := remote |>);;
    let addr := local in
    ok ← (if append_source_to_username then
            client_mod (fun x => x <| socks_username := name |>);; mret (negb (bool_decide (name = None)))
          else mret true);
    let fail1 := pmod (fun s => s <| this := None |>);; mret (Some ERR_MEM) in
    if negb ok then fail1 else
    x ← client_get;
    pcall (SocksInit c addr (socks_username x));;
    if negb socks_ok then fail1 else
    client_mod (fun x => x <| dead_client := false |>);;
    pmod (fun s => s <| tcp_clients ::= fun cs => cs ++ [c] |>);;
    s ← pget;
    passert (0 <=? num_clients s);;
    pmod (fun s => s <| num_clients ::= Z.add 1 |>);;
    client_mod (fun x => x <| pcb_live := true |> <| pcb_err := false |> <| pcb_recv := false |>
                           <| pcb_sent := false |>);;
    client_mod (fun x => x <| client_closed := false |>);;
    pcb_call (TcpNagleDisable c);;
    tcp_err true;; tcp_recv true;;
    client_mod (fun x => x <| buf_used := 0 |>);;
    client_mod (fun x => x <| socks_up := false |> <| socks_closed := false |>);;
    sync_commit c AfterAccept
  end.

(** What a handler that waited does then: [DEAD_LEAVE2], and the rest of its code. *)
Definition sync_return : tp Z :=
  s ← pget;
  match sync s with
  | None => use_after_free
  | Some f =>
    pmod (fun s => s <| sync := None |>);;
    if f_killed f then mret ERR_ABRT else
    client_mod (fun x => x <| dead_client := false |>);;
    match f_rest f with
    | AfterRecv p => pcall (PbufFree p);; mret ERR_OK
    | AfterAccept | AfterSent => mret ERR_OK
    end
  end.

(** The program's clients, and a handler run on one of them. *)
Record relay := mk_relay { clients : gmap Z tcp_client; r_tcp_clients : list Z; r_num_clients : Z; r_sync : option frame }.
#[export] Instance relay_eta : Eta relay := fun r => mk_relay (clients r) (r_tcp_clients r) (r_num_clients r) (r_sync r).
Definition view (c : Z) (r : relay) : st := mk_st (clients r !! c) (r_tcp_clients r) (r_num_clients r) (r_sync r).
Definition put_view (c : Z) (s : st) (r : relay) : relay :=
  mk_relay (match this s with Some x => <[c := x]> (clients r) | None => delete c (clients r) end)
    (tcp_clients s) (num_clients s) (sync s).
Definition on_client {A} (c : Z) (p : tp A) : prog relay tcp_call A := fun r =>
  match p (view c r) with
  | Ok (a, s, ks) => Ok (a, put_view c s r, ks)
  | Err e => Err e
  end.

(** The end of [main]: the clients that are left are freed. *)
Fixpoint murder_all (n : nat) : prog relay tcp_call unit :=
  match n with
  | O => fun _ => Err FuelExhausted
  | S n =>
    r ← pget;
    match head (r_tcp_clients r) with
    | None => pskip
    | Some c => on_client c (client_murder c);; murder_all n
    end
  end.

(** * Steps *)

Inductive event :=
| ERecv (l : lwip) (p : option (list Z)) | ESent (l : lwip) (len : Z) | EErr (l : lwip)
| ESocks (l : lwip) (e : socks_event) (si ri : SPI.t)
| ESendOp | ESendDone (len : Z) | ESendCompleted (l : lwip)
| ERecvOp | ERecvDone (data : list Z) | ERecvCompleted (l : lwip)
| EReturn.

Definition send_handler (c : Z) (l : lwip) (k : SPI.call) : tp unit :=
  match k with
  | SPI.HandlerOperation d n => pcall (SocksSend c d n)
  | SPI.HandlerDone n => client_socks_send_handler_done c l n
  end.
Definition recv_handler (c : Z) (l : lwip) (k : SPI.call) : tp unit :=
  match k with
  | SPI.HandlerOperation d n => pcall (SocksRecv c d n)
  | SPI.HandlerDone n => client_socks_recv_handler_done c l n
  end.
Definition no_lwip : lwip := mk_lwip (fun _ _ => 0) (fun _ => 0) 0 0.

(** What happens at a client. When lwIP reports an error the pcb is lost; the SOCKS side puts the
    data it received where it was told to. *)
Definition handle (c : Z) (e : event) : tp (option Z) :=
  match e with
  | ERecv l p => client_recv_func c l p
  | ESent l n => client_sent_func c l n
  | EErr l => client_mod (fun x => x <| pcb_live := false |>);; client_err_func c l;; mret None
  | ESocks l e si ri => client_socks_handler c l e si ri;; mret None
  | ESendOp => on_if socks_send_if put_send SPI.run_operation (send_handler c no_lwip);; mret None
  | ESendDone n => on_send (SPI.Done n);; mret None
  | ESendCompleted l => on_if socks_send_if put_send SPI.run_done (send_handler c l);; mret None
  | ERecvOp => on_if socks_recv_if put_recv SPI.StreamRecvInterface_job_operation (recv_handler c no_lwip);; mret None
  | ERecvDone d =>
      x ← client_get;
      b ← plift (match SPI.job_operation_data (socks_recv_if x) with
                 | Some p => mem_write (socks_recv_buf x) p d | None => Err OutOfBounds end);
      client_mod (fun x => x <| socks_recv_buf := b |>);;
      on_recv (SPI.StreamRecvInterface_Done (Zlen d));; mret None
  | ERecvCompleted l => on_if socks_recv_if put_recv SPI.StreamRecvInterface_job_done (recv_handler c l);; mret None
  | EReturn => r ← sync_return; mret (Some r)
  end.

(** What has passed at a client: whether the SOCKS side has an operation to send and one to
    receive, the bytes accepted from lwIP, taken by the SOCKS side, delivered by it and written
    to lwIP, the number acknowledged by lwIP and the number it was told were received. *)
Record ghost := mk_ghost {
  g_send_busy : bool; g_recv_busy : bool; g_in : list Z; g_taken : list Z; g_from : list Z; g_out : list Z;
  g_acked : Z; g_recved : Z }.
Definition ghost0 : ghost := mk_ghost false false [] [] [] [] 0 0.

Definition is_send (k : tcp_call) : bool := match k with SocksSend _ _ _ => true | _ => false end.
Definition is_recv (k : tcp_call) : bool := match k with SocksRecv _ _ _ => true | _ => false end.
Definition written (ks : list tcp_call) : list Z :=
  concat (map (fun k => match k with TcpWrite _ d e => if e =? ERR_OK then d else [] | _ => [] end) ks).
Fixpoint recved (ks : list tcp_call) : Z :=
  match ks with [] => 0 | TcpRecved _ n :: ks => n + recved ks | _ :: ks => recved ks end.

Definition count (e : event) (x : tcp_client) (r : option Z) (ks : list tcp_call) (g : ghost) : ghost :=
  mk_ghost
    (match e with ESendDone _ => false | _ => g_send_busy g || existsb is_send ks end)
    (match e with ERecvDone _ => false | _ => g_recv_busy g || existsb is_recv ks end)
    (match e with
     | ERecv _ (Some p) => if bool_decide (r = Some ERR_MEM) then g_in g else g_in g ++ p
     | _ => g_in g end)
    (match e, SPI.job_operation_data (socks_send_if x) with
     | ESendDone n, Some d => g_taken g ++ slice d n (buf x)
     | _, _ => g_taken g end)
    (match e with
     | ERecvCompleted _ => if client_closed x then g_from g else
         g_from g ++ ztake (SPI.job_done_len (socks_recv_if x)) (socks_recv_buf x)
     | _ => g_from g end)
    (g_out g ++ written ks)
    (match e with ESent _ n => g_acked g + n | _ => g_acked g end)
    (g_recved g + recved ks).

(** lwIP's send buffer never has more room than what is not acknowledged leaves. *)
Definition lwip_ok (l : lwip) : Prop :=
  forall k pending, 0 <= sndbuf l k pending <= Z.max 0 (TCP_SND_BUF - pending).
(** What may happen at a client. lwIP calls the callbacks that are registered, of a pcb it has,
    while no handler of it waits, and acknowledges what was written; the SOCKS client reports
    until it is freed, that it is up once, and its interfaces exist while it is up. *)
Definition enabled (c : Z) (e : event) (x : tcp_client) (g : ghost) (sy : option frame) : Prop :=
  match e with
  | ERecv l p => sy = None /\ pcb_live x = true /\ pcb_recv x = true /\ lwip_ok l /\
      match p with Some p => 0 < Zlen p | None => True end
  | ESent l n => sy = None /\ pcb_live x = true /\ pcb_sent x = true /\ lwip_ok l /\
      0 < n <= Zlen (g_out g) - g_acked g
  | EErr l => pcb_live x = true /\ pcb_err x = true /\ lwip_ok l
  | ESocks l e si ri => socks_closed x = false /\ lwip_ok l /\ fresh si /\ fresh ri /\
      match e with
      | BSOCKSCLIENT_EVENT_ERROR => True
      | BSOCKSCLIENT_EVENT_UP => socks_up x = false
      | BSOCKSCLIENT_EVENT_ERROR_CLOSED => socks_up x = true
      end
  | ESendOp => socks_up x = true /\ socks_closed x = false /\ SPI.job_operation (socks_send_if x) = true
  | ESendDone n => socks_up x = true /\ socks_closed x = false /\ g_send_busy g = true /\
      0 < n <= SPI.job_operation_len (socks_send_if x)
  | ESendCompleted l => socks_up x = true /\ socks_closed x = false /\ SPI.job_done (socks_send_if x) = true /\ lwip_ok l
  | ERecvOp => socks_up x = true /\ socks_closed x = false /\ SPI.job_operation (socks_recv_if x) = true
  | ERecvDone d => socks_up x = true /\ socks_closed x = false /\ g_recv_busy g = true /\
      0 < Zlen d <= SPI.job_operation_len (socks_recv_if x)
  | ERecvCompleted l => socks_up x = true /\ socks_closed x = false /\ SPI.job_done (socks_recv_if x) = true /\ lwip_ok l
  | EReturn => exists f, sy = Some f /\ f_client f = c
  end.

(** * The invariant of a client *)

(** The bytes at the start of [buf] that the SOCKS side has taken but not yet reported. *)
Definition taken_now (x : tcp_client) : Z :=
  if socks_up x && SPI.job_done (socks_send_if x) then SPI.job_done_len (socks_send_if x) else 0.
(** The bytes of [socks_recv_buf] that are still to be written to lwIP. *)
Definition unsent (x : tcp_client) : list Z :=
  if 0 <? socks_recv_buf_used x
  then slice (socks_recv_buf_sent x) (socks_recv_buf_used x - socks_recv_buf_sent x) (socks_recv_buf x) else [].

Definition mem_ok (x : tcp_client) : Prop :=
  Zlen (buf x) = TCP_WND /\ Zlen (socks_recv_buf x) = CLIENT_SOCKS_RECV_BUF_SIZE /\ 0 <= buf_used x <= TCP_WND.
(** A side that was closed is kept only while the other has something to send to it. *)
Definition sides_ok (x : tcp_client) : Prop :=
  (client_closed x = true -> pcb_live x = false /\ 0 < buf_used x /\ socks_closed x = false) /\
  (socks_closed x = true -> socks_up x = true /\ 0 < socks_recv_tcp_pending x).
Definition send_ok (x : tcp_client) (g : ghost) : Prop :=
  socks_closed x = false ->
  g_in g = g_taken g ++ slice (taken_now x) (buf_used x - taken_now x) (buf x) /\
  if socks_up x then spi_ok (socks_send_if x) (g_send_busy g) /\
    (SPI.state (socks_send_if x) = ST_NONE -> buf_used x = 0) /\
    (SPI.state (socks_send_if x) <> ST_NONE -> SPI.job_operation_data (socks_send_if x) = Some 0 /\
       SPI.job_operation_len (socks_send_if x) <= buf_used x)
  else g_send_busy g = false.
Definition recv_ok (x : tcp_client) (g : ghost) : Prop :=
  socks_closed x = false ->
  if socks_up x then spi_ok (socks_recv_if x) (g_recv_busy g) /\
    (SPI.state (socks_recv_if x) <> ST_NONE -> SPI.job_operation_data (socks_recv_if x) = Some 0 /\
       SPI.job_operation_len (socks_recv_if x) = CLIENT_SOCKS_RECV_BUF_SIZE /\ socks_recv_buf_used x = -1)
  else g_recv_busy g = false.
Definition open_ok (x : tcp_client) (g : ghost) : Prop :=
  client_closed x = false ->
  pcb_live x = true /\ pcb_err x = true /\ pcb_recv x = negb (socks_closed x) /\ pcb_sent x = socks_up x /\
  (socks_closed x = false -> g_recved g = Zlen (g_in g) - buf_used x) /\
  if socks_up x then
    0 <= socks_recv_tcp_pending x <= TCP_SND_BUF /\ socks_recv_tcp_pending x = Zlen (g_out g) - g_acked g /\
    g_from g = g_out g ++ unsent x /\
    (socks_recv_buf_used x = -1 \/ 0 < socks_recv_buf_used x <= CLIENT_SOCKS_RECV_BUF_SIZE /\
       0 <= socks_recv_buf_sent x < socks_recv_buf_used x /\ socks_recv_waiting x = true /\
       0 < socks_recv_tcp_pending x) /\
    (socks_closed x = false -> SPI.state (socks_recv_if x) = ST_NONE -> 0 < socks_recv_buf_used x)
  else g_from g = [] /\ g_out g = [] /\ g_acked g = 0.
Definition inv (x : tcp_client) (g : ghost) : Prop :=
  mem_ok x /\ sides_ok x /\ send_ok x g /\ recv_ok x g /\ open_ok x g.

(** An open client points to the frame of the handler of it that waits. *)
Definition dead_ok (c : Z) (x : tcp_client) (sy : option frame) : Prop :=
  client_closed x = false ->
  dead_client x = match sy with Some f => (f_client f =? c) && negb (f_killed f) | None => false end.
Definition kill_of (c : Z) (sy : option frame) : option frame :=
  match sy with Some f => if f_client f =? c then Some (kill f) else Some f | None => None end.
