(* ===== verification/TcpClientFacts.v ===== *)
(** What the handlers of TcpClient.v do to one client: the client is freed or keeps its invariant,
    and lwIP is answered as it requires, one lemma per event. *)

From S2P Require Import Prelude Addr FlowIface FlowViews OrderedTree TcpClient.

(** * Closing a client *)

(** Runs handlers on a record given by its fields. *)
Ltac run := cbv beta iota zeta delta [mbind mret prog_ret prog_bind pget pmod pread pcall passert plift pskip
  use_after_free client_get client_mod pcb_use pcb_call tcp_err tcp_recv tcp_sent tcp_close tcp_abort DEAD_KILL
  client_dealloc update local_addr remote_addr socks_username pcb_live pcb_err pcb_recv pcb_sent dead_client
  client_closed buf buf_used socks_up socks_closed socks_send_if socks_recv_if socks_recv_buf
  socks_recv_buf_used socks_recv_buf_sent socks_recv_waiting socks_recv_tcp_pending this tcp_clients num_clients
  sync negb andb orb app kill kill_of].
Ltac fields x := destruct x as [la ra un pl pe pr ps dc cc b bu su sc si ri rb ru rs rw rp];
  cbn [local_addr remote_addr socks_username pcb_live pcb_err pcb_recv pcb_sent dead_client
  client_closed buf buf_used socks_up socks_closed socks_send_if socks_recv_if socks_recv_buf
  socks_recv_buf_used socks_recv_buf_sent socks_recv_waiting socks_recv_tcp_pending] in *.

(** Calls that start no operation and keep the buffers of lwIP; and those that write no data. *)
Definition calm (ks : list tcp_call) : Prop :=
  recved ks = 0 /\ existsb is_send ks = false /\ existsb is_recv ks = false /\ forall p, PbufFree p ∉ ks.
Definition quiet (ks : list tcp_call) : Prop := written ks = [] /\ calm ks.

Lemma written_app k1 k2 : written (k1 ++ k2) = written k1 ++ written k2.
Proof. unfold written; rewrite map_app, concat_app; done. Qed.
Lemma recved_app k1 k2 : recved (k1 ++ k2) = recved k1 + recved k2.
Proof. induction k1 as [|[] k1 IH]; cbn; rewrite ?IH; lia. Qed.
Lemma calm_app k1 k2 : calm k1 -> calm k2 -> calm (k1 ++ k2).
Proof.
  intros (R1 & S1 & V1 & P1) (R2 & S2 & V2 & P2); split_and!; rewrite ?recved_app, ?existsb_app, ?S1, ?V1; try done; try lia.
  intros p [?|?]%elem_of_app; [eapply P1 | eapply P2]; done.
Qed.
Lemma calm_one k : recved [k] = 0 -> is_send k = false -> is_recv k = false -> (forall p, k <> PbufFree p) -> calm [k].
Proof.
  intros H1 H2 H3 H4; split_and!; cbn [existsb]; rewrite ?H2, ?H3; try done.
  intros p Hp; apply list_elem_of_singleton in Hp; destruct (H4 p); done.
Qed.
Lemma calm_nil : calm [].
Proof. split_and!; try done; intros p Hp; inversion Hp. Qed.
Lemma calm_write c d e : calm [TcpWrite c d e].
Proof. apply calm_one; done. Qed.
Lemma calm_output c : calm [TcpOutput c].
Proof. apply calm_one; done. Qed.
Lemma quiet_nil : quiet [].
Proof. split; [done | apply calm_nil]. Qed.
Lemma quiet_close c l : quiet l -> quiet (TcpClose c :: l).
Proof. intros [? ?]; split; [done | apply (calm_app [_]); [apply calm_one|]; done]. Qed.
Lemma quiet_abort c l : quiet l -> quiet (TcpAbort c :: l).
Proof. intros [? ?]; split; [done | apply (calm_app [_]); [apply calm_one|]; done]. Qed.
Lemma quiet_free c l : quiet l -> quiet (SocksFree c :: l).
Proof. intros [? ?]; split; [done | apply (calm_app [_]); [apply calm_one|]; done]. Qed.
Lemma quiet_app k1 k2 : quiet k1 -> quiet k2 -> quiet (k1 ++ k2).
Proof. intros [W1 ?] [W2 ?]; split; [rewrite written_app, W1, W2; done | apply calm_app; done]. Qed.
#[local] Hint Resolve quiet_nil quiet_close quiet_abort quiet_free calm_nil calm_write calm_output calm_app : core.

(** The state when the client is freed, and when it lives on as [x]. *)
Definition freed (c : Z) (tc : list Z) (n : Z) (sy : option frame) : st := mk_st None (remove_node c tc) (-1 + n) sy.
Definition alive (x : tcp_client) (tc : list Z) (n : Z) (sy : option frame) : st := mk_st (Some x) tc n sy.
(** The client side is closed: the client lives on if the SOCKS side is to get data from it. *)
Definition keeps (x : tcp_client) : bool := (0 <? buf_used x) && negb (socks_closed x).
Definition unhook (x : tcp_client) : tcp_client :=
  x <| pcb_err := false |> <| pcb_recv := false |> <| pcb_sent := false |> <| pcb_live := false |>.
Definition shut_client (x : tcp_client) : tcp_client := x <| client_closed := true |>.
Definition after_client (c : Z) (x : tcp_client) (tc : list Z) (n : Z) (sy : option frame) : st :=
  if keeps x then alive (shut_client x) tc n (kill_of c sy) else freed c tc n (kill_of c sy).

Lemma dead_cases c x sy : client_closed x = false -> dead_ok c x sy ->
  (dead_client x = true /\ exists k, sy = Some (mk_frame c false k)) \/ (dead_client x = false /\ kill_of c sy = sy).
Proof.
  intros Hx Hd; specialize (Hd Hx); destruct sy as [[fc fk fr]|]; [|right; done]; cbn in *.
  destruct (Z.eqb_spec fc c) as [->|]; cbn in Hd; [|right; done].
  destruct fk; cbn in Hd; [right | left]; split; try done; exists fr; done.
Qed.

Lemma get_eq x tc n sy : client_get (alive x tc n sy) = Ok (x, alive x tc n sy, []).
Proof. done. Qed.

Lemma DEAD_KILL_eq c x tc n sy : client_closed x = false -> dead_ok c x sy ->
  DEAD_KILL (alive x tc n sy) = Ok (tt, alive x tc n (kill_of c sy), []).
Proof.
  intros Hx Hd; destruct (dead_cases c x sy Hx Hd) as [(Hdc & k & ->)|[Hdc Hk]];
    unfold DEAD_KILL; (pstep_by ltac:(apply (get_eq x))); rewrite Hdc; cbn [negb].
  - pstep; cbn; rewrite Z.eqb_refl; done.
  - rewrite Hk; done.
Qed.

Lemma client_dealloc_eq c x tc n sy : client_closed x = true -> socks_closed x = true -> 0 < n ->
  client_dealloc c (alive x tc n sy) = Ok (tt, freed c tc n sy, []).
Proof. intros H1 H2 Hn; fields x; subst; unfold alive, freed; run; decide_tests. reflexivity. Qed.

(** The SOCKS side is freed when the client side is closed already. *)
Lemma free_socks_last m c l x tc n sy : client_closed x = true -> socks_closed x = false -> 0 < n ->
  free_socks (S m) c l (alive x tc n sy) = Ok (tt, freed c tc n sy, [SocksFree c]).
Proof.
  intros H1 H2 Hn; fields x; subst; unfold alive, freed; cbn [free_socks]; run.
  destruct su, (0 <=? ru), (0 <? rp); run; decide_tests; done.
Qed.

Lemma handle_freed_eq m c l x tc n sy : client_closed x = false -> dead_ok c x sy -> 0 < n ->
  exists ks, handle_freed_client (S (if socks_closed x then m else S m)) c l (alive x tc n sy) =
    Ok (tt, after_client c x tc n sy, ks) /\ quiet ks.
Proof.
  intros H1 Hd Hn.
  assert (forall k ks st1, (if keeps x then pskip else if negb (socks_closed x) then free_socks k c l else client_dealloc c)
      (alive (shut_client x) tc n (kill_of c sy)) = Ok (tt, st1, ks) ->
    handle_freed_client (S k) c l (alive x tc n sy) = Ok (tt, st1, ks)) as Hrun.
  { intros k ks st1 <-; cbn [handle_freed_client]; pstep.
    pstep_by ltac:(apply passert_ok; rewrite H1; done); pstep_by ltac:(apply DEAD_KILL_eq; done); pstep; pstep; done. }
  unfold after_client in *; destruct (keeps x) eqn:Hk.
  - exists []; split; [apply Hrun; done | auto].
  - destruct (socks_closed x) eqn:Hs; cbn [negb] in Hrun.
    + exists []; split; [apply Hrun, client_dealloc_eq; done | auto].
    + exists [SocksFree c]; split; [apply Hrun, free_socks_last; done | auto].
Qed.

Lemma pcb_use_eq x tc n sy : pcb_live x = true -> pcb_use (alive x tc n sy) = Ok (tt, alive x tc n sy, []).
Proof. intros Hl; unfold pcb_use; pstep_by ltac:(apply get_eq); rewrite Hl; done. Qed.
Lemma pcb_call_eq k x tc n sy : pcb_live x = true -> pcb_call k (alive x tc n sy) = Ok (tt, alive x tc n sy, [k]).
Proof. intros Hl; unfold pcb_call; pstep_by ltac:(apply pcb_use_eq; done); done. Qed.
Lemma pcb_mod_eq f x tc n sy : pcb_live x = true ->
  (pcb_use;; client_mod f) (alive x tc n sy) = Ok (tt, alive (f x) tc n sy, []).
Proof. intros Hl; pstep_by ltac:(apply pcb_use_eq; done); done. Qed.
Lemma tcp_abort_eq c x tc n sy : pcb_live x = true ->
  tcp_abort c (alive x tc n sy) = Ok (tt, alive (x <| pcb_live := false |>) tc n sy, [TcpAbort c]).
Proof. intros Hl; unfold tcp_abort; etransitivity; [eapply pbind_calls; [apply pcb_call_eq; done | reflexivity]|]; done. Qed.

(** The callbacks are removed and the pcb is given up. *)
Definition unhooked (x : tcp_client) : tcp_client :=
  x <| pcb_err := false |> <| pcb_recv := false |> <| pcb_sent := false |>.
Lemma unhook_run x tc n sy {A} (p : tp A) : pcb_live x = true ->
  (tcp_err false;; tcp_recv false;; tcp_sent false;; p) (alive x tc n sy) = p (alive (unhooked x) tc n sy).
Proof.
  intros Hl; pstep_by ltac:(apply pcb_mod_eq; done); pstep_by ltac:(apply pcb_mod_eq; exact Hl);
    pstep_by ltac:(apply pcb_mod_eq; exact Hl); done.
Qed.

Lemma free_client_eq m c l x tc n sy : client_closed x = false -> pcb_live x = true -> dead_ok c x sy -> 0 < n ->
  exists ks, free_client (S (S (if socks_closed x then m else S m))) c l (alive x tc n sy) =
    Ok (tt, after_client c (unhook x) tc n sy, ks) /\ quiet ks.
Proof.
  intros H1 Hl Hd Hn; destruct (handle_freed_eq m c l (unhook x) tc n sy) as (ks & Hrun & Hq); [done..|].
  change (socks_closed (unhook x)) with (socks_closed x) in Hrun.
  set (k := if socks_closed x then m else S m) in *.
  assert (free_client (S (S k)) c l (alive x tc n sy) =
    (err ← tcp_close c l;
     (if negb (err =? ERR_OK) then tcp_abort c else pskip);;
     handle_freed_client (S k) c l) (alive (unhooked x) tc n sy)) as ->.
  { cbn [free_client]; pstep; pstep_by ltac:(apply passert_ok; rewrite H1; done); apply unhook_run; done. }
  unfold tcp_close; destruct (close_err l =? ERR_OK) eqn:He.
  - exists (TcpClose c :: ks); split; [|auto]; etransitivity.
    { eapply pbind_calls; [etransitivity; [eapply pbind_calls; [apply pcb_call_eq; exact Hl | reflexivity]|reflexivity]|].
      rewrite He; pstep; exact Hrun. }
    done.
  - exists (TcpClose c :: TcpAbort c :: ks); split; [|auto]; etransitivity.
    { eapply pbind_calls; [etransitivity; [eapply pbind_calls; [apply pcb_call_eq; exact Hl | reflexivity]|reflexivity]|].
      rewrite He; cbn [negb]; eapply pbind_calls; [apply tcp_abort_eq; exact Hl | exact Hrun]. }
    done.
Qed.

Lemma client_free_client_eq c l x tc n sy : client_closed x = false -> pcb_live x = true -> dead_ok c x sy -> 0 < n ->
  exists ks, client_free_client c l (alive x tc n sy) = Ok (tt, after_client c (unhook x) tc n sy, ks) /\ quiet ks.
Proof.
  intros; unfold client_free_client, close_fuel.
  destruct (socks_closed x) eqn:Hs; [pose proof (free_client_eq 1 c l x tc n sy) as Hf | pose proof (free_client_eq 0 c l x tc n sy) as Hf];
    rewrite Hs in Hf; auto.
Qed.

Lemma client_handle_freed_client_eq c l x tc n sy : client_closed x = false -> dead_ok c x sy -> 0 < n ->
  exists ks, client_handle_freed_client c l (alive x tc n sy) = Ok (tt, after_client c x tc n sy, ks) /\ quiet ks.
Proof.
  intros; unfold client_handle_freed_client, close_fuel.
  destruct (socks_closed x) eqn:Hs; [pose proof (handle_freed_eq 2 c l x tc n sy) as Hf | pose proof (handle_freed_eq 1 c l x tc n sy) as Hf];
    rewrite Hs in Hf; auto.
Qed.

Lemma client_abort_client_eq c l x tc n sy : client_closed x = false -> pcb_live x = true -> dead_ok c x sy -> 0 < n ->
  exists ks, client_abort_client c l (alive x tc n sy) = Ok (tt, after_client c (unhook x) tc n sy, ks) /\ quiet ks.
Proof.
  intros H1 Hl Hd Hn; destruct (client_handle_freed_client_eq c l (unhook x) tc n sy) as (ks & Hrun & Hq); [done..|].
  exists (TcpAbort c :: ks); split; [|auto]; unfold client_abort_client; pstep.
  pstep_by ltac:(apply passert_ok; rewrite H1; done).
  etransitivity; [apply unhook_run; done|].
  etransitivity; [eapply pbind_calls; [apply tcp_abort_eq; exact Hl | exact Hrun]|]; done.
Qed.

(** The SOCKS side is closed: the client lives on while it has something to send to lwIP. *)
Definition drains (x : tcp_client) : bool :=
  socks_up x && ((0 <=? socks_recv_buf_used x) || (0 <? socks_recv_tcp_pending x)).
Definition shut_socks (x : tcp_client) : tcp_client :=
  (if socks_up x && negb (client_closed x) then x <| pcb_recv := false |> else x) <| socks_closed := true |>.
Definition after_socks (c : Z) (x : tcp_client) (tc : list Z) (n : Z) (sy : option frame) : st :=
  if client_closed x then freed c tc n sy
  else if drains x then alive (shut_socks x) tc n sy else freed c tc n (kill_of c sy).

Lemma client_free_socks_eq c l x tc n sy : socks_closed x = false -> pcb_live x = negb (client_closed x) ->
  dead_ok c x sy -> 0 < n ->
  exists ks, client_free_socks c l (alive x tc n sy) = Ok (tt, after_socks c x tc n sy, ks) /\ quiet ks.
Proof.
  intros H1 Hl Hd Hn; unfold client_free_socks, close_fuel, after_socks; destruct (client_closed x) eqn:Hc.
  { exists [SocksFree c]; split; [apply free_socks_last; done | auto]. }
  assert (exists ks1 st1, (if drains x then pskip else free_client 2 c l) (alive (shut_socks x) tc n sy) = Ok (tt, st1, ks1) /\
    st1 = (if drains x then alive (shut_socks x) tc n sy else freed c tc n (kill_of c sy)) /\ quiet ks1) as (ks1 & st1 & Hr & -> & Hq).
  { destruct (drains x); [exists [], (alive (shut_socks x) tc n sy); auto|].
    destruct (free_client_eq 0 c l (shut_socks x) tc n sy) as (ks & Hf & Hq).
    1-4: try done; unfold shut_socks; destruct (_ && _); done.
    assert (socks_closed (shut_socks x) = true) as Hs by (unfold shut_socks; destruct (_ && _); done).
    rewrite Hs in Hf; exists ks, (freed c tc n (kill_of c sy)); split_and!; [|done..].
    rewrite Hf; unfold after_client, keeps; change (socks_closed (unhook ?y)) with (socks_closed y);
      rewrite Hs, andb_false_r; done. }
  exists (SocksFree c :: ks1); split; [|auto]; cbn [free_socks]; pstep.
  pstep_by ltac:(apply passert_ok; rewrite H1; done); rewrite Hc; cbn [negb].
  assert ((if socks_up x then tcp_recv false else pskip) (alive x tc n sy) =
    Ok (tt, alive (if socks_up x && negb (client_closed x) then x <| pcb_recv := false |> else x) tc n sy, [])) as Hrecv.
  { rewrite Hc; destruct (socks_up x); [apply pcb_mod_eq; rewrite Hl; done | done]. }
  pstep_by ltac:(exact Hrecv); etransitivity; [eapply pbind_calls; [reflexivity|]|reflexivity].
  pstep; pstep_by ltac:(apply get_eq).
  unfold drains, shut_socks in *; rewrite Hc in *; cbn [negb] in *; rewrite andb_true_r in *.
  destruct (socks_up x) eqn:Hu; cbn [andb] in *.
  - change (socks_up ((x <| pcb_recv := false |>) <| socks_closed := true |>)) with (socks_up x); rewrite Hu.
    change (client_closed ((x <| pcb_recv := false |>) <| socks_closed := true |>)) with (client_closed x); rewrite Hc.
    cbn [andb negb]; rewrite andb_true_r; exact Hr.
  - change (socks_up (x <| socks_closed := true |>)) with (socks_up x); rewrite Hu.
    change (client_closed (x <| socks_closed := true |>)) with (client_closed x); rewrite Hc; exact Hr.
Qed.

(** * Writing to lwIP *)

Definition queued (q : Z) (x : tcp_client) : tcp_client :=
  x <| socks_recv_buf_sent ::= Z.add q |> <| socks_recv_tcp_pending ::= Z.add q |>.
Definition writable (x : tcp_client) : Prop :=
  Zlen (socks_recv_buf x) = CLIENT_SOCKS_RECV_BUF_SIZE /\
  0 <= socks_recv_buf_sent x < socks_recv_buf_used x /\ socks_recv_buf_used x <= CLIENT_SOCKS_RECV_BUF_SIZE /\
  0 <= socks_recv_tcp_pending x <= TCP_SND_BUF.

Lemma queued_0 x : queued 0 x = x.
Proof. destruct x; done. Qed.
Lemma queued_queued p q x : queued q (queued p x) = queued (p + q) x.
Proof.
  destruct x; unfold queued; run; f_equal; lia.
Qed.

(** The loop ends, having queued [q] bytes; it is done after an error, a full buffer or all. *)
Lemma send_out_loop_ok n0 c l k x tc n sy : lwip_ok l -> client_closed x = false -> pcb_live x = true ->
  dead_ok c x sy -> 0 < n -> writable x -> socks_recv_buf_used x - socks_recv_buf_sent x <= Z.of_nat n0 ->
  exists (b : bool) q ks, send_out_loop n0 c l k (alive x tc n sy) =
      Ok (b, if b then alive (queued q x) tc n sy else after_client c (unhook (queued q x)) tc n sy, ks) /\
    calm ks /\ 0 <= q <= socks_recv_buf_used x - socks_recv_buf_sent x /\
    socks_recv_tcp_pending x + q <= TCP_SND_BUF /\
    written ks = slice (socks_recv_buf_sent x) q (socks_recv_buf x) /\
    ((forall k, write_err l k = ERR_OK \/ write_err l k = ERR_MEM) -> b = true) /\
    (write_err l k = ERR_OK -> 0 < sndbuf l k (socks_recv_tcp_pending x) -> 0 < q).
Proof.
  intros Hl Hc Hp Hd Hn; revert k x Hc Hp Hd; induction n0 as [|n0 IH]; intros k x Hc Hp Hd (HL & Hs & Hu & Hpn) Hf; [lia|].
  set (left := socks_recv_buf_used x - socks_recv_buf_sent x) in *.
  set (w := Z.min left (sndbuf l k (socks_recv_tcp_pending x))).
  assert (0 <= w <= left /\ socks_recv_tcp_pending x + w <= TCP_SND_BUF) as [Hw Hwp].
  { unfold w, left; pose proof (Hl k (socks_recv_tcp_pending x)); lia. }
  assert (forall (b : bool) q ks st1, (if w =? 0 then mret true else
    d ← plift (mem_read (socks_recv_buf x) (socks_recv_buf_sent x) w);
    pcb_call (TcpWrite c d (write_err l k));;
    if negb (write_err l k =? ERR_OK) then
      if write_err l k =? ERR_MEM then mret true else client_abort_client c l;; mret false
    else
    pending ← plift (int_result (socks_recv_tcp_pending x + w));
    client_mod (fun x => x <| socks_recv_buf_sent ::= Z.add w |> <| socks_recv_tcp_pending := pending |>);;
    x ← client_get;
    if socks_recv_buf_sent x <? socks_recv_buf_used x then send_out_loop n0 c l (S k) else mret true) (alive x tc n sy)
    = Ok (b, st1, ks) -> st1 = (if b then alive (queued q x) tc n sy else after_client c (unhook (queued q x)) tc n sy) ->
    calm ks -> 0 <= q <= left -> socks_recv_tcp_pending x + q <= TCP_SND_BUF ->
    written ks = slice (socks_recv_buf_sent x) q (socks_recv_buf x) ->
    ((forall k, write_err l k = ERR_OK \/ write_err l k = ERR_MEM) -> b = true) ->
    (write_err l k = ERR_OK -> 0 < sndbuf l k (socks_recv_tcp_pending x) -> 0 < q) ->
    exists (b : bool) q ks, send_out_loop (S n0) c l k (alive x tc n sy) =
      Ok (b, if b then alive (queued q x) tc n sy else after_client c (unhook (queued q x)) tc n sy, ks) /\
    calm ks /\ 0 <= q <= left /\ socks_recv_tcp_pending x + q <= TCP_SND_BUF /\
    written ks = slice (socks_recv_buf_sent x) q (socks_recv_buf x) /\
    ((forall k, write_err l k = ERR_OK \/ write_err l k = ERR_MEM) -> b = true) /\
    (write_err l k = ERR_OK -> 0 < sndbuf l k (socks_recv_tcp_pending x) -> 0 < q)) as Hdone.
  { intros b q ks st1 Hrun -> ? ? ? ? ? ?; exists b, q, ks; split_and!; try done; try lia.
    cbn [send_out_loop]; pstep; pstep_by ltac:(apply pcb_use_eq; done); exact Hrun. }
  destruct (w =? 0) eqn:Hw0.
  { apply (Hdone true 0 [] (alive x tc n sy)); rewrite ?queued_0; try done; try lia; auto. }
  assert (mem_read (socks_recv_buf x) (socks_recv_buf_sent x) w = Ok (slice (socks_recv_buf_sent x) w (socks_recv_buf x))) as Hread.
  { apply mem_read_ok; unfold left in *; lia. }
  set (d := slice (socks_recv_buf_sent x) w (socks_recv_buf x)) in *.
  destruct (Z.eqb_spec (write_err l k) ERR_OK) as [He|He].
  - assert (int_result (socks_recv_tcp_pending x + w) = Ok (socks_recv_tcp_pending x + w)) as Hint.
    { apply int_result_ok; unfold is_int, INT_MIN, INT_MAX, TCP_SND_BUF in *; lia. }
    assert ((x <| socks_recv_buf_sent ::= Z.add w |>) <| socks_recv_tcp_pending := socks_recv_tcp_pending x + w |> = queued w x) as Hq.
    { unfold queued; destruct x; run; f_equal; cbn; lia. }
    set (tail := (client_get ≫= fun x => if socks_recv_buf_sent x <? socks_recv_buf_used x then send_out_loop n0 c l (S k) else mret true) : tp bool).
    assert (exists (b : bool) q ks, tail (alive (queued w x) tc n sy) =
        Ok (b, if b then alive (queued q x) tc n sy else after_client c (unhook (queued q x)) tc n sy, ks) /\
      calm ks /\ w <= q <= left /\ socks_recv_tcp_pending x + q <= TCP_SND_BUF /\
      d ++ written ks = slice (socks_recv_buf_sent x) q (socks_recv_buf x) /\
      ((forall k, write_err l k = ERR_OK \/ write_err l k = ERR_MEM) -> b = true)) as (b & q & ks & Hrun & Hcalm & Hqb & Hqp & Hwr & Hb).
    { unfold tail; change (socks_recv_buf_used (queued w x)) with (socks_recv_buf_used x).
      change (socks_recv_buf_sent (queued w x)) with (w + socks_recv_buf_sent x).
      destruct (Z.ltb_spec (w + socks_recv_buf_sent x) (socks_recv_buf_used x)).
      - destruct (IH (S k) (queued w x)) as (b & q & ks & Hrun & Hcalm & Hq1 & Hqp & Hwr & Hb & _); try done.
        { unfold writable; split; [done|].
          change (socks_recv_buf_sent (queued w x)) with (w + socks_recv_buf_sent x);
            change (socks_recv_buf_used (queued w x)) with (socks_recv_buf_used x);
            change (socks_recv_tcp_pending (queued w x)) with (w + socks_recv_tcp_pending x); unfold left in *; lia. }
        { change (socks_recv_buf_sent (queued w x)) with (w + socks_recv_buf_sent x);
            change (socks_recv_buf_used (queued w x)) with (socks_recv_buf_used x); unfold left in *; lia. }
        rewrite queued_queued in Hrun.
        change (socks_recv_buf_sent (queued w x)) with (w + socks_recv_buf_sent x) in *.
        change (socks_recv_buf_used (queued w x)) with (socks_recv_buf_used x) in *.
        change (socks_recv_tcp_pending (queued w x)) with (w + socks_recv_tcp_pending x) in *.
        change (socks_recv_buf (queued w x)) with (socks_recv_buf x) in *.
        exists b, (w + q), ks; split_and!; try done; unfold left in *; try lia.
        + pstep; change (socks_recv_buf_used (queued w x)) with (socks_recv_buf_used x).
          change (socks_recv_buf_sent (queued w x)) with (w + socks_recv_buf_sent x).
          test_true (w + socks_recv_buf_sent x <? socks_recv_buf_used x); exact Hrun.
        + rewrite Hwr; unfold d; rewrite (slice_split _ w q) by lia; do 2 f_equal; lia.
      - exists true, w, []; split_and!; auto; try lia.
        + pstep; change (socks_recv_buf_used (queued w x)) with (socks_recv_buf_used x).
          change (socks_recv_buf_sent (queued w x)) with (w + socks_recv_buf_sent x).
          test_false (w + socks_recv_buf_sent x <? socks_recv_buf_used x); done.
        + rewrite app_nil_r; done. }
    apply (Hdone b q (TcpWrite c d (write_err l k) :: ks) (if b then alive (queued q x) tc n sy else after_client c (unhook (queued q x)) tc n sy)); [|reflexivity|..]; auto; try lia.
    + pstep_by ltac:(rewrite Hread; reflexivity).
      etransitivity; [eapply pbind_calls; [apply pcb_call_eq; done|]|].
      { cbn [negb]; pstep_by ltac:(rewrite Hint; reflexivity).
        pstep_by ltac:(cbn; rewrite Hq; reflexivity); exact Hrun. }
      done.
    + apply (calm_app [_]); auto.
    + rewrite <- Hwr; unfold written; cbn [map concat]; test_true (write_err l k =? ERR_OK); done.
  - destruct (Z.eqb_spec (write_err l k) ERR_MEM) as [Hm|Hm].
    + apply (Hdone true 0 [TcpWrite c d (write_err l k)] (alive x tc n sy)); rewrite ?queued_0; auto; try lia; try done.
      * pstep_by ltac:(rewrite Hread; reflexivity).
        etransitivity; [eapply pbind_calls; [apply pcb_call_eq; done|]|];
          [cbn [negb]; reflexivity | done].
      * unfold written; cbn [map concat]; test_false (write_err l k =? ERR_OK); done.
    + destruct (client_abort_client_eq c l x tc n sy) as (ks & Hab & Hq); [done..|].
      apply (Hdone false 0 (TcpWrite c d (write_err l k) :: ks) (after_client c (unhook x) tc n sy)); rewrite ?queued_0; auto; try lia; try done.
      * pstep_by ltac:(rewrite Hread; reflexivity).
        etransitivity; [eapply pbind_calls; [apply pcb_call_eq; done|]|].
        { cbn [negb].
          eapply pbind_calls; [exact Hab | reflexivity]. }
        rewrite app_nil_r; done.
      * apply (calm_app [_]); [auto | apply Hq].
      * unfold written; cbn [map concat]; test_false (write_err l k =? ERR_OK); cbn [app]; apply Hq.
      * intros Hall; destruct (Hall k); contradiction.
Qed.

(** After the loop: more is to come, or the buffer is free again. *)
Definition settled (x : tcp_client) : tcp_client :=
  if socks_recv_buf_sent x <? socks_recv_buf_used x then x <| socks_recv_waiting := true |>
  else x <| socks_recv_buf_used := -1 |>.
(** lwIP queues what it has room for, and has room when nothing is queued. *)
Definition lwip_works (l : lwip) : Prop :=
  write_err l 0 = ERR_OK /\ (forall k, write_err l k = ERR_OK \/ write_err l k = ERR_MEM) /\
  output_err l = ERR_OK /\ close_err l = ERR_OK /\ 0 < sndbuf l 0 0.

Lemma send_out_ok c l x tc n sy : lwip_ok l -> client_closed x = false -> pcb_live x = true -> socks_up x = true ->
  dead_ok c x sy -> 0 < n -> writable x -> socks_recv_waiting x = false ->
  exists r q ks, client_socks_recv_send_out c l (alive x tc n sy) =
      Ok (r, if r =? 0 then alive (settled (queued q x)) tc n sy else after_client c (unhook (queued q x)) tc n sy, ks) /\
    calm ks /\ (r = 0 \/ r = -1) /\ 0 <= q <= socks_recv_buf_used x - socks_recv_buf_sent x /\
    (r = 0 -> 0 < socks_recv_tcp_pending x + q <= TCP_SND_BUF /\
       written ks = slice (socks_recv_buf_sent x) q (socks_recv_buf x)) /\
    (lwip_works l -> r = 0).
Proof.
  intros Hl Hc Hp Hup Hd Hn Hw Hwait; pose proof Hw as (HL & Hs & Hu & Hpn).
  destruct (send_out_loop_ok (Z.to_nat (socks_recv_buf_used x)) c l 0 x tc n sy)
    as (b & q & ks & Hrun & Hcalm & Hq & Hqp & Hwr & Hb & Hpos); try done; [lia|].
  assert (forall r ks2 st2, (if negb b then mret (-1) else
      pcb_call (TcpOutput c);;
      if negb (output_err l =? ERR_OK) then client_abort_client c l;; mret (-1) else
      x ← client_get;
      if socks_recv_buf_sent x <? socks_recv_buf_used x then
        if socks_recv_tcp_pending x =? 0 then client_abort_client c l;; mret (-1) else
        client_mod (fun x => x <| socks_recv_waiting := true |>);; mret 0
      else client_mod (fun x => x <| socks_recv_buf_used := -1 |>);; mret 0)
      (if b then alive (queued q x) tc n sy else after_client c (unhook (queued q x)) tc n sy) = Ok (r, st2, ks2) ->
    st2 = (if r =? 0 then alive (settled (queued q x)) tc n sy else after_client c (unhook (queued q x)) tc n sy) ->
    calm ks2 -> written ks2 = [] -> (r = 0 \/ r = -1) -> (r = 0 -> 0 < socks_recv_tcp_pending x + q) -> (lwip_works l -> r = 0) ->
    exists r q ks, client_socks_recv_send_out c l (alive x tc n sy) =
      Ok (r, if r =? 0 then alive (settled (queued q x)) tc n sy else after_client c (unhook (queued q x)) tc n sy, ks) /\
    calm ks /\ (r = 0 \/ r = -1) /\ 0 <= q <= socks_recv_buf_used x - socks_recv_buf_sent x /\
    (r = 0 -> 0 < socks_recv_tcp_pending x + q <= TCP_SND_BUF /\
       written ks = slice (socks_recv_buf_sent x) q (socks_recv_buf x)) /\
    (lwip_works l -> r = 0)) as Hdone.
  { intros r ks2 st2 H2 -> Hc2 Hw2 Hr Hr0 Hh; exists r, q, (ks ++ ks2); split_and!; auto; try lia.
    - unfold client_socks_recv_send_out; pstep.
      pstep_by ltac:(apply passert_ok; rewrite Hc; done); pstep_by ltac:(apply passert_ok; done).
      pstep_by ltac:(apply passert_ok; lia); pstep_by ltac:(apply passert_ok; lia).
      pstep_by ltac:(apply passert_ok; rewrite Hwait; done).
      etransitivity; [eapply pbind_calls; [exact Hrun | exact H2]|]; done.
    - intros Hr'; specialize (Hr0 Hr'); rewrite written_app, Hw2, app_nil_r; split; [lia | done]. }
  destruct b; cbn [negb] in Hdone.
  2: { apply (Hdone (-1) [] (after_client c (unhook (queued q x)) tc n sy)); [reflexivity | cbn [Z.eqb]; reflexivity | auto | done | auto | lia |].
       intros (_ & Hall & _); discriminate (Hb Hall). }
  set (x1 := queued q x) in *.
  destruct (client_abort_client_eq c l x1 tc n sy) as (ka & Hab & [Hqa Hca]); [done..|].
  assert (forall st2, st2 = after_client c (unhook x1) tc n sy ->
    (TcpOutput c :: ka) = [TcpOutput c] ++ ka /\ calm (TcpOutput c :: ka) /\ written (TcpOutput c :: ka) = []) as Hout.
  { intros; split; [done|]; split; [apply (calm_app [_]); auto | rewrite <- Hqa; done]. }
  destruct (Hout _ eq_refl) as (_ & Hco & Hwo).
  destruct (output_err l =? ERR_OK) eqn:Ho; cbn [negb] in Hdone.
  2: { apply (Hdone (-1) (TcpOutput c :: ka) (after_client c (unhook x1) tc n sy)); auto; try lia; try done.
       - etransitivity; [eapply pbind_calls; [apply pcb_call_eq; done | eapply pbind_calls; [exact Hab | reflexivity]]|].
         rewrite app_nil_r; done.
       - intros (_ & _ & Ho' & _); rewrite Ho' in Ho; done. }
  destruct (socks_recv_buf_sent x1 <? socks_recv_buf_used x1) eqn:Hmore.
  - destruct (Z.eqb_spec (socks_recv_tcp_pending x1) 0) as [Hz|Hz].
    + apply (Hdone (-1) (TcpOutput c :: ka) (after_client c (unhook x1) tc n sy)); auto; try lia; try done.
      * etransitivity; [eapply pbind_calls; [apply pcb_call_eq; done | pstep_by ltac:(apply get_eq); rewrite Hmore, Hz; eapply pbind_calls; [exact Hab | reflexivity]]|].
        rewrite app_nil_r; done.
      * intros (Hw0 & _ & _ & _ & Hs0); change (socks_recv_tcp_pending x1) with (q + socks_recv_tcp_pending x) in Hz.
        assert (socks_recv_tcp_pending x = 0) as Hx0 by lia; rewrite Hx0 in Hpos; specialize (Hpos Hw0 Hs0); lia.
    + apply (Hdone 0 [TcpOutput c] (alive (x1 <| socks_recv_waiting := true |>) tc n sy)); auto; try done.
      * etransitivity; [eapply pbind_calls; [apply pcb_call_eq; done | pstep_by ltac:(apply get_eq); rewrite Hmore; test_false (socks_recv_tcp_pending x1 =? 0); reflexivity]|done].
      * cbn [Z.eqb]; unfold settled; rewrite Hmore; done.
      * change (socks_recv_tcp_pending x1) with (q + socks_recv_tcp_pending x) in Hz; lia.
  - apply (Hdone 0 [TcpOutput c] (alive (x1 <| socks_recv_buf_used := -1 |>) tc n sy)); auto; try done.
    + etransitivity; [eapply pbind_calls; [apply pcb_call_eq; done | pstep_by ltac:(apply get_eq); rewrite Hmore; reflexivity]|done].
    + cbn [Z.eqb]; unfold settled; rewrite Hmore; done.
    + change (socks_recv_buf_sent x1) with (q + socks_recv_buf_sent x) in Hmore;
        change (socks_recv_buf_used x1) with (socks_recv_buf_used x) in Hmore; lia.
Qed.

(** * The interfaces of a client *)

Lemma on_if_nil get put m f x tc n sy i : m (get x) = Ok (tt, i, []) ->
  on_if get put m f (alive x tc n sy) = Ok (tt, alive (put i x) tc n sy, []).
Proof. intros Hm; unfold on_if; cbn [this alive]; rewrite Hm; done. Qed.
Lemma on_if_one get put m f x tc n sy i k s1 ks : m (get x) = Ok (tt, i, [k]) ->
  f k (alive (put i x) tc n sy) = Ok (tt, s1, ks) ->
  on_if get put m f (alive x tc n sy) = Ok (tt, s1, ks).
Proof.
  intros Hm Hf; unfold on_if; cbn [this alive]; rewrite Hm; cbn [foreach].
  change ((alive x tc n sy) <| this := Some (put i x) |>) with (alive (put i x) tc n sy).
  etransitivity; [eapply pbind_calls; [exact Hf | reflexivity]|]; rewrite app_nil_r; done.
Qed.

(** * One event at a client *)

(** Steps over an update of the client, naming the result. *)
Lemma client_mod_eq f x y tc n sy : f x = y -> client_mod f (alive x tc n sy) = Ok (tt, alive y tc n sy, []).
Proof. intros <-; done. Qed.
Ltac mod_to y := pstep_by ltac:(apply (client_mod_eq _ _ y); reflexivity).

(** The client is freed and off the list, or keeps the invariant. *)
Definition kept (c : Z) (g : ghost) (tc : list Z) (n : Z) (s : st) : Prop :=
  match this s with
  | Some x => inv x g /\ dead_ok c x (sync s) /\ tcp_clients s = tc /\ num_clients s = n
  | None => tcp_clients s = remove_node c tc /\ num_clients s = -1 + n
  end.
Definition is_open (o : option tcp_client) : Prop :=
  match o with Some x => client_closed x = false | None => False end.
(** A client that stays open starts to wait or leaves the frame alone; one that closes kills it. *)
Definition synced (c : Z) (x : tcp_client) (sy : option frame) (s : st) : Prop :=
  (client_closed x = true -> ~ is_open (this s)) /\
  ((is_open (this s) /\ (sync s = sy \/ sy = None /\ exists k, sync s = Some (mk_frame c false k))) \/
   (~ is_open (this s) /\ sync s = if client_closed x then sy else kill_of c sy)).

(** What lwIP is told, by the callback it called: [ERR_ABRT] when its pcb is gone; a buffer is
    freed when it was accepted, and left to lwIP when there is no room for it. *)
Definition answered (c : Z) (e : event) (x : tcp_client) (r : option Z) (s : st) (ks : list tcp_call) : Prop :=
  match e with
  | ERecv _ p =>
      r = None /\ is_open (this s) /\ (exists d, p = Some d /\ sync s = Some (mk_frame c false (AfterRecv d))) /\
        (forall d, PbufFree d ∉ ks) \/
      r = Some ERR_OK /\ is_open (this s) /\ (exists d, p = Some d /\ ks = [PbufFree d]) \/
      r = Some ERR_MEM /\ this s = Some x /\ ks = [] /\ (exists d, p = Some d /\ TCP_WND - buf_used x < Zlen d) \/
      r = Some ERR_ABRT /\ ~ is_open (this s) /\ p = None
  | ESent _ _ =>
      r = None /\ is_open (this s) /\ sync s = Some (mk_frame c false AfterSent) \/
      r = Some ERR_OK /\ is_open (this s) \/
      r = Some ERR_ABRT /\ ~ is_open (this s)
  | _ => r = None
  end.
(** A client that ends in order has passed on all it had. *)
Definition drained (e : event) (s : st) (g : ghost) : Prop :=
  match e with
  | ESendCompleted _ => ~ is_open (this s) -> this s = None -> g_taken g = g_in g
  | ESent l _ => lwip_works l -> ~ is_open (this s) -> g_out g = g_from g /\ g_acked g = Zlen (g_out g)
  | _ => True
  end.

Definition handled (c : Z) (e : event) (x : tcp_client) (g : ghost) (tc : list Z) (n : Z) (sy : option frame) : Prop :=
  exists r s ks, handle c e (alive x tc n sy) = Ok (r, s, ks) /\
    kept c (count e x r ks g) tc n s /\ synced c x sy s /\ answered c e x r s ks /\ drained e s (count e x r ks g).

(** Reduces projections of updated clients. *)
Ltac proj := unfold queued, settled, shut_client, unhook, unhooked, put_send, put_recv, update in *;
  cbn [local_addr remote_addr socks_username pcb_live pcb_err pcb_recv pcb_sent dead_client
  client_closed buf buf_used socks_up socks_closed socks_send_if socks_recv_if socks_recv_buf
  socks_recv_buf_used socks_recv_buf_sent socks_recv_waiting socks_recv_tcp_pending
  g_send_busy g_recv_busy g_in g_taken g_from g_out g_acked g_recved] in *.

Ltac cl_cbn :=
  cbn [local_addr remote_addr socks_username pcb_live pcb_err pcb_recv pcb_sent dead_client
  client_closed buf buf_used socks_up socks_closed socks_send_if socks_recv_if socks_recv_buf
  socks_recv_buf_used socks_recv_buf_sent socks_recv_waiting socks_recv_tcp_pending
  g_send_busy g_recv_busy g_in g_taken g_from g_out g_acked g_recved].

Ltac goal_proj := unfold queued, settled, shut_client, unhook, unhooked, put_send, put_recv, update; cl_cbn.

Lemma after_client_kept c y g tc n sy : mem_ok y -> send_ok y g -> recv_ok y g -> pcb_live y = false ->
  kept c g tc n (after_client c y tc n sy).
Proof.
  intros Hm Hs Hr Hp; unfold after_client, kept, keeps; destruct ((0 <? buf_used y) && negb (socks_closed y)) eqn:Hk; [|done].
  apply andb_true_iff in Hk as [Hb Hsc]; apply negb_true_iff in Hsc.
  cbn [this alive]; split; [|done]; split; [exact Hm|]; split_and!.
  - split; proj; [intros _; split_and!; [done | lia | done] | congruence].
  - exact Hs.
  - exact Hr.
  - intros Hc; proj; done.
Qed.
Lemma after_client_closed c y tc n sy : ~ is_open (this (after_client c y tc n sy)).
Proof. unfold after_client; destruct (keeps y); cbn; congruence || auto. Qed.
Lemma after_client_sync c y tc n sy : sync (after_client c y tc n sy) = kill_of c sy.
Proof. unfold after_client; destruct (keeps y); done. Qed.
Lemma after_client_synced c x y tc n sy : client_closed x = false -> synced c x sy (after_client c y tc n sy).
Proof.
  intros Hx; pose proof (after_client_closed c y tc n sy); split; [auto|].
  right; rewrite after_client_sync, Hx; auto.
Qed.

Lemma after_socks_kept c x g tc n sy : inv x g -> dead_ok c x sy -> kept c g tc n (after_socks c x tc n sy).
Proof.
  intros (Hm & Hs & Hsend & Hr & Ho) Hd; unfold after_socks, kept; destruct (client_closed x) eqn:Hc; [done|].
  destruct (drains x) eqn:Hdr; [|done]; unfold drains in Hdr; apply andb_true_iff in Hdr as [Hup Hdr].
  cbn [this alive]; unfold shut_socks; rewrite Hc, Hup; cbn [negb andb].
  destruct (Ho Hc) as (Hp1 & Hp2 & Hp3 & Hp4 & Hrec & Hopen); rewrite Hup in Hopen.
  split_and!; try done; split_and!; try (intros Hf; discriminate Hf); try apply Hm.
  - split; proj; [congruence|]; intros _; split; [done|].
    destruct Hopen as (? & ? & ? & [?|?] & ?); lia.
  - intros _; unfold unsent in *; proj; rewrite Hup, Hp1, Hp2, Hp4; split_and!; try done; apply Hopen.
Qed.
Lemma after_socks_synced c x tc n sy : synced c x sy (after_socks c x tc n sy).
Proof.
  unfold after_socks, synced; destruct (client_closed x) eqn:Hc; cbn; [auto|].
  destruct (drains x); cbn; [|auto]; split; [done|]; left; split; [|auto].
  unfold shut_socks; rewrite Hc; destruct (_ && _); exact Hc.
Qed.

Lemma count_quiet e x r ks g : quiet ks -> (match e with
  | ESendDone _ | ERecvDone _ | ERecvCompleted _ | ESent _ _ => False
  | ERecv _ p => p = None | _ => True end) -> count e x r ks g = g.
Proof.
  intros (Hw & Hr & Hs & Hv & _) He; unfold count; rewrite Hw, Hr, Hs, Hv, app_nil_r, !orb_false_r, Z.add_0_r.
  destruct g, e as [? []| | | | | | | | | |]; try done; destruct (SPI.job_operation_data _); done.
Qed.

(** Data appended to what is in the buffer. *)

Lemma taken_bound x g : mem_ok x -> send_ok x g -> socks_closed x = false -> 0 <= taken_now x <= buf_used x.
Proof.
  intros (_ & _ & Hu) Hs Hc; destruct (Hs Hc) as [_ Hif]; unfold taken_now.
  destruct (socks_up x); cbn [andb]; [|lia]; destruct (SPI.job_done (socks_send_if x)) eqn:Hj; [|lia].
  destruct Hif as ((_ & Hst) & _ & Hn); destruct (SPI.state (socks_send_if x)) eqn:E; destruct_and?; try congruence.
  destruct Hn as [_ Hn]; [done | lia].
Qed.

Lemma open_client x g : inv x g -> pcb_live x = true -> client_closed x = false.
Proof.
  intros (_ & [Hs _] & _) Hp; destruct (client_closed x); [|done]; destruct (Hs eq_refl); congruence.
Qed.

(** The buffer after a receipt, before anything is sent. *)
Definition received (p : list Z) (x : tcp_client) : tcp_client :=
  x <| buf := mem_set (buf x) (buf_used x) p |> <| buf_used ::= Z.add (Zlen p) |>.

Lemma received_send_ok p x g g' : mem_ok x -> send_ok x g -> socks_closed x = false ->
  buf_used x + Zlen p <= TCP_WND -> 0 < Zlen p ->
  g_send_busy g' = g_send_busy g -> g_in g' = g_in g ++ p -> g_taken g' = g_taken g ->
  (socks_up x = true -> 0 < buf_used x) -> send_ok (received p x) g'.
Proof.
  intros Hm Hs Hsc Hp Hp0 Hb Hin Ht Hu _; pose proof (taken_bound x g Hm Hs Hsc) as Htb.
  destruct (Hs Hsc) as [Hst Hif]; pose proof Hm as (HL & _ & Hbu).
  split; [|unfold received; proj; rewrite Hb; destruct (socks_up x); [|done]; destruct Hif as (? & Hi & Hn);
    split; [done|]; split; [intros E; specialize (Hu eq_refl); specialize (Hi E); lia | intros E; destruct (Hn E); split; [done | lia]]].
  rewrite Hin, Ht, Hst, <- app_assoc; f_equal; change (taken_now (received p x)) with (taken_now x).
  unfold received; proj; rewrite slice_append by lia; done.
Qed.

Lemma recv_handled c l p x g tc n sy : inv x g -> dead_ok c x sy -> 0 < n -> enabled c (ERecv l p) x g sy ->
  handled c (ERecv l p) x g tc n sy.
Proof.
  intros Hinv Hd Hn (-> & Hp & Hrecv & Hl & Hdata); pose proof Hinv as (Hm & Hs & Hsend & Hr & Ho).
  pose proof (open_client x g Hinv Hp) as Hc.
  destruct (Ho Hc) as (Hp1 & Hp2 & Hpr & Hp4 & Hrec & Hopen); rewrite Hpr in Hrecv; apply negb_true_iff in Hrecv as Hsc; clear Hrecv.
  assert (forall r s ks, (match p with
      | None => client_free_client c l;; mret (Some ERR_ABRT)
      | Some p =>
        passert (0 <? Zlen p);;
        if TCP_WND - buf_used x <? Zlen p then mret (Some ERR_MEM) else
        b ← plift (mem_write (buf x) (buf_used x) p);
        client_mod (fun x => x <| buf := b |> <| buf_used ::= Z.add (Zlen p) |>);;
        x ← client_get;
        if (buf_used x =? Zlen p) && socks_up x then
          passert (negb (socks_closed x));; client_send_to_socks;; sync_commit c (AfterRecv p)
        else pcall (PbufFree p);; mret (Some ERR_OK)
      end) (alive x tc n None) = Ok (r, s, ks) ->
    handle c (ERecv l p) (alive x tc n None) = Ok (r, s, ks)) as Hrun0.
  { intros r s ks <-; cbn [handle]; unfold client_recv_func; pstep; pstep_by ltac:(apply passert_ok; rewrite Hc; done); done. }
  destruct p as [p|].
  2: { destruct (client_free_client_eq c l x tc n None) as (ks & Hrun & Hq); try done.
       eexists _, _, _; split; [|split_and!].
       - apply Hrun0; eapply pbind_calls; [exact Hrun | reflexivity].
       - rewrite app_nil_r, count_quiet by done; apply after_client_kept; done.
       - apply after_client_synced; done.
       - right; right; right; split_and!; [done | apply after_client_closed | done].
       - done. }
  pose proof Hm as (HL & HL2 & Hu).
  destruct (TCP_WND - buf_used x <? Zlen p) eqn:Hroom.
  { exists (Some ERR_MEM), (alive x tc n None), []; split; [|split_and!].
    - apply Hrun0; pstep_by ltac:(apply passert_ok; lia); done.
    - unfold count; rewrite bool_decide_eq_true_2 by done; cbn [existsb written map concat recved].
      rewrite app_nil_r, !orb_false_r, Z.add_0_r; destruct g; done.
    - split; [congruence | left; split; [exact Hc | auto]].
    - right; right; left; split_and!; try done; exists p; split; [done | lia].
    - done. }
  assert (mem_write (buf x) (buf_used x) p = Ok (mem_set (buf x) (buf_used x) p)) as Hwrite by (apply mem_write_ok; lia).
  assert (mem_ok (received p x)) as Hm1.
  { split; [|split]; [change (Zlen (mem_set (buf x) (buf_used x) p) = TCP_WND); rewrite Zlen_mem_set by lia; done | exact HL2 |].
    change (0 <= Zlen p + buf_used x <= TCP_WND); lia. }
  assert (forall r ks g', (r = Some ERR_MEM -> False) -> count (ERecv l (Some p)) x r ks g = g' -> recved ks = 0 -> written ks = [] ->
    g_in g' = g_in g ++ p /\ g_taken g' = g_taken g /\ g_from g' = g_from g /\ g_out g' = g_out g /\
    g_acked g' = g_acked g /\ g_recved g' = g_recved g) as Hcount.
  { intros r ks g' Hr0 <- Hr1 Hw1; unfold count; rewrite bool_decide_eq_false_2 by auto; proj.
    rewrite Hr1, Hw1, app_nil_r, Z.add_0_r; done. }
  assert (forall y g', client_closed y = false -> mem_ok y -> send_ok y g' -> recv_ok y g' -> buf_used y = Zlen p + buf_used x ->
    (pcb_live y, pcb_err y, pcb_recv y, pcb_sent y, socks_up y, socks_closed y) =
      (pcb_live x, pcb_err x, pcb_recv x, pcb_sent x, socks_up x, socks_closed x) ->
    (socks_recv_tcp_pending y, socks_recv_if y, socks_recv_buf y, socks_recv_buf_used y, socks_recv_buf_sent y, socks_recv_waiting y) =
      (socks_recv_tcp_pending x, socks_recv_if x, socks_recv_buf x, socks_recv_buf_used x, socks_recv_buf_sent x, socks_recv_waiting x) ->
    g_in g' = g_in g ++ p /\ g_taken g' = g_taken g /\ g_from g' = g_from g /\ g_out g' = g_out g /\
    g_acked g' = g_acked g /\ g_recved g' = g_recved g -> inv y g') as Hinv'.
  { intros y g' Hyc Hym Hys Hyr Hyu [= E1 E2 E3 E4 E5 E6] [= F1 F2 F3 F4 F5 F6] (G1 & G2 & G3 & G4 & G5 & G6).
    split_and!; [done| |done|done|].
    - split; [congruence|]; rewrite E6, Hsc; discriminate.
    - intros _; unfold unsent; rewrite E1, E2, E3, E4, E5, E6, F1, F2, F3, F4, F5, F6, G1, G3, G4, G5, G6, Zlen_app, Hyu.
      split_and!; try done; intros; specialize (Hrec Hsc); lia. }
  destruct ((buf_used (received p x) =? Zlen p) && socks_up x) eqn:Hfirst.
  - apply andb_true_iff in Hfirst as [Hz Hup]; change (buf_used (received p x)) with (Zlen p + buf_used x) in Hz.
    assert (buf_used x = 0) as Hz0 by lia.
    destruct (Hsend Hsc) as [Hst Hif]; rewrite Hup in Hif; destruct Hif as (Hspi & _ & Hne).
    assert (SPI.state (socks_send_if x) = ST_NONE) as Hidle.
    { destruct (SPI.state (socks_send_if x)) eqn:E; [done|..]; exfalso; destruct Hne as [_ Hlen]; try done;
        destruct Hspi as [_ Hspi]; rewrite E in Hspi; lia. }
    destruct (spi_send_eq _ _ 0 (Zlen p + buf_used x) Hspi Hidle) as [Hsnd Hspi']; [lia|].
    set (i := sending (socks_send_if x) 0 (Zlen p + buf_used x)) in *.
    set (y := (put_send i (received p x)) <| dead_client := true |>).
    exists None, (alive y tc n (Some (mk_frame c false (AfterRecv p)))), []; split; [|split_and!].
    + apply Hrun0; pstep_by ltac:(apply passert_ok; lia); pstep_by ltac:(rewrite Hwrite; reflexivity).
      mod_to (received p x); pstep; change (buf_used (received p x)) with (Zlen p + buf_used x).
      test_true (Zlen p + buf_used x =? Zlen p); change (socks_up (received p x)) with (socks_up x); rewrite Hup; cbn [andb].
      pstep_by ltac:(apply passert_ok; change (socks_closed (received p x)) with (socks_closed x); rewrite Hsc; done).
      assert (client_send_to_socks (alive (received p x) tc n None) = Ok (tt, alive (put_send i (received p x)) tc n None, [])) as Hss.
      { unfold client_send_to_socks; pstep.
        pstep_by ltac:(apply passert_ok; change (socks_closed (received p x)) with (socks_closed x); rewrite Hsc; done).
        pstep_by ltac:(apply passert_ok; exact Hup); pstep_by ltac:(apply passert_ok; change (buf_used (received p x)) with (Zlen p + buf_used x); lia).
        apply on_if_nil; exact Hsnd. }
      pstep_by ltac:(exact Hss); reflexivity.
    + set (g' := count _ _ _ _ _); destruct (Hcount None [] g') as (G1 & G2 & G3 & G4 & G5 & G6); [done..|].
      split; [|split_and!; try done].
      2: { intros _; cbn; rewrite Z.eqb_refl; done. }
      apply Hinv'; try done.
      * intros _; rewrite G1, G2, Hst; split.
        { change (taken_now y) with (if socks_up x && SPI.job_done (socks_send_if x) then SPI.job_done_len (socks_send_if x) else 0).
          unfold taken_now; destruct Hspi as [_ Hspi]; rewrite Hidle in Hspi; destruct Hspi as (_ & -> & _).
          rewrite andb_false_r, Hz0, <- app_assoc; f_equal; cbn [app].
          change (buf y) with (mem_set (buf x) (buf_used x) p); change (buf_used y) with (Zlen p + buf_used x).
          rewrite slice_append by lia; rewrite Hz0; done. }
        change (socks_up y) with (socks_up x); rewrite Hup.
        change (g_send_busy g') with (g_send_busy g || false); rewrite orb_false_r.
        split; [exact Hspi'|]; split; [done|]; intros _; split; [done | reflexivity].
      * intros _; change (g_recv_busy g') with (g_recv_busy g || false); rewrite orb_false_r; exact (Hr Hsc).
    + split; [congruence|]; left; split; [exact Hc | right; split; [done | eauto]].
    + left; split_and!; [done | exact Hc | eauto | intros d Hdd; inversion Hdd].
    + done.
  - assert (socks_up x = true -> 0 < buf_used x) as Hpos.
    { intros Hup; change (buf_used (received p x)) with (Zlen p + buf_used x) in Hfirst; rewrite Hup, andb_true_r in Hfirst; lia. }
    exists (Some ERR_OK), (alive (received p x) tc n None), [PbufFree p]; split; [|split_and!].
    + apply Hrun0; pstep_by ltac:(apply passert_ok; lia); pstep_by ltac:(rewrite Hwrite; reflexivity).
      mod_to (received p x); pstep; change (socks_up (received p x)) with (socks_up x); rewrite Hfirst; done.
    + set (g' := count _ _ _ _ _); destruct (Hcount (Some ERR_OK) [PbufFree p] g') as (G1 & G2 & G3 & G4 & G5 & G6); [done..|].
      split; [|split_and!; try done].
      apply Hinv'; try done.
      * apply (received_send_ok p x g); try done; [lia|]. change (g_send_busy g') with (g_send_busy g || false); rewrite orb_false_r; done.
      * intros _; change (g_recv_busy g') with (g_recv_busy g || false); rewrite orb_false_r; exact (Hr Hsc).
    + split; [congruence|]; left; split; [exact Hc | auto].
    + right; left; split_and!; [done | exact Hc | eauto].
    + done.
Qed.

Lemma synced_same c x y tc n sy : client_closed y = client_closed x -> synced c x sy (alive y tc n sy).
Proof.
  intros E; unfold synced; cbn; rewrite E; split; [congruence|].
  destruct (client_closed x); [right; auto | left; auto].
Qed.

Ltac inv_split := split; [|split; [|split; [|split]]].
(** Only the interface to send changes. *)
Lemma inv_put_send i x g g' : inv x g -> send_ok (put_send i x) g' ->
  g_recv_busy g' = g_recv_busy g -> g_in g' = g_in g -> g_from g' = g_from g -> g_out g' = g_out g ->
  g_acked g' = g_acked g -> g_recved g' = g_recved g -> inv (put_send i x) g'.
Proof.
  intros (Hm & Hs & _ & Hr & Ho) Hsend E1 E2 E3 E4 E5 E6; inv_split; try done.
  - intros Hc; unfold put_send; proj; rewrite E1; exact (Hr Hc).
  - intros Hc; unfold unsent; proj; rewrite E2, E3, E4, E5, E6; exact (Ho Hc).
Qed.
Lemma inv_put_recv i x g g' : inv x g -> recv_ok (put_recv i x) g' -> SPI.state i <> ST_NONE ->
  g_send_busy g' = g_send_busy g -> g_in g' = g_in g -> g_taken g' = g_taken g -> g_from g' = g_from g ->
  g_out g' = g_out g -> g_acked g' = g_acked g -> g_recved g' = g_recved g -> inv (put_recv i x) g'.
Proof.
  intros (Hm & Hs & Hsend & _ & Ho) Hr Hi E1 E2 E3 E4 E5 E6 E7; inv_split; try done.
  - intros Hc; unfold taken_now; proj; rewrite E1, E2, E3; exact (Hsend Hc).
  - intros Hc; destruct (Ho Hc) as (? & ? & ? & ? & ? & Hopen); unfold unsent; proj; rewrite E2, E4, E5, E6, E7.
    split_and!; try done; destruct (socks_up x); [|done].
    destruct Hopen as (Hq & ? & ? & ? & _); split; [exact Hq|]; do 3 (split; [done|]); intros _ E; destruct (Hi E).
Qed.

Lemma handled_simple c e x g tc n sy y ks : handle c e (alive x tc n sy) = Ok (None, alive y tc n sy, ks) ->
  match e with ERecv _ _ | ESent _ _ => False | _ => True end -> client_closed y = client_closed x ->
  dead_client y = dead_client x -> dead_ok c x sy ->
  inv y (count e x None ks g) -> handled c e x g tc n sy.
Proof.
  intros Hrun He Hc Hdc Hd Hinv; exists None, (alive y tc n sy), ks; split; [done|]; split_and!.
  - split; [done|]; split; [|done]; intros Hy; rewrite Hdc; apply Hd; congruence.
  - apply synced_same; done.
  - destruct e; done.
  - destruct e; done.
Qed.

Ltac counted := unfold count; cbn [g_send_busy g_recv_busy g_in g_taken g_from g_out g_acked g_recved existsb is_send is_recv
  written map concat recved]; rewrite ?app_nil_r, ?orb_false_r, ?orb_true_r, ?Z.add_0_r.

Lemma send_op_handled c x g tc n sy : inv x g -> dead_ok c x sy -> enabled c ESendOp x g sy ->
  handled c ESendOp x g tc n sy.
Proof.
  intros Hinv Hd (Hup & Hsc & Hj); pose proof Hinv as (Hm & Hs & Hsend & Hr & Ho).
  destruct (Hsend Hsc) as [Hst Hif]; rewrite Hup in Hif; destruct Hif as (Hspi & _ & Hne).
  destruct (spi_op_eq _ _ Hspi Hj) as (i & Hrun & Hok & Hi & Hdone & Hdone0 & Hst0 & Hda & Hln); destruct (Hne Hst0) as [Hd0 Hl0].
  eapply (handled_simple c ESendOp x g tc n sy (put_send i x)); try done.
  - cbn [handle]; etransitivity; [eapply pbind_calls; [eapply on_if_one; [exact Hrun | reflexivity] | reflexivity]|]; reflexivity.
  - apply (inv_put_send i x g); try done; counted; try done.
    intros _; unfold taken_now in *; proj; counted; rewrite Hup in *; cbn [andb] in *; rewrite Hdone, Hdone0 in *.
    split; [done|]; split; [done|]; split; [done|]; intros _; rewrite Hda, Hln; auto.
Qed.

Lemma send_done_handled c k x g tc n sy : inv x g -> dead_ok c x sy -> enabled c (ESendDone k) x g sy ->
  handled c (ESendDone k) x g tc n sy.
Proof.
  intros Hinv Hd (Hup & Hsc & Hb & Hk); pose proof Hinv as (Hm & Hs & Hsend & Hr & Ho).
  destruct (Hsend Hsc) as [Hst Hif]; rewrite Hup, Hb in Hif; destruct Hif as (Hspi & _ & Hne).
  destruct (spi_done_eq _ k Hspi Hk) as (i & Hrun & Hok & Hi & Hdone & Hlen & Hdone0 & Hst0 & Hda & Hln); destruct (Hne Hst0) as [Hd0 Hl0].
  eapply (handled_simple c (ESendDone k) x g tc n sy (put_send i x)); try done.
  - cbn [handle]; pstep_by ltac:(apply on_if_nil; exact Hrun); reflexivity.
  - apply (inv_put_send i x g); try done; counted; try done.
    intros _; unfold taken_now in *; proj; counted; rewrite Hup in *; cbn [andb] in *; rewrite Hdone, Hdone0, Hlen, Hd0 in *.
    split; [|split; [done|]; split; [done|]; intros _; rewrite Hda, Hln; auto].
    rewrite Hst, <- app_assoc; f_equal; rewrite Z.sub_0_r.
    replace (buf_used x) with (k + (buf_used x - k)) at 1 by lia; rewrite slice_split by lia; done.
Qed.

Lemma recv_op_handled c x g tc n sy : inv x g -> dead_ok c x sy -> enabled c ERecvOp x g sy ->
  handled c ERecvOp x g tc n sy.
Proof.
  intros Hinv Hd (Hup & Hsc & Hj); pose proof Hinv as (Hm & Hs & Hsend & Hr & Ho).
  pose proof (Hr Hsc) as Hif; rewrite Hup in Hif; destruct Hif as (Hspi & Hne).
  destruct (spi_op_eq _ _ Hspi Hj) as (i & Hrun & Hok & Hi & Hdone & Hdone0 & Hst0 & Hda & Hln); destruct (Hne Hst0) as (Hd0 & Hl0 & Hu0).
  eapply (handled_simple c ERecvOp x g tc n sy (put_recv i x)); try done.
  - cbn [handle]; etransitivity; [eapply pbind_calls; [eapply on_if_one; [exact Hrun | reflexivity] | reflexivity]|]; reflexivity.
  - apply (inv_put_recv i x g); try done; counted; try done.
    intros _; proj; counted; rewrite Hup; split; [done|]; intros _; rewrite Hda, Hln; auto.
Qed.

Lemma recv_done_handled c d x g tc n sy : inv x g -> dead_ok c x sy -> enabled c (ERecvDone d) x g sy ->
  handled c (ERecvDone d) x g tc n sy.
Proof.
  intros Hinv Hd (Hup & Hsc & Hb & Hk); pose proof Hinv as (Hm & Hs & Hsend & Hr & Ho).
  pose proof (Hr Hsc) as Hif; rewrite Hup, Hb in Hif; destruct Hif as (Hspi & Hne).
  destruct (spi_done_eq _ (Zlen d) Hspi Hk) as (i & Hrun & Hok & Hi & Hdone & Hlen & Hdone0 & Hst0 & Hda & Hln).
  destruct (Hne Hst0) as (Hd0 & Hl0 & Hu0); pose proof Hm as (HL1 & HL2 & Hu).
  set (x1 := x <| socks_recv_buf := mem_set (socks_recv_buf x) 0 d |>).
  assert (inv x1 g) as Hinv1.
  { inv_split; try done.
    - split; [done|]; split; [|done]; change (Zlen (mem_set (socks_recv_buf x) 0 d) = CLIENT_SOCKS_RECV_BUF_SIZE); rewrite Zlen_mem_set by lia; done.
    - intros Hc; destruct (Ho Hc) as (? & ? & ? & ? & ? & Hopen); unfold x1, unsent in *; proj; split_and!; try done.
      rewrite Hu0 in *; exact Hopen. }
  eapply (handled_simple c (ERecvDone d) x g tc n sy (put_recv i x1)); try done.
  - cbn [handle]; pstep; pstep_by ltac:(rewrite Hd0, mem_write_ok by lia; reflexivity).
    mod_to x1; pstep_by ltac:(apply (on_if_nil _ _ _ _ x1); exact Hrun); reflexivity.
  - apply (inv_put_recv i x1 g); try done; counted; try done.
    intros _; unfold x1; proj; counted; rewrite Hup; split; [done|]; intros _; rewrite Hda, Hln; auto.
Qed.

Lemma err_handled c l x g tc n sy : inv x g -> dead_ok c x sy -> 0 < n -> enabled c (EErr l) x g sy ->
  handled c (EErr l) x g tc n sy.
Proof.
  intros Hinv Hd Hn (Hp & _); pose proof (open_client x g Hinv Hp) as Hc; pose proof Hinv as (Hm & Hs & Hsend & Hr & Ho).
  set (y := x <| pcb_live := false |>).
  destruct (client_handle_freed_client_eq c l y tc n sy) as (ks & Hrun & Hq); try done.
  exists None, (after_client c y tc n sy), ks; split; [|split_and!].
  - cbn [handle]; mod_to y; etransitivity; [eapply pbind_calls; [|reflexivity]|rewrite app_nil_r; reflexivity].
    unfold client_err_func; pstep; pstep_by ltac:(apply passert_ok; change (client_closed y) with (client_closed x); rewrite Hc; done); exact Hrun.
  - rewrite count_quiet by done; apply after_client_kept; done.
  - apply after_client_synced; done.
  - done.
  - done.
Qed.

Lemma slice_whole_move {A} (b : list A) k u : 0 <= k <= u -> u <= Zlen b ->
  mem_move b 0 k (u - k) = Ok (mem_set b 0 (slice k (u - k) b)) /\
  slice 0 (u - k) (mem_set b 0 (slice k (u - k) b)) = slice k (u - k) b /\
  Zlen (mem_set b 0 (slice k (u - k) b)) = Zlen b.
Proof.
  intros Hk Hu; assert (Zlen (slice k (u - k) b) = u - k) as HL by (apply Zlen_slice; lia).
  split_and!.
  - unfold mem_move; rewrite mem_read_ok by lia; cl_cbn; apply mem_write_ok; lia.
  - rewrite <- HL at 1; apply slice_mem_set_eq; lia.
  - apply Zlen_mem_set; lia.
Qed.

Definition consumed (i : SPI.t) (k : Z) (x : tcp_client) : tcp_client :=
  mk_client (local_addr x) (remote_addr x) (socks_username x) (pcb_live x) (pcb_err x) (pcb_recv x) (pcb_sent x)
    (dead_client x) (client_closed x) (mem_set (buf x) 0 (slice k (buf_used x - k) (buf x))) (- k + buf_used x)
    (socks_up x) (socks_closed x) i (socks_recv_if x) (socks_recv_buf x) (socks_recv_buf_used x)
    (socks_recv_buf_sent x) (socks_recv_waiting x) (socks_recv_tcp_pending x).

Lemma consumed_inv i' k x g g' : inv x g -> socks_up x = true -> socks_closed x = false ->
  0 < k <= buf_used x -> taken_now x = k -> SPI.job_done i' = false -> spi_ok i' false ->
  g_send_busy g' = false -> g_recv_busy g' = g_recv_busy g -> g_in g' = g_in g -> g_taken g' = g_taken g ->
  g_from g' = g_from g -> g_out g' = g_out g -> g_acked g' = g_acked g ->
  (client_closed x = true -> 0 < buf_used x - k) ->
  (client_closed x = false -> g_recved g' = g_recved g + k) ->
  (SPI.state i' = ST_NONE -> buf_used x - k = 0) ->
  (SPI.state i' <> ST_NONE -> SPI.job_operation_data i' = Some 0 /\ SPI.job_operation_len i' = buf_used x - k) ->
  inv (consumed i' k x) g'.
Proof.
  intros ((HL & HL2 & Hu) & Hs & Hsend & Hr & Ho) Hup Hsc Hk Ht Hj Hok E1 E2 E3 E4 E5 E6 E7 Hcl Hrec Hn0 Hn1.
  destruct (slice_whole_move (buf x) k (buf_used x)) as (_ & Hsl & HLm); [lia..|].
  destruct (Hsend Hsc) as [Hst _]; rewrite Ht in Hst.
  inv_split.
  - split; [|split; [exact HL2 | unfold consumed; cl_cbn; lia]].
    change (Zlen (mem_set (buf x) 0 (slice k (buf_used x - k) (buf x))) = TCP_WND); rewrite HLm; exact HL.
  - destruct Hs as [Hs1 Hs2]; split; unfold consumed; cl_cbn; [|rewrite Hsc; discriminate].
    intros Hc; destruct (Hs1 Hc) as (? & ? & ?); specialize (Hcl Hc); split; [done|]; split; [lia | done].
  - intros _; rewrite E1, E3, E4; unfold taken_now; unfold consumed; cl_cbn; rewrite Hup, Hj; cbn [andb].
    replace (- k + buf_used x) with (buf_used x - k) by lia; rewrite Z.sub_0_r, Hsl; split; [exact Hst|].
    split; [done|]; split; [exact Hn0|]; intros E; destruct (Hn1 E) as [-> ->]; split; [done | lia].
  - intros Hc; unfold consumed; cl_cbn; rewrite E2; exact (Hr Hsc).
  - intros Hc; destruct (Ho Hc) as (? & ? & ? & ? & Hrc & Hopen); unfold unsent; unfold consumed; cl_cbn; rewrite E3, E5, E6, E7.
    do 4 (split; [done|]); split; [|exact Hopen].
    intros _; specialize (Hrc Hsc); specialize (Hrec Hc); lia.
Qed.

Lemma send_completed_handled c l x g tc n sy : inv x g -> dead_ok c x sy -> 0 < n -> enabled c (ESendCompleted l) x g sy ->
  handled c (ESendCompleted l) x g tc n sy.
Proof.
  intros Hinv Hd Hn (Hup & Hsc & Hj & Hl); pose proof Hinv as (Hm & Hs & Hsend & Hr & Ho).
  destruct (Hsend Hsc) as [Hst Hif]; rewrite Hup in Hif; destruct Hif as (Hspi & _ & Hne).
  destruct (spi_completed_eq _ _ Hspi Hj) as (i & Hrun & Hok & Hi & Hdone & Hst0 & Hk & Hb).
  destruct (Hne Hst0) as [Hd0 Hl0]; set (k := SPI.job_done_len (socks_send_if x)) in *.
  assert (taken_now x = k) as Ht by (unfold taken_now; rewrite Hup, Hj; done).
  pose proof Hm as (HL & HL2 & Hu); rewrite Hb in Hok.
  destruct (slice_whole_move (buf x) k (buf_used x)) as (Hmove & Hsl & _); [lia..|].
  set (x2 := consumed i k x).
  assert (forall s ks, (x ← client_get;
      if 0 <? buf_used x then on_send (SPI.Sender_Send (Some 0) (buf_used x))
      else if client_closed x then client_free_socks c l else pskip) (alive x2 tc n sy) = Ok (tt, s, ks) ->
    handle c (ESendCompleted l) (alive x tc n sy) =
      Ok (None, s, (if client_closed x then [] else [TcpRecved c k]) ++ ks)) as Hhandle.
  { intros s ks Htail; cbn [handle]; etransitivity; [eapply pbind_calls; [eapply on_if_one; [exact Hrun|] | reflexivity]|].
    2: rewrite app_nil_r; reflexivity.
    cbn [send_handler]; unfold client_socks_send_handler_done; pstep.
    pstep_by ltac:(apply passert_ok; change (socks_closed (put_send i x)) with (socks_closed x); rewrite Hsc; done).
    pstep_by ltac:(apply passert_ok; exact Hup).
    change (buf_used (put_send i x)) with (buf_used x); change (buf (put_send i x)) with (buf x).
    do 3 pstep_by ltac:(apply passert_ok; lia).
    pstep_by ltac:(rewrite Hmove; reflexivity); mod_to x2.
    change (client_closed (put_send i x)) with (client_closed x).
    destruct (client_closed x); cbn [negb]; [pstep; exact Htail|].
    etransitivity; [eapply pbind_calls; [reflexivity | exact Htail]|]; done. }
  assert (forall ks, quiet ks -> count (ESendCompleted l) x None ((if client_closed x then [] else [TcpRecved c k]) ++ ks) g =
    mk_ghost (g_send_busy g) (g_recv_busy g) (g_in g) (g_taken g) (g_from g) (g_out g) (g_acked g)
      (g_recved g + if client_closed x then 0 else k)) as Hcount.
  { intros ks (Hw & Hr1 & Hs1 & Hv1 & _); unfold count; rewrite !existsb_app, written_app, recved_app, Hw, Hr1, Hs1, Hv1.
    destruct (client_closed x); cbn [existsb is_send is_recv written map concat recved app]; rewrite ?app_nil_r, ?orb_false_r; f_equal; lia. }
  change (buf_used x2) with (- k + buf_used x) in Hhandle.
  destruct (Z.ltb_spec 0 (buf_used x - k)) as [Hmore|Hmore].
  - destruct (spi_send_eq i false 0 (- k + buf_used x) Hok Hi) as [Hsnd Hok']; [lia|].
    eapply (handled_simple c (ESendCompleted l) x g tc n sy (put_send (sending i 0 (- k + buf_used x)) x2)); try done.
    + apply Hhandle; pstep; change (buf_used x2) with (- k + buf_used x); test_true (0 <? - k + buf_used x).
      apply on_if_nil; exact Hsnd.
    + rewrite Hcount by auto; change (inv (consumed (sending i 0 (- k + buf_used x)) k x) _) || idtac; apply (consumed_inv _ k x g); goal_proj; try done; try lia.
      * intros ->; done.
      * intros _; split; [done | cbn; lia].
  - assert (buf_used x - k = 0) as Hz by lia.
    assert (g_taken g = g_in g) as Hall by (rewrite Hst, Ht, Hz, app_nil_r; done).
    destruct (client_closed x) eqn:Hc.
    + destruct (client_free_socks_eq c l x2 tc n sy) as (ks & Hf & Hq); try done.
      { change (pcb_live x = negb (client_closed x)); rewrite Hc; apply (proj1 Hs Hc). }
      unfold after_socks in Hf; change (client_closed x2) with (client_closed x) in Hf; rewrite Hc in Hf.
      exists None, (freed c tc n sy), ks; split; [|split_and!].
      * apply Hhandle; pstep; change (buf_used x2) with (- k + buf_used x); test_false (0 <? - k + buf_used x).
        change (client_closed x2) with (client_closed x); rewrite Hc; exact Hf.
      * done.
      * split; [auto | right; rewrite Hc; auto].
      * done.
      * intros _ _; pose proof (Hcount ks Hq) as E; cbn [app] in *; rewrite E; exact Hall.
    + eapply (handled_simple c (ESendCompleted l) x g tc n sy x2); try done.
      * apply Hhandle; pstep; change (buf_used x2) with (- k + buf_used x); test_false (0 <? - k + buf_used x).
        change (client_closed x2) with (client_closed x); rewrite Hc; done.
      * rewrite Hcount by auto; apply (consumed_inv _ k x g); goal_proj; try done; try lia.
        congruence.
Qed.

(** ** Towards lwIP *)

(** The stream towards lwIP of a client that is open and up. *)
Definition stream_ok (x : tcp_client) (g : ghost) : Prop :=
  0 <= socks_recv_tcp_pending x <= TCP_SND_BUF /\ socks_recv_tcp_pending x = Zlen (g_out g) - g_acked g /\
  g_from g = g_out g ++ unsent x.
Definition recv_buf_ok (x : tcp_client) : Prop :=
  socks_recv_buf_used x = -1 \/ 0 < socks_recv_buf_used x <= CLIENT_SOCKS_RECV_BUF_SIZE /\
     0 <= socks_recv_buf_sent x < socks_recv_buf_used x /\ socks_recv_waiting x = true /\
     0 < socks_recv_tcp_pending x.

(** Queueing the next [q] bytes. *)
Lemma settled_ok x q g g' : writable x -> stream_ok x g -> 0 <= q <= socks_recv_buf_used x - socks_recv_buf_sent x ->
  0 < socks_recv_tcp_pending x + q <= TCP_SND_BUF ->
  g_out g' = g_out g ++ slice (socks_recv_buf_sent x) q (socks_recv_buf x) -> g_from g' = g_from g -> g_acked g' = g_acked g ->
  stream_ok (settled (queued q x)) g' /\ recv_buf_ok (settled (queued q x)) /\
  0 < socks_recv_tcp_pending (settled (queued q x)) /\
  (socks_recv_buf_used (settled (queued q x)) = -1 \/ 0 < socks_recv_buf_used (settled (queued q x))).
Proof.
  intros (HL & Hs & Hu & Hpn) (Hp1 & Hp2 & Hst) Hq Hpq E1 E2 E3.
  assert (Zlen (slice (socks_recv_buf_sent x) q (socks_recv_buf x)) = q) as HLs by (apply Zlen_slice; lia).
  unfold stream_ok, recv_buf_ok, unsent, settled in *; rewrite E1, E2, E3, Zlen_app, HLs.
  change (socks_recv_buf_sent (queued q x)) with (q + socks_recv_buf_sent x);
    change (socks_recv_buf_used (queued q x)) with (socks_recv_buf_used x).
  assert ((0 <? socks_recv_buf_used x) = true) as Hpos by lia; rewrite Hpos in Hst.
  assert (socks_recv_buf_used x - socks_recv_buf_sent x = q + (socks_recv_buf_used x - (q + socks_recv_buf_sent x))) as Hsplit by lia.
  destruct (Z.ltb_spec (q + socks_recv_buf_sent x) (socks_recv_buf_used x)); proj.
  - replace (0 <? socks_recv_buf_used x) with true by lia.
    split_and!; try lia.
    rewrite Hst, Hsplit, slice_split, app_assoc by lia; do 2 f_equal; lia.
  - cbn [Z.ltb Z.compare]; split_and!; try lia; auto.
    rewrite Hst, Hsplit, app_nil_r; do 2 f_equal; lia.
Qed.

Lemma initiate_eq x i tc n sy busy : client_closed x = false -> socks_closed x = false -> socks_up x = true ->
  socks_recv_buf_used x = -1 -> socks_recv_if x = i -> spi_ok i busy -> SPI.state i = ST_NONE ->
  client_socks_recv_initiate (alive x tc n sy) =
    Ok (tt, alive (put_recv (sending i 0 CLIENT_SOCKS_RECV_BUF_SIZE) x) tc n sy, []).
Proof.
  intros H1 H2 H3 H4 <- Hok Hi; unfold client_socks_recv_initiate; pstep.
  pstep_by ltac:(apply passert_ok; rewrite H1; done); pstep_by ltac:(apply passert_ok; rewrite H2; done).
  pstep_by ltac:(apply passert_ok; done); pstep_by ltac:(apply passert_ok; lia).
  apply on_if_nil, (spi_send_eq _ busy); done.
Qed.

(** What the fields not concerned with the stream towards lwIP need not know. *)
Definition same_rest (x y : tcp_client) : Prop :=
  (local_addr y, remote_addr y, socks_username y, pcb_live y, pcb_err y, pcb_recv y, pcb_sent y, dead_client y, client_closed y, buf y) =
  (local_addr x, remote_addr x, socks_username x, pcb_live x, pcb_err x, pcb_recv x, pcb_sent x, dead_client x, client_closed x, buf x) /\
  (buf_used y, socks_up y, socks_closed y, socks_send_if y, socks_recv_buf y) =
  (buf_used x, socks_up x, socks_closed x, socks_send_if x, socks_recv_buf x).

Lemma stream_inv x y g g' : inv x g -> same_rest x y -> client_closed x = false -> socks_up x = true ->
  stream_ok y g' -> recv_buf_ok y -> recv_ok y g' -> (socks_closed x = true -> 0 < socks_recv_tcp_pending y) ->
  (socks_closed x = false -> SPI.state (socks_recv_if y) = ST_NONE -> 0 < socks_recv_buf_used y) ->
  g_send_busy g' = g_send_busy g -> g_in g' = g_in g -> g_taken g' = g_taken g -> g_recved g' = g_recved g -> inv y g'.
Proof.
  intros (Hm & Hs & Hsend & _ & Ho) [R1 R2] Hc Hup (S1 & S2 & S3) Hb Hr Hpos Hidle E1 E2 E3 E4.
  injection R1 as R1a R1b R1c R1d R1e R1f R1g R1h R1i R1j; injection R2 as R2a R2b R2c R2d R2e.
  destruct (Ho Hc) as (? & ? & ? & ? & ? & _); inv_split.
  - unfold mem_ok; rewrite R1j, R2a, R2e; exact Hm.
  - split; [congruence|]; rewrite R2b, R2c; auto.
  - intros Hsc; unfold taken_now; rewrite E1, E2, E3, R1j, R2a, R2b, R2d; apply Hsend; congruence.
  - done.
  - intros _; rewrite R1d, R1e, R1f, R1g, R2a, R2b, R2c, E2, E4, Hup.
    split; [done|]; split; [done|]; split; [done|]; split; [congruence|]; split; [done|].
    split; [exact S1|]; split; [exact S2|]; split; [exact S3|]; split; [exact Hb | exact Hidle].
Qed.

(** Handing over what is in the buffer, and what follows when it is free again. *)
Lemma settled_rest x q : same_rest x (settled (queued q x)).
Proof. unfold settled; destruct (_ <? _); split; reflexivity. Qed.
Lemma settled_if x q : socks_recv_if (settled (queued q x)) = socks_recv_if x.
Proof. unfold settled; destruct (_ <? _); reflexivity. Qed.
Lemma same_rest_trans x y z : same_rest x y -> same_rest y z -> same_rest x z.
Proof. unfold same_rest; intros [H1 H2] [H3 H4]; rewrite H3, H4; done. Qed.

Lemma calm_count ks : calm ks -> existsb is_send ks = false /\ existsb is_recv ks = false /\ recved ks = 0.
Proof. intros (?&?&?&?); done. Qed.

Lemma recv_idle_ok y g i : socks_up y = true -> socks_recv_if y = i -> spi_ok i (g_recv_busy g) ->
  SPI.state i = ST_NONE -> recv_ok y g.
Proof. intros Hup <- Hok Hi _; rewrite Hup; split; [exact Hok | intros E; contradiction]. Qed.

Definition arrived (i : SPI.t) (k : Z) (x : tcp_client) : tcp_client :=
  mk_client (local_addr x) (remote_addr x) (socks_username x) (pcb_live x) (pcb_err x) (pcb_recv x) (pcb_sent x)
    (dead_client x) (client_closed x) (buf x) (buf_used x) (socks_up x) (socks_closed x) (socks_send_if x) i
    (socks_recv_buf x) k 0 false (socks_recv_tcp_pending x).

Lemma recv_completed_handled c l x g tc n sy : inv x g -> dead_ok c x sy -> 0 < n -> enabled c (ERecvCompleted l) x g sy ->
  handled c (ERecvCompleted l) x g tc n sy.
Proof.
  intros Hinv Hd Hn (Hup & Hsc & Hj & Hl); pose proof Hinv as (Hm & Hs & Hsend & Hr & Ho).
  pose proof (Hr Hsc) as Hif; rewrite Hup in Hif; destruct Hif as (Hspi & Hne).
  destruct (spi_completed_eq _ _ Hspi Hj) as (i & Hrun & Hok & Hi & Hdone & Hst0 & Hk & Hb).
  destruct (Hne Hst0) as (Hd0 & Hl0 & Hu0); set (k := SPI.job_done_len (socks_recv_if x)) in *.
  rewrite Hl0 in Hk; rewrite Hb in Hok.
  set (x1 := put_recv i x).
  assert (forall s ks, (if client_closed x1 then pskip else
      client_mod (fun x => x <| socks_recv_buf_used := k |> <| socks_recv_buf_sent := 0 |> <| socks_recv_waiting := false |>);;
      r ← client_socks_recv_send_out c l;
      if r <? 0 then pskip else
      x ← client_get;
      if socks_recv_buf_used x =? -1 then client_socks_recv_initiate else pskip) (alive x1 tc n sy) = Ok (tt, s, ks) ->
    handle c (ERecvCompleted l) (alive x tc n sy) = Ok (None, s, ks)) as Hhandle.
  { intros s ks Htail; cbn [handle]; etransitivity; [eapply pbind_calls; [eapply on_if_one; [exact Hrun|] | reflexivity]|].
    2: rewrite app_nil_r; reflexivity.
    cbn [recv_handler]; unfold client_socks_recv_handler_done; pstep.
    do 2 pstep_by ltac:(apply passert_ok; lia).
    pstep_by ltac:(apply passert_ok; change (socks_closed (put_recv i x)) with (socks_closed x); rewrite Hsc; done).
    pstep_by ltac:(apply passert_ok; exact Hup).
    pstep_by ltac:(apply passert_ok; change (socks_recv_buf_used (put_recv i x)) with (socks_recv_buf_used x); lia); exact Htail. }
  change (client_closed x1) with (client_closed x) in Hhandle; destruct (client_closed x) eqn:Hc.
  { eapply (handled_simple c (ERecvCompleted l) x g tc n sy x1 []); try done; [apply Hhandle; done|].
    unfold count; rewrite Hc; counted; unfold x1; inv_split; try done.
    - apply (recv_idle_ok _ _ i); [exact Hup | reflexivity | cl_cbn; rewrite Hb; exact Hok | exact Hi].
    - intros E; change (client_closed x = false) in E; congruence. }
  set (x2 := arrived i k x).
  destruct (Ho Hc) as (Hp1 & Hp2 & Hp3 & Hp4 & Hrec & Hopen); rewrite Hup in Hopen.
  destruct Hopen as (Hpn & Hpe & Hst & _ & _); pose proof Hm as (HL & HL2 & Hu).
  assert (writable x2) as Hw2.
  { split; [exact HL2|]; split; [change (0 <= 0 < k); lia|]; split; [change (k <= CLIENT_SOCKS_RECV_BUF_SIZE); lia | exact Hpn]. }
  destruct (send_out_ok c l x2 tc n sy) as (r & q & ks & Hso & Hcalm & Hr0 & Hq & Hsent & _); try done.
  assert (forall r2 s2 ks2, (if r <? 0 then pskip else
      x ← client_get;
      if socks_recv_buf_used x =? -1 then client_socks_recv_initiate else pskip)
      (if r =? 0 then alive (settled (queued q x2)) tc n sy else after_client c (unhook (queued q x2)) tc n sy) = Ok (r2, s2, ks2) ->
    ks2 = [] -> handle c (ERecvCompleted l) (alive x tc n sy) = Ok (None, s2, ks)) as Hhandle2.
  { intros [] s2 ks2 H2 ->; apply Hhandle; mod_to x2; etransitivity; [eapply pbind_calls; [exact Hso | exact H2]|].
    rewrite app_nil_r; done. }
  destruct (calm_count ks Hcalm) as (C1 & C2 & C3).
  destruct Hr0 as [-> | ->]; cbn [Z.eqb Z.ltb Z.compare] in Hhandle2.
  2: { exists None, (after_client c (unhook (queued q x2)) tc n sy), ks; split; [|split; [|split; [|split; [reflexivity | exact I]]]].
       - eapply Hhandle2; [reflexivity | reflexivity].
       - unfold count; rewrite C1, C2, !orb_false_r; apply after_client_kept; [exact Hm | exact Hsend | | reflexivity].
         apply (recv_idle_ok _ _ i); [exact Hup | reflexivity | cl_cbn; rewrite Hb; exact Hok | exact Hi].
       - apply after_client_synced; done. }
  destruct (Hsent eq_refl) as [Hpq Hwr].
  set (g' := count (ERecvCompleted l) x None ks g).
  assert (g_out g' = g_out g ++ slice 0 q (socks_recv_buf x)) as G1 by (unfold g', count; goal_proj; rewrite Hwr; done).
  set (gm := mk_ghost (g_send_busy g) (g_recv_busy g) (g_in g) (g_taken g) (g_from g') (g_out g) (g_acked g) (g_recved g)).
  assert (stream_ok x2 gm) as Hs2.
  { split; [exact Hpn|]; split; [exact Hpe|]; unfold gm, g', count, unsent; goal_proj; rewrite Hc, Hst; unfold unsent; rewrite Hu0.
    change (socks_recv_buf_used x2) with k; change (socks_recv_buf_sent x2) with 0; cbn [Z.ltb Z.compare].
    replace (0 <? k) with true by lia; rewrite app_nil_r, Z.sub_0_r; done. }
  destruct (settled_ok x2 q gm g' Hw2 Hs2 Hq Hpq) as (Sy & By & Py & Uy); [exact G1 | done..|].
  set (y := settled (queued q x2)) in *.
  assert (same_rest x y) as Hrest by (apply (same_rest_trans _ x2); [split; reflexivity | apply settled_rest]).
  assert (socks_recv_if y = i) as Hyi by (unfold y; rewrite settled_if; done).
  assert (g_recv_busy g' = false) as Grb by (unfold g', count; goal_proj; rewrite C2, Hb; done).
  assert (g_send_busy g' = g_send_busy g /\ g_in g' = g_in g /\ g_taken g' = g_taken g /\ g_recved g' = g_recved g) as (G2 & G3 & G4 & G5).
  { unfold g', count; goal_proj; rewrite C1, C3, orb_false_r, Z.add_0_r; done. }
  pose proof Hrest as [R1 R2].
  injection R1 as R1a R1b R1c R1d R1e R1f R1g R1h R1i R1j; injection R2 as R2a R2b R2c R2d R2e.
  destruct Uy as [Uy|Uy].
  - set (z := put_recv (sending i 0 CLIENT_SOCKS_RECV_BUF_SIZE) y).
    destruct (spi_send_eq i false 0 CLIENT_SOCKS_RECV_BUF_SIZE Hok Hi) as [_ Hok']; [done|].
    eapply (handled_simple c (ERecvCompleted l) x g tc n sy z ks); try done.
    + eapply Hhandle2; [|reflexivity]; pstep; replace (socks_recv_buf_used y =? -1) with true by lia.
      apply (initiate_eq y i tc n sy false); congruence.
    + change (count _ _ _ _ _) with g'; apply (stream_inv x z g); try done.
      * intros _; unfold z; goal_proj; rewrite R2b, Hup, Grb; split; [done|]; intros _; split_and!; done.
  - eapply (handled_simple c (ERecvCompleted l) x g tc n sy y ks); try done.
    + eapply Hhandle2; [|reflexivity]; pstep; replace (socks_recv_buf_used y =? -1) with false by lia; done.
    + change (count _ _ _ _ _) with g'; apply (stream_inv x y g); try done.
      apply (recv_idle_ok _ _ i); [congruence | done | rewrite Grb; done | done].
Qed.

(** lwIP has acknowledged [k] bytes. *)
Definition acked (k : Z) (w : bool) (x : tcp_client) : tcp_client :=
  mk_client (local_addr x) (remote_addr x) (socks_username x) (pcb_live x) (pcb_err x) (pcb_recv x) (pcb_sent x)
    (dead_client x) (client_closed x) (buf x) (buf_used x) (socks_up x) (socks_closed x) (socks_send_if x)
    (socks_recv_if x) (socks_recv_buf x) (socks_recv_buf_used x) (socks_recv_buf_sent x) w
    (- k + socks_recv_tcp_pending x).

Lemma sent_prefix c l k x tc n r s ks : client_closed x = false -> socks_up x = true ->
  0 < k <= socks_recv_tcp_pending x ->
  (if 0 <? socks_recv_buf_used x then
    passert (socks_recv_waiting x);;
    passert (socks_recv_buf_sent x <? socks_recv_buf_used x);;
    client_mod (fun x => x <| socks_recv_waiting := false |>);;
    r ← client_socks_recv_send_out c l;
    if r <? 0 then mret (Some ERR_ABRT) else
    x ← client_get;
    passert (0 <? socks_recv_tcp_pending x);;
    if (socks_recv_buf_used x =? -1) && negb (socks_closed x) then
      client_socks_recv_initiate;; sync_commit c AfterSent
    else mret (Some ERR_OK)
  else
  x ← client_get;
  if socks_closed x && (socks_recv_tcp_pending x =? 0) then
    client_free_client c l;; mret (Some ERR_ABRT)
  else mret (Some ERR_OK)) (alive (acked k (socks_recv_waiting x) x) tc n None) = Ok (r, s, ks) ->
  client_sent_func c l k (alive x tc n None) = Ok (r, s, ks).
Proof.
  intros Hc Hup Hk <-; unfold client_sent_func; pstep.
  pstep_by ltac:(apply passert_ok; rewrite Hc; done); pstep_by ltac:(apply passert_ok; done).
  do 2 pstep_by ltac:(apply passert_ok; lia); mod_to (acked k (socks_recv_waiting x) x); done.
Qed.

Lemma inv_acked k w x g : inv x g -> client_closed x = false -> socks_up x = true -> 0 < k <= socks_recv_tcp_pending x ->
  stream_ok (acked k w x) (mk_ghost (g_send_busy g) (g_recv_busy g) (g_in g) (g_taken g) (g_from g) (g_out g) (g_acked g + k) (g_recved g)).
Proof.
  intros (_ & _ & _ & _ & Ho) Hc Hup Hk; destruct (Ho Hc) as (_ & _ & _ & _ & _ & Hopen); rewrite Hup in Hopen.
  destruct Hopen as (H1 & H2 & H3 & _); unfold stream_ok, acked; cl_cbn; split; [lia|]; split; [lia | exact H3].
Qed.

(** A handler that starts to receive again waits. *)
Lemma sent_handled c l k x g tc n sy : inv x g -> dead_ok c x sy -> 0 < n -> enabled c (ESent l k) x g sy ->
  handled c (ESent l k) x g tc n sy.
Proof.
  intros Hinv Hd Hn (-> & Hp & Hsent & Hl & Hk); pose proof Hinv as (Hm & Hs & Hsend & Hr & Ho).
  pose proof (open_client x g Hinv Hp) as Hc; destruct (Ho Hc) as (Hp1 & Hp2 & Hp3 & Hp4 & Hrec & Hopen).
  rewrite Hp4 in Hsent; rewrite Hsent in Hopen; destruct Hopen as (Hpn & Hpe & Hst & Hbuf & Hidle).
  rename Hsent into Hup; assert (0 < k <= socks_recv_tcp_pending x) as Hk' by lia.
  pose proof (fun r s ks => sent_prefix c l k x tc n r s ks Hc Hup Hk') as Hpre.
  set (gm := mk_ghost (g_send_busy g) (g_recv_busy g) (g_in g) (g_taken g) (g_from g) (g_out g) (g_acked g + k) (g_recved g)).
  assert (forall w, stream_ok (acked k w x) gm) as Hsk by (intros w; apply inv_acked; done).
  assert (forall r ks, calm ks -> count (ESent l k) x r ks g = mk_ghost (g_send_busy g) (g_recv_busy g) (g_in g) (g_taken g)
    (g_from g) (g_out g ++ written ks) (g_acked g + k) (g_recved g)) as Hcount.
  { intros r ks (C3 & C1 & C2 & _); unfold count; rewrite C1, C2, C3, !orb_false_r, Z.add_0_r; done. }
  destruct Hbuf as [Hu|(Hu & Hs1 & Hw & Hpos)].
  - rewrite Hu in Hpre; cbn [Z.ltb Z.compare] in Hpre.
    set (y := acked k (socks_recv_waiting x) x) in *; pose proof (Hsk (socks_recv_waiting x)) as Sy; fold y in Sy.
    destruct (socks_closed y && (socks_recv_tcp_pending y =? 0)) eqn:Hend.
    + apply andb_true_iff in Hend as [Hsc Hz].
      destruct (client_free_client_eq c l y tc n None) as (ks & Hf & Hq); try done.
      exists (Some ERR_ABRT), (after_client c (unhook y) tc n None), ks; split; [|split; [|split; [|split]]].
      * apply Hpre; pstep; rewrite Hsc, Hz; cbn [andb]; etransitivity; [eapply pbind_calls; [exact Hf | reflexivity]|].
        rewrite app_nil_r; done.
      * rewrite Hcount by apply Hq; destruct Hq as [-> _]; rewrite app_nil_r.
        unfold after_client, keeps; change (socks_closed (unhook y)) with (socks_closed y); rewrite Hsc, andb_false_r; done.
      * apply after_client_synced; exact Hc.
      * right; right; split; [done | apply after_client_closed].
      * intros _ _; rewrite Hcount by apply Hq; destruct Hq as [-> _]; rewrite app_nil_r; cl_cbn.
        destruct Sy as (_ & S2 & S3); change (unsent y) with (unsent x) in S3; unfold unsent in S3; rewrite Hu in S3.
        cbn [Z.ltb Z.compare] in S3; unfold gm in *; cbn [g_out g_acked g_from] in *.
        rewrite app_nil_r in S3; split; [congruence | lia].
    + exists (Some ERR_OK), (alive y tc n None), []; split; [|split; [|split; [|split]]].
      * apply Hpre; pstep; rewrite Hend; done.
      * rewrite Hcount by auto; cbn [written map concat]; rewrite app_nil_r; fold gm; split; [|split; [exact Hd | done]].
        apply (stream_inv x y g); try done; [left; exact Hu|].
        intros Hsc; change (socks_closed y) with (socks_closed x) in Hend; rewrite Hsc in Hend; cbn [andb] in Hend.
        destruct Sy as ([S1 _] & _); lia.
      * apply synced_same; done.
      * right; left; split; [done | exact Hc].
      * intros _ Ho'; destruct (Ho' Hc).
  - assert ((0 <? socks_recv_buf_used x) = true) as Hupos by lia; rewrite Hupos in Hpre.
    set (x2 := acked k false x) in *; pose proof (Hsk false) as S2; fold x2 in S2.
    pose proof Hm as (HL & HL2 & HLu).
    assert (writable x2) as Hw2 by (split; [exact HL2|]; split; [exact Hs1|]; split; [apply Hu | apply S2]).
    destruct (send_out_ok c l x2 tc n None) as (r & q & ks & Hso & Hcalm & Hr0 & Hq & Hsent & Hworks); try done.
    assert (forall r2 s2 ks2, (if r <? 0 then mret (Some ERR_ABRT) else
      x ← client_get;
      passert (0 <? socks_recv_tcp_pending x);;
      if (socks_recv_buf_used x =? -1) && negb (socks_closed x) then
        client_socks_recv_initiate;; sync_commit c AfterSent
      else mret (Some ERR_OK))
      (if r =? 0 then alive (settled (queued q x2)) tc n None else after_client c (unhook (queued q x2)) tc n None) = Ok (r2, s2, ks2) ->
      ks2 = [] -> handle c (ESent l k) (alive x tc n None) = Ok (r2, s2, ks)) as Hpre2.
    { intros r2 s2 ks2 H2 ->; apply Hpre; pstep_by ltac:(apply passert_ok; exact Hw); pstep_by ltac:(apply passert_ok; lia).
      mod_to x2; etransitivity; [eapply pbind_calls; [exact Hso | exact H2]|]; rewrite app_nil_r; done. }
    destruct Hr0 as [-> | ->]; cbn [Z.eqb Z.ltb Z.compare] in Hpre2.
    2: { exists (Some ERR_ABRT), (after_client c (unhook (queued q x2)) tc n None), ks; split; [|split; [|split; [|split]]].
         - eapply Hpre2; reflexivity.
         - rewrite Hcount by done; apply after_client_kept; [exact Hm | exact Hsend | exact Hr | reflexivity].
         - apply after_client_synced; exact Hc.
         - right; right; split; [done | apply after_client_closed].
         - intros Hlw; discriminate (Hworks Hlw). }
    destruct (Hsent eq_refl) as [Hpq Hwr].
    set (g' := count (ESent l k) x None ks g).
    assert (g' = mk_ghost (g_send_busy g) (g_recv_busy g) (g_in g) (g_taken g)
      (g_from g) (g_out g ++ slice (socks_recv_buf_sent x) q (socks_recv_buf x)) (g_acked g + k) (g_recved g)) as Hg'.
    { unfold g'; rewrite Hcount, Hwr by done; done. }
    destruct (settled_ok x2 q gm g' Hw2 S2 Hq Hpq) as (Sy & By & Py & Uy); [rewrite Hg'; done..|].
    set (y := settled (queued q x2)) in *.
    assert (same_rest x y) as Hrest by (apply (same_rest_trans _ x2); [split; reflexivity | apply settled_rest]).
    assert (socks_recv_if y = socks_recv_if x) as Hyi by (unfold y; rewrite settled_if; done).
    pose proof Hrest as [R1 R2].
    injection R1 as R1a R1b R1c R1d R1e R1f R1g R1h R1i R1j; injection R2 as R2a R2b R2c R2d R2e.
    destruct (socks_closed x) eqn:Hsc.
    + exists (Some ERR_OK), (alive y tc n None), ks; split; [|split; [|split; [|split]]].
      * eapply Hpre2; [|reflexivity]; pstep; pstep_by ltac:(apply passert_ok; lia); rewrite R2c, andb_false_r; done.
      * change (count _ _ _ _ _) with g'; split; [|split; [intros _; rewrite R1h; apply Hd, Hc | done]].
        apply (stream_inv x y g); try done; try (rewrite Hg'; done); [intros E; congruence | congruence].
      * apply synced_same; exact R1i.
      * right; left; split; [done | cbn; congruence].
      * intros _ Ho'; destruct Ho'; cbn; congruence.
    + pose proof (Hr Hsc) as Hif; rewrite Hup in Hif; destruct Hif as (Hspi & Hne).
      assert (SPI.state (socks_recv_if x) = ST_NONE) as Hi.
      { destruct (decide (SPI.state (socks_recv_if x) = ST_NONE)) as [|E]; [done|]; destruct (Hne E) as (_ & _ & E'); lia. }
      destruct Uy as [Uy|Uy].
      * destruct (spi_send_eq _ _ 0 CLIENT_SOCKS_RECV_BUF_SIZE Hspi Hi) as [_ Hok']; [done|].
        set (i := sending (socks_recv_if x) 0 CLIENT_SOCKS_RECV_BUF_SIZE) in *.
        set (z := put_recv i y); set (f := mk_frame c false AfterSent).
        exists None, (alive (z <| dead_client := true |>) tc n (Some f)), ks; split; [|split; [|split; [|split]]].
        -- eapply Hpre2; [|reflexivity]; pstep; pstep_by ltac:(apply passert_ok; lia); rewrite R2c, Uy; cbn [andb negb Z.eqb Pos.eqb].
           pstep_by ltac:(apply (initiate_eq y (socks_recv_if x) tc n None (g_recv_busy g)); congruence); reflexivity.
        -- change (count _ _ _ _ _) with g'; split; [|split; [intros _; cbn; rewrite Z.eqb_refl; done | done]].
           assert (inv z g') as Hz; [|exact Hz].
           apply (stream_inv x z g); try done; try (rewrite Hg'; done).
           intros _; change (socks_up z) with (socks_up y); rewrite R2b, Hup; split; [rewrite Hg'; exact Hok'|].
           intros _; split; [reflexivity|]; split; [reflexivity | exact Uy].
        -- split; [congruence|]; left; split; [change (client_closed y = false); congruence | right; split; [done | exists AfterSent; done]].
        -- left; split; [done|]; split; [change (client_closed y = false); congruence | done].
        -- intros _ Ho'; destruct Ho'; change (client_closed y = false); congruence.
      * exists (Some ERR_OK), (alive y tc n None), ks; split; [|split; [|split; [|split]]].
        -- eapply Hpre2; [|reflexivity]; pstep; pstep_by ltac:(apply passert_ok; lia).
           replace (socks_recv_buf_used y =? -1) with false by lia; done.
        -- change (count _ _ _ _ _) with g'; split; [|split; [intros _; rewrite R1h; apply Hd, Hc | done]].
           apply (stream_inv x y g); try done; try (rewrite Hg'; done).
           apply (recv_idle_ok _ _ (socks_recv_if x)); [congruence | done | rewrite Hg'; done | done].
        -- apply synced_same; exact R1i.
        -- right; left; split; [done | cbn; congruence].
        -- intros _ Ho'; destruct Ho'; cbn; congruence.
Qed.

(** ** The SOCKS client *)

Lemma send_to_socks_eq x i tc n sy busy : socks_closed x = false -> socks_up x = true -> 0 < buf_used x ->
  socks_send_if x = i -> spi_ok i busy -> SPI.state i = ST_NONE ->
  client_send_to_socks (alive x tc n sy) = Ok (tt, alive (put_send (sending i 0 (buf_used x)) x) tc n sy, []).
Proof.
  intros H1 H2 H3 <- Hok Hi; unfold client_send_to_socks; pstep.
  pstep_by ltac:(apply passert_ok; rewrite H1; done); pstep_by ltac:(apply passert_ok; done).
  pstep_by ltac:(apply passert_ok; lia); apply on_if_nil, (spi_send_eq _ busy); done.
Qed.

Definition brought_up (si ri : SPI.t) (x : tcp_client) : tcp_client :=
  mk_client (local_addr x) (remote_addr x) (socks_username x) (pcb_live x) (pcb_err x) (pcb_recv x)
    (if client_closed x then pcb_sent x else true) (dead_client x) (client_closed x) (buf x) (buf_used x) true (socks_closed x)
    si ri (socks_recv_buf x) (-1) (socks_recv_buf_sent x) (socks_recv_waiting x) 0.
Definition start_send (x : tcp_client) : tcp_client :=
  if 0 <? buf_used x then put_send (sending (socks_send_if x) 0 (buf_used x)) x else x.
Definition start_recv (x : tcp_client) : tcp_client :=
  if client_closed x then x else put_recv (sending (socks_recv_if x) 0 CLIENT_SOCKS_RECV_BUF_SIZE) x.

Lemma start_send_keeps x : client_closed (start_send x) = client_closed x /\ dead_client (start_send x) = dead_client x.
Proof. unfold start_send; destruct (0 <? buf_used x); done. Qed.
Lemma start_recv_keeps x : client_closed (start_recv x) = client_closed x /\ dead_client (start_recv x) = dead_client x.
Proof. unfold start_recv; destruct (client_closed x) eqn:E; done. Qed.

Lemma up_run c l si ri x tc n sy si' ri' : socks_closed x = false -> socks_up x = false ->
  pcb_live x = negb (client_closed x) ->
  SPI.Sender_Init si = Ok (tt, si', []) -> spi_ok si' false -> SPI.state si' = ST_NONE ->
  SPI.Sender_Init ri = Ok (tt, ri', []) -> spi_ok ri' false -> SPI.state ri' = ST_NONE ->
  handle c (ESocks l BSOCKSCLIENT_EVENT_UP si ri) (alive x tc n sy) =
    Ok (None, alive (start_recv (start_send (brought_up si' ri' x))) tc n sy, []).
Proof.
  intros Hsc Hup Hp Hs1 Hs2 Hs3 Hr1 Hr2 Hr3; set (x1 := put_recv ri' (put_send si' x)).
  set (x3 := brought_up si' ri' x).
  assert (client_socks_handler c l BSOCKSCLIENT_EVENT_UP si ri (alive x tc n sy) =
    ((if negb (client_closed x) then tcp_sent true else pskip);;
    client_mod (fun x => x <| socks_up := true |>);;
    (if 0 <? buf_used x then client_send_to_socks else pskip);;
    x ← client_get;
    if negb (client_closed x) then client_socks_recv_initiate else pskip)
    (alive (x1 <| socks_recv_buf_used := -1 |> <| socks_recv_tcp_pending := 0 |>) tc n sy)) as Hrun.
  { unfold client_socks_handler; pstep; pstep_by ltac:(apply passert_ok; rewrite Hsc; done).
    pstep_by ltac:(apply passert_ok; rewrite Hup; done); mod_to (put_send si x).
    pstep_by ltac:(apply (on_if_nil _ _ _ _ (put_send si x)); exact Hs1); mod_to (put_recv ri (put_send si' x)).
    pstep_by ltac:(apply (on_if_nil _ _ _ _ (put_recv ri (put_send si' x))); exact Hr1); pstep; done. }
  cbn [handle]; etransitivity; [eapply pbind_calls; [rewrite Hrun|reflexivity]|rewrite app_nil_r; reflexivity].
  assert ((if negb (client_closed x) then tcp_sent true else pskip)
    (alive (x1 <| socks_recv_buf_used := -1 |> <| socks_recv_tcp_pending := 0 |>) tc n sy) =
    Ok (tt, alive (x3 <| socks_up := socks_up x |>) tc n sy, [])) as Hsent.
  { unfold x3, brought_up; destruct (client_closed x) eqn:Hc; cbn [negb]; [destruct x; cbn in Hc; subst; reflexivity|].
    etransitivity; [apply pcb_mod_eq; exact Hp|]; destruct x; cbn in Hc; subst; reflexivity. }
  pstep_by ltac:(exact Hsent); mod_to x3.
  assert ((if 0 <? buf_used x then client_send_to_socks else pskip) (alive x3 tc n sy) = Ok (tt, alive (start_send x3) tc n sy, [])) as Hsend.
  { unfold start_send; change (buf_used x3) with (buf_used x); destruct (Z.ltb_spec 0 (buf_used x)); [|done].
    apply (send_to_socks_eq x3 si' tc n sy false); done. }
  pstep_by ltac:(exact Hsend); pstep.
  assert (client_closed (start_send x3) = client_closed x /\ socks_closed (start_send x3) = false /\ socks_up (start_send x3) = true /\
    socks_recv_buf_used (start_send x3) = -1 /\ socks_recv_if (start_send x3) = ri') as (E1 & E2 & E3 & E4 & E5).
  { unfold start_send; destruct (0 <? buf_used x3); done. }
  unfold start_recv; rewrite E1; destruct (client_closed x); cbn [negb]; [done|].
  rewrite E5; apply (initiate_eq _ _ _ _ _ false); done.
Qed.

Lemma up_inv si' ri' x g : inv x g -> socks_closed x = false -> socks_up x = false ->
  spi_ok si' false -> SPI.state si' = ST_NONE -> spi_ok ri' false -> SPI.state ri' = ST_NONE ->
  inv (start_recv (start_send (brought_up si' ri' x))) g.
Proof.
  intros (Hm & Hs & Hsend & Hr & Ho) Hsc Hup Hs2 Hs3 Hr2 Hr3.
  destruct (Hsend Hsc) as [Hst Hsb]; pose proof (Hr Hsc) as Hrb; rewrite Hup in Hsb, Hrb.
  unfold taken_now in Hst; rewrite Hup in Hst; cbn [andb] in Hst.
  set (x3 := brought_up si' ri' x).
  assert (mem_ok x3 /\ sides_ok x3) as Hms by (split; [exact Hm|]; split; [exact (proj1 Hs) | change (socks_closed x3) with (socks_closed x); congruence]).
  assert (SPI.job_done si' = false) as Hjd by (destruct Hs2 as [_ Hs2]; rewrite Hs3 in Hs2; apply Hs2).
  pose proof Hm as (_ & _ & Hu).
  assert (send_ok (start_send x3) g) as Hsend3.
  { intros _; unfold start_send, taken_now; change (buf_used x3) with (buf_used x); destruct (Z.ltb_spec 0 (buf_used x)).
    - change (socks_up (put_send _ x3)) with true; change (SPI.job_done (socks_send_if (put_send (sending (socks_send_if x3) 0 (buf_used x)) x3))) with (SPI.job_done si').
      rewrite Hjd, Hsb; cbn [andb]; split; [exact Hst|]; cbv iota.
      split; [apply (spi_send_eq si' false 0 (buf_used x) Hs2 Hs3); lia|]; split; [done|]; intros _; split; [done | reflexivity].
    - change (socks_up x3) with true; change (socks_send_if x3) with si'; rewrite Hjd, Hsb; cbn [andb]; split; [exact Hst|]; cbv iota.
      split; [exact Hs2|]; split; [intros _; change (buf_used x3) with (buf_used x); lia | intros E; contradiction]. }
  assert (forall y, client_closed x = false -> y = put_recv (sending ri' 0 CLIENT_SOCKS_RECV_BUF_SIZE) (start_send x3) -> inv y g) as Hopen.
  { intros y Hc ->; destruct (Ho Hc) as (O1 & O2 & O3 & O4 & O5 & O6); rewrite Hup in O6; destruct O6 as (F1 & F2 & F3).
    inv_split.
    - unfold start_send; destruct (0 <? buf_used x3); exact Hm.
    - unfold start_send; destruct (0 <? buf_used x3); apply Hms.
    - exact Hsend3.
    - intros _; assert (socks_up (start_send x3) = true /\ socks_recv_buf_used (start_send x3) = -1) as [E1 E2].
      { unfold start_send; destruct (0 <? buf_used x3); done. }
      change (socks_up (put_recv _ ?y)) with (socks_up y); rewrite E1, Hrb.
      split; [apply (spi_send_eq ri' false 0 _ Hr2 Hr3); done|]; intros _; split; [done|]; split; [reflexivity | exact E2].
    - intros _; assert (exists b, start_send x3 = put_send b x3) as [b ->].
      { unfold start_send; destruct (0 <? buf_used x3); [eauto | exists (socks_send_if x3); done]. }
      change (socks_up _) with true; change (pcb_sent _) with (if client_closed x then pcb_sent x else true); rewrite Hc.
      split; [exact O1|]; split; [exact O2|]; split; [exact O3|]; split; [done|]; split; [exact O5|].
      change (socks_recv_tcp_pending _) with 0; rewrite F1, F2, F3; split; [done|]; split; [done|].
      split; [reflexivity|]; split; [left; reflexivity|]; intros _ E; discriminate E. }
  unfold start_recv; assert (client_closed (start_send x3) = client_closed x /\ socks_recv_if (start_send x3) = ri') as [E1 E2].
  { unfold start_send; destruct (0 <? buf_used x3); done. }
  rewrite E1, E2; destruct (client_closed x) eqn:Hc; [|apply Hopen; done].
  inv_split.
  - unfold start_send; destruct (0 <? buf_used x3); exact Hm.
  - unfold start_send; destruct (0 <? buf_used x3); apply Hms.
  - exact Hsend3.
  - apply (recv_idle_ok _ _ ri'); [unfold start_send; destruct (0 <? buf_used x3); done | done | rewrite Hrb; done | done].
  - intros E; congruence.
Qed.

Lemma socks_handled c l e si ri x g tc n sy : inv x g -> dead_ok c x sy -> 0 < n -> enabled c (ESocks l e si ri) x g sy ->
  handled c (ESocks l e si ri) x g tc n sy.
Proof.
  intros Hinv Hd Hn (Hsc & Hl & Hsi & Hri & He); pose proof Hinv as (Hm & Hs & Hsend & Hr & Ho).
  assert (pcb_live x = negb (client_closed x)) as Hp.
  { destruct (client_closed x) eqn:Hc; [apply (proj1 Hs Hc) | apply (Ho Hc)]. }
  destruct (client_free_socks_eq c l x tc n sy) as (ks & Hf & Hq); try done.
  assert (handle c (ESocks l e si ri) (alive x tc n sy) = Ok (None, after_socks c x tc n sy, ks) ->
    handled c (ESocks l e si ri) x g tc n sy) as Hfree.
  { intros Hrun; exists None, (after_socks c x tc n sy), ks; split; [exact Hrun|]; split; [|split; [|split; [reflexivity | exact I]]].
    - rewrite count_quiet by done; apply after_socks_kept; done.
    - apply after_socks_synced. }
  destruct e.
  - apply Hfree; cbn [handle]; etransitivity; [eapply pbind_calls; [|reflexivity]|rewrite app_nil_r; reflexivity].
    unfold client_socks_handler; pstep; pstep_by ltac:(apply passert_ok; rewrite Hsc; done); exact Hf.
  - destruct (fresh_init si Hsi) as (si' & S1 & S2 & S3), (fresh_init ri Hri) as (ri' & R1 & R2 & R3).
    eapply (handled_simple c _ x g tc n sy); [apply up_run; eauto | done | | | done |].
    + rewrite (proj1 (start_recv_keeps _)), (proj1 (start_send_keeps _)); done.
    + rewrite (proj2 (start_recv_keeps _)), (proj2 (start_send_keeps _)); done.
    + rewrite count_quiet by (done || apply quiet_nil); apply up_inv; done.
  - apply Hfree; cbn [handle]; etransitivity; [eapply pbind_calls; [|reflexivity]|rewrite app_nil_r; reflexivity].
    unfold client_socks_handler; pstep; pstep_by ltac:(apply passert_ok; rewrite Hsc; done).
    pstep_by ltac:(apply passert_ok; exact He); exact Hf.
Qed.

Lemma event_handled c e x g tc n sy : inv x g -> dead_ok c x sy -> 0 < n -> e <> EReturn -> enabled c e x g sy ->
  handled c e x g tc n sy.
Proof.
  intros Hinv Hd Hn He Hen; destruct e; try done.
  - apply recv_handled; done.
  - apply sent_handled; done.
  - apply err_handled; done.
  - apply socks_handled; done.
  - apply send_op_handled; done.
  - apply send_done_handled; done.
  - apply send_completed_handled; done.
  - apply recv_op_handled; done.
  - apply recv_done_handled; done.
  - apply recv_completed_handled; done.
Qed.
