(* ===== verification/TcpRelay.v ===== *)
(** All clients of the TCP relay together: the steps of the program, its invariant, and the
    theorems on the relay of tun2socks/tun2socks.c. *)

From S2P Require Import Prelude Addr FlowIface FlowViews OrderedTree TcpClient TcpClientFacts.

(** * The program's clients *)

(** What the relay can do: handle an event at a client, continue the handler that waits, accept
    a connection at the address of memory that is free. *)
Inductive action :=
| AEvent (c : Z) (e : event)
| AReturn
| AAccept (c : Z) (new : option tcp_client) (local remote : BAddr) (append : bool) (name : option (list Z)) (ok : bool).

Definition run (a : action) : prog relay tcp_call (option Z) := fun r =>
  match a with
  | AEvent c e => on_client c (handle c e) r
  | AReturn => match r_sync r with Some f => on_client (f_client f) (handle (f_client f) EReturn) r | None => Err OutOfBounds end
  | AAccept c new lo re ap na ok => on_client c (listener_accept_func c new lo re ap na ok) r
  end.
(** lwIP accepts while no handler of it waits, and [malloc] returns memory of the size asked for. *)
Definition can (a : action) (r : relay) (gs : gmap Z ghost) : Prop :=
  match a with
  | AEvent c e => e <> EReturn /\ exists x g, clients r !! c = Some x /\ gs !! c = Some g /\ enabled c e x g (r_sync r)
  | AReturn => is_Some (r_sync r)
  | AAccept c new _ _ _ _ _ => r_sync r = None /\ clients r !! c = None /\
      match new with
      | Some x => Zlen (buf x) = TCP_WND /\ Zlen (socks_recv_buf x) = CLIENT_SOCKS_RECV_BUF_SIZE
      | None => True
      end
  end.
Definition track (a : action) (r : relay) (res : option Z) (ks : list tcp_call) (gs : gmap Z ghost) : gmap Z ghost :=
  match a with
  | AEvent c e =>
    match clients r !! c, gs !! c with
    | Some x, Some g => <[c := count e x res ks g]> gs
    | _, _ => gs
    end
  | AReturn => gs
  | AAccept c _ _ _ _ _ _ => <[c := ghost0]> gs
  end.
Inductive step : relay * gmap Z ghost -> relay * gmap Z ghost -> Prop :=
| step_intro a r gs res r' ks : can a r gs -> run a r = Ok (res, r', ks) -> step (r, gs) (r', track a r res ks gs).
Definition relay0 : relay := mk_relay ∅ [] 0 None.
Definition reachable (r : relay) (gs : gmap Z ghost) : Prop := star step (relay0, ∅) (r, gs).

Definition frame_ok (r : relay) : Prop :=
  match r_sync r with
  | Some f => if f_killed f then ~ is_open (clients r !! f_client f) else is_open (clients r !! f_client f)
  | None => True
  end.
Definition r_inv (r : relay) (gs : gmap Z ghost) : Prop :=
  NoDup (r_tcp_clients r) /\ (forall c, c ∈ r_tcp_clients r <-> is_Some (clients r !! c)) /\
  r_num_clients r = Zlen (r_tcp_clients r) /\
  (forall c x, clients r !! c = Some x -> exists g, gs !! c = Some g /\ inv x g /\ dead_ok c x (r_sync r)) /\
  frame_ok r.

Lemma num_pos r gs c x : r_inv r gs -> clients r !! c = Some x -> 0 < r_num_clients r.
Proof.
  intros (_ & Hdom & Hn & _) Hx; rewrite Hn.
  assert (c ∈ r_tcp_clients r) as Hc by (apply Hdom; eauto).
  destruct (r_tcp_clients r); [inversion Hc | rewrite Zlen_cons; pose proof (Zlen_nonneg l); lia].
Qed.

Lemma dead_ok_other c c' x sy s : c' <> c -> dead_ok c' x sy ->
  (sync s = sy \/ sy = None /\ (exists k, sync s = Some (mk_frame c false k)) \/ sync s = kill_of c sy) -> dead_ok c' x (sync s).
Proof.
  intros Hne Hd Hs Hx; specialize (Hd Hx); rewrite Hd; destruct Hs as [->|[(-> & k & ->)| ->]]; [done|..].
  - cbn; test_false (c =? c'); done.
  - destruct sy as [f|]; [|done]; cbn; destruct (Z.eqb_spec (f_client f) c) as [E|]; cbn; [|done].
    rewrite E; test_false (c =? c'); rewrite andb_false_r; done.
Qed.

(** The handling of an event keeps the invariant of the whole. *)
Lemma event_inv c e x g r gs : r_inv r gs -> clients r !! c = Some x -> gs !! c = Some g -> e <> EReturn ->
  enabled c e x g (r_sync r) ->
  exists res s ks, on_client c (handle c e) r = Ok (res, put_view c s r, ks) /\
    r_inv (put_view c s r) (<[c := count e x res ks g]> gs) /\
    clients (put_view c s r) !! c = this s /\ r_sync (put_view c s r) = sync s /\
    synced c x (r_sync r) s /\ answered c e x res s ks /\ drained e s (count e x res ks g).
Proof.
  intros Hinv Hx Hg He Hen; pose proof Hinv as (Hnd & Hdom & Hn & Hcl & Hfr).
  destruct (Hcl c x Hx) as (g0 & Hg0 & Hix & Hdx); rewrite Hg in Hg0; injection Hg0 as <-.
  destruct (event_handled c e x g (r_tcp_clients r) (r_num_clients r) (r_sync r)) as (res & s & ks & Hrun & Hk & Hsy & Ha & Hdr);
    try done; [eapply num_pos; done|].
  exists res, s, ks; split; [unfold on_client, view; rewrite Hx; unfold alive in Hrun; rewrite Hrun; done|].
  assert (clients (put_view c s r) !! c = this s) as Hlk.
  { unfold put_view; cbn [clients]; destruct (this s); [apply lookup_insert_eq | apply lookup_delete_eq]. }
  assert (forall c', c' <> c -> clients (put_view c s r) !! c' = clients r !! c') as Hlk'.
  { intros c' Hne; unfold put_view; cbn [clients]; destruct (this s); [apply lookup_insert_ne | apply lookup_delete_ne]; done. }
  split; [|split_and!; done].
  assert (c ∈ r_tcp_clients r) as Hin by (apply Hdom; eauto).
  assert (sync s = r_sync r \/ r_sync r = None /\ (exists k, sync s = Some (mk_frame c false k)) \/ sync s = kill_of c (r_sync r)) as Hs3.
  { destruct Hsy as [_ [[_ [?|?]]|[_ Hs']]]; auto; destruct (client_closed x); auto. }
  assert (tcp_clients s = (match this s with Some _ => r_tcp_clients r | None => remove_node c (r_tcp_clients r) end) /\
    num_clients s = Zlen (tcp_clients s)) as [Htc Hnum].
  { unfold kept in Hk; destruct (this s); destruct_and?; [split; congruence|].
    match goal with H : tcp_clients s = _ |- _ => rewrite H; split; [done|] end.
    pose proof (Zlen_remove_node c (r_tcp_clients r) Hnd Hin); lia. }
  unfold r_inv; cbn [put_view r_tcp_clients r_num_clients r_sync]; rewrite Htc in *.
  split; [|split; [|split; [|split]]].
  - destruct (this s); [done | apply remove_node_NoDup; done].
  - intros c'; destruct (decide (c' = c)) as [->|Hne].
    + rewrite Hlk; destruct (this s); [naive_solver|].
      rewrite remove_node_elem; split; [tauto | intros [? ?]; done].
    + rewrite Hlk' by done; rewrite <- Hdom; destruct (this s); [done|]; rewrite remove_node_elem; tauto.
  - done.
  - intros c' x' Hx'; destruct (decide (c' = c)) as [->|Hne].
    + rewrite Hlk in Hx'; unfold kept in Hk; rewrite Hx' in Hk; exists (count e x res ks g); split; [apply lookup_insert_eq | tauto].
    + rewrite Hlk' in Hx' by done; destruct (Hcl c' x' Hx') as (g' & Hg' & Hi' & Hd').
      exists g'; split; [rewrite lookup_insert_ne by done; done|]; split; [done | eapply dead_ok_other; done].
  - unfold frame_ok in *; cbn [put_view r_sync].
    assert (forall f, f_client f <> c -> clients (put_view c s r) !! f_client f = clients r !! f_client f) as Hother by auto.
    destruct Hsy as [Hmono [[Hop [->|(_ & k & ->)]]|[Hcl' ->]]].
    + destruct (r_sync r) as [f|]; [|done]; destruct (decide (f_client f = c)) as [E|E]; [|rewrite Hother by done; done].
      rewrite E, Hx in Hfr; rewrite E, Hlk; destruct (f_killed f); [|done]; exfalso; apply Hmono; [|done].
      destruct (client_closed x) eqn:Hc; [done | destruct (Hfr Hc)].
    + change (is_open (clients (put_view c s r) !! c)); rewrite Hlk; done.
    + destruct (r_sync r) as [f|]; [|destruct (client_closed x); done].
      assert (kill_of c (Some f) = Some (if f_client f =? c then kill f else f)) as -> by (cbn; destruct (_ =? _); done).
      destruct (Z.eqb_spec (f_client f) c) as [E|E].
      * rewrite E, Hx in Hfr; destruct (client_closed x) eqn:Hc.
        -- rewrite E, Hlk; destruct (f_killed f); [done | cbn in Hfr; congruence].
        -- change (~ is_open (clients (put_view c s r) !! f_client f)); rewrite E, Hlk; done.
      * destruct (client_closed x); rewrite Hother by done; done.
Qed.

Lemma insert_same_client r c : put_view c (mk_st (clients r !! c) (r_tcp_clients r) (r_num_clients r) (r_sync r)) r = r.
Proof.
  destruct r as [cs tc n sy]; unfold put_view; cbn; f_equal; destruct (cs !! c) eqn:E; [apply insert_id | apply delete_id]; done.
Qed.

(** What lwIP is told by a handler that waited. *)
Definition returned (f : frame) (res : option Z) (r' : relay) (ks : list tcp_call) : Prop :=
  (res = Some ERR_OK /\ is_open (clients r' !! f_client f) /\
     ks = match f_rest f with AfterRecv p => [PbufFree p] | _ => [] end) \/
  (res = Some ERR_ABRT /\ ~ is_open (clients r' !! f_client f) /\ ks = []).

Lemma inv_dead b x g : inv x g -> inv (x <| dead_client := b |>) g.
Proof. intros H; exact H. Qed.

Lemma return_inv f r gs : r_inv r gs -> r_sync r = Some f ->
  exists res r' ks, run AReturn r = Ok (res, r', ks) /\ r_inv r' gs /\ returned f res r' ks /\ r_sync r' = None.
Proof.
  intros Hinv Hf; pose proof Hinv as (Hnd & Hdom & Hn & Hcl & Hfr); unfold frame_ok in Hfr; rewrite Hf in Hfr.
  set (c := f_client f) in *; unfold run; rewrite Hf; fold c.
  assert (forall p : tp (option Z), on_client c p r = match p (view c r) with
    | Ok (a, s, ks) => Ok (a, put_view c s r, ks) | Err e => Err e end) as Hon by done.
  rewrite Hon; unfold view; rewrite Hf; cbn [handle]; clear Hon.
  destruct (f_killed f) eqn:Hk.
  - set (r' := mk_relay (clients r) (r_tcp_clients r) (r_num_clients r) None).
    assert ((r0 ← sync_return; mret (Some r0)) (mk_st (clients r !! c) (r_tcp_clients r) (r_num_clients r) (Some f)) =
      Ok (Some ERR_ABRT, mk_st (clients r' !! c) (r_tcp_clients r') (r_num_clients r') (r_sync r'), [])) as ->.
    { unfold sync_return; pstep_by ltac:(pstep; pstep; rewrite Hk; reflexivity); done. }
    assert (put_view c (mk_st (clients r' !! c) (r_tcp_clients r') (r_num_clients r') (r_sync r')) r = r') as ->.
    { change (put_view c ?s r) with (put_view c s r'); apply insert_same_client. }
    exists (Some ERR_ABRT), r', []; split; [done|]; split; [|split; [right; done | done]].
    split; [done|]; split; [done|]; split; [done|]; split; [|done].
    intros c' x Hx; destruct (Hcl c' x Hx) as (g & Hg & Hi & Hd); exists g; split; [done|]; split; [done|].
    intros Hc; rewrite (Hd Hc), Hf, Hk, andb_false_r; done.
  - destruct (clients r !! c) as [x|] eqn:Hx; [|done].
    destruct (Hcl c x Hx) as (g & Hg & Hi & Hd).
    set (y := x <| dead_client := false |>); set (s := mk_st (Some y) (r_tcp_clients r) (r_num_clients r) None).
    set (ks := match f_rest f with AfterRecv p => [PbufFree p] | _ => [] end).
    assert ((r0 ← sync_return; mret (Some r0)) (mk_st (Some x) (r_tcp_clients r) (r_num_clients r) (Some f)) =
      Ok (Some ERR_OK, s, ks)) as ->.
    { etransitivity; [eapply pbind_calls; [|reflexivity]|rewrite app_nil_r; reflexivity].
      unfold sync_return; pstep; pstep; rewrite Hk; pstep; unfold ks; destruct (f_rest f); done. }
    exists (Some ERR_OK), (put_view c s r), ks; split; [done|].
    assert (clients (put_view c s r) !! c = Some y) as Hy by apply lookup_insert_eq.
    split; [|split; [left; split; [done|]; split; [change (is_open (clients (put_view c s r) !! c)); rewrite Hy; done | done] | done]].
    split; [done|]; split; [|split; [done|split; [|done]]].
    + intros c'; change (c' ∈ r_tcp_clients r <-> is_Some (<[c := y]> (clients r) !! c')); rewrite Hdom.
      destruct (decide (c' = c)) as [->|]; [rewrite lookup_insert_eq, Hx | rewrite lookup_insert_ne by done]; naive_solver.
    + intros c' x' Hx'; destruct (decide (c' = c)) as [->|Hne].
      * rewrite Hy in Hx'; injection Hx' as <-; exists g; split; [done|]; split; [exact Hi | done].
      * cbn in Hx'; rewrite lookup_insert_ne in Hx' by done; destruct (Hcl c' x' Hx') as (g' & Hg' & Hi' & Hd').
        exists g'; split; [done|]; split; [done|]; intros Hc; rewrite (Hd' Hc), Hf; fold c; test_false (c =? c'); done.
Qed.

Definition accepted (local remote : BAddr) (name : option (list Z)) (new : tcp_client) : tcp_client :=
  mk_client local remote name true true true false true false (buf new) 0 false false (socks_send_if new)
    (socks_recv_if new) (socks_recv_buf new) (socks_recv_buf_used new) (socks_recv_buf_sent new)
    (socks_recv_waiting new) (socks_recv_tcp_pending new).

Lemma accept_run c new lo re ap na ok tc n : 0 <= n ->
  exists ks, listener_accept_func c new lo re ap na ok (mk_st None tc n None) =
  match new with
  | Some x =>
    if (negb ap || negb (bool_decide (na = None))) && ok
    then Ok (None, mk_st (Some (accepted lo re (if ap then na else None) x)) (tc ++ [c]) (1 + n) (Some (mk_frame c false AfterAccept)), ks)
    else Ok (Some ERR_MEM, mk_st None tc n None, ks)
  | None => Ok (Some ERR_MEM, mk_st None tc n None, ks)
  end.
Proof.
  intros Hn; destruct new as [x|]; [|eexists; reflexivity].
  fields x.
  set (x0 u p e r d k l m up sc := mk_client lo re u p e r l d k b m up sc si ri rb ru rs rw rp).
  set (fail := (pmod (fun s => s <| this := None |>);; mret (Some ERR_MEM)) : tp (option Z)).
  assert (forall u, exists ks, (x ← client_get;
      pcall (SocksInit c lo (socks_username x));;
      if negb ok then fail else
      client_mod (fun x => x <| dead_client := false |>);;
      pmod (fun s => s <| tcp_clients ::= fun cs => cs ++ [c] |>);;
      s ← pget;
      passert (0 <=? num_clients s);;
      pmod (fun s => s <| num_clients ::= Z.add 1 |>);;
      client_mod (fun x => x <| pcb_live := true |> <| pcb_err := false |> <| pcb_recv := false |>
                             <| pcb_sent := false |>);;
      client_mod (fun x => x <| client_closed := false |>);;
      pcb_call (TcpNagleDisable c);;
      tcp_err true;; tcp_recv true;;
      client_mod (fun x => x <| buf_used := 0 |>);;
      client_mod (fun x => x <| socks_up := false |> <| socks_closed := false |>);;
      sync_commit c AfterAccept) (alive (x0 u pl pe pr dc cc ps bu su sc) tc n None) =
    Ok (if ok then None else Some ERR_MEM,
        if ok then alive (x0 u true true true true false false 0 false false) (tc ++ [c]) (1 + n) (Some (mk_frame c false AfterAccept))
        else mk_st None tc n None, ks)) as Hrest.
  { intros u; destruct ok; cbn [negb]; [|eexists; pstep; eapply pbind_calls; reflexivity].
    eexists; pstep; eapply pbind_calls; [reflexivity|]; mod_to (x0 u pl pe pr false cc ps bu su sc).
    pstep_by ltac:(exact (eq_refl : pmod _ _ = Ok (tt, alive (x0 u pl pe pr false cc ps bu su sc) (tc ++ [c]) n None, []))); pstep.
    pstep_by ltac:(apply passert_ok; cbn; lia).
    pstep_by ltac:(exact (eq_refl : pmod _ _ = Ok (tt, alive (x0 u pl pe pr false cc ps bu su sc) (tc ++ [c]) (1 + n) None, []))).
    mod_to (x0 u true false false false cc false bu su sc); mod_to (x0 u true false false false false false bu su sc).
    eapply pbind_calls; [apply pcb_call_eq; done|].
    pstep_by ltac:(apply pcb_mod_eq; done); change (_ <| pcb_err := true |>) with (x0 u true true false false false false bu su sc).
    pstep_by ltac:(apply pcb_mod_eq; done); change (_ <| pcb_recv := true |>) with (x0 u true true true false false false bu su sc).
    mod_to (x0 u true true true false false false 0 su sc); mod_to (x0 u true true true false false false 0 false false).
    unfold sync_commit; mod_to (x0 u true true true true false false 0 false false); pstep; reflexivity. }
  destruct (Hrest (if ap then na else None)) as [ks Hks].
  assert (forall r s1 ks1, (ok0 ← (if ap then
        client_mod (fun x => x <| socks_username := na |>);; mret (negb (bool_decide (na = None)))
      else mret true);
      if negb ok0 then fail else
      x ← client_get; pcall (SocksInit c lo (socks_username x));;
      if negb ok then fail else
      client_mod (fun x => x <| dead_client := false |>);;
      pmod (fun s => s <| tcp_clients ::= fun cs => cs ++ [c] |>);;
      s ← pget;
      passert (0 <=? num_clients s);;
      pmod (fun s => s <| num_clients ::= Z.add 1 |>);;
      client_mod (fun x => x <| pcb_live := true |> <| pcb_err := false |> <| pcb_recv := false |>
                             <| pcb_sent := false |>);;
      client_mod (fun x => x <| client_closed := false |>);;
      pcb_call (TcpNagleDisable c);;
      tcp_err true;; tcp_recv true;;
      client_mod (fun x => x <| buf_used := 0 |>);;
      client_mod (fun x => x <| socks_up := false |> <| socks_closed := false |>);;
      sync_commit c AfterAccept) (alive (x0 None pl pe pr dc cc ps bu su sc) tc n None) = Ok (r, s1, ks1) ->
    exists ks2, listener_accept_func c (Some (mk_client la ra un pl pe pr ps dc cc b bu su sc si ri rb ru rs rw rp)) lo re ap na ok
      (mk_st None tc n None) = Ok (r, s1, ks2)) as Hacc.
  { intros r s1 ks1 H1; exists ([TcpAccepted] ++ ks1); unfold listener_accept_func; eapply pbind_calls; [reflexivity|].
    pstep; change ((mk_st None tc n None) <| this := _ |>) with (alive (mk_client la ra None pl pe pr ps dc cc b bu su sc si ri rb ru rs rw rp) tc n None).
    mod_to (x0 None pl pe pr dc cc ps bu su sc); exact H1. }
  destruct ap; cbn [negb orb] in *.
  - destruct (bool_decide (na = None)) eqn:Hna; cbn [negb andb]; cbv iota.
    + eapply Hacc; pstep_by ltac:(pstep_by ltac:(apply (client_mod_eq _ _ (x0 na pl pe pr dc cc ps bu su sc)); reflexivity); reflexivity).
      reflexivity.
    + destruct ok; (eapply Hacc; pstep_by ltac:(pstep_by ltac:(apply (client_mod_eq _ _ (x0 na pl pe pr dc cc ps bu su sc)); reflexivity); reflexivity);
        exact Hks).
  - cbn [andb]; destruct ok; (eapply Hacc; pstep; exact Hks).
Qed.

Lemma accepted_inv c lo re na x : Zlen (buf x) = TCP_WND -> Zlen (socks_recv_buf x) = CLIENT_SOCKS_RECV_BUF_SIZE ->
  inv (accepted lo re na x) ghost0 /\ dead_ok c (accepted lo re na x) (Some (mk_frame c false AfterAccept)).
Proof.
  intros H1 H2; split; [|intros _; cbn; rewrite Z.eqb_refl; done]; inv_split; try done.
Qed.

Lemma accept_inv c new lo re ap na ok r gs : r_inv r gs -> can (AAccept c new lo re ap na ok) r gs ->
  exists res r' ks, run (AAccept c new lo re ap na ok) r = Ok (res, r', ks) /\ r_inv r' (<[c := ghost0]> gs) /\
    ((res = None /\ is_open (clients r' !! c) /\ r_sync r' = Some (mk_frame c false AfterAccept)) \/ (res = Some ERR_MEM /\ r' = r)).
Proof.
  intros Hinv (Hsy & Hfree & Hnew); pose proof Hinv as (Hnd & Hdom & Hn & Hcl & Hfr).
  assert (c ∉ r_tcp_clients r) as Hnin by (rewrite Hdom, Hfree; intros [? ?]; done).
  assert (r_inv r (<[c := ghost0]> gs)) as Hinv'.
  { split_and!; try done; intros c' x' Hx'; destruct (Hcl c' x' Hx') as (g' & Hg' & Hr).
    exists g'; split; [|done]; rewrite lookup_insert_ne; [done | intros <-; congruence]. }
  destruct (accept_run c new lo re ap na ok (r_tcp_clients r) (r_num_clients r)) as (ks & Hrun); [rewrite Hn; apply Zlen_nonneg|].
  unfold run, on_client, view; rewrite Hfree, Hsy, Hrun.
  assert (exists res r' ks0, Ok (Some ERR_MEM, put_view c (mk_st None (r_tcp_clients r) (r_num_clients r) None) r, ks) = Ok (res, r', ks0) /\
    r_inv r' (<[c := ghost0]> gs) /\ ((res = None /\ is_open (clients r' !! c) /\ r_sync r' = Some (mk_frame c false AfterAccept)) \/
      (res = Some ERR_MEM /\ r' = r))) as Hmem.
  { exists (Some ERR_MEM), r, ks; split_and!; [|done|auto]; do 3 f_equal.
    pose proof (insert_same_client r c) as E; rewrite Hfree, Hsy in E; exact E. }
  destruct new as [x|]; [|exact Hmem]; destruct (_ && _); [|exact Hmem]; clear Hmem; destruct Hnew as [L1 L2].
  set (y := accepted lo re (if ap then na else None) x).
  destruct (accepted_inv c lo re (if ap then na else None) x L1 L2) as [Hy1 Hy2]; fold y in Hy1, Hy2.
  eexists _, _, _; split; [reflexivity|]; split; [|left; split; [done|]; split; [cbn; rewrite lookup_insert_eq; done | done]].
  split; [|split; [|split; [|split]]]; cbn [put_view this r_tcp_clients r_num_clients r_sync clients tcp_clients num_clients sync].
  - apply NoDup_app; split; [done|]; split; [intros z Hz ->%list_elem_of_singleton; done | apply NoDup_singleton].
  - intros c'; rewrite elem_of_app, list_elem_of_singleton, Hdom.
    destruct (decide (c' = c)) as [->|]; [rewrite lookup_insert_eq; naive_solver | rewrite lookup_insert_ne by done; naive_solver].
  - rewrite Zlen_app, Hn; change (Zlen [c]) with 1; lia.
  - intros c' x' Hx'; destruct (decide (c' = c)) as [->|Hne].
    + rewrite lookup_insert_eq in Hx'; injection Hx' as <-; exists ghost0; split; [apply lookup_insert_eq | done].
    + rewrite lookup_insert_ne in Hx' by done; destruct (Hcl c' x' Hx') as (g' & Hg' & Hi' & Hd').
      exists g'; split; [rewrite lookup_insert_ne; done|]; split; [done|]; intros Hc; rewrite (Hd' Hc), Hsy; cbn; test_false (c =? c'); done.
  - cbn; rewrite lookup_insert_eq; done.
Qed.

Lemma action_inv a r gs : r_inv r gs -> can a r gs ->
  exists res r' ks, run a r = Ok (res, r', ks) /\ r_inv r' (track a r res ks gs).
Proof.
  intros Hinv Hcan; destruct a as [c e| |c new lo re ap na ok].
  - destruct Hcan as (He & x & g & Hx & Hg & Hen); destruct (event_inv c e x g r gs) as (res & s & ks & Hrun & Hi & _); try done.
    exists res, (put_view c s r), ks; split; [done|]; unfold track; rewrite Hx, Hg; done.
  - destruct Hcan as [f Hf]; destruct (return_inv f r gs Hinv Hf) as (res & r' & ks & Hrun & Hi & _); eauto.
  - destruct (accept_inv c new lo re ap na ok r gs Hinv Hcan) as (res & r' & ks & Hrun & Hi & _); eauto.
Qed.

Lemma relay_reachable r gs : reachable r gs -> r_inv r gs.
Proof.
  intros Hs; refine (star_invariant step (fun rg => r_inv (fst rg) (snd rg)) _ (relay0, ∅) (r, gs) Hs _).
  - intros [r1 g1] [r2 g2] H1 Hstep; inversion Hstep as [a ? ? res ? ks Hcan Hrun]; subst; cbn in *.
    destruct (action_inv a r1 g1 H1 Hcan) as (res' & r' & ks' & Hrun' & Hi); rewrite Hrun in Hrun'.
    injection Hrun' as <- <- <-; exact Hi.
  - split; [constructor|]; split; [|split; [done|split; [|done]]].
    + intros c; cbn; rewrite lookup_empty; split; [intros H; inversion H | intros [? ?]; done].
    + intros c x Hx; cbn in Hx; rewrite lookup_empty in Hx; done.
Qed.

(** ** The end of the program *)

Lemma client_murder_eq c x g tc n : inv x g -> 0 < n -> dead_ok c x None ->
  exists ks, client_murder c (alive x tc n None) = Ok (tt, freed c tc n None, ks).
Proof.
  intros (_ & Hs & _ & _ & Ho) Hn Hd.
  assert (forall y, client_closed y = true -> exists ks, ((if negb (socks_closed x) then
       pcall (SocksFree c);; client_mod (fun x => x <| socks_closed := true |>) else pskip);;
     client_dealloc c) (alive y tc n None) = Ok (tt, freed c tc n None, ks) \/ socks_closed y <> socks_closed x) as Htail.
  { intros y Hy; destruct (decide (socks_closed y = socks_closed x)) as [E|]; [|exists []; right; done]; rewrite <- E.
    destruct (socks_closed y) eqn:Hsc; cbn [negb].
    - exists []; left; pstep; apply client_dealloc_eq; done.
    - exists [SocksFree c]; left; 
      etransitivity; [eapply pbind_calls; [reflexivity | apply (client_dealloc_eq c (y <| socks_closed := true |>)); done] | reflexivity]. }
  destruct (client_closed x) eqn:Hc.
  - destruct (Htail x Hc) as (ks & [Hk|Hk]); [|done]; exists ks; unfold client_murder; pstep; rewrite Hc; pstep; exact Hk.
  - destruct (Ho Hc) as (Hp & _); set (y := shut_client (unhook x)).
    assert (socks_closed y = socks_closed x) as E by done.
    destruct (Htail y eq_refl) as (ks & [Hk|Hk]); [|done]; exists ([TcpAbort c] ++ ks); unfold client_murder; pstep; rewrite Hc; cbn [negb].
    eapply pbind_calls; [|exact Hk].
    etransitivity; [apply unhook_run; done|].
    etransitivity; [eapply pbind_calls; [apply tcp_abort_eq; exact Hp | pstep_by ltac:(apply (DEAD_KILL_eq c); [exact Hc | exact Hd]); reflexivity]|].
    done.
Qed.

Lemma murder_one c x r gs : r_inv r gs -> r_sync r = None -> clients r !! c = Some x ->
  exists r' ks, on_client c (client_murder c) r = Ok (tt, r', ks) /\ r_inv r' gs /\ r_sync r' = None /\
    r_tcp_clients r' = remove_node c (r_tcp_clients r).
Proof.
  intros Hinv Hsy Hx; pose proof Hinv as (Hnd & Hdom & Hn & Hcl & Hfr); destruct (Hcl c x Hx) as (g & Hg & Hi & Hd).
  rewrite Hsy in Hd; destruct (client_murder_eq c x g (r_tcp_clients r) (r_num_clients r) Hi) as [ks Hrun]; [eapply num_pos; done | done|].
  assert (c ∈ r_tcp_clients r) as Hin by (apply Hdom; eauto).
  unfold on_client, view; rewrite Hx, Hsy; unfold alive in Hrun; rewrite Hrun.
  eexists _, _; split; [reflexivity|]; split; [|done].
  split; [|split; [|split; [|split; [|done]]]];
    cbn [freed put_view this r_tcp_clients r_num_clients r_sync clients tcp_clients num_clients sync].
  - apply remove_node_NoDup; done.
  - intros c'; rewrite remove_node_elem, Hdom; destruct (decide (c' = c)) as [->|];
      [rewrite lookup_delete_eq | rewrite lookup_delete_ne by done]; [|tauto].
    split; [tauto | intros [? ?]; done].
  - pose proof (Zlen_remove_node c (r_tcp_clients r) Hnd Hin); lia.
  - intros c' x' Hx'; destruct (decide (c' = c)) as [->|Hne]; [rewrite lookup_delete_eq in Hx'; done|].
    rewrite lookup_delete_ne in Hx' by done; rewrite Hsy in Hcl; eauto.
Qed.

Lemma murder_all_ok n r gs : r_inv r gs -> r_sync r = None -> (length (r_tcp_clients r) < n)%nat ->
  exists ks, murder_all n r = Ok (tt, relay0, ks).
Proof.
  revert r; induction n as [|n IH]; intros r Hinv Hsy Hlen; [lia|].
  pose proof Hinv as (Hnd & Hdom & Hn & Hcl & Hfr); cbn [murder_all].
  destruct (r_tcp_clients r) as [|c l] eqn:Hl.
  - exists []; pstep; rewrite Hl; cbn [head]; destruct r as [cs tc m sy]; cbn in *; subst.
    assert (cs = ∅) as ->; [|done]; apply map_empty; intros c; destruct (cs !! c) eqn:E; [|done].
    assert (c ∈ @nil Z) as H by (apply Hdom; rewrite E; eauto); inversion H.
  - assert (is_Some (clients r !! c)) as [x Hx] by (apply Hdom; constructor).
    destruct (murder_one c x r gs Hinv Hsy Hx) as (r' & ks & Hrun & Hi & Hs' & Hl').
    destruct (IH r') as [ks' Hrest]; [done..| |].
    { rewrite Hl', Hl, remove_node_cons by (apply NoDup_cons in Hnd; tauto); cbn in *; lia. }
    exists (ks ++ ks'); pstep; rewrite Hl; cbn [head]; eapply pbind_calls; done.
Qed.

(** * Properties *)


(** C2: Both streams are relayed in order, without loss or repetition. While the SOCKS side is
    open, the bytes lwIP delivered are those the SOCKS side has taken followed by those in the
    buffer, which never exceed the window, and lwIP has been told of exactly the bytes that left
    it; while the client side is open, the bytes the SOCKS side delivered are those written to
    lwIP followed by those waiting, and lwIP holds no more unacknowledged than its buffer. *)
Theorem TcpClient_relays r gs c x : reachable r gs -> clients r !! c = Some x ->
  exists g, gs !! c = Some g /\
  (socks_closed x = false ->
     g_in g = g_taken g ++ slice (taken_now x) (buf_used x - taken_now x) (buf x) /\
     0 <= taken_now x <= buf_used x /\ buf_used x <= TCP_WND) /\
  (client_closed x = false -> socks_closed x = false -> g_recved g = Zlen (g_in g) - buf_used x) /\
  (client_closed x = false -> socks_up x = true ->
     g_from g = g_out g ++ unsent x /\ socks_recv_tcp_pending x = Zlen (g_out g) - g_acked g /\
     0 <= socks_recv_tcp_pending x <= TCP_SND_BUF).
Proof.
  intros Hr Hx; destruct (relay_reachable r gs Hr) as (_ & _ & _ & Hcl & _).
  destruct (Hcl c x Hx) as (g & Hg & (Hm & _ & Hsend & _ & Ho) & _); exists g; split; [done|]; split; [|split].
  - intros Hsc; split; [apply (Hsend Hsc)|]; split; [eapply taken_bound; done | apply Hm].
  - intros Hc; apply (Ho Hc).
  - intros Hc Hup; destruct (Ho Hc) as (_ & _ & _ & _ & _ & Hopen); rewrite Hup in Hopen; tauto.
Qed.

(** C24: lwIP is answered as it requires: a callback reports [ERR_ABRT] exactly when the pcb was
    closed or aborted, also when that happened while it waited for the jobs it caused; a buffer
    is freed when it was accepted and left to lwIP with [ERR_MEM] when there is no room, which
    cannot happen within the window. A buffer is not freed when the client dies while the
    handler waits. *)
Theorem TcpClient_answers r gs a res r' ks : reachable r gs -> can a r gs -> run a r = Ok (res, r', ks) ->
  match a with
  | AEvent c e => exists x g, clients r !! c = Some x /\ gs !! c = Some g /\ answered c e x res (view c r') ks /\
      match e with
      | ERecv _ (Some p) => Zlen (g_in g) + Zlen p - g_recved g <= TCP_WND -> res <> Some ERR_MEM
      | _ => True
      end
  | AReturn => exists f, r_sync r = Some f /\ returned f res r' ks
  | AAccept c _ _ _ _ _ _ =>
      res = None /\ is_open (clients r' !! c) /\ r_sync r' = Some (mk_frame c false AfterAccept) \/
      res = Some ERR_MEM /\ r' = r
  end.
Proof.
  intros Hr Hcan Hrun; pose proof (relay_reachable r gs Hr) as Hinv; destruct a as [c e| |c new lo re ap na ok].
  - destruct Hcan as (He & x & g & Hx & Hg & Hen).
    destruct (event_inv c e x g r gs) as (res1 & s & ks1 & Hrun1 & _ & Hlk & Hsy & _ & Ha & _); try done.
    unfold run in Hrun; rewrite Hrun1 in Hrun; injection Hrun as <- <- <-.
    exists x, g; split; [done|]; split; [done|]; split.
    + unfold view; rewrite Hlk; destruct e; exact Ha.
    + destruct e as [l [p|]| | | | | | | | | |]; try done; intros Hw Hres; subst res1.
      destruct Hen as (_ & Hlive & Hrv & _); destruct Hinv as (_ & _ & _ & Hcl & _).
      destruct (Hcl c x Hx) as (g' & Hg' & Hi & _); rewrite Hg in Hg'; injection Hg' as <-.
      pose proof (open_client x g Hi Hlive) as Hc; destruct Hi as (_ & _ & _ & _ & Ho).
      destruct (Ho Hc) as (_ & _ & Hpr & _ & Hrc & _); rewrite Hpr in Hrv; apply negb_true_iff in Hrv; specialize (Hrc Hrv).
      destruct Ha as [[? _]|[[? _]|[(_ & _ & _ & d & [= <-] & Hd)|[? _]]]]; try discriminate; lia.
  - destruct Hcan as [f Hf]; destruct (return_inv f r gs Hinv Hf) as (res1 & r1 & ks1 & Hrun1 & _ & Ha & _).
    rewrite Hrun1 in Hrun; injection Hrun as <- <- <-; eauto.
  - destruct (accept_inv c new lo re ap na ok r gs Hinv Hcan) as (res1 & r1 & ks1 & Hrun1 & _ & Ha).
    rewrite Hrun1 in Hrun; injection Hrun as <- <- <-; exact Ha.
Qed.


(** The loop at the end of the program ends, having freed every client that was left: none is
    on the list or counted. *)
Theorem TcpClient_murder_all r gs : reachable r gs -> r_sync r = None ->
  exists ks, murder_all (S (length (r_tcp_clients r))) r = Ok (tt, relay0, ks).
Proof. intros Hr Hs; eapply murder_all_ok; [apply relay_reachable; done | done | lia]. Qed.

(** ** Witnesses *)

Definition memory0 : tcp_client :=
  mk_client BADDR_NONE BADDR_NONE None false false false false true true (replicate (Z.to_nat TCP_WND) 7) 3 true true
    (SPI.mk false false None 0 false 0 ST_NONE) (SPI.mk false false None 0 false 0 ST_NONE)
    (replicate (Z.to_nat CLIENT_SOCKS_RECV_BUF_SIZE) 9) 1 2 true 4.
Definition lwip0 : lwip := mk_lwip (fun _ p => Z.max 0 (TCP_SND_BUF - p)) (fun _ => ERR_OK) ERR_OK ERR_OK.
Definition fresh0 : SPI.t := SPI.mk false false None 0 false 0 ST_NONE.

Definition next (a : action) (p : relay * gmap Z ghost) : relay * gmap Z ghost :=
  match run a p.1 with Ok (res, r', ks) => (r', track a p.1 res ks p.2) | Err _ => p end.
Lemma next_reachable a p : reachable p.1 p.2 -> can a p.1 p.2 -> reachable (next a p).1 (next a p).2.
Proof.
  intros Hr Hc; destruct p as [r gs]; cbn in *; destruct (action_inv a r gs (relay_reachable r gs Hr) Hc) as (res & r' & ks & Hrun & _).
  unfold next; cbn; rewrite Hrun; cbn; eapply star_step; [exact Hr|]; exact (step_intro a r gs res r' ks Hc Hrun).
Qed.

Definition client_of (p : relay * gmap Z ghost) : tcp_client := default memory0 (clients p.1 !! 1).
Lemma can_event e p (f : tcp_client -> ghost -> option frame -> bool) : e <> EReturn ->
  (forall x g sy, f x g sy = true -> enabled 1 e x g sy) ->
  match clients p.1 !! 1, p.2 !! 1 with Some x, Some g => f x g (r_sync p.1) | _, _ => false end = true ->
  can (AEvent 1 e) p.1 p.2.
Proof.
  intros He Hf Hb; split; [done|]; destruct (clients p.1 !! 1) as [x|], (p.2 !! 1) as [g|]; try discriminate; eauto 6.
Qed.
Lemma lwip0_ok : lwip_ok lwip0.
Proof. intros k p; cbn; lia. Qed.
Definition no_frame (sy : option frame) : bool := match sy with None => true | Some _ => false end.

(** A connection is accepted and told on, three bytes arrive, the local side closes, the SOCKS
    client comes up and takes the bytes. *)
Definition run0 : relay * gmap Z ghost := (relay0, ∅).
Definition run1 := next (AAccept 1 (Some memory0) (BADDR_IPV4 16777343 20480) (BADDR_IPV4 33554559 20481) false None true) run0.
Definition run2 := next AReturn run1.
Definition run3 := next (AEvent 1 (ERecv lwip0 (Some [1; 2; 3]))) run2.
Definition run4 := next (AEvent 1 (ERecv lwip0 None)) run3.
Definition run5 := next (AEvent 1 (ESocks lwip0 BSOCKSCLIENT_EVENT_UP fresh0 fresh0)) run4.
Definition run6 := next (AEvent 1 ESendOp) run5.
Definition run7 := next (AEvent 1 (ESendDone 3)) run6.

Lemma run2_reachable : reachable run2.1 run2.2.
Proof.
  apply next_reachable; [apply next_reachable; [apply star_refl|]|].
  - split; [done|]; split; [apply lookup_empty|]; split; vm_compute; reflexivity.
  - eexists; vm_compute; reflexivity.
Qed.
Lemma recv_can p d : 0 < Zlen d ->
  match clients p.1 !! 1, p.2 !! 1 with
  | Some x, Some g => no_frame (r_sync p.1) && (pcb_live x && pcb_recv x) | _, _ => false end = true ->
  can (AEvent 1 (ERecv lwip0 (Some d))) p.1 p.2 /\ can (AEvent 1 (ERecv lwip0 None)) p.1 p.2.
Proof.
  intros Hd Hb; split; (eapply (can_event _ _ (fun x g sy => no_frame sy && (pcb_live x && pcb_recv x))); [done| |exact Hb]);
    intros x g [f|] [Hf [Hl Hr]%andb_true_iff]%andb_true_iff; try discriminate; split_and!; done || apply lwip0_ok.
Qed.
Definition sends (f : SPI.t -> bool) (x : tcp_client) (g : ghost) (sy : option frame) : bool :=
  socks_up x && (negb (socks_closed x) && f (socks_send_if x)).
Lemma sends_true f x g sy : sends f x g sy = true -> socks_up x = true /\ socks_closed x = false /\ f (socks_send_if x) = true.
Proof. unfold sends; rewrite !andb_true_iff, negb_true_iff; done. Qed.

Lemma run3_can : can (AEvent 1 (ERecv lwip0 (Some [1; 2; 3]))) run2.1 run2.2.
Proof. apply recv_can; vm_compute; reflexivity. Qed.
Lemma run4_can : can (AEvent 1 (ERecv lwip0 None)) run3.1 run3.2.
Proof. apply (recv_can _ [1]); vm_compute; reflexivity. Qed.
Lemma run5_can : can (AEvent 1 (ESocks lwip0 BSOCKSCLIENT_EVENT_UP fresh0 fresh0)) run4.1 run4.2.
Proof.
  apply (can_event _ _ (fun x _ _ => negb (socks_closed x) && negb (socks_up x))); [done| |vm_compute; reflexivity].
  intros x g sy [Hc%negb_true_iff Hu%negb_true_iff]%andb_true_iff; split; [done|]; split; [apply lwip0_ok | done].
Qed.
Lemma run6_can : can (AEvent 1 ESendOp) run5.1 run5.2.
Proof.
  apply (can_event _ _ (sends SPI.job_operation)); [done| |vm_compute; reflexivity]; intros x g sy H; apply sends_true in H; exact H.
Qed.
Lemma run7_can : can (AEvent 1 (ESendDone 3)) run6.1 run6.2.
Proof.
  apply (can_event _ _ (fun x g sy => sends (fun i => 3 <=? SPI.job_operation_len i) x g sy && g_send_busy g)); [done| |vm_compute; reflexivity].
  intros x g sy [(H1 & H2 & H3)%sends_true H4]%andb_true_iff; split_and!; done || lia.
Qed.
Lemma run7_reachable : reachable run7.1 run7.2.
Proof.
  apply next_reachable; [|apply run7_can]; apply next_reachable; [|apply run6_can]; apply next_reachable; [|apply run5_can].
  apply next_reachable; [|apply run4_can]; apply next_reachable; [apply run2_reachable | apply run3_can].
Qed.


Lemma TcpClient_relays_witness : exists g, run7.2 !! 1 = Some g /\
  (socks_closed (client_of run7) = false -> g_in g = g_taken g ++ slice 3 0 (buf (client_of run7))).
Proof.
  assert (clients run7.1 !! 1 = Some (client_of run7)) as Hx by (vm_compute; reflexivity).
  destruct (TcpClient_relays run7.1 run7.2 1 (client_of run7) run7_reachable Hx) as (g & Hg & Hs & _).
  exists g; split; [exact Hg|]; intros Hc; exact (proj1 (Hs Hc)).
Defined.

Lemma TcpClient_answers_witness : exists res r' ks, run (AEvent 1 (ERecv lwip0 (Some [1; 2; 3]))) run2.1 = Ok (res, r', ks) /\
  exists x g, clients run2.1 !! 1 = Some x /\ run2.2 !! 1 = Some g /\
    answered 1 (ERecv lwip0 (Some [1; 2; 3])) x res (view 1 r') ks.
Proof.
  destruct (action_inv _ _ _ (relay_reachable _ _ run2_reachable) run3_can) as (res & r' & ks & Hrun & _).
  exists res, r', ks; split; [exact Hrun|].
  destruct (TcpClient_answers run2.1 run2.2 _ res r' ks run2_reachable run3_can Hrun) as (x & g & Hx & Hg & Ha & _).
  exists x, g; split; [exact Hx|]; split; [exact Hg | exact Ha].
Defined.


Lemma TcpClient_murder_all_witness : exists ks, murder_all (S (length (r_tcp_clients run7.1))) run7.1 = Ok (tt, relay0, ks).
Proof. apply (TcpClient_murder_all run7.1 run7.2 run7_reachable); vm_compute; reflexivity. Defined.
