(* ===== verification/BSocksClient.v ===== *)
(** socksclient/BSocksClient.c: a SOCKS5 client that connects to a server, negotiates
    authentication, asks it to connect to an address and then hands its connection over. The
    packet stream sender and the connection are the environment, behind the interfaces of the
    control phase. The user frees the client from within the handler it is told of an error by;
    a client that was freed is [None]. *)

From S2P Require Import Prelude IntCodec MiscArith Addr FlowIface FlowViews.

(** ** misc/socks_proto.h *)

Definition SOCKS_VERSION : Z := 5.
Definition SOCKS_METHOD_NO_AUTHENTICATION_REQUIRED : Z := 0.
Definition SOCKS_METHOD_USERNAME_PASSWORD : Z := 2.
Definition SOCKS_CMD_CONNECT : Z := 1.
Definition SOCKS_ATYP_IPV4 : Z := 1.
Definition SOCKS_ATYP_IPV6 : Z := 4.
Definition SOCKS_REP_SUCCEEDED : Z := 0.

Definition sizeof_socks_client_hello_header : Z := 2.
Definition sizeof_socks_client_hello_method : Z := 1.
Definition sizeof_socks_server_hello : Z := 2.
Definition sizeof_socks_request_header : Z := 4.
Definition sizeof_socks_reply_header : Z := 4.
Definition sizeof_socks_addr_ipv4 : Z := 6.
Definition sizeof_socks_addr_ipv6 : Z := 18.

(** ** The client *)

Inductive socks_state :=
| STATE_CONNECTING | STATE_SENDING_HELLO | STATE_SENT_HELLO | STATE_SENDING_PASSWORD | STATE_SENT_PASSWORD
| STATE_SENDING_REQUEST | STATE_SENT_REQUEST | STATE_RECEIVED_REPLY_HEADER | STATE_UP.
#[export] Instance socks_state_eq_dec : EqDecision socks_state.
Proof. solve_decision. Defined.
Definition is_state (a b : socks_state) : bool := bool_decide (a = b).

Inductive bsocks_event := BSOCKSCLIENT_EVENT_ERROR | BSOCKSCLIENT_EVENT_UP | BSOCKSCLIENT_EVENT_ERROR_CLOSED.

(** The user's credentials, read through a pointer when they are needed. *)
Record auth_info := mk_auth {
  auth_type : Z; username : list Z; username_len : Z; password : list Z; password_len : Z }.
Definition BSocksClient_auth_none : auth_info := mk_auth SOCKS_METHOD_NO_AUTHENTICATION_REQUIRED [] 0 [] 0.
Definition BSocksClient_auth_password (u : list Z) (ul : Z) (p : list Z) (pl : Z) : auth_info :=
  mk_auth SOCKS_METHOD_USERNAME_PASSWORD u ul p pl.

(** [recv_dest] is an offset in the buffer. *)
Record bsocks := mk_bs {
  num_auth_info : Z; dest_addr : BAddr; state : socks_state; buffer : option (list Z);
  send_if : PPI.t; recv_if : SPI.t; recv_dest : Z; recv_len : Z; recv_total : Z }.
#[export] Instance bsocks_eta : Eta bsocks := fun o =>
  mk_bs (num_auth_info o) (dest_addr o) (state o) (buffer o) (send_if o) (recv_if o) (recv_dest o) (recv_len o) (recv_total o).

Inductive bs_call :=
| Handler (e : bsocks_event) | ConnectorInit (a : BAddr) | ConnectorFree | ConInit | ConFree
| RecvAsyncInit | RecvAsyncFree | SendAsyncInit | SendAsyncFree | StreamSenderInit (mtu : Z) | StreamSenderFree
| SendPacket (data : option (list Z)) (len : Z) | RecvStream (dest : option Z) (len : Z).
Definition bp := prog (option bsocks) bs_call.

Definition bs_get : bp bsocks := fun s => match s with Some o => Ok (o, s, []) | None => Err OutOfBounds end.
Definition bs_mod (f : bsocks -> bsocks) : bp unit := fun s =>
  match s with Some o => Ok (tt, Some (f o), []) | None => Err OutOfBounds end.
Definition bs_gone : bp unit := fun _ => Ok (tt, None, []).
Definition set_state (x : socks_state) : bp unit := bs_mod (fun o => o <| state := x |>).

Definition put_send_if (i : PPI.t) (o : bsocks) : bsocks := o <| send_if := i |>.
Definition put_recv_if (i : SPI.t) (o : bsocks) : bsocks := o <| recv_if := i |>.
(** Runs a function of an interface of the client, then the handlers it calls. *)
Definition on_send (m : PPI.pp unit) (f : PPI.call -> bp unit) : bp unit := fun s =>
  match s with
  | Some o => match m (send_if o) with Ok (_, i, ks) => foreach f ks (Some (put_send_if i o)) | Err e => Err e end
  | None => Err OutOfBounds
  end.
Definition on_recv (m : SPI.sp unit) (f : SPI.call -> bp unit) : bp unit := fun s =>
  match s with
  | Some o => match m (recv_if o) with Ok (_, i, ks) => foreach f ks (Some (put_recv_if i o)) | Err e => Err e end
  | None => Err OutOfBounds
  end.

(** [memcpy] into and out of the buffer. *)
Definition buffer_write (off : Z) (d : list Z) : bp unit :=
  o ← bs_get;
  match buffer o with
  | Some b => b ← plift (mem_write b off d); bs_mod (fun o => o <| buffer := Some b |>)
  | None => fun _ => Err OutOfBounds
  end.
Definition buffer_read (off len : Z) : bp (list Z) :=
  o ← bs_get;
  match buffer o with Some b => plift (mem_read b off len) | None => fun _ => Err OutOfBounds end.

Definition free_control_io : bp unit := pcall StreamSenderFree;; pcall SendAsyncFree;; pcall RecvAsyncFree.
Definition init_up_io : bp unit := pcall RecvAsyncInit;; pcall SendAsyncInit.
Definition free_up_io : bp unit := pcall SendAsyncFree;; pcall RecvAsyncFree.
(** [si] and [ri] are the interfaces of the sender and the connection when they are set up. *)
Definition init_control_io (si : PPI.t) (ri : SPI.t) : bp unit :=
  pcall RecvAsyncInit;;
  bs_mod (put_recv_if ri);;
  on_recv SPI.StreamRecvInterface_Receiver_Init (fun _ => passert false);;
  pcall SendAsyncInit;;
  pcall (StreamSenderInit INT_MAX);;
  bs_mod (put_send_if si);;
  on_send PPI.Sender_Init (fun _ => passert false).

Definition BSocksClient_Free : bp unit :=
  o ← bs_get;
  (if negb (is_state (state o) STATE_CONNECTING) then
     (if is_state (state o) STATE_UP then free_up_io else free_control_io);; pcall ConFree
   else pskip);;
  pcall ConnectorFree;;
  bs_gone.
Definition report_error (e : bsocks_event) : bp unit := pcall (Handler e);; BSocksClient_Free.

Section client.
Context `{Arch}.
(** [BRealloc]: the memory for a size, if there is any; what it holds is not used. *)
Variable alloc : Z -> option (list Z).

Definition reserve_buffer (size : bsize_t) : bp bool :=
  if is_overflow size then mret false else
  match alloc (if bvalue size =? 0 then 1 else bvalue size) with
  | None => mret false
  | Some b => bs_mod (fun o => o <| buffer := Some b |>);; mret true
  end.

Definition do_receive : bp unit :=
  o ← bs_get;
  passert (recv_len o <? recv_total o);;
  on_recv (SPI.StreamRecvInterface_Receiver_Recv (Some (recv_dest o + recv_len o)) (recv_total o - recv_len o)) (fun _ => passert false).
Definition start_receive (dest total : Z) : bp unit :=
  passert (0 <? total);;
  bs_mod (fun o => o <| recv_dest := dest |> <| recv_len := 0 |> <| recv_total := total |>);;
  do_receive.
(** Sends [len] bytes of the buffer. *)
Definition send_buffer (len : Z) : bp unit :=
  d ← buffer_read 0 len;
  on_send (PPI.Sender_Send (Some d) len) (fun _ => passert false).

Fixpoint write_methods (i : Z) (ai : list auth_info) : bp unit :=
  match ai with
  | [] => pskip
  | a :: ai =>
    buffer_write (sizeof_socks_client_hello_header + i * sizeof_socks_client_hello_method) [hton8 (auth_type a)];;
    write_methods (i + 1) ai
  end.

(** [con_ok] is whether the connection could be set up. *)
Definition connector_handler (ai : list auth_info) (is_error con_ok : bool) (si : PPI.t) (ri : SPI.t) : bp unit :=
  o ← bs_get;
  passert (is_state (state o) STATE_CONNECTING);;
  if is_error then report_error BSOCKSCLIENT_EVENT_ERROR else
  pcall ConInit;;
  if negb con_ok then report_error BSOCKSCLIENT_EVENT_ERROR else
  init_control_io si ri;;
  let fail1 := free_control_io;; pcall ConFree;; report_error BSOCKSCLIENT_EVENT_ERROR in
  if (num_auth_info o =? 0) || (255 <? num_auth_info o) then fail1 else
  let size := bsize_add (bsize_fromsize sizeof_socks_client_hello_header)
    (bsize_mul (bsize_fromsize (num_auth_info o)) (bsize_fromsize sizeof_socks_client_hello_method)) in
  r ← reserve_buffer size;
  if negb r then fail1 else
  buffer_write 0 [hton8 SOCKS_VERSION; hton8 (num_auth_info o)];;
  write_methods 0 ai;;
  send_buffer (bvalue size);;
  set_state STATE_SENDING_HELLO.

Inductive con_event := BCONNECTION_EVENT_ERROR | BCONNECTION_EVENT_RECVCLOSED.
Definition is_recvclosed (e : con_event) : bool := match e with BCONNECTION_EVENT_RECVCLOSED => true | _ => false end.
Definition connection_handler (e : con_event) : bp unit :=
  o ← bs_get;
  passert (negb (is_state (state o) STATE_CONNECTING));;
  if is_state (state o) STATE_UP && is_recvclosed e then report_error BSOCKSCLIENT_EVENT_ERROR_CLOSED
  else report_error BSOCKSCLIENT_EVENT_ERROR.

Definition auth_finished : bp unit :=
  o ← bs_get;
  let size := bsize_fromsize sizeof_socks_request_header in
  let size := if baddr_type (dest_addr o) =? BADDR_TYPE_IPV4 then bsize_add size (bsize_fromsize sizeof_socks_addr_ipv4)
              else if baddr_type (dest_addr o) =? BADDR_TYPE_IPV6 then bsize_add size (bsize_fromsize sizeof_socks_addr_ipv6)
              else size in
  r ← reserve_buffer size;
  if negb r then report_error BSOCKSCLIENT_EVENT_ERROR else
  atyp ← (match dest_addr o with
    | BADDR_IPV4 ip port =>
        buffer_write sizeof_socks_request_header (host_bytes 4 ip ++ host_bytes 2 port);; mret (hton8 SOCKS_ATYP_IPV4)
    | BADDR_IPV6 ip port =>
        buffer_write sizeof_socks_request_header (ztake 16 ip ++ host_bytes 2 port);; mret (hton8 SOCKS_ATYP_IPV6)
    | _ => passert false;; mret 0
    end);
  buffer_write 0 [hton8 SOCKS_VERSION; hton8 SOCKS_CMD_CONNECT; hton8 0; atyp];;
  send_buffer (bvalue size);;
  set_state STATE_SENDING_REQUEST.

(** The password message, written piece by piece. *)
Definition write_password (a : auth_info) : bp unit :=
  buffer_write 0 [1];;
  buffer_write 1 [wrap 8 (username_len a)];;
  u ← plift (mem_read (username a) 0 (username_len a));
  buffer_write 2 u;;
  let ptr := 2 + username_len a in
  buffer_write ptr [wrap 8 (password_len a)];;
  p ← plift (mem_read (password a) 0 (password_len a));
  buffer_write (ptr + 1) p.

(** The first entry of the type asked for. *)
Fixpoint find_auth (method : Z) (ai : list auth_info) : option auth_info :=
  match ai with
  | [] => None
  | a :: ai => if auth_type a =? method then Some a else find_auth method ai
  end.

Definition received_hello (ai : list auth_info) : bp unit :=
  m ← buffer_read 0 sizeof_socks_server_hello;
  if negb (ntoh8 (byte_at 0 m) =? SOCKS_VERSION) then report_error BSOCKSCLIENT_EVENT_ERROR else
  match find_auth (ntoh8 (byte_at 1 m)) ai with
  | None => report_error BSOCKSCLIENT_EVENT_ERROR
  | Some a =>
    if auth_type a =? SOCKS_METHOD_NO_AUTHENTICATION_REQUIRED then auth_finished
    else if auth_type a =? SOCKS_METHOD_USERNAME_PASSWORD then
      if (username_len a =? 0) || (255 <? username_len a) || (password_len a =? 0) || (255 <? password_len a)
      then report_error BSOCKSCLIENT_EVENT_ERROR else
      let size := bsize_fromsize (1 + 1 + username_len a + 1 + password_len a) in
      r ← reserve_buffer size;
      if negb r then report_error BSOCKSCLIENT_EVENT_ERROR else
      write_password a;;
      send_buffer (bvalue size);;
      set_state STATE_SENDING_PASSWORD
    else passert false
  end.

Definition received_reply_header : bp unit :=
  m ← buffer_read 0 sizeof_socks_reply_header;
  if negb (ntoh8 (byte_at 0 m) =? SOCKS_VERSION) then report_error BSOCKSCLIENT_EVENT_ERROR else
  if negb (ntoh8 (byte_at 1 m) =? SOCKS_REP_SUCCEEDED) then report_error BSOCKSCLIENT_EVENT_ERROR else
  if ntoh8 (byte_at 3 m) =? SOCKS_ATYP_IPV4 then
    start_receive sizeof_socks_reply_header sizeof_socks_addr_ipv4;; set_state STATE_RECEIVED_REPLY_HEADER
  else if ntoh8 (byte_at 3 m) =? SOCKS_ATYP_IPV6 then
    start_receive sizeof_socks_reply_header sizeof_socks_addr_ipv6;; set_state STATE_RECEIVED_REPLY_HEADER
  else report_error BSOCKSCLIENT_EVENT_ERROR.

Definition received_password_reply : bp unit :=
  v ← buffer_read 0 1;
  if negb (byte_at 0 v =? 1) then report_error BSOCKSCLIENT_EVENT_ERROR else
  r ← buffer_read 1 1;
  if negb (byte_at 0 r =? 0) then report_error BSOCKSCLIENT_EVENT_ERROR else
  auth_finished.

Definition received_reply_rest : bp unit :=
  bs_mod (fun o => o <| buffer := None |>);;
  free_control_io;;
  init_up_io;;
  set_state STATE_UP;;
  pcall (Handler BSOCKSCLIENT_EVENT_UP).

Definition recv_handler_done (ai : list auth_info) (data_len : Z) : bp unit :=
  o ← bs_get;
  passert (0 <=? data_len);;
  passert (data_len <=? recv_total o - recv_len o);;
  bs_mod (fun o => o <| recv_len ::= Z.add data_len |>);;
  o ← bs_get;
  if recv_len o <? recv_total o then do_receive else
  match state o with
  | STATE_SENT_HELLO => received_hello ai
  | STATE_SENT_REQUEST => received_reply_header
  | STATE_SENT_PASSWORD => received_password_reply
  | STATE_RECEIVED_REPLY_HEADER => received_reply_rest
  | _ => passert false
  end.

Definition send_handler_done : bp unit :=
  o ← bs_get;
  passert (negb (bool_decide (buffer o = None)));;
  match state o with
  | STATE_SENDING_HELLO =>
      let size := bsize_fromsize sizeof_socks_server_hello in
      r ← reserve_buffer size;
      if negb r then report_error BSOCKSCLIENT_EVENT_ERROR else
      start_receive 0 (bvalue size);; set_state STATE_SENT_HELLO
  | STATE_SENDING_REQUEST =>
      let size := bsize_add (bsize_fromsize sizeof_socks_reply_header)
        (bsize_max (bsize_fromsize sizeof_socks_addr_ipv4) (bsize_fromsize sizeof_socks_addr_ipv6)) in
      r ← reserve_buffer size;
      if negb r then report_error BSOCKSCLIENT_EVENT_ERROR else
      start_receive 0 sizeof_socks_reply_header;; set_state STATE_SENT_REQUEST
  | STATE_SENDING_PASSWORD =>
      let size := bsize_fromsize 2 in
      r ← reserve_buffer size;
      if negb r then report_error BSOCKSCLIENT_EVENT_ERROR else
      start_receive 0 (bvalue size);; set_state STATE_SENT_PASSWORD
  | _ => passert false
  end.

Definition is_method (t : Z) : bool :=
  (t =? SOCKS_METHOD_NO_AUTHENTICATION_REQUIRED) || (t =? SOCKS_METHOD_USERNAME_PASSWORD).
(** [connector_ok] is whether the connector could be set up; [o] is the memory of the client. *)
Definition BSocksClient_Init (server : BAddr) (ai : list auth_info) (n : Z) (dest : BAddr) (connector_ok : bool)
  (o : bsocks) : prog unit bs_call (option bsocks) :=
  passert (negb (BAddr_IsInvalid server));;
  passert ((baddr_type dest =? BADDR_TYPE_IPV4) || (baddr_type dest =? BADDR_TYPE_IPV6));;
  passert (forallb (fun a => is_method (auth_type a)) ai);;
  let o := o <| num_auth_info := n |> <| dest_addr := dest |> <| buffer := None |> in
  pcall (ConnectorInit server);;
  if negb connector_ok then mret None else
  mret (Some (o <| state := STATE_CONNECTING |>)).
End client.

(** * Steps *)

Section steps.
Context `{Arch}.

Inductive event :=
| EConnector (ai : list auth_info) (is_error con_ok : bool) (si : PPI.t) (ri : SPI.t)
| EConnection (e : con_event)
| ESendOp | ESendDone | ESendCompleted
| ERecvOp | ERecvDone (data : list Z) | ERecvCompleted (ai : list auth_info)
| EFree.

Definition send_if_handler (alloc : Z -> option (list Z)) (k : PPI.call) : bp unit :=
  match k with
  | PPI.HandlerOperation d n => pcall (SendPacket d n)
  | PPI.HandlerRequestCancel => passert false
  | PPI.HandlerDone => send_handler_done alloc
  end.
Definition recv_if_handler (alloc : Z -> option (list Z)) (ai : list auth_info) (k : SPI.call) : bp unit :=
  match k with
  | SPI.HandlerOperation d n => pcall (RecvStream d n)
  | SPI.HandlerDone n => recv_handler_done alloc ai n
  end.
(** The server's bytes are put where the operation asks for them. *)
Definition handle (alloc : Z -> option (list Z)) (e : event) : bp unit :=
  match e with
  | EConnector ai is_error con_ok si ri => connector_handler alloc ai is_error con_ok si ri
  | EConnection e => connection_handler e
  | ESendOp => on_send PPI.run_operation (send_if_handler alloc)
  | ESendDone => on_send PPI.Done (send_if_handler alloc)
  | ESendCompleted => on_send PPI.run_done (send_if_handler alloc)
  | ERecvOp => on_recv SPI.run_operation (recv_if_handler alloc [])
  | ERecvDone d =>
      o ← bs_get;
      match SPI.job_operation_data (recv_if o) with
      | Some p => buffer_write p d;; on_recv (SPI.Done (Zlen d)) (recv_if_handler alloc [])
      | None => fun _ => Err OutOfBounds
      end
  | ERecvCompleted ai => on_recv SPI.run_done (recv_if_handler alloc ai)
  | EFree => BSocksClient_Free
  end.

(** Whether sender and connection are given an operation, the packets sent and bytes received so
    far, and the types of the methods the user offers. *)
Record ghost := mk_ghost {
  g_send_busy : bool; g_recv_busy : bool; g_sent : list (list Z); g_recvd : list Z; g_methods : list Z }.
Definition packets (ks : list bs_call) : list (list Z) :=
  concat (map (fun k => match k with SendPacket (Some d) _ => [d] | _ => [] end) ks).
Definition is_send (k : bs_call) : bool := match k with SendPacket _ _ => true | _ => false end.
Definition is_recv (k : bs_call) : bool := match k with RecvStream _ _ => true | _ => false end.
Definition count (e : event) (ks : list bs_call) (g : ghost) : ghost :=
  mk_ghost
    (match e with ESendDone => false | _ => g_send_busy g || existsb is_send ks end)
    (match e with ERecvDone _ => false | _ => g_recv_busy g || existsb is_recv ks end)
    (g_sent g ++ packets ks)
    (match e with ERecvDone d => g_recvd g ++ d | _ => g_recvd g end)
    (g_methods g).

(** The user's entries: the types it offered, with credentials of the lengths they say. *)
Definition auth_ok (ai : list auth_info) (g : ghost) : Prop :=
  map auth_type ai = g_methods g /\
  Forall (fun a => 0 <= username_len a <= Zlen (username a) /\ 0 <= password_len a <= Zlen (password a)) ai.
Definition alloc_ok (alloc : Z -> option (list Z)) : Prop := forall n m, alloc n = Some m -> Zlen m = n.
(** What may happen: the connector reports once; the connection reports while there is one; the
    interfaces exist in the control phase; the user frees the client when it likes. *)
Definition control (o : bsocks) : Prop := state o <> STATE_CONNECTING /\ state o <> STATE_UP.
Definition enabled (e : event) (o : bsocks) (g : ghost) : Prop :=
  match e with
  | EConnector ai _ _ si ri => state o = STATE_CONNECTING /\ auth_ok ai g /\ PPI.fresh si /\ PPI.mtu si = INT_MAX /\ fresh ri
  | EConnection _ => state o <> STATE_CONNECTING
  | ESendOp => control o /\ PPI.job_operation (send_if o) = true
  | ESendDone => control o /\ g_send_busy g = true
  | ESendCompleted => control o /\ PPI.job_done (send_if o) = true
  | ERecvOp => control o /\ SPI.job_operation (recv_if o) = true
  | ERecvDone d => control o /\ g_recv_busy g = true /\ 0 < Zlen d <= SPI.job_operation_len (recv_if o)
  | ERecvCompleted ai => control o /\ SPI.job_done (recv_if o) = true /\ auth_ok ai g
  | EFree => True
  end.

(** ** The messages *)

Definition hello_message (methods : list Z) : list Z := [SOCKS_VERSION; Zlen methods] ++ methods.
Definition password_message (u p : list Z) : list Z := [1; Zlen u] ++ u ++ [Zlen p] ++ p.
Definition request_message (a : BAddr) : list Z :=
  [SOCKS_VERSION; SOCKS_CMD_CONNECT; 0; if baddr_type a =? BADDR_TYPE_IPV4 then SOCKS_ATYP_IPV4 else SOCKS_ATYP_IPV6] ++
  match a with
  | BADDR_IPV4 ip port => host_bytes 4 ip ++ host_bytes 2 port
  | BADDR_IPV6 ip port => ztake 16 ip ++ host_bytes 2 port
  | _ => []
  end.
(** What the server has answered when the client is authenticated, and what the client sent for it
    after the hello. *)
Inductive authenticated (methods : list Z) : list (list Z) -> list Z -> Prop :=
| auth_none : SOCKS_METHOD_NO_AUTHENTICATION_REQUIRED ∈ methods ->
    authenticated methods [] [SOCKS_VERSION; SOCKS_METHOD_NO_AUTHENTICATION_REQUIRED]
| auth_password u p : SOCKS_METHOD_USERNAME_PASSWORD ∈ methods -> 0 < Zlen u <= 255 -> 0 < Zlen p <= 255 ->
    authenticated methods [password_message u p] [SOCKS_VERSION; SOCKS_METHOD_USERNAME_PASSWORD; 1; 0].
Definition addr_size (atyp : Z) : Z := if atyp =? SOCKS_ATYP_IPV4 then sizeof_socks_addr_ipv4 else sizeof_socks_addr_ipv6.

(** The packets sent or about to be and the bytes received, state by state. *)
Inductive exchange (methods : list Z) (dest : BAddr) : socks_state -> list (list Z) -> list Z -> list Z -> Prop :=
| ex_connecting : exchange methods dest STATE_CONNECTING [] [] []
| ex_sending_hello : exchange methods dest STATE_SENDING_HELLO [hello_message methods] [] []
| ex_sent_hello q : exchange methods dest STATE_SENT_HELLO [hello_message methods] [] q
| ex_sending_password u p : SOCKS_METHOD_USERNAME_PASSWORD ∈ methods -> 0 < Zlen u <= 255 -> 0 < Zlen p <= 255 ->
    exchange methods dest STATE_SENDING_PASSWORD [hello_message methods; password_message u p]
      [SOCKS_VERSION; SOCKS_METHOD_USERNAME_PASSWORD] []
| ex_sent_password u p q : SOCKS_METHOD_USERNAME_PASSWORD ∈ methods -> 0 < Zlen u <= 255 -> 0 < Zlen p <= 255 ->
    exchange methods dest STATE_SENT_PASSWORD [hello_message methods; password_message u p]
      [SOCKS_VERSION; SOCKS_METHOD_USERNAME_PASSWORD] q
| ex_sending_request out r : authenticated methods out r ->
    exchange methods dest STATE_SENDING_REQUEST (hello_message methods :: out ++ [request_message dest]) r []
| ex_sent_request out r q : authenticated methods out r ->
    exchange methods dest STATE_SENT_REQUEST (hello_message methods :: out ++ [request_message dest]) r q
| ex_reply_header out r x t q : authenticated methods out r -> t = SOCKS_ATYP_IPV4 \/ t = SOCKS_ATYP_IPV6 ->
    exchange methods dest STATE_RECEIVED_REPLY_HEADER (hello_message methods :: out ++ [request_message dest])
      (r ++ [SOCKS_VERSION; SOCKS_REP_SUCCEEDED; x; t]) q
| ex_up out r x t q : authenticated methods out r -> t = SOCKS_ATYP_IPV4 \/ t = SOCKS_ATYP_IPV6 -> Zlen q = addr_size t ->
    exchange methods dest STATE_UP (hello_message methods :: out ++ [request_message dest])
      (r ++ [SOCKS_VERSION; SOCKS_REP_SUCCEEDED; x; t]) q.

Definition sending_state (s : socks_state) : bool :=
  match s with STATE_SENDING_HELLO | STATE_SENDING_PASSWORD | STATE_SENDING_REQUEST => true | _ => false end.
Definition receiving_state (s : socks_state) : bool :=
  match s with STATE_SENT_HELLO | STATE_SENT_PASSWORD | STATE_SENT_REQUEST | STATE_RECEIVED_REPLY_HEADER => true | _ => false end.
(** How much each state receives, and where. *)
Definition receives (s : socks_state) (dest total : Z) : Prop :=
  match s with
  | STATE_SENT_HELLO | STATE_SENT_PASSWORD => dest = 0 /\ total = 2
  | STATE_SENT_REQUEST => dest = 0 /\ total = 4
  | STATE_RECEIVED_REPLY_HEADER => dest = 4 /\ (total = 6 \/ total = 18)
  | _ => False
  end.
(** The bytes of the operation under way that have arrived. *)
Definition arrived (i : SPI.t) : Z := if SPI.job_done i then SPI.job_done_len i else 0.

Definition ifs_ok (o : bsocks) (g : ghost) : Prop :=
  ppi_ok (send_if o) (g_send_busy g) /\ PPI.mtu (send_if o) = INT_MAX /\ spi_ok (recv_if o) (g_recv_busy g).
Definition inv (o : bsocks) (g : ghost) : Prop :=
  baddr_wf (dest_addr o) /\ num_auth_info o = Zlen (g_methods g) /\ Forall (fun m => is_method m = true) (g_methods g) /\
  (state o <> STATE_CONNECTING -> 0 < Zlen (g_methods g) <= 255) /\
  exists out r q, exchange (g_methods g) (dest_addr o) (state o) out r q /\ g_recvd g = r ++ q /\
  if sending_state (state o) then
    ifs_ok o g /\ SPI.state (recv_if o) = ST_NONE /\ PPI.state (send_if o) <> ST_NONE /\
    exists b, buffer o = Some b /\
    (PPI.job_operation (send_if o) = true -> PPI.job_operation_data (send_if o) = Some b /\ out = g_sent g ++ [b]) /\
    (PPI.job_operation (send_if o) = false -> out = g_sent g)
  else
  out = g_sent g /\
  if receiving_state (state o) then
    ifs_ok o g /\ PPI.state (send_if o) = ST_NONE /\ SPI.state (recv_if o) <> ST_NONE /\
    SPI.job_operation_data (recv_if o) = Some (recv_dest o + recv_len o) /\
    SPI.job_operation_len (recv_if o) = recv_total o - recv_len o /\
    0 <= recv_len o < recv_total o /\ receives (state o) (recv_dest o) (recv_total o) /\
    (forall t, state o = STATE_RECEIVED_REPLY_HEADER -> r <> [] -> last r = Some t -> recv_total o = addr_size t) /\
    exists b, buffer o = Some b /\ recv_dest o + recv_total o <= Zlen b /\ (state o = STATE_SENT_REQUEST -> 22 <= Zlen b) /\
      q = slice (recv_dest o) (recv_len o + arrived (recv_if o)) b
  else g_send_busy g = false /\ g_recv_busy g = false.
End steps.
