(* ===== verification/SocksHandshake.v ===== *)
(** What BSocksClient.v promises: its handlers preserve an invariant under every event, from which
    follow the safety of the client, that what it sends and receives is the SOCKS5 exchange, and
    that the exchange ends. *)

From S2P Require Import Prelude IntCodec MiscArith Addr FlowIface FlowViews BSocksClient.


(** * The handlers *)

Section handlers.
Context `{Arch}.
Implicit Types (o : bsocks) (g : ghost).

(** Steps over a change of the client, naming the result. *)
Lemma bs_mod_eq f o o' : f o = o' -> bs_mod f (Some o) = Ok (tt, Some o', []).
Proof. intros <-; done. Qed.
Ltac mod_to o' := pstep_by ltac:(apply (bs_mod_eq _ _ o'); reflexivity).

Definition told (ks : list bs_call) : Prop :=
  Handler BSOCKSCLIENT_EVENT_ERROR ∈ ks \/ Handler BSOCKSCLIENT_EVENT_ERROR_CLOSED ∈ ks.
Definition plain (ks : list bs_call) : Prop :=
  packets ks = [] /\ existsb is_send ks = false /\ existsb is_recv ks = false /\ forall e, Handler e ∉ ks.

Lemma plain_nil : plain [].
Proof. split_and!; try done; intros e H1; inversion H1. Qed.
Definition setup_call (k : bs_call) : bool := match k with Handler _ | SendPacket _ _ | RecvStream _ _ => false | _ => true end.
Lemma plain_check ks : forallb setup_call ks = true -> plain ks.
Proof.
  induction ks as [|k ks IH]; cbn; intros H1; [apply plain_nil|]; apply andb_prop in H1 as [Hk Hks].
  destruct (IH Hks) as (P1 & P2 & P3 & P4); destruct k; try done; (split_and!; [exact P1 | exact P2 | exact P3 |]);
    intros e He; apply elem_of_cons in He as [He|He]; try discriminate; exact (P4 e He).
Qed.
Lemma plain_not_told ks : plain ks -> ~ told ks.
Proof. intros (_ & _ & _ & Hh) [?|?]; eapply Hh; done. Qed.

Lemma bs_Free_eq o : exists ks, BSocksClient_Free (Some o) = Ok (tt, None, ks).
Proof.
  assert (exists ks, ((if negb (is_state (state o) STATE_CONNECTING) then
     (if is_state (state o) STATE_UP then free_up_io else free_control_io);; pcall ConFree
   else pskip);; pcall ConnectorFree;; bs_gone) (Some o) = Ok (tt, None, ks)) as [ks Hks].
  { destruct (is_state (state o) STATE_CONNECTING), (is_state (state o) STATE_UP); eexists; reflexivity. }
  exists ks; unfold BSocksClient_Free; pstep; exact Hks.
Qed.
Lemma report_error_eq e o : exists ks, report_error e (Some o) = Ok (tt, None, ks) /\ Handler e ∈ ks.
Proof.
  destruct (bs_Free_eq o) as [ks Hks]; exists ([Handler e] ++ ks); split; [|constructor].
  unfold report_error; eapply pbind_calls; [reflexivity | exact Hks].
Qed.

(** The buffer holds what was written over the whole of it. *)
Lemma mem_write_all {A} (m d : list A) : Zlen d = Zlen m -> mem_write m 0 d = Ok d.
Proof.
  intros HL; rewrite mem_write_ok by lia; unfold mem_set; rewrite ztake_0, zdrop_all by lia; rewrite app_nil_r; done.
Qed.
Lemma mem_write_back {A} (m h a : list A) : Zlen m = Zlen h + Zlen a ->
  mem_write m (Zlen h) a = Ok (ztake (Zlen h) m ++ a) /\ mem_write (ztake (Zlen h) m ++ a) 0 h = Ok (h ++ a).
Proof.
  intros HL; pose proof (Zlen_nonneg h); pose proof (Zlen_nonneg a); split.
  - rewrite mem_write_ok by lia; unfold mem_set; rewrite zdrop_all, app_nil_r by lia; done.
  - assert (Zlen (ztake (Zlen h) m) = Zlen h) as E by (rewrite Zlen_ztake; lia).
    rewrite mem_write_ok by (rewrite ?Zlen_app, ?E; lia); unfold mem_set; rewrite ztake_0; cbn [app].
    rewrite zdrop_app_eq by lia; done.
Qed.

Lemma buffer_write_eq off d o b b' : buffer o = Some b -> mem_write b off d = Ok b' ->
  buffer_write off d (Some o) = Ok (tt, Some (o <| buffer := Some b' |>), []).
Proof. intros Hb Hw; unfold buffer_write; pstep; rewrite Hb; pstep_by ltac:(rewrite Hw; reflexivity); done. Qed.
Lemma buffer_write_app {A} off p q (k : bp A) s :
  (buffer_write off p;; buffer_write (off + Zlen p) q;; k) s = (buffer_write off (p ++ q);; k) s.
Proof.
  destruct s as [[n da st [b|] si ri rd rl rt]|]; [|done|done].
  cbv beta iota delta [mbind prog_bind buffer_write bs_get bs_mod plift update buffer].
  rewrite mem_write_app; destruct (mem_write b off p) as [b1|]; [|done].
  destruct (mem_write b1 (off + Zlen p) q); [|done].
  destruct (k _) as [[[x s2] c2]|]; done.
Qed.
Lemma write_methods_app {A} i ai h (k : bp A) s : 2 + i = Zlen h ->
  (buffer_write 0 h;; write_methods i ai;; k) s = (buffer_write 0 (h ++ map auth_type ai);; k) s.
Proof.
  revert i h s; induction ai as [|a ai IH]; intros i h s Hi; cbn [write_methods map].
  - rewrite app_nil_r; unfold mbind, prog_bind, pskip, mret, prog_ret; destruct (buffer_write 0 h s) as [[[u s1] c1]|]; [|done].
    destruct (k s1) as [[[x s2] c2]|]; done.
  - assert ((buffer_write 0 h;; (buffer_write (sizeof_socks_client_hello_header + i * sizeof_socks_client_hello_method) [hton8 (auth_type a)];;
        write_methods (i + 1) ai);; k) s = (buffer_write 0 h;; buffer_write (0 + Zlen h) [auth_type a];; write_methods (i + 1) ai;; k) s) as ->.
    { unfold sizeof_socks_client_hello_header, sizeof_socks_client_hello_method, hton8; replace (2 + i * 1) with (0 + Zlen h) by lia.
      unfold mbind, prog_bind; destruct (buffer_write 0 h s) as [[[u s1] c1]|]; [|done].
      destruct (buffer_write _ _ s1) as [[[u' s2] c2]|]; [|done]; destruct (write_methods (i + 1) ai s2) as [[[u'' s3] c3]|]; [|done].
      destruct (k s3) as [[[x s4] c4]|]; [|done]; rewrite <- app_assoc; done. }
    rewrite buffer_write_app, IH by (rewrite Zlen_app, Zlen_cons; change (Zlen []) with 0; lia).
    rewrite <- app_assoc; done.
Qed.

Lemma buffer_read_eq off len o b : buffer o = Some b -> 0 <= off -> 0 <= len -> off + len <= Zlen b ->
  buffer_read off len (Some o) = Ok (slice off len b, Some o, []).
Proof. intros Hb ???; unfold buffer_read; pstep; rewrite Hb, mem_read_ok by done; done. Qed.

(** Sizes of messages do not overflow. *)
Lemma bdenotes_small s n : bdenotes s n -> n <= 1000 -> is_overflow s = false /\ bvalue s = n.
Proof.
  intros (H1 & H2 & H3) Hn; pose proof size_max_bound; destruct (is_overflow s); [lia | done].
Qed.
Lemma small_size n : 0 <= n <= 1000 -> bdenotes (bsize_fromsize n) n.
Proof. intros; apply bdenotes_fromsize; pose proof size_max_bound; unfold is_size; lia. Qed.

Variable alloc : Z -> option (list Z).
Hypothesis Halloc : alloc_ok alloc.

Lemma reserve_eq size o : is_overflow size = false -> 0 < bvalue size ->
  reserve_buffer alloc size (Some o) = Ok (false, Some o, []) \/
  exists b, Zlen b = bvalue size /\ reserve_buffer alloc size (Some o) = Ok (true, Some (o <| buffer := Some b |>), []).
Proof.
  intros Ho Hv; unfold reserve_buffer; rewrite Ho; test_false (bvalue size =? 0).
  destruct (alloc (bvalue size)) as [b|] eqn:Ha; [right; exists b; split; [apply Halloc; done | done] | left; done].
Qed.

(** The whole buffer is sent. *)
Definition sending_buffer (d : list Z) (s : socks_state) (o : bsocks) : bsocks :=
  mk_bs (num_auth_info o) (dest_addr o) s (Some d) (sending_packet (send_if o) d) (recv_if o) (recv_dest o) (recv_len o) (recv_total o).
Lemma send_eq n d s o busy : ppi_ok (send_if o) busy -> PPI.state (send_if o) = ST_NONE -> PPI.mtu (send_if o) = INT_MAX ->
  buffer o = Some d -> n = Zlen d -> Zlen d <= INT_MAX ->
  (send_buffer n;; set_state s) (Some o) = Ok (tt, Some (sending_buffer d s o), []).
Proof.
  intros Hok Hi Hm Hb -> HL; unfold send_buffer.
  assert (on_send (PPI.Sender_Send (Some d) (Zlen d)) (fun _ => passert false) (Some o) =
    Ok (tt, Some (put_send_if (sending_packet (send_if o) d) o), [])) as Hs.
  { unfold on_send; destruct (ppi_send_eq _ busy d Hok Hi) as [-> _]; [lia | done]. }
  pose proof (Zlen_nonneg d).
  pstep_by ltac:(pstep_by ltac:(apply (buffer_read_eq 0 (Zlen d) o d); [done|lia..]); rewrite slice_all; exact Hs).
  unfold set_state; etransitivity; [apply bs_mod_eq; reflexivity|]; unfold sending_buffer, put_send_if; destruct o; cbn in Hb; subst; done.
Qed.

(** A receipt is started. *)
Definition receiving (d t : Z) (s : socks_state) (o : bsocks) : bsocks :=
  mk_bs (num_auth_info o) (dest_addr o) s (buffer o) (send_if o) (sending (recv_if o) d t) d 0 t.
Lemma receive_eq d t s o busy : spi_ok (recv_if o) busy -> SPI.state (recv_if o) = ST_NONE -> 0 < t ->
  (start_receive d t;; set_state s) (Some o) = Ok (tt, Some (receiving d t s o), []).
Proof.
  intros Hok Hi Ht; unfold start_receive.
  set (o1 := mk_bs (num_auth_info o) (dest_addr o) (state o) (buffer o) (send_if o) (recv_if o) d 0 t).
  assert (do_receive (Some o1) = Ok (tt, Some (put_recv_if (sending (recv_if o) d t) o1), [])) as Hr.
  { unfold do_receive; pstep; pstep_by ltac:(apply passert_ok; cbn; lia).
    change (recv_dest o1 + recv_len o1) with (d + 0); change (recv_total o1 - recv_len o1) with (t - 0).
    rewrite Z.add_0_r, Z.sub_0_r; unfold on_recv.
    change (SPI.StreamRecvInterface_Receiver_Recv (Some d) t (recv_if o1)) with (SPI.Sender_Send (Some d) t (recv_if o)).
    destruct (spi_send_eq (recv_if o) busy d t Hok Hi) as [-> _]; done. }
  pstep_by ltac:(pstep_by ltac:(apply passert_ok; lia); mod_to o1; exact Hr).
  unfold set_state; etransitivity; [apply bs_mod_eq; reflexivity|]; done.
Qed.

Lemma auth_finished_eq o busy : baddr_wf (dest_addr o) -> ppi_ok (send_if o) busy -> PPI.state (send_if o) = ST_NONE ->
  PPI.mtu (send_if o) = INT_MAX ->
  (exists ks, auth_finished alloc (Some o) = Ok (tt, None, ks) /\ told ks) \/
  auth_finished alloc (Some o) = Ok (tt, Some (sending_buffer (request_message (dest_addr o)) STATE_SENDING_REQUEST o), []).
Proof.
  intros Hwf Hok Hi Hm; unfold auth_finished.
  set (n := if baddr_type (dest_addr o) =? BADDR_TYPE_IPV4 then 10 else 22).
  set (size := if baddr_type (dest_addr o) =? BADDR_TYPE_IPV4
    then bsize_add (bsize_fromsize sizeof_socks_request_header) (bsize_fromsize sizeof_socks_addr_ipv4)
    else if baddr_type (dest_addr o) =? BADDR_TYPE_IPV6
    then bsize_add (bsize_fromsize sizeof_socks_request_header) (bsize_fromsize sizeof_socks_addr_ipv6)
    else bsize_fromsize sizeof_socks_request_header).
  assert (is_overflow size = false /\ bvalue size = n) as [Ho Hv].
  { apply bdenotes_small; [|unfold n; destruct (_ =? _); lia].
    unfold size, n; destruct (dest_addr o); try done; cbn [baddr_type Z.eqb Pos.eqb BADDR_TYPE_IPV4 BADDR_TYPE_IPV6];
      [apply (bdenotes_add _ _ 4 6) | apply (bdenotes_add _ _ 4 18)]; apply small_size; unfold sizeof_socks_request_header,
      sizeof_socks_addr_ipv4, sizeof_socks_addr_ipv6; lia. }
  assert (Zlen (request_message (dest_addr o)) = n) as HLr.
  { unfold n; destruct (dest_addr o) as [|ip port|ip port|]; try done; destruct Hwf as (_ & HL & _); unfold request_message.
    rewrite !Zlen_app, Zlen_ztake, HL; done. }
  destruct (reserve_eq size o Ho) as [Hr|(b & HLb & Hr)]; [rewrite Hv; unfold n; destruct (_ =? _); lia| |].
  - left; destruct (report_error_eq BSOCKSCLIENT_EVENT_ERROR o) as (ks & He & Hk).
    exists ks; split; [|left; done]; pstep; pstep_by ltac:(exact Hr); exact He.
  - right; pstep; pstep_by ltac:(exact Hr); cbn [negb]; rewrite Hv in HLb.
    set (o1 := o <| buffer := Some b |>).
    set (hdr := [SOCKS_VERSION; SOCKS_CMD_CONNECT; 0; if baddr_type (dest_addr o) =? BADDR_TYPE_IPV4 then SOCKS_ATYP_IPV4 else SOCKS_ATYP_IPV6]).
    set (ad := match dest_addr o with BADDR_IPV4 ip port => host_bytes 4 ip ++ host_bytes 2 port
      | BADDR_IPV6 ip port => ztake 16 ip ++ host_bytes 2 port | _ => [] end).
    assert (request_message (dest_addr o) = hdr ++ ad) as Hreq by done.
    assert (Zlen hdr = 4) as Hh by done.
    assert (Zlen b = Zlen hdr + Zlen ad) as HL by (rewrite HLb, <- HLr, Hreq, Zlen_app; done).
    destruct (mem_write_back b hdr ad HL) as [W1 W2]; rewrite Hh in W1, W2.
    set (o2 := o <| buffer := Some (ztake 4 b ++ ad) |>).
    assert ((match dest_addr o with
      | BADDR_IPV4 ip port =>
          buffer_write sizeof_socks_request_header (host_bytes 4 ip ++ host_bytes 2 port);; mret (hton8 SOCKS_ATYP_IPV4)
      | BADDR_IPV6 ip port =>
          buffer_write sizeof_socks_request_header (ztake 16 ip ++ host_bytes 2 port);; mret (hton8 SOCKS_ATYP_IPV6)
      | _ => passert false;; mret 0
      end) (Some o1) = Ok (if baddr_type (dest_addr o) =? BADDR_TYPE_IPV4 then SOCKS_ATYP_IPV4 else SOCKS_ATYP_IPV6, Some o2, [])) as Hw.
    { unfold ad, o2 in *; clear Hreq; destruct (dest_addr o); try done;
        (pstep_by ltac:(apply (buffer_write_eq _ _ o1 b); [done | exact W1]); done). }
    pstep_by ltac:(exact Hw).
    pstep_by ltac:(apply (buffer_write_eq 0 hdr o2 (ztake 4 b ++ ad)); [done | exact W2]).
    rewrite <- Hreq; set (o3 := o2 <| buffer := Some (request_message (dest_addr o)) |>).
    etransitivity; [apply (send_eq (bvalue size) (request_message (dest_addr o)) STATE_SENDING_REQUEST o3 busy); try done|].
    + rewrite Hv, HLr; done.
    + rewrite HLr; unfold n, INT_MAX; destruct (_ =? _); lia.
    + destruct o; done.
Qed.

Lemma write_password_eq a o b : buffer o = Some b -> 0 < username_len a <= 255 -> 0 < password_len a <= 255 ->
  username_len a <= Zlen (username a) -> password_len a <= Zlen (password a) ->
  Zlen b = 1 + 1 + username_len a + 1 + password_len a ->
  write_password a (Some o) = Ok (tt, Some (o <| buffer := Some (password_message
    (ztake (username_len a) (username a)) (ztake (password_len a) (password a))) |>), []).
Proof.
  intros Hb Hu Hp HLu HLp HLb; set (u := ztake (username_len a) (username a)); set (p := ztake (password_len a) (password a)).
  assert (Zlen u = username_len a /\ Zlen p = password_len a) as [Lu Lp] by (unfold u, p; rewrite !Zlen_ztake; lia).
  assert (mem_read (username a) 0 (username_len a) = Ok u /\ mem_read (password a) 0 (password_len a) = Ok p) as [Ru Rp].
  { split; apply mem_read_ok; lia. }
  assert (mem_write b 0 ([1] ++ [username_len a] ++ u ++ [password_len a] ++ p) =
    Ok ([1] ++ [username_len a] ++ u ++ [password_len a] ++ p)) as Hall.
  { apply mem_write_all; rewrite !Zlen_app, Lu, Lp, HLb; unfold Zlen; cbn [length]; lia. }
  assert (forall o b off d b', buffer o = Some b -> mem_write b off d = Ok b' ->
    buffer_write off d (Some o) = Ok (tt, Some (mk_bs (num_auth_info o) (dest_addr o) (state o) (Some b') (send_if o) (recv_if o)
      (recv_dest o) (recv_len o) (recv_total o)), [])) as Hbw by (intros; apply (buffer_write_eq off d o0 b0); done).
  unfold write_password; rewrite !(wrap_small 8) by lia; rewrite Ru, Rp.
  rewrite mem_write_app in Hall; change (0 + Zlen [1]) with 1 in Hall.
  destruct (mem_write b 0 [1]) as [b1|] eqn:E1; [|done]; pstep_by ltac:(apply (Hbw o b); done).
  rewrite mem_write_app in Hall; change (1 + Zlen [username_len a]) with 2 in Hall.
  destruct (mem_write b1 1 [username_len a]) as [b2|] eqn:E2; [|done]; pstep_by ltac:(eapply Hbw; [reflexivity | exact E2]); pstep.
  rewrite mem_write_app in Hall; rewrite Lu in Hall.
  destruct (mem_write b2 2 u) as [b3|] eqn:E3; [|done]; pstep_by ltac:(eapply Hbw; [reflexivity | exact E3]).
  rewrite mem_write_app in Hall; change (Zlen [password_len a]) with 1 in Hall.
  destruct (mem_write b3 (2 + username_len a) [password_len a]) as [b4|] eqn:E4; [|done];
    pstep_by ltac:(eapply Hbw; [reflexivity | exact E4]); pstep.
  etransitivity; [eapply Hbw; [reflexivity | exact Hall]|]; unfold password_message; rewrite Lu, Lp; destruct o; done.
Qed.

(** ** One event *)

(** How much is left to do: every event takes the handshake further. *)
Definition steps_left (s : socks_state) : Z :=
  match s with
  | STATE_CONNECTING => 130 | STATE_SENDING_HELLO => 120 | STATE_SENT_HELLO => 110 | STATE_SENDING_PASSWORD => 100
  | STATE_SENT_PASSWORD => 90 | STATE_SENDING_REQUEST => 80 | STATE_SENT_REQUEST => 60 | STATE_RECEIVED_REPLY_HEADER | STATE_UP => 0
  end.
Definition job_left (s : if_state) : Z :=
  match s with ST_OPERATION_PENDING => 2 | ST_BUSY => 1 | ST_DONE_PENDING | ST_NONE => 0 end.
Definition to_do (o : bsocks) : Z :=
  steps_left (state o) +
  if sending_state (state o) then job_left (PPI.state (send_if o))
  else if receiving_state (state o) then 3 * (recv_total o - recv_len o) + job_left (SPI.state (recv_if o)) else 0.

Definition handled (e : event) (o : bsocks) (g : ghost) : Prop :=
  exists s ks, handle alloc e (Some o) = Ok (tt, s, ks) /\
  match s with
  | None => e = EFree \/ told ks
  | Some o' => inv o' (count e ks g) /\ ~ told ks /\ (Handler BSOCKSCLIENT_EVENT_UP ∈ ks <-> state o <> STATE_UP /\ state o' = STATE_UP) /\ to_do o' < to_do o
  end.

Lemma handled_error e o g e' : handle alloc e (Some o) = report_error e' (Some o) -> e' <> BSOCKSCLIENT_EVENT_UP -> handled e o g.
Proof.
  intros Hr He; destruct (report_error_eq e' o) as (ks & Hk & Hin); exists None, ks; split; [congruence|].
  right; destruct e'; [left | | right]; done.
Qed.
Lemma handled_told e o g ks : handle alloc e (Some o) = Ok (tt, None, ks) -> told ks -> handled e o g.
Proof. intros Hr Ht; exists None, ks; split; [exact Hr | right; exact Ht]. Qed.
Lemma handled_plain e o g o' ks : handle alloc e (Some o) = Ok (tt, Some o', ks) -> plain ks \/ (exists d n, ks = [SendPacket d n]) \/ (exists d n, ks = [RecvStream d n]) ->
  (state o = STATE_UP \/ state o' <> STATE_UP) -> inv o' (count e ks g) -> to_do o' < to_do o -> handled e o g.
Proof.
  intros Hr Hk Hs Hi Hlt; exists (Some o'), ks; split; [exact Hr|]; split; [exact Hi|].
  assert (forall ev, Handler ev ∉ ks) as Hno.
  { destruct Hk as [(_ & _ & _ & Hh)|[(d & n & ->)|(d & n & ->)]]; [exact Hh| |]; intros ev Hev%list_elem_of_singleton; discriminate Hev. }
  split; [intros [Hev|Hev]; exact (Hno _ Hev)|]; split; [|exact Hlt]; split; [intros Hev; destruct (Hno _ Hev) | intros [? ?]; tauto].
Qed.

Lemma count_plain e ks g : plain ks -> match e with ESendDone | ERecvDone _ => False | _ => True end -> count e ks g = g.
Proof.
  intros (H1 & H2 & H3 & _) He; unfold count; rewrite H1, H2, H3, app_nil_r, !orb_false_r; destruct g, e; done.
Qed.

(** What the invariant says when a message is handed to the sender, and when a receipt is started. *)
Lemma inv_sending d s o g out r : baddr_wf (dest_addr o) -> num_auth_info o = Zlen (g_methods g) ->
  Forall (fun m => is_method m = true) (g_methods g) -> 0 < Zlen (g_methods g) <= 255 ->
  exchange (g_methods g) (dest_addr o) s (out ++ [d]) r [] -> sending_state s = true ->
  g_sent g = out -> g_recvd g = r ->
  ppi_ok (send_if o) (g_send_busy g) -> PPI.state (send_if o) = ST_NONE -> PPI.mtu (send_if o) = INT_MAX -> Zlen d <= INT_MAX ->
  spi_ok (recv_if o) (g_recv_busy g) -> SPI.state (recv_if o) = ST_NONE -> inv (sending_buffer d s o) g.
Proof.
  intros Hwf Hn Hm H255 Hex Hs Hout Hr Hok Hi Hmtu HL Hrok Hri.
  split; [exact Hwf|]; split; [exact Hn|]; split; [exact Hm|]; split; [intros _; exact H255|].
  exists (out ++ [d]), r, []; split; [exact Hex|]; split; [rewrite app_nil_r; exact Hr|].
  change (state (sending_buffer d s o)) with s; rewrite Hs.
  split; [split; [|split; [exact Hmtu | exact Hrok]]|].
  { apply (ppi_send_eq (send_if o) (g_send_busy g) d Hok Hi); lia. }
  split; [exact Hri|]; split; [done|]; exists d; split; [done|]; split; [|done].
  intros _; split; [done | rewrite Hout; done].
Qed.

Lemma inv_receiving d t s o g out r b : baddr_wf (dest_addr o) -> num_auth_info o = Zlen (g_methods g) ->
  Forall (fun m => is_method m = true) (g_methods g) -> 0 < Zlen (g_methods g) <= 255 ->
  exchange (g_methods g) (dest_addr o) s out r [] -> receiving_state s = true -> receives s d t ->
  (forall t', s = STATE_RECEIVED_REPLY_HEADER -> r <> [] -> last r = Some t' -> t = addr_size t') ->
  g_sent g = out -> g_recvd g = r ->
  ppi_ok (send_if o) (g_send_busy g) -> PPI.state (send_if o) = ST_NONE -> PPI.mtu (send_if o) = INT_MAX ->
  spi_ok (recv_if o) (g_recv_busy g) -> SPI.state (recv_if o) = ST_NONE -> buffer o = Some b -> d + t <= Zlen b ->
  (s = STATE_SENT_REQUEST -> 22 <= Zlen b) ->
  inv (receiving d t s o) g.
Proof.
  intros Hwf Hn Hm H255 Hex Hs Hrc Hlast Hout Hr Hok Hi Hmtu Hrok Hri Hb HL H22.
  assert (0 < t) as Ht by (destruct s; cbn in Hrc; lia).
  assert (SPI.job_done (recv_if o) = false) as Hj by (destruct Hrok as [_ Hrok]; rewrite Hri in Hrok; apply Hrok).
  split; [exact Hwf|]; split; [exact Hn|]; split; [exact Hm|]; split; [intros _; exact H255|].
  exists out, r, []; split; [exact Hex|]; split; [rewrite app_nil_r; exact Hr|].
  change (state (receiving d t s o)) with s; rewrite Hs.
  assert (sending_state s = false) as -> by (destruct s; done).
  split; [done|]; split; [split; [exact Hok|]; split; [exact Hmtu|]; apply (spi_send_eq (recv_if o) (g_recv_busy g) d t Hrok Hri Ht)|].
  split; [exact Hi|]; split; [done|]; split; [cbn; rewrite Z.add_0_r; done|]; split; [cbn; lia|]; split; [cbn; lia|]; split; [exact Hrc|].
  split; [intros t' Hst Hne Hl; exact (Hlast t' Hst Hne Hl)|].
  exists b; split; [exact Hb|]; split; [exact HL|]; split; [exact H22|]; unfold arrived; cbn; rewrite Hj; done.
Qed.

(** Ends with the user being told and the client gone. *)
Definition fails (m : bp unit) (s : option bsocks) : Prop := exists ks, m s = Ok (tt, None, ks) /\ told ks.
Lemma fails_report e o : e <> BSOCKSCLIENT_EVENT_UP -> fails (report_error e) (Some o).
Proof.
  intros He; destruct (report_error_eq e o) as (ks & Hk & Hin); exists ks; split; [exact Hk|].
  destruct e; [left | | right]; done.
Qed.
Lemma fails_bind {A} (p : bp A) (k : A -> bp unit) s x s1 c : p s = Ok (x, s1, c) -> fails (k x) s1 -> fails (p ≫= k) s.
Proof.
  intros Hp (ks & Hk & Ht); exists (c ++ ks); split; [eapply pbind_calls; done|].
  destruct Ht as [Ht|Ht]; [left | right]; apply elem_of_app; right; exact Ht.
Qed.
Lemma handled_fails e o g : fails (handle alloc e) (Some o) -> handled e o g.
Proof. intros (ks & Hk & Ht); exact (handled_told e o g ks Hk Ht). Qed.
Lemma fails_eq m m' s s' : m s = m' s' -> fails m' s' -> fails m s.
Proof. intros He (ks & Hk & Ht); exists ks; split; [congruence | exact Ht]. Qed.

(** *** The connector *)

Definition connected (i : PPI.t) (ri : SPI.t) (o : bsocks) : bsocks :=
  mk_bs (num_auth_info o) (dest_addr o) (state o) (buffer o) i ri (recv_dest o) (recv_len o) (recv_total o).
Lemma init_control_eq si ri o : PPI.fresh si -> fresh ri -> exists si' ri',
  init_control_io si ri (Some o) = Ok (tt, Some (connected si' ri' o), [RecvAsyncInit; SendAsyncInit; StreamSenderInit INT_MAX]) /\
  ppi_ok si' false /\ PPI.state si' = ST_NONE /\ PPI.mtu si' = PPI.mtu si /\ spi_ok ri' false /\ SPI.state ri' = ST_NONE.
Proof.
  intros Hs Hr; destruct (ppi_fresh_init si Hs) as (si' & Es & Hs1 & Hs2 & Hs3); destruct (fresh_init ri Hr) as (ri' & Er & Hr1 & Hr2).
  exists si', ri'; split; [|done].
  cbv beta iota delta [init_control_io mbind prog_bind pcall bs_mod on_recv on_send put_recv_if put_send_if
    SPI.StreamRecvInterface_Receiver_Init foreach pskip mret prog_ret update recv_if send_if bsocks_eta app]; rewrite Er.
  cbv beta iota; cbn [recv_if send_if]; rewrite Es; done.
Qed.

Definition connector_ready (ai : list auth_info) (o : bsocks) : bp unit :=
  let fail1 := free_control_io;; pcall ConFree;; report_error BSOCKSCLIENT_EVENT_ERROR in
  if (num_auth_info o =? 0) || (255 <? num_auth_info o) then fail1 else
  let size := bsize_add (bsize_fromsize sizeof_socks_client_hello_header)
    (bsize_mul (bsize_fromsize (num_auth_info o)) (bsize_fromsize sizeof_socks_client_hello_method)) in
  r ← reserve_buffer alloc size;
  if negb r then fail1 else
  buffer_write 0 [hton8 SOCKS_VERSION; hton8 (num_auth_info o)];;
  write_methods 0 ai;;
  send_buffer (bvalue size);;
  set_state STATE_SENDING_HELLO.
Lemma connector_ready_eq ai o o1 : num_auth_info o = Zlen ai -> ppi_ok (send_if o1) false -> PPI.state (send_if o1) = ST_NONE ->
  PPI.mtu (send_if o1) = INT_MAX ->
  fails (connector_ready ai o) (Some o1) \/
  0 < Zlen ai <= 255 /\
  connector_ready ai o (Some o1) = Ok (tt, Some (sending_buffer (hello_message (map auth_type ai)) STATE_SENDING_HELLO o1), []).
Proof.
  intros Hn Hok Hi Hm; unfold connector_ready; rewrite Hn; pose proof (Zlen_nonneg ai).
  assert (fails (free_control_io;; pcall ConFree;; report_error BSOCKSCLIENT_EVENT_ERROR) (Some o1)) as Hfail.
  { do 2 (eapply fails_bind; [reflexivity|]); apply fails_report; done. }
  destruct ((Zlen ai =? 0) || (255 <? Zlen ai)) eqn:Hc; [left; exact Hfail|].
  set (size := bsize_add _ _).
  assert (is_overflow size = false /\ bvalue size = 2 + Zlen ai) as [Ho Hv].
  { apply bdenotes_small; [|lia]; unfold size.
    apply bdenotes_add; [apply small_size; unfold sizeof_socks_client_hello_header; lia|].
    rewrite <- (Z.mul_1_r (Zlen ai)) at 2; apply bdenotes_mul; try lia; apply small_size; unfold sizeof_socks_client_hello_method; lia. }
  set (msg := hello_message (map auth_type ai)).
  assert (Zlen msg = 2 + Zlen ai) as HLm by (unfold msg, hello_message; rewrite Zlen_app; unfold Zlen; rewrite length_map; cbn; lia).
  destruct (reserve_eq size o1 Ho) as [Hr|(b & HLb & Hr)]; [lia|left; eapply fails_bind; [exact Hr | exact Hfail]|].
  right; split; [lia|]; pstep_by ltac:(exact Hr); cbn [negb].
  rewrite (write_methods_app 0 ai) by done.
  set (o2 := o1 <| buffer := Some b |>).
  assert ([hton8 SOCKS_VERSION; hton8 (Zlen ai)] ++ map auth_type ai = msg) as ->.
  { unfold msg, hello_message, hton8, Zlen; rewrite length_map; done. }
  pstep_by ltac:(apply (buffer_write_eq 0 msg o2 b msg); [done | apply mem_write_all; lia]).
  etransitivity; [apply (send_eq _ msg STATE_SENDING_HELLO (o2 <| buffer := Some msg |>) false); try done|].
  - lia.
  - unfold INT_MAX; lia.
  - destruct o1; done.
Qed.

Lemma inv_connecting o g : inv o g -> state o = STATE_CONNECTING ->
  g_sent g = [] /\ g_recvd g = [] /\ g_send_busy g = false /\ g_recv_busy g = false.
Proof.
  intros (_ & _ & _ & _ & out & r & q & Hex & Hq & Hrest) Hs; rewrite Hs in Hex, Hrest; cbn in Hrest.
  inversion Hex; subst; destruct Hrest as (<- & -> & ->); done.
Qed.

Lemma connector_handled ai is_error con_ok si ri o g : inv o g -> enabled (EConnector ai is_error con_ok si ri) o g ->
  handled (EConnector ai is_error con_ok si ri) o g.
Proof.
  intros Hinv (Hs & [Hai Hcred] & Hsi & Hmtu & Hri).
  destruct (inv_connecting o g Hinv Hs) as (Hsent & Hrecvd & Hsb & Hrb).
  destruct Hinv as (Hwf & Hn & Hmeth & _).
  assert (num_auth_info o = Zlen ai) as Hn' by (rewrite Hn, <- Hai; unfold Zlen; rewrite length_map; done).
  assert (connector_handler alloc ai is_error con_ok si ri (Some o) = (if is_error then report_error BSOCKSCLIENT_EVENT_ERROR else
    pcall ConInit;; if negb con_ok then report_error BSOCKSCLIENT_EVENT_ERROR else
    init_control_io si ri;; connector_ready ai o) (Some o)) as Heq.
  { unfold connector_handler; pstep; pstep_by ltac:(apply passert_ok; rewrite Hs; done); done. }
  destruct is_error; [apply (handled_error (EConnector ai true con_ok si ri) o g _ Heq); done|].
  destruct con_ok; cbn [negb] in Heq.
  2: { apply handled_fails; eapply fails_eq; [exact Heq|]; eapply fails_bind; [reflexivity|]; apply fails_report; done. }
  destruct (init_control_eq si ri o Hsi Hri) as (si' & ri' & Hinit & Hp & Hpn & Hpm & Hr & Hrn); rewrite Hmtu in Hpm.
  set (o1 := connected si' ri' o) in *.
  destruct (connector_ready_eq ai o o1 Hn' Hp Hpn Hpm) as [Hf|[H255 Hk]].
  { apply handled_fails; eapply fails_eq; [exact Heq|]; eapply fails_bind; [reflexivity|]; eapply fails_bind; [exact Hinit | exact Hf]. }
  eapply handled_plain; [etransitivity; [exact Heq|]; eapply pbind_calls; [reflexivity|]; eapply pbind_calls; [exact Hinit | exact Hk]
    | left | right; done | | unfold to_do; rewrite Hs; done].
  { apply plain_check; done. }
  rewrite count_plain; [|apply plain_check; done | done].
  rewrite Hai; apply (inv_sending _ _ o1 g [] []); try done; try (rewrite ?Hsb, ?Hrb; done).
  - rewrite <- Hai; unfold Zlen; rewrite length_map; exact H255.
  - apply ex_sending_hello.
  - unfold hello_message; rewrite Zlen_app; rewrite <- Hai; change (Zlen [_; _]) with 2; unfold Zlen at 1; rewrite length_map; unfold INT_MAX, Zlen in *; lia.
Qed.

(** *** The packet and the operations under way *)

Lemma send_phase o g : inv o g -> control o ->
  PPI.job_operation (send_if o) = true \/ g_send_busy g = true \/ PPI.job_done (send_if o) = true -> sending_state (state o) = true.
Proof.
  intros (_ & _ & _ & _ & out & r & q & _ & _ & Hrest) [Hc Hu] Hb.
  destruct (sending_state (state o)) eqn:Hs; [done|]; destruct Hrest as [_ Hrest].
  destruct (receiving_state (state o)) eqn:Hr; [|destruct (state o); done].
  destruct Hrest as (((_ & _ & Hif) & _) & Hi & _); rewrite Hi in Hif; destruct Hif as (H1 & H2 & H3); destruct Hb as [Hb|[Hb|Hb]]; congruence.
Qed.
Lemma recv_phase o g : inv o g -> control o ->
  SPI.job_operation (recv_if o) = true \/ g_recv_busy g = true \/ SPI.job_done (recv_if o) = true -> receiving_state (state o) = true.
Proof.
  intros (_ & _ & _ & _ & out & r & q & _ & _ & Hrest) [Hc Hu] Hb.
  destruct (receiving_state (state o)) eqn:Hr; [done|].
  assert (sending_state (state o) = true) as Hs by (destruct (state o); done); rewrite Hs in Hrest.
  destruct Hrest as ((_ & _ & _ & Hif) & Hi & _); rewrite Hi in Hif; destruct Hif as (H1 & H2 & H3); destruct Hb as [Hb|[Hb|Hb]]; congruence.
Qed.
Lemma sending_not_receiving s : sending_state s = true -> receiving_state s = false.
Proof. destruct s; done. Qed.
Lemma receiving_not_sending s : receiving_state s = true -> sending_state s = false.
Proof. destruct s; done. Qed.

Lemma bs_send_op_handled o g : inv o g -> enabled ESendOp o g -> handled ESendOp o g.
Proof.
  intros Hinv [Hc Hj]; pose proof (send_phase o g Hinv Hc (or_introl Hj)) as Hs.
  destruct Hinv as (Hwf & Hn & Hm & H255 & out & r & q & Hex & Hq & Hrest); rewrite Hs in Hrest.
  destruct Hrest as ((Hp & Hmtu & Hr) & Hrn & Hpn & b & Hb & Hjob & _); destruct (Hjob Hj) as [Hd Hout].
  destruct (ppi_op_eq _ _ Hp Hj) as (i' & Hrun & Hp' & Hpn' & Hmtu' & _).
  assert (PPI.job_operation i' = false) as Hj' by (destruct Hp' as (_ & _ & Hp'); destruct (PPI.state i'); destruct_and?; done).
  apply (handled_plain _ o g (put_send_if i' o) [SendPacket (Some b) (PPI.job_operation_len (send_if o))]).
  - change (on_send PPI.run_operation (send_if_handler alloc) (Some o) =
      Ok (tt, Some (put_send_if i' o), [SendPacket (Some b) (PPI.job_operation_len (send_if o))])).
    unfold on_send; rewrite Hrun, Hd; done.
  - right; left; eexists _, _; done.
  - right; apply Hc.
  - split; [exact Hwf|]; split; [exact Hn|]; split; [exact Hm|]; split; [exact H255|].
    exists out, r, q; split; [exact Hex|]; split; [exact Hq|].
    change (state (put_send_if i' o)) with (state o); rewrite Hs.
    split; [split; [change (ppi_ok i' (g_send_busy g || true)); rewrite orb_true_r; exact Hp'|]; split; [exact (eq_trans Hmtu' Hmtu)|]; cbn; rewrite orb_false_r; exact Hr|].
    split; [exact Hrn|]; split; [exact Hpn'|]; exists b; split; [exact Hb|].
    split; [intros Hjt; change (PPI.job_operation i' = true) in Hjt; rewrite Hj' in Hjt; done|]; intros _; rewrite Hout; done.
  - unfold to_do; change (state (put_send_if i' o)) with (state o); rewrite Hs; change (send_if (put_send_if i' o)) with i'.
    destruct Hp as (_ & _ & Hp), Hp' as (_ & _ & Hp'), (PPI.state (send_if o)), (PPI.state i'); destruct_and?; (congruence || cbn; lia).
Qed.
Lemma bs_send_done_handled o g : inv o g -> enabled ESendDone o g -> handled ESendDone o g.
Proof.
  intros Hinv [Hc Hbusy]; pose proof (send_phase o g Hinv Hc (or_intror (or_introl Hbusy))) as Hs.
  destruct Hinv as (Hwf & Hn & Hm & H255 & out & r & q & Hex & Hq & Hrest); rewrite Hs in Hrest.
  destruct Hrest as ((Hp & Hmtu & Hr) & Hrn & Hpn & b & Hb & _ & Hjob).
  rewrite Hbusy in Hp; destruct (ppi_done_eq _ Hp) as (i' & Hrun & Hp' & Hpn' & Hmtu' & _).
  assert (PPI.job_operation (send_if o) = false) as Hj by (destruct Hp as (_ & _ & Hp); destruct (PPI.state (send_if o)); destruct_and?; done).
  assert (PPI.job_operation i' = false) as Hj'.
  { rewrite <- Hj; revert Hrun; unfold PPI.Done; prog_simpl; destruct (st_is _ _), (send_if o); intros [= <-]; done. }
  apply (handled_plain _ o g (put_send_if i' o) []).
  - change (on_send PPI.Done (send_if_handler alloc) (Some o) = Ok (tt, Some (put_send_if i' o), [])).
    unfold on_send; rewrite Hrun; done.
  - left; apply plain_nil.
  - right; apply Hc.
  - split; [exact Hwf|]; split; [exact Hn|]; split; [exact Hm|]; split; [exact H255|].
    exists out, r, q; split; [exact Hex|]; split; [exact Hq|].
    change (state (put_send_if i' o)) with (state o); rewrite Hs.
    split; [split; [exact Hp'|]; split; [exact (eq_trans Hmtu' Hmtu)|]; cbn; rewrite orb_false_r; exact Hr|].
    split; [exact Hrn|]; split; [exact Hpn'|]; exists b; split; [exact Hb|].
    split; [intros Hjt; change (PPI.job_operation i' = true) in Hjt; rewrite Hj' in Hjt; done|]; intros _; cbn; rewrite app_nil_r; exact (Hjob Hj).
  - unfold to_do; change (state (put_send_if i' o)) with (state o); rewrite Hs; change (send_if (put_send_if i' o)) with i'.
    destruct Hp as (_ & _ & Hp), Hp' as (_ & _ & Hp'), (PPI.state (send_if o)), (PPI.state i'); destruct_and?; (congruence || cbn; lia).
Qed.

(** What stays of the invariant while a receipt goes on. *)
Lemma inv_received o g o' g' out r q i b :
  inv o g -> exchange (g_methods g) (dest_addr o) (state o) out r q -> receiving_state (state o) = true ->
  o' = mk_bs (num_auth_info o) (dest_addr o) (state o) (Some b) (send_if o) i (recv_dest o) (recv_len o') (recv_total o) ->
  ppi_ok (send_if o) (g_send_busy g) -> PPI.mtu (send_if o) = INT_MAX -> PPI.state (send_if o) = ST_NONE ->
  (forall t, state o = STATE_RECEIVED_REPLY_HEADER -> r <> [] -> last r = Some t -> recv_total o = addr_size t) ->
  receives (state o) (recv_dest o) (recv_total o) -> recv_dest o + recv_total o <= Zlen b ->
  (state o = STATE_SENT_REQUEST -> 22 <= Zlen b) ->
  out = g_sent g -> g_send_busy g' = g_send_busy g -> g_sent g' = g_sent g -> g_methods g' = g_methods g ->
  spi_ok i (g_recv_busy g') -> SPI.state i <> ST_NONE ->
  SPI.job_operation_data i = Some (recv_dest o + recv_len o') -> SPI.job_operation_len i = recv_total o - recv_len o' ->
  0 <= recv_len o' < recv_total o -> g_recvd g' = r ++ slice (recv_dest o) (recv_len o' + arrived i) b -> inv o' g'.
Proof.
  intros (Hwf & Hn & Hm & H255 & _) Hex Hs -> Hp Hmtu Hpi Hlast Hrc HL H22 Hout G1 G2 G3 Hr Hri Hd HLen Hlen Hq.
  split; [exact Hwf|]; rewrite G3; split; [exact Hn|]; split; [exact Hm|]; split; [exact H255|].
  exists out, r, (slice (recv_dest o) (recv_len o' + arrived i) b).
  split; [destruct (state o); try done; inversion Hex; subst; constructor; done|].
  split; [exact Hq|]; cbn [state]; rewrite (receiving_not_sending _ Hs), Hs, G2; split; [exact Hout|].
  split; [split; [rewrite G1; exact Hp|]; split; [exact Hmtu | exact Hr]|].
  split; [exact Hpi|]; split; [exact Hri|]; split; [exact Hd|]; split; [exact HLen|]; split; [exact Hlen|]; split; [exact Hrc|].
  split; [exact Hlast|]; exists b; split; [done|]; split; [exact HL|]; split; [exact H22 | done].
Qed.

Lemma bs_recv_op_handled o g : inv o g -> enabled ERecvOp o g -> handled ERecvOp o g.
Proof.
  intros Hinv [Hc Hj]; pose proof (recv_phase o g Hinv Hc (or_introl Hj)) as Hs; pose proof Hinv as Hinv0.
  destruct Hinv as (_ & _ & _ & _ & out & r & q & Hex & Hq & Hrest).
  rewrite (receiving_not_sending _ Hs), Hs in Hrest.
  destruct Hrest as (Hout & (Hp & Hmtu & Hr) & Hpn & Hrn & Hd & HLn & Hlen & Hrc & Hlast & b & Hb & HL & H22 & ->).
  destruct (spi_op_eq _ _ Hr Hj) as (i' & Hrun & Hr' & Hrn' & Hjd' & Hjd & _ & Hd' & HLn').
  apply (handled_plain _ o g (put_recv_if i' o) [RecvStream (SPI.job_operation_data (recv_if o)) (SPI.job_operation_len (recv_if o))]).
  - change (on_recv SPI.run_operation (recv_if_handler alloc []) (Some o) = Ok (tt, Some (put_recv_if i' o),
      [RecvStream (SPI.job_operation_data (recv_if o)) (SPI.job_operation_len (recv_if o))])).
    unfold on_recv; rewrite Hrun; done.
  - right; right; eexists _, _; done.
  - right; apply Hc.
  - apply (inv_received o g _ _ out r (slice (recv_dest o) (recv_len o + arrived (recv_if o)) b) i' b); try done.
    + rewrite <- Hb; done.
    + cbn; rewrite orb_false_r; done.
    + cbn; rewrite app_nil_r; done.
    + cbn; rewrite orb_true_r; done.
    + rewrite Hd', Hd; done.
    + rewrite HLn', HLn; done.
    + unfold arrived in *; rewrite Hjd in Hq; rewrite Hjd'; exact Hq.
  - unfold to_do; change (state (put_recv_if i' o)) with (state o); rewrite (receiving_not_sending _ Hs), Hs.
    change (recv_if (put_recv_if i' o)) with i'; change (recv_len (put_recv_if i' o)) with (recv_len o); change (recv_total (put_recv_if i' o)) with (recv_total o).
    destruct Hr as (_ & Hr), Hr' as (_ & Hr'), (SPI.state (recv_if o)), (SPI.state i'); destruct_and?; (congruence || cbn; lia).
Qed.

Lemma bs_recv_done_handled d o g : inv o g -> enabled (ERecvDone d) o g -> handled (ERecvDone d) o g.
Proof.
  intros Hinv (Hc & Hbusy & Hdl); pose proof (recv_phase o g Hinv Hc (or_intror (or_introl Hbusy))) as Hs; pose proof Hinv as Hinv0.
  destruct Hinv as (_ & _ & _ & _ & out & r & q & Hex & Hq & Hrest).
  rewrite (receiving_not_sending _ Hs), Hs in Hrest.
  destruct Hrest as (Hout & (Hp & Hmtu & Hr) & Hpn & Hrn & Hd & HLn & Hlen & Hrc & Hlast & b & Hb & HL & H22 & ->).
  rewrite Hbusy in Hr; destruct (spi_done_eq _ (Zlen d) Hr Hdl) as (i' & Hrun & Hr' & Hrn' & Hjd' & Hjl' & Hjd & _ & Hd' & HLn').
  assert (0 <= recv_dest o) as Hd0 by (destruct (state o); cbn in Hrc; lia).
  set (b' := mem_set b (recv_dest o + recv_len o) d).
  assert (Zlen b' = Zlen b) as HLb by (apply Zlen_mem_set; lia).
  set (o' := mk_bs (num_auth_info o) (dest_addr o) (state o) (Some b') (send_if o) i' (recv_dest o) (recv_len o) (recv_total o)).
  apply (handled_plain _ o g o' []).
  - assert (handle alloc (ERecvDone d) (Some o) = (buffer_write (recv_dest o + recv_len o) d;;
      on_recv (SPI.Done (Zlen d)) (recv_if_handler alloc [])) (Some o)) as ->.
    { cbn [handle]; pstep; rewrite Hd; done. }
    pstep_by ltac:(apply (buffer_write_eq _ d o b b' Hb); apply mem_write_ok; lia).
    unfold on_recv; change (recv_if (o <| buffer := Some b' |>)) with (recv_if o); rewrite Hrun; destruct o; done.
  - left; apply plain_nil.
  - right; apply Hc.
  - apply (inv_received o g o' _ out r (slice (recv_dest o) (recv_len o + arrived (recv_if o)) b) i' b'); try done.
    + rewrite HLb; done.
    + rewrite HLb; done.
    + cbn; rewrite orb_false_r; done.
    + cbn; rewrite app_nil_r; done.
    + rewrite Hd', Hd; done.
    + rewrite HLn', HLn; done.
    + cbn [g_recvd count]; rewrite Hq; unfold arrived; rewrite Hjd, Hjd', Hjl', Z.add_0_r; cbn [recv_len o'].
      rewrite <- app_assoc; f_equal; pose proof (slice_append b d (recv_dest o) (recv_dest o + recv_len o)) as Ha.
      replace (recv_len o) with (recv_dest o + recv_len o - recv_dest o) at 1 by lia.
      rewrite <- Ha by lia; f_equal; lia.
  - unfold to_do; change (state o') with (state o); rewrite (receiving_not_sending _ Hs), Hs.
    change (recv_if o') with i'; change (recv_len o') with (recv_len o); change (recv_total o') with (recv_total o).
    destruct Hr as (_ & Hr), Hr' as (_ & Hr'), (SPI.state (recv_if o)), (SPI.state i'); destruct_and?; (congruence || cbn; lia).
Qed.

(** *** A message was sent *)

Lemma bind_skip (p : bp unit) s : (p;; pskip) s = p s.
Proof.
  unfold mbind, prog_bind, pskip, mret, prog_ret; destruct (p s) as [[[[] s1] c]|]; [rewrite app_nil_r|]; done.
Qed.
Lemma on_send_one m f o i k : m (send_if o) = Ok (tt, i, [k]) -> on_send m f (Some o) = f k (Some (put_send_if i o)).
Proof. intros Hm; unfold on_send; rewrite Hm; apply bind_skip. Qed.
Lemma on_recv_one m f o i k : m (recv_if o) = Ok (tt, i, [k]) -> on_recv m f (Some o) = f k (Some (put_recv_if i o)).
Proof. intros Hm; unfold on_recv; rewrite Hm; apply bind_skip. Qed.

Definition with_buffer (b : list Z) (o : bsocks) : bsocks :=
  mk_bs (num_auth_info o) (dest_addr o) (state o) (Some b) (send_if o) (recv_if o) (recv_dest o) (recv_len o) (recv_total o).
Lemma reserve_receive size t s o busy : is_overflow size = false -> 0 < bvalue size -> 0 < t ->
  spi_ok (recv_if o) busy -> SPI.state (recv_if o) = ST_NONE ->
  let p := r ← reserve_buffer alloc size;
    if negb r then report_error BSOCKSCLIENT_EVENT_ERROR else start_receive 0 t;; set_state s in
  fails p (Some o) \/
  exists b, Zlen b = bvalue size /\ p (Some o) = Ok (tt, Some (receiving 0 t s (with_buffer b o)), []).
Proof.
  intros Ho Hv Ht Hr Hrn p; destruct (reserve_eq size o Ho Hv) as [He|(b & HL & He)].
  - left; eapply fails_bind; [exact He | apply fails_report; done].
  - right; exists b; split; [exact HL|]; unfold p; pstep_by ltac:(exact He); cbn [negb].
    exact (receive_eq 0 t s (with_buffer b o) busy Hr Hrn Ht).
Qed.

(** What follows a message: the state, the bytes to receive and the size of the buffer. *)
Definition awaited (s : socks_state) : socks_state * Z * Z :=
  match s with
  | STATE_SENDING_HELLO => (STATE_SENT_HELLO, 2, 2)
  | STATE_SENDING_REQUEST => (STATE_SENT_REQUEST, 4, 22)
  | _ => (STATE_SENT_PASSWORD, 2, 2)
  end.
Lemma send_handler_done_eq o busy : sending_state (state o) = true -> buffer o <> None ->
  spi_ok (recv_if o) busy -> SPI.state (recv_if o) = ST_NONE ->
  fails (send_handler_done alloc) (Some o) \/
  let '(s, t, n) := awaited (state o) in
  exists b, Zlen b = n /\ send_handler_done alloc (Some o) = Ok (tt, Some (receiving 0 t s (with_buffer b o)), []).
Proof.
  intros Hs Hb Hr Hrn.
  assert (forall size n, 0 < n <= 1000 -> bdenotes size n -> is_overflow size = false /\ 0 < bvalue size /\ bvalue size = n) as Hsz.
  { intros size n Hn Hd; destruct (bdenotes_small size n Hd) as [H1 H2]; [lia | split_and!; [done | lia | done]]. }
  assert (forall p : bsocks -> bp unit, (o ← bs_get; passert (negb (bool_decide (buffer o = None)));; p o) (Some o) = (p o) (Some o)) as Hstart.
  { intros p; pstep; pstep_by ltac:(apply passert_ok; rewrite bool_decide_eq_false_2; done); done. }
  assert (exists size t s n, awaited (state o) = (s, t, n) /\ 0 < n <= 1000 /\ 0 < t /\ bdenotes size n /\
    send_handler_done alloc (Some o) = (r ← reserve_buffer alloc size;
      if negb r then report_error BSOCKSCLIENT_EVENT_ERROR else start_receive 0 t;; set_state s) (Some o)) as
    (size & t & s & n & Ha & Hn & Ht & Hd & Heq).
  { unfold send_handler_done; destruct (state o) eqn:Hst; try discriminate Hs; eexists _, _, _, _;
      (split; [reflexivity|]; split; [lia|]; split; [|split; [|rewrite Hstart, Hst; reflexivity]]); try done.
    - apply small_size; unfold sizeof_socks_server_hello; lia.
    - apply small_size; lia.
    - change 22 with (4 + Z.max 6 18); apply bdenotes_add; [|apply bdenotes_max]; apply small_size;
        unfold sizeof_socks_reply_header, sizeof_socks_addr_ipv4, sizeof_socks_addr_ipv6; lia. }
  rewrite Ha; destruct (Hsz size n Hn Hd) as (H1 & H2 & H3).
  destruct (reserve_receive size t s o busy H1 H2 Ht Hr Hrn) as [Hf|(b & HL & He)].
  - left; eapply fails_eq; [exact Heq | exact Hf].
  - right; exists b; split; [lia | etransitivity; [exact Heq | exact He]].
Qed.

Lemma awaited_exchange methods dest s out r s' t n : sending_state s = true -> exchange methods dest s out r [] ->
  awaited s = (s', t, n) -> exchange methods dest s' out r [] /\ receiving_state s' = true /\ receives s' 0 t /\ t <= n /\
  (s' = STATE_SENT_REQUEST -> 22 <= n) /\ s' <> STATE_RECEIVED_REPLY_HEADER /\ s' <> STATE_UP.
Proof.
  intros Hs Hex Ha; destruct s; try discriminate Hs; injection Ha as <- <- <-; inversion Hex; subst;
    (split; [constructor; done|]); split_and!; done || lia.
Qed.

Lemma sending_received methods dest s out r q : sending_state s = true -> exchange methods dest s out r q -> q = [].
Proof. intros Hs Hex; destruct Hex; done. Qed.

Lemma bs_send_completed_handled o g : inv o g -> enabled ESendCompleted o g -> handled ESendCompleted o g.
Proof.
  intros Hinv [Hc Hj]; pose proof (send_phase o g Hinv Hc (or_intror (or_intror Hj))) as Hs.
  destruct Hinv as (Hwf & Hn & Hm & H255 & out & r & q & Hex & Hq & Hrest); rewrite Hs in Hrest.
  destruct Hrest as ((Hp & Hmtu & Hr) & Hrn & Hpn & b & Hb & _ & Hjob).
  pose proof (sending_received _ _ _ _ _ _ Hs Hex) as ->; rewrite app_nil_r in Hq.
  assert (PPI.job_operation (send_if o) = false) as Hjo by (destruct Hp as (_ & _ & Hp); destruct (PPI.state (send_if o)); destruct_and?; congruence).
  destruct (ppi_completed_eq _ _ Hp Hj) as (i' & Hrun & Hp' & Hpn' & Hmtu' & _ & Hb0).
  set (o1 := put_send_if i' o).
  assert (handle alloc ESendCompleted (Some o) = send_handler_done alloc (Some o1)) as Heq.
  { exact (on_send_one PPI.run_done (send_if_handler alloc) o i' PPI.HandlerDone Hrun). }
  destruct (send_handler_done_eq o1 (g_recv_busy g) Hs) as [Hf|Hk]; [intros Hb'; change (buffer o = None) in Hb'; congruence | exact Hr | exact Hrn | |].
  { apply handled_fails; eapply fails_eq; [exact Heq | exact Hf]. }
  change (state o1) with (state o) in Hk; destruct (awaited (state o)) as [[s t] n] eqn:Ha.
  destruct Hk as (b' & HL & Hk).
  destruct (awaited_exchange _ _ _ _ _ _ _ _ Hs Hex Ha) as (Hex' & Hs' & Hrc & Ht & H22 & Hnr & Hnu).
  eapply handled_plain; [etransitivity; [exact Heq | exact Hk] | left; apply plain_nil | right; exact Hnu | |].
  2: { unfold to_do; rewrite Hs; change (state (receiving 0 t s (with_buffer b' o1))) with s.
    rewrite (receiving_not_sending _ Hs'), Hs'; change (steps_left s + (3 * (t - 0) + 2) < steps_left (state o) + job_left (PPI.state (send_if o))).
    destruct (state o); try discriminate Hs; injection Ha as <- <- <-; destruct (PPI.state (send_if o)); done. }
  rewrite count_plain; [|apply plain_nil | done].
  apply (inv_receiving 0 t s (with_buffer b' o1) g out r b'); try done.
  - apply H255, Hc.
  - symmetry; exact (Hjob Hjo).
  - exact (eq_trans Hmtu' Hmtu).
  - lia.
  - rewrite HL; exact H22.
Qed.

Lemma connection_handled e o g : enabled (EConnection e) o g -> handled (EConnection e) o g.
Proof.
  intros Hs; cbn in Hs.
  assert (exists e', e' <> BSOCKSCLIENT_EVENT_UP /\ connection_handler e (Some o) = report_error e' (Some o)) as (e' & He & Heq).
  { unfold connection_handler; destruct (is_state (state o) STATE_UP && is_recvclosed e) eqn:Hc; eexists; (split; [|
      pstep; pstep_by ltac:(apply passert_ok; unfold is_state; rewrite bool_decide_eq_false_2; done); rewrite Hc; reflexivity]); done. }
  exact (handled_error (EConnection e) o g e' Heq He).
Qed.
Lemma free_handled o g : handled EFree o g.
Proof. destruct (bs_Free_eq o) as [ks Hk]; exists None, ks; split; [exact Hk | left; done]. Qed.

(** *** A message was received *)

Lemma find_auth_some m ai a : find_auth m ai = Some a -> auth_type a = m /\ a ∈ ai.
Proof.
  induction ai as [|a' ai IH]; cbn [find_auth]; [done|]; destruct (auth_type a' =? m) eqn:Hm.
  - intros [= <-]; split; [lia | left].
  - intros H1; destruct (IH H1); split; [done | right; done].
Qed.
Lemma two_bytes (q : list Z) : Zlen q = 2 -> q = [byte_at 0 q; byte_at 1 q].
Proof. destruct q as [|a [|b [|c q]]]; try done; unfold Zlen; cbn; lia. Qed.
Lemma four_bytes (q : list Z) : Zlen q = 4 -> q = [byte_at 0 q; byte_at 1 q; byte_at 2 q; byte_at 3 q].
Proof. destruct q as [|a [|b [|c [|d [|e q]]]]]; try done; unfold Zlen; cbn; lia. Qed.

(** The credentials are checked and sent. *)
Definition password_step (a : auth_info) : bp unit :=
  if (username_len a =? 0) || (255 <? username_len a) || (password_len a =? 0) || (255 <? password_len a)
  then report_error BSOCKSCLIENT_EVENT_ERROR else
  let size := bsize_fromsize (1 + 1 + username_len a + 1 + password_len a) in
  r ← reserve_buffer alloc size;
  if negb r then report_error BSOCKSCLIENT_EVENT_ERROR else
  write_password a;; send_buffer (bvalue size);; set_state STATE_SENDING_PASSWORD.
Lemma password_step_eq a o busy : ppi_ok (send_if o) busy -> PPI.state (send_if o) = ST_NONE -> PPI.mtu (send_if o) = INT_MAX ->
  0 <= username_len a <= Zlen (username a) -> 0 <= password_len a <= Zlen (password a) ->
  fails (password_step a) (Some o) \/
  exists u p, 0 < Zlen u <= 255 /\ 0 < Zlen p <= 255 /\
  password_step a (Some o) = Ok (tt, Some (sending_buffer (password_message u p) STATE_SENDING_PASSWORD o), []).
Proof.
  intros Hp Hi Hm Hu Hpw; unfold password_step; destruct (_ || _) eqn:Hc; [left; apply fails_report; done|].
  set (n := 1 + 1 + username_len a + 1 + password_len a); destruct (bdenotes_small (bsize_fromsize n) n) as [Ho Hv];
    [apply small_size; lia | lia |].
  destruct (reserve_eq (bsize_fromsize n) o Ho) as [He|(b & HL & He)]; [lia | left; eapply fails_bind; [exact He | apply fails_report; done] |].
  right; set (u := ztake (username_len a) (username a)); set (p := ztake (password_len a) (password a)).
  assert (Zlen u = username_len a /\ Zlen p = password_len a) as [Lu Lp] by (unfold u, p; rewrite !Zlen_ztake; lia).
  exists u, p; split; [lia|]; split; [lia|]; pstep_by ltac:(exact He); cbn [negb].
  set (o1 := with_buffer (password_message u p) o).
  pstep_by ltac:(exact (write_password_eq a (with_buffer b o) b eq_refl ltac:(lia) ltac:(lia) ltac:(lia) ltac:(lia) ltac:(lia))).
  assert (Zlen (password_message u p) = n) as HLm.
  { unfold password_message; rewrite !Zlen_app, Lu, Lp; change (Zlen [_; _]) with 2; change (Zlen [_]) with 1; lia. }
  apply (send_eq (bvalue (bsize_fromsize n)) (password_message u p) STATE_SENDING_PASSWORD o1 busy Hp Hi Hm eq_refl);
    [rewrite Hv, HLm; done | unfold INT_MAX; lia].
Qed.

Section message.
Context (o : bsocks) (busy : bool) (b : list Z) (g : ghost).
Hypothesis (Hwf : baddr_wf (dest_addr o)) (Hp : ppi_ok (send_if o) busy) (Hi : PPI.state (send_if o) = ST_NONE)
  (Hmtu : PPI.mtu (send_if o) = INT_MAX) (Hb : buffer o = Some b).

Lemma received_hello_eq ai q : auth_ok ai g -> Forall (fun m => is_method m = true) (g_methods g) -> q = slice 0 2 b -> 2 <= Zlen b ->
  fails (received_hello alloc ai) (Some o) \/
  q = [SOCKS_VERSION; SOCKS_METHOD_NO_AUTHENTICATION_REQUIRED] /\ SOCKS_METHOD_NO_AUTHENTICATION_REQUIRED ∈ g_methods g /\
    received_hello alloc ai (Some o) = Ok (tt, Some (sending_buffer (request_message (dest_addr o)) STATE_SENDING_REQUEST o), []) \/
  q = [SOCKS_VERSION; SOCKS_METHOD_USERNAME_PASSWORD] /\ SOCKS_METHOD_USERNAME_PASSWORD ∈ g_methods g /\
    exists u p, 0 < Zlen u <= 255 /\ 0 < Zlen p <= 255 /\
    received_hello alloc ai (Some o) = Ok (tt, Some (sending_buffer (password_message u p) STATE_SENDING_PASSWORD o), []).
Proof.
  intros [Hai Hcred] Hmeth Hq HL; rewrite (two_bytes q) by (rewrite Hq, Zlen_slice; lia).
  assert (buffer_read 0 sizeof_socks_server_hello (Some o) = Ok (q, Some o, [])) as Hrd.
  { rewrite Hq; apply buffer_read_eq; unfold sizeof_socks_server_hello; (done || lia). }
  assert (forall p : list Z -> bp unit, (m ← buffer_read 0 sizeof_socks_server_hello; p m) (Some o) = p q (Some o)) as Hstart.
  { intros p; pstep_by ltac:(exact Hrd); done. }
  unfold fails, received_hello; rewrite Hstart; cbv beta; unfold ntoh8, hton8.
  destruct (byte_at 0 q =? SOCKS_VERSION) eqn:Hv; cbn [negb]; [|left; apply fails_report; done].
  replace (byte_at 0 q) with SOCKS_VERSION by lia.
  destruct (find_auth (byte_at 1 q) ai) as [a|] eqn:Hf; [|left; apply fails_report; done].
  destruct (find_auth_some _ _ _ Hf) as [Ht Hin].
  assert (byte_at 1 q ∈ g_methods g) as Hmem by (rewrite <- Hai, <- Ht; apply list_elem_of_fmap_2; exact Hin).
  pose proof (proj1 (Forall_forall _ _) Hmeth _ Hmem) as His; pose proof (proj1 (Forall_forall _ _) Hcred _ Hin) as [Hu Hpw].
  rewrite Ht; destruct (byte_at 1 q =? SOCKS_METHOD_NO_AUTHENTICATION_REQUIRED) eqn:H0.
  - replace (byte_at 1 q) with SOCKS_METHOD_NO_AUTHENTICATION_REQUIRED in * by lia.
    destruct (auth_finished_eq o busy Hwf Hp Hi Hmtu) as [Hfail|He]; [left; exact Hfail | right; left; split_and!; done].
  - destruct (byte_at 1 q =? SOCKS_METHOD_USERNAME_PASSWORD) eqn:H2; [|unfold is_method in His; rewrite H0, H2 in His; done].
    replace (byte_at 1 q) with SOCKS_METHOD_USERNAME_PASSWORD in * by lia.
    destruct (password_step_eq a o busy Hp Hi Hmtu Hu Hpw) as [Hfail|(u & p & Hlu & Hlp & He)];
      [left; exact Hfail | right; right; split; [done|]; split; [done|]; exists u, p; split; [exact Hlu|]; split; [exact Hlp | exact He]].
Qed.

Lemma received_password_eq q : q = slice 0 2 b -> 2 <= Zlen b ->
  fails (received_password_reply alloc) (Some o) \/
  q = [1; 0] /\
  received_password_reply alloc (Some o) = Ok (tt, Some (sending_buffer (request_message (dest_addr o)) STATE_SENDING_REQUEST o), []).
Proof.
  intros Hq HL; rewrite (two_bytes q) by (rewrite Hq, Zlen_slice; lia).
  assert (slice 0 1 b = [byte_at 0 q] /\ slice 1 1 b = [byte_at 1 q]) as [E0 E1].
  { rewrite Hq; destruct b as [|x [|y b']]; [unfold Zlen in HL; cbn in HL; lia..|]; done. }
  assert (received_password_reply alloc (Some o) = (if negb (byte_at 0 q =? 1) then report_error BSOCKSCLIENT_EVENT_ERROR else
    r ← buffer_read 1 1; if negb (byte_at 0 r =? 0) then report_error BSOCKSCLIENT_EVENT_ERROR else auth_finished alloc) (Some o)) as Heq.
  { unfold received_password_reply; pstep_by ltac:(apply (buffer_read_eq 0 1 o b); (done || lia)); rewrite E0; done. }
  unfold fails; rewrite Heq; destruct (byte_at 0 q =? 1) eqn:H0; cbn [negb]; [|left; apply fails_report; done].
  assert ((r ← buffer_read 1 1; if negb (byte_at 0 r =? 0) then report_error BSOCKSCLIENT_EVENT_ERROR else auth_finished alloc) (Some o) =
    (if negb (byte_at 1 q =? 0) then report_error BSOCKSCLIENT_EVENT_ERROR else auth_finished alloc) (Some o)) as ->.
  { pstep_by ltac:(apply (buffer_read_eq 1 1 o b); (done || lia)); rewrite E1; done. }
  destruct (byte_at 1 q =? 0) eqn:H1; cbn [negb]; [|left; apply fails_report; done].
  destruct (auth_finished_eq o busy Hwf Hp Hi Hmtu) as [Hfail|He]; [left; exact Hfail|].
  right; split; [f_equal; [lia | f_equal; lia] | exact He].
Qed.

Lemma received_reply_header_eq q rbusy : q = slice 0 4 b -> 4 <= Zlen b -> spi_ok (recv_if o) rbusy -> SPI.state (recv_if o) = ST_NONE ->
  fails received_reply_header (Some o) \/
  exists x t, (t = SOCKS_ATYP_IPV4 \/ t = SOCKS_ATYP_IPV6) /\ q = [SOCKS_VERSION; SOCKS_REP_SUCCEEDED; x; t] /\
  received_reply_header (Some o) = Ok (tt, Some (receiving 4 (addr_size t) STATE_RECEIVED_REPLY_HEADER o), []).
Proof.
  intros Hq HL Hr Hrn; rewrite (four_bytes q) by (rewrite Hq, Zlen_slice; lia).
  assert (forall p : list Z -> bp unit, (m ← buffer_read 0 sizeof_socks_reply_header; p m) (Some o) = p q (Some o)) as Hstart.
  { intros p; rewrite Hq; pstep_by ltac:(apply (buffer_read_eq 0 4 o b); (done || lia)); done. }
  unfold fails, received_reply_header; rewrite Hstart; cbv beta; unfold ntoh8, hton8.
  destruct (byte_at 0 q =? SOCKS_VERSION) eqn:H0; cbn [negb]; [|left; apply fails_report; done].
  destruct (byte_at 1 q =? SOCKS_REP_SUCCEEDED) eqn:H1; cbn [negb]; [|left; apply fails_report; done].
  replace (byte_at 0 q) with SOCKS_VERSION by lia; replace (byte_at 1 q) with SOCKS_REP_SUCCEEDED by lia.
  assert (forall t, 0 < t -> (start_receive sizeof_socks_reply_header t;; set_state STATE_RECEIVED_REPLY_HEADER) (Some o) =
    Ok (tt, Some (receiving 4 t STATE_RECEIVED_REPLY_HEADER o), [])) as Hst.
  { intros t Ht; exact (receive_eq 4 t _ o rbusy Hr Hrn Ht). }
  destruct (byte_at 3 q =? SOCKS_ATYP_IPV4) eqn:H4; [|destruct (byte_at 3 q =? SOCKS_ATYP_IPV6) eqn:H6; [|left; apply fails_report; done]].
  - replace (byte_at 3 q) with SOCKS_ATYP_IPV4 by lia; right; exists (byte_at 2 q), SOCKS_ATYP_IPV4.
    split; [left; done|]; split; [done|]; rewrite Hst; done.
  - replace (byte_at 3 q) with SOCKS_ATYP_IPV6 by lia; right; exists (byte_at 2 q), SOCKS_ATYP_IPV6.
    split; [right; done|]; split; [done|]; rewrite Hst; done.
Qed.

Definition up (o : bsocks) : bsocks :=
  mk_bs (num_auth_info o) (dest_addr o) STATE_UP None (send_if o) (recv_if o) (recv_dest o) (recv_len o) (recv_total o).
Definition up_calls : list bs_call :=
  [StreamSenderFree; SendAsyncFree; RecvAsyncFree; RecvAsyncInit; SendAsyncInit; Handler BSOCKSCLIENT_EVENT_UP].
End message.
Lemma received_reply_rest_eq o : received_reply_rest (Some o) = Ok (tt, Some (up o), up_calls).
Proof. destruct o; done. Qed.

Definition completed_receive (ai : list auth_info) (s : socks_state) : bp unit :=
  match s with
  | STATE_SENT_HELLO => received_hello alloc ai
  | STATE_SENT_REQUEST => received_reply_header
  | STATE_SENT_PASSWORD => received_password_reply alloc
  | STATE_RECEIVED_REPLY_HEADER => received_reply_rest
  | _ => passert false
  end.
Definition progressed (n : Z) (i : SPI.t) (o : bsocks) : bsocks :=
  mk_bs (num_auth_info o) (dest_addr o) (state o) (buffer o) (send_if o) i (recv_dest o) (n + recv_len o) (recv_total o).
Lemma recv_handler_done_eq ai n i o : 0 <= n <= recv_total o - recv_len o ->
  recv_handler_done alloc ai n (Some (put_recv_if i o)) =
  (if n + recv_len o <? recv_total o then do_receive else completed_receive ai (state o)) (Some (progressed n i o)).
Proof.
  intros Hn; unfold recv_handler_done; pstep; pstep_by ltac:(apply passert_ok; lia).
  pstep_by ltac:(apply passert_ok; change ((n <=? recv_total o - recv_len o) = true); lia).
  mod_to (progressed n i o); pstep; done.
Qed.
Lemma do_receive_eq n i o busy : spi_ok i busy -> SPI.state i = ST_NONE -> n + recv_len o < recv_total o ->
  do_receive (Some (progressed n i o)) = Ok (tt, Some (progressed n (sending i (recv_dest o + (n + recv_len o)) (recv_total o - (n + recv_len o))) o), []) /\
  spi_ok (sending i (recv_dest o + (n + recv_len o)) (recv_total o - (n + recv_len o))) busy.
Proof.
  intros Hr Hrn Hlt.
  destruct (spi_send_eq i busy (recv_dest o + (n + recv_len o)) (recv_total o - (n + recv_len o)) Hr Hrn) as [Hs Hok]; [lia|].
  split; [|exact Hok]; unfold do_receive; pstep; pstep_by ltac:(apply passert_ok; cbn; lia).
  unfold on_recv; change (SPI.StreamRecvInterface_Receiver_Recv (Some (recv_dest (progressed n i o) + recv_len (progressed n i o)))
    (recv_total (progressed n i o) - recv_len (progressed n i o)) (recv_if (progressed n i o))) with
    (SPI.Sender_Send (Some (recv_dest o + (n + recv_len o))) (recv_total o - (n + recv_len o)) i); rewrite Hs; done.
Qed.

Lemma handled_message ai o g o1 m : inv o g -> handle alloc (ERecvCompleted ai) (Some o) = m (Some o1) -> control o ->
  fails m (Some o1) \/ (exists o', m (Some o1) = Ok (tt, Some o', []) /\ state o' <> STATE_UP /\ inv o' g /\ to_do o' < to_do o) ->
  handled (ERecvCompleted ai) o g.
Proof.
  intros Hinv Heq Hc [Hf|(o' & Hk & Hs & Hi & Hlt)]; [apply handled_fails; eapply fails_eq; done|].
  eapply handled_plain; [etransitivity; [exact Heq | exact Hk] | left; apply plain_nil | right; exact Hs | | exact Hlt].
  rewrite count_plain; [exact Hi | apply plain_nil | done].
Qed.

Lemma hello_bounds methods : 0 < Zlen methods <= 255 -> Zlen (hello_message methods) <= INT_MAX.
Proof. intros; unfold hello_message; rewrite Zlen_app; change (Zlen [_; _]) with 2; unfold INT_MAX; lia. Qed.
Lemma password_bounds u p : 0 < Zlen u <= 255 -> 0 < Zlen p <= 255 -> Zlen (password_message u p) <= INT_MAX.
Proof. intros; unfold password_message; rewrite !Zlen_app; change (Zlen [_; _]) with 2; change (Zlen [_]) with 1; unfold INT_MAX; lia. Qed.
Lemma request_bounds a : baddr_wf a -> Zlen (request_message a) <= INT_MAX.
Proof.
  intros Hwf; destruct a as [|ip port|ip port|]; try done; destruct Hwf as (_ & HL & _); unfold request_message.
  rewrite !Zlen_app, Zlen_ztake, HL; done.
Qed.

(** The exchange so far, where a message is received. *)
Lemma exchange_inv methods dest s out r q : exchange methods dest s out r q ->
  match s with
  | STATE_SENT_HELLO => out = [hello_message methods] /\ r = []
  | STATE_SENT_PASSWORD => exists u p, SOCKS_METHOD_USERNAME_PASSWORD ∈ methods /\ 0 < Zlen u <= 255 /\ 0 < Zlen p <= 255 /\
      out = [hello_message methods; password_message u p] /\ r = [SOCKS_VERSION; SOCKS_METHOD_USERNAME_PASSWORD]
  | STATE_SENT_REQUEST => exists out', authenticated methods out' r /\ out = hello_message methods :: out' ++ [request_message dest]
  | STATE_RECEIVED_REPLY_HEADER => exists out' r' x t, authenticated methods out' r' /\
      (t = SOCKS_ATYP_IPV4 \/ t = SOCKS_ATYP_IPV6) /\ out = hello_message methods :: out' ++ [request_message dest] /\
      r = r' ++ [SOCKS_VERSION; SOCKS_REP_SUCCEEDED; x; t]
  | _ => True
  end.
Proof. intros []; eauto 15. Qed.

Lemma recv_rest_handled ai i o g : inv o g -> enabled (ERecvCompleted ai) o g -> state o = STATE_RECEIVED_REPLY_HEADER ->
  let n := SPI.job_done_len (recv_if o) in
  0 < n <= recv_total o - recv_len o -> (n + recv_len o <? recv_total o) = false ->
  handle alloc (ERecvCompleted ai) (Some o) = received_reply_rest (Some (progressed n i o)) -> handled (ERecvCompleted ai) o g.
Proof.
  intros Hinv (Hc & Hj & Hauth) Hst n Hn Hlt Heq; pose proof Hinv as (Hwf & Hna & Hm & H255 & out & r & q & Hex & Hq & Hrest).
  rewrite Hst in Hrest; cbn [sending_state receiving_state] in Hrest; specialize (H255 (proj1 Hc)).
  destruct Hrest as (Hout & (Hp & Hmtu & Hr) & Hpn & _ & Hd & HLn & Hlen & [Hd4 Ht] & Hlast & b & Hb & HL & H22 & Hqb).
  unfold arrived in Hqb; rewrite Hj in Hqb; change (SPI.job_done_len (recv_if o)) with n in Hqb.
  rewrite Hd4 in *; assert (Zlen q = recv_total o) as HLq by (rewrite Hqb, Zlen_slice; lia).
  exists (Some (up (progressed n i o))), up_calls; split; [etransitivity; [exact Heq | apply received_reply_rest_eq]|].
  assert (g_send_busy g = false /\ g_recv_busy g = false) as [Hsb Hrb].
  { split; [destruct Hp as (_ & _ & Hp); rewrite Hpn in Hp; apply Hp|].
    destruct (spi_completed_eq _ _ Hr Hj) as (_ & _ & _ & _ & _ & _ & _ & ?); done. }
  split; [|split; [intros [Hev|Hev]; unfold up_calls in Hev; rewrite !elem_of_cons in Hev; destruct_or?; try discriminate; inversion Hev|]].
  2: { split; [split; [intros _; rewrite Hst; done | intros _; do 5 (right); left]|].
    unfold to_do; rewrite Hst; cbn [sending_state receiving_state steps_left up state]; destruct (SPI.state (recv_if o)); cbn [job_left]; lia. }
  split; [exact Hwf|]; split; [exact Hna|]; split; [exact Hm|]; split; [intros _; exact H255|].
  rewrite Hst in Hex; apply exchange_inv in Hex as (out' & r' & x & t & Ha & Hat & Eout & Er).
  exists (hello_message (g_methods g) :: out' ++ [request_message (dest_addr o)]), (r' ++ [SOCKS_VERSION; SOCKS_REP_SUCCEEDED; x; t]), q.
  split; [constructor; try done; rewrite HLq; apply Hlast; [done | rewrite Er; destruct r'; done | rewrite Er, last_app; done]|].
  split; [rewrite <- Er; exact Hq|]; split; [cbn; rewrite app_nil_r, <- Hout, Eout; done|]; cbn; rewrite Hsb, Hrb; done.
Qed.
Lemma recv_complete_handled ai i o g : inv o g -> enabled (ERecvCompleted ai) o g -> receiving_state (state o) = true ->
  state o <> STATE_RECEIVED_REPLY_HEADER \/ (SPI.job_done_len (recv_if o) + recv_len o <? recv_total o) = true ->
  let n := SPI.job_done_len (recv_if o) in
  spi_ok i (g_recv_busy g) -> SPI.state i = ST_NONE -> SPI.job_done i = false -> 0 < n <= recv_total o - recv_len o ->
  handle alloc (ERecvCompleted ai) (Some o) = (if n + recv_len o <? recv_total o then do_receive else completed_receive ai (state o))
    (Some (progressed n i o)) -> handled (ERecvCompleted ai) o g.
Proof.
  intros Hinv (Hc & Hj & Hauth) Hs Hnr n Hr Hrn Hjd Hn Heq; pose proof Hinv as (Hwf & Hna & Hm & H255 & out & r & q & Hex & Hq & Hrest).
  rewrite (receiving_not_sending _ Hs), Hs in Hrest; specialize (H255 (proj1 Hc)).
  destruct Hrest as (Hout & (Hp & Hmtu & _) & Hpn & _ & Hd & HLn & Hlen & Hrc & Hlast & b & Hb & HL & H22 & Hqb).
  unfold arrived in Hqb; rewrite Hj in Hqb; change (SPI.job_done_len (recv_if o)) with n in Hqb.
  apply (handled_message ai o g _ _ Hinv Heq Hc).
  destruct (n + recv_len o <? recv_total o) eqn:Hlt.
  { right; destruct (do_receive_eq n i o (g_recv_busy g) Hr Hrn ltac:(lia)) as [Hk Hok].
    set (i2 := sending i (recv_dest o + (n + recv_len o)) (recv_total o - (n + recv_len o))) in *; set (o2 := progressed n i2 o) in *.
    exists o2; split; [exact Hk|]; split; [apply Hc|]; split.
    2: { unfold to_do; change (state o2) with (state o); rewrite (receiving_not_sending _ Hs), Hs.
      change (steps_left (state o) + (3 * (recv_total o - (n + recv_len o)) + 2) <
        steps_left (state o) + (3 * (recv_total o - recv_len o) + job_left (SPI.state (recv_if o)))).
      destruct (SPI.state (recv_if o)); cbn [job_left]; lia. }
    refine (inv_received o g o2 g out r q i2 b Hinv Hex Hs _ Hp Hmtu Hpn Hlast Hrc HL H22 Hout eq_refl eq_refl eq_refl Hok _ eq_refl eq_refl _ _);
      [unfold o2, progressed; rewrite Hb; done | done | cbn; lia |].
    unfold arrived, i2, o2, sending; cbn [SPI.job_done progressed recv_len]; rewrite Hjd, Hq, Hqb; do 2 f_equal; lia. }
  assert (recv_len o + n = recv_total o) as HLq by lia; rewrite HLq in Hqb.
  set (o1 := progressed n i o) in *.
  assert (inv_sending' : forall d s out' r', exchange (g_methods g) (dest_addr o) s (out' ++ [d]) r' [] -> sending_state s = true ->
    steps_left s < steps_left (state o) -> g_sent g = out' -> g_recvd g = r' -> Zlen d <= INT_MAX ->
    inv (sending_buffer d s o1) g /\ to_do (sending_buffer d s o1) < to_do o).
  { intros d s out' r' He Hss Hlt' Ho' Hr' HLd; split.
    2: { unfold to_do; rewrite (receiving_not_sending _ Hs), Hs; change (state (sending_buffer d s o1)) with s; rewrite Hss.
      change (steps_left s + 2 < steps_left (state o) + (3 * (recv_total o - recv_len o) + job_left (SPI.state (recv_if o)))).
      destruct (SPI.state (recv_if o)); cbn [job_left]; lia. }
    exact (inv_sending d s o1 g out' r' Hwf Hna Hm H255 He Hss Ho' Hr' Hp Hpn Hmtu HLd Hr Hrn). }
  destruct (state o) eqn:Hst; try discriminate Hs; cbn [completed_receive receives] in *; apply exchange_inv in Hex.
  - destruct Hex as [-> ->]; destruct Hrc as [Hd0 Ht]; rewrite Hd0, Ht in Hqb; rewrite Hd0, Ht in HL.
    destruct (received_hello_eq o1 (g_send_busy g) b g Hwf Hp Hpn Hmtu Hb ai q Hauth Hm Hqb ltac:(lia))
      as [Hf|[(Hq5 & Hmem & Hk)|(Hq5 & Hmem & u & p & Hu & Hpw & Hk)]]; [left; exact Hf | right.. ]; eexists; (split; [exact Hk|]; split; [done|]).
    + apply (inv_sending' _ _ [hello_message (g_methods g)] [SOCKS_VERSION; SOCKS_METHOD_NO_AUTHENTICATION_REQUIRED]); try done.
      * apply (ex_sending_request _ _ []); constructor; exact Hmem.
      * rewrite Hq, Hq5; done.
      * apply request_bounds; done.
    + apply (inv_sending' _ _ [hello_message (g_methods g)] [SOCKS_VERSION; SOCKS_METHOD_USERNAME_PASSWORD]); try done.
      * apply ex_sending_password; done.
      * rewrite Hq, Hq5; done.
      * apply password_bounds; done.
  - destruct Hex as (u & p & Hmem & Hu & Hpw & -> & ->); destruct Hrc as [Hd0 Ht]; rewrite Hd0, Ht in Hqb; rewrite Hd0, Ht in HL.
    destruct (received_password_eq o1 (g_send_busy g) b Hwf Hp Hpn Hmtu Hb q Hqb ltac:(lia)) as [Hf|(Hq5 & Hk)];
      [left; exact Hf | right]; eexists; (split; [exact Hk|]; split; [done|]).
    apply (inv_sending' _ _ [hello_message (g_methods g); password_message u p] [SOCKS_VERSION; SOCKS_METHOD_USERNAME_PASSWORD; 1; 0]); try done.
    + apply (ex_sending_request _ _ [password_message u p]); constructor; done.
    + rewrite Hq, Hq5; done.
    + apply request_bounds; done.
  - destruct Hex as (out' & Ha & Eout); destruct Hrc as [Hd0 Ht]; rewrite Hd0, Ht in Hqb; rewrite Hd0, Ht in HL.
    destruct (received_reply_header_eq o1 b Hb q (g_recv_busy g) Hqb ltac:(lia) Hr Hrn) as [Hf|(x & t & Hat & Hq5 & Hk)];
      [left; exact Hf | right]; eexists; (split; [exact Hk|]; split; [done|]).
    assert (addr_size t <= 18) as Hsz by (unfold addr_size, sizeof_socks_addr_ipv4, sizeof_socks_addr_ipv6; destruct (_ =? _); lia).
    split.
    2: { unfold to_do; rewrite Hst; cbn [sending_state receiving_state state receiving steps_left recv_total recv_len recv_if sending SPI.state job_left].
      destruct (SPI.state (recv_if o)); cbn [job_left]; lia. }
    refine (inv_receiving 4 (addr_size t) STATE_RECEIVED_REPLY_HEADER o1 g _ (r ++ q) b Hwf Hna Hm H255 _ eq_refl _ _ eq_refl _ Hp Hpn Hmtu Hr Hrn Hb _ _).
    + rewrite Hq5, <- Hout, Eout; apply ex_reply_header; done.
    + split; [done|]; destruct Hat as [-> | ->]; [left | right]; done.
    + intros t' _ _ Ht'; rewrite Hq5, last_app in Ht'; cbn in Ht'; injection Ht' as <-; done.
    + exact Hq.
    + specialize (H22 eq_refl); lia.
    + done.
  - destruct Hnr as [Hnr|Hnr]; [done | change ((n + recv_len o <? recv_total o) = true) in Hnr; lia].
Qed.

Lemma bs_recv_completed_handled ai o g : inv o g -> enabled (ERecvCompleted ai) o g -> handled (ERecvCompleted ai) o g.
Proof.
  intros Hinv Hen; pose proof Hen as (Hc & Hj & Hauth).
  pose proof (recv_phase o g Hinv Hc (or_intror (or_intror Hj))) as Hs.
  pose proof Hinv as (_ & _ & _ & _ & out & r & q & _ & _ & Hrest); rewrite (receiving_not_sending _ Hs), Hs in Hrest.
  destruct Hrest as (_ & (_ & _ & Hr) & _ & _ & _ & HLn & _).
  destruct (spi_completed_eq _ _ Hr Hj) as (i & Hrun & Hr' & Hrn & Hjd & _ & Hn & _); rewrite HLn in Hn.
  assert (handle alloc (ERecvCompleted ai) (Some o) = (if SPI.job_done_len (recv_if o) + recv_len o <? recv_total o then do_receive else
    completed_receive ai (state o)) (Some (progressed (SPI.job_done_len (recv_if o)) i o))) as Heq.
  { etransitivity; [exact (on_recv_one SPI.run_done (recv_if_handler alloc ai) o i _ Hrun) | apply recv_handler_done_eq; lia]. }
  destruct (SPI.job_done_len (recv_if o) + recv_len o <? recv_total o) eqn:Hlt.
  - apply (recv_complete_handled ai i o g); try done; [right; done | rewrite Hlt; exact Heq].
  - destruct (decide (state o = STATE_RECEIVED_REPLY_HEADER)) as [Hst|Hst].
    + rewrite Hst in Heq; exact (recv_rest_handled ai i o g Hinv Hen Hst Hn Hlt Heq).
    + apply (recv_complete_handled ai i o g); try done; [left; done | rewrite Hlt; exact Heq].
Qed.

Lemma bs_event_handled e o g : inv o g -> enabled e o g -> handled e o g.
Proof.
  destruct e; intros Hinv Hen.
  - apply connector_handled; done.
  - apply connection_handled; done.
  - apply bs_send_op_handled; done.
  - apply bs_send_done_handled; done.
  - apply bs_send_completed_handled; done.
  - apply bs_recv_op_handled; done.
  - apply bs_recv_done_handled; done.
  - apply bs_recv_completed_handled; done.
  - apply free_handled.
Qed.
End handlers.

(** * What the client promises *)

Section clients.
Context `{Arch}.

Definition memory0 : bsocks := mk_bs 0 BADDR_NONE STATE_CONNECTING None (PPI.mk 0 false false false None 0 false false ST_NONE false)
  (SPI.mk false false None 0 false 0 ST_NONE) 0 0 0.
(** A client that the user set up, and what came of it. *)
Definition ghost0 (ai : list auth_info) : ghost := mk_ghost false false [] [] (map auth_type ai).
Definition init_ok (server : BAddr) (ai : list auth_info) (dest : BAddr) : Prop :=
  baddr_type server <> BADDR_TYPE_NONE /\ baddr_wf dest /\ auth_ok ai (ghost0 ai) /\ Forall (fun a => is_method (auth_type a) = true) ai.
Inductive reachable : option bsocks -> ghost -> Prop :=
| r_init server ai dest ok o s ks : init_ok server ai dest -> BSocksClient_Init server ai (Zlen ai) dest ok o tt = Ok (s, tt, ks) ->
    reachable s (ghost0 ai)
| r_event alloc e o g s ks : reachable (Some o) g -> alloc_ok alloc -> enabled e o g -> handle alloc e (Some o) = Ok (tt, s, ks) ->
    reachable s (count e ks g).

Lemma bs_init_eq server ai dest ok o : init_ok server ai dest -> exists s,
  BSocksClient_Init server ai (Zlen ai) dest ok o tt = Ok (s, tt, [ConnectorInit server]) /\
  (s <> None <-> ok = true) /\ match s with Some o => inv o (ghost0 ai) /\ state o = STATE_CONNECTING | None => True end.
Proof.
  intros (Hs & Hwf & Hai & Hm).
  set (o' := mk_bs (Zlen ai) dest STATE_CONNECTING None (send_if o) (recv_if o) (recv_dest o) (recv_len o) (recv_total o)).
  exists (if ok then Some o' else None); split; [|split; [destruct ok; done|]].
  - unfold BSocksClient_Init; pstep_by ltac:(apply passert_ok; unfold BAddr_IsInvalid; lia).
    pstep_by ltac:(apply passert_ok; destruct dest; done).
    pstep_by ltac:(apply passert_ok; clear Hai; induction Hm as [|a ai Ha Hm IH]; [done | cbn; rewrite Ha, IH; done]).
    destruct ok; done.
  - destruct ok; [|done]; split; [|done]; split; [exact Hwf|]; split; [cbn; unfold Zlen; rewrite length_map; done|].
    split; [apply Forall_map; exact Hm|]; split; [done|]; exists [], [], []; split; [constructor|]; done.
Qed.
Lemma reachable_inv s g : reachable s g -> match s with Some o => inv o g | None => True end.
Proof.
  induction 1 as [server ai dest ok o s ks Hi He|alloc e o g s ks Hr IH Ha Hen He].
  - destruct (bs_init_eq server ai dest ok o Hi) as (s' & He' & _ & Hinv); rewrite He' in He; injection He as <- _; destruct s'; [apply Hinv | done].
  - destruct (bs_event_handled alloc Ha e o g IH Hen) as (s' & ks' & He' & Hs); rewrite He' in He; injection He as <- <-.
    destruct s' as [o'|]; [apply Hs | done].
Qed.

(** C22: Whatever the server sends and in whatever order things happen, no assertion of the client
    fails and no access leaves its buffer; the client is freed by its user alone, which is when
    the user asks or was told of an error; and the user is told that the client is up exactly
    when it comes up. *)
Theorem BSocksClient_safe :
  (forall server ai dest ok o, init_ok server ai dest -> exists s,
    BSocksClient_Init server ai (Zlen ai) dest ok o tt = Ok (s, tt, [ConnectorInit server]) /\ (s <> None <-> ok = true)) /\
  (forall o g alloc e, reachable (Some o) g -> alloc_ok alloc -> enabled e o g -> exists s ks,
    handle alloc e (Some o) = Ok (tt, s, ks) /\
    match s with
    | None => e = EFree \/ told ks
    | Some o' => ~ told ks /\ (Handler BSOCKSCLIENT_EVENT_UP ∈ ks <-> state o <> STATE_UP /\ state o' = STATE_UP)
    end).
Proof.
  split.
  - intros server ai dest ok o Hi; destruct (bs_init_eq server ai dest ok o Hi) as (s & He & Hs & _); exists s; done.
  - intros o g alloc e Hr Ha Hen; destruct (bs_event_handled alloc Ha e o g (reachable_inv _ _ Hr) Hen) as (s & ks & He & Hs).
    exists s, ks; split; [exact He|]; destruct s; tauto.
Qed.

(** What a client waits for. *)
Definition under_way (o : bsocks) (g : ghost) : bool :=
  if sending_state (state o) then PPI.job_operation (send_if o) || g_send_busy g || PPI.job_done (send_if o)
  else SPI.job_operation (recv_if o) || g_recv_busy g || SPI.job_done (recv_if o).

(** C4: What was sent and received is at any time a part of a SOCKS5 exchange: the hello with the
    user's methods, the credentials when the server chose to ask for them, the request for the
    address, each after the answer to the one before; until the client is up, one message is
    under way, no byte is asked for past the answer awaited, and when it is up exactly the
    answers were taken from the stream. *)
Theorem BSocksClient_handshake o g : reachable (Some o) g ->
  exists out r q, exchange (g_methods g) (dest_addr o) (state o) out r q /\ g_recvd g = r ++ q /\
  (out = g_sent g \/ sending_state (state o) = true /\ PPI.job_operation (send_if o) = true /\
     exists d, PPI.job_operation_data (send_if o) = Some d /\ out = g_sent g ++ [d]) /\
  (control o -> under_way o g = true) /\
  (receiving_state (state o) = true -> SPI.job_done (recv_if o) = false -> Zlen q + SPI.job_operation_len (recv_if o) = recv_total o) /\
  (state o = STATE_UP -> g_sent g = out).
Proof.
  intros (_ & _ & _ & _ & out & r & q & Hex & Hq & Hrest)%reachable_inv; exists out, r, q; split; [exact Hex|]; split; [exact Hq|].
  unfold under_way; destruct (sending_state (state o)) eqn:Hs.
  - rewrite (sending_not_receiving _ Hs); destruct Hrest as (((_ & _ & Hp) & _) & _ & Hpn & b & Hb & Hj1 & Hj2).
    split; [destruct (PPI.job_operation (send_if o)) eqn:Hj; [right; destruct (Hj1 eq_refl); eauto | left; exact (Hj2 eq_refl)]|].
    split; [intros _|split; [done | intros Hu; rewrite Hu in Hs; done]].
    destruct (PPI.state (send_if o)); destruct Hp as (-> & -> & ->); done.
  - destruct Hrest as [Hout Hrest]; split; [left; exact Hout|]; destruct (receiving_state (state o)) eqn:Hr.
    + destruct Hrest as ((_ & _ & _ & Hp) & _ & Hpn & Hd & HLn & Hlen & Hrc & Hlast & b & Hb & HL & H22 & ->).
      split; [intros _; destruct (SPI.state (recv_if o)); destruct_and?; try done; repeat match goal with E : _ = true |- _ => rewrite E end; rewrite ?orb_true_r; done|].
      split; [|done]; intros _ Hj; unfold arrived; rewrite Hj, Zlen_slice, HLn; destruct (state o); cbn in Hrc; lia.
    + split; [intros [Hc Hu]; destruct (state o); done|]; split; [done | intros _; symmetry; exact Hout].
Qed.
(** Events in sequence, from the user's setting up of the client on. *)
Inductive runs : list event -> option bsocks -> ghost -> option bsocks -> ghost -> Prop :=
| runs_nil s g : runs [] s g s g
| runs_cons alloc e es o g s ks s' g' : alloc_ok alloc -> enabled e o g -> handle alloc e (Some o) = Ok (tt, s, ks) ->
    runs es s (count e ks g) s' g' -> runs (e :: es) (Some o) g s' g'.

Lemma to_do_bound o g : inv o g -> 0 <= to_do o <= 133.
Proof.
  intros (_ & _ & _ & _ & out & r & q & _ & _ & Hrest); unfold to_do.
  destruct (sending_state (state o)) eqn:Hs; [destruct (state o), (PPI.state (send_if o)); (discriminate || cbn; lia)|].
  destruct Hrest as [_ Hrest]; destruct (receiving_state (state o)) eqn:Hr; [|destruct (state o); (discriminate || cbn; lia)].
  destruct Hrest as (_ & _ & _ & _ & _ & Hlen & Hrc & _); destruct (state o), (SPI.state (recv_if o)); cbn in *; lia || discriminate.
Qed.
Lemma runs_bound es s g s' g' : runs es s g s' g' -> reachable s g -> reachable s' g' /\
  Zlen es <= match s with Some o => to_do o + 1 | None => 0 end.
Proof.
  induction 1 as [s g|alloc e es o g s ks s' g' Ha Hen He Hr IH]; intros Hre.
  - split; [exact Hre|]; destruct s as [o|]; [apply reachable_inv, to_do_bound in Hre; change (Zlen []) with 0; lia | done].
  - destruct (bs_event_handled alloc Ha e o g (reachable_inv _ _ Hre) Hen) as (s1 & ks1 & He1 & Hs1); rewrite He in He1; injection He1 as <- <-.
    destruct IH as [H1 H2]; [econstructor; done|]; split; [exact H1|].
    rewrite Zlen_cons; pose proof (to_do_bound _ _ (reachable_inv _ _ Hre)); destruct s as [o1|]; [destruct Hs1 as (_ & _ & _ & Hlt)|]; lia.
Qed.

Lemma reachable_auth s g : reachable s g -> exists ai, auth_ok ai g.
Proof. induction 1 as [server ai dest ok o s ks Hi He|]; [exists ai; apply Hi | done]. Qed.
Lemma pending_event o g : reachable (Some o) g -> state o <> STATE_UP ->
  exists e, e <> EFree /\ (forall e', e <> EConnection e') /\ enabled e o g.
Proof.
  intros Hre Hu; destruct (reachable_auth _ _ Hre) as [ai Hai].
  destruct (decide (state o = STATE_CONNECTING)) as [Hc|Hc].
  { exists (EConnector ai true true (PPI.mk INT_MAX false false false None 0 false false ST_NONE false) (SPI.mk false false None 0 false 0 ST_NONE)).
    split_and!; done. }
  assert (control o) as Hco by done; pose proof (reachable_inv _ _ Hre) as (_ & _ & _ & _ & out & r & q & _ & _ & Hrest).
  destruct (sending_state (state o)) eqn:Hs.
  - destruct Hrest as (((_ & _ & Hp) & _) & _ & Hpn & _); destruct (PPI.state (send_if o)) eqn:E; destruct_and?; try done.
    + exists ESendOp; split_and!; done.
    + exists ESendDone; split_and!; done.
    + exists ESendCompleted; split_and!; done.
  - destruct Hrest as [_ Hrest]; destruct (receiving_state (state o)) eqn:Hr; [|destruct (state o); done].
    destruct Hrest as ((_ & _ & _ & Hp) & _ & Hpn & _); destruct (SPI.state (recv_if o)) eqn:E; destruct_and?; try done.
    + exists ERecvOp; split_and!; done.
    + exists (ERecvDone [0]); split; [done|]; split; [done|]; split; [done|]; split; [done|]; split; [done | change (1 <= SPI.job_operation_len (recv_if o)); lia].
    + exists (ERecvCompleted ai); split_and!; try done; apply Hai.
Qed.

(** C23: The handshake ends: from the setting up of a client at most 131 events can follow one
    another, however the server's bytes are cut up; and while the client is there and not up,
    the connector, the sender or the connection still has something to report. *)
Theorem BSocksClient_terminates server ai dest ok m o ks es s g : init_ok server ai dest ->
  BSocksClient_Init server ai (Zlen ai) dest ok m tt = Ok (Some o, tt, ks) -> runs es (Some o) (ghost0 ai) s g ->
  Zlen es <= 131 /\
  match s with
  | Some o' => state o' = STATE_UP \/ exists e, e <> EFree /\ (forall e', e <> EConnection e') /\ enabled e o' g
  | None => True
  end.
Proof.
  intros Hi He Hr; assert (reachable (Some o) (ghost0 ai)) as Hre by (econstructor; done).
  destruct (runs_bound _ _ _ _ _ Hr Hre) as [Hre' HL].
  destruct (bs_init_eq server ai dest ok m Hi) as (s' & He' & _ & Hinv); rewrite He in He'; injection He' as <- _.
  assert (to_do o = 130) as Ht.
  { destruct Hinv as [_ Hc]; unfold to_do; rewrite Hc; done. }
  split; [lia|]; destruct s as [o'|]; [|done].
  destruct (decide (state o' = STATE_UP)) as [Hu|Hu]; [left; exact Hu | right; exact (pending_event o' g Hre' Hu)].
Qed.
End clients.

(** * A handshake *)

#[export] Instance enabled_decision e o g : Decision (enabled e o g).
Proof. destruct e; unfold enabled, control, auth_ok, PPI.fresh, fresh; apply _. Defined.
Definition alloc0 (n : Z) : option (list Z) := if 0 <=? n then Some (replicate (Z.to_nat n) 0) else None.
Lemma alloc0_ok : alloc_ok alloc0.
Proof.
  intros n m; unfold alloc0; destruct (0 <=? n) eqn:Hn; intros [= <-]; unfold Zlen; rewrite length_replicate; lia.
Qed.

Section execution.
Context `{Arch}.
(** Runs events that are possible. *)
Fixpoint execute (es : list event) (s : option bsocks) (g : ghost) : option (option bsocks * ghost) :=
  match es, s with
  | [], _ => Some (s, g)
  | e :: es, Some o =>
    if bool_decide (enabled e o g) then
      match handle alloc0 e (Some o) with Ok (_, s', ks) => execute es s' (count e ks g) | Err _ => None end
    else None
  | _ :: _, None => None
  end.
Lemma execute_runs es s g s' g' : execute es s g = Some (s', g') -> runs es s g s' g'.
Proof.
  revert s g; induction es as [|e es IH]; intros s g; cbn [execute].
  - destruct s; intros [= <- <-]; constructor.
  - destruct s as [o|]; [|done]; destruct (bool_decide (enabled e o g)) eqn:Hen; [|done]; apply bool_decide_eq_true in Hen.
    destruct (handle alloc0 e (Some o)) as [[[[] s1] ks]|] eqn:He; [|done]; intros Hr.
    econstructor; [exact alloc0_ok | exact Hen | exact He | apply IH, Hr].
Qed.
End execution.

(** The server asks for the credentials, and its answers come in pieces. *)
Definition server0 : BAddr := BADDR_IPV4 16777343 14357.
Definition dest0 : BAddr := BADDR_IPV4 33554559 20480.
Definition auth0 : list auth_info := [BSocksClient_auth_none; BSocksClient_auth_password [97; 98] 2 [99] 1].
Definition si0 : PPI.t := PPI.mk INT_MAX false false false None 0 false false ST_NONE false.
Definition ri0 : SPI.t := SPI.mk false false None 0 false 0 ST_NONE.
Definition send0 : list event := [ESendOp; ESendDone; ESendCompleted].
Definition answer0 (d : list Z) : list event := [ERecvOp; ERecvDone d; ERecvCompleted auth0].
Definition events0 : list event := EConnector auth0 false true si0 ri0 ::
  send0 ++ answer0 [5] ++ answer0 [2] ++ send0 ++ answer0 [1; 0] ++ send0 ++ answer0 [5; 0; 0; 1] ++ answer0 [10; 0; 0] ++ answer0 [1; 0; 80].
Definition client0 : bsocks := mk_bs 2 dest0 STATE_CONNECTING None (send_if memory0) (recv_if memory0) 0 0 0.
Definition result0 : option (option bsocks * ghost) := Eval vm_compute in execute (H := arm64) events0 (Some client0) (ghost0 auth0).
Definition up0 : bsocks := match result0 with Some (Some o, _) => o | _ => memory0 end.
Definition ghost_up0 : ghost := match result0 with Some (_, g) => g | None => ghost0 [] end.

Lemma events0_run : runs (H := arm64) events0 (Some client0) (ghost0 auth0) (Some up0) ghost_up0.
Proof. apply execute_runs; vm_compute; reflexivity. Qed.
Lemma init0_ok : init_ok server0 auth0 dest0.
Proof.
  split; [done|]; split; [unfold baddr_wf, dest0, is_u32, is_u16; lia|]; split; [split; [done|]; repeat constructor; done|].
  repeat constructor.
Qed.
Lemma client0_init : BSocksClient_Init server0 auth0 (Zlen auth0) dest0 true memory0 tt = Ok (Some client0, tt, [ConnectorInit server0]).
Proof. reflexivity. Qed.
Lemma up0_reachable : reachable (H := arm64) (Some up0) ghost_up0.
Proof.
  apply (runs_bound _ _ _ _ _ events0_run); exact (r_init _ _ _ _ _ _ _ init0_ok client0_init).
Qed.

Lemma BSocksClient_safe_witness : exists s ks,
  handle (H := arm64) alloc0 (EConnection BCONNECTION_EVENT_RECVCLOSED) (Some up0) = Ok (tt, s, ks).
Proof.
  destruct (proj2 (BSocksClient_safe (H := arm64)) up0 ghost_up0 alloc0 (EConnection BCONNECTION_EVENT_RECVCLOSED) up0_reachable alloc0_ok)
    as (s & ks & He & _); [vm_compute; done | exists s, ks; exact He].
Defined.

Lemma BSocksClient_handshake_witness : state up0 = STATE_UP /\
  g_sent ghost_up0 = [[5; 2; 0; 2]; [1; 2; 97; 98; 1; 99]; [5; 1; 0; 1; 127; 0; 0; 2; 0; 80]] /\
  exists out r q, exchange [0; 2] dest0 STATE_UP out r q /\ [5; 2; 1; 0; 5; 0; 0; 1; 10; 0; 0; 1; 0; 80] = r ++ q /\ g_sent ghost_up0 = out.
Proof.
  split; [reflexivity|]; split; [reflexivity|].
  destruct (BSocksClient_handshake (H := arm64) up0 ghost_up0 up0_reachable) as (out & r & q & Hex & Hq & _ & _ & _ & Hup).
  exists out, r, q; split; [exact Hex|]; split; [exact Hq | exact (Hup eq_refl)].
Defined.

Lemma BSocksClient_terminates_witness : Zlen events0 = 28 /\ Zlen events0 <= 131.
Proof.
  split; [reflexivity|].
  exact (proj1 (BSocksClient_terminates (H := arm64) server0 auth0 dest0 true memory0 client0 _ events0 _ _ init0_ok client0_init events0_run)).
Defined.
