(* ===== verification/SocksUdpGwClient.v ===== *)
(** tun2socks/SocksUdpGwClient.c: the udpgw client of UdpGwClient.v, connected to its server by the
    SOCKS client of BSocksClient.v and connected again, by a timer of the reactor of BReactor.v,
    whenever that fails. The three are composed: what one of them calls in its user is handled
    here. What the system answers is an argument. *)

From S2P Require Import Prelude MiscArith Addr FlowIface LinkedLists Pending OrderedTree BReactor PacketProtoFlow UdpGwClient BSocksClient.

(** What the handlers learn of the system: the clock, whether the connector of a new SOCKS client
    could be set up, in which memory, and whether a decoder could be. *)
Record answers := mk_answers { a_now : Z; a_connector : bool; a_memory : bsocks; a_decoder : bool }.

Section client.
Context `{Arch} {T : Type} `{OrdTree T} {Hd Us : Type}.
(** The address of [o->reconnect_timer]. *)
Variable timer : Z.

(** [rx] is the reactor; [socks_client] is [None] when it is not initialised. *)
Record world := mk_world {
  rx : reactor T Hd Us; socks_server_addr : BAddr; s_auth_info : list auth_info; s_num_auth_info : Z;
  remote_udpgw_addr : BAddr; udpgw_client : UdpGwClient.client T; have_socks : bool;
  socks_client : option bsocks; socks_up : bool }.
#[export] Instance world_eta : Eta world := fun w =>
  mk_world (rx w) (socks_server_addr w) (s_auth_info w) (s_num_auth_info w) (remote_udpgw_addr w) (udpgw_client w)
    (have_socks w) (socks_client w) (socks_up w).

Inductive call :=
| Sys (k : rcall Hd Us) | Gw (k : gw_call) | Socks (k : bs_call)
| UserReceived (local_addr remote_addr : BAddr) (data : list Z).
Definition wp := prog world call.

Definition on_reactor {A} (p : @rp T Hd Us A) : wp A := fun w =>
  match p (rx w) with Ok (a, o, ks) => Ok (a, w <| rx := o |>, map Sys ks) | Err f => Err f end.
(** Runs a function of the udpgw client or of the SOCKS client, then what it calls in its user. *)
Definition on_gw {A} (p : gwp A) (f : gw_call -> wp unit) : wp A := fun w =>
  match p (udpgw_client w) with
  | Ok (a, o, ks) => (foreach f ks;; mret a) (w <| udpgw_client := o |>)
  | Err e => Err e
  end.
Definition on_socks (p : bp unit) (f : bs_call -> wp unit) : wp unit := fun w =>
  match p (socks_client w) with
  | Ok (_, s, ks) => foreach f ks (w <| socks_client := s |>)
  | Err e => Err e
  end.
Definition pass_gw (k : gw_call) : wp unit := pcall (Gw k).
Definition pass_socks (k : bs_call) : wp unit := pcall (Socks k).

(** [free] is [BSocksClient_Free]; a client that reports an error frees itself for its user, after
    the user's handler. *)
Definition free_socks (free : wp unit) : wp unit :=
  o ← pget;
  passert (have_socks o);;
  (if socks_up o then on_gw UdpGwClient_DisconnectServer pass_gw else pskip);;
  free;;
  pmod (fun o => o <| have_socks := false |>).
Definition free_now : wp unit := on_socks BSocksClient_Free pass_socks.

Definition init_socks (connector_ok : bool) (m : bsocks) : wp bool := fun o =>
  match BSocksClient_Init (socks_server_addr o) (s_auth_info o) (s_num_auth_info o) (remote_udpgw_addr o) connector_ok m tt with
  | Ok (s, _, ks) => (foreach pass_socks ks;; mret (negb (bool_decide (s = None)))) (o <| socks_client := s |>)
  | Err e => Err e
  end.
Definition try_connect (a : answers) : wp unit :=
  o ← pget;
  passert (negb (have_socks o));;
  running ← on_reactor (BSmallTimer_IsRunning timer);
  passert (negb running);;
  r ← init_socks (a_connector a) (a_memory a);
  if negb r then on_reactor (BReactor_SetTimer timer (a_now a)) else
  pmod (fun o => o <| have_socks := true |>);;
  pmod (fun o => o <| socks_up := false |>).
Definition reconnect_timer_handler (a : answers) : wp unit :=
  o ← pget;
  passert (negb (have_socks o));;
  try_connect a.

Definition socks_client_handler (a : answers) (event : bsocks_event) : wp unit :=
  o ← pget;
  passert (have_socks o);;
  match event with
  | BSOCKSCLIENT_EVENT_UP =>
    passert (negb (socks_up o));;
    r ← on_gw (UdpGwClient_ConnectServer (a_decoder a)) pass_gw;
    if negb r then free_socks free_now;; on_reactor (BReactor_SetTimer timer (a_now a)) else
    pmod (fun o => o <| socks_up := true |>)
  | BSOCKSCLIENT_EVENT_ERROR | BSOCKSCLIENT_EVENT_ERROR_CLOSED =>
    free_socks pskip;;
    on_reactor (BReactor_SetTimer timer (a_now a))
  end.
Definition udpgw_handler_servererror (a : answers) : wp unit :=
  o ← pget;
  passert (have_socks o);;
  passert (socks_up o);;
  free_socks free_now;;
  on_reactor (BReactor_SetTimer timer (a_now a)).
Definition udpgw_handler_received (local_addr remote_addr : BAddr) (data : list Z) : wp unit :=
  pcall (UserReceived local_addr remote_addr data).

(** The calls of the two clients in their user. *)
Definition dispatch_gw (a : answers) (k : gw_call) : wp unit :=
  match k with
  | HandlerServerError => udpgw_handler_servererror a
  | HandlerReceived l r d => udpgw_handler_received l r d
  | _ => pcall (Gw k)
  end.
Definition dispatch_socks (a : answers) (k : bs_call) : wp unit :=
  match k with Handler e => socks_client_handler a e | _ => pcall (Socks k) end.

(** [queue_ok] and [i] are arguments of [UdpGwClient_Init]. *)
Definition SocksUdpGwClient_Init (udp_mtu max_connections send_buffer_size keepalive_time : Z)
  (server : BAddr) (ai : list auth_info) (n : Z) (remote : BAddr) (reconnect_time : Z)
  (queue_ok : bool) (i : PPI.t) (a : answers) : wp bool :=
  passert (negb (BAddr_IsInvalid server));;
  passert ((baddr_type remote =? BADDR_TYPE_IPV4) || (baddr_type remote =? BADDR_TYPE_IPV6));;
  pmod (fun o => o <| socks_server_addr := server |> <| s_auth_info := ai |> <| s_num_auth_info := n |>
                   <| remote_udpgw_addr := remote |>);;
  r ← on_gw (UdpGwClient_Init udp_mtu max_connections send_buffer_size keepalive_time queue_ok i) pass_gw;
  if negb r then mret false else
  on_reactor (BTimer_Init timer reconnect_time);;
  pmod (fun o => o <| have_socks := false |>);;
  try_connect a;;
  mret true.
Definition SocksUdpGwClient_Free : wp unit :=
  o ← pget;
  (if have_socks o then free_socks free_now else pskip);;
  on_reactor (BReactor_RemoveTimer timer);;
  on_gw UdpGwClient_Free pass_gw.
(** [new], [flow] and [mem] are arguments of [UdpGwClient_SubmitPacket]. *)
Definition SocksUdpGwClient_SubmitPacket (new : option Z) (flow : PPF.t) (mem : option (list Z))
  (local_addr remote_addr : BAddr) (is_dns : bool) (data : list Z) (data_len : Z) (a : answers) : wp unit :=
  on_gw (UdpGwClient_SubmitPacket new flow mem local_addr remote_addr is_dns data data_len) (dispatch_gw a).
End client.
Arguments world : clear implicits.
Arguments call : clear implicits.
