(* ===== verification/UdpGwSession.v ===== *)
(** The udpgw client over SOCKS (SocksUdpGwClient.v) at work: what its three parts call in it, their
    events together, the invariant, and the theorems that nothing fails and that it always
    comes back to its server without losing a flow. *)

From S2P Require Import Prelude MiscArith Addr FlowIface FlowViews LinkedLists Pending OrderedTree BAVL BAVLRefines BReactor ReactorLoop ReactorViews PacketProtoFlow UdpGwClient BSocksClient SocksHandshake SocksUdpGwClient.

(** * What the two clients call in their user *)

Section gw_calls.
Context `{Arch} {T : Type} `{OrdTree T}.
Implicit Types (o : UdpGwClient.client T).

Definition same_server o o' : Prop := have_server o' = have_server o.
Definition no_server_error (k : gw_call) : Prop := match k with HandlerServerError => False | _ => True end.
#[export] Instance same_server_preorder : PreOrder same_server.
Proof. split; [intros o; done | unfold same_server; intros o1 o2 o3 ? ?; congruence]. Qed.

Lemma calm_get_con c : frames same_server no_server_error (get_con c).
Proof. apply frames_same; [apply _|]; intros s a s' ks; unfold get_con; destruct (_ !! c); intros [=]; subst; done. Qed.
Lemma calm_on_flow {A} c (p : PPF.fp A) : frames same_server no_server_error (on_flow c p).
Proof.
  intros s a s' ks; unfold on_flow; destruct (_ !! c); [|done]; destruct (p _) as [[[a' f] k]|]; [|done]; intros [= _ <- <-].
  split; [done | apply Forall_map, Forall_true; done].
Qed.
Lemma calm_insert c : frames same_server no_server_error (insert_by_conaddr c) /\ frames same_server no_server_error (insert_by_conid c).
Proof.
  unfold insert_by_conaddr, insert_by_conid; split; intros s a s' ks; destruct (ot_insert _ c _); intros [= _ <- <-]; split; done || constructor.
Qed.
Lemma calm_find_loop n : frames same_server no_server_error (find_unused_conid_loop n).
Proof. induction n; cbn [find_unused_conid_loop]; unfold find_connection_by_conid; repeat frame_step; done. Qed.
Ltac calm_steps :=
  repeat first [ apply calm_get_con | apply calm_on_flow | apply calm_insert | apply calm_find_loop
               | progress unfold find_connection_by_conaddr, find_connection_by_conid, mod_con, move_to_end, connection_send, reuse_connection, find_unused_conid | frame_step ].
Lemma calm_connection_init new flow mem a flags data n : frames same_server no_server_error (connection_init new flow mem a flags data n).
Proof.
  unfold connection_init; calm_steps; unfold find_connection_by_conaddr; calm_steps.
Qed.
Lemma calm_submit new flow mem l r d data n : frames same_server no_server_error (UdpGwClient_SubmitPacket new flow mem l r d data n).
Proof. unfold UdpGwClient_SubmitPacket; calm_steps; apply calm_connection_init. Qed.
Lemma calm_recv_if (m : PPI.pp unit) f : (forall k, frames same_server no_server_error (f k)) -> frames same_server no_server_error (run_on UdpGwClient.recv_if UdpGwClient.put_recv_if m f).
Proof.
  intros Hf; assert (forall ks, frames same_server no_server_error (foreach f ks)) as Hfe.
  { induction ks as [|k ks IH]; cbn [foreach]; repeat frame_step; [apply Hf | exact IH]. }
  intros s a s' ks; unfold run_on; destruct (m _) as [[[u i] k]|]; [|done]; intros Hx; exact (Hfe k (UdpGwClient.put_recv_if i s) a s' ks Hx).
Qed.
Lemma calm_receive data n : frames same_server no_server_error (recv_interface_handler_send data n).
Proof. unfold recv_interface_handler_send; calm_steps; try (apply calm_recv_if; intros k; apply frames_assert; apply _); done. Qed.

Lemma calm_event e : match e with DecoderError | Connect _ | Disconnect => False | _ => True end -> frames same_server no_server_error (UdpGwClient.handle e).
Proof.
  destruct e; intros He; try done; cbn [UdpGwClient.handle].
  - apply calm_submit.
  - apply calm_on_flow.
  - unfold connection_first_job_handler; calm_steps.
  - apply calm_recv_if; intros []; cbn [dispatch_recv]; [apply calm_receive | apply frames_assert; apply _ | apply frames_call; [apply _ | done]].
  - unfold send_monitor_handler, PSIPHON; apply frames_skip; apply _.
Qed.
End gw_calls.

Section bs_calls.
Context `{Arch}.

Definition not_handler (k : bs_call) : Prop := match k with Handler _ => False | _ => True end.
Definition anything (_ _ : option bsocks) : Prop := True.
#[export] Instance anything_preorder : PreOrder anything.
Proof. split; done. Qed.
Definition handlers (ks : list bs_call) : list bsocks_event := omap (fun k => match k with Handler e => Some e | _ => None end) ks.
(** The program tells its user no more than one thing. *)
Definition tells_once {A} (p : prog (option bsocks) bs_call A) : Prop := forall s a s' ks, p s = Ok (a, s', ks) -> (length (handlers ks) <= 1)%nat.

Lemma handlers_app k1 k2 : handlers (k1 ++ k2) = handlers k1 ++ handlers k2.
Proof. apply omap_app. Qed.
Lemma handlers_none ks : Forall not_handler ks -> handlers ks = [].
Proof. induction 1 as [|k ks Hk _ IH]; [done|]; destruct k; done. Qed.
Lemma quiet_once {A} (p : prog (option bsocks) bs_call A) : frames anything not_handler p -> tells_once p.
Proof. intros Hp s a s' ks E; destruct (Hp _ _ _ _ E) as [_ HF]; rewrite (handlers_none _ HF); cbn; lia. Qed.
Lemma once_bind {A B} (p : prog (option bsocks) bs_call A) (k : A -> prog (option bsocks) bs_call B) :
  frames anything not_handler p -> (forall a, tells_once (k a)) -> tells_once (p ≫= k).
Proof.
  intros Hp Hk s b s' ks; unfold mbind, prog_bind; destruct (p s) as [[[a s1] c1]|] eqn:E1; [|done].
  destruct (k a s1) as [[[b1 s2] c2]|] eqn:E2; [|done]; intros [= <- <- <-].
  destruct (Hp _ _ _ _ E1) as [_ F1]; rewrite handlers_app, (handlers_none _ F1); exact (Hk _ _ _ _ _ E2).
Qed.
Lemma once_call k : tells_once (pcall k).
Proof. intros s a s' ks [= _ _ <-]; destruct k; cbn; lia. Qed.
Lemma quiet_get : frames anything not_handler bs_get.
Proof. intros [o|] a s' ks [=]; subst; repeat constructor. Qed.
Lemma quiet_mod f : frames anything not_handler (bs_mod f).
Proof. intros [o|] a s' ks [=]; subst; repeat constructor. Qed.
Lemma quiet_gone : frames anything not_handler bs_gone.
Proof. intros s a s' ks [=]; subst; repeat constructor. Qed.
Lemma once_report e : tells_once (report_error e).
Proof.
  intros s a s' ks; unfold report_error, mbind, prog_bind; cbn [pcall]; destruct (BSocksClient_Free s) as [[[u s2] k]|] eqn:Ef; [|done]; intros [= _ _ <-].
  assert (frames anything not_handler BSocksClient_Free) as Hq.
  { unfold BSocksClient_Free, free_up_io, free_control_io, bs_gone; repeat first [apply quiet_get | apply quiet_gone | frame_step]. }
  destruct (Hq _ _ _ _ Ef) as [_ HF]; change (length (e :: handlers k) <= 1)%nat; rewrite (handlers_none _ HF); cbn; lia.
Qed.
Ltac quiet_steps := repeat first [apply quiet_get | apply quiet_mod | apply quiet_gone | frame_step].
Lemma quiet_foreach_one {K} (f : K -> bp unit) ks : (length ks <= 1)%nat -> (forall k, tells_once (f k)) -> tells_once (foreach f ks).
Proof.
  destruct ks as [|k [|k' ks]]; cbn [length]; [intros _ _; apply quiet_once, frames_skip; apply _ | | lia].
  intros _ Hf s a s' c; cbn [foreach]; unfold mbind, prog_bind; destruct (f k s) as [[[u s1] c1]|] eqn:E; [|done]; intros [= <- <- <-].
  rewrite app_nil_r; exact (Hf k _ _ _ _ E).
Qed.
Definition at_most_one {I K} (m : prog I K unit) : Prop := forall s a s' ks, m s = Ok (a, s', ks) -> (length ks <= 1)%nat.
Lemma once_on_send (m : PPI.pp unit) f : at_most_one m -> (forall k, tells_once (f k)) -> tells_once (on_send m f).
Proof.
  intros Hm Hf s a s' ks; unfold on_send; destruct s as [o|]; [|done]; destruct (m (send_if o)) as [[[u i] k]|] eqn:E; [|done].
  apply (quiet_foreach_one f k (Hm _ _ _ _ E) Hf).
Qed.
Lemma once_on_recv (m : SPI.sp unit) f : at_most_one m -> (forall k, tells_once (f k)) -> tells_once (on_recv m f).
Proof.
  intros Hm Hf s a s' ks; unfold on_recv; destruct s as [o|]; [|done]; destruct (m (recv_if o)) as [[[u i] k]|] eqn:E; [|done].
  apply (quiet_foreach_one f k (Hm _ _ _ _ E) Hf).
Qed.
Lemma quiet_on_send (m : PPI.pp unit) b : frames anything not_handler (on_send m (fun _ => passert b)).
Proof.
  intros s a s' ks; unfold on_send; destruct s as [o|]; [|done]; destruct (m (send_if o)) as [[[u i] k]|]; [|done].
  assert (forall l, frames anything not_handler (foreach (fun _ : PPI.call => passert b) l)) as Hl by (induction l; cbn [foreach]; quiet_steps; done).
  intros Hx; split; [done | exact (proj2 (Hl _ _ _ _ _ Hx))].
Qed.
Lemma quiet_on_recv (m : SPI.sp unit) b : frames anything not_handler (on_recv m (fun _ => passert b)).
Proof.
  intros s a s' ks; unfold on_recv; destruct s as [o|]; [|done]; destruct (m (recv_if o)) as [[[u i] k]|]; [|done].
  assert (forall l, frames anything not_handler (foreach (fun _ : SPI.call => passert b) l)) as Hl by (induction l; cbn [foreach]; quiet_steps; done).
  intros Hx; split; [done | exact (proj2 (Hl _ _ _ _ _ Hx))].
Qed.
Lemma ppi_at_most_one : at_most_one PPI.run_operation /\ at_most_one PPI.Done /\ at_most_one PPI.run_done.
Proof.
  split_and!; intros s a s' ks; unfold PPI.run_operation, PPI.Done, PPI.run_done; prog_simpl;
    repeat match goal with |- context [if ?b then _ else _] => destruct b end; intros [=]; subst; cbn; lia.
Qed.
Lemma spi_at_most_one : at_most_one SPI.run_operation /\ (forall n, at_most_one (SPI.Done n)) /\ at_most_one SPI.run_done.
Proof.
  split_and!; [|intros n|]; intros s a s' ks; unfold SPI.run_operation, SPI.Done, SPI.run_done; prog_simpl;
    repeat match goal with |- context [if ?b then _ else _] => destruct b end; intros [=]; subst; cbn; lia.
Qed.

Section handlers.
Variable alloc : Z -> option (list Z).
Lemma quiet_buffer_write off d : frames anything not_handler (buffer_write off d).
Proof. unfold buffer_write; quiet_steps. Qed.
Lemma quiet_buffer_read off n : frames anything not_handler (buffer_read off n).
Proof. unfold buffer_read; quiet_steps. Qed.
Lemma quiet_reserve size : frames anything not_handler (reserve_buffer alloc size).
Proof. unfold reserve_buffer; quiet_steps. Qed.
Lemma quiet_write_methods i ai : frames anything not_handler (write_methods i ai).
Proof. revert i; induction ai as [|a ai IH]; intros i; cbn [write_methods]; quiet_steps; [apply quiet_buffer_write | apply IH]. Qed.
End handlers.
Ltac quiet_run :=
  repeat first [ apply quiet_buffer_write | apply quiet_buffer_read | apply quiet_reserve | apply quiet_write_methods
               | apply quiet_on_send | apply quiet_on_recv | apply quiet_get | apply quiet_mod | apply quiet_gone
               | progress unfold set_state, init_control_io, free_control_io, init_up_io, do_receive, start_receive, send_buffer, write_password | frame_step ].
(** Follows a program whose reports come last. *)
Ltac once_steps :=
  repeat first [ apply once_report | apply once_call
  | lazymatch goal with
    | |- tells_once (mbind _ _) => apply once_bind; [quiet_run|intros ?]
    | |- tells_once (if ?b then _ else _) => destruct b
    | |- tells_once (match ?b with _ => _ end) => destruct b
    | |- tells_once (report_error _) => idtac
    end ].
Section handlers2.
Variable alloc : Z -> option (list Z).
Lemma once_auth_finished : tells_once (auth_finished alloc).
Proof. unfold auth_finished; once_steps; apply quiet_once; quiet_run. Qed.
Lemma once_recv_done ai n : tells_once (recv_handler_done alloc ai n).
Proof.
  unfold recv_handler_done, received_hello, received_reply_header, received_password_reply, received_reply_rest;
    once_steps; try apply once_auth_finished; apply quiet_once; quiet_run.
Qed.
Lemma once_send_done : tells_once (send_handler_done alloc).
Proof. unfold send_handler_done; once_steps; apply quiet_once; quiet_run. Qed.
Lemma once_free : tells_once BSocksClient_Free.
Proof. apply quiet_once; unfold BSocksClient_Free, free_up_io, free_control_io; quiet_run. Qed.
Lemma once_event e : tells_once (BSocksClient.handle alloc e).
Proof.
  assert (forall k, tells_once (send_if_handler alloc k)) as Hs.
  { intros []; cbn [send_if_handler]; [apply once_call | apply quiet_once; quiet_run | apply once_send_done]. }
  assert (forall ai k, tells_once (recv_if_handler alloc ai k)) as Hr by (intros ai []; [apply once_call | apply once_recv_done]).
  destruct e; cbn [BSocksClient.handle].
  - unfold connector_handler; once_steps; apply quiet_once; quiet_run.
  - unfold connection_handler; once_steps.
  - apply once_on_send; [apply ppi_at_most_one | exact Hs].
  - apply once_on_send; [apply ppi_at_most_one | exact Hs].
  - apply once_on_send; [apply ppi_at_most_one | exact Hs].
  - apply once_on_recv; [apply spi_at_most_one | apply Hr].
  - apply once_bind; [quiet_run|intros o]; destruct (SPI.job_operation_data (recv_if o)); [|apply quiet_once; quiet_run].
    apply once_bind; [quiet_run|intros _]; apply once_on_recv; [apply spi_at_most_one | apply Hr].
  - apply once_on_recv; [apply spi_at_most_one | apply Hr].
  - apply once_free.
Qed.
End handlers2.
End bs_calls.

(** * The three clients together *)

Section steps.
Context `{Arch} {T : Type} `{OrdTree T} {Hd Us : Type}.
Variable timer : Z.
Implicit Types (w : world T Hd Us).

(** What the reactor, the SOCKS client and the udpgw client can do. A packet of the user is
    [Submit]. *)
Inductive event :=
| EReactor (e : @ReactorLoop.event Hd Us) (a : answers)
| ESocks (alloc : Z -> option (list Z)) (e : BSocksClient.event) (a : answers)
| EUdpGw (e : UdpGwClient.event) (a : answers).

Definition dispatch_reactor (a : answers) (k : rcall Hd Us) : @wp T Hd Us unit :=
  match k with
  | TimerHandler bt _ => if bt =? timer then reconnect_timer_handler timer a else pcall (Sys k)
  | _ => pcall (Sys k)
  end.
Definition handle (x : event) : @wp T Hd Us unit := fun w =>
  match x with
  | EReactor e a =>
    match ReactorLoop.handle e (rx w) with
    | Ok (_, r, ks) => foreach (dispatch_reactor a) ks (w <| rx := r |>)
    | Err f => Err f
    end
  | ESocks alloc e a => on_socks (BSocksClient.handle alloc e) (dispatch_socks timer a) w
  | EUdpGw (Submit la ra dns data new flow mem) a => SocksUdpGwClient_SubmitPacket timer new flow mem la ra dns data (Zlen data) a w
  | EUdpGw e a => on_gw (UdpGwClient.handle e) (dispatch_gw timer a) w
  end.

(** What is known of the clock, and the histories of the two clients. *)
Record ghost := mk_ghost { clock : Z; gg : UdpGwClient.ghost; gs : BSocksClient.ghost }.
Definition time_ok (a : answers) (t : Z) : Prop := t <= a_now a <= INT64_MAX.
(** The timer is its owner's, and so are connecting the udpgw client and freeing the SOCKS client. *)
Definition enabled (x : event) w (g : ghost) : Prop :=
  match x with
  | EReactor e a => ReactorLoop.enabled e (rx w) (clock g) /\ others timer e /\ time_ok a (tick e (clock g))
  | ESocks alloc e a => alloc_ok alloc /\ e <> EFree /\ time_ok a (clock g) /\
      exists o, socks_client w = Some o /\ BSocksClient.enabled e o (gs g)
  | EUdpGw e a => gw_enabled e (udpgw_client w) (gg g) /\ time_ok a (clock g) /\
      match e with Connect _ | Disconnect => False | _ => True end
  end.
Definition answers_of (x : event) : answers := match x with EReactor _ a | ESocks _ _ a | EUdpGw _ a => a end.
Definition bs_calls_of (x : event) w : list bs_call :=
  match x with
  | ESocks alloc e _ => match BSocksClient.handle alloc e (socks_client w) with Ok (_, _, ks) => ks | Err _ => [] end
  | _ => []
  end.
Definition rx_calls_of (x : event) w : list (rcall Hd Us) :=
  match x with EReactor e _ => match ReactorLoop.handle e (rx w) with Ok (_, _, ks) => ks | Err _ => [] end | _ => [] end.
Definition count (x : event) w w' (g : ghost) : ghost :=
  mk_ghost (a_now (answers_of x))
    match x with
    | EUdpGw e _ => UdpGwClient.count e (udpgw_client w) (udpgw_client w') (gg g)
    | ESocks _ _ _ => if socks_up w then gg g else UdpGwClient.mk_ghost (g_flows (gg g)) h0
    | EReactor _ _ => gg g
    end
    match x with
    | ESocks _ e _ => BSocksClient.count e (bs_calls_of x w) (gs g)
    | _ => if negb (have_socks w) && have_socks w' then ghost0 (s_auth_info w) else gs g
    end.
Inductive step : world T Hd Us * ghost -> world T Hd Us * ghost -> Prop :=
| step_intro x w g w' ks : enabled x w g -> handle x w = Ok (tt, w', ks) -> step (w, g) (w', count x w w' g).

(** A client set up on a reactor that works, by users that keep to the documentation. *)
Definition params_ok w (mtu max buffer : Z) (server : BAddr) (ai : list auth_info) (remote : BAddr) (reconnect_time c : Z) (a : answers) : Prop :=
  connections (udpgw_client w) = ∅ /\ ReactorLoop.reachable (rx w) c /\ ~ is_set timer (rx w) /\ setup_ok mtu max buffer /\
  init_ok server ai remote /\ is_int64 reconnect_time /\ time_ok a c /\ socks_client w = None.
Definition reachable w (g : ghost) : Prop := exists w0 w1 mtu max buffer keepalive server ai remote reconnect_time c i a ks,
  params_ok w0 mtu max buffer server ai remote reconnect_time c a /\
  SocksUdpGwClient_Init timer mtu max buffer keepalive server ai (Zlen ai) remote reconnect_time true i a w0 = Ok (true, w1, ks) /\
  star step (w1, mk_ghost (a_now a) g_init (ghost0 ai)) (w, g).

(** ** The session *)

(** Waiting to connect, connecting, connected. *)
Inductive session := Waiting | Connecting | Up.
Definition session_of w : session := if have_socks w then if socks_up w then Up else Connecting else Waiting.
Definition calls_timer (ks : list (rcall Hd Us)) : bool := existsb (fun k => match k with TimerHandler bt _ => bt =? timer | _ => false end) ks.
(** What an event makes of the session, if anything: the timer's handler tries to connect, what the
    SOCKS client reports and an error of the server decide how it goes on. *)
Definition outcome (x : event) w : option session :=
  match x with
  | EReactor _ a => if calls_timer (rx_calls_of x w) then Some (if a_connector a then Connecting else Waiting) else None
  | ESocks _ _ a =>
    match handlers (bs_calls_of x w) with
    | [] => None
    | BSOCKSCLIENT_EVENT_UP :: _ => Some (if a_decoder a then Up else Waiting)
    | _ => Some Waiting
    end
  | EUdpGw DecoderError _ => Some Waiting
  | EUdpGw _ _ => None
  end.

(** ** The invariant *)

Definition reactor_ok (r : reactor T Hd Us) (t : Z) : Prop :=
  (exists c, ReactorLoop.reachable r c /\ c <= t) /\ t <= INT64_MAX /\ exists ms, ms_of timer r = Some ms /\ is_int64 ms.
Definition config_ok w : Prop :=
  init_ok (socks_server_addr w) (s_auth_info w) (remote_udpgw_addr w) /\ s_num_auth_info w = Zlen (s_auth_info w).
Definition session_ok w (g : ghost) : Prop :=
  if have_socks w then
    ~ is_set timer (rx w) /\ exists o, socks_client w = Some o /\ SocksHandshake.reachable (Some o) (gs g) /\ (socks_up w = true <-> state o = STATE_UP)
  else is_set timer (rx w) /\ socks_client w = None.
Definition inv w (g : ghost) : Prop :=
  reactor_ok (rx w) (clock g) /\ config_ok w /\ UdpGwClient.inv (udpgw_client w) (gg g) /\
  have_server (udpgw_client w) = (have_socks w && socks_up w) /\ session_ok w g.
End steps.

Section proofs.
Context `{Arch} {T : Type} `{OrdTreeOk T} {Hd Us : Type}.
Variable timer : Z.
Implicit Types (w : world T Hd Us) (g : ghost) (r : reactor T Hd Us) (a : answers).

(** ** Running one client within the three *)

Lemma on_reactor_eq {A} (p : @rp T Hd Us A) w b r ks : p (rx w) = Ok (b, r, ks) -> on_reactor p w = Ok (b, w <| rx := r |>, map Sys ks).
Proof. unfold on_reactor; intros ->; done. Qed.
Lemma foreach_pass {S C K} (f : C -> prog S K unit) (h : C -> K) ks s : Forall (fun k => f k = pcall (h k)) ks -> foreach f ks s = Ok (tt, s, map h ks).
Proof.
  induction 1 as [|k ks Hk _ IH]; [done|]; cbn [foreach map]; rewrite Hk.
  etransitivity; [eapply pbind_calls; [reflexivity | exact IH]|]; done.
Qed.
Lemma on_gw_eq {A} (p : gwp A) f (h : gw_call -> call Hd Us) w b o ks : p (udpgw_client w) = Ok (b, o, ks) -> Forall (fun k => f k = pcall (h k)) ks ->
  on_gw p f w = Ok (b, w <| udpgw_client := o |>, map h ks).
Proof.
  intros Hp Hf; unfold on_gw; rewrite Hp; etransitivity; [eapply pbind_calls; [apply foreach_pass, Hf | reflexivity]|]; rewrite app_nil_r; done.
Qed.
Lemma on_gw_pass {A} (p : gwp A) w b o ks : p (udpgw_client w) = Ok (b, o, ks) -> on_gw p (@pass_gw T Hd Us) w = Ok (b, w <| udpgw_client := o |>, map Gw ks).
Proof. intros Hp; apply (on_gw_eq p pass_gw Gw w b o ks Hp), Forall_true; done. Qed.
Lemma dispatch_quiet a ks w : Forall not_handler ks -> foreach (dispatch_socks timer a) ks w = Ok (tt, w, map Socks ks).
Proof. intros Hk; apply foreach_pass; eapply Forall_impl; [exact Hk|]; intros []; done. Qed.
(** The user is told one thing, somewhere among the calls. *)
Lemma dispatch_one a ks e w w' c : handlers ks = [e] -> socks_client_handler timer a e w = Ok (tt, w', c) -> exists cs,
  foreach (dispatch_socks timer a) ks w = Ok (tt, w', cs).
Proof.
  revert w; induction ks as [|k ks IH]; intros w Hk He; [done|].
  destruct k; try (destruct (IH w Hk He) as [cs Hcs]; eexists; cbn [foreach]; eapply pbind_calls; [reflexivity | exact Hcs]).
  injection Hk as -> Hn; eexists; cbn [foreach]; eapply pbind_calls; [exact He|]; apply dispatch_quiet.
  clear - Hn; induction ks as [|k ks IH]; constructor; destruct k; try done; apply IH; exact Hn.
Qed.

(** ** Losing the server, and connecting *)

Definition gw_down w : UdpGwClient.client T :=
  if socks_up w then connected_to false (UdpGwClient.recv_if (udpgw_client w)) (udpgw_client w) else udpgw_client w.
Lemma gw_down_inv w g : UdpGwClient.inv (udpgw_client w) (gg g) -> have_server (udpgw_client w) = socks_up w ->
  UdpGwClient.inv (gw_down w) (gg g) /\ have_server (gw_down w) = false /\ (forall h, UdpGwClient.inv (gw_down w) (UdpGwClient.mk_ghost (g_flows (gg g)) h)).
Proof.
  intros Hi Hs; unfold gw_down; assert (forall o, UdpGwClient.inv o (gg g) -> have_server o = false -> forall h, UdpGwClient.inv o (UdpGwClient.mk_ghost (g_flows (gg g)) h)) as Hany.
  { intros o (Hc & Hco & Hcn & _) Ho h; split; [exact Hc|]; split; [exact Hco|]; split; [exact Hcn | congruence]. }
  destruct (socks_up w); [destruct (disconnect_eq _ _ Hi Hs) as [_ Hdi]|]; (split; [done|]; split; [done|]; apply Hany; done).
Qed.
Lemma free_socks_ok w g free : UdpGwClient.inv (udpgw_client w) (gg g) -> have_socks w = true -> have_server (udpgw_client w) = socks_up w ->
  (forall w1, socks_client w1 = socks_client w -> exists ks, free w1 = Ok (tt, w1 <| socks_client := None |>, ks)) -> exists ks,
  free_socks free w = Ok (tt, w <| udpgw_client := gw_down w |> <| socks_client := None |> <| have_socks := false |>, ks).
Proof.
  intros Hi Hh Hs Hf; unfold free_socks; set (w1 := w <| udpgw_client := gw_down w |>).
  assert (exists k1, (if socks_up w then on_gw UdpGwClient_DisconnectServer pass_gw else pskip) w = Ok (tt, w1, k1)) as [k1 H1'].
  { unfold w1, gw_down; destruct (socks_up w); [|destruct w; eexists; done]; destruct (disconnect_eq _ _ Hi Hs) as [Hdi _].
    eexists; apply on_gw_pass, Hdi. }
  destruct (Hf w1 eq_refl) as [k2 H2'].
  eexists; pstep; rewrite Hh; pstep; eapply pbind_calls; [exact H1'|]; eapply pbind_calls; [exact H2'|]; done.
Qed.
Lemma free_now_ok w o : socks_client w = Some o -> forall w1, socks_client w1 = socks_client w -> exists ks,
  @free_now T Hd Us w1 = Ok (tt, w1 <| socks_client := None |>, ks).
Proof.
  intros Ho w1 H1'; destruct (bs_Free_eq o) as [ks Hk]; eexists; unfold free_now, on_socks; rewrite H1', Ho, Hk; apply foreach_pass, Forall_true; done.
Qed.
Lemma free_none w : socks_client w = None -> forall w1 : world T Hd Us, socks_client w1 = socks_client w -> exists ks,
  @pskip (world T Hd Us) (call Hd Us) w1 = Ok (tt, w1 <| socks_client := None |>, ks).
Proof. intros Hn w1 H1'; exists []; destruct w1; cbn in *; rewrite H1', Hn; done. Qed.

(** The timer was set, at the time of [a]. *)
Definition starts r r' a : Prop := exists t ms, ms_of timer r = Some ms /\ timers r' !! timer = Some t /\
  t_state t = TIMER_STATE_RUNNING /\ t_absTime t = btime_add (a_now a) ms.
Lemma starts_set r r' a : starts r r' a -> is_set timer r'.
Proof. intros (t & ms & _ & Ht & Hs & _); left; exists t; done. Qed.
Lemma set_timer r t a : reactor_ok timer r t -> time_ok a t -> exists r',
  BReactor_SetTimer timer (a_now a) r = Ok (tt, r', []) /\ reactor_ok timer r' (a_now a) /\ starts r r' a.
Proof.
  intros ((c & Hr & Hc) & _ & ms & Hms & Hi) Ha; unfold time_ok in Ha.
  destruct (op_set_default timer r c ms (a_now a) Hr Hms Hi ltac:(lia)) as (r' & Hs & Hr' & Hms' & t' & Ht).
  exists r'; split; [exact Hs|]; split; [split; [exists (a_now a); split; [exact Hr' | lia]|]; split; [lia | eauto]|]; exists t', ms; tauto.
Qed.

Definition lost w r : world T Hd Us := w <| udpgw_client := gw_down w |> <| socks_client := None |> <| have_socks := false |> <| rx := r |>.
Lemma lose_ok w g a free : UdpGwClient.inv (udpgw_client w) (gg g) -> have_socks w = true -> have_server (udpgw_client w) = socks_up w ->
  reactor_ok timer (rx w) (clock g) -> time_ok a (clock g) ->
  (forall w1, socks_client w1 = socks_client w -> exists ks, free w1 = Ok (tt, w1 <| socks_client := None |>, ks)) -> exists r ks,
  (free_socks free;; on_reactor (BReactor_SetTimer timer (a_now a))) w = Ok (tt, lost w r, ks) /\
  reactor_ok timer r (a_now a) /\ starts (rx w) r a.
Proof.
  intros Hi Hh Hs Hr Ha Hf; destruct (free_socks_ok w g free Hi Hh Hs Hf) as [k1 H1']; destruct (set_timer _ _ _ Hr Ha) as (r & H2' & Hr' & Hst).
  exists r; eexists; split; [|split; [exact Hr' | exact Hst]]; eapply pbind_calls; [exact H1'|]; apply on_reactor_eq; exact H2'.
Qed.
Lemma lost_inv w r gg' gs' a : UdpGwClient.inv (gw_down w) gg' -> have_server (gw_down w) = false -> config_ok w ->
  reactor_ok timer r (a_now a) -> starts (rx w) r a -> inv timer (lost w r) (mk_ghost (a_now a) gg' gs').
Proof.
  intros Hi Hs Hc Hr Hst; split; [exact Hr|]; split; [exact Hc|]; split; [exact Hi|]; split; [exact Hs|].
  split; [exact (starts_set _ _ _ Hst) | done].
Qed.

Definition connecting w o : world T Hd Us := w <| socks_client := Some o |> <| have_socks := true |> <| socks_up := false |>.
Definition retrying w r : world T Hd Us := w <| socks_client := None |> <| rx := r |>.
Lemma try_connect_ok w t a : have_socks w = false -> ~ is_set timer (rx w) -> config_ok w -> reactor_ok timer (rx w) t -> time_ok a t -> exists w' ks,
  try_connect timer a w = Ok (tt, w', ks) /\
  if a_connector a then exists o, w' = connecting w o /\ SocksHandshake.reachable (Some o) (ghost0 (s_auth_info w)) /\ state o = STATE_CONNECTING
  else exists r, w' = retrying w r /\ reactor_ok timer r (a_now a) /\ starts (rx w) r a.
Proof.
  intros Hh Hns [Hcfg Hn] Hr Ha; pose proof Hr as (_ & _ & ms & Hms & _); destruct (op_is_running timer (rx w) ms Hms) as (b & Hrun & Hb).
  destruct b; [destruct Hns; apply Hb; done|].
  destruct (bs_init_eq _ _ _ (a_connector a) (a_memory a) Hcfg) as (s & Hi & Hs & Ho).
  assert (init_socks (a_connector a) (a_memory a) w = Ok (negb (bool_decide (s = None)), w <| socks_client := s |>, [Socks (ConnectorInit (socks_server_addr w))])) as Hin.
  { unfold init_socks; rewrite Hn, Hi; done. }
  unfold try_connect; destruct (a_connector a); destruct s as [o|]; try (exfalso; destruct Hs as [Hs1 Hs2]; (discriminate (Hs1 ltac:(discriminate)) || exact (Hs2 eq_refl eq_refl))).
  - eexists _, _; split; [pstep; rewrite Hh; pstep; eapply pbind_calls; [apply on_reactor_eq; exact Hrun|]; pstep; eapply pbind_calls; [exact Hin|]; reflexivity|].
    exists o; split; [destruct w; done|]; split; [exact (r_init _ _ _ _ _ _ _ Hcfg Hi) | apply Ho].
  - destruct (set_timer (rx w) t a Hr Ha) as (r & Hset & Hr' & Hst).
    eexists _, _; split; [pstep; rewrite Hh; pstep; eapply pbind_calls; [apply on_reactor_eq; exact Hrun|]; pstep; eapply pbind_calls; [exact Hin|]; cbn [negb bool_decide]; apply on_reactor_eq; exact Hset|].
    exists r; split; [destruct w; done|]; done.
Qed.

(** ** What an event does *)

(** How much is left of the attempt to connect. *)
Definition attempt_left w : Z := match socks_client w with Some o => to_do o | None => 0 end.
Definition gw_kept w w' : Prop := exists b i, udpgw_client w' = connected_to b i (udpgw_client w).
Definition changed (x : event) w w' : Prop :=
  match outcome timer x w with
  | None => session_of w' = session_of w
  | Some s => session_of w' = s /\ (s = Waiting -> starts (rx w) (rx w') (answers_of x))
  end /\
  match x with
  | EReactor _ _ | EUdpGw DecoderError _ => gw_kept w w'
  | ESocks _ _ _ => gw_kept w w' /\ (session_of w' = Connecting -> attempt_left w' < attempt_left w)
  | EUdpGw e _ => exists ks, UdpGwClient.handle e (udpgw_client w) = Ok (tt, udpgw_client w', ks)
  end.
Definition good (x : event) w g : Prop := exists w' ks, handle timer x w = Ok (tt, w', ks) /\ inv timer w' (count x w w' g) /\ changed x w w'.

Lemma gw_kept_down w w' : udpgw_client w' = gw_down w -> gw_kept w w'.
Proof.
  unfold gw_down, gw_kept; intros ->; destruct (socks_up w); [eauto|]; exists (have_server (udpgw_client w)), (UdpGwClient.recv_if (udpgw_client w)).
  destruct (udpgw_client w); done.
Qed.
Lemma gw_kept_refl w w' : udpgw_client w' = udpgw_client w -> gw_kept w w'.
Proof. unfold gw_kept; intros ->; exists (have_server (udpgw_client w)), (UdpGwClient.recv_if (udpgw_client w)); destruct (udpgw_client w); done. Qed.

Lemma told_one e ks : Handler e ∈ ks -> (length (handlers ks) <= 1)%nat -> handlers ks = [e].
Proof.
  intros He Hl; assert (e ∈ handlers ks) as Hin by (apply list_elem_of_omap; exists (Handler e); done).
  destruct (handlers ks) as [|e' [|]]; [inversion Hin | apply list_elem_of_singleton in Hin; subst; done | cbn in Hl; lia].
Qed.
Lemma in_handlers e ks : e ∈ handlers ks -> Handler e ∈ ks.
Proof. intros (k & Hk & He)%list_elem_of_omap; destruct k; try discriminate; injection He as ->; exact Hk. Qed.
Lemma handlers_quiet ks : handlers ks = [] -> Forall not_handler ks.
Proof. intros Hn; induction ks as [|k ks IH]; constructor; destruct k; try done; apply IH; exact Hn. Qed.

(** The SOCKS client reports an error: the session waits. *)
Lemma socks_error_ok w g a e : e <> BSOCKSCLIENT_EVENT_UP -> UdpGwClient.inv (udpgw_client w) (gg g) -> have_socks w = true ->
  have_server (udpgw_client w) = socks_up w -> reactor_ok timer (rx w) (clock g) -> time_ok a (clock g) -> socks_client w = None -> exists r ks,
  socks_client_handler timer a e w = Ok (tt, lost w r, ks) /\ reactor_ok timer r (a_now a) /\ starts (rx w) r a.
Proof.
  intros He Hi Hh Hs Hr Ha Hn; destruct (lose_ok w g a pskip Hi Hh Hs Hr Ha (free_none w Hn)) as (r & ks & Hl & Hr').
  exists r, ks; split; [|exact Hr']; unfold socks_client_handler; pstep; rewrite Hh; pstep; destruct e; done.
Qed.
(** It reports that it is up. *)
Lemma socks_up_ok w g a o : UdpGwClient.inv (udpgw_client w) (gg g) -> have_socks w = true -> socks_up w = false ->
  have_server (udpgw_client w) = false -> reactor_ok timer (rx w) (clock g) -> time_ok a (clock g) -> socks_client w = Some o -> exists i ks,
  UdpGwClient.inv (connected_to (a_decoder a) i (udpgw_client w)) (UdpGwClient.mk_ghost (g_flows (gg g)) h0) /\
  if a_decoder a then socks_client_handler timer a BSOCKSCLIENT_EVENT_UP w = Ok (tt, w <| udpgw_client := connected_to true i (udpgw_client w) |> <| socks_up := true |>, ks)
  else exists r, socks_client_handler timer a BSOCKSCLIENT_EVENT_UP w = Ok (tt, lost (w <| udpgw_client := connected_to false i (udpgw_client w) |>) r, ks) /\
    reactor_ok timer r (a_now a) /\ starts (rx w) r a.
Proof.
  intros Hi Hh Hu Hs Hr Ha Ho; destruct (connect_eq _ _ (a_decoder a) Hi Hs) as (i & Hc & Hci); exists i.
  set (w1 := w <| udpgw_client := connected_to (a_decoder a) i (udpgw_client w) |>).
  assert (exists k, on_gw (UdpGwClient_ConnectServer (a_decoder a)) pass_gw w = Ok (a_decoder a, w1, k)) as [k Hk] by (eexists; apply on_gw_pass, Hc).
  destruct (a_decoder a) eqn:Ed.
  - eexists; split; [exact Hci|]; unfold socks_client_handler; pstep; rewrite Hh; pstep; rewrite Hu; pstep; rewrite Ed.
    eapply pbind_calls; [exact Hk | reflexivity].
  - destruct (lose_ok w1 (mk_ghost (clock g) (UdpGwClient.mk_ghost (g_flows (gg g)) h0) (gs g)) a free_now Hci Hh (eq_sym Hu) Hr Ha (free_now_ok w1 o Ho)) as (r & ks & Hl & Hr').
    eexists; split; [exact Hci|]; exists r; split; [|exact Hr']; unfold socks_client_handler; pstep; rewrite Hh; pstep; rewrite Hu; pstep; rewrite Ed.
    eapply pbind_calls; [exact Hk|]; exact Hl.
Qed.

Lemma reactor_later r t a : reactor_ok timer r t -> time_ok a t -> reactor_ok timer r (a_now a).
Proof. intros ((c & Hc & Hle) & _ & Hms) Ha; unfold time_ok in Ha; split; [exists c; split; [exact Hc | lia]|]; split; [lia | exact Hms]. Qed.

Lemma socks_event alloc e a w g : inv timer w g -> enabled timer (ESocks alloc e a) w g -> good (ESocks alloc e a) w g.
Proof.
  intros (Hr & Hcfg & Hgw & Hsrv & Hses) (Hal & Hne & Ha & o & Ho & Hen); unfold session_ok in Hses.
  destruct (have_socks w) eqn:Hh; [|destruct Hses; congruence]; destruct Hses as (Hns & o1 & Ho1 & Hreach & Hup); rewrite Ho in Ho1; injection Ho1 as <-.
  rewrite andb_true_l in Hsrv; pose proof (SocksHandshake.reachable_inv _ _ Hreach) as Hbi.
  destruct (bs_event_handled alloc Hal e o (gs g) Hbi Hen) as (s & ks & Hh' & Hs); pose proof (once_event alloc e _ _ _ _ Hh') as Hone.
  assert (bs_calls_of (ESocks alloc e a) w = ks) as Hcalls by (cbn; rewrite Ho, Hh'; done).
  destruct (gw_down_inv w g Hgw Hsrv) as (Hd1 & Hd2 & Hd3).
  assert (forall o', s = Some o' -> SocksHandshake.reachable (Some o') (BSocksClient.count e ks (gs g))) as Hre.
  { intros o' ->; exact (r_event alloc e o (gs g) _ ks Hreach Hal Hen Hh'). }
  unfold good, changed, outcome, count; rewrite Hcalls; cbn [answers_of]; set (w1 := w <| socks_client := s |>).
  assert (forall k, foreach (dispatch_socks timer a) ks w1 = k -> handle timer (ESocks alloc e a) w = k) as Hrun by (intros k <-; cbn; unfold on_socks; rewrite Ho, Hh'; done).
  destruct s as [o'|].
  - destruct Hs as (Hbi' & Hnt & Huph & Htd); specialize (Hre o' eq_refl).
    assert (state o <> STATE_UP) as Hnup.
    { intros Hst; pose proof (to_do_bound o' _ Hbi'); assert (to_do o = 0) by (unfold to_do; rewrite Hst; done); lia. }
    assert (socks_up w = false) as Hu by (destruct (socks_up w); [destruct Hnup; apply Hup; done | done]).
    destruct (decide (state o' = STATE_UP)) as [Hst|Hst].
    + assert (handlers ks = [BSOCKSCLIENT_EVENT_UP]) as Hk by (apply told_one; [apply Huph; done | exact Hone]); rewrite Hk.
      destruct (socks_up_ok w1 g a o' Hgw Hh Hu ltac:(rewrite <- Hu; exact Hsrv) Hr Ha eq_refl) as (i & c & Hci & Hdec); destruct (a_decoder a) eqn:Ed.
      * destruct (dispatch_one a ks _ w1 _ _ Hk Hdec) as [cs Hcs]; set (w2 := w1 <| udpgw_client := connected_to true i (udpgw_client w1) |> <| socks_up := true |>) in *.
        assert (have_socks w2 = true) as Hh2 by exact Hh; exists w2, cs; split; [apply Hrun, Hcs|]; rewrite Hu.
        split; [|split; [split; [unfold session_of; rewrite Hh2; done | discriminate]|split; [exists true, i; done | unfold session_of; rewrite Hh2; discriminate]]].
        split; [exact (reactor_later _ _ a Hr Ha)|].
        split; [exact Hcfg|]; split; [exact Hci|]; split; [rewrite Hh2; done|]; unfold session_ok; rewrite Hh2.
        split; [exact Hns|]; exists o'; done.
      * destruct Hdec as (r & Hdec & Hr' & Hst'); destruct (dispatch_one a ks _ w1 _ _ Hk Hdec) as [cs Hcs]; eexists _, cs; split; [apply Hrun, Hcs|].
        set (w2 := w1 <| udpgw_client := connected_to false i (udpgw_client w1) |>) in *.
        assert (gw_down w2 = connected_to false i (udpgw_client w)) as Hgd by (unfold gw_down; change (socks_up w2) with (socks_up w); rewrite Hu; done).
        split; [|split; [split; [done | intros _; exact Hst']|split; [exists false, i; exact Hgd | discriminate]]].
        apply (lost_inv w2 r); [rewrite Hgd, Hu; exact Hci | rewrite Hgd; done | exact Hcfg | exact Hr' | exact Hst'].
    + assert (handlers ks = []) as Hk.
      { destruct (handlers ks) as [|ev l] eqn:El; [done|]; assert (Handler ev ∈ ks) as Hev by (apply in_handlers; rewrite El; left).
        destruct ev; [destruct Hnt; left; done | destruct (proj1 Huph Hev); done | destruct Hnt; right; done]. }
      rewrite Hk; assert (have_socks w1 = true) as Hh1 by exact Hh; exists w1; eexists; split; [apply Hrun, dispatch_quiet, handlers_quiet, Hk|].
      split; [|split; [done|split; [apply gw_kept_refl; done | intros _; unfold attempt_left, w1; cbn; rewrite Ho; exact Htd]]].
      split; [exact (reactor_later _ _ a Hr Ha)|].
      split; [exact Hcfg|]; rewrite Hu; split; [unfold gw_down in Hd3; rewrite Hu in Hd3; apply Hd3|].
      split; [rewrite Hh1; exact Hsrv|]; unfold session_ok; rewrite Hh1; split; [exact Hns|]; exists o'; split; [done|]; split; [exact Hre|].
      change (socks_up w1) with (socks_up w); rewrite Hu; split; [discriminate | tauto].
  - destruct Hs as [Hs|Hs]; [done|].
    assert (exists ev, handlers ks = [ev] /\ ev <> BSOCKSCLIENT_EVENT_UP) as (ev & Hk & Hev).
    { destruct Hs as [Hev|Hev]; [exists BSOCKSCLIENT_EVENT_ERROR | exists BSOCKSCLIENT_EVENT_ERROR_CLOSED]; (split; [apply told_one; done | done]). }
    destruct (socks_error_ok w1 g a ev Hev Hgw Hh Hsrv Hr Ha eq_refl) as (r & c & Hdec & Hr' & Hst); rewrite Hk.
    destruct (dispatch_one a ks _ w1 _ _ Hk Hdec) as [cs Hcs]; eexists _, cs; split; [apply Hrun, Hcs|].
    split; [|split; [destruct ev; [|done|]; (split; [done | intros _; exact Hst])|split; [apply gw_kept_down; done | discriminate]]].
    apply lost_inv; [|exact Hd2 | exact Hcfg | exact Hr' | exact Hst]; destruct (socks_up w); [exact Hd1 | apply Hd3].
Qed.

Lemma enabled_earlier e r c t : ReactorLoop.enabled e r t -> c <= t -> ReactorLoop.enabled e r c /\ tick e c <= tick e t.
Proof.
  destruct e; cbn [ReactorLoop.enabled tick]; intros He Hle; try (split; [exact He | lia]).
  - destruct He as (H1' & H2' & H3'); split; [|lia]; split; [exact H1'|]; split; [lia | exact H3'].
  - destruct He as (H1' & H2' & H3' & H4'); split; [|lia]; split; [exact H1'|]; split; [exact H2'|]; split; [lia | exact H4'].
  - destruct He as (H1' & H2'); split; [|lia]; split; [exact H1' | lia].
Qed.
Lemma starts_ms r1 r2 r a : ms_of timer r1 = ms_of timer r2 -> starts r1 r a -> starts r2 r a.
Proof. intros Hms (t & ms & Hm & Ht); exists t, ms; split; [congruence | exact Ht]. Qed.
Lemma reactor_event e a w g : inv timer w g -> enabled timer (EReactor e a) w g -> good (EReactor e a) w g.
Proof.
  intros (((c & Hr & Hc) & Hmax & ms & Hms & Hi64) & Hcfg & Hgw & Hsrv & Hses) (Hen & Hot & Ha).
  destruct (enabled_earlier e (rx w) c (clock g) Hen Hc) as [Hen' Htick].
  destruct (event_timer timer e (rx w) c Hr Hen' Hot) as (b & r' & ks & Hh & Hr' & Hms' & Hk); rewrite Hms in Hms'.
  assert (rx_calls_of (EReactor e a) w = ks) as Hcalls by (cbn; rewrite Hh; done).
  unfold time_ok in Ha; set (w1 := w <| rx := r' |>).
  assert (forall k, foreach (dispatch_reactor timer a) ks w1 = k -> handle timer (EReactor e a) w = k) as Hrun by (intros k <-; cbn; rewrite Hh; done).
  assert (reactor_ok timer r' (a_now a)) as Hr1 by (split; [exists (tick e c); split; [exact Hr' | lia]|]; split; [lia | eauto]).
  unfold good, changed, outcome; rewrite Hcalls; cbn [answers_of].
  destruct Hk as [[Hno Hset]|((s & ->) & Hset & Hns)].
  - assert (calls_timer timer ks = false) as Hct.
    { unfold calls_timer; clear - Hno; induction Hno as [|k ks Hk _ IH]; [done|]; cbn; rewrite IH, orb_false_r; destruct k; try done.
      destruct (Z.eqb_spec bt timer) as [->|]; [destruct (Hk small eq_refl) | done]. }
    rewrite Hct; exists w1; eexists; split; [apply Hrun, foreach_pass with (h := Sys)|].
    { eapply Forall_impl; [exact Hno|]; intros [] Hx; try done; cbn; destruct (Z.eqb_spec bt timer) as [->|]; [destruct (Hx small eq_refl) | done]. }
    split; [|split; [done | apply gw_kept_refl; done]].
    split; [exact Hr1|]; split; [exact Hcfg|]; split; [exact Hgw|]; split; [exact Hsrv|].
    unfold session_ok in *; unfold count; change (have_socks w1) with (have_socks w); destruct (have_socks w).
    + destruct Hses as [Hs1 Hs2]; split; [change (~ is_set timer r'); rewrite Hset; exact Hs1 | exact Hs2].
    + destruct Hses as [Hs1 Hs2]; split; [change (is_set timer r'); rewrite Hset; exact Hs1 | exact Hs2].
  - unfold session_ok in Hses; destruct (have_socks w) eqn:Hhs; [destruct Hses as [Hx _]; destruct (Hx Hset)|]; destruct Hses as [_ Hnone].
    assert (calls_timer timer [@TimerHandler Hd Us timer s] = true) as Hct by (cbn; rewrite Z.eqb_refl; done); rewrite Hct.
    destruct (try_connect_ok w1 (a_now a) a Hhs Hns Hcfg Hr1 ltac:(unfold time_ok; lia)) as (w' & cs & Ht & Hw').
    exists w', (cs ++ []); split.
    { apply Hrun; cbn [foreach dispatch_reactor]; rewrite Z.eqb_refl; eapply pbind_calls; [|reflexivity].
      unfold reconnect_timer_handler; pstep; change (have_socks w1) with (have_socks w); rewrite Hhs; pstep; exact Ht. }
    destruct (a_connector a).
    + destruct Hw' as (o & -> & Hre & Hst); split; [|split; [split; [done | discriminate] | apply gw_kept_refl; done]].
      split; [exact Hr1|]; split; [exact Hcfg|]; split; [exact Hgw|]; split; [exact Hsrv|]; unfold count; rewrite Hhs.
      split; [exact Hns|]; exists o; split; [done|]; split; [exact Hre|]; cbn; rewrite Hst; split; discriminate.
    + destruct Hw' as (r & -> & Hr2 & Hst); split.
      * split; [exact Hr2|]; split; [exact Hcfg|]; split; [exact Hgw|]; split; [exact (eq_trans Hsrv (f_equal (fun b => b && socks_up w) (eq_sym Hhs)))|]; unfold session_ok.
        change (have_socks (retrying w1 r)) with (have_socks w); rewrite Hhs; split; [exact (starts_set _ _ _ Hst) | done].
      * split; [|apply gw_kept_refl; done]; split; [unfold session_of; change (have_socks (retrying w1 r)) with (have_socks w); rewrite Hhs; done|].
        intros _; apply (starts_ms r'); [congruence | exact Hst].
Qed.

Lemma gw_event e a w g : inv timer w g -> enabled timer (EUdpGw e a) w g -> good (EUdpGw e a) w g.
Proof.
  intros (Hr & Hcfg & Hgw & Hsrv & Hses) (Hen & Ha & Hne).
  destruct (gw_inv_step e _ _ Hgw Hen) as (o & ks & Hh & Hi).
  assert (match e with DecoderError | Connect _ | Disconnect => False | _ => True end -> good (EUdpGw e a) w g) as Hplain.
  { intros He; destruct (calm_event e He _ _ _ _ Hh) as [Hs HF]; unfold same_server in Hs.
    set (h := fun k => match k return call Hd Us with HandlerReceived l r d => UserReceived l r d | _ => Gw k end).
    set (w1 := w <| udpgw_client := o |>).
    assert (handle timer (EUdpGw e a) w = Ok (tt, w1, map h ks)) as Hrun.
    { assert (on_gw (UdpGwClient.handle e) (dispatch_gw timer a) w = Ok (tt, w1, map h ks)) as Hx.
      { apply on_gw_eq; [exact Hh|]; eapply Forall_impl; [exact HF|]; intros []; done. }
      destruct e; try exact Hx; exact Hx. }
    exists w1, (map h ks); split; [exact Hrun|]; split.
    - split; [exact (reactor_later _ _ a Hr Ha)|]; split; [exact Hcfg|]; split; [exact Hi|]; split; [exact (eq_trans Hs Hsrv)|].
      unfold session_ok, count; change (have_socks w1) with (have_socks w); change (rx w1) with (rx w); unfold session_ok in Hses; destruct (have_socks w); exact Hses.
    - unfold changed; destruct e; try done; (split; [done|]; exists ks; exact Hh). }
  destruct e as [la ra dns data new flow mem|c e|c|e| | |ok|]; try (apply Hplain; done); try done.
  clear Hplain; cbn [gw_enabled] in Hen; rewrite Hen in Hsrv; symmetry in Hsrv; apply andb_true_iff in Hsrv as [Hhs Hup].
  unfold session_ok in Hses; rewrite Hhs in Hses; destruct Hses as (Hns & os & Hos & _).
  assert (UdpGwClient.handle DecoderError (udpgw_client w) = Ok (tt, udpgw_client w, [HandlerServerError])) as Hde.
  { cbn [UdpGwClient.handle]; unfold decoder_handler_error; pstep; rewrite Hen; pstep; done. }
  destruct (lose_ok w g a free_now Hgw Hhs ltac:(congruence) Hr Ha (free_now_ok w os Hos)) as (r & cs & Hl & Hr' & Hst).
  destruct (gw_down_inv w g Hgw ltac:(congruence)) as (Hd1 & Hd2 & _).
  exists (lost w r); eexists; split.
  - cbn [handle]; unfold on_gw; rewrite Hde; assert (w <| udpgw_client := udpgw_client w |> = w) as -> by (destruct w; done).
    cbn [foreach dispatch_gw]; eapply pbind_calls; [|reflexivity]; eapply pbind_calls; [|reflexivity].
    unfold udpgw_handler_servererror; pstep; rewrite Hhs; pstep; rewrite Hup; pstep; exact Hl.
  - split; [apply (lost_inv w r); [exact Hd1 | exact Hd2 | exact Hcfg | exact Hr' | exact Hst]|].
    split; [split; [done | intros _; exact Hst] | apply gw_kept_down; done].
Qed.
Lemma session_event x w g : inv timer w g -> enabled timer x w g -> good x w g.
Proof. destruct x; [apply reactor_event | apply socks_event | apply gw_event]. Qed.

(** ** From the beginning *)

Lemma session_init_eq mtu max buffer keepalive server ai remote time c i a w : params_ok timer w mtu max buffer server ai remote time c a -> exists w' ks,
  SocksUdpGwClient_Init timer mtu max buffer keepalive server ai (Zlen ai) remote time true i a w = Ok (true, w', ks) /\
  inv timer w' (mk_ghost (a_now a) g_init (ghost0 ai)).
Proof.
  intros (Hem & Hr & Hns & Hset & Hok & Hti & Ha & Hnone).
  destruct (gw_init_inv _ mtu max buffer keepalive i Hem Hset) as (o0 & gc & Hgi & Hginv & _ & _ & Hsrv).
  destruct (op_timer_init timer _ c time Hr Hns) as (r & Hti' & Hr' & Hms & Hns').
  set (w1 := w <| socks_server_addr := server |> <| s_auth_info := ai |> <| s_num_auth_info := Zlen ai |> <| remote_udpgw_addr := remote |>).
  set (w2 := w1 <| udpgw_client := o0 |>); set (w3 := w2 <| rx := r |> <| have_socks := false |>).
  assert (reactor_ok timer r (a_now a)) as Hrok by (unfold time_ok in Ha; split; [exists c; split; [exact Hr' | lia]|]; split; [lia | eauto]).
  assert (time_ok a (a_now a)) as Ha' by (unfold time_ok in *; lia).
  destruct (try_connect_ok w3 (a_now a) a eq_refl Hns' (conj Hok eq_refl) Hrok Ha') as (w' & ks & Ht & Hw').
  exists w'; eexists; split.
  - unfold SocksUdpGwClient_Init; destruct Hok as (Hsv & Hwf & _).
    pstep_by ltac:(apply passert_ok; unfold BAddr_IsInvalid; lia); pstep_by ltac:(apply passert_ok; destruct remote; done); pstep.
    fold w1; eapply pbind_calls; [apply on_gw_pass; exact Hgi|]; cbn [negb].
    eapply pbind_calls; [apply on_reactor_eq; exact Hti'|]; pstep; fold w2; fold w3; eapply pbind_calls; [exact Ht | reflexivity].
  - destruct (a_connector a).
    + destruct Hw' as (o & -> & Hre & Hst); split; [exact Hrok|]; split; [split; [exact Hok | done]|]; split; [exact Hginv|]; split; [exact Hsrv|].
      split; [exact Hns'|]; exists o; split; [done|]; split; [exact Hre|]; cbn; rewrite Hst; split; discriminate.
    + destruct Hw' as (r2 & -> & Hr2 & Hst); split; [exact Hr2|]; split; [split; [exact Hok | done]|]; split; [exact Hginv|]; split; [exact Hsrv|].
      split; [exact (starts_set _ _ _ Hst) | done].
Qed.
Lemma sugw_inv w g : reachable timer w g -> inv timer w g.
Proof.
  intros (w0 & w1 & mtu & max & buffer & keepalive & server & ai & remote & time & c & i & a & ks & Hp & Hi & Hs).
  destruct (session_init_eq mtu max buffer keepalive server ai remote time c i a w0 Hp) as (w1' & ks' & Hi' & Hinv); rewrite Hi in Hi'; injection Hi' as <- _.
  refine (star_invariant (step timer) (fun p => inv timer (fst p) (snd p)) _ _ _ Hs Hinv).
  intros [a1 g1] [a2 g2] Ha1 Hst; inversion Hst; subst; cbn in *.
  destruct (session_event x a1 g1 Ha1) as (w' & ks2 & Hh & Hinv' & _); [done|]; congruence.
Qed.
Lemma sugw_step w g x w' ks : reachable timer w g -> enabled timer x w g -> handle timer x w = Ok (tt, w', ks) -> reachable timer w' (count x w w' g).
Proof.
  intros (w0 & w1 & mtu & max & buffer & keepalive & server & ai & remote & time & c & i & a & k & Hp & Hi & Hs) Hen Hh.
  exists w0, w1, mtu, max, buffer, keepalive, server, ai, remote, time, c, i, a, k; split; [exact Hp|]; split; [exact Hi|].
  eapply star_step; [exact Hs | econstructor; [exact Hen | exact Hh]].
Qed.
Lemma session_of_eq w g : inv timer w g ->
  (session_of w = Waiting <-> is_set timer (rx w)) /\ (session_of w = Waiting <-> socks_client w = None) /\
  (session_of w = Up <-> have_server (udpgw_client w) = true) /\ (session_of w = Up <-> exists o, socks_client w = Some o /\ state o = STATE_UP) /\
  0 <= attempt_left w <= 133.
Proof.
  intros (_ & _ & _ & Hsrv & Hses); unfold session_ok in Hses; unfold session_of, attempt_left; rewrite Hsrv; destruct (have_socks w); cbn [andb].
  - destruct Hses as (Hns & o & -> & Hre & Hup); destruct (socks_up w).
    + split; [done|]; split; [done|]; split; [done|]; split; [split; [intros _; exists o; tauto | done]|].
      apply (to_do_bound o (gs g)), (SocksHandshake.reachable_inv _ _ Hre).
    + split; [done|]; split; [done|]; split; [done|]; split; [split; [done | intros (o' & [= <-] & Hst); discriminate (proj2 Hup Hst)]|].
      apply (to_do_bound o (gs g)), (SocksHandshake.reachable_inv _ _ Hre).
  - destruct Hses as (Hs & ->); split; [done|]; split; [done|]; split; [done|]; split; [split; [done | intros (? & ? & _); done] | lia].
Qed.

(** C14: Whatever the SOCKS server, the udpgw server, the users and the reactor do, in any order, no
    assertion of the udpgw client over SOCKS fails, nor any of the udpgw client, the SOCKS client
    and the reactor that it is made of, each of which stays in a state its own theorems speak
    of; and it can be freed at any time, which frees them and stops the timer. *)
Theorem SocksUdpGwClient_safe :
  (forall mtu max buffer keepalive server ai remote time c i a w, params_ok timer w mtu max buffer server ai remote time c a -> exists w' ks,
    SocksUdpGwClient_Init timer mtu max buffer keepalive server ai (Zlen ai) remote time true i a w = Ok (true, w', ks) /\
    reachable timer w' (mk_ghost (a_now a) g_init (ghost0 ai))) /\
  (forall w g, reachable timer w g ->
    (forall x, enabled timer x w g -> exists w' ks, handle timer x w = Ok (tt, w', ks) /\ reachable timer w' (count x w w' g)) /\
    (exists c, ReactorLoop.reachable (rx w) c) /\ UdpGwClient.inv (udpgw_client w) (gg g) /\
    (forall o, socks_client w = Some o -> SocksHandshake.reachable (Some o) (gs g)) /\
    (exists w' ks, SocksUdpGwClient_Free timer w = Ok (tt, w', ks) /\ socks_client w' = None /\ ~ is_set timer (rx w') /\ empties (udpgw_client w'))).
Proof.
  split.
  - intros mtu max buffer keepalive server ai remote time c i a w Hp; destruct (session_init_eq mtu max buffer keepalive server ai remote time c i a w Hp) as (w' & ks & Hi & _).
    exists w', ks; split; [exact Hi|]; exists w, w', mtu, max, buffer, keepalive, server, ai, remote, time, c, i, a, ks; split; [exact Hp|]; split; [exact Hi | constructor].
  - intros w g Hre; pose proof (sugw_inv w g Hre) as Hinv; pose proof Hinv as (Hr & Hcfg & Hgw & Hsrv & Hses); split; [|split; [|split; [|split]]].
    + intros x Hen; destruct (session_event x w g Hinv Hen) as (w' & ks & Hh & _); exists w', ks; split; [exact Hh | exact (sugw_step w g x w' ks Hre Hen Hh)].
    + destruct Hr as ((c & Hc & _) & _); eauto.
    + exact Hgw.
    + intros o Ho; unfold session_ok in Hses; destruct (have_socks w); [destruct Hses as (_ & o' & Ho' & Hs & _); congruence | destruct Hses; congruence].
    + assert (exists w1 k, (if have_socks w then free_socks free_now else pskip) w = Ok (tt, w1, k) /\ rx w1 = rx w /\ socks_client w1 = None /\ UdpGwClient.inv (udpgw_client w1) (gg g))
        as (w1 & k1 & Hf & Hrx & Hn & Hi1).
      { unfold session_ok in Hses; destruct (have_socks w) eqn:Hh.
        - destruct Hses as (_ & o & Ho & _); destruct (free_socks_ok w g free_now Hgw Hh Hsrv (free_now_ok w o Ho)) as [k Hk]; eexists _, k; split; [exact Hk|].
          split; [done|]; split; [done|]; apply (gw_down_inv w g Hgw Hsrv).
        - exists w, []; destruct Hses; done. }
      destruct Hr as ((c & Hc & _) & _ & ms & Hms & _); destruct (op_remove_timer timer _ c ms Hc Hms) as (r & Hrm & _ & Hns).
      set (w2 := w1 <| rx := r |>); destruct (client_free _ _ Hi1) as (o' & k3 & Hfr & Hem); exists (w2 <| udpgw_client := o' |>); eexists; split; [|done].
      unfold SocksUdpGwClient_Free; pstep; eapply pbind_calls; [exact Hf|]; eapply pbind_calls; [apply on_reactor_eq; rewrite Hrx; exact Hrm|]; fold w2; apply on_gw_pass; exact Hfr.
Qed.

(** C13: The client is always either waiting, with the reconnect timer set, or connecting, or connected,
    which is when the udpgw client has a server; never two of these, and never none. Events move
    it as they should: when the timer expires a connection is tried; a failure, an error of either
    client or the closing of the connection make it wait, with the timer set to the reconnect time
    from then; an attempt is over after at most 133 events of the SOCKS client. None of this
    touches the flows of the udpgw client or the packets in them. *)
Theorem SocksUdpGwClient_reconnects w g : reachable timer w g ->
  (session_of w = Waiting <-> is_set timer (rx w)) /\ (session_of w = Waiting <-> socks_client w = None) /\
  (session_of w = Up <-> have_server (udpgw_client w) = true) /\ (session_of w = Up <-> exists o, socks_client w = Some o /\ state o = STATE_UP) /\
  0 <= attempt_left w <= 133 /\
  forall x w' ks, enabled timer x w g -> handle timer x w = Ok (tt, w', ks) -> changed x w w'.
Proof.
  intros Hre; pose proof (sugw_inv w g Hre) as Hinv; destruct (session_of_eq w g Hinv) as (H1' & H2' & H3' & H4' & H5').
  do 5 (split; [assumption|]); intros x w' ks Hen Hh; destruct (session_event x w g Hinv Hen) as (w2 & ks2 & Hh2 & _ & Hc); congruence.
Qed.
End proofs.

(** * A run: the first attempt fails, the timer brings the second *)

Section example.
Let W : Type := world avl_tree nat nat.
#[local] Existing Instance arm64.
Definition timer0 : Z := 9.
Definition at_time (now : Z) (connector_ok : bool) : answers := mk_answers now connector_ok SocksHandshake.memory0 true.
Definition blank_world : W :=
  mk_world (match BReactor_Init true ReactorLoop.memory0 with Ok (_, o, _) => o | Err _ => ReactorLoop.memory0 end)
    BADDR_NONE [] 0 BADDR_NONE UdpGwClient.blank false None false.
Definition begun : W := Eval vm_compute in
  match SocksUdpGwClient_Init timer0 10 1 2 0 server0 auth0 (Zlen auth0) dest0 5000 true UdpGwClient.blank_if (at_time 0 false) blank_world with
  | Ok (_, w, _) => w | Err _ => blank_world end.
Definition ghost_begun : ghost := mk_ghost 0 g_init (ghost0 auth0).
Definition expire_timer : @event nat nat := EReactor (ETurn 10 [mk_wake (Some []) 5000]) (at_time 5000 true).
Definition dispatch_timer0 : @event nat nat := EReactor (ETurn 5000 []) (at_time 5000 true).
Definition due_world : W := Eval vm_compute in match handle timer0 expire_timer begun with Ok (_, w, _) => w | Err _ => begun end.
Definition ghost_due : ghost := mk_ghost 5000 g_init (ghost0 auth0).

Lemma blank_ok : params_ok timer0 blank_world 10 1 2 server0 auth0 dest0 5000 0 (at_time 0 false).
Proof.
  split; [reflexivity|]; split; [|split; [|split; [exact UdpGwClient.example_setup|]; split; [exact init0_ok|]; split; [split; done|]; split; [split; done | reflexivity]]].
  - exists ReactorLoop.memory0, (rx blank_world), []; split; [split_and!; reflexivity|]; split; [reflexivity | constructor].
  - intros [(t & Ht & _)|(t & Ht & _)]; discriminate Ht.
Qed.
Lemma begun_init : exists ks, SocksUdpGwClient_Init timer0 10 1 2 0 server0 auth0 (Zlen auth0) dest0 5000 true UdpGwClient.blank_if (at_time 0 false) blank_world = Ok (true, begun, ks).
Proof. eexists; vm_compute; reflexivity. Qed.
Lemma expire_enabled : enabled timer0 expire_timer begun ghost_begun.
Proof.
  split; [|split; [exact I | split; done]].
  split; [reflexivity|]; split; [split; done|]; change (wakes_ok (fds (rx begun)) (Some 5000) 10 [mk_wake (Some []) 5000]).
  cbn [wakes_ok w_now w_events]; split; [split; done|]; split; [|reflexivity]; exists 5000; split; [reflexivity | vm_compute; discriminate].
Qed.
Lemma due_reachable : reachable timer0 due_world ghost_due.
Proof.
  destruct begun_init as [ks Hi]; exists blank_world, begun, 10, 1, 2, 0, server0, auth0, dest0, 5000, 0, UdpGwClient.blank_if, (at_time 0 false), ks.
  split; [exact blank_ok|]; split; [exact Hi|]; eapply star_step; [apply star_refl|].
  refine (step_intro timer0 expire_timer begun ghost_begun due_world _ expire_enabled _); vm_compute; reflexivity.
Qed.
Lemma dispatch_enabled : enabled timer0 dispatch_timer0 due_world ghost_due.
Proof. split; [|split; [exact I | split; done]]; split; [reflexivity|]; split; [split; done | reflexivity]. Qed.

Lemma SocksUdpGwClient_safe_witness : exists w ks, handle timer0 dispatch_timer0 due_world = Ok (tt, w, ks) /\
  reachable timer0 w (count dispatch_timer0 due_world w ghost_due).
Proof.
  destruct (SocksUdpGwClient_safe (T := avl_tree) (Hd := nat) (Us := nat) timer0) as (_ & Hs); destruct (Hs _ _ due_reachable) as (Hstep & _).
  exact (Hstep _ dispatch_enabled).
Defined.
Lemma SocksUdpGwClient_reconnects_witness : session_of due_world = Waiting /\ exists w ks,
  handle timer0 dispatch_timer0 due_world = Ok (tt, w, ks) /\ session_of w = Connecting /\ gw_kept due_world w.
Proof.
  destruct (SocksUdpGwClient_reconnects timer0 _ _ due_reachable) as (_ & _ & _ & _ & _ & Hc).
  assert (exists w ks, handle timer0 dispatch_timer0 due_world = Ok (tt, w, ks)) as (w & ks & Hh) by (eexists _, _; vm_compute; reflexivity).
  split; [reflexivity|]; exists w, ks; split; [exact Hh|]; destruct (Hc _ _ _ dispatch_enabled Hh) as ([Hsess _] & Hk); split; [exact Hsess | exact Hk].
Defined.
End example.
